(* ===== verification/_CoqProject ===== *)
-Q . S2P
Prelude.v
Str.v
Bio.v
Log.v
Crash.v
Machine.v
CrashFs.v
Types.v
Vm.v
Codec.v
Kmem.v
Pgtbl.v
Uvm.v
Kvm.v
UvmSpec.v
VmDemo.v
Ld.v
Balloc.v
Inode.v
Bmap.v
Imap.v
Rw.v
FileSpec.v
FileCrash.v
Dir.v
DirSpec.v
Demo.v
Pipe.v
PipeSpec.v
File.v
Sysfile.v
Proc.v
Userinit.v
Exec.v
Syscall.v
Frame.v
ProcSpec.v
ProcFun.v
ProcDemo.v
Shape.v
Ulib.v
Grep.v
Sh.v
ShSpec.v
ShPrint.v
Umalloc.v
UmallocSpec.v
Mkfs.v
MkfsSpec.v
MkfsDir.v
MkfsMain.v
MkfsBoot.v
MkfsRead.v
ShRun.v
Hart.v
Asm.v
Spin.v
Ring.v
Printf.v
Console.v
ConsoleSpec.v
Virtio.v
VirtioSpec.v
Trap.v
TrapSpec.v
TrapBoot.v
Sched.v
Main.v
Utils.v
