(* ===== verification/Prelude.v ===== *)
(** * A verification library for xv6 with an extended file system

    The program is the teaching kernel xv6 for RISC-V, changed to have hashed
    directories, an inode bitmap, double and triple indirect blocks, extents,
    access modes, symbolic links, lseek, undelete-style listing and free-space
    counters.  All paths below are relative to src/src.

    ** The parts and where they are modelled

    - string.c: Str.v.  Byte buffers are lists of [Z]; [memmove] is the loop on
      one array, so overlap is visible.
    - bio.c, sleeplock.c: Bio.v.  Buffers with sleep-locks, the LRU list, the
      disk as a finite map of blocks, and the trace of disk writes.
    - log.c: Log.v (the code), Crash.v (recovery after a crash inside commit),
      Machine.v (the block interface as a free monad [prog], run by [hC] on
      cache, log and disk and by [hA] on a logical disk, with the refinement
      between the two), CrashFs.v (a crash anywhere in a kernel program).
    - fs.h, file.h, proc.h: Types.v (records, and [kst], the kernel memory) and
      Codec.v (on-disk superblock, inode and directory entry).
    - kalloc.c, vm.c: Vm.v (the code), Kmem.v (free list), Pgtbl.v (page-table
      trees), Uvm.v and UvmSpec.v (address spaces), VmDemo.v (witnesses).
    - fs.c: Balloc.v (bitmaps and counters), Inode.v (inodes, bmap, itrunc,
      readi, writei), Dir.v (directories, paths, symbolic links).  Their theory:
      Ld.v (proof rules of the logical disk), Bmap.v and Imap.v (block map),
      Rw.v and FileSpec.v (files as byte sequences), FileCrash.v (writes under
      crashes), DirSpec.v (directories as hash tables), Demo.v (witnesses).
    - pipe.c: Pipe.v and PipeSpec.v.  file.c: File.v.  sysfile.c and the mode
      calls: Sysfile.v.
    - proc.c: Proc.v; exec.c: Exec.v; sysproc.c and syscall.c: Syscall.v.
      Theory: Userinit.v (the first process and its address space), Frame.v
      (what kernel programs leave alone), ProcSpec.v (the step relation of the
      system and its invariant), ProcFun.v (exit, wait, kill), ProcDemo.v (a run
      from boot to exit and wait, and witnesses), Shape.v (the sizes of the
      tables), Sched.v (scheduler and sched on any number of CPUs).
    - spinlock.c: Spin.v, any number of CPUs interleaved at each access to
      shared memory.
    - riscv.h, entry.S, trampoline.S, kernelvec.S, swtch.S: Hart.v (registers,
      CSRs, privilege, address translation) and Asm.v (the routines,
      instruction by instruction).
    - printf.c of kernel and user: Printf.v, over any routine for a character.
      console.c and uart.c: Console.v; ConsoleSpec.v has the laws of the UART
      and the line discipline, Ring.v is about ring buffers.
    - virtio_disk.c and virtio.h: Virtio.v; VirtioSpec.v has the device and the
      abstract disk.
    - trap.c, plic.c, start.c and forkret: Trap.v; TrapSpec.v (a trap from user
      code and from the kernel, through the assembly), TrapBoot.v (start-up of a
      hart, and witnesses).
    - kvmmake, kvmmap and proc_mapstacks: Kvm.v.  main.c: Main.v.
    - mkfs/mkfs.c: Mkfs.v; MkfsSpec.v, MkfsDir.v and MkfsMain.v describe the
      image, MkfsBoot.v and MkfsRead.v what the kernel sees of it.
    - user/ulib.c: Ulib.v; user/umalloc.c: Umalloc.v and UmallocSpec.v;
      user/grep.c: Grep.v; user/sh.c: Sh.v (the parser), ShSpec.v and ShPrint.v
      (its theory), ShRun.v (what a command starts); user/cat.c, wc.c, echo.c,
      ls.c, recyclelist.c and refresh.c: Utils.v.

    ** Correspondence of state and operations

    The state of the kernel is [kst] (tables, physical memory, processes) next
    to [bstate] (cache, log, disk).  A C function is a definition of the same
    name: [stM S A] (state passing with outcomes [Ok], [Panic], [Sleep] and
    [Wrong]) where it touches no disk block, and [prog kst A] where it does.
    [Panic] is a call of panic, [Sleep] a process that waits, and [Wrong] a use
    of memory the code never makes when its callers keep their contracts (a
    buffer that is not held, loop fuel that ran out).  A pointer into a static
    table is an index, a page is its physical address, an [int] or [uint] is a
    [Z] with its wrap-around ([s32], [u32], ...) where arithmetic can leave the
    range.  Spin-locks bracket a routine's critical section, which is one step
    (Spin.v justifies this); sleep-locks are part of the state.

    A larger state zooms into the smaller ones: a trap runs on [tst], which has
    the hart, [kst] with [bstate], the console, the disk driver, the ticks and
    the interrupt controller.  Devices, and system calls as the utilities see
    them, are classes ([Uart], [Plic], [Sys]) with laws ([UartLaws], [SysLaws])
    that state the documented behaviour; each has an instance.  Addresses the
    linker chooses are the record [link].

    ** What the theorems show

    - Storage: commit is atomic under a crash at any disk write, any kernel
      program recovers to its start or one of its commits, and a write is seen
      after a crash as a whole or not at all; cache, log and disk refine a plain
      logical disk for every program over the block interface.
    - Files: bmap, readi and writei implement a byte sequence; the allocators
      hand out the first free block or inode and keep their counters equal to
      the number of free bits; a name linked into a hashed directory is found.
    - Memory: the free list, page-table trees, the copies between kernel and
      user, growth and duplication of address spaces, with what happens when
      memory runs out half way.
    - Pipes are bounded FIFO queues whose counters wrap.
    - Processes: an invariant of every reachable state of the system, and
      exact descriptions of exit, wait and kill.
    - Types: the tables keep their sizes and names stay C strings.
    - Scheduling: on any number of CPUs a process is on at most one, and a
      runnable process gets one within a round of any CPU.
    - Locks: mutual exclusion of spin-locks, with the interrupt discipline.
    - Devices: driver and virtio device together are an atomic disk, and no
      request is lost; the console delivers what the line discipline says;
      output is a queue.
    - Traps: interrupts are invisible to user and kernel code, a system call
      returns behind its ecall with its result, start-up and the timer work.
    - Boot: the kernel's page table is exactly the intended map, and main
      brings every component into the state its invariant describes.
    - mkfs: the kernel boots from the image it builds and reads every file of
      the host under its name.
    - User programs: the shell runs what the command says, its parser inverts
      printing; grep prints the matching lines; malloc and free keep the heap;
      cat, wc, ls and recyclelist print what they should.

    ** Bounds and fuel

    Loops that are not structural take fuel computed from the code's own bounds
    (the number of blocks or pages of the request, plus a constant); the
    theorems that state a result are proved for that fuel, so the [Wrong]
    outcome of exhausted fuel is excluded by them.  System calls are modelled on
    one CPU; Spin.v and Sched.v have any number.  Sizes the code fixes (NPROC,
    NINODE, LOGSIZE, NUM, ...) are the code's.  A polling loop of a device takes
    more fuel than the device is busy, by a law of its class.

    ** Not modelled

    - The TLB and memory ordering: translations take effect at once, fences do
      nothing.
    - The rest of a call after it slept: a call that goes to sleep ends with the
      outcome [Sleep] and the state it has reached, and the step relation lets
      the process make a new call when it is woken.  The register contexts that
      swtch saves are in Asm.v only.
    - Preemption inside system calls: with one CPU and the locks they take, calls
      are steps of the system; interrupts in the kernel are in TrapSpec.v.
    - The messages sys_showstat and the mode calls print, and the entries of devsw,
      which are a parameter.
    - ramdisk.c: the kernel is not linked with it.
    - user/init.c and the programs that make one or two system calls (ln, rm,
      mkdir, kill, delete, open, lseek, chmode, chspmode, fsinfo, sysinfo,
      zombie): they have no state of their own.
    - The test programs (usertests.c, grind.c and the other tests): they exercise
      the calls whose properties are proved here. *)
From Stdlib Require Export ZArith Lia.
From stdpp Require Export base option list gmap numbers sets strings.
#[export] Set Warnings "-notation-incompatible-prefix".
Open Scope Z_scope.

(** ** Machine integers

    A C integer of width [w] is a [Z]; the wrap-around of each type is a
    function applied where the source's arithmetic can overflow. *)

Definition u8 (x : Z) : Z := x mod 2 ^ 8.
Definition u16 (x : Z) : Z := x mod 2 ^ 16.
Definition u32 (x : Z) : Z := x mod 2 ^ 32.
Definition u64 (x : Z) : Z := x mod 2 ^ 64.

(** Two's-complement reading of the low [w] bits. *)
Definition sint (w : Z) (x : Z) : Z :=
  let y := x mod 2 ^ w in if y <? 2 ^ (w - 1) then y else y - 2 ^ w.
Definition s16 (x : Z) : Z := sint 16 x.
Definition s32 (x : Z) : Z := sint 32 x.

(** ** Byte buffers *)

Notation bytes := (list Z).

(** Bytes [off .. off+n) of a buffer. *)
Definition sub (off n : Z) (l : bytes) : bytes :=
  take (Z.to_nat n) (drop (Z.to_nat off) l).

(** [memmove(l + off, new, length new)] for a buffer that is long enough. *)
Definition splice (off : Z) (new l : bytes) : bytes :=
  take (Z.to_nat off) l ++ new ++ drop (Z.to_nat off + length new) l.

Definition zlen {A} (l : list A) : Z := Z.of_nat (length l).

(** [l[i]] read as 0 out of range (never reached by the code modelled). *)
Definition getb (i : Z) (l : bytes) : Z := nth (Z.to_nat i) l 0.
Definition setb (i x : Z) (l : bytes) : bytes := <[Z.to_nat i := x]> l.

Definition zeros (n : Z) : bytes := replicate (Z.to_nat n) 0.

(** Little-endian words of [n] bytes. *)
Fixpoint le_enc (n : nat) (x : Z) : bytes :=
  match n with
  | O => []
  | S n => x mod 256 :: le_enc n (x / 256)
  end.

Fixpoint le_dec (l : bytes) : Z :=
  match l with
  | [] => 0
  | b :: l => b + 256 * le_dec l
  end.

Definition ld16 (off : Z) (l : bytes) : Z := le_dec (sub off 2 l).
Definition ld32 (off : Z) (l : bytes) : Z := le_dec (sub off 4 l).
Definition ld64 (off : Z) (l : bytes) : Z := le_dec (sub off 8 l).
Definition st16 (off x : Z) (l : bytes) : bytes := splice off (le_enc 2 x) l.
Definition st32 (off x : Z) (l : bytes) : bytes := splice off (le_enc 4 x) l.
Definition st64 (off x : Z) (l : bytes) : bytes := splice off (le_enc 8 x) l.

(** ** Outcomes and the state monad

    A kernel routine returns a value in a new state, calls [panic], goes to
    sleep on a channel nobody in this run will wake, or leaves the domain of
    the model ([Wrong]: a use of a released buffer, an update that is never
    logged). *)

Inductive outcome (S A : Type) : Type :=
| Ok (a : A) (s : S)
| Panic (msg : string)
| Sleep (chan : string) (s : S)
| Wrong (why : string).
Arguments Ok {S A} a s.
Arguments Panic {S A} msg.
Arguments Sleep {S A} chan s.
Arguments Wrong {S A} why.

Definition stM (S A : Type) : Type := S -> outcome S A.

Section Monad.
  Context {S : Type}.

Definition sret {A} (a : A) : stM S A := fun s => Ok a s.

Definition sbind {A B} (m : stM S A) (f : A -> stM S B) : stM S B := fun s =>
  match m s with
  | Ok a s' => f a s'
  | Panic msg => Panic msg
  | Sleep c s' => Sleep c s'
  | Wrong w => Wrong w
  end.

Definition spanic {A} (msg : string) : stM S A := fun _ => Panic msg.
Definition sget : stM S S := fun s => Ok s s.
Definition sput (s : S) : stM S unit := fun _ => Ok tt s.
Definition smodify (f : S -> S) : stM S unit := fun s => Ok tt (f s).

(** A counted loop: the body for each element of the index list. *)
Fixpoint sfor {I} (l : list I) (f : I -> stM S unit) : stM S unit :=
  match l with
  | [] => sret tt
  | i :: l => sbind (f i) (fun _ => sfor l f)
  end.

(** Total correctness: the run returns, in a state satisfying [Q]. *)
Definition wp {A} (m : stM S A) (Q : A -> S -> Prop) (s : S) : Prop :=
  match m s with Ok a s' => Q a s' | _ => False end.

End Monad.

Declare Scope st_scope.
Delimit Scope st_scope with st.
Notation "x <- m ; k" := (sbind m (fun x => k))
  (at level 20, m at level 100, k at level 200, only parsing) : st_scope.
Notation "' x <- m ; k" := (sbind m (fun x => k))
  (at level 20, x pattern, m at level 100, k at level 200, only parsing) : st_scope.
Notation "m ;; k" := (sbind m (fun _ => k))
  (at level 100, k at level 200, right associativity) : st_scope.

(** ** Lemmas: lists and byte buffers *)

Lemma length_le_enc n x : length (le_enc n x) = n.
Proof. revert x; induction n as [|n IH]; intros x; simpl; [done|]. by rewrite IH. Qed.

Lemma le_dec_enc n x : le_dec (le_enc n x) = x mod 256 ^ Z.of_nat n.
Proof.
  revert x; induction n as [|n IH]; intros x.
  - simpl. by rewrite Z.mod_1_r.
  - cbn [le_enc le_dec]. rewrite IH, Nat2Z.inj_succ, Z.pow_succ_r by lia.
    rewrite Z.rem_mul_r by lia. lia.
Qed.

Lemma length_sub off n (l : bytes) :
  0 <= off -> 0 <= n -> off + n <= zlen l -> length (sub off n l) = Z.to_nat n.
Proof. intros. unfold sub, zlen in *. rewrite length_take, length_drop. lia. Qed.

Lemma length_splice off (new l : bytes) :
  0 <= off -> off + zlen new <= zlen l -> length (splice off new l) = length l.
Proof.
  intros. unfold splice, zlen in *.
  rewrite !length_app, length_take, length_drop. lia.
Qed.

Lemma sub_splice_eq off (new l : bytes) :
  0 <= off -> off + zlen new <= zlen l -> sub off (zlen new) (splice off new l) = new.
Proof.
  intros. unfold sub, splice, zlen in *.
  rewrite drop_app_length' by (rewrite length_take; lia).
  rewrite Nat2Z.id. by rewrite take_app_length.
Qed.

Lemma lookup_sub off n (l : bytes) i :
  (i < Z.to_nat n)%nat -> sub off n l !! i = l !! (Z.to_nat off + i)%nat.
Proof. intros. unfold sub. by rewrite lookup_take_lt, lookup_drop by lia. Qed.

Lemma lookup_splice_out off (new l : bytes) i :
  0 <= off -> off + zlen new <= zlen l ->
  (i < Z.to_nat off \/ Z.to_nat off + length new <= i)%nat ->
  splice off new l !! i = l !! i.
Proof.
  intros H0 H1 Hi. unfold splice, zlen in *. destruct Hi as [Hi|Hi].
  - rewrite lookup_app_l by (rewrite length_take; lia). by rewrite lookup_take_lt by lia.
  - rewrite lookup_app_r by (rewrite length_take; lia).
    rewrite lookup_app_r by (rewrite length_take; lia).
    rewrite lookup_drop, length_take. f_equal. lia.
Qed.

Lemma sub_splice_ne off (new l : bytes) o n :
  0 <= off -> off + zlen new <= zlen l -> 0 <= o -> 0 <= n -> o + n <= zlen l ->
  (o + n <= off \/ off + zlen new <= o) ->
  sub o n (splice off new l) = sub o n l.
Proof.
  intros. apply list_eq. intros i.
  destruct (decide (i < Z.to_nat n)%nat) as [Hi|Hi].
  - rewrite !lookup_sub by done. apply lookup_splice_out; unfold zlen in *; lia.
  - rewrite !lookup_ge_None_2; [done| |];
      rewrite length_sub; unfold zlen in *; rewrite ?length_splice; unfold zlen; lia.
Qed.

Lemma ld32_st32_eq off x (l : bytes) :
  0 <= off -> off + 4 <= zlen l -> ld32 off (st32 off x l) = u32 x.
Proof.
  intros. unfold ld32, st32.
  change 4 with (zlen (le_enc 4 x)). rewrite sub_splice_eq; [|done|].
  - rewrite le_dec_enc. done.
  - unfold zlen at 1. rewrite length_le_enc. done.
Qed.

Lemma ld32_st32_ne off x (l : bytes) o :
  0 <= off -> off + 4 <= zlen l -> 0 <= o -> o + 4 <= zlen l ->
  (o + 4 <= off \/ off + 4 <= o) ->
  ld32 o (st32 off x l) = ld32 o l.
Proof.
  intros. unfold ld32, st32. rewrite sub_splice_ne; try done; try lia.
Qed.

Lemma length_st32 off x (l : bytes) :
  0 <= off -> off + 4 <= zlen l -> length (st32 off x l) = length l.
Proof. intros. unfold st32. apply length_splice; [done|]. done. Qed.

Lemma zlen_splice off (new l : bytes) :
  0 <= off -> off + zlen new <= zlen l -> zlen (splice off new l) = zlen l.
Proof. intros. unfold zlen in *. by rewrite length_splice. Qed.

Lemma le_dec_bound (l : bytes) :
  Forall (fun b => 0 <= b < 256) l -> 0 <= le_dec l < 256 ^ zlen l.
Proof.
  unfold zlen. induction 1 as [|b l Hb Hl IH].
  - simpl. lia.
  - cbn [le_dec length]. rewrite Nat2Z.inj_succ, Z.pow_succ_r by lia. lia.
Qed.

(** ** Lemmas: total correctness of the state monad *)

(** ** Lemmas: lists of lists

    The pages of a tree are a [flat_map] over the entries of its root; these
    lemmas say that the images of different entries are apart and what
    happens when one entry changes. *)

Lemma lookup_nth {A} (l : list A) i d : (i < length l)%nat -> l !! i = Some (nth i l d).
Proof. intros H. destruct (nth_lookup_or_length l i d); [done|lia]. Qed.

Lemma elem_flat_map {A B} (f : A -> list B) (l : list A) x : x ∈ flat_map f l <-> exists y, y ∈ l /\ x ∈ f y.
Proof.
  rewrite list_elem_of_In, in_flat_map. setoid_rewrite list_elem_of_In. done.
Qed.

Lemma flat_map_ext_elem {A B} (f g : A -> list B) l :
  (forall x, x ∈ l -> f x = g x) -> flat_map f l = flat_map g l.
Proof.
  induction l as [|x l IH]; intros E; [done|]. cbn [flat_map].
  rewrite (E x ltac:(apply elem_of_cons; by left)). f_equal. apply IH. intros y Hy. apply E, elem_of_cons. by right.
Qed.

Lemma flat_map_insert {A B} (f : A -> list B) (l : list A) i x :
  l !! i = Some x -> flat_map f l = flat_map f (take i l) ++ f x ++ flat_map f (drop (S i) l).
Proof.
  intros H. rewrite <- (take_drop_middle l i x H) at 1. by rewrite flat_map_app.
Qed.

Lemma NoDup_flat_map_update {A B} (f f' : A -> list B) (l : list A) i x x' :
  NoDup (flat_map f l) -> l !! i = Some x ->
  (forall j y, j <> i -> l !! j = Some y -> f' y = f y) ->
  NoDup (f' x') ->
  (forall z, z ∈ f' x' -> z ∈ f x \/ z ∉ flat_map f l) ->
  NoDup (flat_map f' (<[i := x']> l)).
Proof.
  intros Hnd Hx Ho Hx' Hz. assert (Hi : (i < length l)%nat) by (by eapply lookup_lt_Some).
  rewrite (flat_map_insert f' (<[i := x']> l) i x') by (by apply list_lookup_insert_eq).
  rewrite take_insert_ge, drop_insert_lt by lia.
  assert (E : forall l', (forall y, y ∈ l' -> f' y = f y) -> flat_map f' l' = flat_map f l').
  { induction l' as [|y l' IH]; intros H; [done|]. simpl. rewrite H by (by left). f_equal.
    apply IH. intros z Hz'. apply H. by right. }
  rewrite (E (take i l)), (E (drop (S i) l)).
  - rewrite (flat_map_insert f l i x Hx) in Hnd, Hz.
    apply NoDup_app in Hnd as (H1 & H2 & H3). apply NoDup_app in H3 as (H4 & H5 & H6).
    apply NoDup_app. split; [done|]. split.
    + intros z Hz1 Hz2. apply elem_of_app in Hz2 as [Hz2|Hz2].
      * destruct (Hz z Hz2) as [Hz3|Hz3]; [apply (H2 z Hz1); set_solver|set_solver].
      * apply (H2 z Hz1). set_solver.
    + apply NoDup_app. split; [done|]. split; [|done].
      intros z Hz1 Hz2. destruct (Hz z Hz1) as [Hz3|Hz3]; [by apply (H5 z)|set_solver].
  - intros y Hy. apply list_elem_of_lookup in Hy as [j Hj]. rewrite lookup_drop in Hj.
    eapply Ho; [|done]. lia.
  - intros y Hy. apply list_elem_of_lookup in Hy as [j Hj].
    assert (j < i)%nat by (apply lookup_lt_Some in Hj; rewrite length_take in Hj; lia).
    rewrite lookup_take_lt in Hj by done. eapply Ho; [|done]. lia.
Qed.

(** Members of different images differ. *)
Lemma flat_map_disjoint {A B} (f : A -> list B) (l : list A) i j x y z :
  NoDup (flat_map f l) -> i <> j -> l !! i = Some x -> l !! j = Some y -> z ∈ f x -> z ∈ f y -> False.
Proof.
  intros Hnd Hij Hx Hy Hzx Hzy. rewrite (flat_map_insert f l i x Hx) in Hnd.
  apply NoDup_app in Hnd as (_ & H1 & H2). apply NoDup_app in H2 as (_ & H3 & _).
  destruct (decide (j < i)%nat).
  - apply (H1 z); [|set_solver]. apply elem_flat_map. exists y. split; [|done].
    apply list_elem_of_lookup. exists j. by rewrite lookup_take_lt by lia.
  - apply (H3 z Hzx). apply elem_flat_map. exists y. split; [|done].
    apply list_elem_of_lookup. exists (j - S i)%nat. rewrite lookup_drop. replace (S i + (j - S i))%nat with j by lia. done.
Qed.

Lemma NoDup_flat_map_elem {A B} (f : A -> list B) (l : list A) x : NoDup (flat_map f l) -> x ∈ l -> NoDup (f x).
Proof.
  intros H Hx. apply list_elem_of_lookup in Hx as [i Hi]. rewrite (flat_map_insert f l i x Hi) in H.
  apply NoDup_app in H as (_ & _ & H). by apply NoDup_app in H as (H & _ & _).
Qed.

Section WpLemmas.
  Context {S : Type}.

Lemma wp_bind {A B} (m : stM S A) (f : A -> stM S B) Q s :
  wp m (fun a s' => wp (f a) Q s') s -> wp (sbind m f) Q s.
Proof. unfold wp, sbind. by destruct (m s). Qed.

Lemma wp_mono {A} (m : stM S A) (P Q : A -> S -> Prop) s :
  wp m P s -> (forall a s', P a s' -> Q a s') -> wp m Q s.
Proof. unfold wp. destruct (m s); naive_solver. Qed.

Lemma wp_seq {A B} (m : stM S A) (f : A -> stM S B) (P : A -> S -> Prop) Q s :
  wp m P s -> (forall a s', P a s' -> wp (f a) Q s') -> wp (sbind m f) Q s.
Proof. intros H1 H2. apply wp_bind. by eapply wp_mono. Qed.

Lemma wp_ret {A} (a : A) (Q : A -> S -> Prop) s : Q a s -> wp (sret a) Q s.
Proof. done. Qed.

Lemma wp_conj {A} (m : stM S A) (P Q : A -> S -> Prop) s :
  wp m P s -> wp m Q s -> wp m (fun a s' => P a s' /\ Q a s') s.
Proof. unfold wp. by destruct (m s). Qed.

(** A counted loop, by an invariant on the indices already processed. *)
Lemma wp_sfor {I} (l : list I) (f : I -> stM S unit) (Inv : list I -> S -> Prop) s :
  Inv [] s ->
  (forall pre i post s, l = pre ++ i :: post -> Inv pre s ->
     wp (f i) (fun _ s' => Inv (pre ++ [i]) s') s) ->
  wp (sfor l f) (fun _ s' => Inv l s') s.
Proof.
  intros H0 Hstep.
  cut (forall post pre s, l = pre ++ post -> Inv pre s -> wp (sfor post f) (fun _ s' => Inv l s') s).
  { intros H. by apply (H l []). }
  induction post as [|i post IH]; intros pre s1 Hl Hinv; simpl.
  - apply wp_ret. by rewrite Hl, app_nil_r.
  - eapply wp_seq; [by eapply Hstep|].
    intros [] s2 H2. apply (IH (pre ++ [i])); [|done]. by rewrite Hl, <- app_assoc.
Qed.

End WpLemmas.

(** The development's hint databases: [bytes_db] rewrites lengths of updated
    buffers. *)
Create HintDb bytes_db discriminated.
#[export] Hint Rewrite @length_app @length_replicate @length_insert length_le_enc : bytes_db.

(** One step of a run: open a bind and expose its first action. *)
Ltac wp_step := eapply wp_bind.
(** Evaluate the actions that only read or write the state record. *)
Ltac wp_pures := repeat (apply wp_bind; cbv [wp sget sput smodify sret]; cbv beta iota).
