(* ===== verification/Str.v ===== *)
(** * Byte and string routines (kernel/string.c)

    [memmove] is the byte-by-byte loop on one address space, so that the
    overlapping case is visible; strings are byte lists whose end reads as
    NUL. *)
From S2P Require Import Prelude.

(** [memset(dst, c, n)]: the bytes written. *)
Fixpoint memset_loop (mem : bytes) (dst c : Z) (i : Z) (n : nat) : bytes :=
  match n with
  | O => mem
  | S n => memset_loop (setb (dst + i) (u8 c) mem) dst c (i + 1) n
  end.
Definition memset (mem : bytes) (dst c n : Z) : bytes := memset_loop mem dst c 0 (Z.to_nat n).

Fixpoint memcmp_loop (n : nat) (s1 s2 : bytes) : Z :=
  match n with
  | O => 0
  | S n => if negb (getb 0 s1 =? getb 0 s2) then getb 0 s1 - getb 0 s2
           else memcmp_loop n (tail s1) (tail s2)
  end.
Definition memcmp (v1 v2 : bytes) (n : Z) : Z := memcmp_loop (Z.to_nat n) v1 v2.

(** [memmove(dst, src, n)] inside one array [mem]; [dst] and [src] are
    offsets into it. *)
Fixpoint move_down (mem : bytes) (d s : Z) (n : nat) : bytes :=
  match n with
  | O => mem
  | S n => move_down (setb (d - 1) (getb (s - 1) mem) mem) (d - 1) (s - 1) n
  end.
Fixpoint move_up (mem : bytes) (d s : Z) (n : nat) : bytes :=
  match n with
  | O => mem
  | S n => move_up (setb d (getb s mem) mem) (d + 1) (s + 1) n
  end.
Definition memmove (mem : bytes) (dst src n : Z) : bytes :=
  if n =? 0 then mem
  else if (src <? dst) && (dst <? src + n) then move_down mem (dst + n) (src + n) (Z.to_nat n)
  else move_up mem dst src (Z.to_nat n).

Fixpoint strncmp_loop (n : nat) (p q : bytes) : Z :=
  match n with
  | O => 0
  | S n =>
      if negb (getb 0 p =? 0) && (getb 0 p =? getb 0 q) then strncmp_loop n (tail p) (tail q)
      else getb 0 p - getb 0 q
  end.
Definition strncmp (p q : bytes) (n : Z) : Z := strncmp_loop (Z.to_nat n) p q.

(** The [n] bytes strncpy stores. *)
Fixpoint strncpy_loop (n : nat) (t : bytes) : bytes :=
  match n with
  | O => []
  | S n => if getb 0 t =? 0 then replicate (S n) 0 else getb 0 t :: strncpy_loop n (tail t)
  end.
Definition strncpy (t : bytes) (n : Z) : bytes := strncpy_loop (Z.to_nat n) t.

(** The bytes safestrcpy stores (none for [n <= 0]). *)
Fixpoint safestrcpy_loop (n : nat) (t : bytes) : bytes :=
  match n with
  | O => [0]
  | S n => if getb 0 t =? 0 then [0; 0] else getb 0 t :: safestrcpy_loop n (tail t)
  end.
Definition safestrcpy (t : bytes) (n : Z) : bytes :=
  if n <=? 0 then [] else safestrcpy_loop (Z.to_nat (n - 1)) t.

Fixpoint strlen (s : bytes) : Z :=
  match s with
  | [] => 0
  | c :: s => if c =? 0 then 0 else 1 + strlen s
  end.

(** The string a buffer holds: its bytes up to the first NUL. *)
Fixpoint cstr (s : bytes) : bytes :=
  match s with
  | [] => []
  | c :: s => if c =? 0 then [] else c :: cstr s
  end.

(** ** Lemmas *)

Lemma length_move_up mem d s n : length (move_up mem d s n) = length mem.
Proof. revert mem d s. induction n as [|n IH]; intros; simpl; [done|]. rewrite IH. apply length_insert. Qed.
Lemma length_move_down mem d s n : length (move_down mem d s n) = length mem.
Proof. revert mem d s. induction n as [|n IH]; intros; simpl; [done|]. rewrite IH. apply length_insert. Qed.

Lemma nth_setb i x (l : bytes) j :
  0 <= i < zlen l -> nth j (setb i x l) 0 = if decide (j = Z.to_nat i) then x else nth j l 0.
Proof.
  intros Hi. unfold setb, zlen in *. rewrite !nth_lookup. case_decide as E.
  - subst. by rewrite list_lookup_insert_eq by lia.
  - by rewrite list_lookup_insert_ne by lia.
Qed.

(** The forward loop is right when the destination does not start inside
    the part of the source still to be read. *)
Lemma nth_move_up n mem d s j :
  0 <= d -> 0 <= s -> d + Z.of_nat n <= zlen mem -> s + Z.of_nat n <= zlen mem ->
  (d <= s \/ s + Z.of_nat n <= d) ->
  nth j (move_up mem d s n) 0
  = if decide (Z.to_nat d <= j < Z.to_nat d + n)%nat then nth (j - Z.to_nat d + Z.to_nat s) mem 0 else nth j mem 0.
Proof.
  revert mem d s. induction n as [|n IH]; intros mem d s Hd Hs H1 H2 Ho; cbn [move_up].
  { by rewrite decide_False by lia. }
  rewrite IH by (unfold setb, zlen in *; rewrite ?length_insert; lia).
  unfold getb. rewrite !nth_setb by (unfold zlen in *; lia).
  destruct (decide (Z.to_nat (d + 1) <= j < Z.to_nat (d + 1) + n)%nat) as [A|A].
  - rewrite decide_False by lia. rewrite decide_True by lia. f_equal. lia.
  - destruct (decide (j = Z.to_nat d)) as [E|E].
    + rewrite decide_True by lia. f_equal. lia.
    + by rewrite decide_False by lia.
Qed.

(** The backward loop is right when the source starts below. *)
Lemma nth_move_down n mem d s j :
  Z.of_nat n <= d -> Z.of_nat n <= s -> d <= zlen mem -> s <= zlen mem -> s <= d ->
  nth j (move_down mem d s n) 0
  = if decide (Z.to_nat d - n <= j < Z.to_nat d)%nat then nth (j + Z.to_nat s - Z.to_nat d) mem 0 else nth j mem 0.
Proof.
  revert mem d s. induction n as [|n IH]; intros mem d s Hd Hs H1 H2 Ho; cbn [move_down].
  { by rewrite decide_False by lia. }
  rewrite IH by (unfold setb, zlen in *; rewrite ?length_insert; lia).
  unfold getb. rewrite !nth_setb by (unfold zlen in *; lia).
  destruct (decide (Z.to_nat (d - 1) - n <= j < Z.to_nat (d - 1))%nat) as [A|A].
  - rewrite decide_False by lia. rewrite decide_True by lia. f_equal. lia.
  - destruct (decide (j = Z.to_nat (d - 1))) as [E|E].
    + rewrite decide_True by lia. f_equal. lia.
    + by rewrite decide_False by lia.
Qed.

Lemma nth_splice off new (l : bytes) j :
  0 <= off -> off + zlen new <= zlen l ->
  nth j (splice off new l) 0
  = if decide (Z.to_nat off <= j < Z.to_nat off + length new)%nat then nth (j - Z.to_nat off) new 0 else nth j l 0.
Proof.
  intros H1 H2. unfold zlen in *. rewrite !nth_lookup. case_decide as E.
  - unfold splice. rewrite lookup_app_r by (rewrite length_take; lia).
    rewrite length_take, lookup_app_l by lia. by replace (Z.to_nat off `min` length l)%nat with (Z.to_nat off) by lia.
  - rewrite lookup_splice_out; [done|done|unfold zlen; lia|lia].
Qed.

Lemma nth_sub off n (l : bytes) j :
  (j < Z.to_nat n)%nat -> nth j (sub off n l) 0 = nth (j + Z.to_nat off) l 0.
Proof. intros H. rewrite !nth_lookup, lookup_sub by done. by rewrite Nat.add_comm. Qed.

Lemma getb_splice off new (l : bytes) j : 0 <= off -> off + zlen new <= zlen l -> 0 <= j ->
  getb j (splice off new l) = if decide (off <= j < off + zlen new) then getb (j - off) new else getb j l.
Proof.
  intros H1 H2 Hj. unfold getb. rewrite nth_splice by done. unfold zlen in *.
  destruct (decide (Z.to_nat off <= Z.to_nat j < Z.to_nat off + length new)%nat), (decide (off <= j < off + Z.of_nat (length new)));
    try lia. f_equal. lia.
Qed.

Lemma getb_sub off n (l : bytes) i : 0 <= off -> 0 <= i < n -> getb i (sub off n l) = getb (off + i) l.
Proof. intros Ho Hi. unfold getb. rewrite nth_sub by lia. f_equal. lia. Qed.

Lemma length_setb i x d : length (setb i x d) = length d.
Proof. apply length_insert. Qed.

Lemma getb_setb i j x d : 0 <= i < zlen d -> 0 <= j -> getb j (setb i x d) = if decide (j = i) then x else getb j d.
Proof.
  intros Hi Hj. unfold getb, setb, zlen in *. rewrite !nth_lookup. case_decide as E.
  - subst. rewrite list_lookup_insert_eq by lia. done.
  - rewrite list_lookup_insert_ne by lia. done.
Qed.

Lemma getb_app i (l l' : bytes) : 0 <= i -> getb i (l ++ l') = if decide (i < zlen l) then getb i l else getb (i - zlen l) l'.
Proof.
  intros Hi. unfold getb, zlen. case_decide; [rewrite app_nth1 by lia; done|]. rewrite app_nth2 by lia. f_equal. lia.
Qed.

Lemma list_eq_nth (l1 l2 : bytes) : length l1 = length l2 -> (forall j, nth j l1 0 = nth j l2 0) -> l1 = l2.
Proof. intros Hl H. apply (nth_ext _ _ 0 0 Hl). intros. apply H. Qed.

Lemma strncmp_loop_eq n p q : strncmp_loop n p q = 0 <-> take n (cstr p) = take n (cstr q).
Proof.
  revert p q. induction n as [|n IH]; intros p q; [done|]. cbn [strncmp_loop].
  assert (T : forall l, take (S n) (cstr l) = if getb 0 l =? 0 then [] else getb 0 l :: take n (cstr (tail l))).
  { intros [|c l]; [done|]. unfold getb; simpl. by destruct (c =? 0). }
  rewrite !T. destruct (Z.eqb_spec (getb 0 p) 0) as [E|E]; cbn [negb andb].
  - destruct (Z.eqb_spec (getb 0 q) 0); split; intros H; try done; lia.
  - destruct (Z.eqb_spec (getb 0 p) (getb 0 q)) as [E'|E'].
    + rewrite IH. rewrite <- E'. destruct (Z.eqb_spec (getb 0 p) 0); [done|]. split; [by intros ->|congruence].
    + destruct (Z.eqb_spec (getb 0 q) 0); split; intros H; try done; try lia. congruence.
Qed.

Lemma length_strncpy_loop n t : length (strncpy_loop n t) = n.
Proof.
  revert t. induction n as [|n IH]; intros t; [done|]. cbn [strncpy_loop].
  destruct (_ =? _); [apply length_replicate|]. cbn. by rewrite IH.
Qed.

Lemma cstr_strncpy n t : cstr (strncpy_loop n t) = take n (cstr t).
Proof.
  revert t. induction n as [|n IH]; intros t; [done|]. cbn [strncpy_loop].
  destruct t as [|c t]; [done|]. unfold getb. simpl. destruct (Z.eqb_spec c 0) as [E|E]; [done|].
  simpl. destruct (Z.eqb_spec c 0); [done|]. by rewrite IH.
Qed.
