(* ===== verification/Bio.v ===== *)
(** * The buffer cache (kernel/bio.c)

    [bstate] is the state below the file system: the [NBUF] buffers with
    their sleep-locks, the LRU list, the disk, and the in-memory log of
    log.c (which shares it).  The disk writes are also recorded in order in
    [bs_trace], so that a crash is a prefix of them.

    The linked list through [prev]/[next] is the list of buffer indices from
    [head.next] (most recent) to [head.prev] (least recent).  Spin-locks
    bracket each routine's critical section, which is one atomic step here.
    [virtio_disk_rw] is the transfer of one block; device errors are not
    modelled. *)
From S2P Require Import Prelude.

Notation NBUF := 45%nat (only parsing).
Notation BSIZE := 1024 (only parsing).
Notation LOGSIZE := 45 (only parsing).
Notation MAXOPBLOCKS := 15 (only parsing).
Notation ROOTDEV := 1 (only parsing).

(** struct buf, with the fields of its sleep-lock inlined. *)
Record buf := mkBuf {
  b_valid : bool;
  b_dev : Z;
  b_blockno : Z;
  b_locked : bool;
  b_pid : Z;
  b_refcnt : Z;
  b_data : bytes
}.

(** struct logheader and struct log (log.c), with the header inlined. *)
Record logst := mkLog {
  l_start : Z;
  l_size : Z;
  l_outstanding : Z;
  l_committing : bool;
  l_dev : Z;
  l_n : Z;
  l_block : list Z
}.

Record bstate := mkB {
  bs_bufs : list buf;
  bs_lru : list nat;
  bs_disk : gmap Z bytes;
  bs_trace : list (Z * bytes);
  bs_pid : Z;
  bs_log : logst
}.

Definition zero_block : bytes := replicate (Z.to_nat BSIZE) 0.

(** A static [struct buf] before its first use. *)
Definition buf0 : buf := mkBuf false 0 0 false 0 0 zero_block.

Definition getbuf (s : bstate) (i : nat) : buf := nth i (bs_bufs s) buf0.
Definition dblk (d : gmap Z bytes) (b : Z) : bytes := default zero_block (d !! b).

Definition set_bufs (f : list buf -> list buf) (s : bstate) : bstate :=
  mkB (f (bs_bufs s)) (bs_lru s) (bs_disk s) (bs_trace s) (bs_pid s) (bs_log s).
Definition set_lru (f : list nat -> list nat) (s : bstate) : bstate :=
  mkB (bs_bufs s) (f (bs_lru s)) (bs_disk s) (bs_trace s) (bs_pid s) (bs_log s).
Definition set_log (f : logst -> logst) (s : bstate) : bstate :=
  mkB (bs_bufs s) (bs_lru s) (bs_disk s) (bs_trace s) (bs_pid s) (f (bs_log s)).
Definition updbuf (i : nat) (f : buf -> buf) (s : bstate) : bstate :=
  set_bufs (alter f i) s.

Definition set_data (d : bytes) (b : buf) : buf :=
  mkBuf (b_valid b) (b_dev b) (b_blockno b) (b_locked b) (b_pid b) (b_refcnt b) d.
Definition set_valid (v : bool) (b : buf) : buf :=
  mkBuf v (b_dev b) (b_blockno b) (b_locked b) (b_pid b) (b_refcnt b) (b_data b).
Definition add_ref (k : Z) (b : buf) : buf :=
  mkBuf (b_valid b) (b_dev b) (b_blockno b) (b_locked b) (b_pid b)
        (u32 (b_refcnt b + k)) (b_data b).
Definition set_lock (l : bool) (p : Z) (b : buf) : buf :=
  mkBuf (b_valid b) (b_dev b) (b_blockno b) l p (b_refcnt b) (b_data b).
Definition recycle (dev blockno : Z) (b : buf) : buf :=
  mkBuf false dev blockno (b_locked b) (b_pid b) 1 (b_data b).

(** ** Routines *)
Local Open Scope st_scope.

(** [binit]: each buffer is inserted at the head of the list in turn, so the
    last one initialised is the most recent. *)
Definition binit (s : bstate) : bstate :=
  set_lru (fun _ => rev (seq 0 NBUF)) (set_bufs (map (set_lock false 0)) s).

(** [acquiresleep]/[releasesleep]/[holdingsleep] on a buffer's lock. *)
Definition acquiresleep_buf (i : nat) : stM bstate unit := fun s =>
  if b_locked (getbuf s i) then Sleep "sleep lock" s
  else Ok tt (updbuf i (set_lock true (bs_pid s)) s).
Definition releasesleep_buf (i : nat) : stM bstate unit :=
  smodify (updbuf i (set_lock false 0)).
Definition holdingsleep_buf (i : nat) : stM bstate bool := fun s =>
  Ok (b_locked (getbuf s i) && (b_pid (getbuf s i) =? bs_pid s)) s.

Definition bget (dev blockno : Z) : stM bstate nat := fun s =>
  match List.find (fun i => (b_dev (getbuf s i) =? dev) && (b_blockno (getbuf s i) =? blockno))
                  (bs_lru s) with
  | Some i =>
      (smodify (updbuf i (add_ref 1));; acquiresleep_buf i;; sret i) s
  | None =>
      match List.find (fun i => b_refcnt (getbuf s i) =? 0) (rev (bs_lru s)) with
      | Some i =>
          (smodify (updbuf i (recycle dev blockno));; acquiresleep_buf i;; sret i) s
      | None => Panic "bget: no buffers"
      end
  end.

Definition virtio_disk_rw (i : nat) (write : bool) : stM bstate unit := fun s =>
  let b := getbuf s i in
  if write
  then Ok tt (mkB (bs_bufs s) (bs_lru s) (<[b_blockno b := b_data b]> (bs_disk s))
                  (bs_trace s ++ [(b_blockno b, b_data b)]) (bs_pid s) (bs_log s))
  else Ok tt (updbuf i (set_data (dblk (bs_disk s) (b_blockno b))) s).

Definition bread (dev blockno : Z) : stM bstate nat :=
  i <- bget dev blockno;
  s <- sget;
  if b_valid (getbuf s i) then sret i
  else virtio_disk_rw i false;; smodify (updbuf i (set_valid true));; sret i.

Definition bwrite (i : nat) : stM bstate unit :=
  h <- holdingsleep_buf i;
  if h then virtio_disk_rw i true else spanic "bwrite".

Definition brelse (i : nat) : stM bstate unit :=
  h <- holdingsleep_buf i;
  if negb h then spanic "brelse" else
  releasesleep_buf i;;
  smodify (updbuf i (add_ref (-1)));;
  s <- sget;
  if b_refcnt (getbuf s i) =? 0
  then smodify (set_lru (fun l => i :: filter (fun j => j <> i) l))
  else sret tt.

Definition bpin (i : nat) : stM bstate unit := smodify (updbuf i (add_ref 1)).
Definition bunpin (i : nat) : stM bstate unit := smodify (updbuf i (add_ref (-1))).

(** Reading and writing [bp->data] through the pointer. *)
Definition bdata (i : nat) : stM bstate bytes := fun s => Ok (b_data (getbuf s i)) s.
Definition bset (i : nat) (d : bytes) : stM bstate unit := smodify (updbuf i (set_data d)).

(** ** The cache as its clients see it

    For the one device in use, [lblk s b] is the content a reader of block
    [b] sees, [ref s b] its reference count and [lkd s b] whether the current
    process holds its lock. *)

Definition bidx (s : bstate) (b : Z) : option nat :=
  List.find (fun i => (b_dev (getbuf s i) =? ROOTDEV) && (b_blockno (getbuf s i) =? b)) (bs_lru s).

Definition lblk (s : bstate) (b : Z) : bytes :=
  match bidx s b with
  | Some i => if b_valid (getbuf s i) then b_data (getbuf s i) else dblk (bs_disk s) b
  | None => dblk (bs_disk s) b
  end.
Definition ref (s : bstate) (b : Z) : Z :=
  match bidx s b with Some i => b_refcnt (getbuf s i) | None => 0 end.
Definition lkd (s : bstate) (b : Z) : bool :=
  match bidx s b with Some i => b_locked (getbuf s i) | None => false end.

(** Some buffer is unreferenced, so [bget] can recycle one. *)
Definition has_free (s : bstate) : Prop :=
  exists i, (i < NBUF)%nat /\ b_refcnt (getbuf s i) = 0.

(** ** Invariant *)

Record buf_ok (disk : gmap Z bytes) (pid : Z) (b : buf) : Prop := {
  bo_dev : b_dev b = 0 \/ b_dev b = ROOTDEV;
  bo_unused : b_dev b = 0 -> b_refcnt b = 0 /\ b_valid b = false;
  bo_ref : 0 <= b_refcnt b < 2 ^ 32;
  bo_locked : b_locked b = true -> 0 < b_refcnt b /\ b_pid b = pid;
  bo_valid : 0 < b_refcnt b -> b_valid b = true;
  bo_clean : b_refcnt b = 0 -> b_valid b = true -> b_data b = dblk disk (b_blockno b);
  bo_size : b_valid b = true -> length (b_data b) = Z.to_nat BSIZE
}.

Record bio_inv (s : bstate) : Prop := {
  bi_len : length (bs_bufs s) = NBUF;
  bi_lru : bs_lru s ≡ₚ seq 0 NBUF;
  bi_uniq : forall i j, (i < NBUF)%nat -> (j < NBUF)%nat ->
    b_dev (getbuf s i) = ROOTDEV -> b_dev (getbuf s j) = ROOTDEV ->
    b_blockno (getbuf s i) = b_blockno (getbuf s j) -> i = j;
  bi_bufs : forall i, (i < NBUF)%nat -> buf_ok (bs_disk s) (bs_pid s) (getbuf s i);
  bi_disk : forall b, length (dblk (bs_disk s) b) = Z.to_nat BSIZE
}.

(** What a routine leaves alone. *)
Definition same_rest (s s' : bstate) : Prop :=
  bs_disk s' = bs_disk s /\ bs_trace s' = bs_trace s /\
  bs_pid s' = bs_pid s /\ bs_log s' = bs_log s.

(** ** Lemmas *)

Lemma getbuf_updbuf s i f j :
  (i < length (bs_bufs s))%nat ->
  getbuf (updbuf i f s) j = if decide (j = i) then f (getbuf s i) else getbuf s j.
Proof.
  intros Hi. unfold getbuf, updbuf, set_bufs. simpl. rewrite !nth_lookup.
  case_decide as Hj.
  - subst. rewrite list_lookup_alter_eq. 
    destruct (lookup_lt_is_Some_2 (bs_bufs s) i Hi) as [b Hb]. by rewrite Hb.
  - by rewrite list_lookup_alter_ne by congruence.
Qed.

Lemma find_ext {A} (f g : A -> bool) (l : list A) :
  (forall x, f x = g x) -> List.find f l = List.find g l.
Proof. intros H. induction l as [|x l IH]; simpl; [done|]. rewrite H. by destruct (g x). Qed.

Lemma bidx_Some s b i :
  bio_inv s ->
  bidx s b = Some i <-> (i < NBUF)%nat /\ b_dev (getbuf s i) = ROOTDEV /\ b_blockno (getbuf s i) = b.
Proof.
  intros Hinv. unfold bidx. split.
  - intros Hf. apply List.find_some in Hf as [Hin Hb].
    apply list_elem_of_In in Hin. rewrite (bi_lru s Hinv), elem_of_seq in Hin.
    apply andb_true_iff in Hb as [H1 H2].
    apply Z.eqb_eq in H1, H2. repeat split; [lia|done|done].
  - intros (Hi & Hd & Hb).
    destruct (List.find _ _) as [j|] eqn:Hf.
    + apply List.find_some in Hf as [Hin Hj].
      apply list_elem_of_In in Hin. rewrite (bi_lru s Hinv), elem_of_seq in Hin.
      apply andb_true_iff in Hj as [H1 H2].
      apply Z.eqb_eq in H1, H2. f_equal. apply (bi_uniq s Hinv); try done; [lia|congruence].
    + exfalso. assert (In i (bs_lru s)) as Hin.
      { apply list_elem_of_In. rewrite (bi_lru s Hinv), elem_of_seq. lia. }
      eapply List.find_none in Hf; [|exact Hin]. simpl in Hf.
      rewrite Hd, Hb, !Z.eqb_refl in Hf. done.
Qed.

Lemma bidx_updbuf s i f b :
  (i < length (bs_bufs s))%nat ->
  (forall x, b_dev (f x) = b_dev x /\ b_blockno (f x) = b_blockno x) ->
  bidx (updbuf i f s) b = bidx s b.
Proof.
  intros Hi Hf. unfold bidx. apply find_ext. intros j.
  rewrite getbuf_updbuf by done. case_decide; [|done]. subst.
  by destruct (Hf (getbuf s i)) as [-> ->].
Qed.

(** Changing one buffer without changing which block it caches. *)
Lemma bio_inv_updbuf s i f :
  bio_inv s -> (i < NBUF)%nat ->
  (forall x, b_dev (f x) = b_dev x /\ b_blockno (f x) = b_blockno x) ->
  buf_ok (bs_disk s) (bs_pid s) (f (getbuf s i)) ->
  bio_inv (updbuf i f s).
Proof.
  intros Hinv Hi Hf Hok. pose proof (bi_len s Hinv) as Hlen.
  assert (forall j, b_dev (getbuf (updbuf i f s) j) = b_dev (getbuf s j) /\
                    b_blockno (getbuf (updbuf i f s) j) = b_blockno (getbuf s j)) as Hsame.
  { intros j. rewrite getbuf_updbuf by lia. case_decide; [subst; apply Hf|done]. }
  split.
  - simpl. by rewrite length_alter.
  - apply Hinv.
  - intros a b Ha Hb Hda Hdb Heq.
    destruct (Hsame a) as [E1 E2], (Hsame b) as [E3 E4].
    rewrite E1 in Hda. rewrite E3 in Hdb. rewrite E2, E4 in Heq.
    by apply (bi_uniq s Hinv).
  - intros j Hj. rewrite getbuf_updbuf by lia. simpl.
    case_decide; [done|]. by apply (bi_bufs s Hinv).
  - apply Hinv.
Qed.

Lemma updbuf_updbuf s i f g : updbuf i f (updbuf i g s) = updbuf i (fun x => f (g x)) s.
Proof. unfold updbuf, set_bufs. simpl. by rewrite list_alter_alter_eq. Qed.

Lemma updbuf_ext s i f g :
  (i < length (bs_bufs s))%nat -> f (getbuf s i) = g (getbuf s i) -> updbuf i f s = updbuf i g s.
Proof.
  intros Hi Heq. unfold updbuf, set_bufs. f_equal. apply list_eq. intros j.
  destruct (decide (i = j)) as [->|Hj].
  - rewrite !list_lookup_alter_eq. unfold getbuf in Heq. rewrite nth_lookup in Heq.
    destruct (bs_bufs s !! j) as [x|]; simpl in *; congruence.
  - by rewrite !list_lookup_alter_ne.
Qed.

(** The buffer [bread] returns for block [b] of state [s]. *)
Definition bread_buf (s : bstate) (b : Z) : buf :=
  mkBuf true ROOTDEV b true (bs_pid s) (ref s b + 1) (lblk s b).

Lemma find_free s :
  bio_inv s -> has_free s ->
  exists i, List.find (fun i => b_refcnt (getbuf s i) =? 0) (rev (bs_lru s)) = Some i /\
            (i < NBUF)%nat /\ b_refcnt (getbuf s i) = 0.
Proof.
  intros Hinv (k & Hk & Hr).
  destruct (List.find _ _) as [i|] eqn:Hf.
  - apply List.find_some in Hf as [Hin Hz]. apply Z.eqb_eq in Hz.
    apply in_rev, list_elem_of_In in Hin. rewrite (bi_lru s Hinv), elem_of_seq in Hin.
    exists i. split; [done|]. split; [lia|done].
  - exfalso. assert (In k (rev (bs_lru s))) as Hin.
    { rewrite <- in_rev. apply list_elem_of_In. rewrite (bi_lru s Hinv), elem_of_seq. lia. }
    eapply List.find_none in Hf; [|exact Hin]. simpl in Hf. by rewrite Hr in Hf.
Qed.

(** [bread] on a block the caller does not hold. *)
Lemma bread_eq s b :
  bio_inv s -> lkd s b = false -> ref s b < 2 ^ 32 - 1 -> (0 < ref s b \/ has_free s) ->
  exists i, bread ROOTDEV b s = Ok i (updbuf i (fun _ => bread_buf s b) s) /\ (i < NBUF)%nat /\
    (bidx s b = Some i \/ bidx s b = None /\ b_refcnt (getbuf s i) = 0).
Proof.
  intros Hinv Hlk Href Hfree. pose proof (bi_len s Hinv) as Hlen.
  unfold bread, bread_buf, sbind, bget. fold (bidx s b).
  unfold lkd, ref, lblk in *.
  destruct (bidx s b) as [i|] eqn:Hi.
  - exists i. apply (bidx_Some s b i Hinv) in Hi as (Hlt & Hd & Hb).
    destruct (bi_bufs s Hinv i Hlt) as [_ _ Hr _ Hv _ _].
    unfold sbind, smodify, acquiresleep_buf, sget, sret.
    rewrite getbuf_updbuf by lia. rewrite decide_True by done. simpl. rewrite Hlk.
    rewrite updbuf_updbuf, getbuf_updbuf by lia. rewrite decide_True by done. simpl.
    split; [|split; [done|by left]].
    assert (u32 (b_refcnt (getbuf s i) + 1) = b_refcnt (getbuf s i) + 1) as Hu.
    { unfold u32. apply Z.mod_small. lia. }
    destruct (b_valid (getbuf s i)) eqn:Hval.
    + f_equal. apply updbuf_ext; [lia|]. unfold set_lock, add_ref. simpl.
      rewrite Hval, Hd, Hb, Hu. done.
    + unfold virtio_disk_rw. rewrite !updbuf_updbuf.
      f_equal. apply updbuf_ext; [lia|].
      rewrite getbuf_updbuf, decide_True by (done || lia).
      unfold set_lock, add_ref, set_valid, set_data. simpl. by rewrite Hd, Hb, Hu.
  - destruct Hfree as [|Hfree]; [lia|].
    destruct (find_free s Hinv Hfree) as (i & Hf & Hlt & Hz). rewrite Hf.
    exists i. unfold sbind, smodify, acquiresleep_buf, sget, sret.
    rewrite getbuf_updbuf by lia. rewrite decide_True by done. simpl.
    assert (b_locked (getbuf s i) = false) as Hnl.
    { destruct (b_locked (getbuf s i)) eqn:E; [|done].
      destruct (bo_locked _ _ _ (bi_bufs s Hinv i Hlt) E). lia. }
    rewrite Hnl. rewrite updbuf_updbuf, getbuf_updbuf by lia. rewrite decide_True by done. simpl.
    split; [|split; [done|by right]].
    unfold virtio_disk_rw. rewrite !updbuf_updbuf.
    f_equal. apply updbuf_ext; [lia|].
    rewrite getbuf_updbuf, decide_True by (done || lia). done.
Qed.

(** Buffer [i] becomes [nb], which caches block [b]: every other block is
    seen as before. This covers every routine of the cache. *)
Record replaced (s s' : bstate) (i : nat) (b : Z) (nb : buf) : Prop := {
  rp_inv : bio_inv s';
  rp_bidx : bidx s' b = Some i;
  rp_ref : ref s' b = b_refcnt nb;
  rp_lkd : lkd s' b = b_locked nb;
  rp_lblk : b_valid nb = true -> lblk s' b = b_data nb;
  rp_get : getbuf s' i = nb;
  rp_ref_ne : forall b', b' <> b -> ref s' b' = ref s b';
  rp_lkd_ne : forall b', b' <> b -> lkd s' b' = lkd s b';
  rp_lblk_ne : forall b', b' <> b -> lblk s' b' = lblk s b';
  rp_bidx_ne : forall b', b' <> b -> 0 < ref s b' -> bidx s' b' = bidx s b';
  rp_getb_ne : forall b', b' <> b -> 0 < ref s b' -> forall j, bidx s b' = Some j -> getbuf s' j = getbuf s j
}.

Lemma replace_inv s i b nb :
  bio_inv s -> (i < NBUF)%nat -> b_dev nb = ROOTDEV -> b_blockno nb = b ->
  buf_ok (bs_disk s) (bs_pid s) nb ->
  (bidx s b = Some i \/ bidx s b = None) ->
  bio_inv (updbuf i (fun _ => nb) s).
Proof.
  intros Hinv Hi Hd Hb Hok Hc. pose proof (bi_len s Hinv) as Hlen.
  assert (forall j, (j < NBUF)%nat -> b_dev (getbuf s j) = ROOTDEV -> b_blockno (getbuf s j) = b -> j = i) as Honly.
  { intros j Hj Hdj Hbj. destruct Hc as [Hc|Hc].
    - pose proof (proj2 (bidx_Some s b j Hinv) (conj Hj (conj Hdj Hbj))). congruence.
    - pose proof (proj2 (bidx_Some s b j Hinv) (conj Hj (conj Hdj Hbj))). congruence. }
  split; simpl.
  - by rewrite length_alter.
  - apply Hinv.
  - intros x y Hx Hy. rewrite !getbuf_updbuf by lia.
    repeat case_decide; subst; intros; try done.
    + symmetry. apply Honly; congruence.
    + apply Honly; congruence.
    + by apply (bi_uniq s Hinv).
  - intros j Hj. rewrite getbuf_updbuf by lia. case_decide; [done|by apply Hinv].
  - apply Hinv.
Qed.

(** The index of another block is unchanged, or dropped when its clean
    buffer was recycled. *)
Lemma replace_bidx_ne s i b nb b' :
  bio_inv s -> (i < NBUF)%nat -> b_dev nb = ROOTDEV -> b_blockno nb = b ->
  bio_inv (updbuf i (fun _ => nb) s) ->
  (bidx s b = Some i \/ bidx s b = None /\ b_refcnt (getbuf s i) = 0) ->
  b' <> b ->
  (bidx (updbuf i (fun _ => nb) s) b' = bidx s b' /\ (forall j, bidx s b' = Some j -> j <> i)) \/
  (bidx s b' = Some i /\ bidx (updbuf i (fun _ => nb) s) b' = None /\ b_refcnt (getbuf s i) = 0).
Proof.
  intros Hinv Hi Hd Hb Hinv' Hc Hb'. pose proof (bi_len s Hinv) as Hlen.
  set (s' := updbuf i (fun _ => nb) s) in *.
  assert (forall j, getbuf s' j = if decide (j = i) then nb else getbuf s j) as Hget.
  { intros j. unfold s'. by rewrite getbuf_updbuf by lia. }
  destruct (bidx s b') as [j|] eqn:Hj.
  - destruct (decide (j = i)) as [->|Hji].
    + right. split; [done|]. destruct Hc as [Hc|[_ Hc]].
      { apply (bidx_Some s _ _ Hinv) in Hc as (_ & _ & Hc).
        apply (bidx_Some s _ _ Hinv) in Hj as (_ & _ & Hj). congruence. }
      split; [|done]. destruct (bidx s' b') as [k|] eqn:Hk; [|done].
      apply (bidx_Some s' _ _ Hinv') in Hk as (Hk & Hkd & Hkb).
      rewrite Hget in Hkd, Hkb. case_decide; [congruence|].
      apply (bidx_Some s _ _ Hinv) in Hj as (_ & Hjd & Hjb).
      assert (k = i); [|done]. apply (bi_uniq s Hinv); congruence.
    + left. split; [|congruence].
      apply (bidx_Some s' _ _ Hinv'). rewrite Hget, decide_False by done.
      by apply (bidx_Some s _ _ Hinv).
  - left. split; [|congruence]. destruct (bidx s' b') as [k|] eqn:Hk; [|done].
    apply (bidx_Some s' _ _ Hinv') in Hk as (Hk & Hkd & Hkb).
    rewrite Hget in Hkd, Hkb. case_decide; [congruence|].
    pose proof (proj2 (bidx_Some s b' k Hinv) (conj Hk (conj Hkd Hkb))). congruence.
Qed.

Lemma replace_view s i b nb :
  bio_inv s -> (i < NBUF)%nat -> b_dev nb = ROOTDEV -> b_blockno nb = b ->
  buf_ok (bs_disk s) (bs_pid s) nb ->
  (bidx s b = Some i \/ bidx s b = None /\ b_refcnt (getbuf s i) = 0) ->
  replaced s (updbuf i (fun _ => nb) s) i b nb.
Proof.
  intros Hinv Hi Hd Hb Hok Hc. pose proof (bi_len s Hinv) as Hlen.
  assert (bio_inv (updbuf i (fun _ => nb) s)) as Hinv'.
  { apply (replace_inv _ _ b); try done. destruct Hc as [?|[? _]]; auto. }
  pose proof (fun b' => replace_bidx_ne s i b nb b' Hinv Hi Hd Hb Hinv' Hc) as Hne.
  set (s' := updbuf i (fun _ => nb) s) in *.
  assert (forall j, getbuf s' j = if decide (j = i) then nb else getbuf s j) as Hget.
  { intros j. unfold s'. by rewrite getbuf_updbuf by lia. }
  assert (bidx s' b = Some i) as Hbi.
  { apply (bidx_Some s' b i Hinv'). by rewrite Hget, decide_True. }
  assert (forall b' j, b' <> b -> bidx s' b' = Some j -> bidx s b' = Some j /\ getbuf s' j = getbuf s j) as Hsame.
  { intros b' j Hb' Hj. destruct (Hne b' Hb') as [[E Hji]|(?&?&?)]; [|congruence].
    rewrite E in Hj. split; [done|]. rewrite Hget, decide_False by eauto. done. }
  destruct (bi_bufs s Hinv i Hi) as [_ _ _ Hlk _ Hcl _].
  split; try done; try (unfold ref, lkd, lblk; rewrite Hbi, Hget, decide_True by done);
    try done; try (by intros ->); try (by rewrite Hget, decide_True);
    intros b' Hb';
    [unfold ref | unfold lkd | unfold lblk | |];
    try (destruct (bidx s' b') as [j|] eqn:Hj;
         [by destruct (Hsame b' j Hb' Hj) as [-> ->]|]);
    destruct (Hne b' Hb') as [[E Hji]|(E & En & Hz)]; try (by rewrite <- E, ?Hj); try rewrite E.
  - done.
  - destruct (b_locked (getbuf s i)) eqn:Hl; [|done]. destruct (Hlk eq_refl). lia.
  - destruct (b_valid (getbuf s i)) eqn:Hv; [|done]. simpl. rewrite Hcl by done.
    by apply (bidx_Some s _ _ Hinv) in E as (_ & _ & ->).
  - intros Hr. unfold ref in Hr. rewrite E in Hr. lia.
  - intros Hr j Hj. rewrite Hget, decide_False by eauto. done.
  - intros Hr. unfold ref in Hr. rewrite E in Hr. lia.
Qed.

Lemma length_lblk s b : bio_inv s -> length (lblk s b) = Z.to_nat BSIZE.
Proof.
  intros Hinv. unfold lblk. destruct (bidx s b) as [i|] eqn:Hi; [|apply (bi_disk s Hinv)].
  apply (bidx_Some s b i Hinv) in Hi as (Hi & _ & _).
  destruct (b_valid (getbuf s i)) eqn:Hv; [|apply (bi_disk s Hinv)].
  by apply (bo_size _ _ _ (bi_bufs s Hinv i Hi)).
Qed.

Lemma ref_bounds s b : bio_inv s -> 0 <= ref s b < 2 ^ 32.
Proof.
  intros Hinv. unfold ref. destruct (bidx s b) as [i|] eqn:Hi; [|lia].
  apply (bidx_Some s b i Hinv) in Hi as (Hi & _ & _).
  apply (bo_ref _ _ _ (bi_bufs s Hinv i Hi)).
Qed.

Lemma lkd_ref s b : bio_inv s -> lkd s b = true -> 0 < ref s b.
Proof.
  intros Hinv. unfold ref, lkd. destruct (bidx s b) as [i|] eqn:Hi; [|done]. intros Hl.
  apply (bidx_Some s b i Hinv) in Hi as (Hi & _ & _).
  apply (bo_locked _ _ _ (bi_bufs s Hinv i Hi) Hl).
Qed.

Lemma ref_cached s b : 0 < ref s b -> is_Some (bidx s b).
Proof. unfold ref. destruct (bidx s b); [eauto|lia]. Qed.

(** The cached buffer of a referenced block. *)
Lemma bidx_get s b i :
  bio_inv s -> bidx s b = Some i -> 0 < ref s b ->
  (i < NBUF)%nat /\ b_dev (getbuf s i) = ROOTDEV /\ b_blockno (getbuf s i) = b /\
  b_valid (getbuf s i) = true /\ b_refcnt (getbuf s i) = ref s b /\
  b_data (getbuf s i) = lblk s b /\ b_locked (getbuf s i) = lkd s b /\
  (lkd s b = true -> b_pid (getbuf s i) = bs_pid s).
Proof.
  intros Hinv Hi Hr. unfold lkd, lblk, ref in *. rewrite Hi in *.
  apply (bidx_Some s b i Hinv) in Hi as (Hi & Hd & Hb).
  destruct (bi_bufs s Hinv i Hi) as [_ _ _ Hl Hv _ _].
  rewrite Hv by done. naive_solver.
Qed.

(** [bread] returns the block's current content, locked and referenced. *)
Lemma bread_spec s b :
  bio_inv s -> lkd s b = false -> ref s b < 2 ^ 32 - 1 -> (0 < ref s b \/ has_free s) ->
  exists i s', bread ROOTDEV b s = Ok i s' /\ replaced s s' i b (bread_buf s b) /\ same_rest s s'.
Proof.
  intros Hinv Hlk Href Hfree.
  destruct (bread_eq s b Hinv Hlk Href Hfree) as (i & Heq & Hi & Hc).
  eexists i, _. split; [exact Heq|]. split; [|done].
  pose proof (ref_bounds s b Hinv). pose proof (length_lblk s b Hinv).
  apply replace_view; try done.
  split; simpl; try done; try lia; auto.
Qed.

Lemma bread_locked s b :
  bio_inv s -> lkd s b = true -> exists s', bread ROOTDEV b s = Sleep "sleep lock" s'.
Proof.
  intros Hinv Hl. pose proof (bi_len s Hinv).
  unfold bread, sbind, bget. fold (bidx s b). unfold lkd in Hl.
  destruct (bidx s b) as [i|] eqn:Hi; [|done].
  apply (bidx_Some s b i Hinv) in Hi as (Hi & _ & _).
  unfold sbind, smodify, acquiresleep_buf. rewrite getbuf_updbuf, decide_True by (done || lia).
  simpl. rewrite Hl. eauto.
Qed.

Lemma bread_full s b :
  bio_inv s -> ref s b = 0 -> ~ has_free s -> bread ROOTDEV b s = Panic "bget: no buffers".
Proof.
  intros Hinv Hr Hf. unfold bread, sbind, bget. fold (bidx s b). unfold ref in Hr.
  destruct (bidx s b) as [i|] eqn:Hi.
  { exfalso. apply Hf. exists i. split; [|done]. by apply (bidx_Some s b i Hinv) in Hi as (? & _ & _). }
  destruct (List.find _ (rev _)) as [j|] eqn:Hj; [|done].
  exfalso. apply Hf. apply List.find_some in Hj as [Hin Hz]. apply Z.eqb_eq in Hz.
  apply in_rev, list_elem_of_In in Hin. rewrite (bi_lru s Hinv), elem_of_seq in Hin.
  exists j. split; [lia|done].
Qed.

(** Changing the cached buffer of [b] in place. *)
Lemma update_view s i b f :
  bio_inv s -> bidx s b = Some i ->
  b_dev (f (getbuf s i)) = ROOTDEV -> b_blockno (f (getbuf s i)) = b ->
  buf_ok (bs_disk s) (bs_pid s) (f (getbuf s i)) ->
  replaced s (updbuf i f s) i b (f (getbuf s i)).
Proof.
  intros Hinv Hi Hd Hb Hok. pose proof (bi_len s Hinv).
  pose proof Hi as Hi'. apply (bidx_Some s b i Hinv) in Hi' as (Hlt & _ & _).
  rewrite (updbuf_ext s i f (fun _ => f (getbuf s i))) by (done || lia).
  apply replace_view; auto.
Qed.

(** Reordering the LRU list is invisible. *)
Lemma set_lru_view s g :
  bio_inv s -> g (bs_lru s) ≡ₚ seq 0 NBUF ->
  bio_inv (set_lru g s) /\ forall b, bidx (set_lru g s) b = bidx s b.
Proof.
  intros Hinv Hp.
  assert (bio_inv (set_lru g s)) as Hinv'.
  { split; simpl; [apply (bi_len s Hinv)|done|apply (bi_uniq s Hinv)|apply (bi_bufs s Hinv)|apply (bi_disk s Hinv)]. }
  split; [done|]. intros b.
  destruct (bidx s b) as [i|] eqn:Hi.
  - apply (bidx_Some _ b i Hinv'). by apply (bidx_Some s b i Hinv) in Hi.
  - destruct (bidx (set_lru g s) b) as [i|] eqn:Hj; [|done].
    apply (bidx_Some _ b i Hinv') in Hj. apply (bidx_Some s b i Hinv) in Hj. congruence.
Qed.

Lemma replaced_set_lru s s' i b nb g :
  replaced s s' i b nb -> g (bs_lru s') ≡ₚ seq 0 NBUF -> replaced s (set_lru g s') i b nb.
Proof.
  intros [Hinv Hbi Hr Hl Hb Hg Hrn Hln Hbn Hin Hgn] Hp.
  destruct (set_lru_view s' g Hinv Hp) as [Hinv' E].
  split; try done; try (by rewrite E);
    unfold ref, lkd, lblk in *; rewrite ?E; try done;
    intros b'; rewrite E; auto.
Qed.

Lemma front_perm (i : nat) (l : list nat) n :
  l ≡ₚ seq 0 n -> (i < n)%nat -> i :: filter (fun j => j <> i) l ≡ₚ seq 0 n.
Proof.
  intros Hp Hi. apply NoDup_Permutation.
  - constructor.
    + rewrite list_elem_of_filter. naive_solver.
    + apply NoDup_filter. rewrite Hp. apply NoDup_seq.
  - apply NoDup_seq.
  - intros j. rewrite elem_of_cons, list_elem_of_filter, Hp, elem_of_seq.
    destruct (decide (j = i)); naive_solver lia.
Qed.

(** The buffer [brelse] leaves behind. *)
Definition released (b : buf) : buf :=
  mkBuf (b_valid b) (b_dev b) (b_blockno b) false 0 (b_refcnt b - 1) (b_data b).

Lemma u32_small x : 0 <= x < 2 ^ 32 -> u32 x = x.
Proof. apply Z.mod_small. Qed.

Lemma brelse_spec s b i :
  bio_inv s -> bidx s b = Some i -> lkd s b = true ->
  (ref s b = 1 -> lblk s b = dblk (bs_disk s) b) ->
  exists s', brelse i s = Ok tt s' /\ replaced s s' i b (released (getbuf s i)) /\ same_rest s s'.
Proof.
  intros Hinv Hi Hl Hcl. pose proof (lkd_ref s b Hinv Hl) as Hr.
  pose proof (ref_bounds s b Hinv) as Hrb. pose proof (length_lblk s b Hinv) as Hsz.
  destruct (bidx_get s b i Hinv Hi Hr) as (Hlt & Hd & Hb & Hv & Hrc & Hdat & Hlk & Hpid).
  pose proof (bi_len s Hinv) as Hlen.
  assert (u32 (b_refcnt (getbuf s i) + -1) = b_refcnt (getbuf s i) - 1) as Hu
    by (apply u32_small; lia).
  assert (replaced s (updbuf i (fun x => add_ref (-1) (set_lock false 0 x)) s) i b (released (getbuf s i))) as Hrep.
  { rewrite (updbuf_ext s i _ released) by (lia || unfold add_ref, released, set_lock; simpl; by rewrite Hu).
    apply update_view; try done.
    split; simpl; try done; try lia; intros; try congruence.
    rewrite Hdat, Hb. apply Hcl. lia. }
  unfold brelse, sbind, holdingsleep_buf, releasesleep_buf, smodify, sget.
  rewrite Hlk, Hl, (Hpid Hl), Z.eqb_refl. simpl.
  rewrite updbuf_updbuf. rewrite getbuf_updbuf, decide_True by (done || lia). simpl. rewrite Hu.
  destruct (b_refcnt (getbuf s i) - 1 =? 0).
  - eexists. split; [reflexivity|]. split; [|done].
    apply replaced_set_lru; [done|]. apply front_perm; [|done]. apply (bi_lru s Hinv).
  - eexists. split; [reflexivity|]. done.
Qed.

(** Storing into the data of a held buffer. *)
Lemma bset_spec s b i d :
  bio_inv s -> bidx s b = Some i -> 0 < ref s b -> length d = Z.to_nat BSIZE ->
  exists s', bset i d s = Ok tt s' /\ replaced s s' i b (set_data d (getbuf s i)) /\ same_rest s s'.
Proof.
  intros Hinv Hi Hr Hd. eexists. split; [reflexivity|]. split; [|done].
  destruct (bidx_get s b i Hinv Hi Hr) as (Hlt & Hdv & Hb & Hv & Hrc & _).
  apply update_view; try done.
  destruct (bi_bufs s Hinv i Hlt). split; simpl; try done; intros; lia || eauto.
Qed.

(** [bpin] and [bunpin] (with the reference that keeps the block cached, or
    the content on disk, when the last one goes). *)
Lemma addref_spec s b i k :
  bio_inv s -> bidx s b = Some i -> 0 < ref s b -> 0 <= ref s b + k < 2 ^ 32 ->
  (ref s b + k = 0 -> lkd s b = false /\ lblk s b = dblk (bs_disk s) b) ->
  replaced s (updbuf i (add_ref k) s) i b (add_ref k (getbuf s i)).
Proof.
  intros Hinv Hi Hr Hk Hz.
  destruct (bidx_get s b i Hinv Hi Hr) as (Hlt & Hdv & Hb & Hv & Hrc & Hdat & Hlk & Hpid).
  pose proof (length_lblk s b Hinv).
  assert (u32 (b_refcnt (getbuf s i) + k) = ref s b + k) as Hu by (rewrite Hrc; by apply u32_small).
  apply update_view; try done.
  split; simpl; rewrite ?Hu, ?Hb, ?Hlk, ?Hdat; try done; try lia.
  - intros E. destruct (decide (ref s b + k = 0)) as [E0|E0].
    + destruct (Hz E0). congruence.
    + split; [lia|auto].
  - intros E _. by apply Hz.
Qed.

(** The disk after [bwrite], with the write appended to the trace. *)
Definition disk_write (b : Z) (d : bytes) (s : bstate) : bstate :=
  mkB (bs_bufs s) (bs_lru s) (<[b := d]> (bs_disk s)) (bs_trace s ++ [(b, d)]) (bs_pid s) (bs_log s).

Lemma dblk_insert d b x b' :
  dblk (<[b := x]> d) b' = if decide (b' = b) then x else dblk d b'.
Proof.
  unfold dblk. case_decide; [subst; by rewrite lookup_insert_eq|by rewrite lookup_insert_ne].
Qed.

Lemma bwrite_spec s b i :
  bio_inv s -> bidx s b = Some i -> lkd s b = true ->
  bwrite i s = Ok tt (disk_write b (lblk s b) s) /\
  bio_inv (disk_write b (lblk s b) s) /\
  (forall b', lblk (disk_write b (lblk s b) s) b' = lblk s b').
Proof.
  intros Hinv Hi Hl. pose proof (lkd_ref s b Hinv Hl) as Hr.
  destruct (bidx_get s b i Hinv Hi Hr) as (Hlt & Hdv & Hb & Hv & Hrc & Hdat & Hlk & Hpid).
  split; [|split].
  - unfold bwrite, sbind, holdingsleep_buf. rewrite Hlk, Hl, (Hpid Hl), Z.eqb_refl. simpl.
    unfold virtio_disk_rw. by rewrite Hb, Hdat.
  - split; simpl; [apply (bi_len s Hinv)|apply (bi_lru s Hinv)|apply (bi_uniq s Hinv)| |].
    + intros j Hj. change (getbuf (disk_write _ _ _) j) with (getbuf s j).
      destruct (bi_bufs s Hinv j Hj) as [H1 H2 H3 H4 H5 H6 H7]. split; try done.
      intros Hz Hvj. rewrite H6 by done. rewrite dblk_insert. case_decide as E; [|done].
      assert (j = i); [|subst; lia].
      apply (bi_uniq s Hinv); try done; [|congruence].
      destruct H1 as [H1|H1]; [|done]. destruct (H2 H1). congruence.
    + intros b'. rewrite dblk_insert. case_decide; [by apply length_lblk|apply (bi_disk s Hinv)].
  - intros b'. unfold lblk at 1. change (bidx (disk_write _ _ _) b') with (bidx s b').
    destruct (decide (b' = b)) as [->|Hne].
    + rewrite Hi. change (getbuf (disk_write _ _ _) i) with (getbuf s i). by rewrite Hv.
    + unfold lblk. simpl. change (getbuf (disk_write _ _ _)) with (getbuf s).
      rewrite dblk_insert, decide_False by done. done.
Qed.

(** ** Counting referenced buffers *)

Definition used_blocks (s : bstate) : list Z :=
  map (fun i => b_blockno (getbuf s i)) (filter (fun i => 0 < b_refcnt (getbuf s i)) (seq 0 NBUF)).

Lemma used_blocks_elem s b :
  bio_inv s -> b ∈ used_blocks s <-> 0 < ref s b.
Proof.
  intros Hinv. unfold used_blocks. rewrite list_elem_of_fmap. split.
  - intros (i & -> & Hi). rewrite list_elem_of_filter, elem_of_seq in Hi. destruct Hi as [Hr Hi].
    destruct (bi_bufs s Hinv i ltac:(lia)) as [Hd H0 _ _ _ _ _].
    destruct Hd as [Hd|Hd]; [destruct (H0 Hd); lia|].
    unfold ref. rewrite (proj2 (bidx_Some s _ i Hinv)); [done|]. split; [lia|done].
  - intros Hr. unfold ref in Hr. destruct (bidx s b) as [i|] eqn:Hi; [|lia].
    apply (bidx_Some s b i Hinv) in Hi as (Hi & _ & Hb).
    exists i. split; [done|]. rewrite list_elem_of_filter, elem_of_seq. split; [done|lia].
Qed.

Lemma used_blocks_NoDup s : bio_inv s -> NoDup (used_blocks s).
Proof.
  intros Hinv. unfold used_blocks. apply NoDup_fmap_2_strong.
  - intros i j Hi Hj Heq. rewrite list_elem_of_filter, elem_of_seq in Hi, Hj.
    assert (forall k, (k < NBUF)%nat -> 0 < b_refcnt (getbuf s k) -> b_dev (getbuf s k) = ROOTDEV) as Hdev.
    { intros k Hk Hr. destruct (bi_bufs s Hinv k Hk) as [Hd H0 _ _ _ _ _].
      destruct Hd as [Hd|Hd]; [destruct (H0 Hd); lia|done]. }
    apply (bi_uniq s Hinv); try lia; apply Hdev; lia.
  - apply NoDup_filter, NoDup_seq.
Qed.

Lemma filter_all {A} (P : A -> Prop) `{!forall x, Decision (P x)} l :
  Forall P l -> filter P l = l.
Proof. induction 1 as [|x l Hx Hl IH]; [done|]. by rewrite filter_cons_True, IH. Qed.

(** A buffer is free exactly when fewer than [NBUF] blocks are referenced. *)
Lemma has_free_count s L :
  bio_inv s -> NoDup L -> (forall b, b ∈ L <-> 0 < ref s b) ->
  has_free s <-> (length L < NBUF)%nat.
Proof.
  intros Hinv HL Hel.
  assert (length L = length (used_blocks s)) as ->.
  { apply Permutation_length, NoDup_Permutation; [done|by apply used_blocks_NoDup|].
    intros b. by rewrite Hel, used_blocks_elem. }
  unfold used_blocks. rewrite length_map.
  set (P := fun i => 0 < b_refcnt (getbuf s i)).
  split.
  - intros (i & Hi & Hz).
    pose proof (length_filter_lt P (seq 0 NBUF) i) as Hlt. rewrite length_seq in Hlt.
    apply Hlt; [rewrite elem_of_seq; lia|unfold P; lia].
  - intros Hlt.
    destruct (decide (Forall P (seq 0 NBUF))) as [HF|HF].
    + rewrite filter_all in Hlt by done. rewrite length_seq in Hlt. lia.
    + apply not_Forall_Exists in HF; [|intros x; unfold P; apply _].
      apply Exists_exists in HF as (i & Hi & Hn). rewrite elem_of_seq in Hi.
      exists i. split; [lia|]. pose proof (bo_ref _ _ _ (bi_bufs s Hinv i ltac:(lia))).
      unfold P in Hn. simpl in Hn. lia.
Qed.

(** ** The routines as steps on the view

    [cstep s s' b i r l d]: block [b], cached in buffer [i], has reference
    count [r], lock state [l] and content [d] afterwards; nothing else that a
    client can see has changed. *)
Record cstep (s s' : bstate) (b : Z) (i : nat) (r : Z) (l : bool) (d : bytes) : Prop := {
  cs_inv : bio_inv s';
  cs_bidx : bidx s' b = Some i;
  cs_ref : forall b', ref s' b' = if decide (b' = b) then r else ref s b';
  cs_lkd : forall b', lkd s' b' = if decide (b' = b) then l else lkd s b';
  cs_lblk : forall b', lblk s' b' = if decide (b' = b) then d else lblk s b';
  cs_keep : forall b' j, b' <> b -> 0 < ref s b' -> bidx s b' = Some j -> bidx s' b' = Some j;
  cs_rest : same_rest s s'
}.

Lemma replaced_cstep s s' i b nb :
  replaced s s' i b nb -> b_valid nb = true -> same_rest s s' ->
  cstep s s' b i (b_refcnt nb) (b_locked nb) (b_data nb).
Proof.
  intros [Hinv Hbi Hr Hl Hb Hg Hrn Hln Hbn Hin Hgn] Hv Hs.
  split; try done; try (intros b'; case_decide; subst; by auto).
  intros b' j Hne Hp Hj. by rewrite Hin.
Qed.

Lemma bread_step s b :
  bio_inv s -> lkd s b = false -> ref s b < 2 ^ 32 - 1 -> (0 < ref s b \/ has_free s) ->
  exists i s', bread ROOTDEV b s = Ok i s' /\ cstep s s' b i (ref s b + 1) true (lblk s b).
Proof.
  intros. destruct (bread_spec s b) as (i & s' & ? & Hrep & ?); try done.
  exists i, s'. split; [done|]. by apply (replaced_cstep _ _ _ _ _ Hrep).
Qed.

Lemma brelse_step s b i :
  bio_inv s -> bidx s b = Some i -> lkd s b = true ->
  (ref s b = 1 -> lblk s b = dblk (bs_disk s) b) ->
  exists s', brelse i s = Ok tt s' /\ cstep s s' b i (ref s b - 1) false (lblk s b).
Proof.
  intros Hinv Hi Hl Hc. destruct (brelse_spec s b i) as (s' & ? & Hrep & ?); try done.
  pose proof (lkd_ref s b Hinv Hl).
  destruct (bidx_get s b i) as (_ & _ & _ & Hv & Hr & Hd & _); try done.
  exists s'. split; [done|]. rewrite <- Hr, <- Hd. by apply (replaced_cstep _ _ _ _ _ Hrep).
Qed.

Lemma bset_step s b i d :
  bio_inv s -> bidx s b = Some i -> 0 < ref s b -> length d = Z.to_nat BSIZE ->
  exists s', bset i d s = Ok tt s' /\ cstep s s' b i (ref s b) (lkd s b) d.
Proof.
  intros Hinv Hi Hr Hd. destruct (bset_spec s b i d) as (s' & ? & Hrep & ?); try done.
  destruct (bidx_get s b i) as (_ & _ & _ & Hv & Hr' & _ & Hl & _); try done.
  exists s'. split; [done|]. rewrite <- Hr', <- Hl. by apply (replaced_cstep _ _ _ _ _ Hrep).
Qed.

Lemma addref_step s b i k :
  bio_inv s -> bidx s b = Some i -> 0 < ref s b -> 0 <= ref s b + k < 2 ^ 32 ->
  (ref s b + k = 0 -> lkd s b = false /\ lblk s b = dblk (bs_disk s) b) ->
  cstep s (updbuf i (add_ref k) s) b i (ref s b + k) (lkd s b) (lblk s b).
Proof.
  intros Hinv Hi Hr Hk Hz. pose proof (addref_spec s b i k Hinv Hi Hr Hk Hz) as Hrep.
  destruct (bidx_get s b i) as (_ & _ & _ & Hv & Hr' & Hd & Hl & _); try done.
  pose proof (replaced_cstep _ _ _ _ _ Hrep Hv) as Hc. simpl in Hc.
  rewrite Hr', Hl, Hd, u32_small in Hc by done. by apply Hc.
Qed.

Lemma bdata_step s b i :
  bio_inv s -> bidx s b = Some i -> 0 < ref s b -> bdata i s = Ok (lblk s b) s.
Proof.
  intros Hinv Hi Hr. destruct (bidx_get s b i) as (_ & _ & _ & _ & _ & Hd & _); try done.
  unfold bdata. by rewrite Hd.
Qed.

(** An unreferenced block is clean. *)
Lemma ref0_clean s b : bio_inv s -> ref s b = 0 -> lblk s b = dblk (bs_disk s) b.
Proof.
  intros Hinv Hr. unfold ref, lblk in *. destruct (bidx s b) as [i|] eqn:Hi; [|done].
  apply (bidx_Some s b i Hinv) in Hi as (Hi & _ & Hb).
  destruct (b_valid (getbuf s i)) eqn:Hv; [|done].
  rewrite (bo_clean _ _ _ (bi_bufs s Hinv i Hi)) by done. by rewrite Hb.
Qed.

(** [bwrite]: the block's cached content reaches the disk. *)
Record wstep (s s' : bstate) (b : Z) : Prop := {
  ws_inv : bio_inv s';
  ws_bidx : forall b', bidx s' b' = bidx s b';
  ws_ref : forall b', ref s' b' = ref s b';
  ws_lkd : forall b', lkd s' b' = lkd s b';
  ws_lblk : forall b', lblk s' b' = lblk s b';
  ws_disk : bs_disk s' = <[b := lblk s b]> (bs_disk s);
  ws_trace : bs_trace s' = bs_trace s ++ [(b, lblk s b)];
  ws_pid : bs_pid s' = bs_pid s;
  ws_log : bs_log s' = bs_log s
}.

Lemma bwrite_step s b i :
  bio_inv s -> bidx s b = Some i -> lkd s b = true ->
  exists s', bwrite i s = Ok tt s' /\ wstep s s' b.
Proof.
  intros Hinv Hi Hl. destruct (bwrite_spec s b i Hinv Hi Hl) as (E & Hinv' & Hb).
  eexists. split; [exact E|]. by split.
Qed.

(** Evaluate the view of a state reached by [cstep]s and [wstep]s. *)
Ltac cview1 :=
  match goal with
  | H : cstep _ ?s _ _ _ _ _ |- context [ref ?s _] => rewrite (cs_ref _ _ _ _ _ _ _ H)
  | H : cstep _ ?s _ _ _ _ _ |- context [lkd ?s _] => rewrite (cs_lkd _ _ _ _ _ _ _ H)
  | H : cstep _ ?s _ _ _ _ _ |- context [lblk ?s _] => rewrite (cs_lblk _ _ _ _ _ _ _ H)
  | H : wstep _ ?s _ |- context [ref ?s _] => rewrite (ws_ref _ _ _ H)
  | H : wstep _ ?s _ |- context [lkd ?s _] => rewrite (ws_lkd _ _ _ H)
  | H : wstep _ ?s _ |- context [lblk ?s _] => rewrite (ws_lblk _ _ _ H)
  | |- context [decide (?x = ?x)] => rewrite (decide_True (P := x = x)) by reflexivity
  | H : ?x <> ?y |- context [decide (?x = ?y)] => rewrite (decide_False (P := x = y)) by exact H
  | H : ?y <> ?x |- context [decide (?x = ?y)] => rewrite (decide_False (P := x = y)) by congruence
  end.
Ltac cview := repeat cview1.

(** Lemmas for the parts that [cstep] keeps, and their evaluation. *)
Lemma cs_disk s s' b i r l d : cstep s s' b i r l d -> bs_disk s' = bs_disk s.
Proof. intros H. apply (cs_rest _ _ _ _ _ _ _ H). Qed.
Lemma cs_trace s s' b i r l d : cstep s s' b i r l d -> bs_trace s' = bs_trace s.
Proof. intros H. apply (cs_rest _ _ _ _ _ _ _ H). Qed.
Lemma cs_pid s s' b i r l d : cstep s s' b i r l d -> bs_pid s' = bs_pid s.
Proof. intros H. apply (cs_rest _ _ _ _ _ _ _ H). Qed.
Lemma cs_log s s' b i r l d : cstep s s' b i r l d -> bs_log s' = bs_log s.
Proof. intros H. apply (cs_rest _ _ _ _ _ _ _ H). Qed.

Ltac crest := repeat match goal with
  | H : cstep _ ?s _ _ _ _ _ |- context [bs_disk ?s] => rewrite (cs_disk _ _ _ _ _ _ _ H)
  | H : cstep _ ?s _ _ _ _ _ |- context [bs_trace ?s] => rewrite (cs_trace _ _ _ _ _ _ _ H)
  | H : cstep _ ?s _ _ _ _ _ |- context [bs_pid ?s] => rewrite (cs_pid _ _ _ _ _ _ _ H)
  | H : cstep _ ?s _ _ _ _ _ |- context [bs_log ?s] => rewrite (cs_log _ _ _ _ _ _ _ H)
  | H : wstep _ ?s _ |- context [bs_disk ?s] => rewrite (ws_disk _ _ _ H)
  | H : wstep _ ?s _ |- context [bs_trace ?s] => rewrite (ws_trace _ _ _ H)
  | H : wstep _ ?s _ |- context [bs_pid ?s] => rewrite (ws_pid _ _ _ H)
  | H : wstep _ ?s _ |- context [bs_log ?s] => rewrite (ws_log _ _ _ H)
  end.
