(* ===== verification/Log.v ===== *)
(** * The log (kernel/log.c)

    The redo log over the buffer cache: [begin_op]/[log_write]/[end_op], the
    four phases of [commit] and the recovery that runs at boot.  [int] block
    numbers are converted where the source assigns or compares them to a
    [uint].  [sleep] in [begin_op] ends the run: only another process's
    [end_op] can wake it. *)
From S2P Require Import Prelude Bio.
Local Open Scope st_scope.

Definition set_n (n : Z) (l : logst) : logst :=
  mkLog (l_start l) (l_size l) (l_outstanding l) (l_committing l) (l_dev l) n (l_block l).
Definition set_block (i x : Z) (l : logst) : logst :=
  mkLog (l_start l) (l_size l) (l_outstanding l) (l_committing l) (l_dev l) (l_n l)
        (<[Z.to_nat i := x]> (l_block l)).
Definition set_outstanding (x : Z) (l : logst) : logst :=
  mkLog (l_start l) (l_size l) x (l_committing l) (l_dev l) (l_n l) (l_block l).
Definition set_committing (c : bool) (l : logst) : logst :=
  mkLog (l_start l) (l_size l) (l_outstanding l) c (l_dev l) (l_n l) (l_block l).
Definition set_geometry (start size dev : Z) (l : logst) : logst :=
  mkLog start size (l_outstanding l) (l_committing l) dev (l_n l) (l_block l).

Definition getlog : stM bstate logst := fun s => Ok (bs_log s) s.
Definition modlog (f : logst -> logst) : stM bstate unit := smodify (set_log f).

(** [log.lh.block[i]]. *)
Definition lhblock (l : logst) (i : Z) : Z := nth (Z.to_nat i) (l_block l) 0.

Definition install_trans_one (recovering : bool) (tail : Z) : stM bstate unit :=
  l <- getlog;
  lbuf <- bread (l_dev l) (l_start l + tail + 1);
  dbuf <- bread (l_dev l) (u32 (lhblock l tail));
  d <- bdata lbuf;
  bset dbuf d;;
  bwrite dbuf;;
  (if recovering then sret tt else bunpin dbuf);;
  brelse lbuf;;
  brelse dbuf.

Definition install_trans (recovering : bool) : stM bstate unit :=
  l <- getlog;
  sfor (seqZ 0 (l_n l)) (install_trans_one recovering).

Definition read_head : stM bstate unit :=
  l <- getlog;
  buf <- bread (l_dev l) (l_start l);
  d <- bdata buf;
  modlog (set_n (s32 (ld32 0 d)));;
  l <- getlog;
  sfor (seqZ 0 (l_n l)) (fun i =>
    if i <? LOGSIZE then modlog (set_block i (s32 (ld32 (4 + 4 * i) d)))
    else fun _ => Wrong "log.lh.block out of bounds");;
  brelse buf.

(** The header block with [n] and the first [n] entries stored into it. *)
Definition put_head (n : Z) (block : Z -> Z) (d : bytes) : bytes :=
  foldl (fun d i => st32 (4 + 4 * i) (block i) d) (st32 0 n d) (seqZ 0 n).

Definition write_head : stM bstate unit :=
  l <- getlog;
  buf <- bread (l_dev l) (l_start l);
  d <- bdata buf;
  bset buf (put_head (l_n l) (lhblock l) d);;
  bwrite buf;;
  brelse buf.

Definition recover_from_log : stM bstate unit :=
  read_head;;
  install_trans true;;
  modlog (set_n 0);;
  write_head.

Definition initlog (dev logstart nlog : Z) : stM bstate unit :=
  if BSIZE <=? 4 + 4 * LOGSIZE then spanic "initlog: too big logheader" else
  modlog (set_geometry logstart nlog dev);;
  recover_from_log.

Definition begin_op : stM bstate unit := fun s =>
  let l := bs_log s in
  if l_committing l then Sleep "log" s
  else if LOGSIZE <? l_n l + (l_outstanding l + 1) * MAXOPBLOCKS then Sleep "log" s
  else modlog (set_outstanding (l_outstanding l + 1)) s.

Definition write_log_one (tail : Z) : stM bstate unit :=
  l <- getlog;
  to <- bread (l_dev l) (l_start l + tail + 1);
  from <- bread (l_dev l) (u32 (lhblock l tail));
  d <- bdata from;
  bset to d;;
  bwrite to;;
  brelse from;;
  brelse to.

Definition write_log : stM bstate unit :=
  l <- getlog;
  sfor (seqZ 0 (l_n l)) write_log_one.

Definition commit : stM bstate unit :=
  l <- getlog;
  if 0 <? l_n l then
    write_log;;
    write_head;;
    install_trans false;;
    modlog (set_n 0);;
    write_head
  else sret tt.

Definition end_op : stM bstate unit :=
  l <- getlog;
  modlog (set_outstanding (l_outstanding l - 1));;
  if l_committing l then spanic "log.committing"
  else if l_outstanding l - 1 =? 0 then
    modlog (set_committing true);;
    commit;;
    modlog (set_committing false)
  else sret tt.

(** The absorption scan of [log_write]: the first logged entry equal to
    [blockno], or [n]. *)
Fixpoint absorb (blocks : list Z) (blockno : Z) : Z :=
  match blocks with
  | [] => 0
  | x :: rest => if u32 x =? blockno then 0 else 1 + absorb rest blockno
  end.

Definition log_write (i : nat) : stM bstate unit := fun s =>
  let l := bs_log s in
  let blockno := b_blockno (getbuf s i) in
  if (LOGSIZE <=? l_n l) || (l_size l - 1 <=? l_n l) then Panic "too big a transaction"
  else if l_outstanding l <? 1 then Panic "log_write outside of trans"
  else
    let k := absorb (take (Z.to_nat (l_n l)) (l_block l)) blockno in
    (modlog (set_block k (s32 blockno));;
     if k =? l_n l then bpin i;; modlog (set_n (l_n l + 1)) else sret tt) s.

Definition min (a b : Z) : Z := if a <? b then a else b.

Definition if_log_full (l : logst) : Z :=
  let num := min LOGSIZE (l_size l - 1) in
  if num - l_n l =? 0 then 0
  else if num - l_n l =? 1 then 1
  else num - l_n l.

(** ** One block written through the cache

    What a step of [write_log], [install_trans] or [write_head] does: block
    [dst] holds [d] in memory and on disk, its reference count becomes [r],
    and nothing else changes. *)
Record stored (s s' : bstate) (dst : Z) (d : bytes) (r : Z) : Prop := {
  sd_inv : bio_inv s';
  sd_ref : forall b, ref s' b = if decide (b = dst) then r else ref s b;
  sd_lkd : forall b, lkd s' b = lkd s b;
  sd_lblk : forall b, lblk s' b = if decide (b = dst) then d else lblk s b;
  sd_disk : bs_disk s' = <[dst := d]> (bs_disk s);
  sd_trace : bs_trace s' = bs_trace s ++ [(dst, d)];
  sd_pid : bs_pid s' = bs_pid s;
  sd_log : bs_log s' = bs_log s
}.

(** Run the first action of a bind whose result is known. *)
Lemma sbind_Ok {S A B} (m : stM S A) (f : A -> stM S B) s a s' :
  m s = Ok a s' -> sbind m f s = f a s'.
Proof. unfold sbind. by intros ->. Qed.

Lemma write_log_one_spec s tail b1 b2 :
  bio_inv s -> l_dev (bs_log s) = ROOTDEV ->
  l_start (bs_log s) + tail + 1 = b1 -> u32 (lhblock (bs_log s) tail) = b2 -> b1 <> b2 ->
  lkd s b1 = false -> lkd s b2 = false -> ref s b1 = 0 -> ref s b2 = 1 -> has_free s ->
  exists s', write_log_one tail s = Ok tt s' /\ stored s s' b1 (lblk s b2) 0.
Proof.
  intros Hinv Hdev Hb1 Hb2 Hne Hl1 Hl2 Hr1 Hr2 Hfree.
  unfold write_log_one. erewrite sbind_Ok by reflexivity. rewrite Hdev, Hb1, Hb2.
  destruct (bread_step s b1) as (i1 & s1 & E1 & C1); try done; [lia|auto|].
  rewrite (sbind_Ok _ _ _ _ _ E1).
  destruct (bread_step s1 b2) as (i2 & s2 & E2 & C2); [apply C1|by cview|cview; lia|left; cview; lia|].
  rewrite (sbind_Ok _ _ _ _ _ E2).
  erewrite sbind_Ok by (apply (bdata_step s2 b2); [apply C2|apply C2|cview; lia]).
  assert (bidx s2 b1 = Some i1) as Hi1.
  { apply (cs_keep _ _ _ _ _ _ _ C2); [done|cview; lia|apply C1]. }
  destruct (bset_step s2 b1 i1 (lblk s2 b2)) as (s3 & E3 & C3);
    [apply C2|done|cview; lia|by apply length_lblk, C2|].
  rewrite (sbind_Ok _ _ _ _ _ E3).
  destruct (bwrite_step s3 b1 i1) as (s4 & E4 & W4); [apply C3|apply C3|by cview|].
  rewrite (sbind_Ok _ _ _ _ _ E4).
  assert (bidx s4 b2 = Some i2) as Hi2.
  { rewrite (ws_bidx _ _ _ W4). apply (cs_keep _ _ _ _ _ _ _ C3); [done|cview; lia|apply C2]. }
  destruct (brelse_step s4 b2 i2) as (s5 & E5 & C5); [apply W4|done|by cview|cview; lia|].
  rewrite (sbind_Ok _ _ _ _ _ E5).
  assert (bidx s5 b1 = Some i1) as Hi1'.
  { apply (cs_keep _ _ _ _ _ _ _ C5); [done|cview; lia|]. rewrite (ws_bidx _ _ _ W4). apply C3. }
  destruct (brelse_step s5 b1 i1) as (s6 & E6 & C6);
    [apply C5|done|by cview|by intros _; cview; crest; rewrite dblk_insert; cview|].
  exists s6. split; [done|].
  split; try (crest; cview; done); [apply C6| | |];
    intros b; cview; repeat (case_decide; subst; cview); try done; lia.
Qed.

Lemma install_trans_one_spec (rec : bool) s tail b1 b2 :
  bio_inv s -> l_dev (bs_log s) = ROOTDEV ->
  l_start (bs_log s) + tail + 1 = b1 -> u32 (lhblock (bs_log s) tail) = b2 -> b1 <> b2 ->
  lkd s b1 = false -> lkd s b2 = false -> ref s b1 = 0 ->
  ref s b2 = (if rec then 0 else 1) -> has_free s ->
  (if rec then forall b, ref s b = 0 else True) ->
  exists s', install_trans_one rec tail s = Ok tt s' /\ stored s s' b2 (lblk s b1) 0.
Proof.
  intros Hinv Hdev Hb1 Hb2 Hne Hl1 Hl2 Hr1 Hr2 Hfree Hfree2.
  unfold install_trans_one. erewrite sbind_Ok by reflexivity. rewrite Hdev, Hb1, Hb2.
  destruct (bread_step s b1) as (i1 & s1 & E1 & C1); try done; [lia|auto|].
  rewrite (sbind_Ok _ _ _ _ _ E1).
  destruct (bread_step s1 b2) as (i2 & s2 & E2 & C2); [apply C1|by cview|cview; destruct rec; lia| |].
  { cview. destruct rec; [right|left; lia].
    apply (has_free_count s1 [b1]); [apply C1|by apply NoDup_singleton| |simpl; lia].
    intros b. rewrite list_elem_of_singleton. cview. case_decide; [naive_solver lia|].
    rewrite Hfree2. naive_solver lia. }
  rewrite (sbind_Ok _ _ _ _ _ E2).
  assert (bidx s2 b1 = Some i1) as Hi1.
  { apply (cs_keep _ _ _ _ _ _ _ C2); [done|cview; lia|apply C1]. }
  erewrite sbind_Ok by (apply (bdata_step s2 b1); [apply C2|done|cview; lia]).
  destruct (bset_step s2 b2 i2 (lblk s2 b1)) as (s3 & E3 & C3);
    [apply C2|apply C2|cview; destruct rec; lia|by apply length_lblk, C2|].
  rewrite (sbind_Ok _ _ _ _ _ E3).
  destruct (bwrite_step s3 b2 i2) as (s4 & E4 & W4); [apply C3|apply C3|by cview|].
  rewrite (sbind_Ok _ _ _ _ _ E4).
  assert (bidx s4 b1 = Some i1) as Hi1'.
  { rewrite (ws_bidx _ _ _ W4). apply (cs_keep _ _ _ _ _ _ _ C3); [done|cview; lia|done]. }
  assert (bidx s4 b2 = Some i2) as Hi2.
  { rewrite (ws_bidx _ _ _ W4). apply C3. }
  assert (exists s5, (if rec then sret tt else bunpin i2) s4 = Ok tt s5 /\
            cstep s4 s5 b2 i2 1 true (lblk s b1)) as (s5 & E5 & C5).
  { destruct rec.
    - exists s4. split; [done|]. split; try done; [apply W4| | |];
        intros b; case_decide; subst; cview; try done; lia.
    - eexists. split; [reflexivity|].
      assert (cstep s4 (updbuf i2 (add_ref (-1)) s4) b2 i2 (ref s4 b2 + -1) (lkd s4 b2) (lblk s4 b2)) as C.
      { apply addref_step; [apply W4|done|cview; lia|cview; lia|cview; lia]. }
      replace (ref s4 b2 + -1) with 1 in C by (cview; lia).
      replace (lkd s4 b2) with true in C by (by cview).
      replace (lblk s4 b2) with (lblk s b1) in C by (by cview). done. }
  rewrite (sbind_Ok _ _ _ _ _ E5).
  destruct (brelse_step s5 b1 i1) as (s6 & E6 & C6);
    [apply C5|by apply (cs_keep _ _ _ _ _ _ _ C5); [|cview; lia|]|by cview| |].
  { intros _. cview. crest. rewrite dblk_insert. cview. by apply ref0_clean. }
  rewrite (sbind_Ok _ _ _ _ _ E6).
  destruct (brelse_step s6 b2 i2) as (s7 & E7 & C7);
    [apply C6|by apply (cs_keep _ _ _ _ _ _ _ C6); [|cview; lia|apply C5]|by cview
    |by intros _; cview; crest; rewrite dblk_insert; cview|].
  exists s7. split; [done|].
  split; try (crest; cview; done); [apply C7| | |];
    intros b; cview; repeat (case_decide; subst; cview); try done; lia.
Qed.

(** ** The header block *)

Lemma length_put_head n f d :
  0 <= n <= LOGSIZE -> length d = Z.to_nat BSIZE -> length (put_head n f d) = Z.to_nat BSIZE.
Proof.
  intros Hn Hd. unfold put_head.
  assert (forall l d, Forall (fun i => 0 <= i < LOGSIZE) l -> length d = Z.to_nat BSIZE ->
    length (foldl (fun d i => st32 (4 + 4 * i) (f i) d) d l) = Z.to_nat BSIZE) as H.
  { induction l as [|i l IH]; intros d' Hl Hd'; simpl; [done|].
    apply Forall_cons in Hl as [Hi Hl]. apply IH; [done|].
    rewrite length_st32; unfold zlen; lia. }
  apply H.
  - apply Forall_forall. intros i Hi. rewrite elem_of_seqZ in Hi. lia.
  - rewrite length_st32; unfold zlen; lia.
Qed.

(** Every entry of the header reads back; the count too. *)
Lemma put_head_read n f d :
  0 <= n <= LOGSIZE -> length d = Z.to_nat BSIZE ->
  ld32 0 (put_head n f d) = u32 n /\
  forall i, 0 <= i < n -> ld32 (4 + 4 * i) (put_head n f d) = u32 (f i).
Proof.
  intros Hn Hd. unfold put_head.
  set (step := fun d i => st32 (4 + 4 * i) (f i) d).
  cut (forall m : nat, Z.of_nat m <= n -> let d' := foldl step (st32 0 n d) (seqZ 0 (Z.of_nat m)) in
    length d' = Z.to_nat BSIZE /\ ld32 0 d' = u32 n /\
    forall i, 0 <= i < Z.of_nat m -> ld32 (4 + 4 * i) d' = u32 (f i)).
  { intros H. destruct (H (Z.to_nat n) ltac:(lia)) as (_ & H1 & H2).
    rewrite Z2Nat.id in H1, H2 by lia. done. }
  induction m as [|m IH]; intros Hm.
  - cbv zeta. rewrite seqZ_nil by lia. cbn [foldl]. rewrite length_st32, ld32_st32_eq by (unfold zlen; lia).
    repeat split; [done|]. lia.
  - destruct IH as (IHl & IH0 & IHi); [lia|]. cbv zeta. rewrite seqZ_S, foldl_app.
    change (foldl step ?x [?y]) with (step x y). unfold step at 1 3 5.
    rewrite length_st32, ld32_st32_ne by (unfold zlen; lia).
    split; [done|]. split; [done|]. intros i Hi.
    destruct (decide (i = 0 + Z.of_nat m)) as [->|Hne].
    + rewrite ld32_st32_eq; [done|lia|unfold zlen; lia].
    + rewrite ld32_st32_ne by (unfold zlen; lia). apply IHi. lia.
Qed.

Lemma write_head_spec s b0 :
  bio_inv s -> l_dev (bs_log s) = ROOTDEV -> l_start (bs_log s) = b0 ->
  0 <= l_n (bs_log s) <= LOGSIZE ->
  lkd s b0 = false -> ref s b0 = 0 -> has_free s ->
  exists s', write_head s = Ok tt s' /\
    stored s s' b0 (put_head (l_n (bs_log s)) (lhblock (bs_log s)) (lblk s b0)) 0.
Proof.
  intros Hinv Hdev Hb0 Hn Hl Hr Hfree.
  unfold write_head. erewrite sbind_Ok by reflexivity. rewrite Hdev, Hb0.
  destruct (bread_step s b0) as (i & s1 & E1 & C1); try done; [lia|auto|].
  rewrite (sbind_Ok _ _ _ _ _ E1).
  erewrite sbind_Ok by (apply (bdata_step s1 b0); [apply C1|apply C1|cview; lia]).
  set (D := put_head _ _ _).
  assert (length D = Z.to_nat BSIZE) as HD by (by apply length_put_head, length_lblk; [|apply C1]).
  destruct (bset_step s1 b0 i D) as (s2 & E2 & C2); [apply C1|apply C1|cview; lia|done|].
  rewrite (sbind_Ok _ _ _ _ _ E2).
  destruct (bwrite_step s2 b0 i) as (s3 & E3 & W3); [apply C2|apply C2|by cview|].
  rewrite (sbind_Ok _ _ _ _ _ E3).
  destruct (brelse_step s3 b0 i) as (s4 & E4 & C4);
    [apply W3|rewrite (ws_bidx _ _ _ W3); apply C2|by cview
    |by intros _; cview; crest; rewrite dblk_insert; cview|].
  exists s4. split; [done|]. replace (put_head _ _ _) with D by (unfold D; by cview).
  split; try (crest; cview; done); [apply C4| | |];
    intros b; cview; repeat (case_decide; subst; cview); try done; lia.
Qed.

(** ** Disk writes *)

Definition apply_writes (d : gmap Z bytes) (W : list (Z * bytes)) : gmap Z bytes :=
  foldl (fun d w => <[w.1 := w.2]> d) d W.

(** The run from [s] to [s'] performed exactly the disk writes [W]. *)
Definition emits (s s' : bstate) (W : list (Z * bytes)) : Prop :=
  bs_disk s' = apply_writes (bs_disk s) W /\ bs_trace s' = bs_trace s ++ W.

Lemma emits_nil s : emits s s [].
Proof. split; [done|]. by rewrite app_nil_r. Qed.

Lemma emits_trans s1 s2 s3 W1 W2 : emits s1 s2 W1 -> emits s2 s3 W2 -> emits s1 s3 (W1 ++ W2).
Proof.
  intros [D1 T1] [D2 T2]. split.
  - unfold apply_writes in *. by rewrite foldl_app, <- D1.
  - by rewrite T2, T1, <- app_assoc.
Qed.

Lemma stored_emits s s' b d r : stored s s' b d r -> emits s s' [(b, d)].
Proof. intros H. split; [apply (sd_disk _ _ _ _ _ H)|apply (sd_trace _ _ _ _ _ H)]. Qed.

Lemma apply_writes_out d W b :
  b ∉ W.*1 -> dblk (apply_writes d W) b = dblk d b.
Proof.
  revert d. induction W as [|[b' x] W IH]; intros d Hb; simpl in *; [done|].
  rewrite not_elem_of_cons in Hb. destruct Hb as [Hb Hb'].
  unfold apply_writes in *. simpl. rewrite IH by done. by rewrite dblk_insert, decide_False.
Qed.

Lemma apply_writes_in d W b x :
  NoDup W.*1 -> (b, x) ∈ W -> dblk (apply_writes d W) b = x.
Proof.
  revert d. induction W as [|[b' y] W IH]; intros d Hnd Hin; [by apply elem_of_nil in Hin|].
  simpl in Hnd. apply NoDup_cons in Hnd as [Hb Hnd]. unfold apply_writes in *. simpl.
  apply elem_of_cons in Hin as [[= -> ->]|Hin].
  - rewrite apply_writes_out by done. by rewrite dblk_insert, decide_True.
  - by apply IH.
Qed.

Lemma apply_writes_app d W1 W2 : apply_writes d (W1 ++ W2) = apply_writes (apply_writes d W1) W2.
Proof. unfold apply_writes. by rewrite foldl_app. Qed.

(** ** The log between operations *)

(** A block of the on-disk log. *)
Definition in_log (start size b : Z) : Prop := start <= b < start + size.

(** The logged blocks are [L], in order; each is pinned once, and otherwise
    referenced only by whoever holds its lock. *)
Record log_ok (s : bstate) (L : list Z) : Prop := {
  lo_inv : bio_inv s;
  lo_dev : l_dev (bs_log s) = ROOTDEV;
  lo_geom : 0 <= l_start (bs_log s) /\ 1 <= l_size (bs_log s) <= LOGSIZE /\
            l_start (bs_log s) + l_size (bs_log s) < 2 ^ 31;
  lo_n : l_n (bs_log s) = zlen L;
  lo_len : length (l_block (bs_log s)) = Z.to_nat LOGSIZE;
  lo_blocks : forall i b, L !! i = Some b -> l_block (bs_log s) !! i = Some b;
  lo_nodup : NoDup L;
  lo_range : forall b, b ∈ L -> 0 <= b < 2 ^ 31 /\ ~ in_log (l_start (bs_log s)) (l_size (bs_log s)) b;
  lo_fits : zlen L <= l_size (bs_log s) - 1;
  lo_ref : forall b, ref s b = (if decide (b ∈ L) then 1 else 0) + (if lkd s b then 1 else 0);
  lo_loglk : forall b, in_log (l_start (bs_log s)) (l_size (bs_log s)) b -> lkd s b = false
}.

Lemma log_ok_lhblock s L (i : nat) b :
  log_ok s L -> L !! i = Some b -> u32 (lhblock (bs_log s) (Z.of_nat i)) = b.
Proof.
  intros H Hi. unfold lhblock. rewrite Nat2Z.id, nth_lookup, (lo_blocks s L H i b Hi). simpl.
  apply u32_small. destruct (lo_range s L H b); [by eapply list_elem_of_lookup_2|lia].
Qed.

Lemma log_ok_free s L :
  log_ok s L -> (forall b, lkd s b = false) -> has_free s.
Proof.
  intros H Hl. apply (has_free_count s L); [apply H|apply H| |].
  - intros b. rewrite (lo_ref s L H), Hl. case_decide; naive_solver lia.
  - pose proof (lo_fits s L H). pose proof (lo_geom s L H). unfold zlen in *. lia.
Qed.

(** A point of [commit] started in [s]: the disk writes so far, and the
    reference counts and contents now (no block is locked). *)
Record mid (s s' : bstate) (W : list (Z * bytes)) (rf : Z -> Z) (lb : Z -> bytes) : Prop := {
  md_inv : bio_inv s';
  md_ref : forall b, ref s' b = rf b;
  md_lkd : forall b, lkd s' b = false;
  md_lblk : forall b, lblk s' b = lb b;
  md_emits : emits s s' W;
  md_pid : bs_pid s' = bs_pid s;
  md_log : bs_log s' = bs_log s
}.

Lemma mid_stored s s1 s2 W rf lb b d r rf' lb' :
  mid s s1 W rf lb -> stored s1 s2 b d r ->
  (forall b', rf' b' = if decide (b' = b) then r else rf b') ->
  (forall b', lb' b' = if decide (b' = b) then d else lb b') ->
  mid s s2 (W ++ [(b, d)]) rf' lb'.
Proof.
  intros M S Hr Hb. split.
  - apply S.
  - intros b'. by rewrite (sd_ref _ _ _ _ _ S), Hr, (md_ref _ _ _ _ _ M).
  - intros b'. by rewrite (sd_lkd _ _ _ _ _ S), (md_lkd _ _ _ _ _ M).
  - intros b'. by rewrite (sd_lblk _ _ _ _ _ S), Hb, (md_lblk _ _ _ _ _ M).
  - eapply emits_trans; [apply M|]. by eapply stored_emits.
  - by rewrite (sd_pid _ _ _ _ _ S), (md_pid _ _ _ _ _ M).
  - by rewrite (sd_log _ _ _ _ _ S), (md_log _ _ _ _ _ M).
Qed.

Lemma mid_free s s' W rf lb L :
  mid s s' W rf lb -> NoDup L -> (forall b, b ∈ L <-> 0 < rf b) -> (length L < NBUF)%nat -> has_free s'.
Proof.
  intros M HL Hel Hlt. apply (has_free_count s' L); [apply M|done| |done].
  intros b. by rewrite (md_ref _ _ _ _ _ M).
Qed.

(** The index list of a counted loop, split at the current iteration. *)
Lemma seqZ_split n pre i post :
  seqZ 0 n = pre ++ i :: post -> i = zlen pre /\ i < n.
Proof.
  intros H. assert (seqZ 0 n !! length pre = Some i) as Hi.
  { rewrite H. by rewrite list_lookup_middle. }
  apply lookup_seqZ in Hi. unfold zlen. lia.
Qed.

Section Commit.
  Context (s : bstate) (L : list Z) (Hok : log_ok s L) (Hnl : forall b, lkd s b = false).

Let start := l_start (bs_log s).
Let n := zlen L.

(** Number of logged blocks a state can pin. *)
Lemma log_fits : n <= 44 /\ n <= l_size (bs_log s) - 1.
Proof. pose proof (lo_fits s L Hok). pose proof (lo_geom s L Hok). unfold n. lia. Qed.

Lemma ref_logged b : ref s b = if decide (b ∈ L) then 1 else 0.
Proof. rewrite (lo_ref s L Hok), Hnl. lia. Qed.

Lemma logged_out b : b ∈ L -> ~ (start <= b < start + l_size (bs_log s)).
Proof. intros Hb. by destruct (lo_range s L Hok b Hb). Qed.

Definition log_writes (k : nat) : list (Z * bytes) :=
  imap (fun i b => (start + 1 + Z.of_nat i, lblk s b)) (take k L).

(** Contents after [k] blocks were copied to the log. *)
Definition wl_view (k : Z) (b : Z) : bytes :=
  if decide (start < b <= start + k)
  then lblk s (nth (Z.to_nat (b - start - 1)) L 0) else lblk s b.

Lemma wl_view_logged k b : b ∈ L -> k <= n -> wl_view k b = lblk s b.
Proof.
  intros Hb Hk. unfold wl_view. rewrite decide_False; [done|].
  pose proof (logged_out b Hb). pose proof log_fits. lia.
Qed.

(** The logged block an iteration handles. *)
Lemma logged_nth (k : nat) :
  Z.of_nat k < n ->
  exists b, L !! k = Some b /\ b ∈ L /\ u32 (lhblock (bs_log s) (Z.of_nat k)) = b /\
    ref s b = 1 /\ ref s (start + Z.of_nat k + 1) = 0 /\ start + Z.of_nat k + 1 <> b.
Proof.
  intros Hk. destruct (lookup_lt_is_Some_2 L k) as [b Hb]; [unfold n, zlen in *; lia|].
  assert (b ∈ L) as Hin by (by eapply list_elem_of_lookup_2).
  pose proof (logged_out b Hin). pose proof log_fits as Hfit.
  exists b. rewrite ref_logged, decide_True by done. repeat split; try done.
  - by apply (log_ok_lhblock s L).
  - rewrite ref_logged, decide_False; [done|]. intros Hin'. apply logged_out in Hin'. lia.
  - lia.
Qed.

Lemma write_log_step (k : nat) s1 :
  Z.of_nat k < n -> mid s s1 (log_writes k) (ref s) (wl_view (Z.of_nat k)) ->
  wp (write_log_one (Z.of_nat k))
     (fun _ s2 => mid s s2 (log_writes (S k)) (ref s) (wl_view (Z.of_nat (S k)))) s1.
Proof.
  intros Hk M. pose proof log_fits as Hfit.
  destruct (logged_nth k Hk) as (b & Hb & Hin & Hlh & Hr & Hr0 & Hne).
  pose proof (md_log _ _ _ _ _ M) as El.
  destruct (write_log_one_spec s1 (Z.of_nat k) (start + Z.of_nat k + 1) b) as (s2 & E & St);
    rewrite ?El, ?(md_ref _ _ _ _ _ M), ?(md_lkd _ _ _ _ _ M); try done; try apply M; try apply Hok.
  { eapply (mid_free _ _ _ _ _ L M); [apply Hok| |unfold n, zlen in *; lia].
    intros b'. rewrite ref_logged. case_decide; naive_solver lia. }
  unfold wp. rewrite E. rewrite (md_lblk _ _ _ _ _ M), wl_view_logged in St by (done || lia).
  assert (log_writes (S k) = log_writes k ++ [(start + Z.of_nat k + 1, lblk s b)]) as ->.
  { unfold log_writes. rewrite (take_S_r L _ b) by done. rewrite imap_app. simpl. do 3 f_equal.
    rewrite length_take. unfold n, zlen in *. lia. }
  eapply mid_stored; [exact M|exact St| |]; intros b'.
  - case_decide; [by subst|done].
  - unfold wl_view. repeat case_decide; try lia; try done. subst.
    f_equal. rewrite nth_lookup. replace (Z.to_nat _) with k by lia. by rewrite Hb.
Qed.

Lemma write_log_spec :
  exists s', write_log s = Ok tt s' /\ mid s s' (log_writes (length L)) (ref s) (wl_view n).
Proof.
  assert (wp (sfor (seqZ 0 n) write_log_one)
             (fun _ s' => mid s s' (log_writes (length (seqZ 0 n))) (ref s) (wl_view (zlen (seqZ 0 n)))) s) as H.
  { apply (wp_sfor _ _ (fun pre s' => mid s s' (log_writes (length pre)) (ref s) (wl_view (zlen pre)))).
    - split; try done; [apply Hok| |apply emits_nil].
      intros b. unfold wl_view. rewrite decide_False by (unfold zlen; simpl; lia). done.
    - intros pre i post s1 Hsp M. apply seqZ_split in Hsp as [-> Hi].
      unfold zlen in *. rewrite length_app, Nat.add_1_r. by apply write_log_step. }
  unfold write_log. erewrite sbind_Ok by reflexivity. rewrite (lo_n s L Hok). fold n.
  unfold wp in H. destruct (sfor _ _ s) as [[] s'| | |]; try done. exists s'. split; [done|].
  unfold zlen in H. rewrite length_seqZ in H. unfold n, zlen in *. rewrite Nat2Z.id in H. done.
Qed.

(** Phase two: the header block with the logged block numbers. *)
Definition head1 : bytes := put_head n (lhblock (bs_log s)) (lblk s start).
Definition wh_view (b : Z) : bytes := if decide (b = start) then head1 else wl_view n b.

Lemma write_head1_spec s1 W :
  mid s s1 W (ref s) (wl_view n) ->
  exists s', write_head s1 = Ok tt s' /\ mid s s' (W ++ [(start, head1)]) (ref s) wh_view.
Proof.
  intros M. pose proof (md_log _ _ _ _ _ M) as El. pose proof log_fits as Hfit.
  pose proof (lo_geom s L Hok) as Hg.
  assert (ref s start = 0) as Hr.
  { rewrite ref_logged, decide_False; [done|]. intros Hin'. apply logged_out in Hin'. lia. }
  destruct (write_head_spec s1 start) as (s2 & E & St);
    rewrite ?El, ?(lo_n s L Hok), ?(md_ref _ _ _ _ _ M), ?(md_lkd _ _ _ _ _ M);
    try done; try apply M; try apply Hok; try (unfold n, zlen in *; lia).
  { eapply (mid_free _ _ _ _ _ L M); [apply Hok| |unfold n, zlen in *; lia].
    intros b'. rewrite ref_logged. case_decide; naive_solver lia. }
  exists s2. split; [done|].
  rewrite El, (lo_n s L Hok), (md_lblk _ _ _ _ _ M) in St.
  replace (wl_view n start) with (lblk s start) in St
    by (unfold wl_view; rewrite decide_False by lia; done).
  eapply mid_stored; [exact M|exact St| |]; intros b'; [case_decide; [by subst|done]|done].
Qed.

(** Phase three: the logged blocks reach their home locations. *)
Definition home_writes (k : nat) : list (Z * bytes) := map (fun b => (b, lblk s b)) (take k L).
Definition pinned (k : nat) (b : Z) : Z := if decide (b ∈ drop k L) then 1 else 0.

Lemma wh_view_logged b : b ∈ L -> wh_view b = lblk s b.
Proof.
  intros Hb. unfold wh_view. pose proof (logged_out b Hb). pose proof (lo_geom s L Hok).
  rewrite decide_False by lia. by apply wl_view_logged.
Qed.

Lemma install_step (k : nat) s1 W :
  Z.of_nat k < n -> mid s s1 (W ++ home_writes k) (pinned k) wh_view ->
  wp (install_trans_one false (Z.of_nat k))
     (fun _ s2 => mid s s2 (W ++ home_writes (S k)) (pinned (S k)) wh_view) s1.
Proof.
  intros Hk M. pose proof log_fits as Hfit. pose proof (lo_geom s L Hok) as Hg.
  destruct (logged_nth k Hk) as (b & Hb & Hin & Hlh & Hr & Hr0 & Hne).
  pose proof (md_log _ _ _ _ _ M) as El. pose proof (lo_nodup s L Hok) as HND.
  assert (drop k L = b :: drop (S k) L) as Hdrop by (by apply drop_S).
  assert (b ∉ drop (S k) L) as Hnin.
  { rewrite <- (take_drop k L), Hdrop in HND. apply NoDup_app in HND as (_ & _ & HND).
    by apply NoDup_cons in HND as [? _]. }
  destruct (install_trans_one_spec false s1 (Z.of_nat k) (start + Z.of_nat k + 1) b) as (s2 & E & St);
    rewrite ?El, ?(md_ref _ _ _ _ _ M), ?(md_lkd _ _ _ _ _ M); try done; try apply M; try apply Hok.
  - unfold pinned. rewrite decide_False; [done|]. intros Hd. apply subseteq_drop, logged_out in Hd. lia.
  - unfold pinned. rewrite decide_True; [done|]. rewrite Hdrop. set_solver.
  - eapply (mid_free _ _ _ _ _ (drop k L) M).
    + by eapply sublist_NoDup, sublist_drop.
    + intros b'. unfold pinned. case_decide; naive_solver lia.
    + rewrite length_drop. unfold n, zlen in *. lia.
  - unfold wp. rewrite E. rewrite (md_lblk _ _ _ _ _ M) in St.
    assert (wh_view (start + Z.of_nat k + 1) = lblk s b) as Hsrc.
    { unfold wh_view, wl_view. rewrite decide_False, decide_True by lia.
      rewrite nth_lookup. replace (Z.to_nat _) with k by lia. by rewrite Hb. }
    rewrite Hsrc in St.
    assert (W ++ home_writes (S k) = (W ++ home_writes k) ++ [(b, lblk s b)]) as ->.
    { unfold home_writes. rewrite (take_S_r L _ b) by done. by rewrite map_app, app_assoc. }
    eapply mid_stored; [exact M|exact St| |]; intros b'.
    + unfold pinned. rewrite Hdrop.
      destruct (decide (b' = b)) as [->|Hn]; [by rewrite decide_False|].
      apply decide_ext. set_solver.
    + case_decide; [|done]. subst. by apply wh_view_logged.
Qed.

Lemma install_spec s1 W :
  mid s s1 W (ref s) wh_view ->
  exists s', install_trans false s1 = Ok tt s' /\
    mid s s' (W ++ home_writes (length L)) (fun _ => 0) wh_view.
Proof.
  intros M.
  assert (wp (sfor (seqZ 0 n) (install_trans_one false))
             (fun _ s' => mid s s' (W ++ home_writes (length (seqZ 0 n))) (pinned (length (seqZ 0 n))) wh_view) s1) as H.
  { apply (wp_sfor _ _ (fun pre s' => mid s s' (W ++ home_writes (length pre)) (pinned (length pre)) wh_view)).
    - unfold home_writes. simpl. rewrite app_nil_r. destruct M as [Mi Mr Ml Mb Me Mp Mg].
      split; try done. intros b. rewrite Mr, ref_logged. unfold pinned. by rewrite drop_0.
    - intros pre i post s2 Hsp M'. apply seqZ_split in Hsp as [-> Hi].
      unfold zlen in *. rewrite length_app, Nat.add_1_r. by apply install_step. }
  unfold install_trans. erewrite sbind_Ok by reflexivity.
  rewrite (md_log _ _ _ _ _ M), (lo_n s L Hok). fold n.
  unfold wp in H. destruct (sfor _ _ s1) as [[] s'| | |]; try done. exists s'. split; [done|].
  rewrite length_seqZ in H. unfold n, zlen in H. rewrite Nat2Z.id in H.
  destruct H as [Mi Mr Ml Mb Me Mp Mg]. split; try done.
  intros b. rewrite Mr. unfold pinned. rewrite drop_all, decide_False; [done|]. set_solver.
Qed.

(** Phase four: the header is cleared. *)
Definition head0 : bytes := put_head 0 (lhblock (bs_log s)) head1.

Definition commit_writes : list (Z * bytes) :=
  log_writes (length L) ++ [(start, head1)] ++ home_writes (length L) ++ [(start, head0)].

(** The state [commit] leaves behind. *)
Record committed (s' : bstate) : Prop := {
  cm_inv : bio_inv s';
  cm_emits : emits s s' commit_writes;
  cm_ref : forall b, ref s' b = 0;
  cm_lkd : forall b, lkd s' b = false;
  cm_lblk : forall b, ~ in_log start (l_size (bs_log s)) b -> lblk s' b = lblk s b;
  cm_pid : bs_pid s' = bs_pid s;
  cm_log : bs_log s' = set_n 0 (bs_log s)
}.

Lemma commit_run : L <> [] -> exists s', commit s = Ok tt s' /\ committed s'.
Proof.
  intros HL. pose proof log_fits as Hfit. pose proof (lo_geom s L Hok) as Hg.
  assert (0 < n) by (destruct L; [done|unfold n, zlen; simpl; lia]).
  unfold commit. erewrite sbind_Ok by reflexivity. rewrite (lo_n s L Hok). fold n.
  destruct (Z.ltb_spec 0 n); [|lia].
  destruct write_log_spec as (s1 & E1 & M1). rewrite (sbind_Ok _ _ _ _ _ E1).
  destruct (write_head1_spec s1 _ M1) as (s2 & E2 & M2). rewrite (sbind_Ok _ _ _ _ _ E2).
  destruct (install_spec s2 _ M2) as (s3 & E3 & M3). rewrite (sbind_Ok _ _ _ _ _ E3).
  erewrite sbind_Ok by reflexivity.
  destruct M3 as [Mi Mr Ml Mb Me Mp Mg].
  set (s4 := set_log (set_n 0) s3).
  assert (bio_inv s4) as Hi4
    by (split; [apply (bi_len s3 Mi)|apply (bi_lru s3 Mi)|apply (bi_uniq s3 Mi)|apply (bi_bufs s3 Mi)|apply (bi_disk s3 Mi)]).
  destruct (write_head_spec s4 start) as (s5 & E5 & St); try done; unfold s4; simpl; rewrite ?Mg; simpl; try done; try lia.
  - apply Hok.
  - apply Ml.
  - apply Mr.
  - apply (has_free_count s4 []); [done|constructor| |simpl; lia].
    intros b. change (ref s4 b) with (ref s3 b). rewrite Mr. split; [set_solver|lia].
  - exists s5. split; [done|]. fold s4 in St.
    change (lblk s4 start) with (lblk s3 start) in St. rewrite Mb in St.
    unfold wh_view in St at 1. rewrite decide_True in St by done. simpl in St. rewrite Mg in St.
    change (put_head 0 (lhblock (set_n 0 (bs_log s))) head1) with head0 in St.
    split.
    + apply St.
    + unfold commit_writes. rewrite !app_assoc. eapply emits_trans; [|by eapply stored_emits].
      rewrite <- !app_assoc in *. exact Me.
    + intros b. rewrite (sd_ref _ _ _ _ _ St). case_decide; [done|apply Mr].
    + intros b. rewrite (sd_lkd _ _ _ _ _ St). apply Ml.
    + intros b Hb. rewrite (sd_lblk _ _ _ _ _ St). unfold in_log in Hb. rewrite decide_False by lia.
      change (lblk s4 b) with (lblk s3 b). rewrite Mb. unfold wh_view, wl_view.
      rewrite !decide_False by lia. done.
    + by rewrite (sd_pid _ _ _ _ _ St).
    + rewrite (sd_log _ _ _ _ _ St). unfold s4. simpl. by rewrite Mg.
Qed.
End Commit.
