(* ===== verification/Crash.v ===== *)
(** * Recovery and crash safety of the log

    [initlog] on a freshly booted cache, and the effect of a crash at any
    point of [commit]: the disk writes of a run are its trace, a crash leaves
    a prefix of them, and recovery turns every such prefix into the state
    before the transaction or the state after it.  Blocks are written
    atomically. *)
From S2P Require Import Prelude Bio Log.
Local Open Scope st_scope.

(** The machine after a reboot: nothing cached, [binit] done, the log's
    static variables zero. *)
Definition log0 : logst := mkLog 0 0 0 false 0 0 (replicate (Z.to_nat LOGSIZE) 0).
Definition boot (d : gmap Z bytes) (pid : Z) : bstate :=
  binit (mkB (replicate NBUF buf0) [] d [] pid log0).

(** The on-disk header, as [read_head] interprets it. *)
Definition hd_n (h : bytes) : Z := s32 (ld32 0 h).
Definition hd_block (h : bytes) (i : Z) : Z := s32 (ld32 (4 + 4 * i) h).
Definition hd_list (h : bytes) : list Z := map (hd_block h) (seqZ 0 (hd_n h)).

(** A header recovery can use: it fits the log and names distinct blocks
    outside it. *)
Record head_ok (start size : Z) (h : bytes) : Prop := {
  ho_n : 0 <= hd_n h <= size - 1;
  ho_nodup : NoDup (hd_list h);
  ho_range : forall b, b ∈ hd_list h -> 0 <= b < 2 ^ 31 /\ ~ in_log start size b
}.

(** The disk writes of recovery from disk [d]. *)
Definition rec_install (start : Z) (d : gmap Z bytes) (k : nat) : list (Z * bytes) :=
  imap (fun i b => (b, dblk d (start + 1 + Z.of_nat i))) (take k (hd_list (dblk d start))).
Definition rec_writes (start : Z) (d : gmap Z bytes) : list (Z * bytes) :=
  rec_install start d (length (hd_list (dblk d start))) ++
  [(start, st32 0 0 (dblk d start))].

(** A content function updated by disk writes. *)
Fixpoint wview (f : Z -> bytes) (W : list (Z * bytes)) (b : Z) : bytes :=
  match W with
  | [] => f b
  | (b', x) :: W => wview (fun c => if decide (c = b') then x else f c) W b
  end.

Definition good_disk (d : gmap Z bytes) : Prop := forall b, length (dblk d b) = Z.to_nat BSIZE.

(** ** Lemmas *)

Lemma wview_app f W1 W2 b : wview f (W1 ++ W2) b = wview (wview f W1) W2 b.
Proof. revert f. induction W1 as [|[b' x] W1 IH]; intros f; simpl; [done|]. apply IH. Qed.

Lemma wview_out f W b : b ∉ W.*1 -> wview f W b = f b.
Proof.
  revert f. induction W as [|[b' x] W IH]; intros f Hb; simpl in *; [done|].
  rewrite not_elem_of_cons in Hb. destruct Hb as [Hb Hb'].
  rewrite IH by done. by rewrite decide_False.
Qed.

Lemma boot_inv d pid : good_disk d -> bio_inv (boot d pid).
Proof.
  intros Hd.
  assert (forall i, getbuf (boot d pid) i = buf0) as Hg.
  { intros i. unfold getbuf, boot. simpl.
    do 45 (destruct i as [|i]; [reflexivity|]). by destruct i. }
  split.
  - reflexivity.
  - change (rev (seq 0 NBUF) ≡ₚ seq 0 NBUF). symmetry. apply Permutation_rev.
  - intros i j _ _ H. rewrite Hg in H. done.
  - intros i _. rewrite Hg. by split; simpl; try done; auto; lia.
  - done.
Qed.

Lemma boot_bidx d pid b : bidx (boot d pid) b = None.
Proof. reflexivity. Qed.

Lemma bio_inv_set_log f s : bio_inv s -> bio_inv (set_log f s).
Proof.
  intros H. split; [apply (bi_len s H)|apply (bi_lru s H)|apply (bi_uniq s H)|apply (bi_bufs s H)|apply (bi_disk s H)].
Qed.

(** The log fields [read_head] loads. *)
Definition load_head (d : bytes) (l : list Z) (lg : logst) : logst :=
  foldl (fun lg i => set_block i (hd_block d i) lg) lg l.

Lemma read_loop d l s :
  Forall (fun i => 0 <= i < LOGSIZE) l ->
  sfor l (fun i => if i <? LOGSIZE then modlog (set_block i (s32 (ld32 (4 + 4 * i) d)))
                   else fun _ => Wrong "log.lh.block out of bounds") s
  = Ok tt (set_log (load_head d l) s).
Proof.
  revert s. induction l as [|i l IH]; intros s Hl; simpl; [by destruct s|].
  apply Forall_cons in Hl as [Hi Hl]. destruct (Z.ltb_spec i LOGSIZE); [|lia].
  erewrite sbind_Ok by reflexivity. rewrite IH by done. done.
Qed.

Lemma load_head_spec d (m : nat) lg :
  length (l_block lg) = Z.to_nat LOGSIZE -> Z.of_nat m <= LOGSIZE ->
  let lg' := load_head d (seqZ 0 (Z.of_nat m)) lg in
  l_start lg' = l_start lg /\ l_size lg' = l_size lg /\ l_dev lg' = l_dev lg /\
  l_n lg' = l_n lg /\ l_outstanding lg' = l_outstanding lg /\ l_committing lg' = l_committing lg /\
  length (l_block lg') = Z.to_nat LOGSIZE /\
  forall i : nat, (i < m)%nat -> l_block lg' !! i = Some (hd_block d (Z.of_nat i)).
Proof.
  intros Hlen. induction m as [|m IH]; intros Hm; cbv zeta.
  - rewrite seqZ_nil by lia. simpl. repeat split; try done. lia.
  - destruct IH as (H1 & H2 & H3 & H4 & H5 & H6 & H7 & H8); [lia|].
    unfold load_head in *. rewrite seqZ_S, foldl_app, Z.add_0_l.
    cbn [foldl set_block l_start l_size l_dev l_n l_outstanding l_committing l_block].
    rewrite Nat2Z.id, length_insert.
    repeat split; try done.
    intros i Hi. destruct (decide (i = m)) as [->|Hne].
    + apply list_lookup_insert_eq. lia.
    + rewrite list_lookup_insert_ne by lia. apply H8. lia.
Qed.

Lemma put_head_0 f d : put_head 0 f d = st32 0 0 d.
Proof. reflexivity. Qed.

Section Recover.
  Context (s : bstate) (start size : Z).
  Context (Hinv : bio_inv s) (Hr0 : forall b, ref s b = 0) (Hl0 : forall b, lkd s b = false).
  Context (Hgeom : 0 <= start /\ 1 <= size <= LOGSIZE /\ start + size < 2 ^ 31).
  Context (Hlg : l_start (bs_log s) = start /\ l_size (bs_log s) = size /\ l_dev (bs_log s) = ROOTDEV).
  Context (Hlen : length (l_block (bs_log s)) = Z.to_nat LOGSIZE).

Let d := bs_disk s.
Let h := dblk d start.
Let L := hd_list h.

  Context (Hho : head_ok start size h).

Lemma clean b : lblk s b = dblk d b.
Proof. by apply ref0_clean. Qed.

Lemma all_free s' : bio_inv s' -> (forall b, ref s' b = 0) -> has_free s'.
Proof.
  intros Hi Hz. apply (has_free_count s' []); [done|constructor| |simpl; lia].
  intros b. rewrite Hz. split; [set_solver|lia].
Qed.

Lemma length_hd_list : zlen L = hd_n h.
Proof.
  unfold zlen, L, hd_list. rewrite length_map, length_seqZ.
  pose proof (ho_n _ _ _ Hho). lia.
Qed.

Lemma hd_list_lookup (i : nat) b : L !! i = Some b -> b = hd_block h (Z.of_nat i) /\ Z.of_nat i < hd_n h.
Proof.
  unfold L, hd_list. intros Hi. rewrite list_lookup_fmap in Hi.
  destruct (seqZ 0 (hd_n h) !! i) as [j|] eqn:E; [|done]. simpl in Hi. injection Hi as <-.
  apply lookup_seqZ in E. by destruct E as [-> ?].
Qed.

(** After [read_head] the logged blocks are those of the header. *)
Lemma read_head_spec :
  exists s1, read_head s = Ok tt s1 /\ bio_inv s1 /\
    (forall b, ref s1 b = 0) /\ (forall b, lkd s1 b = false) /\ (forall b, lblk s1 b = lblk s b) /\
    bs_disk s1 = bs_disk s /\ bs_trace s1 = bs_trace s /\ bs_pid s1 = bs_pid s /\
    l_start (bs_log s1) = start /\ l_size (bs_log s1) = size /\ l_dev (bs_log s1) = ROOTDEV /\
    l_n (bs_log s1) = hd_n h /\
    l_outstanding (bs_log s1) = l_outstanding (bs_log s) /\
    l_committing (bs_log s1) = l_committing (bs_log s) /\
    length (l_block (bs_log s1)) = Z.to_nat LOGSIZE /\
    (forall i b, L !! i = Some b -> l_block (bs_log s1) !! i = Some b).
Proof.
  destruct Hlg as (Hs & Hz & Hd). pose proof (ho_n _ _ _ Hho) as Hn.
  unfold read_head. erewrite sbind_Ok by reflexivity. rewrite Hd, Hs.
  destruct (bread_step s start) as (i & s1 & E1 & C1); try done; [rewrite Hr0; lia|right; by apply all_free|].
  rewrite (sbind_Ok _ _ _ _ _ E1).
  erewrite sbind_Ok by (apply (bdata_step s1 start); [apply C1|apply C1|cview; rewrite Hr0; lia]).
  assert (lblk s1 start = h) as -> by (cview; apply clean).
  erewrite sbind_Ok by reflexivity. erewrite sbind_Ok by reflexivity. simpl. fold (hd_n h).
  rewrite (sbind_Ok _ _ _ _ _ (read_loop h (seqZ 0 (hd_n h)) _ ltac:(apply Forall_seqZ; lia))).
  set (s2 := set_log _ (set_log _ s1)).
  assert (bio_inv s2) as Hi2 by (by do 2 apply bio_inv_set_log; apply C1).
  destruct (brelse_step s2 start i) as (s3 & E3 & C3); [done|apply C1| | |].
  { change (lkd s2 start) with (lkd s1 start). by cview. }
  { intros _. change (lblk s1 start = dblk (bs_disk s1) start). cview. crest. apply clean. }
  exists s3. split; [done|].
  pose proof (load_head_spec h (Z.to_nat (hd_n h)) (set_n (hd_n h) (bs_log s1))) as Hld.
  rewrite (cs_log _ _ _ _ _ _ _ C1) in Hld. rewrite Z2Nat.id in Hld by lia.
  specialize (Hld Hlen ltac:(lia)). cbv zeta in Hld.
  destruct Hld as (G1 & G2 & G3 & G4 & G5 & G6 & G7 & G8).
  split; [apply C3|].
  split; [intros b; cview; change (ref s2 b) with (ref s1 b); change (ref s2 start) with (ref s1 start);
          cview; rewrite !Hr0; by case_decide|].
  split; [intros b; cview; change (lkd s2 b) with (lkd s1 b); cview; repeat case_decide; done|].
  split; [intros b; cview; change (lblk s2 b) with (lblk s1 b); change (lblk s2 start) with (lblk s1 start);
          cview; repeat case_decide; subst; done|].
  crest. unfold s2. simpl. crest. rewrite G1, G2, G3, G4, G5, G6, G7. simpl.
  repeat split; try done.
  intros j b Hj. destruct (hd_list_lookup j b Hj) as [-> Hj']. apply G8. lia.
Qed.

Lemma rec_install_fst k : (rec_install start d k).*1 = take k L.
Proof.
  unfold rec_install. fold h. fold L. apply list_eq. intros i.
  rewrite list_lookup_fmap, list_lookup_imap. by destruct (take k L !! i).
Qed.

Lemma rec_install_S (k : nat) b :
  L !! k = Some b ->
  rec_install start d (S k) = rec_install start d k ++ [(b, dblk d (start + 1 + Z.of_nat k))].
Proof.
  intros Hb. unfold rec_install. fold h. fold L. rewrite (take_S_r L _ b) by done.
  rewrite imap_app. simpl. do 4 f_equal. rewrite length_take.
  apply lookup_lt_Some in Hb. lia.
Qed.

(** A state of the recovery loop after [k] blocks. *)
Definition rec_mid (s1 : bstate) (k : nat) (s' : bstate) : Prop :=
  mid s1 s' (rec_install start d k) (fun _ => 0) (wview (lblk s) (rec_install start d k)).

Lemma rec_step s1 (k : nat) s2 b :
  L !! k = Some b ->
  l_start (bs_log s1) = start -> l_dev (bs_log s1) = ROOTDEV ->
  u32 (lhblock (bs_log s1) (Z.of_nat k)) = b ->
  rec_mid s1 k s2 ->
  wp (install_trans_one true (Z.of_nat k)) (fun _ s3 => rec_mid s1 (S k) s3) s2.
Proof.
  intros Hb Hst Hdv Hlh M. pose proof (md_log _ _ _ _ _ M) as El.
  assert (b ∈ L) as Hin by (by eapply list_elem_of_lookup_2).
  pose proof (hd_list_lookup k b Hb) as [_ Hk]. pose proof (ho_n _ _ _ Hho).
  destruct (ho_range _ _ _ Hho b Hin) as [_ Hout]. unfold in_log in Hout.
  destruct (install_trans_one_spec true s2 (Z.of_nat k) (start + Z.of_nat k + 1) b) as (s3 & E & St);
    rewrite ?El, ?(md_ref _ _ _ _ _ M), ?(md_lkd _ _ _ _ _ M); try done; try apply M.
  - by rewrite Hst.
  - lia.
  - apply all_free; apply M.
  - unfold wp. rewrite E. unfold rec_mid. rewrite (rec_install_S k b) by done.
    rewrite (md_lblk _ _ _ _ _ M) in St. rewrite wview_out in St.
    2: { rewrite rec_install_fst. intros Hin'. apply subseteq_take in Hin'.
         destruct (ho_range _ _ _ Hho _ Hin') as [_ Ho]. unfold in_log in Ho. lia. }
    rewrite clean in St. replace (start + Z.of_nat k + 1) with (start + 1 + Z.of_nat k) in St by lia.
    eapply mid_stored; [exact M|exact St| |]; intros b'; [by case_decide|].
    by rewrite wview_app.
Qed.

(** What recovery leaves behind. *)
Record recovered (s' : bstate) : Prop := {
  rv_inv : bio_inv s';
  rv_emits : emits s s' (rec_writes start d);
  rv_ref : forall b, ref s' b = 0;
  rv_lkd : forall b, lkd s' b = false;
  rv_geom : l_start (bs_log s') = start /\ l_size (bs_log s') = size /\ l_dev (bs_log s') = ROOTDEV;
  rv_n : l_n (bs_log s') = 0;
  rv_idle : l_outstanding (bs_log s') = l_outstanding (bs_log s) /\
            l_committing (bs_log s') = l_committing (bs_log s);
  rv_len : length (l_block (bs_log s')) = Z.to_nat LOGSIZE
}.

Lemma rec_loop s1 :
  bio_inv s1 -> (forall b, ref s1 b = 0) -> (forall b, lkd s1 b = false) ->
  (forall b, lblk s1 b = lblk s b) ->
  l_start (bs_log s1) = start -> l_dev (bs_log s1) = ROOTDEV -> l_n (bs_log s1) = hd_n h ->
  (forall i b, L !! i = Some b -> l_block (bs_log s1) !! i = Some b) ->
  exists s2, install_trans true s1 = Ok tt s2 /\ rec_mid s1 (length L) s2.
Proof.
  intros Hi1 Hr1 Hl1 Hb1 Hst Hdv Hn Hblk.
  assert (wp (sfor (seqZ 0 (hd_n h)) (install_trans_one true))
             (fun _ s' => rec_mid s1 (length (seqZ 0 (hd_n h))) s') s1) as H.
  { apply (wp_sfor _ _ (fun pre s' => rec_mid s1 (length pre) s')).
    - split; try done. apply emits_nil.
    - intros pre i post s2 Hsp M. apply seqZ_split in Hsp as [-> Hi].
      unfold zlen in *. rewrite length_app, Nat.add_1_r.
      destruct (lookup_lt_is_Some_2 L (length pre)) as [b Hb].
      { pose proof length_hd_list. unfold zlen in *. lia. }
      apply (rec_step s1 (length pre) s2 b); try done.
      unfold lhblock. rewrite Nat2Z.id, nth_lookup, (Hblk _ _ Hb). simpl.
      apply u32_small. destruct (ho_range _ _ _ Hho b) as [? _]; [by eapply list_elem_of_lookup_2|lia]. }
  unfold install_trans. erewrite sbind_Ok by reflexivity. rewrite Hn.
  unfold wp in H. destruct (sfor _ _ s1) as [[] s'| | |]; try done. exists s'. split; [done|].
  rewrite length_seqZ in H. pose proof length_hd_list as Hl. unfold zlen in Hl.
  by replace (length L) with (Z.to_nat (hd_n h)) by lia.
Qed.

Lemma recover_run : exists s', recover_from_log s = Ok tt s' /\ recovered s'.
Proof.
  destruct read_head_spec as (s1 & E1 & Hi1 & Hr1 & Hl1 & Hb1 & Hd1 & Ht1 & Hp1 & Hst & Hsz & Hdv & Hn & Ho & Hc & Hln & Hblk).
  unfold recover_from_log. rewrite (sbind_Ok _ _ _ _ _ E1).
  destruct (rec_loop s1) as (s2 & E2 & M2); try done.
  rewrite (sbind_Ok _ _ _ _ _ E2). erewrite sbind_Ok by reflexivity.
  destruct M2 as [Mi Mr Ml Mb [Md Mt] Mp Mg].
  set (s3 := set_log (set_n 0) s2).
  destruct (write_head_spec s3 start) as (s4 & E4 & St); unfold s3; simpl; rewrite ?Mg; simpl; try done; try lia.
  - by apply bio_inv_set_log.
  - apply Ml.
  - apply Mr.
  - apply (all_free (set_log (set_n 0) s2)); [by apply bio_inv_set_log|apply Mr].
  - exists s4. split; [done|]. fold s3 in St. simpl in St. rewrite put_head_0 in St.
    change (lblk s3 start) with (lblk s2 start) in St. rewrite Mb, wview_out, clean in St.
    2: { rewrite rec_install_fst. intros Hin'. apply subseteq_take in Hin'.
         destruct (ho_range _ _ _ Hho _ Hin') as [_ Hout]. unfold in_log in Hout. lia. }
    pose proof (sd_log _ _ _ _ _ St) as El. unfold s3 in El. simpl in El. rewrite Mg in El.
    split; rewrite ?El; simpl; try done.
    + apply St.
    + destruct (stored_emits _ _ _ _ _ St) as [Sd Stt]. unfold rec_writes. split.
      * rewrite Sd. unfold s3. simpl. rewrite Md, Hd1. by rewrite apply_writes_app.
      * rewrite Stt. unfold s3. simpl. rewrite Mt, Ht1. by rewrite <- app_assoc.
    + intros b. rewrite (sd_ref _ _ _ _ _ St). case_decide; [done|apply Mr].
    + intros b. rewrite (sd_lkd _ _ _ _ _ St). apply Ml.
Qed.
End Recover.

(** ** Booting from a disk *)

Lemma initlog_run d pid start size :
  good_disk d -> 0 <= start /\ 1 <= size <= LOGSIZE /\ start + size < 2 ^ 31 ->
  head_ok start size (dblk d start) ->
  exists s', initlog ROOTDEV start size (boot d pid) = Ok tt s' /\
    recovered (set_log (set_geometry start size ROOTDEV) (boot d pid)) start size s'.
Proof.
  intros Hd Hg Hh. unfold initlog. simpl. erewrite sbind_Ok by reflexivity.
  apply recover_run; try done. apply bio_inv_set_log. by apply boot_inv.
Qed.

(** The disk after recovery from [d]. *)
Definition rec_disk (start : Z) (d : gmap Z bytes) : gmap Z bytes :=
  apply_writes d (rec_writes start d).

Lemma initlog_disk d pid start size :
  good_disk d -> 0 <= start /\ 1 <= size <= LOGSIZE /\ start + size < 2 ^ 31 ->
  head_ok start size (dblk d start) ->
  exists s', initlog ROOTDEV start size (boot d pid) = Ok tt s' /\ bs_disk s' = rec_disk start d.
Proof.
  intros Hd Hg Hh. destruct (initlog_run d pid start size Hd Hg Hh) as (s' & E & R).
  exists s'. split; [done|]. apply (rv_emits _ _ _ _ R).
Qed.

Lemma s32_small x : 0 <= x < 2 ^ 31 -> s32 x = x.
Proof.
  intros H. unfold s32, sint. rewrite Z.mod_small by lia.
  change (2 ^ (32 - 1)) with (2 ^ 31). by destruct (Z.ltb_spec x (2 ^ 31)); [|lia].
Qed.

Lemma hd_list_zero h : hd_n h = 0 -> hd_list h = [].
Proof. unfold hd_list. by intros ->. Qed.

Lemma head_ok_zero start size h : 1 <= size -> hd_n h = 0 -> head_ok start size h.
Proof.
  intros Hs Hn. split; rewrite ?(hd_list_zero h Hn); [lia|constructor|set_solver].
Qed.

(** Recovery from a clear header changes no home block. *)
Lemma rec_disk_zero start d b :
  hd_n (dblk d start) = 0 -> b <> start -> dblk (rec_disk start d) b = dblk d b.
Proof.
  intros Hn Hb. unfold rec_disk, rec_writes, rec_install. rewrite (hd_list_zero _ Hn). simpl.
  by rewrite dblk_insert, decide_False.
Qed.

(** Recovery from a committed header installs every logged block. *)
Lemma rec_disk_in start size d (i : nat) b :
  head_ok start size (dblk d start) -> 1 <= size ->
  hd_list (dblk d start) !! i = Some b ->
  dblk (rec_disk start d) b = dblk d (start + 1 + Z.of_nat i).
Proof.
  intros Hh Hs Hi. unfold rec_disk, rec_writes. rewrite apply_writes_app. simpl.
  assert (b ∈ hd_list (dblk d start)) as Hin by (by eapply list_elem_of_lookup_2).
  destruct (ho_range _ _ _ Hh b Hin) as [_ Ho]. unfold in_log in Ho.
  rewrite dblk_insert, decide_False by lia.
  apply apply_writes_in.
  - unfold rec_install. rewrite firstn_all.
    replace (_.*1) with (hd_list (dblk d start)); [apply Hh|].
    apply list_eq. intros j. rewrite list_lookup_fmap, list_lookup_imap. by destruct (_ !! j).
  - unfold rec_install. rewrite firstn_all. apply list_elem_of_lookup. exists i.
    by rewrite list_lookup_imap, Hi.
Qed.

Lemma rec_disk_out start d b :
  b ∉ hd_list (dblk d start) -> b <> start -> dblk (rec_disk start d) b = dblk d b.
Proof.
  intros Hb Hne. unfold rec_disk. apply apply_writes_out.
  unfold rec_writes. rewrite fmap_app, elem_of_app. simpl. intros [Hin|Hin]; [|set_solver].
  apply Hb. apply list_elem_of_fmap in Hin as ([b' x] & -> & Hin). simpl.
  unfold rec_install in Hin. rewrite firstn_all in Hin.
  apply elem_of_lookup_imap in Hin as (i & y & [= -> ->] & Hy). by eapply list_elem_of_lookup_2.
Qed.

(** ** Crashing during a commit *)

Section CrashCommit.
  Context (s : bstate) (L : list Z) (Hok : log_ok s L) (Hnl : forall b, lkd s b = false).

Let start := l_start (bs_log s).
Let size := l_size (bs_log s).

  Context (Hclear : hd_n (dblk (bs_disk s) start) = 0).

(** The disk after the first [k] writes of the commit. *)
Definition crash_disk (k : nat) : gmap Z bytes := apply_writes (bs_disk s) (take k (commit_writes s L)).

Lemma head1_read : hd_n (head1 s L) = zlen L /\ hd_list (head1 s L) = L.
Proof.
  pose proof (log_fits s L Hok) as Hfit.
  destruct (put_head_read (zlen L) (lhblock (bs_log s)) (lblk s start)) as [H0 Hi];
    [unfold zlen in *; lia|by apply length_lblk, Hok|].
  assert (hd_n (head1 s L) = zlen L) as Hn.
  { unfold hd_n, head1. fold start. rewrite H0, u32_small, s32_small; unfold zlen in *; lia. }
  split; [done|]. unfold hd_list. rewrite Hn. apply list_eq. intros i.
  rewrite list_lookup_fmap. destruct (L !! i) as [b|] eqn:Hb.
  - pose proof (lookup_lt_Some _ _ _ Hb). rewrite lookup_seqZ_lt by (unfold zlen; lia). simpl. f_equal.
    destruct (lo_range s L Hok b) as [Hr _]; [by eapply list_elem_of_lookup_2|].
    unfold hd_block, head1. fold start. rewrite Hi by (unfold zlen; lia).
    rewrite Z.add_0_l, (log_ok_lhblock s L i b Hok Hb). by apply s32_small.
  - apply lookup_ge_None in Hb. by rewrite lookup_seqZ_ge by (unfold zlen; lia).
Qed.

Lemma length_head1 : length (head1 s L) = Z.to_nat BSIZE.
Proof.
  pose proof (log_fits s L Hok). apply length_put_head; [unfold zlen in *; lia|by apply length_lblk, Hok].
Qed.

Lemma head0_read : hd_n (head0 s L) = 0 /\ length (head0 s L) = Z.to_nat BSIZE.
Proof.
  pose proof length_head1. unfold head0. rewrite put_head_0. split.
  - unfold hd_n. rewrite ld32_st32_eq by (unfold zlen; lia). done.
  - rewrite length_st32; unfold zlen; lia.
Qed.

Lemma log_writes_fst k b : b ∈ (log_writes s L k).*1 -> start < b <= start + zlen L.
Proof.
  intros Hb. apply list_elem_of_fmap in Hb as ([b' x] & -> & Hin). simpl.
  unfold log_writes in Hin. apply elem_of_lookup_imap in Hin as (i & y & [= -> ->] & Hy).
  apply lookup_take_Some in Hy as [Hy _]. apply lookup_lt_Some in Hy. fold start. unfold zlen. lia.
Qed.

Lemma home_writes_fst k : (home_writes s L k).*1 = take k L.
Proof. unfold home_writes. rewrite <- list_fmap_compose. apply list_fmap_id. Qed.

Lemma good_crash_disk k : good_disk (crash_disk k).
Proof.
  unfold crash_disk. pose proof (lo_inv s L Hok) as Hinv.
  assert (Forall (fun w => length w.2 = Z.to_nat BSIZE) (take k (commit_writes s L))) as HW.
  { apply Forall_take. unfold commit_writes. rewrite !Forall_app. repeat split.
    - apply Forall_forall. intros [b x] Hin. unfold log_writes in Hin.
      apply elem_of_lookup_imap in Hin as (i & y & [= -> ->] & _). by apply length_lblk.
    - apply Forall_singleton, length_head1.
    - apply Forall_forall. intros [b x] Hin. unfold home_writes in Hin.
      apply list_elem_of_fmap in Hin as (y & [= -> ->] & _). by apply length_lblk.
    - apply Forall_singleton, head0_read. }
  assert (forall W d, good_disk d -> Forall (fun w => length w.2 = Z.to_nat BSIZE) W ->
            good_disk (apply_writes d W)) as Hgen.
  { induction W as [|[b x] W IH]; intros d Hd HF; [done|]. apply Forall_cons in HF as [Hx HF].
    apply IH; [|done]. intros b'. simpl. rewrite dblk_insert. case_decide; [done|apply Hd]. }
  apply Hgen; [|done]. intros b. apply (bi_disk s Hinv).
Qed.

(** A home block: not part of the on-disk log. *)
Definition home (b : Z) : Prop := ~ in_log start size b.

Lemma old_content b : b ∉ L -> lblk s b = dblk (bs_disk s) b.
Proof.
  intros Hb. apply ref0_clean; [apply Hok|]. by rewrite (ref_logged s L Hok Hnl), decide_False.
Qed.

(** Before the header write: the transaction is not there. *)
Lemma crash_before (k : nat) :
  (k <= length L)%nat ->
  hd_n (dblk (crash_disk k) start) = 0 /\
  forall b, home b -> dblk (crash_disk k) b = dblk (bs_disk s) b.
Proof.
  intros Hk. pose proof (lo_geom s L Hok) as Hg. pose proof (log_fits s L Hok) as Hfit.
  assert (take k (commit_writes s L) = take k (log_writes s L (length L))) as E.
  { unfold commit_writes. rewrite take_app_le; [done|].
    unfold log_writes. rewrite length_imap, firstn_all. done. }
  assert (forall b, ~ (start < b < start + size) -> dblk (crash_disk k) b = dblk (bs_disk s) b) as H.
  { intros b Hb. unfold crash_disk. rewrite E. apply apply_writes_out.
    intros Hin. rewrite fmap_take in Hin. apply subseteq_take, log_writes_fst in Hin.
    fold start in Hin. unfold size in *. lia. }
  split; [rewrite H; [done|lia]|]. intros b Hb. apply H. unfold home, in_log in Hb. lia.
Qed.

(** From the header write to its erasure: the log holds the transaction. *)
Lemma crash_during (j : nat) :
  (j <= length L)%nat ->
  let d := crash_disk (length L + S j) in
  dblk d start = head1 s L /\
  (forall (i : nat) b, L !! i = Some b -> dblk d (start + 1 + Z.of_nat i) = lblk s b) /\
  (forall b, home b -> b ∉ L -> dblk d b = dblk (bs_disk s) b).
Proof.
  intros Hj. cbv zeta. pose proof (lo_geom s L Hok) as Hg. pose proof (log_fits s L Hok) as Hfit.
  assert (length (log_writes s L (length L)) = length L) as Hlen.
  { unfold log_writes. by rewrite length_imap, firstn_all. }
  assert (crash_disk (length L + S j) =
    apply_writes (<[start := head1 s L]> (apply_writes (bs_disk s) (log_writes s L (length L))))
                 (take j (home_writes s L (length L)))) as ->.
  { unfold crash_disk, commit_writes. rewrite take_app_ge by lia. rewrite Hlen.
    replace (length L + S j - length L)%nat with (S j) by lia. simpl.
    rewrite take_app_le by (unfold home_writes; rewrite length_map, firstn_all; done).
    rewrite apply_writes_app. done. }
  assert (forall b, b ∉ L -> dblk (apply_writes (<[start := head1 s L]> (apply_writes (bs_disk s) (log_writes s L (length L))))
                 (take j (home_writes s L (length L)))) b
          = if decide (b = start) then head1 s L else dblk (apply_writes (bs_disk s) (log_writes s L (length L))) b) as H.
  { intros b Hb. rewrite apply_writes_out; [by rewrite dblk_insert|].
    rewrite fmap_take, home_writes_fst. intros Hin. apply Hb. by do 2 apply subseteq_take in Hin. }
  assert (forall b, in_log start size b -> b ∉ L) as Hlog.
  { intros b Hb Hin. by destruct (lo_range s L Hok b Hin). }
  split; [|split].
  - rewrite H by (apply Hlog; unfold in_log, size; lia). by rewrite decide_True.
  - intros i b Hi. pose proof (lookup_lt_Some _ _ _ Hi). unfold zlen in *.
    rewrite H by (apply Hlog; unfold in_log, size; lia). rewrite decide_False by lia.
    apply apply_writes_in.
    + unfold log_writes. rewrite firstn_all. apply NoDup_alt. intros x y z Hx Hy.
      rewrite list_lookup_fmap, list_lookup_imap in Hx, Hy.
      destruct (L !! x), (L !! y); simpl in *; simplify_eq. lia.
    + unfold log_writes. rewrite firstn_all. apply list_elem_of_lookup. exists i.
      rewrite list_lookup_imap, Hi. done.
  - intros b Hb Hin. rewrite H by done. unfold home, in_log, size in *. rewrite decide_False by lia.
    apply apply_writes_out. intros Hw. apply log_writes_fst in Hw. fold start in Hw. lia.
Qed.

(** Once the header is erased every home block is in place. *)
Lemma crash_after (k : nat) :
  (2 * length L + 2 <= k)%nat ->
  hd_n (dblk (crash_disk k) start) = 0 /\ forall b, home b -> dblk (crash_disk k) b = lblk s b.
Proof.
  intros Hk. pose proof (lo_geom s L Hok) as Hg.
  destruct (crash_during (length L) ltac:(lia)) as (_ & _ & Hout).
  assert (crash_disk k = <[start := head0 s L]> (crash_disk (length L + S (length L)))) as E.
  { assert (length (commit_writes s L) = length L + S (length L) + 1)%nat as Hlen.
    { unfold commit_writes, log_writes, home_writes.
      rewrite !length_app, length_imap, length_map, firstn_all. simpl. lia. }
    unfold crash_disk. rewrite take_ge by lia.
    assert (commit_writes s L = take (length L + S (length L)) (commit_writes s L) ++ [(start, head0 s L)]) as HC.
    { rewrite <- (take_drop (length L + S (length L)) (commit_writes s L)) at 1. f_equal.
      unfold commit_writes. rewrite !app_assoc. apply drop_app_length'.
      unfold log_writes, home_writes. rewrite !length_app, length_imap, length_map, firstn_all. simpl. lia. }
    rewrite HC at 1. by rewrite apply_writes_app. }
  rewrite E. split.
  - rewrite dblk_insert, decide_True by done. apply head0_read.
  - intros b Hb. unfold home, in_log, size in Hb. rewrite dblk_insert, decide_False by lia.
    destruct (decide (b ∈ L)) as [Hin|Hin]; [|rewrite Hout by done; symmetry; by apply old_content].
    unfold crash_disk, commit_writes.
    rewrite !app_assoc. rewrite take_app_le.
    2: { unfold log_writes, home_writes. rewrite !length_app, length_imap, length_map, firstn_all. simpl. lia. }
    rewrite take_ge.
    2: { unfold log_writes, home_writes. rewrite !length_app, length_imap, length_map, firstn_all. simpl. lia. }
    rewrite apply_writes_app. apply apply_writes_in.
    + rewrite home_writes_fst, firstn_all. apply Hok.
    + unfold home_writes. rewrite firstn_all. apply list_elem_of_fmap. eauto.
Qed.

Lemma crash_recover (k : nat) :
  let d := crash_disk k in
  head_ok start size (dblk d start) /\
  ((k <= length L)%nat -> forall b, home b -> dblk (rec_disk start d) b = dblk (bs_disk s) b) /\
  ((length L < k)%nat -> forall b, home b -> dblk (rec_disk start d) b = lblk s b).
Proof.
  cbv zeta. pose proof (lo_geom s L Hok) as Hg. fold start size in Hg.
  assert (forall b, home b -> b <> start) as Hst by (unfold home, in_log; intros; lia).
  destruct (decide (k <= length L)%nat) as [Hk|Hk];
    [|destruct (decide (2 * length L + 2 <= k)%nat) as [Hk2|Hk2]].
  - destruct (crash_before k Hk) as [Hn Hb]. split; [apply head_ok_zero; [lia|done]|].
    split; [|lia]. intros _ b H. rewrite rec_disk_zero by auto. auto.
  - destruct (crash_after k Hk2) as [Hn Hb]. split; [apply head_ok_zero; [lia|done]|].
    split; [lia|]. intros _ b H. rewrite rec_disk_zero by auto. auto.
  - destruct (crash_during (k - length L - 1)) as (Hh & Hlg & Ho); [lia|].
    replace (length L + S (k - length L - 1))%nat with k in * by lia.
    destruct head1_read as [Hn Hl].
    assert (head_ok start size (head1 s L)) as Hho.
    { split; rewrite ?Hl, ?Hn; [pose proof (lo_fits s L Hok); unfold size, zlen in *; lia|apply Hok|apply Hok]. }
    rewrite Hh. split; [done|]. split; [lia|]. intros _ b Hb.
    destruct (decide (b ∈ L)) as [Hin|Hin].
    + apply list_elem_of_lookup in Hin as [i Hi].
      rewrite (rec_disk_in start size (crash_disk k) i b); rewrite ?Hh, ?Hl; try done; [|lia]. by apply Hlg.
    + rewrite rec_disk_out by (rewrite ?Hh, ?Hl; auto). rewrite Ho by done. symmetry. by apply old_content.
Qed.
End CrashCommit.

(** ** Theorems *)

(** C8. Crash atomicity of [commit]: the commit returns, and whatever prefix
    of its disk writes a crash leaves behind, [initlog] at the next boot
    returns with every home block holding the content from before the
    transaction (crash before the header write) or every home block holding
    the transaction's content (crash after it). *)
Theorem commit_crash_atomic (s : bstate) (L : list Z) :
  log_ok s L -> (forall b, lkd s b = false) -> L <> [] ->
  hd_n (dblk (bs_disk s) (l_start (bs_log s))) = 0 ->
  exists s' W, commit s = Ok tt s' /\ emits s s' W /\
    forall (k : nat) pid, exists sr,
      initlog ROOTDEV (l_start (bs_log s)) (l_size (bs_log s))
              (boot (apply_writes (bs_disk s) (take k W)) pid) = Ok tt sr /\
      ((k <= length L)%nat -> forall b, home s b -> dblk (bs_disk sr) b = dblk (bs_disk s) b) /\
      ((length L < k)%nat -> forall b, home s b -> dblk (bs_disk sr) b = lblk s b).
Proof.
  intros Hok Hnl HL Hc. destruct (commit_run s L Hok Hnl HL) as (s' & E & C).
  exists s', (commit_writes s L). split; [done|]. split; [apply C|].
  intros k pid. destruct (crash_recover s L Hok Hnl Hc k) as (Hh & H1 & H2).
  destruct (initlog_disk (crash_disk s L k) pid _ _ (good_crash_disk s L Hok k) (lo_geom s L Hok) Hh)
    as (sr & Er & Hd).
  exists sr. unfold crash_disk in Er. rewrite Hd. done.
Qed.
