(* ===== verification/Machine.v ===== *)
(** * Kernel programs over the block layer

    fs.c, file.c and the system calls reach the disk only through [bread],
    the data of the buffers they hold, [log_write], [brelse], [begin_op],
    [end_op] and [if_log_full].  [op] is that interface (plus the kernel's
    other memory, of type [K]), and [prog] is a routine written against it.
    A [prog] runs on two machines:

    - [run hC]: the buffer cache, log and disk of Bio.v and Log.v;
    - [run hA]: the logical disk [ldisk], on which blocks simply have
      contents and the log is the list of logged block numbers.

    [refine] relates them for every program: whatever a program does on the
    logical disk, it does on the real stack, with the same result, the same
    panics and the same sleeps.  The theorems about fs.c are proved on the
    logical disk. *)
From S2P Require Import Prelude Bio Log Crash.

Section Prog.
  Context {K : Type}.

(** A buffer pointer is named by the block it caches. *)
Inductive op : Type -> Type :=
| OBread (dev b : Z) : op unit
| OBdata (b : Z) : op bytes
| OBset (b : Z) (d : bytes) : op unit
| OLogWrite (b : Z) : op unit
| OBrelse (b : Z) : op unit
| OBeginOp : op unit
| OEndOp : op unit
| OIfLogFull : op Z
| OGet : op K
| OPut (k : K) : op unit.

Inductive prog (A : Type) : Type :=
| Ret (a : A)
| PanicP (msg : string)
| SleepP (chan : string)
| WrongP (why : string)
| Vis {X : Type} (o : op X) (k : X -> prog A).

Fixpoint pbind_ {A B} (m : prog A) (f : A -> prog B) : prog B :=
  match m with
  | Ret _ a => f a
  | PanicP _ msg => PanicP B msg
  | SleepP _ c => SleepP B c
  | WrongP _ w => WrongP B w
  | Vis _ o k => Vis B o (fun x => pbind_ (k x) f)
  end.

Fixpoint run {S A} (h : forall X, op X -> stM S X) (p : prog A) : stM S A := fun s =>
  match p with
  | Ret _ a => Ok a s
  | PanicP _ msg => Panic msg
  | SleepP _ c => Sleep c s
  | WrongP _ w => Wrong w
  | Vis _ o k =>
      match h _ o s with
      | Ok x s' => run h (k x) s'
      | Panic msg => Panic msg
      | Sleep c s' => Sleep c s'
      | Wrong w => Wrong w
      end
  end.

End Prog.
Arguments op K : clear implicits.
Arguments prog K A : clear implicits.
Arguments Ret {K A} a.
Arguments PanicP {K A} msg.
Arguments SleepP {K A} chan.
Arguments WrongP {K A} why.
Arguments Vis {K A X} o k.

Definition pbind {K A B} (m : prog K A) (f : A -> prog K B) : prog K B := pbind_ m f.

Declare Scope prog_scope.
Delimit Scope prog_scope with prog.
Notation "x <- m ; k" := (pbind m (fun x => k))
  (at level 20, m at level 100, k at level 200, only parsing) : prog_scope.
Notation "' x <- m ; k" := (pbind m (fun x => k))
  (at level 20, x pattern, m at level 100, k at level 200, only parsing) : prog_scope.
Notation "m ;; k" := (pbind m (fun _ => k))
  (at level 100, k at level 200, right associativity) : prog_scope.

(** ** The interface as programs *)
Definition trigger {K X} (o : op K X) : prog K X := Vis o Ret.
Definition panic {K A} (msg : string) : prog K A := PanicP msg.

Module P.
Section Ops.
  Context {K : Type}.
Definition bread (dev b : Z) : prog K Z := pbind (trigger (OBread dev b)) (fun _ => Ret b).
Definition bdata (b : Z) : prog K bytes := trigger (OBdata b).
Definition bset (b : Z) (d : bytes) : prog K unit := trigger (OBset b d).
Definition log_write (b : Z) : prog K unit := trigger (OLogWrite b).
Definition brelse (b : Z) : prog K unit := trigger (OBrelse b).
Definition begin_op : prog K unit := trigger OBeginOp.
Definition end_op : prog K unit := trigger OEndOp.
Definition if_log_full : prog K Z := trigger OIfLogFull.
Definition get : prog K K := trigger OGet.
Definition put (k : K) : prog K unit := trigger (OPut k).
End Ops.
End P.

(** ** The real stack *)

Definition on_snd {K S A} (m : stM S A) : stM (K * S) A := fun '(k, s) =>
  match m s with
  | Ok a s' => Ok a (k, s')
  | Panic msg => Panic msg
  | Sleep c s' => Sleep c (k, s')
  | Wrong w => Wrong w
  end.

(** A routine applied to the buffer that caches [b]. *)
Definition at_buf {A} (b : Z) (m : nat -> stM bstate A) : stM bstate A := fun s =>
  match bidx s b with Some i => m i s | None => Wrong "no buffer" end.

Definition hC {K : Type} (X : Type) (o : op K X) : stM (K * bstate) X :=
  match o in op _ X return stM (K * bstate) X with
  | OBread dev b => on_snd (sbind (Bio.bread dev b) (fun _ => sret tt))
  | OBdata b => on_snd (at_buf b Bio.bdata)
  | OBset b d => on_snd (at_buf b (fun i => Bio.bset i d))
  | OLogWrite b => on_snd (at_buf b Log.log_write)
  | OBrelse b => on_snd (at_buf b Bio.brelse)
  | OBeginOp => on_snd Log.begin_op
  | OEndOp => on_snd Log.end_op
  | OIfLogFull => on_snd (fun s => Ok (Log.if_log_full (bs_log s)) s)
  | OGet => fun s => Ok (fst s) s
  | OPut k => fun s => Ok tt (k, snd s)
  end.

(** ** The logical disk *)

Record ldisk := mkLD {
  ld_blk : gmap Z bytes;      (* block contents *)
  ld_held : list Z;           (* blocks whose buffer this process holds *)
  ld_dirty : list Z;          (* held blocks changed since [bread], not logged *)
  ld_log : list Z;            (* block numbers of the open transaction *)
  ld_out : Z;                 (* log.outstanding *)
  ld_start : Z;
  ld_size : Z
}.

Definition blk (v : ldisk) (b : Z) : bytes := dblk (ld_blk v) b.

(** Referenced blocks: each takes one of the [NBUF] buffers. *)
Definition nref (v : ldisk) : nat :=
  length (ld_held v ++ filter (fun b => b ∉ ld_held v) (ld_log v)).


Definition upd_blk (b : Z) (d : bytes) (v : ldisk) : ldisk :=
  mkLD (<[b := d]> (ld_blk v)) (ld_held v) (b :: ld_dirty v) (ld_log v) (ld_out v) (ld_start v) (ld_size v).
Definition hold (b : Z) (v : ldisk) : ldisk :=
  mkLD (ld_blk v) (b :: ld_held v) (ld_dirty v) (ld_log v) (ld_out v) (ld_start v) (ld_size v).
Definition unhold (b : Z) (v : ldisk) : ldisk :=
  mkLD (ld_blk v) (filter (fun c => c <> b) (ld_held v)) (filter (fun c => c <> b) (ld_dirty v)) (ld_log v)
       (ld_out v) (ld_start v) (ld_size v).
Definition logged (b : Z) (v : ldisk) : ldisk :=
  mkLD (ld_blk v) (ld_held v) (filter (fun c => c <> b) (ld_dirty v))
       (if decide (b ∈ ld_log v) then ld_log v else ld_log v ++ [b])
       (ld_out v) (ld_start v) (ld_size v).
Definition set_out (n : Z) (v : ldisk) : ldisk :=
  mkLD (ld_blk v) (ld_held v) (ld_dirty v) (ld_log v) n (ld_start v) (ld_size v).
Definition clear_log (v : ldisk) : ldisk :=
  mkLD (ld_blk v) (ld_held v) (ld_dirty v) [] (ld_out v) (ld_start v) (ld_size v).

Definition valid_block (v : ldisk) (dev b : Z) : bool :=
  (dev =? ROOTDEV) && (0 <=? b) && (b <? 2 ^ 31) &&
  negb ((ld_start v <=? b) && (b <? ld_start v + ld_size v)).

Definition hA {K : Type} (X : Type) (o : op K X) : stM (K * ldisk) X :=
  match o in op _ X return stM (K * ldisk) X with
  | OBread dev b => fun '(k, v) =>
      if negb (valid_block v dev b) then Wrong "block outside the file system"
      else if decide (b ∈ ld_held v) then Sleep "sleep lock" (k, v)
      else if decide (b ∉ ld_log v /\ (NBUF <= nref v)%nat) then Panic "bget: no buffers"
      else Ok tt (k, hold b v)
  | OBdata b => fun '(k, v) =>
      if decide (b ∈ ld_held v) then Ok (blk v b) (k, v) else Wrong "buffer not held"
  | OBset b d => fun '(k, v) =>
      if decide (b ∈ ld_held v /\ length d = Z.to_nat BSIZE) then Ok tt (k, upd_blk b d v)
      else Wrong "buffer not held"
  | OLogWrite b => fun '(k, v) =>
      if negb (bool_decide (b ∈ ld_held v)) then Wrong "buffer not held"
      else if (LOGSIZE <=? zlen (ld_log v)) || (ld_size v - 1 <=? zlen (ld_log v))
      then Panic "too big a transaction"
      else if ld_out v <? 1 then Panic "log_write outside of trans"
      else Ok tt (k, logged b v)
  | OBrelse b => fun '(k, v) =>
      if negb (bool_decide (b ∈ ld_held v)) then Wrong "buffer not held"
      else if decide (b ∈ ld_dirty v /\ b ∉ ld_log v) then Wrong "update not logged"
      else Ok tt (k, unhold b v)
  | OBeginOp => fun '(k, v) =>
      if LOGSIZE <? zlen (ld_log v) + (ld_out v + 1) * MAXOPBLOCKS then Sleep "log" (k, v)
      else Ok tt (k, set_out (ld_out v + 1) v)
  | OEndOp => fun '(k, v) =>
      if ld_out v - 1 =? 0 then
        if decide (ld_held v = []) then Ok tt (k, clear_log (set_out (ld_out v - 1) v))
        else Wrong "commit while holding a buffer"
      else Ok tt (k, set_out (ld_out v - 1) v)
  | OIfLogFull => fun '(k, v) =>
      Ok (min LOGSIZE (ld_size v - 1) - zlen (ld_log v)) (k, v)
  | OGet => fun s => Ok (fst s) s
  | OPut k => fun s => Ok tt (k, snd s)
  end.

(** ** The refinement relation *)

Record Rel (s : bstate) (v : ldisk) : Prop := {
  re_log : log_ok s (ld_log v);
  re_geom : l_start (bs_log s) = ld_start v /\ l_size (bs_log s) = ld_size v;
  re_idle : l_committing (bs_log s) = false /\ l_outstanding (bs_log s) = ld_out v;
  re_held : forall b, b ∈ ld_held v <-> lkd s b = true;
  re_nodup : NoDup (ld_held v);
  re_range : forall b, b ∈ ld_held v -> 0 <= b < 2 ^ 31;
  re_blk : forall b, ~ in_log (ld_start v) (ld_size v) b -> blk v b = lblk s b;
  re_clean : forall b, b ∉ ld_dirty v -> b ∉ ld_log v -> lblk s b = dblk (bs_disk s) b;
  re_clear : hd_n (dblk (bs_disk s) (ld_start v)) = 0
}.

Definition sim {K A} (oc : outcome (K * bstate) A) (oa : outcome (K * ldisk) A) : Prop :=
  match oa with
  | Ok a (k, v) => exists s, oc = Ok a (k, s) /\ Rel s v
  | Panic msg => oc = Panic msg
  | Sleep c (k, _) => exists s, oc = Sleep c (k, s)
  | Wrong _ => True
  end.

(** ** Lemmas *)

Lemma run_bind {K S A B} (h : forall X, op K X -> stM S X) (m : prog K A) (f : A -> prog K B) s :
  run h (pbind m f) s =
  match run h m s with
  | Ok a s' => run h (f a) s'
  | Panic msg => Panic msg
  | Sleep c s' => Sleep c s'
  | Wrong w => Wrong w
  end.
Proof.
  revert s. induction m as [a|msg|c|w|X o k IH]; intros s; simpl; try done.
  destruct (h X o s); [apply IH|done..].
Qed.

Lemma valid_block_true v dev b :
  valid_block v dev b = true ->
  dev = ROOTDEV /\ 0 <= b < 2 ^ 31 /\ ~ in_log (ld_start v) (ld_size v) b.
Proof.
  unfold valid_block, in_log. intros H.
  apply andb_true_iff in H as [H H4]. apply andb_true_iff in H as [H H3].
  apply andb_true_iff in H as [H1 H2]. apply negb_true_iff in H4. lia.
Qed.

Lemma Rel_inv s v : Rel s v -> bio_inv s.
Proof. intros R. apply (lo_inv _ _ (re_log s v R)). Qed.

Lemma Rel_lkd_false s v b : Rel s v -> b ∉ ld_held v -> lkd s b = false.
Proof. intros R Hb. destruct (lkd s b) eqn:E; [|done]. exfalso. by apply Hb, (re_held s v R). Qed.

Lemma Rel_ref s v b :
  Rel s v -> ref s b = (if decide (b ∈ ld_log v) then 1 else 0) + (if decide (b ∈ ld_held v) then 1 else 0).
Proof.
  intros R. rewrite (lo_ref s _ (re_log s v R)). f_equal.
  destruct (decide (b ∈ ld_held v)) as [H|H].
  - by apply (re_held s v R) in H as ->.
  - by rewrite (Rel_lkd_false s v b R H).
Qed.

Lemma Rel_free s v : Rel s v -> has_free s <-> (nref v < NBUF)%nat.
Proof.
  intros R. apply has_free_count; [by eapply Rel_inv| |].
  - apply NoDup_app. split; [apply (re_nodup s v R)|]. split.
    + intros b Hb. rewrite list_elem_of_filter. naive_solver.
    + apply NoDup_filter, (lo_nodup _ _ (re_log s v R)).
  - intros b. rewrite elem_of_app, list_elem_of_filter, (Rel_ref s v b R).
    destruct (decide (b ∈ ld_log v)), (decide (b ∈ ld_held v)); naive_solver lia.
Qed.

(** The relation after a step of the cache on block [b]. *)
Lemma Rel_cstep s s' v v' b i r l d :
  Rel s v -> cstep s s' b i r l d ->
  ld_log v' = ld_log v -> ld_start v' = ld_start v -> ld_size v' = ld_size v -> ld_out v' = ld_out v ->
  ~ in_log (ld_start v) (ld_size v) b -> (l = true -> 0 <= b < 2 ^ 31) ->
  r = (if decide (b ∈ ld_log v) then 1 else 0) + (if l then 1 else 0) ->
  NoDup (ld_held v') ->
  (forall c, c ∈ ld_held v' <-> if decide (c = b) then l = true else c ∈ ld_held v) ->
  (forall c, ~ in_log (ld_start v) (ld_size v) c -> blk v' c = if decide (c = b) then d else blk v c) ->
  (forall c, c ∉ ld_dirty v' -> c ∉ ld_log v ->
     if decide (c = b) then d = dblk (bs_disk s) b else c ∉ ld_dirty v) ->
  Rel s' v'.
Proof.
  intros R C El Es Ez Eo Hb Hrg Hr Hnd Hh Hblk Hd. destruct R as [Rl [Rg1 Rg2] Ri Rh Rn Rr Rb Rc Rx].
  pose proof (cs_log _ _ _ _ _ _ _ C) as Elog.
  split; rewrite ?El, ?Es, ?Ez, ?Eo, ?Elog; try done.
  - destruct Rl as [I D G N Ln B ND Rg F Rf Lk]. split; rewrite ?Elog; try done; [apply C| |].
    + intros c. rewrite (cs_ref _ _ _ _ _ _ _ C), (cs_lkd _ _ _ _ _ _ _ C). destruct (decide (c = b)) as [E|E]; [rewrite E; exact Hr|apply Rf].
    + intros c Hc. rewrite (cs_lkd _ _ _ _ _ _ _ C). rewrite Rg1, Rg2 in Hc.
      destruct (decide (c = b)) as [E|E]; [subst c; contradiction|apply Lk; by rewrite Rg1, Rg2].
  - intros c. rewrite Hh, (cs_lkd _ _ _ _ _ _ _ C). destruct (decide (c = b)); [done|apply Rh].
  - intros c Hc. apply Hh in Hc. destruct (decide (c = b)) as [->|]; [by apply Hrg|by apply Rr].
  - intros c Hc. rewrite (Hblk c Hc), (cs_lblk _ _ _ _ _ _ _ C). destruct (decide (c = b)); [done|by apply Rb].
  - intros c H1 H2. specialize (Hd c H1 H2). rewrite (cs_lblk _ _ _ _ _ _ _ C), (cs_disk _ _ _ _ _ _ _ C).
    destruct (decide (c = b)); [by subst|by apply Rc].
  - by rewrite (cs_disk _ _ _ _ _ _ _ C).
Qed.

(** Each operation of the interface. *)
Lemma sim_bread {K} (k : K) s v dev b :
  Rel s v -> sim (hC unit (OBread dev b) (k, s)) (hA unit (OBread dev b) (k, v)).
Proof.
  intros R. simpl. destruct (valid_block v dev b) eqn:Hv; [|done]. simpl.
  apply valid_block_true in Hv as (-> & Hb & Hlog). pose proof (Rel_inv s v R) as Hinv.
  case_decide as Hh.
  { destruct (bread_locked s b Hinv) as [s' E]; [by apply (re_held s v R)|].
    unfold sim, sbind. rewrite E. eauto. }
  pose proof (Rel_lkd_false s v b R Hh) as Hl. pose proof (Rel_ref s v b R) as Hr.
  rewrite (decide_False (P := b ∈ ld_held v)) in Hr by done.
  destruct (decide (b ∉ ld_log v /\ (NBUF <= nref v)%nat)) as [Hfull|Hfull].
  { destruct Hfull as [Hn Hf]. rewrite decide_False in Hr by done. unfold sim, sbind.
    rewrite bread_full; [done|done|lia|]. rewrite (Rel_free s v R). lia. }
  destruct (bread_step s b Hinv Hl) as (i & s' & E & C).
  { rewrite Hr. by destruct (decide (b ∈ ld_log v)). }
  { destruct (decide (b ∈ ld_log v)); [left; lia|right]. apply (Rel_free s v R).
    apply Nat.lt_nge. intros ?. by apply Hfull. }
  unfold sim, sbind. rewrite E. exists s'. split; [done|].
  eapply (Rel_cstep s s' v); try done; simpl.
  - rewrite Hr. lia.
  - constructor; [done|apply (re_nodup s v R)].
  - intros c. rewrite elem_of_cons. destruct (decide (c = b)); naive_solver.
  - intros c Hc. change (blk (hold b v) c) with (blk v c). destruct (decide (c = b)); [subst; by rewrite (re_blk s v R)|done].
  - intros c H1 H2. destruct (decide (c = b)); [subst; by apply (re_clean s v R)|done].
Qed.

Lemma Rel_handle s v b :
  Rel s v -> b ∈ ld_held v -> exists i, bidx s b = Some i /\ 0 < ref s b /\ lkd s b = true /\
    ~ in_log (ld_start v) (ld_size v) b.
Proof.
  intros R Hb. pose proof Hb as Hl. apply (re_held s v R) in Hl.
  pose proof (lkd_ref s b (Rel_inv s v R) Hl) as Hr.
  destruct (ref_cached s b Hr) as [i Hi]. exists i. repeat split; try done.
  intros Hin. destruct (re_geom s v R) as [G1 G2].
  rewrite (lo_loglk _ _ (re_log s v R)) in Hl; [done|]. by rewrite G1, G2.
Qed.

Lemma sim_bdata {K} (k : K) s v b :
  Rel s v -> sim (hC bytes (OBdata b) (k, s)) (hA bytes (OBdata b) (k, v)).
Proof.
  intros R. simpl. case_decide as Hh; [|done].
  destruct (Rel_handle s v b R Hh) as (i & Hi & Hr & _ & Hlog).
  unfold sim, at_buf. rewrite Hi. rewrite (bdata_step s b i (Rel_inv s v R) Hi Hr).
  exists s. by rewrite (re_blk s v R).
Qed.

Lemma sim_bset {K} (k : K) s v b d :
  Rel s v -> sim (hC unit (OBset b d) (k, s)) (hA unit (OBset b d) (k, v)).
Proof.
  intros R. simpl. case_decide as Hh; [|done]. destruct Hh as [Hh Hd].
  destruct (Rel_handle s v b R Hh) as (i & Hi & Hr & Hl & Hlog).
  destruct (bset_step s b i d (Rel_inv s v R) Hi Hr Hd) as (s' & E & C).
  unfold sim, at_buf. rewrite Hi, E. exists s'. split; [done|]. rewrite Hl in C.
  eapply (Rel_cstep s s' v); try done; simpl.
  - intros _. by apply (re_range s v R).
  - rewrite (Rel_ref s v b R). by rewrite (decide_True (P := b ∈ ld_held v)).
  - apply (re_nodup s v R).
  - intros c. destruct (decide (c = b)); naive_solver.
  - intros c Hc. unfold blk. simpl. by rewrite dblk_insert.
  - intros c H1 H2. destruct (decide (c = b)); set_solver.
Qed.

Lemma sim_brelse {K} (k : K) s v b :
  Rel s v -> sim (hC unit (OBrelse b) (k, s)) (hA unit (OBrelse b) (k, v)).
Proof.
  intros R. simpl. case_bool_decide as Hh; [|done]. simpl. case_decide as Hd; [done|].
  destruct (Rel_handle s v b R Hh) as (i & Hi & Hr & Hl & Hlog).
  pose proof (Rel_ref s v b R) as Href. rewrite (decide_True (P := b ∈ ld_held v)) in Href by done.
  destruct (brelse_step s b i (Rel_inv s v R) Hi Hl) as (s' & E & C).
  { intros H1. destruct (decide (b ∈ ld_log v)); [lia|]. apply (re_clean s v R); naive_solver. }
  unfold sim, at_buf. rewrite Hi, E. exists s'. split; [done|].
  eapply (Rel_cstep s s' v); try done; simpl.
  - rewrite Href. lia.
  - apply NoDup_filter, (re_nodup s v R).
  - intros c. rewrite list_elem_of_filter. destruct (decide (c = b)); naive_solver.
  - intros c Hc. change (blk (unhold b v) c) with (blk v c). destruct (decide (c = b)); [subst; by rewrite (re_blk s v R)|done].
  - intros c H1 H2. rewrite list_elem_of_filter in H1.
    destruct (decide (c = b)); [subst; apply (re_clean s v R); naive_solver|naive_solver].
Qed.

Lemma absorb_notin L b :
  (forall x, x ∈ L -> 0 <= x < 2 ^ 31) -> b ∉ L -> absorb L b = zlen L.
Proof.
  intros Hr Hb. induction L as [|x L IH]; [done|]. simpl.
  rewrite not_elem_of_cons in Hb. destruct Hb as [Hx Hb].
  rewrite u32_small by (pose proof (Hr x ltac:(set_solver)); lia).
  destruct (Z.eqb_spec x b); [congruence|]. rewrite IH by set_solver. unfold zlen. simpl. lia.
Qed.

Lemma absorb_in L b :
  (forall x, x ∈ L -> 0 <= x < 2 ^ 31) -> b ∈ L ->
  exists k : nat, absorb L b = Z.of_nat k /\ L !! k = Some b /\ (k < length L)%nat.
Proof.
  intros Hr Hb. induction L as [|x L IH]; [set_solver|]. simpl.
  rewrite u32_small by (pose proof (Hr x ltac:(set_solver)); lia).
  destruct (Z.eqb_spec x b) as [->|Hne]; [by exists 0%nat; repeat split; lia|].
  destruct IH as (k & -> & Hk & Hlt); [set_solver|set_solver|]. exists (S k). repeat split; [lia|done|lia].
Qed.

Lemma log_ok_take s L : log_ok s L -> take (Z.to_nat (l_n (bs_log s))) (l_block (bs_log s)) = L.
Proof.
  intros H. rewrite (lo_n s L H). unfold zlen. rewrite Nat2Z.id. apply list_eq. intros i.
  destruct (L !! i) as [b|] eqn:Hb.
  - rewrite lookup_take_lt by (by eapply lookup_lt_Some). by apply (lo_blocks s L H).
  - apply lookup_ge_None in Hb. by rewrite lookup_take_ge.
Qed.

Lemma set_log_id f s : f (bs_log s) = bs_log s -> set_log f s = s.
Proof. destruct s. unfold set_log. simpl. by intros ->. Qed.

Lemma range_small L s : log_ok s L -> forall x, x ∈ L -> 0 <= x < 2 ^ 31.
Proof. intros H x Hx. by destruct (lo_range s L H x Hx). Qed.

(** The state after [log_write] adds block [b], cached in buffer [i]. *)
Definition log_added (s : bstate) (i : nat) (b : Z) : bstate :=
  set_log (set_n (l_n (bs_log s) + 1)) (updbuf i (add_ref 1) (set_log (set_block (l_n (bs_log s)) b) s)).

Lemma Rel_log_added s v b i :
  Rel s v -> b ∈ ld_held v -> b ∉ ld_log v -> bidx s b = Some i -> 0 <= b < 2 ^ 31 ->
  zlen (ld_log v) < ld_size v - 1 -> Rel (log_added s i b) (logged b v).
Proof.
  intros R Hh Hn Hi Hb Hfit.
  destruct (Rel_handle s v b R Hh) as (i' & Hi' & Hr & Hl & Hlog). replace i' with i in * by congruence.
  pose proof (Rel_ref s v b R) as Href.
  rewrite decide_False, decide_True in Href by done.
  pose proof (addref_step s b i 1 (Rel_inv s v R) Hi Hr ltac:(lia) ltac:(lia)) as C.
  destruct R as [Rl [Rg1 Rg2] Ri Rh Rnd Rr Rb Rc Rx]. unfold logged.
  rewrite (decide_False (P := b ∈ ld_log v)) by done.
  destruct Rl as [I D G N Ln B ND Rg F Rf Lk].
  unfold zlen in *.
  split; simpl; try done.
  - split; simpl; try done.
    + apply (bio_inv_set_log _ (updbuf i (add_ref 1) (set_log _ s))).
      apply (bio_inv_set_log (set_block (l_n (bs_log s)) b) (updbuf i (add_ref 1) s)), C.
    + rewrite N. unfold zlen. rewrite length_app. simpl. lia.
    + by rewrite length_insert.
    + intros j c Hj. rewrite N, Nat2Z.id. destruct (decide (j = length (ld_log v))) as [->|Hne].
      * rewrite list_lookup_middle in Hj by done. injection Hj as ->.
        apply list_lookup_insert_eq. lia.
      * rewrite list_lookup_insert_ne by done. apply B.
        pose proof (lookup_lt_Some _ _ _ Hj) as Hlt. rewrite length_app in Hlt. simpl in Hlt.
        rewrite lookup_app_l in Hj by lia. done.
    + apply NoDup_app. split; [done|]. split; [set_solver|apply NoDup_singleton].
    + intros c. rewrite elem_of_app, list_elem_of_singleton. rewrite Rg1, Rg2. intros [Hc| ->]; [|done].
      specialize (Rg c Hc). by rewrite Rg1, Rg2 in Rg.
    + unfold zlen. rewrite length_app. simpl. lia.
    + intros c. change (ref (log_added s i b) c) with (ref (updbuf i (add_ref 1) s) c).
      change (lkd (log_added s i b) c) with (lkd (updbuf i (add_ref 1) s) c).
      cview. destruct (decide (c = b)) as [->|Hc].
      * rewrite Href, Hl. rewrite decide_True by set_solver. lia.
      * rewrite Rf. f_equal. apply decide_ext. set_solver.
    + intros c Hc. change (lkd (updbuf i (add_ref 1) s) c = false). cview.
      destruct (decide (c = b)) as [->|]; [|by apply Lk]. rewrite Rg1, Rg2 in Hc. done.
  - intros c. rewrite Rh. change (lkd (log_added s i b) c) with (lkd (updbuf i (add_ref 1) s) c). cview.
    destruct (decide (c = b)) as [->|]; done.
  - intros c Hc. change (lblk (log_added s i b) c) with (lblk (updbuf i (add_ref 1) s) c). cview.
    unfold blk in *. simpl. rewrite Rb by done. by destruct (decide (c = b)) as [->|].
  - intros c H1 H2. change (lblk (log_added s i b) c) with (lblk (updbuf i (add_ref 1) s) c). cview.
    rewrite elem_of_app, list_elem_of_singleton in H2. rewrite list_elem_of_filter in H1.
    rewrite decide_False by naive_solver. apply Rc; naive_solver.
Qed.

Lemma sim_log_write {K} (k : K) s v b :
  Rel s v -> sim (hC unit (OLogWrite b) (k, s)) (hA unit (OLogWrite b) (k, v)).
Proof.
  intros R. simpl. case_bool_decide as Hh; [|done]. simpl.
  destruct (Rel_handle s v b R Hh) as (i & Hi & Hr & Hl & Hlog).
  destruct (bidx_get s b i (Rel_inv s v R) Hi Hr) as (_ & _ & Hbn & _).
  destruct (re_geom s v R) as [G1 G2]. destruct (re_idle s v R) as [I1 I2].
  pose proof (re_log s v R) as Lo.
  unfold sim, at_buf, Log.log_write. rewrite Hi, (lo_n _ _ Lo), G2, I2.
  destruct (_ || _) eqn:Hfull; [done|]. destruct (ld_out v <? 1); [done|].
  apply orb_false_iff in Hfull as [_ Hfit]. apply Z.leb_gt in Hfit.
  rewrite <- (lo_n _ _ Lo), (log_ok_take _ _ Lo), Hbn.
  pose proof (re_range s v R b Hh) as Hb. pose proof (range_small _ _ Lo) as Hsm.
  rewrite s32_small by done.
  destruct (decide (b ∈ ld_log v)) as [Hin|Hin].
  - destruct (absorb_in _ b Hsm Hin) as (j & -> & Hj & Hlt).
    unfold sbind, modlog, smodify. rewrite (set_log_id (set_block (Z.of_nat j) b)).
    2: { unfold set_block. rewrite Nat2Z.id, list_insert_id; [by destruct (bs_log s)|].
         by apply (lo_blocks _ _ Lo). }
    rewrite (lo_n _ _ Lo). unfold zlen. destruct (Z.eqb_spec (Z.of_nat j) (Z.of_nat (length (ld_log v)))); [lia|].
    exists s. split; [done|]. destruct R as [Rl Rg Ri Rh Rnd Rr Rb Rc Rx]. unfold logged.
    rewrite (decide_True (P := b ∈ ld_log v)) by done. split; simpl; try done.
    intros c H1 H2. apply Rc; [|done]. rewrite list_elem_of_filter in H1. naive_solver.
  - rewrite (absorb_notin _ b Hsm Hin), (lo_n _ _ Lo), Z.eqb_refl.
    exists (log_added s i b). split; [unfold log_added; by rewrite (lo_n _ _ Lo)|].
    by apply Rel_log_added.
Qed.

(** The counters of [struct log] do not matter to [log_ok]. *)
Lemma log_ok_set_log f s L :
  (forall l, l_start (f l) = l_start l /\ l_size (f l) = l_size l /\ l_dev (f l) = l_dev l /\
             l_n (f l) = l_n l /\ l_block (f l) = l_block l) ->
  log_ok s L -> log_ok (set_log f s) L.
Proof.
  intros Hf [I D G N Ln B ND Rg F Rf Lk]. destruct (Hf (bs_log s)) as (E1 & E2 & E3 & E4 & E5).
  split; simpl; rewrite ?E1, ?E2, ?E3, ?E4, ?E5; try done. by apply bio_inv_set_log.
Qed.

Lemma sim_begin_op {K} (k : K) s v :
  Rel s v -> sim (hC unit OBeginOp (k, s)) (hA unit OBeginOp (k, v)).
Proof.
  intros R. destruct (re_idle s v R) as [I1 I2]. simpl. unfold sim, Log.begin_op.
  rewrite I1, I2, (lo_n _ _ (re_log s v R)). destruct (_ <? _); [eauto|].
  eexists. split; [reflexivity|]. destruct R as [Rl Rg Ri Rh Rnd Rr Rb Rc Rx].
  split; simpl; try done. by apply log_ok_set_log.
Qed.

Lemma sim_if_log_full {K} (k : K) s v :
  Rel s v -> sim (hC Z OIfLogFull (k, s)) (hA Z OIfLogFull (k, v)).
Proof.
  intros R. destruct (re_geom s v R) as [G1 G2]. simpl. unfold sim, Log.if_log_full.
  rewrite (lo_n _ _ (re_log s v R)), G2. exists s. split; [|done].
  destruct (Z.eqb_spec (min LOGSIZE (ld_size v - 1) - zlen (ld_log v)) 0) as [->|]; [done|].
  destruct (Z.eqb_spec (min LOGSIZE (ld_size v - 1) - zlen (ld_log v)) 1) as [->|]; done.
Qed.

(** The relation after a commit that [commit_run] performs from [s1]. *)
Lemma Rel_committed s s1 s2 v :
  Rel s v -> ld_held v = [] -> ld_log v <> [] ->
  s1 = set_log (set_committing true) (set_log (set_outstanding 0) s) ->
  log_ok s1 (ld_log v) -> committed s1 (ld_log v) s2 ->
  Rel (set_log (set_committing false) s2) (clear_log (set_out 0 v)).
Proof.
  intros R Hh HL Es1 Lo1 [Ci Ce Cr Cl Cb Cp Cg].
  destruct (re_geom s v R) as [G1 G2].
  assert (forall b, lkd s1 b = false) as Hnl.
  { intros b. subst s1. change (lkd s b = false). apply (Rel_lkd_false s v b R). rewrite Hh. set_solver. }
  assert (hd_n (dblk (bs_disk s1) (l_start (bs_log s1))) = 0) as Hc.
  { subst s1. simpl. rewrite G1. apply (re_clear s v R). }
  destruct (crash_after s1 (ld_log v) Lo1 Hnl (length (commit_writes s1 (ld_log v)) + 2 * length (ld_log v) + 2)%nat ltac:(lia)) as [Hz _].
  unfold crash_disk in Hz. rewrite take_ge in Hz by lia.
  destruct Ce as [Ced _]. rewrite <- Ced in Hz.
  assert (bs_log s1 = set_committing true (set_outstanding 0 (bs_log s))) as El by (by subst s1).
  rewrite El in Cg, Hz, Cb. simpl in Cb, Hz. rewrite G1 in Hz. rewrite G1, G2 in Cb.
  destruct (re_log s v R) as [I D G N Ln B ND Rg F Rf Lk].
  split; simpl; rewrite ?Cg; simpl; try done.
  - split; simpl; rewrite ?Cg; simpl; try done.
    + by apply bio_inv_set_log.
    + constructor.
    + set_solver.
    + unfold zlen. simpl. lia.
    + intros b. change (ref s2 b = 0 + (if lkd s2 b then 1 else 0)). by rewrite Cr, Cl.
    + intros b _. apply Cl.
  - intros b. rewrite Hh. change (lkd (set_log (set_committing false) s2) b) with (lkd s2 b).
    rewrite Cl. split; [set_solver|done].
  - rewrite Hh. constructor.
  - intros b. rewrite Hh. set_solver.
  - intros b Hb. change (blk v b = lblk s2 b). rewrite Cb by done. subst s1. by apply (re_blk s v R).
  - intros b _ _. change (lblk s2 b = dblk (bs_disk s2) b). by apply ref0_clean.
Qed.

Lemma sim_end_op {K} (k : K) s v :
  Rel s v -> sim (hC unit OEndOp (k, s)) (hA unit OEndOp (k, v)).
Proof.
  intros R. destruct (re_idle s v R) as [I1 I2]. simpl. unfold Log.end_op.
  unfold on_snd. erewrite sbind_Ok by reflexivity. erewrite sbind_Ok by reflexivity. rewrite I1, I2.
  destruct (Z.eqb_spec (ld_out v - 1) 0) as [Hz|Hz].
  - destruct (decide (ld_held v = [])) as [Hh|Hh]; [|done]. rewrite Hz.
    erewrite sbind_Ok by reflexivity. unfold sim.
    set (s1 := set_log (set_committing true) (set_log (set_outstanding 0) s)).
    change (set_log (set_committing true) _) with s1.
    assert (log_ok s1 (ld_log v)) as Lo1 by (do 2 (apply log_ok_set_log; [done|]); apply (re_log s v R)).
    destruct (decide (ld_log v = [])) as [HL|HL].
    + assert (commit s1 = Ok tt s1) as E.
      { unfold commit. erewrite sbind_Ok by reflexivity. rewrite (lo_n _ _ Lo1), HL. done. }
      rewrite (sbind_Ok _ _ _ _ _ E). eexists. split; [reflexivity|].
      destruct R as [Rl Rg Ri Rh Rnd Rr Rb Rc Rx].
      split; simpl; try done; [|rewrite HL in Rc; exact Rc].
      rewrite <- HL. do 3 (apply log_ok_set_log; [done|]). done.
    + assert (forall b, lkd s1 b = false) as Hnl.
      { intros b. apply (Rel_lkd_false s v b R). rewrite Hh. set_solver. }
      destruct (commit_run s1 _ Lo1 Hnl HL) as (s2 & E & C).
      rewrite (sbind_Ok _ _ _ _ _ E). eexists. split; [reflexivity|].
      by apply (Rel_committed s s1 s2 v).
  - eexists. split; [reflexivity|]. destruct R as [Rl Rg Ri Rh Rnd Rr Rb Rc Rx].
    split; simpl; try done. by apply log_ok_set_log.
Qed.

Lemma sim_op {K X} (o : op K X) (k : K) s v :
  Rel s v -> sim (hC X o (k, s)) (hA X o (k, v)).
Proof.
  intros R. destruct o; eauto using sim_bread, sim_bdata, sim_bset, sim_log_write, sim_brelse,
    sim_begin_op, sim_end_op, sim_if_log_full.
  - simpl. eauto.
  - simpl. eauto.
Qed.

Lemma refine_run {K A} (p : prog K A) k s v :
  Rel s v -> sim (run hC p (k, s)) (run hA p (k, v)).
Proof.
  revert k s v. induction p as [a|msg|c|w|X o kont IH]; intros k s v R; simpl; eauto.
  pose proof (sim_op o k s v R) as H. unfold sim in H.
  destruct (hA X o (k, v)) as [x [k' v']|msg|c [k' v']|w] eqn:E.
  - destruct H as (s' & -> & R'). by apply IH.
  - by rewrite H.
  - destruct H as (s' & ->). simpl. eauto.
  - done.
Qed.

(** The logical disk of a machine that has just booted from [d]. *)
Definition boot_ld (d : gmap Z bytes) (start size : Z) : ldisk :=
  mkLD (rec_disk start d) [] [] [] 0 start size.

(** initlog on a machine whose cache holds nothing in use. *)
Lemma initlog_Rel s0 start size :
  bio_inv s0 -> (forall b, ref s0 b = 0) -> (forall b, lkd s0 b = false) -> bs_log s0 = log0 ->
  0 <= start /\ 1 <= size <= LOGSIZE /\ start + size < 2 ^ 31 ->
  head_ok start size (dblk (bs_disk s0) start) ->
  exists s, Log.initlog ROOTDEV start size s0 = Ok tt s /\ Rel s (boot_ld (bs_disk s0) start size).
Proof.
  intros I0 R0 L0 El Hg Hh.
  destruct (recover_run (set_log (set_geometry start size ROOTDEV) s0) start size) as (s & E & [Ri [Rd _] Rr Rl Rg Rn Ro Rlen]);
    try done; [by apply bio_inv_set_log|simpl; by rewrite El|].
  exists s. split; [exact E|]. destruct Rg as (G1 & G2 & G3). destruct Ro as [O1 O2]. simpl in O1, O2, Rd. rewrite El in O1, O2. simpl in O1, O2.
  split; simpl; rewrite ?G1, ?G2; try done.
  - split; rewrite ?G1, ?G2; try done; try (by unfold zlen; simpl; lia).
    + constructor.
    + set_solver.
    + intros b. by rewrite Rr, Rl.
  - intros b. rewrite Rl. split; [set_solver|done].
  - constructor.
  - set_solver.
  - intros b _. unfold blk. simpl. unfold rec_disk. rewrite ref0_clean by done. by rewrite Rd.
  - intros b _ _. by apply ref0_clean.
  - rewrite Rd. unfold rec_writes. rewrite apply_writes_app. simpl.
    rewrite dblk_insert, decide_True by done. unfold hd_n.
    rewrite ld32_st32_eq; [done|lia|]. unfold zlen. rewrite (bi_disk s0 I0). lia.
Qed.

Lemma boot_Rel d pid start size :
  good_disk d -> 0 <= start /\ 1 <= size <= LOGSIZE /\ start + size < 2 ^ 31 ->
  head_ok start size (dblk d start) ->
  exists s, Log.initlog ROOTDEV start size (boot d pid) = Ok tt s /\ Rel s (boot_ld d start size).
Proof. intros Hd Hg Hh. by apply (initlog_Rel (boot d pid)); [apply boot_inv|..]. Qed.

(** ** Theorems *)

(** C5. The cache, log and disk refine the logical disk: for every program
    over the block interface, from related states, a run on the logical disk
    that returns, panics or sleeps is a run of the real stack that returns
    the same value in a related state, panics with the same message, or
    sleeps on the same channel. *)
Theorem block_layer_refines {K A} (p : prog K A) (k : K) (s : bstate) (v : ldisk) :
  Rel s v ->
  match run hA p (k, v) with
  | Ok a (k', v') => exists s', run hC p (k, s) = Ok a (k', s') /\ Rel s' v'
  | Panic msg => run hC p (k, s) = Panic msg
  | Sleep c (k', _) => exists s', run hC p (k, s) = Sleep c (k', s')
  | Wrong _ => True
  end.
Proof. apply refine_run. Qed.

(** C22. Booting: on a disk whose log header is usable, [initlog] returns in
    a state that refines the logical disk holding exactly the recovered
    contents, with an empty log. *)
Theorem boot_establishes_refinement d pid start size :
  good_disk d -> 0 <= start /\ 1 <= size <= LOGSIZE /\ start + size < 2 ^ 31 ->
  head_ok start size (dblk d start) ->
  exists s, Log.initlog ROOTDEV start size (boot d pid) = Ok tt s /\
    Rel s (mkLD (rec_disk start d) [] [] [] 0 start size).
Proof. apply boot_Rel. Qed.

(** ** Witnesses *)

(** A transaction that stores a block and reads it back. *)
Definition demo_block : bytes := 7 :: replicate 1023 1.
Definition demo_open : prog unit unit :=
  (P.begin_op;;
   b <- P.bread ROOTDEV 100;
   P.bset b demo_block;;
   P.log_write b;;
   P.brelse b)%prog.
Definition demo : prog unit Z :=
  (demo_open;;
   P.end_op;;
   b <- P.bread ROOTDEV 100;
   d <- P.bdata b;
   P.brelse b;;
   Ret (getb 0 d))%prog.

Lemma good_empty : good_disk ∅.
Proof. intros b. done. Qed.

Lemma head_empty : head_ok 2 45 (dblk ∅ 2).
Proof. by apply head_ok_zero. Qed.

Lemma boot_establishes_refinement_witness :
  exists s, Log.initlog ROOTDEV 2 45 (boot ∅ 1) = Ok tt s /\ Rel s (mkLD (rec_disk 2 ∅) [] [] [] 0 2 45).
Proof. apply (boot_establishes_refinement ∅ 1 2 45 good_empty ltac:(lia) head_empty). Defined.

Lemma block_layer_refines_witness :
  exists s, Rel s (boot_ld ∅ 2 45) /\ exists s', run hC demo (tt, s) = Ok 7 (tt, s').
Proof.
  destruct (boot_Rel ∅ 1 2 45 good_empty ltac:(lia) head_empty) as (s & _ & R).
  exists s. split; [exact R|].
  pose proof (block_layer_refines demo tt s _ R) as H.
  assert (exists v', run hA demo (tt, boot_ld ∅ 2 45) = Ok 7 (tt, v')) as [v' E]
    by (eexists; vm_compute; reflexivity).
  rewrite E in H. destruct H as (s' & E' & _). exists s'. exact E'.
Defined.

Lemma commit_crash_atomic_witness :
  exists s, log_ok s [100] /\ exists s' W, commit s = Ok tt s' /\ emits s s' W.
Proof.
  destruct (boot_Rel ∅ 1 2 45 good_empty ltac:(lia) head_empty) as (s0 & _ & R0).
  pose proof (refine_run demo_open tt s0 _ R0) as H.
  assert (exists v, run hA demo_open (tt, boot_ld ∅ 2 45) = Ok tt (tt, v) /\
                    ld_log v = [100] /\ ld_held v = []) as (v & E & El & Eh)
    by (eexists; split; [vm_compute; reflexivity|done]).
  rewrite E in H. destruct H as (s & _ & R). exists s.
  pose proof (re_log s v R) as Lo. rewrite El in Lo.
  split; [exact Lo|].
  assert (forall b, lkd s b = false) as Hnl.
  { intros b. apply (Rel_lkd_false s v b R). rewrite Eh. set_solver. }
  destruct (commit_crash_atomic s [100] Lo Hnl ltac:(done)) as (s' & W & E' & Em & _).
  - destruct (re_geom s _ R) as [-> _]. apply (re_clear s _ R).
  - exists s', W. split; [exact E'|exact Em].
Defined.
