(* ===== verification/CrashFs.v ===== *)
(** * Crashes while a kernel program runs

    A crash can hit a kernel routine at any disk write of any of its
    transactions.  [crash_at p s d] says that running the program [p] from
    [s] on the machine with buffer cache and log may leave the disk [d]
    behind.  Recovery of such a disk always finds the home blocks as they
    were at the start or as they were at one of the commits of the run. *)
From S2P Require Import Prelude Bio Log Crash Machine.

Inductive crash_at {K A} : prog K A -> K * bstate -> gmap Z bytes -> Prop :=
| crash_here p k s : crash_at p (k, s) (bs_disk s)
| crash_in {X} (o : op K X) kont k s x k' s' W (j : nat) :
    hC X o (k, s) = Ok x (k', s') -> emits s s' W ->
    crash_at (Vis o kont) (k, s) (apply_writes (bs_disk s) (take j W))
| crash_later {X} (o : op K X) kont k s x k' s' d :
    hC X o (k, s) = Ok x (k', s') -> crash_at (kont x) (k', s') d ->
    crash_at (Vis o kont) (k, s) d.

(** The operation ends the last open transaction. *)
Definition is_commit {K X} (o : op K X) (v : ldisk) : bool :=
  match o with OEndOp => ld_out v =? 1 | _ => false end.

(** The logical disks at the commits of a run. *)
Fixpoint commits {K A} (p : prog K A) (k : K) (v : ldisk) : list ldisk :=
  match p with
  | Vis o kont =>
      match hA _ o (k, v) with
      | Ok x (k', v') => (if is_commit o v then [v'] else []) ++ commits (kont x) k' v'
      | _ => []
      end
  | _ => []
  end.

(** A routine that never ends an operation. *)
Definition is_end {K X} (o : op K X) : bool := match o with OEndOp => true | _ => false end.
Fixpoint quiet {K A} (p : prog K A) : Prop :=
  match p with
  | Vis o kont => is_end o = false /\ forall x, quiet (kont x)
  | _ => True
  end.

Definition goes_wrong {S A} (r : outcome S A) : bool := match r with Wrong _ => true | _ => false end.

(** The home blocks of [sr] are those of the logical disk [v]. *)
Definition recovers_to (start size : Z) (sr : bstate) (f : Z -> bytes) : Prop :=
  forall b, ~ in_log start size b -> dblk (bs_disk sr) b = f b.

(** ** Lemmas: only end_op writes to the disk *)

Definition same_disk (s s' : bstate) : Prop := bs_disk s' = bs_disk s /\ bs_trace s' = bs_trace s.

Definition keeps_disk {A} (m : stM bstate A) : Prop := forall s a s', m s = Ok a s' -> same_disk s s'.

Lemma keeps_bind {A B} (m : stM bstate A) (f : A -> stM bstate B) :
  keeps_disk m -> (forall a, keeps_disk (f a)) -> keeps_disk (sbind m f).
Proof.
  intros Hm Hf s b s'. unfold sbind. destruct (m s) as [a s1| | |] eqn:E; try done. intros E'.
  destruct (Hm _ _ _ E) as [D1 T1]. destruct (Hf a _ _ _ E') as [D2 T2]. split; congruence.
Qed.

Lemma keeps_modify f : (forall s, same_disk s (f s)) -> keeps_disk (smodify f).
Proof. intros H s a s' E. unfold smodify in E. injection E as _ <-. apply H. Qed.

Lemma keeps_ret {A} (a : A) : keeps_disk (sret a).
Proof. intros s a' s' E. injection E as _ <-. done. Qed.

Lemma keeps_get : keeps_disk (fun s : bstate => Ok s s).
Proof. intros s a s' E. by injection E as _ <-. Qed.

#[local] Hint Resolve keeps_ret keeps_get : keeps.
Ltac keeps := repeat (first [apply keeps_bind; [|intro] | apply keeps_modify; by intro | solve [eauto with keeps]
  | match goal with |- keeps_disk (if ?b then _ else _) => destruct b end ]).

Lemma keeps_acquire i : keeps_disk (acquiresleep_buf i).
Proof. intros s a s' E. unfold acquiresleep_buf in E. destruct (b_locked _); [done|]. by injection E as _ <-. Qed.
Lemma keeps_holding i : keeps_disk (holdingsleep_buf i).
Proof. intros s a s' E. by injection E as _ <-. Qed.
Lemma keeps_release i : keeps_disk (releasesleep_buf i).
Proof. unfold releasesleep_buf. keeps. Qed.
Lemma keeps_read i : keeps_disk (virtio_disk_rw i false).
Proof. intros s a s' E. by injection E as _ <-. Qed.
#[local] Hint Resolve keeps_acquire keeps_holding keeps_release keeps_read : keeps.

Lemma keeps_bget dev b : keeps_disk (bget dev b).
Proof.
  intros s a s'. unfold bget. destruct (List.find _ _) as [i|].
  - assert (H : keeps_disk (sbind (smodify (updbuf i (add_ref 1))) (fun _ => sbind (acquiresleep_buf i) (fun _ => sret i)))) by keeps.
    apply H.
  - destruct (List.find _ _) as [i|]; [|done].
    assert (H : keeps_disk (sbind (smodify (updbuf i (recycle dev b))) (fun _ => sbind (acquiresleep_buf i) (fun _ => sret i)))) by keeps.
    apply H.
Qed.
#[local] Hint Resolve keeps_bget : keeps.

Lemma keeps_bread dev b : keeps_disk (Bio.bread dev b).
Proof. unfold Bio.bread. keeps. Qed.

Lemma keeps_brelse i : keeps_disk (Bio.brelse i).
Proof. unfold Bio.brelse, spanic. keeps. by intros s1 a1 s2 E. Qed.

Lemma keeps_log_write i : keeps_disk (Log.log_write i).
Proof.
  intros s a s'. unfold Log.log_write. destruct (_ || _); [done|]. destruct (_ <? 1); [done|].
  set (m := sbind _ _). assert (H : keeps_disk m) by (unfold m, modlog, bpin; keeps). apply H.
Qed.

Lemma keeps_begin_op : keeps_disk Log.begin_op.
Proof.
  intros s a s'. unfold Log.begin_op. destruct (l_committing _); [done|]. destruct (_ <? _); [done|].
  intros E. by injection E as _ <-.
Qed.

Lemma keeps_at_buf {A} b (m : nat -> stM bstate A) : (forall i, keeps_disk (m i)) -> keeps_disk (at_buf b m).
Proof. intros H s a s'. unfold at_buf. destruct (bidx s b); [apply H|done]. Qed.

Lemma op_keeps {K X} (o : op K X) (k : K) s x k' s' :
  is_end o = false -> hC X o (k, s) = Ok x (k', s') -> same_disk s s'.
Proof.
  assert (H : forall A (m : stM bstate A) (a : A), keeps_disk m -> on_snd m (k, s) = Ok a (k', s') -> same_disk s s').
  { intros A m a Hm. unfold on_snd. destruct (m s) eqn:E; try done. intros E'. simplify_eq. by apply (Hm _ _ _ E). }
  intros Ho. destruct o; try done; simpl; try (apply H).
  - apply keeps_bind; [apply keeps_bread|]. intros. apply keeps_ret.
  - apply keeps_at_buf. intros i s1 a s2 E. by injection E as _ <-.
  - apply keeps_at_buf. intros i. by apply keeps_modify.
  - apply keeps_at_buf, keeps_log_write.
  - apply keeps_at_buf, keeps_brelse.
  - apply keeps_begin_op.
  - intros E. by simplify_eq.
  - intros E. by simplify_eq.
  - intros E. by simplify_eq.
Qed.

(** ** Lemmas: recovery *)

(** A disk with an empty log recovers to itself. *)
Lemma recover_clean s v d pid :
  Rel s v -> d = bs_disk s ->
  exists sr, initlog ROOTDEV (ld_start v) (ld_size v) (boot d pid) = Ok tt sr /\
    recovers_to (ld_start v) (ld_size v) sr (dblk (bs_disk s)).
Proof.
  intros R ->. pose proof (re_log s v R) as Lo. destruct (re_geom s v R) as [G1 G2].
  pose proof (lo_geom _ _ Lo) as Hg. rewrite G1, G2 in Hg.
  destruct (initlog_disk (bs_disk s) pid (ld_start v) (ld_size v)) as (sr & E & Hd).
  - intros b. apply (bi_disk s (lo_inv _ _ Lo)).
  - done.
  - apply head_ok_zero; [lia|]. apply (re_clear s v R).
  - exists sr. split; [done|]. intros b Hb. rewrite Hd. apply rec_disk_zero; [apply (re_clear s v R)|].
    unfold in_log in Hb. lia.
Qed.

Lemma same_disk_emits s s' W : same_disk s s' -> emits s s' W -> W = [].
Proof.
  intros [_ T] [_ T']. rewrite T in T'. apply (f_equal length) in T'. rewrite length_app in T'.
  apply nil_length_inv. lia.
Qed.

Lemma emits_unique s s' W W' : emits s s' W -> emits s s' W' -> W = W'.
Proof. intros [_ T] [_ T']. rewrite T in T'. by apply app_inv_head in T'. Qed.

(** The state in which end_op calls commit. *)
Definition closing (s : bstate) : bstate := set_log (set_committing true) (set_log (set_outstanding 0) s).

Lemma end_op_commit {K} (k : K) s v :
  Rel s v -> ld_out v = 1 -> ld_held v = [] ->
  log_ok (closing s) (ld_log v) /\ (forall b, lkd (closing s) b = false) /\
  exists s2, hC unit OEndOp (k, s) = Ok tt (k, set_log (set_committing false) s2) /\
    (ld_log v = [] /\ s2 = closing s \/ ld_log v <> [] /\ committed (closing s) (ld_log v) s2).
Proof.
  intros R Ho Hh. destruct (re_idle s v R) as [I1 I2].
  assert (log_ok (closing s) (ld_log v)) as Lo by (do 2 (apply log_ok_set_log; [done|]); apply (re_log s v R)).
  assert (forall b, lkd (closing s) b = false) as Hnl.
  { intros b. apply (Rel_lkd_false s v b R). rewrite Hh. set_solver. }
  split; [done|]. split; [done|]. simpl. unfold on_snd, Log.end_op.
  erewrite sbind_Ok by reflexivity. erewrite sbind_Ok by reflexivity. rewrite I1, I2, Ho. change (1 - 1 =? 0) with true. cbv iota.
  erewrite sbind_Ok by reflexivity. change (set_log (set_committing true) _) with (closing s).
  destruct (decide (ld_log v = [])) as [HL|HL].
  - assert (commit (closing s) = Ok tt (closing s)) as E.
    { unfold commit. erewrite sbind_Ok by reflexivity. rewrite (lo_n _ _ Lo), HL. done. }
    rewrite (sbind_Ok _ _ _ _ _ E). eexists. split; [reflexivity|]. by left.
  - destruct (commit_run (closing s) _ Lo Hnl HL) as (s2 & E & C). rewrite (sbind_Ok _ _ _ _ _ E).
    eexists. split; [reflexivity|]. by right.
Qed.

(** The writes of a committing end_op. *)
Lemma end_op_emits {K} (k : K) s v :
  Rel s v -> ld_out v = 1 -> ld_held v = [] ->
  exists s' W, hC unit OEndOp (k, s) = Ok tt (k, s') /\ emits s s' W.
Proof.
  intros R Ho Hh. destruct (end_op_commit k s v R Ho Hh) as (_ & _ & s2 & E & [[_ ->]|[_ C]]).
  - eexists _, []. split; [exact E|]. split; [done|]. by rewrite app_nil_r.
  - eexists _, _. split; [exact E|]. apply C.
Qed.

(** What an end_op that commits leaves behind at a crash. *)
Lemma end_op_crash {K} (k : K) s v s' W j pid :
  Rel s v -> ld_out v = 1 -> ld_held v = [] ->
  hC unit OEndOp (k, s) = Ok tt (k, s') -> emits s s' W ->
  exists sr, initlog ROOTDEV (ld_start v) (ld_size v) (boot (apply_writes (bs_disk s) (take j W)) pid) = Ok tt sr /\
    (recovers_to (ld_start v) (ld_size v) sr (dblk (bs_disk s)) \/ recovers_to (ld_start v) (ld_size v) sr (blk v)).
Proof.
  intros R Ho Hh E1 HW. destruct (re_geom s v R) as [G1 G2].
  destruct (end_op_commit k s v R Ho Hh) as (Lo & Hnl & s2 & E & HC). rewrite E1 in E. simplify_eq.
  destruct HC as [[_ ->]|[_ C]].
  - assert (W = []) as -> by (by apply (same_disk_emits s (set_log (set_committing false) (closing s)) W)).
    rewrite take_nil. destruct (recover_clean s v (bs_disk s) pid R eq_refl) as (sr & Er & Hr). eauto.
  - assert (W = commit_writes (closing s) (ld_log v)) as -> by (apply (emits_unique s s2); [done|apply C]).
    assert (Hc : hd_n (dblk (bs_disk (closing s)) (l_start (bs_log (closing s)))) = 0) by (simpl; rewrite G1; apply (re_clear s v R)).
    destruct (crash_recover (closing s) (ld_log v) Lo Hnl Hc j) as (Hhd & H1 & H2).
    destruct (initlog_disk (crash_disk (closing s) (ld_log v) j) pid _ _ (good_crash_disk (closing s) _ Lo j)
      (lo_geom (closing s) _ Lo) Hhd) as (sr & Er & Hd).
    simpl in Er. rewrite G1, G2 in Er. unfold crash_disk in Er. simpl in Er. exists sr. split; [exact Er|].
    assert (Hom : forall b, ~ in_log (ld_start v) (ld_size v) b -> home (closing s) b) by (intros b; unfold home; simpl; by rewrite G1, G2).
    destruct (decide (j <= length (ld_log v))%nat) as [Hj|Hj].
    + left. intros b Hb. rewrite Hd. by apply H1, Hom.
    + right. intros b Hb. rewrite Hd. rewrite (re_blk s v R b Hb). apply H2; [lia|by apply Hom].
Qed.

Lemma end_op_keeps {K} (k : K) s v s' :
  Rel s v -> ld_out v <> 1 -> hC unit OEndOp (k, s) = Ok tt (k, s') -> same_disk s s'.
Proof.
  intros R Ho. destruct (re_idle s v R) as [I1 I2]. simpl. unfold on_snd, Log.end_op.
  erewrite sbind_Ok by reflexivity. erewrite sbind_Ok by reflexivity. rewrite I1, I2.
  destruct (Z.eqb_spec (ld_out v - 1) 0); [lia|]. intros E. unfold sret in E. by simplify_eq.
Qed.

(** With nothing held and an empty log, the disk holds the logical contents. *)
Lemma idle_disk s v : Rel s v -> ld_log v = [] -> ld_held v = [] ->
  forall b, ~ in_log (ld_start v) (ld_size v) b -> dblk (bs_disk s) b = blk v b.
Proof.
  intros R Hl Hh b Hb. rewrite (re_blk s v R b Hb). symmetry. apply ref0_clean; [apply (Rel_inv s v R)|].
  pose proof (Rel_ref s v b R) as E. rewrite Hl, Hh in E. rewrite !decide_False in E by apply not_elem_of_nil. lia.
Qed.

Lemma hA_geom {K X} (o : op K X) k v x k' v' :
  hA X o (k, v) = Ok x (k', v') -> ld_start v' = ld_start v /\ ld_size v' = ld_size v.
Proof.
  destruct o; simpl; intros E; repeat case_match; by simplify_eq.
Qed.

Lemma hA_commit {K} k v x (k' : K) v' : hA unit OEndOp (k, v) = Ok x (k', v') -> ld_out v = 1 ->
  x = tt /\ k' = k /\ ld_held v = [] /\ v' = clear_log (set_out 0 v).
Proof.
  simpl. intros E Ho. rewrite Ho in E. simpl in E. destruct (decide (ld_held v = [])); [|done]. by simplify_eq.
Qed.

(** Every crash of a program that keeps to the interface recovers to the
    initial disk or to the disk of one of the run's commits. *)
Lemma crash_recovers {K A} (p : prog K A) k s v d pid :
  crash_at p (k, s) d -> Rel s v -> goes_wrong (run hA p (k, v)) = false ->
  exists sr, initlog ROOTDEV (ld_start v) (ld_size v) (boot d pid) = Ok tt sr /\
    (recovers_to (ld_start v) (ld_size v) sr (dblk (bs_disk s)) \/
     exists v', v' ∈ commits p k v /\ recovers_to (ld_start v) (ld_size v) sr (blk v')).
Proof.
  intros Hc. remember (k, s) as ks eqn:Eks. revert k s v Eks.
  induction Hc as [p k0 s0|X o kont k0 s0 x k' s' W j Ho He|X o kont k0 s0 x k' s' d Ho Hc IH];
    intros k s v Eks R Hw; injection Eks as -> ->.
  { destruct (recover_clean s v (bs_disk s) pid R eq_refl) as (sr & E & H). eauto. }
  - cbn [run commits] in *. pose proof (sim_op o k s v R) as Sim. rewrite Ho in Sim.
    destruct (hA X o (k, v)) as [x1 [k1 v1]| |c [k1 v1]|w] eqn:EA; [|done|by destruct Sim|done].
    destruct (is_end o) eqn:Eo.
    + destruct o; try done. destruct x, x1. destruct Sim as (s1 & Es & R1). simplify_eq. destruct (decide (ld_out v = 1)) as [E1|E1].
      * destruct (hA_commit _ _ _ _ _ EA E1) as (_ & _ & Hh & ->).
        destruct (end_op_crash k s v s1 W j pid R E1 Hh) as (sr & Er & H); [|done|].
        { destruct (hA_commit _ _ _ _ _ EA E1) as (_ & <- & _). exact Ho. }
        exists sr. split; [done|]. destruct H as [H|H]; [by left|right].
        exists (clear_log (set_out 0 v)). split; [|done]. cbn [is_commit]. rewrite E1. apply elem_of_app. left. by apply list_elem_of_singleton.
      * assert (k1 = k) as -> by (simpl in EA; repeat case_match; by simplify_eq).
        assert (W = []) as -> by (exact (same_disk_emits s s1 W (end_op_keeps k s v s1 R E1 Ho) He)).
        rewrite take_nil. destruct (recover_clean s v (bs_disk s) pid R eq_refl) as (sr & E & H). eauto.
    + assert (W = []) as -> by (eapply same_disk_emits; [by eapply op_keeps|done]).
      rewrite take_nil. destruct (recover_clean s v (bs_disk s) pid R eq_refl) as (sr & E & H). eauto.
  - cbn [run commits] in *. pose proof (sim_op o k s v R) as Sim. rewrite Ho in Sim.
    destruct (hA X o (k, v)) as [x1 [k1 v1]| |c [k1 v1]|w] eqn:EA; [|done|by destruct Sim|done].
    destruct Sim as (s1 & Es & R1). simplify_eq. destruct (hA_geom _ _ _ _ _ _ EA) as [G1 G2].
    destruct (IH k1 s1 v1 eq_refl R1 Hw) as (sr & Er & H). rewrite G1, G2 in Er, H. exists sr. split; [done|].
    destruct H as [H|(v' & Hv & H)]; [|right; exists v'; split; [apply elem_of_app; by right|done]].
    assert (Hk : same_disk s s1 \/ is_commit o v = true /\ forall b, ~ in_log (ld_start v) (ld_size v) b -> dblk (bs_disk s1) b = blk v1 b).
    { destruct (is_end o) eqn:Eo; [|left; by eapply op_keeps]. destruct o; try done. destruct x1.
      destruct (decide (ld_out v = 1)) as [E1|E1].
      - right. split; [simpl; by rewrite E1|]. destruct (hA_commit _ _ _ _ _ EA E1) as (_ & _ & Hh & ->). by apply (idle_disk s1 _ R1).
      - left. assert (k1 = k) as -> by (simpl in EA; repeat case_match; by simplify_eq). exact (end_op_keeps k s v s1 R E1 Ho). }
    destruct Hk as [[Hk _]|[Hcm Hk]].
    + left. by rewrite <- Hk.
    + right. exists v1. rewrite Hcm. split; [apply elem_of_app; left; by apply list_elem_of_singleton|].
      intros b Hb. rewrite H by done. by apply Hk.
Qed.

Lemma crash_bind {K A B} (m : prog K A) (f : A -> prog K B) k s a k' s' d :
  run hC m (k, s) = Ok a (k', s') -> crash_at (f a) (k', s') d -> crash_at (pbind m f) (k, s) d.
Proof.
  unfold pbind. revert k s. induction m as [x|msg|c|w|X o kont IH]; intros k s E Hc; simpl in *; try done.
  - by simplify_eq.
  - destruct (hC X o (k, s)) as [x [k1 s1]| |c [k1 s1]|] eqn:Eo; try done. eapply crash_later; [done|]. by apply IH.
Qed.

(** ** Lemmas: one transaction *)

Lemma quiet_bind {K A B} (m : prog K A) (f : A -> prog K B) :
  quiet m -> (forall a, quiet (f a)) -> quiet (pbind m f).
Proof.
  intros Hm Hf. unfold pbind. induction m as [a|msg|c|w|X o kont IH]; simpl in *; auto.
  destruct Hm as [Ho Hk]. split; [done|]. intros x. by apply IH.
Qed.

Lemma quiet_commits {K A} (p : prog K A) k v : quiet p -> commits p k v = [].
Proof.
  revert k v. induction p as [a|msg|c|w|X o kont IH]; intros k v H; simpl in *; try done.
  destruct H as [Ho Hk]. destruct (hA X o (k, v)) as [x [k' v']| | |]; try done. rewrite IH by auto.
  by destruct o.
Qed.

Lemma commits_bind {K A B} (m : prog K A) (f : A -> prog K B) k v :
  commits (pbind m f) k v = commits m k v ++
    match run hA m (k, v) with Ok a (k', v') => commits (f a) k' v' | _ => [] end.
Proof.
  unfold pbind. revert k v. induction m as [a|msg|c|w|X o kont IH]; intros k v; simpl; try done.
  destruct (hA X o (k, v)) as [x [k' v']| |c [k' v']|]; try done. rewrite IH. by rewrite app_assoc.
Qed.

(** A system call's transaction. *)
Definition transaction {K A} (body : prog K A) : prog K A :=
  pbind P.begin_op (fun _ => pbind body (fun a => pbind P.end_op (fun _ => Ret a))).

(** A crash inside a transaction recovers to the disk before it or to the
    disk with all of it. *)
Lemma transaction_crash {K A} (body : prog K A) k s v a k1 v1 d pid :
  quiet body -> Rel s v -> ld_out v = 0 -> ld_log v = [] -> ld_held v = [] ->
  run hA body (k, set_out 1 v) = Ok a (k1, v1) -> ld_out v1 = 1 -> ld_held v1 = [] ->
  crash_at (transaction body) (k, s) d ->
  exists sr, initlog ROOTDEV (ld_start v) (ld_size v) (boot d pid) = Ok tt sr /\
    (recovers_to (ld_start v) (ld_size v) sr (blk v) \/ recovers_to (ld_start v) (ld_size v) sr (blk v1)).
Proof.
  intros Hq R Ho Hl Hh E Ho1 Hh1 Hc.
  assert (Eb : hA unit OBeginOp (k, v) = Ok tt (k, set_out 1 v)) by (simpl; by rewrite Ho, Hl).
  assert (Ee : hA unit OEndOp (k1, v1) = Ok tt (k1, clear_log (set_out 0 v1))).
  { simpl. rewrite Ho1. simpl. by rewrite decide_True. }
  destruct (crash_recovers (transaction body) k s v d pid Hc R) as (sr & Er & H).
  - unfold transaction. rewrite run_bind. cbn [P.begin_op trigger run]. rewrite Eb, run_bind, E, run_bind.
    cbn [P.end_op trigger run]. by rewrite Ee.
  - exists sr. split; [done|]. destruct H as [H|(v' & Hv & H)].
    + left. intros b Hb. rewrite (H b Hb). by apply idle_disk.
    + right. unfold transaction in Hv. rewrite commits_bind in Hv. cbn [P.begin_op trigger run commits] in Hv.
      rewrite Eb in Hv. cbn [is_commit app] in Hv. rewrite commits_bind, quiet_commits, E in Hv by done. cbn [app] in Hv.
      rewrite commits_bind in Hv. cbn [P.end_op trigger run commits] in Hv. rewrite Ee in Hv. cbn [is_commit] in Hv.
      rewrite Ho1 in Hv. simpl in Hv. apply list_elem_of_singleton in Hv as ->. exact H.
Qed.

(** ** Theorems *)

(** C4. Crash safety of every kernel program: let a program written against
    the block interface run on the buffer cache and log, and let the machine
    crash at any disk write of any of its commits (also when the program
    panics or sleeps later).  Then [initlog] at the next boot returns, and
    every block outside the log area has its content from the start of the
    run, or every such block has its content at one commit of the run: no
    transaction is ever recovered in part. *)
Theorem program_crash_safe {K A} (p : prog K A) k s v d pid :
  crash_at p (k, s) d -> Rel s v -> goes_wrong (run hA p (k, v)) = false ->
  exists sr, initlog ROOTDEV (ld_start v) (ld_size v) (boot d pid) = Ok tt sr /\
    (recovers_to (ld_start v) (ld_size v) sr (dblk (bs_disk s)) \/
     exists v', v' ∈ commits p k v /\ recovers_to (ld_start v) (ld_size v) sr (blk v')).
Proof. apply crash_recovers. Qed.

(** ** Witness *)

(** The machine crashes after the first disk write of the demo's commit. *)
Lemma program_crash_safe_witness :
  exists s d, Rel s (boot_ld ∅ 2 45) /\ crash_at demo (tt, s) d /\
    exists sr, initlog ROOTDEV 2 45 (boot d 1) = Ok tt sr.
Proof.
  destruct (boot_Rel ∅ 1 2 45 good_empty ltac:(lia) head_empty) as (s & _ & R).
  pose proof (refine_run demo_open tt s _ R) as H.
  assert (exists v, run hA demo_open (tt, boot_ld ∅ 2 45) = Ok tt (tt, v) /\ ld_out v = 1 /\ ld_held v = []) as (v & E & Eo & Eh)
    by (eexists; split; [vm_compute; reflexivity|done]).
  rewrite E in H. destruct H as (s1 & E1 & R1).
  destruct (end_op_emits tt s1 v R1 Eo Eh) as (s2 & W & E2 & HW).
  assert (Hc : crash_at demo (tt, s) (apply_writes (bs_disk s1) (take 1 W))).
  { apply (crash_bind _ _ _ _ _ _ _ _ E1). eapply crash_in; done. }
  exists s, (apply_writes (bs_disk s1) (take 1 W)). split; [exact R|]. split; [exact Hc|].
  destruct (program_crash_safe demo tt s _ _ 1 Hc R) as (sr & Er & _); [vm_compute; reflexivity|]. exists sr. exact Er.
Defined.
