(* ===== verification/Types.v ===== *)
(** * Kernel data (kernel/fs.h, file.h, proc.h, pipe.c) and the kernel state

    The structures of the file system and of the layers above it, as records
    with the source's fields, and [kst], the kernel memory outside the buffer
    cache and the log.  A pointer into a static table is an index; a null
    pointer is [None] (or 0 for addresses of allocated pages). *)
From S2P Require Import Prelude Bio Log Crash Machine.

Notation NDIRECT := 12 (only parsing).
Notation NINDIRECT := 256 (only parsing).
Notation IPB := 8 (only parsing).
Notation BPB := 8192 (only parsing).
Notation DIRSIZ := 14 (only parsing).
Notation ROOTINO := 1 (only parsing).
Notation NINODE := 50%nat (only parsing).
Notation NFILE := 100%nat (only parsing).
Notation NOFILE := 16%nat (only parsing).
Notation NPROC := 64%nat (only parsing).
Notation NDEV := 10 (only parsing).
Notation MAXPATH := 128 (only parsing).
Notation PGSIZE := 4096 (only parsing).
Notation FSMAGIC := 0x10203040 (only parsing).
Notation PIPESIZE := 512 (only parsing).

Notation T_DIR := 1 (only parsing).
Notation T_FILE := 2 (only parsing).
Notation T_DEVICE := 3 (only parsing).
Notation T_SYMLINK := 4 (only parsing).
Notation T_EXTENT := 5 (only parsing).

(** struct superblock *)
Record superblock := mkSb {
  sb_magic : Z; sb_size : Z; sb_nblocks : Z; sb_ninodes : Z; sb_nlog : Z; sb_logstart : Z;
  sb_inodestart : Z; sb_bmapstart : Z; sb_ibmapstart : Z; sb_freeinodes : Z; sb_freeblocks : Z
}.

(** struct inode; [i_locked]/[i_lpid] are the fields of its sleep-lock. *)
Record inode := mkI {
  i_dev : Z; i_inum : Z; i_ref : Z;
  i_locked : bool; i_lpid : Z;
  i_valid : bool;
  i_type : Z; i_major : Z; i_minor : Z; i_nlink : Z; i_size : Z;
  i_rwmode : Z; i_supermode : Z; i_addrs : list Z; i_showmode : Z
}.

(** struct dinode without its padding. *)
Record dinode := mkDi {
  d_type : Z; d_major : Z; d_minor : Z; d_nlink : Z; d_size : Z;
  d_rwmode : Z; d_supermode : Z; d_addrs : list Z; d_showmode : Z
}.

(** struct dirent *)
Record dirent := mkDe { de_inum : Z; de_name : bytes }.

(** struct file *)
Inductive ftype := FD_NONE | FD_PIPE | FD_INODE | FD_DEVICE.
#[export] Instance ftype_eq_dec : EqDecision ftype.
Proof. solve_decision. Defined.

Record file := mkF {
  f_type : ftype; f_ref : Z; f_readable : bool; f_writable : bool;
  f_pipe : Z; f_ip : nat; f_off : Z; f_major : Z
}.

(** struct pipe *)
Record pipe := mkPipe {
  pi_data : bytes; pi_nread : Z; pi_nwrite : Z; pi_readopen : bool; pi_writeopen : bool
}.

(** enum procstate, struct proc *)
Inductive procstate := UNUSED | USED | SLEEPING | RUNNABLE | RUNNING | ZOMBIE.
#[export] Instance procstate_eq_dec : EqDecision procstate.
Proof. solve_decision. Defined.

Record proc := mkP {
  p_state : procstate; p_chan : Z; p_killed : bool; p_xstate : Z; p_pid : Z;
  p_parent : option nat; p_sz : Z; p_pagetable : Z; p_trapframe : Z;
  p_ofile : list (option nat); p_cwd : option nat; p_name : bytes
}.

(** Physical memory by page address, and the entries of [devsw]: a device
    routine gets the page table, the address and the count. *)
Notation pmem := (gmap Z bytes).
Record devsw := mkDev {
  dv_read : option (pmem -> Z -> Z -> Z -> Z * pmem);
  dv_write : option (pmem -> Z -> Z -> Z -> Z)
}.

Record kst := mkK {
  k_sb : superblock;
  k_itable : list inode;
  k_ftable : list file;
  k_pipes : gmap Z pipe;
  k_mem : pmem;
  k_freelist : Z;
  k_end : Z;
  k_procs : list proc;
  k_cur : nat;
  k_initproc : option nat;
  k_nextpid : Z;
  k_devsw : list devsw
}.

Notation "'M'" := (prog kst) (only parsing).

(** ** Record updates *)

Definition set_sb (f : superblock -> superblock) (k : kst) : kst :=
  mkK (f (k_sb k)) (k_itable k) (k_ftable k) (k_pipes k) (k_mem k) (k_freelist k) (k_end k)
      (k_procs k) (k_cur k) (k_initproc k) (k_nextpid k) (k_devsw k).
Definition set_itable (f : list inode -> list inode) (k : kst) : kst :=
  mkK (k_sb k) (f (k_itable k)) (k_ftable k) (k_pipes k) (k_mem k) (k_freelist k) (k_end k)
      (k_procs k) (k_cur k) (k_initproc k) (k_nextpid k) (k_devsw k).
Definition set_ftable (f : list file -> list file) (k : kst) : kst :=
  mkK (k_sb k) (k_itable k) (f (k_ftable k)) (k_pipes k) (k_mem k) (k_freelist k) (k_end k)
      (k_procs k) (k_cur k) (k_initproc k) (k_nextpid k) (k_devsw k).
Definition set_pipes (f : gmap Z pipe -> gmap Z pipe) (k : kst) : kst :=
  mkK (k_sb k) (k_itable k) (k_ftable k) (f (k_pipes k)) (k_mem k) (k_freelist k) (k_end k)
      (k_procs k) (k_cur k) (k_initproc k) (k_nextpid k) (k_devsw k).
Definition set_mem (f : pmem -> pmem) (k : kst) : kst :=
  mkK (k_sb k) (k_itable k) (k_ftable k) (k_pipes k) (f (k_mem k)) (k_freelist k) (k_end k)
      (k_procs k) (k_cur k) (k_initproc k) (k_nextpid k) (k_devsw k).
Definition set_freelist (x : Z) (k : kst) : kst :=
  mkK (k_sb k) (k_itable k) (k_ftable k) (k_pipes k) (k_mem k) x (k_end k)
      (k_procs k) (k_cur k) (k_initproc k) (k_nextpid k) (k_devsw k).
Definition set_procs (f : list proc -> list proc) (k : kst) : kst :=
  mkK (k_sb k) (k_itable k) (k_ftable k) (k_pipes k) (k_mem k) (k_freelist k) (k_end k)
      (f (k_procs k)) (k_cur k) (k_initproc k) (k_nextpid k) (k_devsw k).

Definition set_freeblocks (x : Z) (s : superblock) : superblock :=
  mkSb (sb_magic s) (sb_size s) (sb_nblocks s) (sb_ninodes s) (sb_nlog s) (sb_logstart s)
       (sb_inodestart s) (sb_bmapstart s) (sb_ibmapstart s) (sb_freeinodes s) x.
Definition set_freeinodes (x : Z) (s : superblock) : superblock :=
  mkSb (sb_magic s) (sb_size s) (sb_nblocks s) (sb_ninodes s) (sb_nlog s) (sb_logstart s)
       (sb_inodestart s) (sb_bmapstart s) (sb_ibmapstart s) x (sb_freeblocks s).

Definition i_set_id (dev inum : Z) (i : inode) : inode :=
  mkI dev inum 1 (i_locked i) (i_lpid i) false (i_type i) (i_major i) (i_minor i) (i_nlink i)
      (i_size i) (i_rwmode i) (i_supermode i) (i_addrs i) (i_showmode i).
Definition i_set_ref (r : Z) (i : inode) : inode :=
  mkI (i_dev i) (i_inum i) r (i_locked i) (i_lpid i) (i_valid i) (i_type i) (i_major i) (i_minor i)
      (i_nlink i) (i_size i) (i_rwmode i) (i_supermode i) (i_addrs i) (i_showmode i).
Definition i_set_lock (l : bool) (p : Z) (i : inode) : inode :=
  mkI (i_dev i) (i_inum i) (i_ref i) l p (i_valid i) (i_type i) (i_major i) (i_minor i)
      (i_nlink i) (i_size i) (i_rwmode i) (i_supermode i) (i_addrs i) (i_showmode i).
Definition i_set_valid (v : bool) (i : inode) : inode :=
  mkI (i_dev i) (i_inum i) (i_ref i) (i_locked i) (i_lpid i) v (i_type i) (i_major i) (i_minor i)
      (i_nlink i) (i_size i) (i_rwmode i) (i_supermode i) (i_addrs i) (i_showmode i).
Definition i_set_nlink (n : Z) (i : inode) : inode :=
  mkI (i_dev i) (i_inum i) (i_ref i) (i_locked i) (i_lpid i) (i_valid i) (i_type i) (i_major i) (i_minor i)
      n (i_size i) (i_rwmode i) (i_supermode i) (i_addrs i) (i_showmode i).
Definition i_set_size (n : Z) (i : inode) : inode :=
  mkI (i_dev i) (i_inum i) (i_ref i) (i_locked i) (i_lpid i) (i_valid i) (i_type i) (i_major i) (i_minor i)
      (i_nlink i) n (i_rwmode i) (i_supermode i) (i_addrs i) (i_showmode i).
Definition i_set_devno (major minor : Z) (i : inode) : inode :=
  mkI (i_dev i) (i_inum i) (i_ref i) (i_locked i) (i_lpid i) (i_valid i) (i_type i) major minor
      (i_nlink i) (i_size i) (i_rwmode i) (i_supermode i) (i_addrs i) (i_showmode i).
Definition i_set_rwmode (n : Z) (i : inode) : inode :=
  mkI (i_dev i) (i_inum i) (i_ref i) (i_locked i) (i_lpid i) (i_valid i) (i_type i) (i_major i) (i_minor i)
      (i_nlink i) (i_size i) n (i_supermode i) (i_addrs i) (i_showmode i).
Definition i_set_supermode (n : Z) (i : inode) : inode :=
  mkI (i_dev i) (i_inum i) (i_ref i) (i_locked i) (i_lpid i) (i_valid i) (i_type i) (i_major i) (i_minor i)
      (i_nlink i) (i_size i) (i_rwmode i) n (i_addrs i) (i_showmode i).
Definition i_set_showmode (n : Z) (i : inode) : inode :=
  mkI (i_dev i) (i_inum i) (i_ref i) (i_locked i) (i_lpid i) (i_valid i) (i_type i) (i_major i) (i_minor i)
      (i_nlink i) (i_size i) (i_rwmode i) (i_supermode i) (i_addrs i) n.
Definition i_set_addr (j a : Z) (i : inode) : inode :=
  mkI (i_dev i) (i_inum i) (i_ref i) (i_locked i) (i_lpid i) (i_valid i) (i_type i) (i_major i) (i_minor i)
      (i_nlink i) (i_size i) (i_rwmode i) (i_supermode i) (<[Z.to_nat j := a]> (i_addrs i)) (i_showmode i).

Definition p_set_ofile (g : list (option nat) -> list (option nat)) (p : proc) : proc :=
  mkP (p_state p) (p_chan p) (p_killed p) (p_xstate p) (p_pid p) (p_parent p) (p_sz p) (p_pagetable p)
      (p_trapframe p) (g (p_ofile p)) (p_cwd p) (p_name p).
Definition p_set_cwd (c : option nat) (p : proc) : proc :=
  mkP (p_state p) (p_chan p) (p_killed p) (p_xstate p) (p_pid p) (p_parent p) (p_sz p) (p_pagetable p)
      (p_trapframe p) (p_ofile p) c (p_name p).
Definition p_set_state (s : procstate) (p : proc) : proc :=
  mkP s (p_chan p) (p_killed p) (p_xstate p) (p_pid p) (p_parent p) (p_sz p) (p_pagetable p)
      (p_trapframe p) (p_ofile p) (p_cwd p) (p_name p).

Definition f_set_ref (r : Z) (f : file) : file :=
  mkF (f_type f) r (f_readable f) (f_writable f) (f_pipe f) (f_ip f) (f_off f) (f_major f).
Definition f_set_type (t : ftype) (f : file) : file :=
  mkF t (f_ref f) (f_readable f) (f_writable f) (f_pipe f) (f_ip f) (f_off f) (f_major f).
Definition f_set_off (o : Z) (f : file) : file :=
  mkF (f_type f) (f_ref f) (f_readable f) (f_writable f) (f_pipe f) (f_ip f) o (f_major f).
Definition f_set_major (m : Z) (f : file) : file :=
  mkF (f_type f) (f_ref f) (f_readable f) (f_writable f) (f_pipe f) (f_ip f) (f_off f) m.
Definition f_set_ip (ip : nat) (r w : bool) (f : file) : file :=
  mkF (f_type f) (f_ref f) r w (f_pipe f) ip (f_off f) (f_major f).
Definition f_set_pipe (pi : Z) (r w : bool) (f : file) : file :=
  mkF FD_PIPE (f_ref f) r w pi (f_ip f) (f_off f) (f_major f).

(** ** Access to the kernel state *)
Local Open Scope prog_scope.

Definition modk (f : kst -> kst) : M unit := k <- P.get; P.put (f k).

Definition inode0 : inode := mkI 0 0 0 false 0 false 0 0 0 0 0 0 0 (replicate 15 0) 0.
Definition file0 : file := mkF FD_NONE 0 false false 0 0 0 0.
Definition proc0 : proc := mkP UNUSED 0 false 0 0 None 0 0 0 (replicate NOFILE None) None (zeros 16).

(** [ip->...] for the inode at index [ip] of the table. *)
Definition geti (ip : nat) : M inode := k <- P.get; Ret (nth ip (k_itable k) inode0).
Definition modi (ip : nat) (f : inode -> inode) : M unit := modk (set_itable (alter f ip)).

Definition getf (f : nat) : M file := k <- P.get; Ret (nth f (k_ftable k) file0).
Definition modf (f : nat) (g : file -> file) : M unit := modk (set_ftable (alter g f)).

Definition myproc : M proc := k <- P.get; Ret (nth (k_cur k) (k_procs k) proc0).
Definition modproc (g : proc -> proc) : M unit := k <- P.get; modk (set_procs (alter g (k_cur k))).

Definition getsb : M superblock := k <- P.get; Ret (k_sb k).

(** A counted loop over a list of indices. *)
Fixpoint pfor {K I} (l : list I) (f : I -> prog K unit) : prog K unit :=
  match l with
  | [] => Ret tt
  | i :: l => f i;; pfor l f
  end.

(** Printing to the console is not part of the state. *)
Definition printf (msg : string) : M unit := Ret tt.
