(* ===== verification/Vm.v ===== *)
(** * Physical pages and user page tables (kernel/kalloc.c, vm.c)

    Physical memory is a map from page addresses to 4096-byte pages; a page
    that was never written reads as zeros.  The free list is threaded through
    the first eight bytes of the free pages, page tables are the three-level
    Sv39 trees in memory. *)
From S2P Require Import Prelude Str Bio Log Crash Machine Types.
Local Open Scope st_scope.

Notation PHYSTOP := 0x88000000 (only parsing).
Notation MAXVA := (2 ^ 38) (only parsing).
Notation TRAMPOLINE := (2 ^ 38 - 4096) (only parsing).
Notation TRAPFRAME := (2 ^ 38 - 8192) (only parsing).
Notation PTE_V := 1 (only parsing).
Notation PTE_R := 2 (only parsing).
Notation PTE_W := 4 (only parsing).
Notation PTE_X := 8 (only parsing).
Notation PTE_U := 16 (only parsing).

Definition page (m : pmem) (a : Z) : bytes := default (zeros PGSIZE) (m !! a).

(** Loads and stores that stay inside one page. *)
Definition pg_of (a : Z) : Z := a - a mod PGSIZE.
Definition pm_read (m : pmem) (a n : Z) : bytes := sub (a mod PGSIZE) n (page m (pg_of a)).
Definition pm_write (a : Z) (d : bytes) (m : pmem) : pmem :=
  <[pg_of a := splice (a mod PGSIZE) d (page m (pg_of a))]> m.

Definition ldm64 (a : Z) : stM kst Z := fun k => Ok (le_dec (pm_read (k_mem k) a 8)) k.
Definition stm64 (a x : Z) : stM kst unit := smodify (set_mem (pm_write a (le_enc 8 x))).
(** memset of a whole page. *)
Definition fill_page (a c : Z) : stM kst unit := smodify (set_mem (insert a (replicate (Z.to_nat PGSIZE) c))).

(** ** kalloc.c *)

Definition kfree (pa : Z) : stM kst unit :=
  k <- sget;
  if negb (pa mod PGSIZE =? 0) || (pa <? k_end k) || (PHYSTOP <=? pa) then spanic "kfree"
  else
    fill_page pa 1;;
    k <- sget;
    stm64 pa (k_freelist k);;
    smodify (set_freelist pa).

Definition kalloc : stM kst Z :=
  k <- sget;
  let r := k_freelist k in
  if r =? 0 then sret 0
  else
    next <- ldm64 r;
    smodify (set_freelist next);;
    fill_page r 5;;
    sret r.

Definition PGROUNDUP (sz : Z) : Z := let x := u64 (sz + PGSIZE - 1) in x - x mod PGSIZE.
Definition PGROUNDDOWN (a : Z) : Z := a - a mod PGSIZE.

Fixpoint freerange_loop (n : nat) (p pa_end : Z) : stM kst unit :=
  match n with
  | O => sret tt
  | S n => if p + PGSIZE <=? pa_end then kfree p;; freerange_loop n (p + PGSIZE) pa_end else sret tt
  end.
Definition freerange (pa_start pa_end : Z) : stM kst unit :=
  freerange_loop (Z.to_nat ((pa_end - pa_start) / PGSIZE + 1)) (PGROUNDUP pa_start) pa_end.

Definition kinit : stM kst unit := k <- sget; freerange (k_end k) PHYSTOP.

Fixpoint freemem_loop (fuel : nat) (r num : Z) : stM kst Z :=
  match fuel with
  | O => fun _ => Wrong "free list is not a list of pages"
  | S fuel => if r =? 0 then sret num else next <- ldm64 r; freemem_loop fuel next (num + 1)
  end.
Definition freemem_size : stM kst Z :=
  k <- sget;
  num <- freemem_loop (S (Z.to_nat ((PHYSTOP - 0x80000000) / PGSIZE))) (k_freelist k) 0;
  sret (s32 (num * PGSIZE)).

(** ** vm.c *)

Definition PX (level va : Z) : Z := Z.land (Z.shiftr va (12 + 9 * level)) 0x1FF.
Definition PA2PTE (pa : Z) : Z := Z.shiftl (Z.shiftr pa 12) 10.
Definition PTE2PA (pte : Z) : Z := Z.shiftl (Z.shiftr pte 10) 12.
Definition PTE_FLAGS (pte : Z) : Z := Z.land pte 0x3FF.

(** The loop of walk over [levels], then the address of the last entry;
    0 is the null pointer. *)
Fixpoint walk_loop (levels : list Z) (pagetable va : Z) (alloc : bool) : stM kst Z :=
  match levels with
  | [] => sret (pagetable + 8 * PX 0 va)
  | level :: levels =>
      let pte := pagetable + 8 * PX level va in
      e <- ldm64 pte;
      if negb (Z.land e PTE_V =? 0) then walk_loop levels (PTE2PA e) va alloc
      else if negb alloc then sret 0
      else
        p <- kalloc;
        if p =? 0 then sret 0
        else
          fill_page p 0;;
          stm64 pte (Z.lor (PA2PTE p) PTE_V);;
          walk_loop levels p va alloc
  end.

Definition walk (pagetable va : Z) (alloc : bool) : stM kst Z :=
  if MAXVA <=? va then spanic "walk" else walk_loop [2; 1] pagetable va alloc.

Definition walkaddr (pagetable va : Z) : stM kst Z :=
  if MAXVA <=? va then sret 0
  else
    pte <- walk pagetable va false;
    if pte =? 0 then sret 0
    else
      e <- ldm64 pte;
      if Z.land e PTE_V =? 0 then sret 0
      else if Z.land e PTE_U =? 0 then sret 0
      else sret (PTE2PA e).

(** One iteration per page from [a] to [last]. *)
Fixpoint mappages_loop (n : nat) (pagetable a pa perm : Z) : stM kst Z :=
  match n with
  | O => sret 0
  | S n =>
      pte <- walk pagetable a true;
      if pte =? 0 then sret (-1)
      else
        e <- ldm64 pte;
        if negb (Z.land e PTE_V =? 0) then spanic "mappages: remap"
        else
          stm64 pte (Z.lor (Z.lor (PA2PTE pa) perm) PTE_V);;
          mappages_loop n pagetable (a + PGSIZE) (pa + PGSIZE) perm
  end.
Definition mappages (pagetable va size pa perm : Z) : stM kst Z :=
  if size =? 0 then spanic "mappages: size"
  else
    let a := PGROUNDDOWN va in
    let last := PGROUNDDOWN (va + size - 1) in
    mappages_loop (Z.to_nat ((last - a) / PGSIZE + 1)) pagetable a pa perm.

Fixpoint uvmunmap_loop (n : nat) (pagetable a : Z) (do_free : bool) : stM kst unit :=
  match n with
  | O => sret tt
  | S n =>
      pte <- walk pagetable a false;
      if pte =? 0 then spanic "uvmunmap: walk"
      else
        e <- ldm64 pte;
        if Z.land e PTE_V =? 0 then spanic "uvmunmap: not mapped"
        else if PTE_FLAGS e =? PTE_V then spanic "uvmunmap: not a leaf"
        else
          (if do_free then kfree (PTE2PA e) else sret tt);;
          stm64 pte 0;;
          uvmunmap_loop n pagetable (a + PGSIZE) do_free
  end.
Definition uvmunmap (pagetable va npages : Z) (do_free : bool) : stM kst unit :=
  if negb (va mod PGSIZE =? 0) then spanic "uvmunmap: not aligned"
  else uvmunmap_loop (Z.to_nat npages) pagetable va do_free.

Definition uvmcreate : stM kst Z :=
  p <- kalloc;
  if p =? 0 then sret 0 else fill_page p 0;; sret p.

Definition uvminit (pagetable : Z) (src : bytes) : stM kst unit :=
  if PGSIZE <=? zlen src then spanic "inituvm: more than a page"
  else
    mem <- kalloc;
    fill_page mem 0;;
    mappages pagetable 0 PGSIZE mem (Z.lor (Z.lor (Z.lor PTE_W PTE_R) PTE_X) PTE_U);;
    smodify (set_mem (pm_write mem src)).

Definition uvmdealloc (pagetable oldsz newsz : Z) : stM kst Z :=
  if oldsz <=? newsz then sret oldsz
  else
    (if PGROUNDUP newsz <? PGROUNDUP oldsz
     then uvmunmap pagetable (PGROUNDUP newsz) (s32 ((PGROUNDUP oldsz - PGROUNDUP newsz) / PGSIZE)) true
     else sret tt);;
    sret newsz.

(** The loop of uvmalloc: one iteration per page; [start] is the rounded old
    size. *)
Fixpoint uvmalloc_loop (n : nat) (pagetable a start newsz : Z) : stM kst Z :=
  match n with
  | O => sret newsz
  | S n =>
      if negb (a <? newsz) then sret newsz
      else
        mem <- kalloc;
        if mem =? 0 then uvmdealloc pagetable a start;; sret 0
        else
          fill_page mem 0;;
          r <- mappages pagetable a PGSIZE mem (Z.lor (Z.lor (Z.lor PTE_W PTE_X) PTE_R) PTE_U);
          if negb (r =? 0) then
            kfree mem;;
            uvmdealloc pagetable a start;;
            sret 0
          else uvmalloc_loop n pagetable (a + PGSIZE) start newsz
  end.
Definition uvmalloc (pagetable oldsz newsz : Z) : stM kst Z :=
  if newsz <? oldsz then sret oldsz
  else
    let start := PGROUNDUP oldsz in
    uvmalloc_loop (Z.to_nat ((newsz - start) / PGSIZE + 1)) pagetable start start newsz.

(** Page-table trees have three levels; [depth] bounds the recursion. *)
Fixpoint freewalk (depth : nat) (pagetable : Z) : stM kst unit :=
  match depth with
  | O => fun _ => Wrong "page table too deep"
  | S depth =>
      sfor (seqZ 0 512) (fun i =>
        pte <- ldm64 (pagetable + 8 * i);
        if negb (Z.land pte PTE_V =? 0) && (Z.land pte (Z.lor (Z.lor PTE_R PTE_W) PTE_X) =? 0) then
          freewalk depth (PTE2PA pte);;
          stm64 (pagetable + 8 * i) 0
        else if negb (Z.land pte PTE_V =? 0) then spanic "freewalk: leaf"
        else sret tt);;
      kfree pagetable
  end.

Definition uvmfree (pagetable sz : Z) : stM kst unit :=
  (if 0 <? sz then uvmunmap pagetable 0 (PGROUNDUP sz / PGSIZE) true else sret tt);;
  freewalk 3 pagetable.

Fixpoint uvmcopy_loop (n : nat) (old new i sz : Z) : stM kst Z :=
  match n with
  | O => sret 0
  | S n =>
      if negb (i <? sz) then sret 0
      else
        pte <- walk old i false;
        if pte =? 0 then spanic "uvmcopy: pte should exist"
        else
          e <- ldm64 pte;
          if Z.land e PTE_V =? 0 then spanic "uvmcopy: page not present"
          else
            mem <- kalloc;
            if mem =? 0 then uvmunmap new 0 (i / PGSIZE) true;; sret (-1)
            else
              smodify (fun k => set_mem (insert mem (page (k_mem k) (PTE2PA e))) k);;
              r <- mappages new i PGSIZE mem (PTE_FLAGS e);
              if negb (r =? 0) then
                kfree mem;;
                uvmunmap new 0 (i / PGSIZE) true;;
                sret (-1)
              else uvmcopy_loop n old new (i + PGSIZE) sz
  end.
Definition uvmcopy (old new sz : Z) : stM kst Z :=
  uvmcopy_loop (Z.to_nat (sz / PGSIZE + 1)) old new 0 sz.

Definition uvmclear (pagetable va : Z) : stM kst unit :=
  pte <- walk pagetable va false;
  if pte =? 0 then spanic "uvmclear"
  else
    e <- ldm64 pte;
    stm64 pte (Z.land e (Z.lnot PTE_U)).

(** Copies between the kernel and user addresses go page by page; a failing
    copyin returns the bytes copied before the fault. *)
Fixpoint copyout_loop (fuel : nat) (pagetable dstva : Z) (src : bytes) : stM kst Z :=
  match fuel with
  | O => fun _ => Wrong "copyout: fuel"
  | S fuel =>
      if zlen src =? 0 then sret 0
      else
        let va0 := PGROUNDDOWN dstva in
        pa0 <- walkaddr pagetable va0;
        if pa0 =? 0 then sret (-1)
        else
          let n := Z.min (PGSIZE - (dstva - va0)) (zlen src) in
          smodify (set_mem (pm_write (pa0 + (dstva - va0)) (take (Z.to_nat n) src)));;
          copyout_loop fuel pagetable (va0 + PGSIZE) (drop (Z.to_nat n) src)
  end.
Definition copyout (pagetable dstva : Z) (src : bytes) : stM kst Z :=
  copyout_loop (Z.to_nat (zlen src / PGSIZE + 3)) pagetable dstva src.

Fixpoint copyin_loop (fuel : nat) (pagetable srcva len : Z) (acc : bytes) : stM kst (Z * bytes) :=
  match fuel with
  | O => fun _ => Wrong "copyin: fuel"
  | S fuel =>
      if len <=? 0 then sret (0, acc)
      else
        let va0 := PGROUNDDOWN srcva in
        pa0 <- walkaddr pagetable va0;
        if pa0 =? 0 then sret (-1, acc)
        else
          let n := Z.min (PGSIZE - (srcva - va0)) len in
          k <- sget;
          copyin_loop fuel pagetable (va0 + PGSIZE) (len - n)
            (acc ++ pm_read (k_mem k) (pa0 + (srcva - va0)) n)
  end.
Definition copyin (pagetable srcva len : Z) : stM kst (Z * bytes) :=
  copyin_loop (Z.to_nat (len / PGSIZE + 3)) pagetable srcva len [].

(** The bytes of a page part up to and including a NUL, and whether there is
    one. *)
Fixpoint until_nul (l : bytes) : bool * bytes :=
  match l with
  | [] => (false, [])
  | c :: l => if c =? 0 then (true, [0]) else let '(g, r) := until_nul l in (g, c :: r)
  end.

Fixpoint copyinstr_loop (fuel : nat) (pagetable srcva max : Z) (acc : bytes) : stM kst (Z * bytes) :=
  match fuel with
  | O => fun _ => Wrong "copyinstr: fuel"
  | S fuel =>
      if max <=? 0 then sret (-1, acc)
      else
        let va0 := PGROUNDDOWN srcva in
        pa0 <- walkaddr pagetable va0;
        if pa0 =? 0 then sret (-1, acc)
        else
          let n := Z.min (PGSIZE - (srcva - va0)) max in
          k <- sget;
          let '(got_null, r) := until_nul (pm_read (k_mem k) (pa0 + (srcva - va0)) n) in
          if got_null : bool then sret (0, acc ++ r)
          else copyinstr_loop fuel pagetable (va0 + PGSIZE) (max - n) (acc ++ r)
  end.
Definition copyinstr (pagetable srcva max : Z) : stM kst (Z * bytes) :=
  copyinstr_loop (Z.to_nat (max / PGSIZE + 3)) pagetable srcva max [].

(** ** Kernel routines that do not touch the disk, inside kernel programs *)
Definition liftK {A} (m : stM kst A) : M A :=
  pbind P.get (fun k =>
    match m k with
    | Ok a k' => pbind (P.put k') (fun _ => Ret a)
    | Panic msg => PanicP msg
    | Sleep c k' => pbind (P.put k') (fun _ => SleepP c)
    | Wrong w => WrongP w
    end).
