(* ===== verification/Codec.v ===== *)
(** * On-disk records (kernel/fs.h)

    The byte layout of the superblock, of the eight 128-byte inodes of an
    inode block and of the 16-byte directory entries, with the round trips
    the in-memory copies rely on. *)
From S2P Require Import Prelude Bio Log Crash Machine Types.

(** An array of [uint]s. *)
Definition enc32s (l : list Z) : bytes := flat_map (le_enc 4) l.
Definition dec32s (off n : Z) (d : bytes) : list Z := map (fun j => ld32 (off + 4 * j) d) (seqZ 0 n).

(** ** struct superblock *)
Definition enc_sb (s : superblock) : bytes :=
  enc32s [sb_magic s; sb_size s; sb_nblocks s; sb_ninodes s; sb_nlog s; sb_logstart s;
          sb_inodestart s; sb_bmapstart s; sb_ibmapstart s; sb_freeinodes s; sb_freeblocks s].
Definition dec_sb (d : bytes) : superblock :=
  mkSb (ld32 0 d) (ld32 4 d) (ld32 8 d) (ld32 12 d) (ld32 16 d) (ld32 20 d)
       (ld32 24 d) (ld32 28 d) (ld32 32 d) (ld32 36 d) (ld32 40 d).

(** ** struct dinode

    [off] is the byte offset [128 * (inum % IPB)] of the inode in its block. *)
Definition dioff (inum : Z) : Z := 128 * (inum mod IPB).

Definition get_dinode (off : Z) (d : bytes) : dinode :=
  mkDi (s16 (ld16 off d)) (s16 (ld16 (off + 2) d)) (s16 (ld16 (off + 4) d)) (s16 (ld16 (off + 6) d))
       (ld32 (off + 8) d) (ld32 (off + 12) d) (ld32 (off + 16) d)
       (dec32s (off + 20) 15 d) (ld32 (off + 80) d).

(** The stores of iupdate, in its order; the padding is not written. *)
Definition put_dinode (off : Z) (di : dinode) (d : bytes) : bytes :=
  let d := st16 off (d_type di) d in
  let d := st16 (off + 2) (d_major di) d in
  let d := st16 (off + 4) (d_minor di) d in
  let d := st16 (off + 6) (d_nlink di) d in
  let d := st32 (off + 8) (d_size di) d in
  let d := st32 (off + 12) (d_rwmode di) d in
  let d := st32 (off + 16) (d_supermode di) d in
  let d := st32 (off + 80) (d_showmode di) d in
  splice (off + 20) (enc32s (d_addrs di)) d.

(** ** struct dirent *)
Definition enc_dirent (de : dirent) : bytes := le_enc 2 (de_inum de) ++ de_name de.
Definition dec_dirent (l : bytes) : dirent := mkDe (ld16 0 l) (sub 2 DIRSIZ l).

(** Values that fit their C fields. *)
Definition is_s16 (x : Z) : Prop := - 2 ^ 15 <= x < 2 ^ 15.
Definition is_u32 (x : Z) : Prop := 0 <= x < 2 ^ 32.

Record sb_fits (s : superblock) : Prop := {
  sf_magic : is_u32 (sb_magic s); sf_size : is_u32 (sb_size s); sf_nblocks : is_u32 (sb_nblocks s);
  sf_ninodes : is_u32 (sb_ninodes s); sf_nlog : is_u32 (sb_nlog s); sf_logstart : is_u32 (sb_logstart s);
  sf_inodestart : is_u32 (sb_inodestart s); sf_bmapstart : is_u32 (sb_bmapstart s);
  sf_ibmapstart : is_u32 (sb_ibmapstart s); sf_freeinodes : is_u32 (sb_freeinodes s);
  sf_freeblocks : is_u32 (sb_freeblocks s)
}.

Record di_fits (di : dinode) : Prop := {
  df_type : is_s16 (d_type di); df_major : is_s16 (d_major di);
  df_minor : is_s16 (d_minor di); df_nlink : is_s16 (d_nlink di);
  df_size : is_u32 (d_size di); df_rwmode : is_u32 (d_rwmode di);
  df_supermode : is_u32 (d_supermode di); df_showmode : is_u32 (d_showmode di);
  df_addrs : Forall is_u32 (d_addrs di); df_naddrs : length (d_addrs di) = 15%nat
}.

(** ** Lemmas *)

Lemma sint_u16 x : is_s16 x -> s16 (x mod 2 ^ 16) = x.
Proof.
  unfold is_s16, s16, sint. intros H. rewrite Z.mod_mod by lia. change (16 - 1) with 15.
  destruct (Z_lt_le_dec x 0).
  - rewrite <- (Z.mod_add x 1) by lia. rewrite Z.mod_small by lia.
    destruct (Z.ltb_spec (x + 1 * 2 ^ 16) (2 ^ 15)); lia.
  - rewrite Z.mod_small by lia. destruct (Z.ltb_spec x (2 ^ 15)); lia.
Qed.

Lemma u32_id x : is_u32 x -> u32 x = x.
Proof. intros. unfold u32. by apply Z.mod_small. Qed.

Lemma length_enc32s l : length (enc32s l) = (4 * length l)%nat.
Proof. induction l as [|x l IH]; [done|]. cbn [enc32s flat_map]. rewrite length_app, length_le_enc. fold (enc32s l). rewrite IH. simpl. lia. Qed.

Lemma zlen_enc32s l : zlen (enc32s l) = 4 * zlen l.
Proof. unfold zlen. rewrite length_enc32s. lia. Qed.

Lemma sub_sub o n o' n' (l : bytes) :
  0 <= o -> 0 <= o' -> 0 <= n' -> o' + n' <= n -> sub o' n' (sub o n l) = sub (o + o') n' l.
Proof.
  intros. unfold sub. rewrite skipn_firstn_comm, take_take, drop_drop. f_equal; [lia|f_equal; lia].
Qed.

Lemma ld32_enc32s l j x :
  l !! Z.to_nat j = Some x -> 0 <= j -> ld32 (4 * j) (enc32s l) = u32 x.
Proof.
  intros Hl Hj. apply list_elem_of_split_length in Hl as (l1 & l2 & -> & Hlen).
  unfold ld32, enc32s. rewrite flat_map_app. unfold sub. fold (enc32s l1).
  rewrite drop_app_length' by (rewrite length_enc32s; lia).
  cbn [flat_map]. rewrite take_app_length' by (by rewrite length_le_enc). by rewrite le_dec_enc.
Qed.

(** Reading an array of [uint]s just stored. *)
Lemma ld32_splice_enc32s off l j x (d : bytes) :
  0 <= off -> off + 4 * zlen l <= zlen d -> l !! Z.to_nat j = Some x -> 0 <= j ->
  ld32 (off + 4 * j) (splice off (enc32s l) d) = u32 x.
Proof.
  intros Ho Hd Hl Hj. assert (Z.to_nat j < length l)%nat by (by eapply lookup_lt_Some).
  rewrite <- (ld32_enc32s l j x Hl Hj). unfold ld32. f_equal.
  rewrite <- (sub_splice_eq off (enc32s l) d) at 2 by (rewrite ?zlen_enc32s; lia).
  rewrite sub_sub; [done|lia..| ]. rewrite zlen_enc32s. unfold zlen. lia.
Qed.

Lemma dec32s_splice_eq off l (d : bytes) :
  0 <= off -> off + 4 * zlen l <= zlen d -> Forall is_u32 l ->
  dec32s off (zlen l) (splice off (enc32s l) d) = l.
Proof.
  intros Ho Hd Hu. apply list_eq. intros i. unfold dec32s. rewrite list_lookup_fmap.
  destruct (l !! i) as [x|] eqn:E.
  - assert (i < length l)%nat by (by eapply lookup_lt_Some).
    rewrite lookup_seqZ_lt by (unfold zlen; lia). simpl. f_equal.
    rewrite (ld32_splice_enc32s off l _ x); try done; try lia.
    + apply u32_id. rewrite Forall_lookup in Hu. by eapply Hu.
    + by replace (Z.to_nat (0 + Z.of_nat i)) with i by lia.
  - apply lookup_ge_None in E. rewrite lookup_seqZ_ge by (unfold zlen; lia). done.
Qed.

Lemma dec32s_splice_eq' off n l (d : bytes) :
  zlen l = n -> 0 <= off -> off + 4 * n <= zlen d -> Forall is_u32 l ->
  dec32s off n (splice off (enc32s l) d) = l.
Proof. intros <-. apply dec32s_splice_eq. Qed.

Lemma dec32s_ext off n (d d' : bytes) :
  (forall j, 0 <= j < n -> ld32 (off + 4 * j) d = ld32 (off + 4 * j) d') -> dec32s off n d = dec32s off n d'.
Proof.
  intros H. unfold dec32s. apply map_ext_in. intros j Hj. apply H.
  apply list_elem_of_In, elem_of_seqZ in Hj. lia.
Qed.

(** Loads of stored words, in one lemma per overlap case. *)
Lemma ld_splice_ne n o off (new d : bytes) :
  0 <= off -> off + zlen new <= zlen d -> 0 <= o -> 0 <= n -> o + n <= zlen d ->
  (o + n <= off \/ off + zlen new <= o) ->
  le_dec (sub o n (splice off new d)) = le_dec (sub o n d).
Proof. intros. by rewrite sub_splice_ne. Qed.

Lemma ld16_st16_eq off x (l : bytes) :
  0 <= off -> off + 2 <= zlen l -> ld16 off (st16 off x l) = u16 x.
Proof.
  intros. unfold ld16, st16. change 2 with (zlen (le_enc 2 x)). rewrite sub_splice_eq; [|done|done].
  by rewrite le_dec_enc.
Qed.

Lemma zlen_st16 off x (l : bytes) : 0 <= off -> off + 2 <= zlen l -> zlen (st16 off x l) = zlen l.
Proof. intros. unfold st16. by apply zlen_splice. Qed.
Lemma zlen_st32 off x (l : bytes) : 0 <= off -> off + 4 <= zlen l -> zlen (st32 off x l) = zlen l.
Proof. intros. unfold st32. by apply zlen_splice. Qed.

(** Solve a length side condition of nested stores. *)
Ltac zl :=
  repeat first [ rewrite zlen_enc32s | rewrite zlen_st16 by zl | rewrite zlen_st32 by zl
               | rewrite zlen_splice by zl ];
  first [ lia | unfold zlen in *; rewrite ?length_le_enc in *; lia ].

Lemma sub_st16_ne o n off x (d : bytes) :
  0 <= off -> off + 2 <= zlen d -> 0 <= o -> 0 <= n -> o + n <= zlen d ->
  (o + n <= off \/ off + 2 <= o) -> sub o n (st16 off x d) = sub o n d.
Proof. intros. unfold st16. apply sub_splice_ne; zl. Qed.

Lemma sub_st32_ne o n off x (d : bytes) :
  0 <= off -> off + 4 <= zlen d -> 0 <= o -> 0 <= n -> o + n <= zlen d ->
  (o + n <= off \/ off + 4 <= o) -> sub o n (st32 off x d) = sub o n d.
Proof. intros. unfold st32. apply sub_splice_ne; zl. Qed.

(** The stores of [put_dinode], each with the length of its result. *)
Ltac open_put_dinode d :=
  unfold put_dinode; cbv zeta;
  repeat match goal with
  | |- context[st16 ?o ?x d] => let d' := fresh "d'" in let E := fresh "E" in let L := fresh "L" in
      assert (L : zlen (st16 o x d) = zlen d) by (apply zlen_st16; lia); remember (st16 o x d) as d' eqn:E; open_put_dinode d'
  | |- context[st32 ?o ?x d] => let d' := fresh "d'" in let E := fresh "E" in let L := fresh "L" in
      assert (L : zlen (st32 o x d) = zlen d) by (apply zlen_st32; lia); remember (st32 o x d) as d' eqn:E; open_put_dinode d'
  end.

(** Drop the stores that do not touch the bytes read. *)
Ltac skip_st :=
  repeat match goal with
  | |- context[sub _ _ (splice _ _ _)] => rewrite sub_splice_ne by (rewrite ?zlen_enc32s; lia)
  | E : ?d' = st16 _ _ _ |- context[sub _ _ ?d'] =>
      rewrite E; rewrite sub_st16_ne by lia
  | E : ?d' = st32 _ _ _ |- context[sub _ _ ?d'] =>
      rewrite E; rewrite sub_st32_ne by lia
  end.

Ltac fold_ld :=
  repeat match goal with
  | |- context[le_dec (sub ?o 2 ?l)] => change (le_dec (sub o 2 l)) with (ld16 o l)
  | |- context[le_dec (sub ?o 4 ?l)] => change (le_dec (sub o 4 l)) with (ld32 o l)
  end.

Lemma zlen_put_dinode off di (d : bytes) :
  0 <= off -> off + 128 <= zlen d -> length (d_addrs di) = 15%nat ->
  zlen (put_dinode off di d) = zlen d.
Proof.
  intros. assert (zlen (d_addrs di) = 15) by (unfold zlen; lia).
  open_put_dinode d. rewrite zlen_splice; rewrite ?zlen_enc32s; lia.
Qed.

(** An inode is written only to its own 128 bytes. *)
Lemma sub_put_dinode o n off di (d : bytes) :
  0 <= off -> off + 128 <= zlen d -> length (d_addrs di) = 15%nat -> 0 <= o -> 0 <= n -> o + n <= zlen d ->
  (o + n <= off \/ off + 128 <= o) ->
  sub o n (put_dinode off di d) = sub o n d.
Proof.
  intros. assert (zlen (d_addrs di) = 15) by (unfold zlen; lia).
  open_put_dinode d. skip_st. done.
Qed.

Lemma get_put_dinode off di (d : bytes) :
  0 <= off -> off + 128 <= zlen d -> di_fits di -> get_dinode off (put_dinode off di d) = di.
Proof.
  intros Ho Hd [F1 F2 F3 F4 F5 F6 F7 F8 F9 F10]. assert (Hz : zlen (d_addrs di) = 15) by (unfold zlen; lia).
  open_put_dinode d. unfold get_dinode. rewrite (dec32s_splice_eq' (off + 20)) by (done || lia).
  transitivity (mkDi (d_type di) (d_major di) (d_minor di) (d_nlink di) (d_size di) (d_rwmode di)
    (d_supermode di) (d_addrs di) (d_showmode di)); [|by destruct di].
  f_equal; unfold ld16, ld32; skip_st; fold_ld; subst;
    first [ rewrite ld16_st16_eq by lia; by apply sint_u16 | rewrite ld32_st32_eq by lia; by apply u32_id ].
Qed.

Lemma get_dinode_ext off (d d' : bytes) :
  0 <= off -> off + 128 <= zlen d -> off + 128 <= zlen d' ->
  sub off 128 d = sub off 128 d' -> get_dinode off d = get_dinode off d'.
Proof.
  intros Ho H1 H2 E.
  assert (S : forall o n, off <= o -> 0 <= n -> o + n <= off + 128 -> sub o n d = sub o n d').
  { intros o n ???. replace o with (off + (o - off)) by lia.
    rewrite <- !(sub_sub off 128) by lia. by rewrite E. }
  unfold get_dinode, ld16, ld32. rewrite !S by lia. f_equal.
  apply dec32s_ext. intros j Hj. unfold ld32. by rewrite S by lia.
Qed.

Lemma get_put_dinode_ne off off' di (d : bytes) :
  0 <= off -> off + 128 <= zlen d -> 0 <= off' -> off' + 128 <= zlen d ->
  length (d_addrs di) = 15%nat -> (off' + 128 <= off \/ off + 128 <= off') ->
  get_dinode off' (put_dinode off di d) = get_dinode off' d.
Proof.
  intros. apply get_dinode_ext; rewrite ?zlen_put_dinode; try done.
  apply sub_put_dinode; lia.
Qed.

Lemma dioff_bound i : 0 <= dioff i /\ dioff i + 128 <= 1024.
Proof. unfold dioff. pose proof (Z.mod_pos_bound i 8). lia. Qed.

Lemma dec_enc_sb s (d : bytes) : 44 <= zlen d -> sb_fits s -> dec_sb (splice 0 (enc_sb s) d) = s.
Proof.
  intros Hd [F1 F2 F3 F4 F5 F6 F7 F8 F9 F10 F11]. destruct s as [a0 a1 a2 a3 a4 a5 a6 a7 a8 a9 a10].
  unfold dec_sb, enc_sb. cbn [sb_magic sb_size sb_nblocks sb_ninodes sb_nlog sb_logstart
    sb_inodestart sb_bmapstart sb_ibmapstart sb_freeinodes sb_freeblocks] in *.
  set (l := [a0; a1; a2; a3; a4; a5; a6; a7; a8; a9; a10]).
  assert (L : forall j x, l !! Z.to_nat j = Some x -> 0 <= j -> is_u32 x ->
    ld32 (4 * j) (splice 0 (enc32s l) d) = x).
  { intros j x Hl Hj Hx. rewrite <- (u32_id x Hx). replace (4 * j) with (0 + 4 * j) by lia.
    apply ld32_splice_enc32s; try done. }
  f_equal;
  [ apply (L 0) | apply (L 1) | apply (L 2) | apply (L 3) | apply (L 4) | apply (L 5) | apply (L 6)
  | apply (L 7) | apply (L 8) | apply (L 9) | apply (L 10)]; done.
Qed.

Lemma dec_enc_dirent de :
  0 <= de_inum de < 2 ^ 16 -> length (de_name de) = Z.to_nat DIRSIZ -> dec_dirent (enc_dirent de) = de.
Proof.
  intros Hi Hn. destruct de as [i nm]. unfold dec_dirent, enc_dirent, ld16. simpl in *. f_equal.
  - unfold sub. simpl. change (le_dec (le_enc 2 i) = i). rewrite le_dec_enc. by apply Z.mod_small.
  - unfold sub. simpl. rewrite drop_0. by apply take_ge; lia.
Qed.
