(* ===== verification/Kmem.v ===== *)
(** * The page allocator keeps a list of free pages (kernel/kalloc.c)

    [chain] reads the free list off the memory; [mem_ok] says it is a list of
    distinct pages of the managed range.  kfree pushes, kalloc pops, kinit
    builds the list of the whole range and freemem_size measures it. *)
From S2P Require Import Prelude Str Bio Log Crash Machine Types Vm Codec.
Local Open Scope st_scope.

Definition pages_ok (m : pmem) : Prop := forall a, length (page m a) = Z.to_nat PGSIZE.

(** Word [i] of the page at [a]. *)
Definition word (m : pmem) (a i : Z) : Z := le_dec (sub (8 * i) 8 (page m a)).

(** The list that starts at [h]. *)
Fixpoint chain (m : pmem) (h : Z) (l : list Z) : Prop :=
  match l with
  | [] => h = 0
  | p :: l => h = p /\ chain m (word m p 0) l
  end.

(** A page kfree accepts. *)
Definition page_in (k : kst) (p : Z) : Prop := p mod PGSIZE = 0 /\ k_end k <= p < PHYSTOP.

Record mem_ok (k : kst) (l : list Z) : Prop := {
  mo_pages : pages_ok (k_mem k);
  mo_end : 0 < k_end k;
  mo_chain : chain (k_mem k) (k_freelist k) l;
  mo_nodup : NoDup l;
  mo_in : Forall (page_in k) l
}.

#[global] Arguments mo_pages {_ _}.
#[global] Arguments mo_end {_ _}.
#[global] Arguments mo_chain {_ _}.
#[global] Arguments mo_nodup {_ _}.
#[global] Arguments mo_in {_ _}.

(** Pages other than those of [l] are the same. *)
Definition same_pages (m m' : pmem) (l : list Z) : Prop := forall a, a ∉ l -> page m' a = page m a.

(** ** Lemmas: words *)

Lemma pg_of_word a i : a mod PGSIZE = 0 -> 0 <= i < 512 -> pg_of (a + 8 * i) = a /\ (a + 8 * i) mod PGSIZE = 8 * i.
Proof.
  intros Ha Hi. unfold pg_of. pose proof (Z.div_mod a PGSIZE ltac:(lia)) as E.
  assert (H : (a + 8 * i) mod PGSIZE = 8 * i).
  { rewrite <- Zplus_mod_idemp_l, Ha. apply Z.mod_small. lia. }
  rewrite H. lia.
Qed.

Lemma ldm64_run a i k : a mod PGSIZE = 0 -> 0 <= i < 512 -> ldm64 (a + 8 * i) k = Ok (word (k_mem k) a i) k.
Proof. intros Ha Hi. unfold ldm64, word, pm_read. by destruct (pg_of_word a i Ha Hi) as [-> ->]. Qed.

(** The memory after a word is stored. *)
Definition put_word (a i x : Z) (m : pmem) : pmem := <[a := splice (8 * i) (le_enc 8 x) (page m a)]> m.

Lemma stm64_run a i x k : a mod PGSIZE = 0 -> 0 <= i < 512 -> stm64 (a + 8 * i) x k = Ok tt (set_mem (put_word a i x) k).
Proof.
  intros Ha Hi. unfold stm64, smodify, pm_write, put_word. destruct (pg_of_word a i Ha Hi) as [E1 E2].
  do 2 f_equal. destruct k. unfold set_mem. simpl. f_equal. by rewrite E1, E2.
Qed.

Lemma ldm64_run0 a k : a mod PGSIZE = 0 -> ldm64 a k = Ok (word (k_mem k) a 0) k.
Proof. intros Ha. pose proof (ldm64_run a 0 k Ha ltac:(lia)) as E. by rewrite Z.mul_0_r, Z.add_0_r in E. Qed.
Lemma stm64_run0 a x k : a mod PGSIZE = 0 -> stm64 a x k = Ok tt (set_mem (put_word a 0 x) k).
Proof. intros Ha. pose proof (stm64_run a 0 x k Ha ltac:(lia)) as E. by rewrite Z.mul_0_r, Z.add_0_r in E. Qed.

Lemma page_insert a d m b : page (<[a := d]> m) b = if decide (b = a) then d else page m b.
Proof. unfold page. case_decide as E; [subst; by rewrite lookup_insert_eq|by rewrite lookup_insert_ne by congruence]. Qed.

Lemma pages_ok_insert a d m : pages_ok m -> length d = Z.to_nat PGSIZE -> pages_ok (<[a := d]> m).
Proof. intros H Hd b. rewrite page_insert. case_decide; auto. Qed.

Lemma put_word_len a i x m : pages_ok m -> 0 <= i < 512 -> length (splice (8 * i) (le_enc 8 x) (page m a)) = Z.to_nat PGSIZE.
Proof.
  intros H Hi. specialize (H a). rewrite length_splice; [done|lia|]. unfold zlen. rewrite length_le_enc, H. lia.
Qed.

Lemma pages_ok_put_word a i x m : pages_ok m -> 0 <= i < 512 -> pages_ok (put_word a i x m).
Proof. intros H Hi. apply pages_ok_insert; [done|by apply put_word_len]. Qed.

Lemma word_put a i x m b j :
  pages_ok m -> 0 <= i < 512 -> 0 <= j < 512 -> 0 <= x < 2 ^ 64 ->
  word (put_word a i x m) b j = if decide (b = a /\ j = i) then x else word m b j.
Proof.
  intros H Hi Hj Hx. unfold word, put_word. rewrite page_insert. destruct (decide (b = a)) as [->|N].
  - specialize (H a). assert (Hz : zlen (page m a) = 4096) by (unfold zlen; lia).
    assert (Hl : zlen (le_enc 8 x) = 8) by (unfold zlen; by rewrite length_le_enc).
    destruct (decide (j = i)) as [->|N].
    + rewrite decide_True by done. pose proof (sub_splice_eq (8 * i) (le_enc 8 x) (page m a)) as E. rewrite Hl in E.
      rewrite E by lia. rewrite le_dec_enc. by apply Z.mod_small.
    + rewrite decide_False by tauto. rewrite sub_splice_ne by lia. done.
  - rewrite decide_False by tauto. done.
Qed.

Lemma word_same m m' l a i : same_pages m m' l -> a ∉ l -> word m' a i = word m a i.
Proof. intros H Ha. unfold word. by rewrite H. Qed.

(** ** Lemmas: the free list *)

Lemma chain_same m m' l' h l : same_pages m m' l' -> (forall p, p ∈ l -> p ∉ l') -> chain m h l -> chain m' h l.
Proof.
  intros H. revert h. induction l as [|p l IH]; intros h Hd C; [done|]. cbn [chain] in *. destruct C as [-> C].
  split; [done|]. rewrite (word_same m m' l' p 0 H); [|apply Hd; apply elem_of_cons; by left].
  apply IH; [|done]. intros q Hq. apply Hd, elem_of_cons. by right.
Qed.

Lemma page_in_bound k p : 0 < k_end k -> page_in k p -> 0 < p < 2 ^ 64 /\ p mod PGSIZE = 0.
Proof. intros H [H1 H2]. lia. Qed.

Lemma head_bound k l : mem_ok k l -> 0 <= k_freelist k < 2 ^ 64.
Proof.
  intros [_ E C _ I]. destruct l as [|p l]; cbn [chain] in C; [lia|]. destruct C as [-> _].
  apply Forall_cons in I as [I _]. apply page_in_bound in I; [lia|done].
Qed.

(** The state after a page is pushed, and after the head is popped. *)
Definition kfreed (pa : Z) (k : kst) : kst :=
  set_freelist pa (set_mem (fun m => put_word pa 0 (k_freelist k) (<[pa := replicate (Z.to_nat PGSIZE) 1]> m)) k).
Definition kalloced (p : Z) (k : kst) : kst :=
  set_mem (insert p (replicate (Z.to_nat PGSIZE) 5)) (set_freelist (word (k_mem k) p 0) k).

Lemma kfree_eq pa k : page_in k pa -> kfree pa k = Ok tt (kfreed pa k).
Proof.
  intros [Ha Hr]. unfold kfree, sbind, sget. rewrite Ha. destruct (Z.ltb_spec pa (k_end k)); [lia|].
  destruct (Z.leb_spec PHYSTOP pa); [lia|]. cbn [Z.eqb negb orb].
  unfold fill_page, smodify. rewrite stm64_run0 by done.
  destruct k. done.
Qed.

Lemma kfree_panics pa k : ~ page_in k pa -> kfree pa k = Panic "kfree".
Proof.
  intros H. unfold kfree, sbind, sget, spanic. destruct (Z.eqb_spec (pa mod PGSIZE) 0); [|done]. cbn [negb orb].
  destruct (Z.ltb_spec pa (k_end k)); [done|]. destruct (Z.leb_spec PHYSTOP pa); [done|]. exfalso. apply H. split; [done|lia].
Qed.

Lemma same_kfreed pa k : same_pages (k_mem k) (k_mem (kfreed pa k)) [pa].
Proof.
  intros a Ha. apply not_elem_of_cons in Ha as [Ha _]. destruct k. cbn. unfold put_word. rewrite !page_insert.
  by rewrite !decide_False.
Qed.

Lemma kfree_run pa k l : mem_ok k l -> page_in k pa -> pa ∉ l -> mem_ok (kfreed pa k) (pa :: l).
Proof.
  intros Mk Hp Hn. pose proof (head_bound k l Mk) as Hh. pose proof Mk as [P E C N I].
  assert (P1 : pages_ok (<[pa := replicate (Z.to_nat PGSIZE) 1]> (k_mem k))) by (apply pages_ok_insert; [done|apply length_replicate]).
  split.
  - destruct k. cbn in *. apply pages_ok_put_word; [done|lia].
  - destruct k. done.
  - split; [by destruct k|].
    assert (word (k_mem (kfreed pa k)) pa 0 = k_freelist k) as ->.
    { destruct k. cbn in *. rewrite word_put by (done || lia). by rewrite decide_True. }
    apply (chain_same (k_mem k) _ [pa]); [apply same_kfreed| |done]. intros p Hin Hp'.
    apply list_elem_of_singleton in Hp'. congruence.
  - by apply NoDup_cons.
  - apply Forall_cons. destruct k. done.
Qed.

Lemma kalloc_nil k : mem_ok k [] -> kalloc k = Ok 0 k.
Proof. intros [_ _ C _ _]. cbn in C. unfold kalloc, sbind, sget. by rewrite C. Qed.

Lemma same_kalloced p k : same_pages (k_mem k) (k_mem (kalloced p k)) [p].
Proof. intros a Ha. apply not_elem_of_cons in Ha as [Ha _]. destruct k. cbn. rewrite page_insert. by rewrite decide_False. Qed.

Lemma kalloc_cons k p l : mem_ok k (p :: l) -> kalloc k = Ok p (kalloced p k) /\ mem_ok (kalloced p k) l.
Proof.
  intros [P E [Eh C] N I]. apply Forall_cons in I as [Ip I]. apply NoDup_cons in N as [Np N].
  destruct (page_in_bound k p E Ip) as [Hp Ha]. split.
  - unfold kalloc, sbind, sget. rewrite Eh. destruct (Z.eqb_spec p 0); [lia|].
    by rewrite ldm64_run0.
  - split.
    + destruct k. cbn in *. apply pages_ok_insert; [done|apply length_replicate].
    + by destruct k.
    + replace (k_freelist (kalloced p k)) with (word (k_mem k) p 0) by (by destruct k).
      apply (chain_same (k_mem k) _ [p]); [apply same_kalloced| |done]. intros q Hq Hq'.
      apply list_elem_of_singleton in Hq'. congruence.
    + done.
    + by destruct k.
Qed.

(** ** Lemmas: kinit and freemem_size *)

(** [n] pages from [p] on. *)
Definition page_list (p : Z) (n : nat) : list Z := map (fun i => p + PGSIZE * Z.of_nat i) (seq 0 n).

Lemma page_list_S p n : page_list p (S n) = p :: page_list (p + PGSIZE) n.
Proof.
  unfold page_list. cbn [seq map]. f_equal; [lia|]. rewrite <- seq_shift, map_map. apply map_ext. intros i. lia.
Qed.

Lemma elem_page_list q p n : q ∈ page_list p n -> p <= q < p + PGSIZE * Z.of_nat n /\ (q - p) mod PGSIZE = 0.
Proof.
  unfold page_list. rewrite list_elem_of_In, in_map_iff. intros (i & <- & Hi). apply in_seq in Hi. split; [lia|].
  replace (p + PGSIZE * Z.of_nat i - p) with (Z.of_nat i * PGSIZE) by lia. apply Z.mod_mul. lia.
Qed.

Lemma kfreed_end pa k : k_end (kfreed pa k) = k_end k.
Proof. by destruct k. Qed.

(** The loop pushes the pages in address order, so the last one is on top. *)
Lemma freerange_loop_run n p pa_end k l (m : nat) :
  mem_ok k l -> p mod PGSIZE = 0 -> k_end k <= p -> pa_end <= PHYSTOP ->
  pa_end - PGSIZE < p + PGSIZE * Z.of_nat m <= pa_end -> (m <= n)%nat -> (forall q, q ∈ l -> q < p) ->
  exists k', freerange_loop n p pa_end k = Ok tt k' /\ mem_ok k' (rev (page_list p m) ++ l) /\ k' = set_freelist (k_freelist k') (set_mem (fun _ => k_mem k') k).
Proof.
  revert p k l m. induction n as [|n IH]; intros p k l m Mk Ha He Hp Hm Hn Hl.
  - assert (m = 0%nat) as -> by lia. exists k. split; [done|]. split; [done|by destruct k].
  - cbn [freerange_loop]. destruct m as [|m].
    + destruct (Z.leb_spec (p + PGSIZE) pa_end); [lia|]. exists k. split; [done|]. split; [done|by destruct k].
    + destruct (Z.leb_spec (p + PGSIZE) pa_end); [|lia].
      assert (Hpi : page_in k p) by (split; [done|lia]).
      unfold sbind. rewrite (kfree_eq p k Hpi). rewrite page_list_S. cbn [rev]. rewrite <- app_assoc. cbn [app].
      destruct (IH (p + PGSIZE) (kfreed p k) (p :: l) m) as (k' & E & M1 & O);
        [|rewrite <- Zplus_mod_idemp_r, Z_mod_same_full; by rewrite Z.add_0_r|rewrite kfreed_end; lia|done|lia|lia| |exists k'; split; [exact E|]; split; [exact M1|]; rewrite O; by destruct k].
      * apply kfree_run; [done|done|]. intros Hin. specialize (Hl p Hin). lia.
      * intros q Hq. apply elem_of_cons in Hq as [->|Hq]; [lia|]. specialize (Hl q Hq). lia.
Qed.

Lemma freemem_loop_run fuel k l h num :
  chain (k_mem k) h l -> Forall (fun p => p mod PGSIZE = 0 /\ p <> 0) l -> (length l < fuel)%nat ->
  freemem_loop fuel h num k = Ok (num + zlen l) k.
Proof.
  revert h num l. induction fuel as [|fuel IH]; intros h num l C F Hf; [lia|]. cbn [freemem_loop].
  destruct l as [|p l]; cbn [chain] in C.
  - subst h. cbn. unfold sret. f_equal. unfold zlen. simpl. lia.
  - destruct C as [-> C]. apply Forall_cons in F as [[Fa F0] F]. destruct (Z.eqb_spec p 0); [done|].
    unfold sbind. rewrite ldm64_run0 by done. rewrite (IH _ _ l) by (done || (simpl in Hf; lia)).
    f_equal. unfold zlen. simpl. lia.
Qed.

(** Distinct pages of the range are at most as many as fit. *)
Lemma pages_bound k l : 0x80000000 <= k_end k -> NoDup l -> Forall (page_in k) l ->
  (length l <= Z.to_nat ((PHYSTOP - 0x80000000) / PGSIZE))%nat.
Proof.
  intros He Hn Hf. rewrite Forall_forall in Hf. set (f := fun p : Z => (p - 0x80000000) / PGSIZE).
  assert (Hpg : forall p, p ∈ l -> p = 0x80000000 + PGSIZE * f p /\ 0 <= f p < 32768).
  { intros p Hp. destruct (Hf p Hp) as [P1 P2]. unfold f. pose proof (Z.div_mod (p - 0x80000000) PGSIZE ltac:(lia)) as E.
    rewrite Zminus_mod, P1 in E. change ((0 - 0x80000000 mod PGSIZE) mod PGSIZE) with 0 in E. lia. }
  assert (H : (length (map f l) <= length (seqZ 0 32768))%nat).
  { apply NoDup_incl_length.
    - apply NoDup_ListNoDup, NoDup_fmap_2_strong; [|done]. intros x y Hx Hy E.
      destruct (Hpg x Hx) as [-> _], (Hpg y Hy) as [-> _]. congruence.
    - intros x Hx. apply in_map_iff in Hx as (p & <- & Hp). apply list_elem_of_In in Hp.
      apply list_elem_of_In, elem_of_seqZ. destruct (Hpg p Hp). lia. }
  rewrite length_map, length_seqZ in H. change ((PHYSTOP - 0x80000000) / PGSIZE) with 32768. lia.
Qed.

Lemma kinit_run k : mem_ok k [] -> 0x80000000 <= k_end k < PHYSTOP - 2 * PGSIZE ->
  exists k' n, kinit k = Ok tt k' /\ mem_ok k' (rev (page_list (PGROUNDUP (k_end k)) n)) /\
    PHYSTOP - PGSIZE < PGROUNDUP (k_end k) + PGSIZE * Z.of_nat n <= PHYSTOP /\ k' = set_freelist (k_freelist k') (set_mem (fun _ => k_mem k') k).
Proof.
  intros Mk He. unfold kinit, sbind, sget, freerange.
  assert (Hup : PGROUNDUP (k_end k) mod PGSIZE = 0 /\ k_end k <= PGROUNDUP (k_end k) < k_end k + PGSIZE).
  { unfold PGROUNDUP, u64. rewrite (Z.mod_small _ (2 ^ 64)) by lia. pose proof (Z.div_mod (k_end k + PGSIZE - 1) PGSIZE).
    pose proof (Z.mod_pos_bound (k_end k + PGSIZE - 1) PGSIZE). split; [|lia].
    rewrite Zminus_mod, Z.mod_mod, Z.sub_diag by lia. done. }
  destruct Hup as [U1 U2]. set (p := PGROUNDUP (k_end k)) in *.
  pose proof (Z.div_mod (PHYSTOP - p) PGSIZE). pose proof (Z.mod_pos_bound (PHYSTOP - p) PGSIZE).
  pose proof (Z.div_mod (PHYSTOP - k_end k) PGSIZE). pose proof (Z.mod_pos_bound (PHYSTOP - k_end k) PGSIZE).
  destruct (freerange_loop_run (Z.to_nat ((PHYSTOP - k_end k) / PGSIZE + 1)) p PHYSTOP k [] (Z.to_nat ((PHYSTOP - p) / PGSIZE)))
    as (k' & E & M1 & O); try done; try lia.
  { intros q Hq. by apply not_elem_of_nil in Hq. }
  rewrite app_nil_r in M1. eexists k', _. split; [exact E|]. split; [exact M1|]. split; [lia|exact O].
Qed.

(** ** Theorems *)

(** kalloc and kfree keep the free list: kfree of a page of the managed
    range that is not on the list pushes it and changes no other page, any
    other address panics; kalloc pops the head, changes no other page, and
    returns 0 exactly when the list is empty.  A freed page is the next one
    allocated. *)
Theorem kalloc_kfree k l pa :
  mem_ok k l ->
  (~ page_in k pa -> kfree pa k = Panic "kfree") /\
  (page_in k pa -> pa ∉ l -> exists k' k'', kfree pa k = Ok tt k' /\ mem_ok k' (pa :: l) /\
     same_pages (k_mem k) (k_mem k') [pa] /\ kalloc k' = Ok pa k'' /\ mem_ok k'' l) /\
  match l with
  | [] => kalloc k = Ok 0 k
  | p :: l' => exists k', kalloc k = Ok p k' /\ 0 < p /\ mem_ok k' l' /\ same_pages (k_mem k) (k_mem k') [p]
  end.
Proof.
  intros Mk. split; [apply kfree_panics|]. split.
  - intros Hp Hn. exists (kfreed pa k), (kalloced pa (kfreed pa k)). pose proof (kfree_run pa k l Mk Hp Hn) as M1.
    split; [by apply kfree_eq|]. split; [done|]. split; [apply same_kfreed|]. by apply kalloc_cons.
  - destruct l as [|p l']; [by apply kalloc_nil|]. exists (kalloced p k). destruct (kalloc_cons k p l' Mk) as [E M1].
    split; [done|]. split; [|split; [done|apply same_kalloced]].
    pose proof (mo_in Mk) as I. apply Forall_cons in I as [I _]. apply page_in_bound in I; [lia|apply Mk].
Qed.

(** kinit puts exactly the whole pages between the end of the kernel and
    PHYSTOP on the free list, and freemem_size of any good state returns
    4096 times the length of the list (the int does not overflow). *)
Theorem kinit_freemem k l :
  mem_ok k l -> 0x80000000 <= k_end k < PHYSTOP - 2 * PGSIZE ->
  freemem_size k = Ok (PGSIZE * zlen l) k /\
  (l = [] -> exists k' n, kinit k = Ok tt k' /\ mem_ok k' (rev (page_list (PGROUNDUP (k_end k)) n)) /\
     PHYSTOP - PGSIZE < PGROUNDUP (k_end k) + PGSIZE * Z.of_nat n <= PHYSTOP).
Proof.
  intros Mk He. pose proof (pages_bound k l (proj1 He) (mo_nodup Mk) (mo_in Mk)) as Hb.
  change ((PHYSTOP - 0x80000000) / PGSIZE) with 32768 in Hb. split.
  - unfold freemem_size, sbind, sget. rewrite (freemem_loop_run _ k l); [|apply Mk| |change ((PHYSTOP - 0x80000000) / PGSIZE) with 32768; lia].
    + unfold sret. f_equal. unfold zlen. rewrite s32_small by lia. lia.
    + apply (Forall_impl _ _ _ (mo_in Mk)). intros p Hp. apply page_in_bound in Hp; [lia|apply Mk].
  - intros ->. destruct (kinit_run k Mk He) as (k' & n & E & M1 & Hn & _). by exists k', n.
Qed.

(** ** Witnesses *)

Definition demo_mem : kst := mkK (mkSb 0 0 0 0 0 0 0 0 0 0 0) [] [] ∅ ∅ 0 0x80021000 [] 0 None 1 [].

Lemma demo_mem_ok : mem_ok demo_mem [].
Proof. split; [intros a; vm_compute; reflexivity|reflexivity|reflexivity|constructor|constructor]. Qed.

Lemma kalloc_kfree_witness : exists k' k'', kfree 0x80022000 demo_mem = Ok tt k' /\ kalloc k' = Ok 0x80022000 k''.
Proof.
  destruct (kalloc_kfree demo_mem [] 0x80022000 demo_mem_ok) as (_ & H & _).
  destruct H as (k' & k'' & E1 & _ & _ & E2 & _); [split; [reflexivity|cbn; lia]|apply not_elem_of_nil|].
  exists k', k''. split; [exact E1|exact E2].
Defined.

Lemma kinit_freemem_witness : freemem_size demo_mem = Ok 0 demo_mem /\ exists k', kinit demo_mem = Ok tt k'.
Proof.
  destruct (kinit_freemem demo_mem [] demo_mem_ok ltac:(cbn; lia)) as [H1 H2]. split; [exact H1|].
  destruct (H2 eq_refl) as (k' & n & E & _). exists k'. exact E.
Defined.
