(* ===== verification/Pgtbl.v ===== *)
(** * Page tables (kernel/vm.c)

    A page table is a tree of pages in physical memory: two levels of table
    pages below the root, then the mapped pages.  [ptree] lists the pages of
    a tree, [pinner] its table pages, [trans] is the translation the hardware
    would do.  The theorems say that walk and mappages change the translation
    of exactly the page they are asked to map. *)
From S2P Require Import Prelude Str Bio Log Crash Machine Types Vm Codec Kmem.
Local Open Scope st_scope.

Definition pv (e : Z) : bool := negb (Z.land e PTE_V =? 0).

(** Pages of a tree with [n] levels of tables, and its table pages. *)
Fixpoint ptree (n : nat) (m : pmem) (a : Z) : list Z :=
  a :: match n with
       | O => []
       | S n => flat_map (fun i => if pv (word m a i) then ptree n m (PTE2PA (word m a i)) else []) (seqZ 0 512)
       end.
Fixpoint pinner (n : nat) (m : pmem) (a : Z) : list Z :=
  match n with
  | O => []
  | S n => a :: flat_map (fun i => if pv (word m a i) then pinner n m (PTE2PA (word m a i)) else []) (seqZ 0 512)
  end.

(** Page and index of the last entry for [va] below a table with [n] more
    levels. *)
Fixpoint plook (n : nat) (m : pmem) (a va : Z) : option (Z * Z) :=
  match n with
  | O => Some (a, PX 0 va)
  | S n' => let e := word m a (PX (Z.of_nat n) va) in
            if pv e then plook n' m (PTE2PA e) va else None
  end.

(** The valid entry for [va]. *)
Definition tr (n : nat) (m : pmem) (a va : Z) : option Z :=
  match plook n m a va with
  | Some (t, i) => if pv (word m t i) then Some (word m t i) else None
  | None => None
  end.
Definition trans (m : pmem) (pt va : Z) : option Z := tr 2 m pt va.

Fixpoint levels (n : nat) : list Z := match n with O => [] | S n' => Z.of_nat n :: levels n' end.

(** Two addresses take the same way down to level [n]. *)
Fixpoint same_px (n : nat) (va va' : Z) : Prop :=
  PX (Z.of_nat n) va' = PX (Z.of_nat n) va /\ match n with O => True | S n => same_px n va va' end.

#[global] Arguments ptree : simpl never.
#[global] Arguments pinner : simpl never.

(** ** Lemmas: indices and entries *)

Lemma PX_bound l va : 0 <= PX l va < 512.
Proof. unfold PX. change 511 with (Z.ones 9). rewrite Z.land_ones by lia. apply Z.mod_pos_bound. lia. Qed.

Lemma PX_eq l va : 0 <= l -> PX l va = (va / 2 ^ (12 + 9 * l)) mod 512.
Proof. intros H. unfold PX. change 511 with (Z.ones 9). rewrite Z.land_ones, Z.shiftr_div_pow2 by lia. done. Qed.

Lemma same_px_page va va' : 0 <= va < 2 ^ 39 -> 0 <= va' < 2 ^ 39 -> same_px 2 va va' <-> va' / PGSIZE = va / PGSIZE.
Proof.
  intros H H'. unfold same_px. rewrite !PX_eq by lia.
  change (12 + 9 * Z.of_nat 2) with 30. change (12 + 9 * Z.of_nat 1) with 21. change (12 + 9 * Z.of_nat 0) with 12.
  assert (D : forall x, 0 <= x < 2 ^ 39 -> x / 2 ^ 30 mod 512 = x / PGSIZE / 512 / 512 /\ x / 2 ^ 21 mod 512 = x / PGSIZE / 512 mod 512 /\
    x / 2 ^ 12 mod 512 = x / PGSIZE mod 512).
  { intros x Hx. change (2 ^ 30) with (PGSIZE * 512 * 512). change (2 ^ 21) with (PGSIZE * 512). change (2 ^ 12) with PGSIZE.
    rewrite <- !Z.div_div by lia. split; [|done]. apply Z.mod_small. split; [repeat apply Z.div_pos; lia|].
    repeat (apply Z.div_lt_upper_bound; [lia|]). lia. }
  destruct (D va H) as (-> & -> & ->), (D va' H') as (-> & -> & ->). split; [|by intros ->].
  intros (E1 & E2 & E3 & _). pose proof (Z.div_mod (va / PGSIZE) 512). pose proof (Z.div_mod (va' / PGSIZE) 512).
  pose proof (Z.div_mod (va / PGSIZE / 512) 512). pose proof (Z.div_mod (va' / PGSIZE / 512) 512). lia.
Qed.

Lemma PTE2PA_aligned e : PTE2PA e mod PGSIZE = 0.
Proof. unfold PTE2PA. rewrite Z.shiftl_mul_pow2 by lia. apply Z.mod_mul. lia. Qed.

(** An entry that maps [pa] with flag bits [f]. *)
Lemma pte_fields pa f : pa mod PGSIZE = 0 -> 0 <= pa < 2 ^ 56 -> 0 <= f < 1024 ->
  let e := Z.lor (PA2PTE pa) f in PTE2PA e = pa /\ PTE_FLAGS e = f /\ 0 <= e < 2 ^ 64.
Proof.
  intros Ha Hp Hf. pose proof (Z.div_mod pa PGSIZE ltac:(lia)) as E. rewrite Ha, Z.add_0_r in E.
  set (q := pa / PGSIZE) in *. assert (Hq : 0 <= q < 2 ^ 44) by lia.
  assert (El : PA2PTE pa = q * 1024).
  { unfold PA2PTE. rewrite Z.shiftr_div_pow2, Z.shiftl_mul_pow2 by lia. done. }
  assert (Eo : Z.lor (q * 1024) f = q * 1024 + f).
  { rewrite <- Z.lxor_lor, <- Z.add_nocarry_lxor; try done; apply Z.bits_inj'; intros b Hb; rewrite Z.bits_0, Z.land_spec;
      change 1024 with (2 ^ 10); rewrite <- Z.shiftl_mul_pow2, Z.shiftl_spec by lia;
      (destruct (Z.ltb_spec b 10); [by rewrite Z.testbit_neg_r by lia|]); rewrite (Z.bits_above_log2 f b), andb_false_r; try lia; try done;
      (destruct (decide (f = 0)) as [->|]; [simpl; lia|]); assert (Z.log2 f < 10) by (apply Z.log2_lt_pow2; lia); lia. }
  cbv zeta. rewrite El, Eo. unfold PTE2PA, PTE_FLAGS. rewrite Z.shiftr_div_pow2, Z.shiftl_mul_pow2 by lia.
  change 0x3FF with (Z.ones 10). rewrite Z.land_ones by lia. change (2 ^ 10) with 1024. change (2 ^ 12) with PGSIZE.
  rewrite (Z.add_comm (q * 1024)), Z.div_add, Z.mod_add, Z.div_small, Z.mod_small by lia. lia.
Qed.

Lemma pv_flags e : pv e = pv (PTE_FLAGS e).
Proof. unfold pv, PTE_FLAGS. rewrite <- Z.land_assoc. by change (Z.land 0x3FF PTE_V) with PTE_V. Qed.

(** ** Lemmas: the tree depends on its table pages only *)

Lemma ptree_S n m a : ptree (S n) m a =
  a :: flat_map (fun i => if pv (word m a i) then ptree n m (PTE2PA (word m a i)) else []) (seqZ 0 512).
Proof. done. Qed.
Lemma pinner_S n m a : pinner (S n) m a =
  a :: flat_map (fun i => if pv (word m a i) then pinner n m (PTE2PA (word m a i)) else []) (seqZ 0 512).
Proof. done. Qed.

Lemma pinner_ptree n m a x : x ∈ pinner n m a -> x ∈ ptree n m a.
Proof.
  revert a. induction n as [|n IH]; intros a H; [by apply not_elem_of_nil in H|].
  rewrite pinner_S in H. rewrite ptree_S. rewrite elem_of_cons, elem_flat_map in H |- *. destruct H as [H|(i & Hi & H)]; [by left|].
  right. exists i. split; [done|]. destruct (pv _); [by apply IH|done].
Qed.

(** A child of a table. *)
Definition child (m : pmem) (a i : Z) : Z := PTE2PA (word m a i).

Lemma ptree_child n m a i x : 0 <= i < 512 -> pv (word m a i) = true -> x ∈ ptree n m (child m a i) -> x ∈ ptree (S n) m a.
Proof.
  intros Hi Hv Hx. rewrite ptree_S. apply elem_of_cons. right. apply elem_flat_map. exists i.
  split; [apply elem_of_seqZ; lia|]. by rewrite Hv.
Qed.

Lemma pinner_child n m a i x : 0 <= i < 512 -> pv (word m a i) = true -> x ∈ pinner n m (child m a i) -> x ∈ pinner (S n) m a.
Proof.
  intros Hi Hv Hx. rewrite pinner_S. apply elem_of_cons. right. apply elem_flat_map. exists i.
  split; [apply elem_of_seqZ; lia|]. by rewrite Hv.
Qed.

Lemma pframe n m m' a : (forall c, c ∈ pinner n m a -> page m' c = page m c) ->
  ptree n m' a = ptree n m a /\ pinner n m' a = pinner n m a.
Proof.
  revert a. induction n as [|n IH]; intros a H; [done|].
  assert (Hw : forall i, word m' a i = word m a i).
  { intros i. unfold word. rewrite H; [done|]. rewrite pinner_S. apply elem_of_cons. by left. }
  assert (Hc : forall i, i ∈ seqZ 0 512 -> pv (word m a i) = true ->
    ptree n m' (child m a i) = ptree n m (child m a i) /\ pinner n m' (child m a i) = pinner n m (child m a i)).
  { intros i Hi Hv. apply elem_of_seqZ in Hi. apply IH. intros c Hc. apply H. apply (pinner_child n m a i); [lia|done|done]. }
  rewrite !ptree_S, !pinner_S. split; f_equal; apply flat_map_ext_elem; intros i Hi; rewrite Hw;
    destruct (pv (word m a i)) eqn:Hv; try done; apply (Hc i Hi Hv).
Qed.

Lemma tr_frame n m m' a va : (forall c, c ∈ pinner (S n) m a -> page m' c = page m c) ->
  plook n m' a va = plook n m a va /\ tr n m' a va = tr n m a va.
Proof.
  revert a. induction n as [|n IH]; intros a H;
    (assert (Hw : forall i, word m' a i = word m a i) by (intros i; unfold word; rewrite H; [done|]; rewrite pinner_S; apply elem_of_cons; by left)).
  - unfold tr. cbn [plook]. by rewrite Hw.
  - unfold tr. cbn [plook]. rewrite Hw. destruct (pv (word m a (PX (Z.of_nat (S n)) va))) eqn:Hv; [|done].
    apply IH. intros c Hc. apply H. apply (pinner_child (S n) m a (PX (Z.of_nat (S n)) va)); [apply PX_bound|done|done].
Qed.

(** ** Lemmas: subtrees of a good table are apart *)

Lemma NoDup_child n m a i : NoDup (ptree (S n) m a) -> 0 <= i < 512 -> pv (word m a i) = true -> NoDup (ptree n m (child m a i)).
Proof.
  intros Hn Hi Hv. rewrite ptree_S in Hn. apply NoDup_cons in Hn as [_ Hn].
  apply (NoDup_flat_map_elem (fun i => if pv (word m a i) then ptree n m (PTE2PA (word m a i)) else []) (seqZ 0 512) i) in Hn;
    [by rewrite Hv in Hn|apply elem_of_seqZ; lia].
Qed.

Lemma root_not_child n m a i : NoDup (ptree (S n) m a) -> 0 <= i < 512 -> pv (word m a i) = true -> a ∉ ptree n m (child m a i).
Proof.
  intros Hn Hi Hv Hin. rewrite ptree_S in Hn. apply NoDup_cons in Hn as [Hn _]. apply Hn, elem_flat_map. exists i.
  split; [apply elem_of_seqZ; lia|]. by rewrite Hv.
Qed.

Lemma siblings_apart n m a i j x : NoDup (ptree (S n) m a) -> 0 <= i < 512 -> 0 <= j < 512 -> i <> j ->
  pv (word m a i) = true -> pv (word m a j) = true -> x ∈ ptree n m (child m a i) -> x ∉ ptree n m (child m a j).
Proof.
  intros Hn Hi Hj Hij Vi Vj Xi Xj. rewrite ptree_S in Hn. apply NoDup_cons in Hn as [_ Hn].
  set (f := fun i => if pv (word m a i) then ptree n m (PTE2PA (word m a i)) else []) in Hn.
  apply (flat_map_disjoint f (seqZ 0 512) (Z.to_nat i) (Z.to_nat j) i j x Hn);
    [lia|apply lookup_seqZ; lia|apply lookup_seqZ; lia|unfold f; by rewrite Vi|unfold f; by rewrite Vj].
Qed.

(** One entry [j] of a good table changes: the tree stays one of distinct
    pages when the new subtree consists of distinct pages of the old one or
    of pages outside the tree. *)
Lemma NoDup_entry n m m' a j : 0 <= j < 512 -> NoDup (ptree (S n) m a) ->
  (forall i, 0 <= i < 512 -> i <> j -> word m' a i = word m a i /\
     (pv (word m a i) = true -> ptree n m' (child m a i) = ptree n m (child m a i))) ->
  (pv (word m' a j) = true -> NoDup (ptree n m' (child m' a j))) ->
  (forall x, pv (word m' a j) = true -> x ∈ ptree n m' (child m' a j) ->
     pv (word m a j) = true /\ x ∈ ptree n m (child m a j) \/ x ∉ ptree (S n) m a) ->
  NoDup (ptree (S n) m' a).
Proof.
  intros Hj Hnd Ho Hnj Hx. rewrite ptree_S in Hnd |- *. apply NoDup_cons in Hnd as [Hr Hn]. apply NoDup_cons.
  set (f := fun i => if pv (word m a i) then ptree n m (PTE2PA (word m a i)) else []) in *.
  set (f' := fun i => if pv (word m' a i) then ptree n m' (PTE2PA (word m' a i)) else []).
  assert (Hf : forall i, i ∈ seqZ 0 512 -> i <> j -> f' i = f i).
  { intros i Hi Hne. apply elem_of_seqZ in Hi. destruct (Ho i ltac:(lia) Hne) as [E1 E2]. unfold f, f'. rewrite E1.
    destruct (pv (word m a i)); [|done]. exact (E2 eq_refl). }
  assert (Hin : forall x, x ∈ f' j -> x ∈ f j \/ x ∉ ptree (S n) m a).
  { intros x. unfold f'. destruct (pv (word m' a j)) eqn:Vj; [|intros H; by apply not_elem_of_nil in H].
    intros Hx'. destruct (Hx x eq_refl Hx') as [[V H]|H]; [left; unfold f; by rewrite V|by right]. }
  assert (Hl : seqZ 0 512 !! Z.to_nat j = Some j) by (apply lookup_seqZ; lia). split.
  - intros Ha. apply elem_flat_map in Ha as (i & Hi & Ha). destruct (decide (i = j)) as [->|Hne].
    + apply Hin in Ha as [Ha|Ha]; [apply Hr, elem_flat_map; eauto|]. apply Ha. rewrite ptree_S. apply elem_of_cons. by left.
    + rewrite Hf in Ha by done. apply Hr, elem_flat_map. eauto.
  - rewrite <- (list_insert_id (seqZ 0 512) (Z.to_nat j) j Hl).
    apply (NoDup_flat_map_update f f' (seqZ 0 512) (Z.to_nat j) j j); [exact Hn|exact Hl| | |].
    + intros i y Hi Hy. apply Hf; [by eapply list_elem_of_lookup_2|]. intros ->. apply Hi. apply lookup_seqZ in Hy as [Hy _]. lia.
    + unfold f'. destruct (pv (word m' a j)) eqn:Vj; [exact (Hnj eq_refl)|apply NoDup_nil_2].
    + intros z Hz. apply Hin in Hz as [Hz|Hz]; [by left|right]. intros Hz'. apply Hz. rewrite ptree_S. apply elem_of_cons. by right.
Qed.

(** ** Lemmas: walk without allocation *)

Lemma walk_loop_look n a va k : a mod PGSIZE = 0 ->
  walk_loop (levels n) a va false k = Ok (match plook n (k_mem k) a va with Some (t, i) => t + 8 * i | None => 0 end) k.
Proof.
  revert a. induction n as [|n IH]; intros a Ha; [done|]. cbn [levels walk_loop plook]. unfold sbind at 1.
  rewrite ldm64_run by (done || apply PX_bound). fold (pv (word (k_mem k) a (PX (Z.of_nat (S n)) va))).
  destruct (pv _); [|done]. apply IH, PTE2PA_aligned.
Qed.

Lemma plook_aligned n m a va t i : a mod PGSIZE = 0 -> plook n m a va = Some (t, i) -> t mod PGSIZE = 0 /\ 0 <= i < 512.
Proof.
  revert a. induction n as [|n IH]; intros a Ha H; cbn [plook] in H.
  - simplify_eq. split; [done|apply PX_bound].
  - destruct (pv _); [|done]. eapply IH; [|done]. apply PTE2PA_aligned.
Qed.

Lemma plook_inner n m a va t i : plook n m a va = Some (t, i) -> t ∈ pinner (S n) m a.
Proof.
  revert a. induction n as [|n IH]; intros a H; cbn [plook] in H.
  - simplify_eq. rewrite pinner_S. apply elem_of_cons. by left.
  - destruct (pv _) eqn:Hv; [|done]. apply IH in H. eapply pinner_child; [apply PX_bound|done|done].
Qed.

(** The translation walkaddr returns: 0 unless a valid user entry is there. *)
Definition uaddr (m : pmem) (pt va : Z) : Z :=
  if MAXVA <=? va then 0
  else match trans m pt va with
       | Some e => if Z.land e PTE_U =? 0 then 0 else PTE2PA e
       | None => 0
       end.

Lemma walkaddr_eq pt va k : pt mod PGSIZE = 0 -> 0 < pt -> 0 ∉ pinner 3 (k_mem k) pt -> (forall t, t ∈ pinner 3 (k_mem k) pt -> 0 <= t) ->
  walkaddr pt va k = Ok (uaddr (k_mem k) pt va) k.
Proof.
  intros Ha Hp H0 Hn. unfold walkaddr, walk, uaddr. destruct (MAXVA <=? va); [done|]. unfold sbind at 1.
  change [2; 1] with (levels 2). rewrite walk_loop_look by done. unfold trans, tr.
  destruct (plook 2 (k_mem k) pt va) as [[t i]|] eqn:E; [|done].
  destruct (plook_aligned _ _ _ _ _ _ Ha E) as [Ht Hi]. pose proof (plook_inner _ _ _ _ _ _ E) as Hin.
  assert (t <> 0) by (intros ->; done). specialize (Hn t Hin). destruct (Z.eqb_spec (t + 8 * i) 0); [lia|].
  unfold sbind. rewrite ldm64_run by done. unfold pv. destruct (Z.land (word (k_mem k) t i) PTE_V =? 0); [done|]. cbn [negb].
  by destruct (Z.land _ PTE_U =? 0).
Qed.

(** ** Lemmas: walk with allocation *)

(** Only memory and the free list differ. *)
Definition only_mem (k k' : kst) : Prop := k' = set_freelist (k_freelist k') (set_mem (fun _ => k_mem k') k).

(** A tree with [n] levels of tables below [a] got new, empty tables, made
    from the pages [taken] off the free list; no translation changed. *)
Record grown (n : nat) (a : Z) (k : kst) (fl : list Z) (k' : kst) (fl' taken : list Z) : Prop := {
  gr_mem : mem_ok k' fl';
  gr_only : only_mem k k';
  gr_fl : fl = taken ++ fl';
  gr_frame : same_pages (k_mem k) (k_mem k') (pinner (S n) (k_mem k) a ++ taken);
  gr_nodup : NoDup (ptree (S n) (k_mem k') a);
  gr_sub : forall x, x ∈ ptree (S n) (k_mem k') a -> x ∈ ptree (S n) (k_mem k) a \/ x ∈ taken;
  gr_inner : forall x, x ∈ pinner (S n) (k_mem k') a -> x ∈ pinner (S n) (k_mem k) a \/ x ∈ taken;
  gr_tr : forall va, tr n (k_mem k') a va = tr n (k_mem k) a va
}.

#[global] Arguments gr_mem {_ _ _ _ _ _ _}.
#[global] Arguments gr_only {_ _ _ _ _ _ _}.
#[global] Arguments gr_fl {_ _ _ _ _ _ _}.
#[global] Arguments gr_frame {_ _ _ _ _ _ _}.
#[global] Arguments gr_nodup {_ _ _ _ _ _ _}.
#[global] Arguments gr_sub {_ _ _ _ _ _ _}.
#[global] Arguments gr_inner {_ _ _ _ _ _ _}.
#[global] Arguments gr_tr {_ _ _ _ _ _ _}.

Lemma only_mem_refl k : only_mem k k.
Proof. by destruct k. Qed.
Lemma only_mem_trans k1 k2 k3 : only_mem k1 k2 -> only_mem k2 k3 -> only_mem k1 k3.
Proof. unfold only_mem. intros -> ->. by destruct k1. Qed.

Lemma grown_refl n a k fl : mem_ok k fl -> NoDup (ptree (S n) (k_mem k) a) -> grown n a k fl k fl [].
Proof. intros Mk Hn. split; [exact Mk|apply only_mem_refl|done|done|exact Hn|auto|auto|done]. Qed.

Lemma grown_trans n a k1 l1 k2 l2 t1 k3 l3 t2 :
  grown n a k1 l1 k2 l2 t1 -> grown n a k2 l2 k3 l3 t2 -> grown n a k1 l1 k3 l3 (t1 ++ t2).
Proof.
  intros [M1 O1 F1 S1 N1 U1 I1 T1] [M2 O2 F2 S2 N2 U2 I2 T2]. split; [exact M2| | | |exact N2| | |].
  - by apply (only_mem_trans k1 k2).
  - by rewrite <- app_assoc, <- F2.
  - intros x Hx. rewrite !elem_of_app in Hx. rewrite S2, S1; [done| |].
    + rewrite elem_of_app. tauto.
    + rewrite elem_of_app. intros [H|H]; [apply I1 in H|]; tauto.
  - intros x Hx. rewrite elem_of_app. apply U2 in Hx as [Hx|Hx]; [apply U1 in Hx|]; tauto.
  - intros x Hx. rewrite elem_of_app. apply I2 in Hx as [Hx|Hx]; [apply I1 in Hx|]; tauto.
  - intros va. by rewrite T2, T1.
Qed.

(** Growth below one entry is growth of the table. *)
Section Descend.
  Context (n : nat) (a j : Z) (k : kst) (fl : list Z) (k' : kst) (fl' taken : list Z).
  Context (Hj : 0 <= j < 512) (Hv : pv (word (k_mem k) a j) = true).
  Context (Hnd : NoDup (ptree (S (S n)) (k_mem k) a)) (Hdis : forall x, x ∈ ptree (S (S n)) (k_mem k) a -> x ∉ fl).
  Context (G : grown n (child (k_mem k) a j) k fl k' fl' taken).

Lemma dc_taken x : x ∈ taken -> x ∉ ptree (S (S n)) (k_mem k) a.
Proof. intros Hx Hx'. apply (Hdis x Hx'). rewrite (gr_fl G). apply elem_of_app. by left. Qed.

Lemma dc_same x : x ∈ ptree (S (S n)) (k_mem k) a -> x ∉ ptree (S n) (k_mem k) (child (k_mem k) a j) -> page (k_mem k') x = page (k_mem k) x.
Proof.
  intros Hx Hc. apply (gr_frame G). rewrite elem_of_app. intros [H|H].
  - by apply Hc, pinner_ptree.
  - by apply (dc_taken x H).
Qed.

Lemma dc_root i : word (k_mem k') a i = word (k_mem k) a i.
Proof.
  unfold word. rewrite dc_same; [done|rewrite ptree_S; apply elem_of_cons; by left|]. by apply root_not_child.
Qed.

Lemma dc_child i : child (k_mem k') a i = child (k_mem k) a i.
Proof. unfold child. by rewrite dc_root. Qed.

Lemma dc_sibling i : 0 <= i < 512 -> i <> j -> pv (word (k_mem k) a i) = true ->
  forall c, c ∈ ptree (S n) (k_mem k) (child (k_mem k) a i) -> page (k_mem k') c = page (k_mem k) c.
Proof.
  intros Hi Hne Vi c Hc. apply dc_same; [by apply (ptree_child (S n) _ a i)|].
  apply (siblings_apart (S n) (k_mem k) a i j c); auto.
Qed.

Lemma dc_subtree i : 0 <= i < 512 -> i <> j -> pv (word (k_mem k) a i) = true ->
  ptree (S n) (k_mem k') (child (k_mem k) a i) = ptree (S n) (k_mem k) (child (k_mem k) a i) /\
  pinner (S n) (k_mem k') (child (k_mem k) a i) = pinner (S n) (k_mem k) (child (k_mem k) a i).
Proof. intros Hi Hne Vi. apply pframe. intros c Hc. apply (dc_sibling i); [done|done|done|by apply pinner_ptree]. Qed.

(** A page of the new tree is one of the old tree or a new one. *)
Lemma dc_sub x : x ∈ ptree (S (S n)) (k_mem k') a -> x ∈ ptree (S (S n)) (k_mem k) a \/ x ∈ taken.
Proof.
  intros Hx. rewrite ptree_S in Hx |- *. rewrite elem_of_cons, elem_flat_map in Hx. rewrite elem_of_cons, elem_flat_map.
  destruct Hx as [->|(i & Hi & Hx)]; [tauto|]. rewrite dc_root in Hx.
  destruct (pv (word (k_mem k) a i)) eqn:Vi; [|by apply not_elem_of_nil in Hx]. fold (child (k_mem k) a i) in Hx.
  destruct (decide (i = j)) as [->|Hne].
  - apply (gr_sub G) in Hx as [Hx|Hx]; [|tauto]. left. right. exists j. by rewrite Vi.
  - rewrite (proj1 (dc_subtree i ltac:(apply elem_of_seqZ in Hi; lia) Hne Vi)) in Hx. left. right. exists i. by rewrite Vi.
Qed.

Lemma dc_inner x : x ∈ pinner (S (S n)) (k_mem k') a -> x ∈ pinner (S (S n)) (k_mem k) a \/ x ∈ taken.
Proof.
  intros Hx. rewrite pinner_S in Hx |- *. rewrite elem_of_cons, elem_flat_map in Hx. rewrite elem_of_cons, elem_flat_map.
  destruct Hx as [->|(i & Hi & Hx)]; [tauto|]. rewrite dc_root in Hx.
  destruct (pv (word (k_mem k) a i)) eqn:Vi; [|by apply not_elem_of_nil in Hx]. fold (child (k_mem k) a i) in Hx.
  destruct (decide (i = j)) as [->|Hne].
  - apply (gr_inner G) in Hx as [Hx|Hx]; [|tauto]. left. right. exists j. by rewrite Vi.
  - rewrite (proj2 (dc_subtree i ltac:(apply elem_of_seqZ in Hi; lia) Hne Vi)) in Hx. left. right. exists i. by rewrite Vi.
Qed.

Lemma dc_nodup : NoDup (ptree (S (S n)) (k_mem k') a).
Proof.
  apply (NoDup_entry (S n) (k_mem k) (k_mem k') a j Hj Hnd).
  - intros i Hi Hne. rewrite dc_root. split; [done|]. intros Vi. by apply dc_subtree.
  - intros _. rewrite dc_child. apply G.
  - intros x _ Hx. rewrite dc_child in Hx. apply (gr_sub G) in Hx as [Hx|Hx]; [by left|right; by apply dc_taken].
Qed.

Lemma grown_descend : grown (S n) a k fl k' fl' taken.
Proof.
  split; [apply G|apply G|apply G| |exact dc_nodup|exact dc_sub|exact dc_inner|].
  - intros x Hx. apply (gr_frame G). rewrite elem_of_app in *. intros [H|H]; [|tauto]. apply Hx. left.
    by apply (pinner_child (S n) _ a j).
  - intros va. unfold tr. cbn [plook]. rewrite dc_root. set (i := PX (Z.of_nat (S n)) va).
    destruct (pv (word (k_mem k) a i)) eqn:Vi; [|done]. fold (child (k_mem k) a i). fold (tr n (k_mem k') (child (k_mem k) a i) va).
    fold (tr n (k_mem k) (child (k_mem k) a i) va). destruct (decide (i = j)) as [->|Hne]; [apply (gr_tr G)|].
    apply tr_frame. intros c Hc. apply (dc_sibling i); [apply PX_bound|done|done|by apply pinner_ptree].
Qed.
End Descend.

Lemma mem_ok_set k l f s : mem_ok k l -> pages_ok (f (k_mem k)) -> same_pages (k_mem k) (f (k_mem k)) s ->
  (forall p, p ∈ l -> p ∉ s) -> mem_ok (set_mem f k) l.
Proof.
  intros [P E C N I] Hp Hs Hd. destruct k. cbn in *. split; try done. cbn. by apply (chain_same k_mem _ s).
Qed.

Lemma tr_zero n m p va : (forall i, 0 <= i < 512 -> word m p i = 0) -> tr n m p va = None.
Proof. intros H. unfold tr. destruct n as [|n]; cbn [plook]; by rewrite H by apply PX_bound. Qed.

Lemma ptree_zero n m p : (forall i, 0 <= i < 512 -> word m p i = 0) -> ptree n m p = [p] /\ forall x, x ∈ pinner n m p -> x = p.
Proof.
  intros H. destruct n as [|n]; [split; [done|]; intros x Hx; by apply not_elem_of_nil in Hx|].
  assert (E : forall f : Z -> list Z, flat_map (fun i => if pv (word m p i) then f i else []) (seqZ 0 512) = []).
  { intros f. assert (Hl : forall i, i ∈ seqZ 0 512 -> 0 <= i < 512) by (intros i Hi; apply elem_of_seqZ in Hi; lia).
    induction (seqZ 0 512) as [|i l IH]; [done|]. cbn [flat_map]. rewrite H by (apply Hl, elem_of_cons; by left).
    apply IH. intros y Hy. apply Hl, elem_of_cons. by right. }
  rewrite ptree_S, pinner_S. rewrite (E (fun i => ptree n m (PTE2PA (word m p i)))), (E (fun i => pinner n m (PTE2PA (word m p i)))).
  split; [done|]. intros x Hx. by apply list_elem_of_singleton in Hx.
Qed.

Lemma word_zeros m p i : 0 <= i < 512 -> word (<[p := replicate (Z.to_nat PGSIZE) 0]> m) p i = 0.
Proof.
  intros Hi. unfold word. rewrite page_insert, decide_True by done. unfold sub. rewrite drop_replicate, take_replicate.
  replace (Z.to_nat 8 `min` (Z.to_nat PGSIZE - Z.to_nat (8 * i)))%nat with 8%nat by lia. done.
Qed.

(** An entry of a table is replaced. *)
Section Entry.
  Context (n : nat) (a j : Z) (m m' : pmem).
  Context (Hj : 0 <= j < 512) (Hnd : NoDup (ptree (S n) m a)).
  Context (Hw : forall i, 0 <= i < 512 -> i <> j -> word m' a i = word m a i).
  Context (Hp : forall c, c ∈ ptree (S n) m a -> c <> a -> page m' c = page m c).

Lemma en_sibling i : 0 <= i < 512 -> i <> j -> pv (word m a i) = true ->
  ptree n m' (child m a i) = ptree n m (child m a i) /\ pinner n m' (child m a i) = pinner n m (child m a i).
Proof.
  intros Hi Hne Vi. apply pframe. intros c Hc. apply pinner_ptree in Hc. apply Hp; [by apply (ptree_child n m a i)|].
  intros ->. by apply (root_not_child n m a i Hnd Hi Vi).
Qed.

Lemma en_sub x : x ∈ ptree (S n) m' a ->
  x ∈ ptree (S n) m a \/ pv (word m' a j) = true /\ x ∈ ptree n m' (child m' a j).
Proof.
  intros Hx. rewrite ptree_S in Hx |- *. rewrite elem_of_cons, elem_flat_map in Hx. rewrite elem_of_cons, elem_flat_map.
  destruct Hx as [->|(i & Hi & Hx)]; [tauto|]. destruct (decide (i = j)) as [->|Hne].
  - destruct (pv (word m' a j)); [by right|by apply not_elem_of_nil in Hx].
  - pose proof Hi as Hi'. apply elem_of_seqZ in Hi'. rewrite Hw in Hx by lia. left. right. exists i. split; [done|].
    destruct (pv (word m a i)) eqn:Vi; [|done]. fold (child m a i) in Hx |- *. by rewrite <- (proj1 (en_sibling i ltac:(lia) Hne Vi)).
Qed.

Lemma en_inner x : x ∈ pinner (S n) m' a ->
  x ∈ pinner (S n) m a \/ pv (word m' a j) = true /\ x ∈ pinner n m' (child m' a j).
Proof.
  intros Hx. rewrite pinner_S in Hx |- *. rewrite elem_of_cons, elem_flat_map in Hx. rewrite elem_of_cons, elem_flat_map.
  destruct Hx as [->|(i & Hi & Hx)]; [tauto|]. destruct (decide (i = j)) as [->|Hne].
  - destruct (pv (word m' a j)); [by right|by apply not_elem_of_nil in Hx].
  - pose proof Hi as Hi'. apply elem_of_seqZ in Hi'. rewrite Hw in Hx by lia. left. right. exists i. split; [done|].
    destruct (pv (word m a i)) eqn:Vi; [|done]. fold (child m a i) in Hx |- *. by rewrite <- (proj2 (en_sibling i ltac:(lia) Hne Vi)).
Qed.

Lemma en_nodup : (pv (word m' a j) = true -> NoDup (ptree n m' (child m' a j))) ->
  (forall x, pv (word m' a j) = true -> x ∈ ptree n m' (child m' a j) -> x ∉ ptree (S n) m a) -> NoDup (ptree (S n) m' a).
Proof.
  intros H1 H2. apply (NoDup_entry n m m' a j Hj Hnd); [|done|].
  - intros i Hi Hne. split; [by apply Hw|]. intros Vi. by apply en_sibling.
  - intros x Vj Hx. right. by apply H2.
Qed.
End Entry.

Lemma en_tr n a j m m' va :
  0 <= j < 512 -> NoDup (ptree (S (S n)) m a) ->
  (forall i, 0 <= i < 512 -> i <> j -> word m' a i = word m a i) ->
  (forall c, c ∈ ptree (S (S n)) m a -> c <> a -> page m' c = page m c) ->
  PX (Z.of_nat (S n)) va <> j -> tr (S n) m' a va = tr (S n) m a va.
Proof.
  intros Hj Hnd Hw Hp Hne. unfold tr. cbn [plook]. set (i := PX (Z.of_nat (S n)) va) in *.
  pose proof (PX_bound (Z.of_nat (S n)) va) as Hi. fold i in Hi. rewrite Hw by done.
  destruct (pv (word m a i)) eqn:Vi; [|done]. fold (child m a i).
  apply (tr_frame n m m' (child m a i) va). intros c Hc. apply pinner_ptree in Hc.
  apply Hp; [by apply (ptree_child (S n) m a i)|]. intros ->. by apply (root_not_child (S n) m a i Hnd Hi Vi).
Qed.

(** The state after walk installed an empty table from page [p] at entry [j]
    of table [a]. *)
Definition zeroed (p : Z) (k : kst) : kst := set_mem (insert p (replicate (Z.to_nat PGSIZE) 0)) (kalloced p k).
Definition installed (a j p : Z) (k : kst) : kst := set_mem (put_word a j (Z.lor (PA2PTE p) PTE_V)) (zeroed p k).

Section New.
  Context (n : nat) (a j p : Z) (k : kst) (fl : list Z).
  Context (Hj : 0 <= j < 512) (Ha : a mod PGSIZE = 0) (Hv : pv (word (k_mem k) a j) = false).
  Context (Mk : mem_ok k (p :: fl)) (Hnd : NoDup (ptree (S n) (k_mem k) a)).
  Context (Hdis : forall x, x ∈ ptree (S n) (k_mem k) a -> x ∉ p :: fl).
Let k' : kst := installed a j p k.

Lemma nw_ne : a <> p.
Proof. intros ->. apply (Hdis p); [rewrite ptree_S|]; apply elem_of_cons; by left. Qed.

Lemma nw_pte : PTE2PA (Z.lor (PA2PTE p) PTE_V) = p /\ pv (Z.lor (PA2PTE p) PTE_V) = true /\ 0 <= Z.lor (PA2PTE p) PTE_V < 2 ^ 64.
Proof.
  pose proof (mo_in Mk) as I. apply Forall_cons in I as [[I1 I2] _]. pose proof (mo_end Mk).
  destruct (pte_fields p PTE_V I1 ltac:(lia) ltac:(lia)) as (E1 & E2 & E3). split; [done|]. split; [|done]. by rewrite pv_flags, E2.
Qed.

Lemma nw_pages : pages_ok (k_mem (zeroed p k)).
Proof.
  pose proof (mo_pages (proj2 (kalloc_cons k p fl Mk))) as P. unfold zeroed. cbn in *.
  apply pages_ok_insert; [exact P|apply length_replicate].
Qed.

Lemma nw_page c : c <> a -> c <> p -> page (k_mem k') c = page (k_mem k) c.
Proof.
  intros H1 H2. unfold k', installed, zeroed, kalloced, put_word. cbn. rewrite !page_insert. by rewrite !decide_False.
Qed.

Lemma nw_word b i : 0 <= i < 512 ->
  word (k_mem k') b i = if decide (b = a /\ i = j) then Z.lor (PA2PTE p) PTE_V else word (k_mem (zeroed p k)) b i.
Proof.
  intros Hi. unfold k', installed. change (k_mem (set_mem ?f ?x)) with (f (k_mem x)).
  apply word_put; [exact nw_pages|done|done|apply nw_pte].
Qed.

Lemma nw_zero i : 0 <= i < 512 -> word (k_mem k') p i = 0.
Proof.
  intros Hi. rewrite nw_word, decide_False by (done || (intros [E _]; symmetry in E; by apply nw_ne)).
  by apply word_zeros.
Qed.

Lemma nw_root i : 0 <= i < 512 -> i <> j -> word (k_mem k') a i = word (k_mem k) a i.
Proof.
  intros Hi Hne. rewrite nw_word, decide_False by (done || tauto). unfold zeroed, kalloced, word. cbn.
  rewrite !page_insert. pose proof nw_ne. by rewrite !decide_False.
Qed.

Lemma nw_entry : word (k_mem k') a j = Z.lor (PA2PTE p) PTE_V /\ child (k_mem k') a j = p /\ pv (word (k_mem k') a j) = true.
Proof.
  assert (E : word (k_mem k') a j = Z.lor (PA2PTE p) PTE_V) by (rewrite nw_word, decide_True; done).
  unfold child. rewrite E. destruct nw_pte as (E1 & E2 & _). done.
Qed.

Lemma nw_subtree : ptree n (k_mem k') p = [p] /\ forall x, x ∈ pinner n (k_mem k') p -> x = p.
Proof. apply ptree_zero. exact nw_zero. Qed.

Lemma nw_page_tree c : c ∈ ptree (S n) (k_mem k) a -> c <> a -> page (k_mem k') c = page (k_mem k) c.
Proof. intros Hc Hne. apply nw_page; [done|]. intros ->. apply (Hdis p Hc), elem_of_cons. by left. Qed.

Lemma nw_mem : mem_ok k' fl.
Proof.
  destruct (kalloc_cons k p fl Mk) as [_ M1]. pose proof (mo_nodup Mk) as N. apply NoDup_cons in N as [Np _].
  assert (M2 : mem_ok (zeroed p k) fl).
  { apply (mem_ok_set _ _ _ [p]); [done|exact nw_pages| |].
    - intros x Hx. apply not_elem_of_cons in Hx as [Hx _]. by rewrite page_insert, decide_False.
    - intros x Hx Hx'. apply list_elem_of_singleton in Hx' as ->. done. }
  apply (mem_ok_set _ _ _ [a]); [done|apply pages_ok_put_word; [exact nw_pages|done]| |].
  - intros x Hx. apply not_elem_of_cons in Hx as [Hx _]. unfold put_word. by rewrite page_insert, decide_False.
  - intros x Hx Hx'. apply list_elem_of_singleton in Hx' as ->. apply (Hdis a); [rewrite ptree_S|]; apply elem_of_cons; [by left|by right].
Qed.

End New.

Section NewGrown.
  Context (n : nat) (a j p : Z) (k : kst) (fl : list Z).
  Context (Hj : 0 <= j < 512) (Ha : a mod PGSIZE = 0) (Hv : pv (word (k_mem k) a j) = false).
  Context (Mk : mem_ok k (p :: fl)) (Hnd : NoDup (ptree (S (S n)) (k_mem k) a)).
  Context (Hdis : forall x, x ∈ ptree (S (S n)) (k_mem k) a -> x ∉ p :: fl).
Let root := nw_root (S n) a j p k fl Hj Ha Hv Mk Hnd Hdis.
Let tree := nw_page_tree (S n) a j p k fl Hdis.
Let zero := nw_zero (S n) a j p k fl Hj Ha Hv Mk Hnd Hdis.

Lemma grown_new : grown (S n) a k (p :: fl) (installed a j p k) fl [p].
Proof.
  destruct (nw_entry a j p k fl Hj Mk) as (E1 & E2 & E3). destruct (nw_subtree (S n) a j p k fl Hj Ha Hv Mk Hnd Hdis) as [Et Ei]. split; [exact (nw_mem (S n) a j p k fl Hj Mk Hdis)|done|done| | | | |].
  - intros x Hx. rewrite elem_of_app, pinner_S, elem_of_cons, list_elem_of_singleton in Hx. apply nw_page; tauto.
  - apply (en_nodup (S n) a j (k_mem k) (k_mem (installed a j p k)) Hj Hnd root tree); rewrite E2, Et.
    + intros _. apply NoDup_singleton.
    + intros x _ Hx Hx'. apply list_elem_of_singleton in Hx as ->. apply (Hdis p Hx'), elem_of_cons. by left.
  - intros x Hx. apply (en_sub (S n) a j (k_mem k) (k_mem (installed a j p k)) Hj Hnd root tree) in Hx. rewrite E2, Et in Hx. tauto.
  - intros x Hx. apply (en_inner (S n) a j (k_mem k) (k_mem (installed a j p k)) Hj Hnd root tree) in Hx as [Hx|[_ Hx]]; [by left|right].
    rewrite E2 in Hx. apply list_elem_of_singleton. by apply Ei.
  - intros va. destruct (decide (PX (Z.of_nat (S n)) va = j)) as [Ej|Ne].
    + unfold tr. cbn [plook]. rewrite Ej, E3, Hv. fold (child (k_mem (installed a j p k)) a j). rewrite E2. apply tr_zero. exact zero.
    + apply (en_tr n a j); [done|exact Hnd|exact root|exact tree|done].
Qed.
End NewGrown.

(** What walk returned for the memory it left. *)
Definition walk_res (n : nat) (m : pmem) (a va r : Z) (fl : list Z) : Prop :=
  match plook n m a va with Some (t, i) => r = t + 8 * i | None => r = 0 /\ fl = [] end.

Lemma walk_alloc_run n a va k fl :
  mem_ok k fl -> a mod PGSIZE = 0 -> NoDup (ptree (S n) (k_mem k) a) -> (forall x, x ∈ ptree (S n) (k_mem k) a -> x ∉ fl) ->
  exists r k' fl' taken, walk_loop (levels n) a va true k = Ok r k' /\ grown n a k fl k' fl' taken /\ walk_res n (k_mem k') a va r fl'.
Proof.
  revert a k fl. induction n as [|n IH]; intros a k fl Mk Ha Hnd Hdis.
  { exists (a + 8 * PX 0 va), k, fl, []. split; [done|]. split; [by apply grown_refl|done]. }
  cbn [levels walk_loop]. set (j := PX (Z.of_nat (S n)) va). assert (Hj : 0 <= j < 512) by apply PX_bound.
  (* below a valid entry *)
  assert (Down : forall k fl, mem_ok k fl -> NoDup (ptree (S (S n)) (k_mem k) a) -> (forall x, x ∈ ptree (S (S n)) (k_mem k) a -> x ∉ fl) ->
    pv (word (k_mem k) a j) = true -> exists r k' fl' taken, walk_loop (levels n) (child (k_mem k) a j) va true k = Ok r k' /\
      grown (S n) a k fl k' fl' taken /\ walk_res (S n) (k_mem k') a va r fl').
  { clear k fl Mk Hnd Hdis. intros k fl Mk Hnd Hdis Hv.
    destruct (IH (child (k_mem k) a j) k fl) as (r & k' & fl' & taken & E & G & W).
    - done.
    - apply PTE2PA_aligned.
    - by apply NoDup_child.
    - intros x Hx. apply Hdis. by apply (ptree_child (S n) (k_mem k) a j).
    - exists r, k', fl', taken. split; [exact E|]. split; [exact (grown_descend n a j k fl k' fl' taken Hj Hv Hnd Hdis G)|].
      unfold walk_res in *. cbn [plook]. fold j. rewrite (dc_root n a j k fl k' fl' taken Hj Hv Hnd Hdis G j), Hv. exact W. }
  unfold sbind at 1. rewrite ldm64_run by done. fold (pv (word (k_mem k) a j)).
  destruct (pv (word (k_mem k) a j)) eqn:Hv; [exact (Down k fl Mk Hnd Hdis Hv)|]. cbn [negb]. destruct fl as [|p fl].
  - unfold sbind at 1. rewrite kalloc_nil by done. cbn [Z.eqb]. exists 0, k, [], []. split; [done|].
    split; [exact (grown_refl _ _ _ _ Mk Hnd)|]. unfold walk_res. cbn [plook]. fold j. by rewrite Hv.
  - destruct (kalloc_cons k p fl Mk) as [E1 _]. unfold sbind at 1. rewrite E1.
    assert (Hp : p <> 0).
    { pose proof (mo_in Mk) as I. apply Forall_cons in I as [[_ I] _]. pose proof (mo_end Mk). lia. }
    rewrite (proj2 (Z.eqb_neq p 0) Hp). unfold sbind at 1. unfold fill_page, smodify. fold (zeroed p k).
    unfold sbind at 1. rewrite stm64_run by done. fold (installed a j p k).
    pose proof (grown_new n a j p k fl Hj Ha Hv Mk Hnd Hdis) as G1. destruct (nw_entry a j p k fl Hj Mk) as (_ & Ec & Ev).
    destruct (Down (installed a j p k) fl) as (r & k' & fl' & taken & E & G & W).
    + apply (gr_mem G1).
    + apply (gr_nodup G1).
    + intros x Hx. apply (gr_sub G1) in Hx as [Hx|Hx].
      * apply Hdis in Hx. apply not_elem_of_cons in Hx. tauto.
      * apply list_elem_of_singleton in Hx as ->. pose proof (mo_nodup Mk) as N. apply NoDup_cons in N. tauto.
    + exact Ev.
    + rewrite Ec in E. exists r, k', fl', ([p] ++ taken). split; [exact E|]. split; [|exact W]. exact (grown_trans _ _ _ _ _ _ _ _ _ _ G1 G).
Qed.

(** ** Lemmas: a last-level entry is replaced *)

Lemma elem_ptree n m a x : x ∈ ptree (S n) m a <-> x = a \/ exists i, 0 <= i < 512 /\ pv (word m a i) = true /\ x ∈ ptree n m (child m a i).
Proof.
  rewrite ptree_S, elem_of_cons, elem_flat_map. split; (intros [H|(i & Hi & H)]; [by left|right; exists i]).
  - apply elem_of_seqZ in Hi. destruct (pv (word m a i)); [split; [lia|done]|by apply not_elem_of_nil in H].
  - split; [apply elem_of_seqZ; lia|]. destruct H as [-> H]. exact H.
Qed.

Lemma elem_ptree_0 m a x : x ∈ ptree 0 m a <-> x = a.
Proof. change (ptree 0 m a) with [a]. apply list_elem_of_singleton. Qed.

Lemma elem_pinner_0 m a x : x ∉ pinner 0 m a.
Proof. apply not_elem_of_nil. Qed.

(** What storing [e] in entry [i] of table [t], the one for [va], does to the
    tree. *)
Record leaf_upd (n : nat) (a va t i e : Z) (m m' : pmem) : Prop := {
  lu_same : forall va', same_px n va va' -> tr n m' a va' = if pv e then Some e else None;
  lu_other : forall va', ~ same_px n va va' -> tr n m' a va' = tr n m a va';
  lu_nodup : NoDup (ptree (S n) m' a);
  lu_elem : forall x, x ∈ ptree (S n) m' a <->
    x ∈ ptree (S n) m a /\ ~ (pv (word m t i) = true /\ x = child m t i) \/ pv e = true /\ x = PTE2PA e;
  lu_inner : pinner (S n) m' a = pinner (S n) m a
}.

#[global] Arguments lu_same {_ _ _ _ _ _ _ _}.
#[global] Arguments lu_other {_ _ _ _ _ _ _ _}.
#[global] Arguments lu_nodup {_ _ _ _ _ _ _ _}.
#[global] Arguments lu_elem {_ _ _ _ _ _ _ _}.
#[global] Arguments lu_inner {_ _ _ _ _ _ _ _}.

Section Leaf0.
  Context (a va e : Z) (m : pmem).
  Context (Hp : pages_ok m) (He : 0 <= e < 2 ^ 64) (Hnd : NoDup (ptree 1 m a)).
Let i : Z := PX 0 va.
  Context (Hx : pv e = true -> PTE2PA e ∉ ptree 1 m a \/ pv (word m a i) = true /\ PTE2PA e = child m a i).
Let m' : pmem := put_word a i e m.

Lemma l0_word j : 0 <= j < 512 -> word m' a j = if decide (j = i) then e else word m a j.
Proof.
  intros Hj. unfold m'. rewrite word_put by (done || apply PX_bound). do 2 case_decide; try done; tauto.
Qed.

Lemma leaf_upd_0 : leaf_upd 0 a va a i e m m'.
Proof.
  pose proof (PX_bound 0 va) as Hi. fold i in Hi.
  assert (Wi : word m' a i = e) by (rewrite l0_word, decide_True; done).
  assert (Wj : forall j, 0 <= j < 512 -> j <> i -> word m' a j = word m a j) by (intros j Hj N; by rewrite l0_word, decide_False).
  split.
  - intros va' [E _]. change (Z.of_nat 0) with 0 in E. unfold tr. cbn [plook]. rewrite E. fold i. rewrite Wi. by destruct (pv e).
  - intros va' N. unfold tr. cbn [plook]. rewrite Wj; [done|apply PX_bound|]. intros E. apply N. by split.
  - apply (NoDup_entry 0 m m' a i Hi Hnd).
    + intros j Hj N. split; [by apply Wj|done].
    + intros _. apply NoDup_singleton.
    + intros x. unfold child. rewrite Wi, !elem_ptree_0. intros V ->. destruct (Hx V) as [H|[V' E]]; [by right|]. left. by rewrite E.
  - intros x. rewrite !elem_ptree. split.
    + intros [->|(j & Hj & V & E)].
      * left. split; [by left|]. intros [V E]. apply (root_not_child 0 m a i Hnd Hi V), elem_ptree_0. done.
      * apply elem_ptree_0 in E as ->. destruct (decide (j = i)) as [->|N]; [right; unfold child; by rewrite Wi in *|].
        unfold child. rewrite (Wj j Hj N) in *. left. split; [right; exists j; split; [done|]; split; [done|]; by apply elem_ptree_0|].
        intros [V' E]. apply (siblings_apart 0 m a j i (child m a j) Hnd Hj Hi N V V'); apply elem_ptree_0; [done|exact E].
    + intros [[[->|(j & Hj & V & E)] N]|[V ->]]; [by left| |].
      * destruct (decide (j = i)) as [->|Ne]; [apply elem_ptree_0 in E; tauto|].
        right. exists j. unfold child. rewrite (Wj j Hj Ne). done.
      * right. exists i. unfold child. rewrite Wi. split; [done|]. split; [done|]. by apply elem_ptree_0.
  - rewrite !pinner_S. f_equal. apply flat_map_ext_elem. intros j _. by destruct (pv (word m' a j)), (pv (word m a j)).
Qed.
End Leaf0.

(** The page a found entry maps is in the tree. *)
Lemma plook_child n m a va t i : plook n m a va = Some (t, i) -> pv (word m t i) = true -> child m t i ∈ ptree (S n) m a.
Proof.
  intros E V. revert a E. induction n as [|n IH]; intros a E; cbn [plook] in E.
  - simplify_eq. apply elem_ptree. right. exists (PX 0 va). split; [apply PX_bound|]. split; [done|]. by apply elem_ptree_0.
  - destruct (pv (word m a _)) eqn:Vc; [|done]. apply elem_ptree. right. eexists. split; [apply PX_bound|]. split; [exact Vc|]. by apply IH.
Qed.

#[global] Opaque ptree pinner.

Section Leaf.
  Context (n : nat) (a va t i e : Z) (m : pmem).
Let m' : pmem := put_word t i e m.
Let j : Z := PX (Z.of_nat (S n)) va.
  Context (Hnd : NoDup (ptree (S (S n)) m a)) (Hv : pv (word m a j) = true).
  Context (Hl : plook n m (child m a j) va = Some (t, i)).
  Context (Hx : pv e = true -> PTE2PA e ∉ ptree (S (S n)) m a \/ pv (word m t i) = true /\ PTE2PA e = child m t i).
  Context (U : leaf_upd n (child m a j) va t i e m m').

Lemma lf_t : t ∈ pinner (S n) m (child m a j).
Proof. by apply (plook_inner n m _ va t i). Qed.

Lemma lf_ne : t <> a.
Proof. intros E. pose proof (pinner_ptree _ _ _ _ lf_t) as H. rewrite E in H. by apply (root_not_child (S n) m a j Hnd (PX_bound _ _) Hv). Qed.

Lemma lf_page c : c <> t -> page m' c = page m c.
Proof. intros N. unfold m', put_word. by rewrite page_insert, decide_False. Qed.

Lemma lf_word i' : word m' a i' = word m a i'.
Proof. unfold word. rewrite lf_page; [done|]. intros E. by apply lf_ne. Qed.

Lemma lf_child i' : child m' a i' = child m a i'.
Proof. unfold child. by rewrite lf_word. Qed.

Lemma lf_sibling i' : 0 <= i' < 512 -> i' <> j -> pv (word m a i') = true ->
  ptree (S n) m' (child m a i') = ptree (S n) m (child m a i') /\ pinner (S n) m' (child m a i') = pinner (S n) m (child m a i').
Proof.
  intros Hi N V. apply pframe. intros c Hc. apply lf_page. intros ->. apply pinner_ptree in Hc.
  apply (siblings_apart (S n) m a i' j t Hnd Hi (PX_bound _ _) N V Hv Hc). apply pinner_ptree, lf_t.
Qed.

Lemma lf_split x : x ∈ ptree (S (S n)) m' a <->
  x = a \/ exists i', 0 <= i' < 512 /\ pv (word m a i') = true /\ x ∈ ptree (S n) m' (child m a i').
Proof.
  rewrite elem_ptree. split; (intros [H|(i' & H)]; [by left|right; exists i']);
    pose proof (lf_word i') as Ew; pose proof (lf_child i') as Ec; congruence.
Qed.

Lemma lf_elem x : x ∈ ptree (S (S n)) m' a <->
  x ∈ ptree (S (S n)) m a /\ ~ (pv (word m t i) = true /\ x = child m t i) \/ pv e = true /\ x = PTE2PA e.
Proof.
  pose proof (PX_bound (Z.of_nat (S n)) va) as Hj. fold j in Hj. rewrite lf_split, (elem_ptree (S n) m). split.
  - intros [->|(i' & Hi & V & E)].
    + left. split; [by left|]. intros [V E]. pose proof (plook_child n m _ va t i Hl V) as H. rewrite <- E in H.
      by apply (root_not_child (S n) m a j Hnd Hj Hv).
    + destruct (decide (i' = j)) as [->|N].
      * apply (lu_elem U) in E as [[E1 E2]|E]; [|by right]. left. split; [right; by exists j|done].
      * rewrite (proj1 (lf_sibling i' Hi N V)) in E. left. split; [right; by exists i'|]. intros [V' ->].
        apply (siblings_apart (S n) m a i' j _ Hnd Hi Hj N V Hv E). exact (plook_child n m _ va t i Hl V').
  - intros [[[->|(i' & Hi & V & E)] N]|E]; [by left| |].
    + right. exists i'. split; [done|]. split; [done|]. destruct (decide (i' = j)) as [->|Ne].
      * apply (lu_elem U). by left.
      * by rewrite (proj1 (lf_sibling i' Hi Ne V)).
    + right. exists j. split; [done|]. split; [done|]. apply (lu_elem U). by right.
Qed.

Lemma lf_nodup : NoDup (ptree (S (S n)) m' a).
Proof.
  pose proof (PX_bound (Z.of_nat (S n)) va) as Hj. fold j in Hj. apply (NoDup_entry (S n) m m' a j Hj Hnd); rewrite ?lf_child, ?lf_word.
  - intros i' Hi N. split; [apply lf_word|]. intros V. by apply lf_sibling.
  - intros _. apply (lu_nodup U).
  - intros x _ E. apply (lu_elem U) in E as [[E1 E2]|[V ->]]; [by left|].
    destruct (Hx V) as [H|[V' E]]; [by right|]. left. split; [done|]. rewrite E. exact (plook_child n m _ va t i Hl V').
Qed.

Lemma leaf_upd_S : leaf_upd (S n) a va t i e m m'.
Proof.
  pose proof (PX_bound (Z.of_nat (S n)) va) as Hj. fold j in Hj. split; [| |exact lf_nodup|exact lf_elem|].
  - intros va' [E S]. unfold tr. cbn [plook]. rewrite lf_word, E. fold j. rewrite Hv. by apply (lu_same U).
  - intros va' N. destruct (decide (PX (Z.of_nat (S n)) va' = j)) as [E|Ne].
    + unfold tr. cbn [plook]. rewrite lf_word, E, Hv. apply (lu_other U). intros S. apply N. by split.
    + unfold tr. cbn [plook]. rewrite lf_word. destruct (pv (word m a (PX (Z.of_nat (S n)) va'))) eqn:V; [|done].
      apply (tr_frame n m m'). intros c Hc. apply lf_page. intros ->. apply pinner_ptree in Hc.
      apply (siblings_apart (S n) m a _ j t Hnd (PX_bound _ _) Hj Ne V Hv Hc). apply pinner_ptree, lf_t.
  - rewrite !(pinner_S (S n)). f_equal. apply flat_map_ext_elem. intros i' Hi. apply elem_of_seqZ in Hi. rewrite lf_word.
    destruct (pv (word m a i')) eqn:V; [|done]. destruct (decide (i' = j)) as [->|N]; [apply (lu_inner U)|].
    apply (lf_sibling i' ltac:(lia) N V).
Qed.
End Leaf.

Lemma leaf_put n a va t i e m :
  pages_ok m -> 0 <= e < 2 ^ 64 -> NoDup (ptree (S n) m a) -> plook n m a va = Some (t, i) ->
  (pv e = true -> PTE2PA e ∉ ptree (S n) m a \/ pv (word m t i) = true /\ PTE2PA e = child m t i) ->
  leaf_upd n a va t i e m (put_word t i e m).
Proof.
  intros Hp He. revert a. induction n as [|n IH]; intros a Hnd Hl Hx.
  - cbn [plook] in Hl. simplify_eq. by apply leaf_upd_0.
  - cbn [plook] in Hl. destruct (pv (word m a (PX (Z.of_nat (S n)) va))) eqn:Hv; [|done].
    apply leaf_upd_S; [exact Hnd|exact Hv|exact Hl|exact Hx|]. apply IH; [exact (NoDup_child _ _ _ _ Hnd (PX_bound _ _) Hv)|exact Hl|].
    intros V. destruct (Hx V) as [H|H]; [left|by right]. intros Hin. apply H. exact (ptree_child (S n) m a _ _ (PX_bound _ _) Hv Hin).
Qed.

(** ** Lemmas: mapped pages are distinct, and are not table pages *)

Lemma leaf_not_inner n m a va t i : NoDup (ptree (S n) m a) -> plook n m a va = Some (t, i) -> pv (word m t i) = true ->
  child m t i ∉ pinner (S n) m a.
Proof.
  revert a. induction n as [|n IH]; intros a Hnd E V Hin; rewrite pinner_S, elem_of_cons, elem_flat_map in Hin; cbn [plook] in E.
  - simplify_eq. destruct Hin as [Hin|(j & _ & Hin)].
    + apply (root_not_child 0 m t (PX 0 va) Hnd (PX_bound _ _) V), elem_ptree_0. done.
    + destruct (pv (word m t j)); [by apply elem_pinner_0 in Hin|by apply not_elem_of_nil in Hin].
  - set (j := PX (Z.of_nat (S n)) va) in *. destruct (pv (word m a j)) eqn:Vj; [|done].
    pose proof (plook_child n m _ va t i E V) as Hc. pose proof (PX_bound (Z.of_nat (S n)) va) as Hj. fold j in Hj.
    destruct Hin as [Hin|(j' & Hj' & Hin)].
    + rewrite Hin in Hc. exact (root_not_child (S n) m a j Hnd Hj Vj Hc).
    + apply elem_of_seqZ in Hj'. destruct (pv (word m a j')) eqn:Vj'; [|by apply not_elem_of_nil in Hin]. fold (child m a j') in Hin.
      destruct (decide (j' = j)) as [->|N]; [exact (IH (child m a j) (NoDup_child _ _ _ _ Hnd Hj Vj) E V Hin)|].
      exact (siblings_apart (S n) m a j' j _ Hnd ltac:(lia) Hj N Vj' Vj (pinner_ptree _ _ _ _ Hin) Hc).
Qed.

Lemma leaf_inj n m a va t i va' t' i' : NoDup (ptree (S n) m a) -> plook n m a va = Some (t, i) -> plook n m a va' = Some (t', i') ->
  pv (word m t i) = true -> pv (word m t' i') = true -> child m t i = child m t' i' -> same_px n va va'.
Proof.
  revert a. induction n as [|n IH]; intros a Hnd E E' V V' Hc; cbn [plook] in E, E'.
  - simplify_eq. split; [|done]. change (Z.of_nat 0) with 0. destruct (decide (PX 0 va' = PX 0 va)) as [|N]; [done|].
    exfalso. apply (siblings_apart 0 m t (PX 0 va) (PX 0 va') (child m t (PX 0 va)) Hnd (PX_bound _ _) (PX_bound _ _) ltac:(congruence) V V');
      apply elem_ptree_0; done.
  - set (j := PX (Z.of_nat (S n)) va) in *. set (j' := PX (Z.of_nat (S n)) va') in *.
    destruct (pv (word m a j)) eqn:Vj; [|done]. destruct (pv (word m a j')) eqn:Vj'; [|done].
    pose proof (PX_bound (Z.of_nat (S n)) va) as Hj. fold j in Hj. pose proof (PX_bound (Z.of_nat (S n)) va') as Hj'. fold j' in Hj'.
    destruct (decide (j' = j)) as [Ej|N].
    + rewrite Ej in E'. split; [exact Ej|]. exact (IH (child m a j) (NoDup_child _ _ _ _ Hnd Hj Vj) E E' V V' Hc).
    + exfalso. pose proof (plook_child n m _ va t i E V) as H. pose proof (plook_child n m _ va' t' i' E' V') as H'. rewrite <- Hc in H'.
      exact (siblings_apart (S n) m a j' j _ Hnd Hj' Hj N Vj' Vj H' H).
Qed.
