(* ===== verification/Uvm.v ===== *)
(** * User address spaces (kernel/vm.c)

    [space_ok] is the invariant of an address space: a page-table tree of
    distinct pages, apart from the free list.  Under it mappages and uvmunmap
    are updates of the translation [trans], and copyin and copyout are reads
    and writes of a virtual memory ([ubyte]). *)
From S2P Require Import Prelude Str Bio Log Crash Machine Types Vm Codec Kmem Pgtbl.
Local Open Scope st_scope.

Record space_ok (k : kst) (pt : Z) (fl : list Z) : Prop := {
  so_mem : mem_ok k fl;
  so_root : pt mod PGSIZE = 0;
  so_nodup : NoDup (ptree 3 (k_mem k) pt);
  so_free : forall x, x ∈ ptree 3 (k_mem k) pt -> x ∉ fl;
  so_pos : forall x, x ∈ pinner 3 (k_mem k) pt -> 0 < x
}.

#[global] Arguments so_mem {_ _ _}.
#[global] Arguments so_root {_ _ _}.
#[global] Arguments so_nodup {_ _ _}.
#[global] Arguments so_free {_ _ _}.
#[global] Arguments so_pos {_ _ _}.

(** The entry mappages stores. *)
Definition mapent (pa perm : Z) : Z := Z.lor (Z.lor (PA2PTE pa) perm) PTE_V.

(** The address space of [pt] became [v]; [new] are the pages it maps that
    it did not have before, table pages come off the free list. *)
Record remapped (k : kst) (pt : Z) (fl : list Z) (new : list Z) (v : Z -> option Z) (k' : kst) (fl' : list Z) : Prop := {
  rm_ok : space_ok k' pt fl';
  rm_only : only_mem k k';
  rm_fl : forall x, x ∈ fl' -> x ∈ fl;
  rm_frame : same_pages (k_mem k) (k_mem k') (pinner 3 (k_mem k) pt ++ fl);
  rm_elem : forall x, x ∈ ptree 3 (k_mem k') pt -> x ∈ ptree 3 (k_mem k) pt \/ x ∈ fl \/ x ∈ new;
  rm_inner : forall x, x ∈ pinner 3 (k_mem k') pt -> x ∈ pinner 3 (k_mem k) pt \/ x ∈ fl;
  rm_tr : forall va, 0 <= va < MAXVA -> trans (k_mem k') pt va = v va
}.

#[global] Arguments rm_ok {_ _ _ _ _ _ _}.
#[global] Arguments rm_only {_ _ _ _ _ _ _}.
#[global] Arguments rm_fl {_ _ _ _ _ _ _}.
#[global] Arguments rm_frame {_ _ _ _ _ _ _}.
#[global] Arguments rm_elem {_ _ _ _ _ _ _}.
#[global] Arguments rm_inner {_ _ _ _ _ _ _}.
#[global] Arguments rm_tr {_ _ _ _ _ _ _}.

(** Translations after [n] pages from [a] on were mapped to [pa] on. *)
Definition map_range (a pa perm n : Z) (v : Z -> option Z) (va : Z) : option Z :=
  if (a <=? va) && (va <? a + PGSIZE * n) then Some (mapent (pa + (PGROUNDDOWN va - a)) perm) else v va.

(** ** Lemmas *)

Lemma free_pos k fl x : mem_ok k fl -> x ∈ fl -> 0 < x < PHYSTOP /\ x mod PGSIZE = 0.
Proof.
  intros [_ E _ _ I] Hx. rewrite Forall_forall in I. destruct (I x Hx) as [H1 H2]. lia.
Qed.

Lemma space_grown k pt fl k' fl' taken : space_ok k pt fl -> grown 2 pt k fl k' fl' taken ->
  remapped k pt fl [] (trans (k_mem k) pt) k' fl'.
Proof.
  intros [Mk R N F P] G. pose proof (gr_fl G) as Ef. pose proof (mo_nodup Mk) as Nf. rewrite Ef in Nf.
  apply NoDup_app in Nf as (_ & Nf & _). split.
  - split; [apply (gr_mem G)|exact R|apply (gr_nodup G)| |].
    + intros x Hx Hf. apply (gr_sub G) in Hx as [Hx|Hx]; [apply (F x Hx); rewrite Ef; apply elem_of_app; by right|by apply (Nf x)].
    + intros x Hx. apply (gr_inner G) in Hx as [Hx|Hx]; [by apply P|].
      apply (free_pos k fl x Mk). rewrite Ef. apply elem_of_app. by left.
  - apply (gr_only G).
  - intros x Hx. rewrite Ef. apply elem_of_app. by right.
  - intros x Hx. apply (gr_frame G). rewrite Ef, !elem_of_app in Hx. rewrite elem_of_app. tauto.
  - intros x Hx. apply (gr_sub G) in Hx as [Hx|Hx]; [by left|]. right. left. rewrite Ef. apply elem_of_app. by left.
  - intros x Hx. apply (gr_inner G) in Hx as [Hx|Hx]; [by left|]. right. rewrite Ef. apply elem_of_app. by left.
  - intros va _. apply (gr_tr G).
Qed.

Lemma remapped_refl k pt fl : space_ok k pt fl -> remapped k pt fl [] (trans (k_mem k) pt) k fl.
Proof. intros S. apply (space_grown k pt fl k fl [] S). exact (grown_refl 2 pt k fl (so_mem S) (so_nodup S)). Qed.

Lemma remapped_trans k pt fl new1 v1 k1 fl1 new2 v2 k2 fl2 :
  remapped k pt fl new1 v1 k1 fl1 -> remapped k1 pt fl1 new2 v2 k2 fl2 -> remapped k pt fl (new1 ++ new2) v2 k2 fl2.
Proof.
  intros A B. pose proof (rm_fl A) as Hs. split.
  - apply (rm_ok B).
  - apply (only_mem_trans k k1 k2); [apply (rm_only A)|apply (rm_only B)].
  - intros x Hx. apply Hs. by apply (rm_fl B).
  - intros x Hx. rewrite elem_of_app in Hx. rewrite (rm_frame B), (rm_frame A); [done|by rewrite elem_of_app|].
    rewrite elem_of_app. intros [H|H]; [|apply Hx; right; by apply Hs]. apply (rm_inner A) in H. tauto.
  - intros x Hx. rewrite elem_of_app. apply (rm_elem B) in Hx as [Hx|[Hx|Hx]].
    + apply (rm_elem A) in Hx. tauto.
    + right. left. by apply Hs.
    + tauto.
  - intros x Hx. apply (rm_inner B) in Hx as [Hx|Hx]; [by apply (rm_inner A)|right; by apply Hs].
  - apply (rm_tr B).
Qed.

Lemma remapped_ext k pt fl new v v' k' fl' : (forall va, 0 <= va < MAXVA -> v va = v' va) ->
  remapped k pt fl new v k' fl' -> remapped k pt fl new v' k' fl'.
Proof. intros H [A B C D E F G]. split; [exact A|exact B|exact C|exact D|exact E|exact F|]. intros va Hva. rewrite <- H by exact Hva. by apply G. Qed.

(** A last-level entry is stored. *)
Definition upd_page (va : Z) (e : option Z) (v : Z -> option Z) (va' : Z) : option Z :=
  if va' / PGSIZE =? va / PGSIZE then e else v va'.

Lemma space_leaf k pt fl va t i e new : space_ok k pt fl -> plook 2 (k_mem k) pt va = Some (t, i) -> 0 <= va < MAXVA -> 0 <= e < 2 ^ 64 ->
  (pv e = true -> PTE2PA e ∉ fl /\ PTE2PA e ∈ new /\
    (PTE2PA e ∉ ptree 3 (k_mem k) pt \/ pv (word (k_mem k) t i) = true /\ PTE2PA e = child (k_mem k) t i)) ->
  remapped k pt fl new (upd_page va (if pv e then Some e else None) (trans (k_mem k) pt)) (set_mem (put_word t i e) k) fl /\
  leaf_upd 2 pt va t i e (k_mem k) (put_word t i e (k_mem k)).
Proof.
  intros [Mk R N F P] Hl Hva He Hx. pose proof (plook_inner _ _ _ _ _ _ Hl) as Ht. destruct (plook_aligned _ _ _ _ _ _ R Hl) as [Ha Hi].
  assert (U : leaf_upd 2 pt va t i e (k_mem k) (put_word t i e (k_mem k))).
  { apply leaf_put; [apply (mo_pages Mk)|exact He|exact N|exact Hl|]. intros V. destruct (Hx V) as (_ & _ & H). exact H. }
  assert (Hsame : same_pages (k_mem k) (put_word t i e (k_mem k)) [t]).
  { intros x Hx'. apply not_elem_of_cons in Hx' as [Hx' _]. unfold put_word. by rewrite page_insert, decide_False. }
  split; [|exact U]. change (k_mem (set_mem ?f ?x)) with (f (k_mem x)). split; change (k_mem (set_mem ?f ?x)) with (f (k_mem x)).
  - split; change (k_mem (set_mem ?f ?x)) with (f (k_mem x)).
    + apply (mem_ok_set k fl _ [t] Mk); [by apply pages_ok_put_word, Hi; apply (mo_pages Mk)|exact Hsame|].
      intros p Hp Hp'. apply list_elem_of_singleton in Hp' as ->. by apply (F t), Hp; apply pinner_ptree.
    + exact R.
    + apply (lu_nodup U).
    + intros x Hx'. apply (lu_elem U) in Hx' as [[Hx' _]|[V ->]]; [by apply F|by apply Hx].
    + rewrite (lu_inner U). exact P.
  - by destruct k.
  - intros x Hx'. exact Hx'.
  - intros x Hx'. apply Hsame. rewrite elem_of_app in Hx'. rewrite list_elem_of_singleton. intros ->. tauto.
  - intros x Hx'. apply (lu_elem U) in Hx' as [[Hx' _]|[V ->]]; [by left|]. right. right. by apply Hx.
  - intros x. rewrite (lu_inner U). by left.
  - intros va' Hva'. unfold upd_page. destruct (Z.eqb_spec (va' / PGSIZE) (va / PGSIZE)) as [E|Ne].
    + apply (lu_same U). apply same_px_page; [lia|lia|exact E].
    + apply (lu_other U). intros S. apply Ne. apply same_px_page in S; [exact S|lia|lia].
Qed.

(** ** Lemmas: mappages *)

Lemma mapent_fields pa perm : pa mod PGSIZE = 0 -> 0 <= pa < 2 ^ 56 -> 0 <= perm < 1024 ->
  PTE2PA (mapent pa perm) = pa /\ PTE_FLAGS (mapent pa perm) = Z.lor perm PTE_V /\ pv (mapent pa perm) = true /\ 0 <= mapent pa perm < 2 ^ 64.
Proof.
  intros Ha Hp Hf. unfold mapent. rewrite <- Z.lor_assoc.
  assert (Hl : 0 <= Z.lor perm PTE_V < 1024).
  { split; [apply Z.lor_nonneg; lia|]. destruct (decide (Z.lor perm PTE_V = 0)) as [->|]; [lia|]. change 1024 with (2 ^ 10).
    apply Z.log2_lt_pow2; [pose proof (proj2 (Z.lor_nonneg perm PTE_V)); lia|].
    rewrite Z.log2_lor by lia. change (Z.log2 PTE_V) with 0.
    destruct (decide (perm = 0)) as [->|]; [done|]. assert (Z.log2 perm < 10) by (apply Z.log2_lt_pow2; lia). lia. }
  destruct (pte_fields pa (Z.lor perm PTE_V) Ha Hp Hl) as (E1 & E2 & E3). split; [exact E1|]. split; [exact E2|]. split; [|exact E3].
  rewrite pv_flags, E2. unfold pv. rewrite Z.land_lor_distr_l. change (Z.land PTE_V PTE_V) with 1.
  destruct (Z.eqb_spec (Z.lor (Z.land perm PTE_V) 1) 0) as [E|]; [|done]. apply Z.lor_eq_0_iff in E. lia.
Qed.

Lemma walk_alloc_space pt va k fl : space_ok k pt fl -> 0 <= va < MAXVA ->
  exists r k' fl', walk pt va true k = Ok r k' /\ remapped k pt fl [] (trans (k_mem k) pt) k' fl' /\ walk_res 2 (k_mem k') pt va r fl'.
Proof.
  intros S Hva. pose proof S as [Mk R N F P]. destruct (walk_alloc_run 2 pt va k fl Mk R N F) as (r & k' & fl' & taken & E & G & W).
  exists r, k', fl'. unfold walk. destruct (Z.leb_spec MAXVA va); [lia|]. split; [exact E|]. split; [|exact W]. by apply (space_grown k pt fl k' fl' taken).
Qed.

Lemma tr_plook n m a va t i : plook n m a va = Some (t, i) -> tr n m a va = if pv (word m t i) then Some (word m t i) else None.
Proof. intros E. unfold tr. by rewrite E. Qed.

(** One iteration of mappages. *)
Definition map_page (pt a pa perm : Z) : stM kst Z :=
  pte <- walk pt a true;
  if pte =? 0 then sret (-1)
  else
    e <- ldm64 pte;
    if negb (Z.land e PTE_V =? 0) then spanic "mappages: remap"
    else stm64 pte (mapent pa perm);; sret 0.

Lemma map_page_run pt a pa perm k fl :
  space_ok k pt fl -> 0 <= a < MAXVA -> pa mod PGSIZE = 0 -> 0 <= pa < 2 ^ 56 -> 0 <= perm < 1024 ->
  trans (k_mem k) pt a = None -> pa ∉ ptree 3 (k_mem k) pt -> pa ∉ fl ->
  exists r k' fl', map_page pt a pa perm k = Ok r k' /\
    (r = 0 /\ remapped k pt fl [pa] (upd_page a (Some (mapent pa perm)) (trans (k_mem k) pt)) k' fl' \/
     r = -1 /\ fl' = [] /\ remapped k pt fl [] (trans (k_mem k) pt) k' fl').
Proof.
  intros S Ha Hp1 Hp2 Hperm Ht Hin Hfl. destruct (mapent_fields pa perm Hp1 Hp2 Hperm) as (E1 & _ & V & B).
  destruct (walk_alloc_space pt a k fl S Ha) as (r & k1 & fl1 & E & G & W). pose proof (rm_ok G) as S1.
  unfold map_page, sbind at 1. rewrite E. unfold walk_res in W. pose proof (rm_tr G a Ha) as T1. rewrite Ht in T1.
  destruct (plook 2 (k_mem k1) pt a) as [[t i]|] eqn:L.
  2:{ destruct W as [-> ->]. exists (-1), k1, []. split; [done|]. by right. }
  subst r. destruct (plook_aligned _ _ _ _ _ _ (so_root S1) L) as [Hta Hi]. pose proof (so_pos S1 t (plook_inner _ _ _ _ _ _ L)).
  destruct (Z.eqb_spec (t + 8 * i) 0); [lia|]. unfold sbind at 1. rewrite ldm64_run by assumption. fold (pv (word (k_mem k1) t i)).
  unfold trans in T1. rewrite (tr_plook _ _ _ _ _ _ L) in T1. destruct (pv (word (k_mem k1) t i)) eqn:V1; [congruence|].
  unfold sbind. rewrite stm64_run by assumption.
  exists 0, (set_mem (put_word t i (mapent pa perm)) k1), fl1. split; [done|]. left. split; [done|].
  apply (remapped_trans k pt fl [] _ k1 fl1 [pa] _ _ _ G).
  destruct (space_leaf k1 pt fl1 a t i (mapent pa perm) [pa] S1 L Ha B) as [Hr _].
  { intros _. rewrite E1. split; [intros Hf; apply Hfl; by apply (rm_fl G)|]. split; [by apply list_elem_of_singleton|].
    left. intros Hx. apply (rm_elem G) in Hx as [Hx|[Hx|Hx]]; [done|done|by apply not_elem_of_nil in Hx]. }
  rewrite V in Hr. apply (remapped_ext _ _ _ _ _ _ _ _) with (2 := Hr). intros va' Hva'. unfold upd_page.
  destruct (_ =? _); [done|]. by apply (rm_tr G).
Qed.

Lemma mappages_loop_S n pt a pa perm k : mappages_loop (S n) pt a pa perm k =
  (r <- map_page pt a pa perm; if r =? 0 then mappages_loop n pt (a + PGSIZE) (pa + PGSIZE) perm else sret r) k.
Proof.
  cbn [mappages_loop]. unfold map_page, sbind. destruct (walk pt a true k) as [r k1| | |]; [|done..]. destruct (r =? 0); [done|].
  destruct (ldm64 r k1) as [e k2| | |]; [|done..]. by destruct (negb _).
Qed.

Lemma map_range_0 a pa perm v va : map_range a pa perm 0 v va = v va.
Proof. unfold map_range. destruct (Z.leb_spec a va), (Z.ltb_spec va (a + PGSIZE * 0)); cbn [andb]; done || lia. Qed.

Lemma page_down va a : a mod PGSIZE = 0 -> a <= va < a + PGSIZE -> PGROUNDDOWN va = a.
Proof. intros Ha H. unfold PGROUNDDOWN. pose proof (Z.div_mod a PGSIZE ltac:(lia)). pose proof (Z.div_mod va PGSIZE ltac:(lia)). pose proof (Z.mod_pos_bound va PGSIZE ltac:(lia)). lia. Qed.

Lemma map_range_S a pa perm n v va : a mod PGSIZE = 0 -> 0 <= n ->
  map_range (a + PGSIZE) (pa + PGSIZE) perm n (upd_page a (Some (mapent pa perm)) v) va = map_range a pa perm (n + 1) v va.
Proof.
  intros Ha Hn. unfold map_range, upd_page. pose proof (Z.div_mod a PGSIZE ltac:(lia)). pose proof (Z.div_mod va PGSIZE ltac:(lia)).
  pose proof (Z.mod_pos_bound va PGSIZE ltac:(lia)).
  destruct (Z.leb_spec (a + PGSIZE) va), (Z.ltb_spec va (a + PGSIZE + PGSIZE * n)), (Z.leb_spec a va), (Z.ltb_spec va (a + PGSIZE * (n + 1)));
    cbn [andb]; try lia.
  - do 2 f_equal. lia.
  - destruct (Z.eqb_spec (va / PGSIZE) (a / PGSIZE)); [lia|done].
  - destruct (Z.eqb_spec (va / PGSIZE) (a / PGSIZE)); [|lia]. rewrite (page_down va a) by lia. do 2 f_equal. lia.
  - destruct (Z.eqb_spec (va / PGSIZE) (a / PGSIZE)); [lia|done].
Qed.

Lemma mappages_loop_run n pt a pa perm k fl :
  space_ok k pt fl -> a mod PGSIZE = 0 -> 0 <= a -> a + PGSIZE * Z.of_nat n <= MAXVA ->
  pa mod PGSIZE = 0 -> 0 <= pa -> pa + PGSIZE * Z.of_nat n <= 2 ^ 56 -> 0 <= perm < 1024 ->
  (forall i, 0 <= i < Z.of_nat n -> trans (k_mem k) pt (a + PGSIZE * i) = None) ->
  (forall x, x ∈ page_list pa n -> x ∉ ptree 3 (k_mem k) pt /\ x ∉ fl) ->
  exists r k' fl' j, mappages_loop n pt a pa perm k = Ok r k' /\
    remapped k pt fl (page_list pa j) (map_range a pa perm (Z.of_nat j) (trans (k_mem k) pt)) k' fl' /\
    (r = 0 /\ j = n \/ r = -1 /\ (j < n)%nat /\ fl' = []).
Proof.
  revert a pa k fl. induction n as [|n IH]; intros a pa k fl S Ha1 Ha2 Ha3 Hp1 Hp2 Hp3 Hperm Ht Hin.
  - exists 0, k, fl, 0%nat. split; [done|]. split; [|by left].
    apply (remapped_ext _ _ _ _ (trans (k_mem k) pt)); [intros va _; by rewrite map_range_0|].
    by apply remapped_refl.
  - assert (Hpa : pa ∈ page_list pa (Datatypes.S n)) by (rewrite page_list_S; apply elem_of_cons; by left).
    destruct (Hin pa Hpa) as [Hi1 Hi2]. assert (Ht0 : trans (k_mem k) pt a = None) by (rewrite <- (Ht 0) by lia; f_equal; lia).
    destruct (map_page_run pt a pa perm k fl S ltac:(lia) Hp1 ltac:(lia) Hperm Ht0 Hi1 Hi2) as (r & k1 & fl1 & E & [[-> G]|(-> & -> & G)]);
      rewrite mappages_loop_S; unfold sbind at 1; rewrite E.
    2:{ exists (-1), k1, [], 0%nat. split; [done|]. split; [|right; split; [done|]; split; [lia|done]].
        apply (remapped_ext _ _ _ _ (trans (k_mem k) pt)); [intros va _; by rewrite map_range_0|exact G]. }
    cbn [Z.eqb]. destruct (IH (a + PGSIZE) (pa + PGSIZE) k1 fl1) as (r & k' & fl' & j & E' & G' & D).
    + apply (rm_ok G).
    + rewrite <- Zplus_mod_idemp_r, Z_mod_same_full. by rewrite Z.add_0_r.
    + lia.
    + lia.
    + rewrite <- Zplus_mod_idemp_r, Z_mod_same_full. by rewrite Z.add_0_r.
    + lia.
    + lia.
    + exact Hperm.
    + intros i Hi. rewrite (rm_tr G) by lia. unfold upd_page. pose proof (Z.div_mod a PGSIZE ltac:(lia)).
      assert ((a + PGSIZE + PGSIZE * i) / PGSIZE = a / PGSIZE + 1 + i) as ->.
      { replace (a + PGSIZE + PGSIZE * i) with (a + (1 + i) * PGSIZE) by lia. rewrite Z.div_add by lia. lia. }
      destruct (Z.eqb_spec (a / PGSIZE + 1 + i) (a / PGSIZE)); [lia|]. rewrite <- (Ht (i + 1)) by lia. f_equal. lia.
    + intros x Hx. destruct (Hin x) as [H1 H2]; [rewrite page_list_S; apply elem_of_cons; by right|]. split.
      * intros Hx'. apply (rm_elem G) in Hx' as [Hx'|[Hx'|Hx']]; [done|done|]. apply list_elem_of_singleton in Hx' as ->.
        apply elem_page_list in Hx. lia.
      * intros Hx'. apply H2. by apply (rm_fl G).
    + exists r, k', fl', (Datatypes.S j). split; [exact E'|]. rewrite page_list_S. split.
      * apply (remapped_trans k pt fl [pa] _ k1 fl1 (page_list (pa + PGSIZE) j) _ _ _ G).
        apply (remapped_ext _ _ _ _ _ _ _ _) with (2 := G'). intros va Hva. replace (Z.of_nat (Datatypes.S j)) with (Z.of_nat j + 1) by lia.
        rewrite <- map_range_S by (assumption || lia). unfold map_range. destruct (_ && _); [done|]. by apply (rm_tr G).
      * destruct D as [[-> ->]|(-> & Hj & ->)]; [by left|]. right. split; [done|]. split; [lia|done].
Qed.

(** ** Lemmas: virtual memory *)

(** The user byte at [va]. *)
Definition ubyte (m : pmem) (pt va : Z) : option Z :=
  let pa := uaddr m pt (PGROUNDDOWN va) in
  if pa =? 0 then None else Some (getb (va mod PGSIZE) (page m pa)).

Lemma walkaddr_space pt va k fl : space_ok k pt fl -> walkaddr pt va k = Ok (uaddr (k_mem k) pt va) k.
Proof.
  intros S. assert (Hr : 0 < pt) by (apply (so_pos S); rewrite pinner_S; apply elem_of_cons; by left).
  apply walkaddr_eq; [apply (so_root S)|exact Hr| |].
  - intros H. apply (so_pos S) in H. lia.
  - intros t H. apply (so_pos S) in H. lia.
Qed.

(** A page the user has at [va]: it is mapped, and it is the page of no other
    address, no table and not free. *)
Lemma uaddr_page k pt fl va : space_ok k pt fl -> 0 <= va -> uaddr (k_mem k) pt va <> 0 ->
  va < MAXVA /\ uaddr (k_mem k) pt va mod PGSIZE = 0 /\ uaddr (k_mem k) pt va ∈ ptree 3 (k_mem k) pt /\
  uaddr (k_mem k) pt va ∉ pinner 3 (k_mem k) pt /\
  forall va', 0 <= va' -> uaddr (k_mem k) pt va' = uaddr (k_mem k) pt va -> va' / PGSIZE = va / PGSIZE.
Proof.
  intros S Hva. unfold uaddr, trans, tr. destruct (Z.leb_spec MAXVA va); [done|].
  destruct (plook 2 (k_mem k) pt va) as [[t i]|] eqn:L; [|done]. destruct (pv (word (k_mem k) t i)) eqn:V; [|done].
  destruct (Z.land (word (k_mem k) t i) PTE_U =? 0); [done|]. intros Hne. split; [done|]. split; [apply PTE2PA_aligned|].
  split; [exact (plook_child 2 _ _ _ _ _ L V)|]. split; [exact (leaf_not_inner 2 _ _ _ _ _ (so_nodup S) L V)|].
  intros va' Hva'. destruct (Z.leb_spec MAXVA va'); [congruence|].
  destruct (plook 2 (k_mem k) pt va') as [[t' i']|] eqn:L'; [|congruence]. destruct (pv (word (k_mem k) t' i')) eqn:V'; [|congruence].
  destruct (Z.land (word (k_mem k) t' i') PTE_U =? 0); [congruence|]. intros Hc.
  apply same_px_page; [lia|lia|]. exact (leaf_inj 2 _ _ _ _ _ _ _ _ (so_nodup S) L L' V V' (eq_sym Hc)).
Qed.

(** Writing to a page that is neither a table nor free. *)
Lemma space_data k pt fl p d : space_ok k pt fl -> p ∉ pinner 3 (k_mem k) pt -> p ∉ fl -> length d = Z.to_nat PGSIZE ->
  space_ok (set_mem (insert p d) k) pt fl /\ (forall va, trans (<[p := d]> (k_mem k)) pt va = trans (k_mem k) pt va) /\
  ptree 3 (<[p := d]> (k_mem k)) pt = ptree 3 (k_mem k) pt /\ pinner 3 (<[p := d]> (k_mem k)) pt = pinner 3 (k_mem k) pt.
Proof.
  intros [Mk R N F P] Hp Hf Hd.
  assert (Hs : forall c, c ∈ pinner 3 (k_mem k) pt -> page (<[p := d]> (k_mem k)) c = page (k_mem k) c).
  { intros c Hc. rewrite page_insert, decide_False; [done|]. intros ->. done. }
  destruct (pframe 3 _ _ _ Hs) as [Et Ei]. split; [|split; [intros va; apply (tr_frame 2 _ _ _ va Hs)|split; [exact Et|exact Ei]]].
  split; change (k_mem (set_mem ?f ?x)) with (f (k_mem x)); rewrite ?Et, ?Ei; [|exact R|exact N|exact F|exact P].
  apply (mem_ok_set k fl _ [p] Mk); [by apply pages_ok_insert, Hd; apply (mo_pages Mk)| |].
  - intros x Hx. apply not_elem_of_cons in Hx as [Hx _]. by rewrite page_insert, decide_False.
  - intros x Hx Hx'. apply list_elem_of_singleton in Hx' as ->. done.
Qed.

Lemma pm_write_page pa off d m : pa mod PGSIZE = 0 -> 0 <= off < PGSIZE -> pm_write (pa + off) d m = <[pa := splice off d (page m pa)]> m.
Proof.
  intros Ha Ho. unfold pm_write, pg_of. assert (E : (pa + off) mod PGSIZE = off).
  { rewrite <- Zplus_mod_idemp_l, Ha. by apply Z.mod_small. }
  rewrite E. by replace (pa + off - off) with pa by lia.
Qed.

Lemma pm_read_page pa off n m : pa mod PGSIZE = 0 -> 0 <= off < PGSIZE -> pm_read m (pa + off) n = sub off n (page m pa).
Proof.
  intros Ha Ho. unfold pm_read, pg_of. assert (E : (pa + off) mod PGSIZE = off).
  { rewrite <- Zplus_mod_idemp_l, Ha. by apply Z.mod_small. }
  rewrite E. by replace (pa + off - off) with pa by lia.
Qed.

Lemma page_split va : PGROUNDDOWN va + va mod PGSIZE = va /\ 0 <= va mod PGSIZE < PGSIZE /\ PGROUNDDOWN va mod PGSIZE = 0.
Proof.
  unfold PGROUNDDOWN. pose proof (Z.div_mod va PGSIZE ltac:(lia)). split; [lia|]. split; [apply Z.mod_pos_bound; lia|].
  replace (va - va mod PGSIZE) with (va / PGSIZE * PGSIZE) by lia. apply Z.mod_mul. lia.
Qed.

Lemma page_down_nonneg va : 0 <= va -> 0 <= PGROUNDDOWN va.
Proof. intros H. unfold PGROUNDDOWN. pose proof (Z.mod_le va PGSIZE). lia. Qed.

Lemma plook_px n m a va va' : same_px n va va' -> plook n m a va' = plook n m a va.
Proof.
  revert a. induction n as [|n IH]; intros a [E H]; cbn [plook]; [change (Z.of_nat 0) with 0 in E; by rewrite E|].
  rewrite E. destruct (pv _); [by apply IH|done].
Qed.

(** Translations are the same in a page. *)
Lemma trans_down m pt va : 0 <= va < MAXVA -> trans m pt va = trans m pt (PGROUNDDOWN va).
Proof.
  intros Hva. destruct (page_split va) as (E & B & A). pose proof (page_down_nonneg va ltac:(lia)). unfold trans, tr.
  rewrite (plook_px 2 m pt va (PGROUNDDOWN va)); [done|]. apply same_px_page; [lia|lia|].
  pose proof (Z.div_mod va PGSIZE ltac:(lia)). unfold PGROUNDDOWN. replace (va - va mod PGSIZE) with (va / PGSIZE * PGSIZE) by lia. by apply Z.div_mul.
Qed.

Lemma page_near va i : 0 <= i < PGSIZE - va mod PGSIZE -> PGROUNDDOWN (va + i) = PGROUNDDOWN va /\ (va + i) mod PGSIZE = va mod PGSIZE + i.
Proof.
  intros Hi. destruct (page_split va) as (E & B & A). split; [apply page_down; [done|lia]|].
  rewrite <- E at 1. rewrite <- Z.add_assoc, <- Zplus_mod_idemp_l, A. apply Z.mod_small. lia.
Qed.

(** ** Lemmas: copyin *)

Lemma copyin_loop_run fuel pt va len acc k fl :
  space_ok k pt fl -> 0 <= va -> 0 <= len -> va mod PGSIZE + len <= PGSIZE * (Z.of_nat fuel - 1) -> (0 < fuel)%nat ->
  exists r d, copyin_loop fuel pt va len acc k = Ok (r, acc ++ d) k /\
    (forall i, 0 <= i < zlen d -> ubyte (k_mem k) pt (va + i) = Some (getb i d)) /\
    (r = 0 /\ zlen d = len \/ r = -1 /\ zlen d < len /\ ubyte (k_mem k) pt (va + zlen d) = None).
Proof.
  intros S. revert va len acc. induction fuel as [|fuel IH]; intros va len acc Hva Hlen Hf Hf0; [lia|]. cbn [copyin_loop].
  destruct (Z.leb_spec len 0).
  { exists 0, []. rewrite app_nil_r. split; [done|]. unfold zlen. cbn. split; [lia|]. left. lia. }
  destruct (page_split va) as (E & B & A). pose proof (page_down_nonneg va Hva) as Hd0. unfold sbind at 1. rewrite (walkaddr_space pt _ k fl S).
  destruct (Z.eqb_spec (uaddr (k_mem k) pt (PGROUNDDOWN va)) 0) as [E0|Ne].
  { exists (-1), []. rewrite app_nil_r. split; [done|]. unfold zlen. cbn. split; [lia|]. right. split; [done|]. split; [lia|].
    unfold ubyte. rewrite Z.add_0_r, E0. done. }
  unfold sbind at 1, sget. replace (va - PGROUNDDOWN va) with (va mod PGSIZE) by lia.
  set (pa := uaddr (k_mem k) pt (PGROUNDDOWN va)) in *. set (n := Z.min (PGSIZE - va mod PGSIZE) len).
  destruct (uaddr_page k pt fl (PGROUNDDOWN va) S ltac:(lia) Ne) as (_ & Hpa & _). fold pa in Hpa. rewrite pm_read_page by assumption.
  assert (Hp : zlen (page (k_mem k) pa) = PGSIZE) by (unfold zlen; rewrite (mo_pages (so_mem S)); lia).
  assert (Hl : zlen (sub (va mod PGSIZE) n (page (k_mem k) pa)) = n).
  { unfold zlen. rewrite length_sub by lia. lia. }
  assert (Ep : (PGROUNDDOWN va + PGSIZE) mod PGSIZE = 0) by (rewrite <- Zplus_mod_idemp_l, A; done).
  destruct (IH (PGROUNDDOWN va + PGSIZE) (len - n) (acc ++ sub (va mod PGSIZE) n (page (k_mem k) pa))) as (r & d & E1 & Hd & D);
    [lia|lia|rewrite Ep; lia|lia|]. exists r, (sub (va mod PGSIZE) n (page (k_mem k) pa) ++ d).
  rewrite app_assoc. split; [exact E1|]. assert (Hz : zlen (sub (va mod PGSIZE) n (page (k_mem k) pa) ++ d) = n + zlen d).
  { unfold zlen in *. rewrite length_app. lia. }
  rewrite Hz. split.
  - intros i Hi. rewrite getb_app by lia. rewrite Hl. case_decide.
    + destruct (page_near va i ltac:(lia)) as [E2 E3]. unfold ubyte. rewrite E2. fold pa. rewrite (proj2 (Z.eqb_neq pa 0) Ne), E3.
      rewrite getb_sub by lia. done.
    + rewrite <- Hd by lia. f_equal. assert (n = PGSIZE - va mod PGSIZE) by lia. lia.
  - destruct D as [[-> D]|(-> & D1 & D2)]; [left; lia|right]. split; [done|]. assert (0 <= zlen d) by (unfold zlen; lia). split; [lia|]. rewrite <- D2. f_equal. lia.
Qed.

(** ** Lemmas: copyout *)

(** [va] got the bytes [d], the rest of the user memory is as before. *)
Definition uwrote (pt va : Z) (d : bytes) (m m' : pmem) : Prop :=
  forall a, 0 <= a -> ubyte m' pt a = if decide (va <= a < va + zlen d) then Some (getb (a - va) d) else ubyte m pt a.

(** Stores to the user's own pages. *)
Record ustored (k : kst) (pt : Z) (fl : list Z) (k' : kst) : Prop := {
  us_ok : space_ok k' pt fl;
  us_mem : k' = set_mem (fun _ => k_mem k') k;
  us_tr : forall va, trans (k_mem k') pt va = trans (k_mem k) pt va;
  us_tree : ptree 3 (k_mem k') pt = ptree 3 (k_mem k) pt;
  us_frame : same_pages (k_mem k) (k_mem k') (ptree 3 (k_mem k) pt)
}.

Lemma ustored_refl k pt fl : space_ok k pt fl -> ustored k pt fl k.
Proof. intros S. split; [exact S|by destruct k|reflexivity|reflexivity|]. intros x _. reflexivity. Qed.

Lemma ustored_trans k pt fl k1 k2 : ustored k pt fl k1 -> ustored k1 pt fl k2 -> ustored k pt fl k2.
Proof.
  intros [A1 A2 A3 A4 A5] [B1 B2 B3 B4 B5]. split; [exact B1| | | |].
  - rewrite B2, A2. by destruct k.
  - intros va. by rewrite B3.
  - by rewrite B4.
  - intros x Hx. rewrite B5, A5; [reflexivity|exact Hx|]. by rewrite A4.
Qed.

Lemma uaddr_trans m m' pt va : (forall va, trans m' pt va = trans m pt va) -> uaddr m' pt va = uaddr m pt va.
Proof. intros H. unfold uaddr. by rewrite H. Qed.

Lemma ustored_data k pt fl p d : space_ok k pt fl -> p ∈ ptree 3 (k_mem k) pt -> p ∉ pinner 3 (k_mem k) pt -> length d = Z.to_nat PGSIZE ->
  ustored k pt fl (set_mem (insert p d) k).
Proof.
  intros S Ht Hi Hd. destruct (space_data k pt fl p d S Hi (so_free S p Ht) Hd) as (S' & T & Tr & _).
  split; [exact S'|by destruct k|exact T|exact Tr|]. intros x Hx. change (k_mem (set_mem ?f ?x)) with (f (k_mem x)).
  rewrite page_insert, decide_False; [reflexivity|]. intros ->. exact (Hx Ht).
Qed.

Section Store.
  Context (k : kst) (pt : Z) (fl : list Z) (S : space_ok k pt fl).
  Context (va : Z) (d : bytes) (Hva : 0 <= va) (Hd : va mod PGSIZE + zlen d <= PGSIZE).
Let pa : Z := uaddr (k_mem k) pt (PGROUNDDOWN va).
  Context (Hpa : pa <> 0).
Let k' : kst := set_mem (pm_write (pa + va mod PGSIZE) d) k.

Lemma st_facts : pa mod PGSIZE = 0 /\ pa ∈ ptree 3 (k_mem k) pt /\ pa ∉ pinner 3 (k_mem k) pt /\ pa ∉ fl /\
  k_mem k' = <[pa := splice (va mod PGSIZE) d (page (k_mem k) pa)]> (k_mem k).
Proof.
  destruct (page_split va) as (E & B & A). pose proof (page_down_nonneg va Hva) as Hd0.
  destruct (uaddr_page k pt fl (PGROUNDDOWN va) S Hd0 Hpa) as (_ & H1 & H2 & H3 & _).
  split; [exact H1|]. split; [exact H2|]. split; [exact H3|]. split; [by apply (so_free S)|].
  unfold k'. change (k_mem (set_mem ?f ?x)) with (f (k_mem x)). by apply pm_write_page.
Qed.

Lemma st_len : zlen (page (k_mem k) pa) = PGSIZE.
Proof. unfold zlen. rewrite (mo_pages (so_mem S)). lia. Qed.

Lemma st_stored : ustored k pt fl k'.
Proof.
  destruct st_facts as (Ha & Ht & Hi & Hf & Em). pose proof st_len as Hl. destruct (page_split va) as (E & B & A).
  assert (Ek : k' = set_mem (insert pa (splice (va mod PGSIZE) d (page (k_mem k) pa))) k).
  { unfold k'. unfold set_mem. rewrite pm_write_page by assumption. reflexivity. }
  rewrite Ek. apply ustored_data; [exact S|exact Ht|exact Hi|]. rewrite length_splice by lia. apply (mo_pages (so_mem S)).
Qed.

Lemma st_wrote : uwrote pt va d (k_mem k) (k_mem k').
Proof.
  destruct st_facts as (Ha & _ & _ & _ & Em). pose proof st_len as Hl. destruct (page_split va) as (E & B & A).
  pose proof (page_down_nonneg va Hva) as Hd0. intros a Ha0. unfold ubyte.
  rewrite (uaddr_trans _ _ pt (PGROUNDDOWN a) (us_tr _ _ _ _ st_stored)), Em, page_insert.
  destruct (decide (PGROUNDDOWN a = PGROUNDDOWN va)) as [Ea|Na].
  - rewrite Ea. fold pa. rewrite (proj2 (Z.eqb_neq pa 0) Hpa). rewrite decide_True by done. destruct (page_split a) as (E' & B' & _).
    rewrite getb_splice by lia. do 2 case_decide; try lia; [|done]. do 2 f_equal. lia.
  - rewrite (decide_False (P := va <= a < va + zlen d)).
    + destruct (Z.eqb_spec (uaddr (k_mem k) pt (PGROUNDDOWN a)) 0); [done|]. rewrite decide_False; [done|]. intros Ep.
      destruct (uaddr_page k pt fl (PGROUNDDOWN va) S Hd0 Hpa) as (_ & _ & _ & _ & Inj). apply Na.
      specialize (Inj (PGROUNDDOWN a) (page_down_nonneg a Ha0) Ep). destruct (page_split a) as (_ & _ & A').
      pose proof (Z.div_mod (PGROUNDDOWN a) PGSIZE ltac:(lia)). pose proof (Z.div_mod (PGROUNDDOWN va) PGSIZE ltac:(lia)). lia.
    + intros H. apply Na. apply page_down; [exact A|lia].
Qed.
End Store.

Lemma uwrote_nil pt va m : uwrote pt va [] m m.
Proof. intros a Ha. rewrite decide_False; [done|]. unfold zlen. cbn. lia. Qed.

Lemma uwrote_app pt va va' d d' m m1 m2 : uwrote pt va d m m1 -> uwrote pt va' d' m1 m2 -> (d' <> [] -> va' = va + zlen d) ->
  uwrote pt va (d ++ d') m m2.
Proof.
  intros H1 H2 H3 a Ha. rewrite (H2 a Ha), (H1 a Ha). assert (zlen (d ++ d') = zlen d + zlen d') as -> by (unfold zlen; rewrite length_app; lia).
  assert (0 <= zlen d) by (unfold zlen; lia). destruct d' as [|b d'].
  - change (zlen (@nil Z)) with 0. rewrite decide_False, app_nil_r, Z.add_0_r by lia. done.
  - specialize (H3 ltac:(done)). subst va'. set (l := b :: d') in *. assert (0 <= zlen l) by (unfold zlen; lia).
    case_decide; [rewrite decide_True by lia; rewrite getb_app, decide_False by lia; do 2 f_equal; lia|].
    case_decide; [rewrite decide_True by lia; by rewrite getb_app, decide_True by lia|]. by rewrite decide_False by lia.
Qed.

Lemma copyout_loop_run fuel pt va src k fl :
  space_ok k pt fl -> 0 <= va -> va mod PGSIZE + zlen src <= PGSIZE * (Z.of_nat fuel - 1) -> (0 < fuel)%nat ->
  exists r k' d, copyout_loop fuel pt va src k = Ok r k' /\ ustored k pt fl k' /\ uwrote pt va d (k_mem k) (k_mem k') /\
    (r = 0 /\ d = src \/ r = -1 /\ zlen d < zlen src /\ d = take (length d) src /\ ubyte (k_mem k) pt (va + zlen d) = None).
Proof.
  revert va src k. induction fuel as [|fuel IH]; intros va src k S Hva Hf Hf0; [lia|]. cbn [copyout_loop].
  destruct (Z.eqb_spec (zlen src) 0) as [Hz|Hz].
  { destruct src; [|unfold zlen in Hz; cbn in Hz; lia]. exists 0, k, []. split; [done|]. split; [by apply ustored_refl|]. split; [apply uwrote_nil|by left]. }
  assert (Hsrc : 0 < zlen src) by (unfold zlen in *; lia).
  destruct (page_split va) as (E & B & A). pose proof (page_down_nonneg va Hva) as Hd0. unfold sbind at 1. rewrite (walkaddr_space pt _ k fl S).
  destruct (Z.eqb_spec (uaddr (k_mem k) pt (PGROUNDDOWN va)) 0) as [E0|Ne].
  { exists (-1), k, []. split; [done|]. split; [by apply ustored_refl|]. split; [apply uwrote_nil|]. right. split; [done|]. split; [done|].
    split; [done|]. unfold ubyte. change (zlen []) with 0. by rewrite Z.add_0_r, E0. }
  replace (va - PGROUNDDOWN va) with (va mod PGSIZE) by lia. set (pa := uaddr (k_mem k) pt (PGROUNDDOWN va)) in *.
  set (n := Z.min (PGSIZE - va mod PGSIZE) (zlen src)). set (c := take (Z.to_nat n) src). unfold sbind at 1, smodify.
  assert (Hc : zlen c = n) by (unfold c, zlen in *; rewrite length_take; lia).
  assert (Hr : zlen (drop (Z.to_nat n) src) = zlen src - n) by (unfold zlen in *; rewrite length_drop; lia).
  assert (Ep : (PGROUNDDOWN va + PGSIZE) mod PGSIZE = 0) by (rewrite <- Zplus_mod_idemp_l, A; done).
  pose proof (st_stored k pt fl S va c Hva ltac:(lia) Ne) as U1. pose proof (st_wrote k pt fl S va c Hva ltac:(lia) Ne) as W1. fold pa in U1, W1.
  set (k1 := set_mem (pm_write (pa + va mod PGSIZE) c) k) in *.
  destruct (IH (PGROUNDDOWN va + PGSIZE) (drop (Z.to_nat n) src) k1 (us_ok _ _ _ _ U1)) as (r & k' & d & E1 & U2 & W2 & D);
    [lia|rewrite Ep, Hr; lia|lia|]. exists r, k', (c ++ d). split; [exact E1|]. split; [exact (ustored_trans _ _ _ _ _ U1 U2)|].
  assert (Hn : zlen src - n > 0 -> va + zlen c = PGROUNDDOWN va + PGSIZE) by lia.
  assert (Hz' : zlen d <= zlen src - n).
  { destruct D as [[_ ->]|(_ & D & _)]; lia. }
  split.
  - apply (uwrote_app pt va (PGROUNDDOWN va + PGSIZE) c d _ (k_mem k1)); [exact W1|exact W2|]. intros Hnil. symmetry. apply Hn.
    destruct d; [done|]. unfold zlen in Hz' at 1. cbn [length] in Hz'. lia.
  - destruct D as [[-> ->]|(-> & D1 & D2 & D3)]; [left; split; [done|apply take_drop]|right]. split; [done|].
    assert (0 <= zlen d) by (unfold zlen; lia).
    assert (zlen (c ++ d) = n + zlen d) as -> by (unfold zlen in *; rewrite length_app; lia). split; [lia|]. split.
    + rewrite D2 at 1. rewrite length_app. assert (length c = Z.to_nat n) as -> by (unfold zlen in Hc; lia). apply take_take_drop.
    + rewrite <- Hc, Z.add_assoc, Hn by lia. rewrite (W1 (PGROUNDDOWN va + PGSIZE + zlen d) ltac:(lia)) in D3.
      rewrite decide_False in D3 by lia. exact D3.
Qed.

(** ** Lemmas: the copies, with the fuel they get *)

Lemma copy_fuel va n : 0 <= va -> 0 <= n ->
  va mod PGSIZE + n <= PGSIZE * (Z.of_nat (Z.to_nat (n / PGSIZE + 3)) - 1) /\ (0 < Z.to_nat (n / PGSIZE + 3))%nat.
Proof.
  intros Hva Hn. pose proof (Z.mod_pos_bound va PGSIZE ltac:(lia)). pose proof (Z.div_mod n PGSIZE ltac:(lia)).
  pose proof (Z.mod_pos_bound n PGSIZE ltac:(lia)). pose proof (Z.div_pos n PGSIZE ltac:(lia) ltac:(lia)). lia.
Qed.

Lemma copyin_run pt srcva len k fl : space_ok k pt fl -> 0 <= srcva -> 0 <= len ->
  exists r d, copyin pt srcva len k = Ok (r, d) k /\
    (forall i, 0 <= i < zlen d -> ubyte (k_mem k) pt (srcva + i) = Some (getb i d)) /\
    (r = 0 /\ zlen d = len \/ r = -1 /\ zlen d < len /\ ubyte (k_mem k) pt (srcva + zlen d) = None).
Proof.
  intros S Hva Hl. destruct (copy_fuel srcva len Hva Hl) as [H1 H2].
  exact (copyin_loop_run _ pt srcva len [] k fl S Hva Hl H1 H2).
Qed.

(** The invariant is about the memory only. *)
Lemma space_ok_ext k k' pt fl : k_mem k' = k_mem k -> k_freelist k' = k_freelist k -> k_end k' = k_end k -> space_ok k pt fl -> space_ok k' pt fl.
Proof.
  intros E1 E2 E3 [[A B C D E] R N F P]. split; rewrite ?E1; [|exact R|exact N|exact F|exact P].
  split; rewrite ?E1, ?E2, ?E3; [exact A|exact B|exact C|exact D|]. apply (Forall_impl _ _ _ E). intros x. unfold page_in. by rewrite E3.
Qed.

Lemma copyout_run pt dstva src k fl : space_ok k pt fl -> 0 <= dstva ->
  exists r k' d, copyout pt dstva src k = Ok r k' /\ ustored k pt fl k' /\ uwrote pt dstva d (k_mem k) (k_mem k') /\
    (r = 0 /\ d = src \/ r = -1 /\ zlen d < zlen src /\ d = take (length d) src /\ ubyte (k_mem k) pt (dstva + zlen d) = None).
Proof.
  intros S Hva. destruct (copy_fuel dstva (zlen src) Hva ltac:(unfold zlen; lia)) as [H1 H2]. by apply copyout_loop_run.
Qed.

(** ** Theorems *)

(** C32. copyin always returns.  It reads the user's bytes from [srcva] on:
    either all of them, with result 0, or, with result -1, those before the
    first page that is not a valid user page.  It changes nothing. *)
Theorem copyin_correct pt srcva len k fl :
  space_ok k pt fl -> 0 <= srcva -> 0 <= len ->
  exists r d, copyin pt srcva len k = Ok (r, d) k /\
    (forall i, 0 <= i < zlen d -> ubyte (k_mem k) pt (srcva + i) = Some (getb i d)) /\
    (r = 0 /\ zlen d = len \/ r = -1 /\ zlen d < len /\ ubyte (k_mem k) pt (srcva + zlen d) = None).
Proof. exact (copyin_run pt srcva len k fl). Qed.

(** C31. What copyout stores copyin reads back: after a copyout that succeeds,
    copyin from the same address returns the same bytes.  Every user byte
    outside the range, every page outside the address space and the
    translation are unchanged, also when copyout fails half way. *)
Theorem copyout_copyin pt va src k fl :
  space_ok k pt fl -> 0 <= va ->
  exists r k', copyout pt va src k = Ok r k' /\ space_ok k' pt fl /\
    (forall a, 0 <= a -> ~ va <= a < va + zlen src -> ubyte (k_mem k') pt a = ubyte (k_mem k) pt a) /\
    same_pages (k_mem k) (k_mem k') (ptree 3 (k_mem k) pt) /\ (forall a, trans (k_mem k') pt a = trans (k_mem k) pt a) /\
    (r = 0 /\ copyin pt va (zlen src) k' = Ok (0, src) k' \/
     r = -1 /\ exists a, va <= a < va + zlen src /\ ubyte (k_mem k) pt a = None).
Proof.
  intros S Hva. destruct (copyout_run pt va src k fl S Hva) as (r & k' & d & E & U & W & D). exists r, k'.
  assert (Hd : zlen d <= zlen src /\ 0 <= zlen d) by (unfold zlen at 3; destruct D as [[_ ->]|(_ & D & _)]; lia).
  split; [exact E|]. split; [exact (us_ok _ _ _ _ U)|]. split; [intros a Ha N; rewrite (W a Ha), decide_False; [done|lia]|].
  split; [exact (us_frame _ _ _ _ U)|]. split; [exact (us_tr _ _ _ _ U)|]. destruct D as [[-> ->]|(-> & D1 & _ & D2)]; [left|right].
  - split; [done|]. destruct (copy_fuel va (zlen src) Hva ltac:(lia)) as [H1 H2].
    destruct (copyin_loop_run _ pt va (zlen src) [] k' fl (us_ok _ _ _ _ U) Hva ltac:(lia) H1 H2) as (r & d & E' & Hb & D).
    unfold copyin. rewrite E'. cbn [app]. destruct D as [[-> Hl]|(_ & Hl & Hn)].
    + do 2 f_equal. apply (nth_ext _ _ 0 0); [unfold zlen in Hl; lia|]. intros j Hj. specialize (Hb (Z.of_nat j) ltac:(unfold zlen; lia)).
      rewrite (W (va + Z.of_nat j)), decide_True in Hb by (unfold zlen in *; lia). injection Hb as Hb. unfold getb in Hb.
      rewrite Nat2Z.id in Hb. rewrite <- Hb. f_equal. lia.
    + exfalso. assert (0 <= zlen d) by (unfold zlen; lia). rewrite (W (va + zlen d)), decide_True in Hn by lia. done.
  - split; [done|]. exists (va + zlen d). split; [lia|exact D2].
Qed.

(** Mapping a range.  When the pages of [va, va + size) are not mapped
    and the physical pages are neither in the table nor free, mappages
    returns 0 and exactly those pages translate to the physical pages, with
    the permissions and the valid bit; or it returns -1 with the free list
    empty, and a proper prefix of the range is mapped.  All other
    translations are unchanged, and the table stays a tree of distinct
    pages. *)
Theorem mappages_correct pt va size pa perm k fl :
  space_ok k pt fl -> 0 <= va -> 0 < size -> va + size <= MAXVA -> pa mod PGSIZE = 0 -> 0 <= pa -> pa + size + 2 * PGSIZE <= 2 ^ 56 -> 0 <= perm < 1024 ->
  (forall a, PGROUNDDOWN va <= a < va + size -> trans (k_mem k) pt a = None) ->
  (forall x, pa <= x < pa + size + PGSIZE -> x ∉ ptree 3 (k_mem k) pt /\ x ∉ fl) ->
  exists r k' fl' j, mappages pt va size pa perm k = Ok r k' /\ space_ok k' pt fl' /\
    (forall a, 0 <= a < MAXVA -> trans (k_mem k') pt a =
       if decide (PGROUNDDOWN va <= a < PGROUNDDOWN va + PGSIZE * j) then Some (mapent (pa + (PGROUNDDOWN a - PGROUNDDOWN va)) perm)
       else trans (k_mem k) pt a) /\
    (r = 0 /\ va + size <= PGROUNDDOWN va + PGSIZE * j < va + size + PGSIZE \/ r = -1 /\ PGROUNDDOWN va + PGSIZE * j < va + size /\ fl' = []).
Proof.
  intros S Hva Hsz Hm Hp1 Hp2 Hp3 Hperm Hfree Hpg. unfold mappages. rewrite (proj2 (Z.eqb_neq size 0) ltac:(lia)).
  set (a := PGROUNDDOWN va) in *. destruct (page_split va) as (E & B & A). fold a in E, A. pose proof (page_down_nonneg va Hva) as Ha0. fold a in Ha0.
  destruct (page_split (va + size - 1)) as (E' & B' & A'). set (l := PGROUNDDOWN (va + size - 1)) in *.
  pose proof (Z.div_mod a PGSIZE ltac:(lia)) as Da. pose proof (Z.div_mod l PGSIZE ltac:(lia)) as Dl.
  assert (Hc : (l - a) / PGSIZE = l / PGSIZE - a / PGSIZE).
  { replace (l - a) with ((l / PGSIZE - a / PGSIZE) * PGSIZE) by lia. by rewrite Z.div_mul by lia. }
  set (n := Z.to_nat ((l - a) / PGSIZE + 1)). assert (Hn : PGSIZE * Z.of_nat n = l - a + PGSIZE) by (unfold n; lia).
  destruct (mappages_loop_run n pt a pa perm k fl S A Ha0) as (r & k' & fl' & j & E1 & G & D); [lia|exact Hp1|exact Hp2|lia|exact Hperm| | |].
  - intros i Hi. apply Hfree. lia.
  - intros x Hx. apply elem_page_list in Hx as [Hx Hx']. pose proof (Z.div_mod (x - pa) PGSIZE ltac:(lia)). apply Hpg. lia.
  - exists r, k', fl', (Z.of_nat j). split; [exact E1|]. split; [exact (rm_ok G)|]. split.
    + intros b Hb. rewrite (rm_tr G b Hb). unfold map_range.
      destruct (Z.leb_spec a b), (Z.ltb_spec b (a + PGSIZE * Z.of_nat j)); cbn [andb]; case_decide; done || lia.
    + destruct D as [[-> ->]|(-> & Hj & ->)]; [left; split; [done|lia]|right; split; [done|]; split; [lia|done]].
Qed.
