(* ===== verification/Kvm.v ===== *)
(** * The kernel page table (kernel/vm.c, proc.c, memlayout.h)

    kvmmake builds the table the kernel runs on: the devices and all of
    physical memory at their own addresses, the trampoline at the top of the
    address space, and a stack for each process below it, with an unmapped
    page under each stack.  Unlike a user address space, this table maps its
    own table pages and the free pages, so only its table pages ([ptree 2])
    are distinct and apart from the free list.  The theorem gives the
    translation of every virtual address. *)
From S2P Require Import Prelude Str Bio Log Crash Machine Types Vm Codec Kmem Pgtbl Uvm.
Local Open Scope st_scope.

Notation UART0 := 0x10000000 (only parsing).
Notation VIRTIO0 := 0x10001000 (only parsing).
Notation PLIC := 0x0c000000 (only parsing).
Notation KERNBASE := 0x80000000 (only parsing).

Definition KSTACK (i : nat) : Z := TRAMPOLINE - (Z.of_nat i + 1) * 2 * PGSIZE.

Definition kvmmap (kpgtbl va pa sz perm : Z) : stM kst unit :=
  r <- mappages kpgtbl va sz pa perm;
  if negb (r =? 0) then spanic "kvmmap" else sret tt.

(** The loop of proc_mapstacks over the process slots [slots]. *)
Fixpoint mapstacks_loop (slots : list nat) (kpgtbl : Z) : stM kst unit :=
  match slots with
  | [] => sret tt
  | i :: slots =>
      pa <- kalloc;
      if pa =? 0 then spanic "kalloc"
      else
        kvmmap kpgtbl (KSTACK i) pa PGSIZE (Z.lor PTE_R PTE_W);;
        mapstacks_loop slots kpgtbl
  end.
Definition proc_mapstacks (kpgtbl : Z) : stM kst unit := mapstacks_loop (seq 0 64) kpgtbl.

(** [etext] and [trampoline] are addresses the linker chooses. *)
Definition kvmmake (etext trampoline : Z) : stM kst Z :=
  kpgtbl <- kalloc;
  fill_page kpgtbl 0;;
  kvmmap kpgtbl UART0 UART0 PGSIZE (Z.lor PTE_R PTE_W);;
  kvmmap kpgtbl VIRTIO0 VIRTIO0 PGSIZE (Z.lor PTE_R PTE_W);;
  kvmmap kpgtbl PLIC PLIC 0x400000 (Z.lor PTE_R PTE_W);;
  kvmmap kpgtbl KERNBASE KERNBASE (u64 (etext - KERNBASE)) (Z.lor PTE_R PTE_X);;
  kvmmap kpgtbl etext etext (u64 (PHYSTOP - etext)) (Z.lor PTE_R PTE_W);;
  kvmmap kpgtbl TRAMPOLINE trampoline PGSIZE (Z.lor PTE_R PTE_X);;
  proc_mapstacks kpgtbl;;
  sret kpgtbl.

(** ** The specification *)

(** [va] lies in the [sz] bytes from [a] on. *)
Definition in_rng (a sz va : Z) : bool := (a <=? va) && (va <? a + sz).
Definition kmapped (pa perm : Z) : option Z := Some (mapent pa perm).

(** The stack page of [va]: slot [i] has the page two pages below that of
    slot [i - 1], the pages in between are guards. *)
Definition stack_at (stacks : list Z) (va : Z) : option Z :=
  let d := (TRAMPOLINE - PGROUNDDOWN va) / PGSIZE in
  if (0 <? d) && Z.even d then stacks !! Z.to_nat (d / 2 - 1) else None.

(** What the kernel's table says of [va]. *)
Definition kernel_map (etext trampoline : Z) (stacks : list Z) (va : Z) : option Z :=
  if in_rng UART0 PGSIZE va || in_rng VIRTIO0 PGSIZE va || in_rng PLIC 0x400000 va || in_rng etext (PHYSTOP - etext) va
  then kmapped (PGROUNDDOWN va) (Z.lor PTE_R PTE_W)
  else if in_rng KERNBASE (etext - KERNBASE) va then kmapped (PGROUNDDOWN va) (Z.lor PTE_R PTE_X)
  else if in_rng TRAMPOLINE PGSIZE va then kmapped trampoline (Z.lor PTE_R PTE_X)
  else match stack_at stacks va with
       | Some p => kmapped p (Z.lor PTE_R PTE_W)
       | None => None
       end.

(** A tree of distinct table pages, apart from the free list. *)
Record ktab_ok (k : kst) (pt : Z) (fl : list Z) : Prop := {
  kt_mem : mem_ok k fl;
  kt_root : pt mod PGSIZE = 0;
  kt_nodup : NoDup (ptree 2 (k_mem k) pt);
  kt_free : forall x, x ∈ ptree 2 (k_mem k) pt -> x ∉ fl;
  kt_pos : forall x, x ∈ ptree 2 (k_mem k) pt -> 0 < x
}.

#[global] Arguments kt_mem {_ _ _}.
#[global] Arguments kt_root {_ _ _}.
#[global] Arguments kt_nodup {_ _ _}.
#[global] Arguments kt_free {_ _ _}.
#[global] Arguments kt_pos {_ _ _}.

(** walk for [va] made the tables [taken] below [a]. *)
Record tabs (n : nat) (va a : Z) (k : kst) (fl : list Z) (k' : kst) (fl' taken : list Z) : Prop := {
  tb_mem : mem_ok k' fl';
  tb_only : only_mem k k';
  tb_fl : fl = taken ++ fl';
  tb_frame : same_pages (k_mem k) (k_mem k') (ptree n (k_mem k) a ++ taken);
  tb_nodup : NoDup (ptree n (k_mem k') a);
  tb_sub : forall x, x ∈ ptree n (k_mem k') a -> x ∈ ptree n (k_mem k) a \/ x ∈ taken;
  tb_tr : forall va', tr n (k_mem k') a va' = tr n (k_mem k) a va';
  tb_keep : forall va' q, plook n (k_mem k) a va' = Some q -> plook n (k_mem k') a va' = Some q;
  tb_most : (length taken <= n)%nat;
  tb_none : plook n (k_mem k) a va <> None -> taken = []
}.

#[global] Arguments tb_mem {_ _ _ _ _ _ _ _}.
#[global] Arguments tb_only {_ _ _ _ _ _ _ _}.
#[global] Arguments tb_fl {_ _ _ _ _ _ _ _}.
#[global] Arguments tb_frame {_ _ _ _ _ _ _ _}.
#[global] Arguments tb_nodup {_ _ _ _ _ _ _ _}.
#[global] Arguments tb_sub {_ _ _ _ _ _ _ _}.
#[global] Arguments tb_tr {_ _ _ _ _ _ _ _}.
#[global] Arguments tb_keep {_ _ _ _ _ _ _ _}.
#[global] Arguments tb_most {_ _ _ _ _ _ _ _}.
#[global] Arguments tb_none {_ _ _ _ _ _ _ _}.

(** ** Lemmas: table pages *)

Lemma pinner_tables n m a : pinner (S n) m a = ptree n m a.
Proof.
  revert a. induction n as [|n IH]; intros a; rewrite pinner_S.
  - change (ptree 0 m a) with [a]. f_equal. induction (seqZ 0 512) as [|i l IHl]; [done|]. cbn [flat_map]. rewrite IHl. by destruct (pv _).
  - rewrite ptree_S. f_equal. apply flat_map_ext_elem. intros i _. destruct (pv _); [apply IH|done].
Qed.

Lemma tables_frame n m m' a va : (forall c, c ∈ ptree n m a -> page m' c = page m c) ->
  ptree n m' a = ptree n m a /\ plook n m' a va = plook n m a va /\ tr n m' a va = tr n m a va.
Proof.
  intros H. split; [|apply tr_frame; intros c; rewrite pinner_tables; apply H].
  rewrite <- !pinner_tables. apply pframe. intros c. rewrite pinner_tables. apply H.
Qed.

Lemma tabs_refl n va a k fl : mem_ok k fl -> NoDup (ptree n (k_mem k) a) -> tabs n va a k fl k fl [].
Proof. intros Mk Hn. split; [exact Mk|apply only_mem_refl|done|done|exact Hn|auto|done|done|cbn; lia|done]. Qed.

(** Tables made below one entry. *)
Section TabDescend.
  Context (n : nat) (va a : Z) (k : kst) (fl : list Z) (k' : kst) (fl' taken : list Z).
Let j : Z := PX (Z.of_nat (S n)) va.
  Context (Hv : pv (word (k_mem k) a j) = true).
  Context (Hnd : NoDup (ptree (S n) (k_mem k) a)) (Hdis : forall x, x ∈ ptree (S n) (k_mem k) a -> x ∉ fl).
  Context (G : tabs n va (child (k_mem k) a j) k fl k' fl' taken).

Lemma td_bound : 0 <= j < 512.
Proof. apply PX_bound. Qed.

Lemma td_taken x : x ∈ taken -> x ∉ ptree (S n) (k_mem k) a.
Proof. intros Hx Hx'. apply (Hdis x Hx'). rewrite (tb_fl G). apply elem_of_app. by left. Qed.

Lemma td_same x : x ∈ ptree (S n) (k_mem k) a -> x ∉ ptree n (k_mem k) (child (k_mem k) a j) -> page (k_mem k') x = page (k_mem k) x.
Proof. intros Hx Hc. apply (tb_frame G). rewrite elem_of_app. intros [H|H]; [by apply Hc|by apply (td_taken x H)]. Qed.

Lemma td_root i : word (k_mem k') a i = word (k_mem k) a i.
Proof.
  unfold word. rewrite td_same; [done|rewrite ptree_S; apply elem_of_cons; by left|]. apply root_not_child; [exact Hnd|exact td_bound|exact Hv].
Qed.

Lemma td_child i : child (k_mem k') a i = child (k_mem k) a i.
Proof. unfold child. by rewrite td_root. Qed.

Lemma td_sibling i va' : 0 <= i < 512 -> i <> j -> pv (word (k_mem k) a i) = true ->
  ptree n (k_mem k') (child (k_mem k) a i) = ptree n (k_mem k) (child (k_mem k) a i) /\
  plook n (k_mem k') (child (k_mem k) a i) va' = plook n (k_mem k) (child (k_mem k) a i) va' /\
  tr n (k_mem k') (child (k_mem k) a i) va' = tr n (k_mem k) (child (k_mem k) a i) va'.
Proof.
  intros Hi Hne Vi. apply tables_frame. intros c Hc. apply td_same; [by apply (ptree_child n _ a i)|].
  apply (siblings_apart n (k_mem k) a i j c); auto. exact td_bound.
Qed.

Lemma td_sub x : x ∈ ptree (S n) (k_mem k') a -> x ∈ ptree (S n) (k_mem k) a \/ x ∈ taken.
Proof.
  rewrite !elem_ptree. intros [->|(i & Hi & Vi & Hx)]; [tauto|]. rewrite td_root in Vi. rewrite td_child in Hx.
  destruct (decide (i = j)) as [->|Hne].
  - apply (tb_sub G) in Hx as [Hx|Hx]; [|tauto]. left. right. by exists j.
  - rewrite (proj1 (td_sibling i va Hi Hne Vi)) in Hx. left. right. by exists i.
Qed.

Lemma td_nodup : NoDup (ptree (S n) (k_mem k') a).
Proof.
  apply (NoDup_entry n (k_mem k) (k_mem k') a j td_bound Hnd).
  - intros i Hi Hne. rewrite td_root. split; [done|]. intros Vi. by apply (td_sibling i va).
  - intros _. rewrite td_child. apply G.
  - intros x _ Hx. rewrite td_child in Hx. apply (tb_sub G) in Hx as [Hx|Hx]; [by left|right; by apply td_taken].
Qed.

Lemma td_look va' : plook (S n) (k_mem k') a va' = let i := PX (Z.of_nat (S n)) va' in
  if pv (word (k_mem k) a i) then plook n (k_mem k') (child (k_mem k) a i) va' else None.
Proof. cbn [plook]. by rewrite td_root. Qed.

Lemma tabs_descend : tabs (S n) va a k fl k' fl' taken.
Proof.
  split; [apply G|apply G|apply G| |exact td_nodup|exact td_sub| | | |].
  - intros x Hx. apply (tb_frame G). rewrite elem_of_app in *. intros [H|H]; [|tauto]. apply Hx. left.
    apply (ptree_child n _ a j); [exact td_bound|exact Hv|exact H].
  - intros va'. unfold tr. rewrite td_look. cbn [plook]. cbv zeta. set (i := PX (Z.of_nat (S n)) va').
    destruct (pv (word (k_mem k) a i)) eqn:Vi; [|done]. fold (child (k_mem k) a i).
    destruct (decide (i = j)) as [->|Hne]; [apply (tb_tr G)|]. apply (td_sibling i va' (PX_bound _ _) Hne Vi).
  - intros va' q. rewrite td_look. cbn [plook]. cbv zeta. set (i := PX (Z.of_nat (S n)) va').
    destruct (pv (word (k_mem k) a i)) eqn:Vi; [|done]. fold (child (k_mem k) a i).
    destruct (decide (i = j)) as [->|Hne]; [apply (tb_keep G)|]. destruct (td_sibling i va' (PX_bound _ _) Hne Vi) as (_ & -> & _). done.
  - pose proof (tb_most G). lia.
  - cbn [plook]. fold j. rewrite Hv. apply (tb_none G).
Qed.
End TabDescend.

Lemma tabs_trans n va a k1 l1 k2 l2 t1 k3 l3 t2 :
  tabs n va a k1 l1 k2 l2 t1 -> tabs n va a k2 l2 k3 l3 t2 -> (length (t1 ++ t2) <= n)%nat ->
  (plook n (k_mem k1) a va <> None -> t1 ++ t2 = []) -> tabs n va a k1 l1 k3 l3 (t1 ++ t2).
Proof.
  intros A B Hl Hn. split; [apply B| | | |apply B| | | |exact Hl|exact Hn].
  - apply (only_mem_trans k1 k2); [apply A|apply B].
  - rewrite <- app_assoc, <- (tb_fl B). apply A.
  - intros x Hx. rewrite !elem_of_app in Hx. rewrite (tb_frame B), (tb_frame A); [done| |].
    + rewrite elem_of_app. tauto.
    + rewrite elem_of_app. intros [H|H]; [apply (tb_sub A) in H|]; tauto.
  - intros x Hx. rewrite elem_of_app. apply (tb_sub B) in Hx as [Hx|Hx]; [apply (tb_sub A) in Hx|]; tauto.
  - intros va'. by rewrite (tb_tr B), (tb_tr A).
  - intros va' q Hq. by apply (tb_keep B), (tb_keep A).
Qed.

(** An empty table is put in an empty entry. *)
Section TabNew.
  Context (n : nat) (va a p : Z) (k : kst) (fl : list Z).
Let j : Z := PX (Z.of_nat (S n)) va.
  Context (Ha : a mod PGSIZE = 0) (Hv : pv (word (k_mem k) a j) = false).
  Context (Mk : mem_ok k (p :: fl)) (Hnd : NoDup (ptree (S n) (k_mem k) a)).
  Context (Hdis : forall x, x ∈ ptree (S n) (k_mem k) a -> x ∉ p :: fl).
Let Hj : 0 <= j < 512 := PX_bound _ _.
Let root := nw_root n a j p k fl Hj Ha Hv Mk Hnd Hdis.
Let tree := nw_page_tree n a j p k fl Hdis.
Let zero := nw_zero n a j p k fl Hj Ha Hv Mk Hnd Hdis.

Lemma tn_other va' : PX (Z.of_nat (S n)) va' <> j ->
  plook (S n) (k_mem (installed a j p k)) a va' = plook (S n) (k_mem k) a va' /\
  tr (S n) (k_mem (installed a j p k)) a va' = tr (S n) (k_mem k) a va'.
Proof.
  intros Ne. pose proof (PX_bound (Z.of_nat (S n)) va') as Hi. unfold tr. cbn [plook]. set (i := PX (Z.of_nat (S n)) va') in *.
  rewrite root by done. destruct (pv (word (k_mem k) a i)) eqn:Vi; [|done]. fold (child (k_mem k) a i).
  apply (tables_frame n (k_mem k) (k_mem (installed a j p k))). intros c Hc. apply tree; [by apply (ptree_child n _ a i)|].
  intros ->. by apply (root_not_child n (k_mem k) a i Hnd Hi Vi).
Qed.

Lemma tabs_new : tabs (S n) va a k (p :: fl) (installed a j p k) fl [p].
Proof.
  destruct (nw_entry a j p k fl Hj Mk) as (E1 & E2 & E3). destruct (nw_subtree n a j p k fl Hj Ha Hv Mk Hnd Hdis) as [Et _].
  split; [exact (nw_mem n a j p k fl Hj Mk Hdis)|done|done| | | | | |cbn; lia|].
  - intros x Hx. rewrite elem_of_app, ptree_S, elem_of_cons, list_elem_of_singleton in Hx. apply nw_page; tauto.
  - apply (en_nodup n a j (k_mem k) _ Hj Hnd root tree); rewrite E2, Et.
    + intros _. apply NoDup_singleton.
    + intros x _ Hx Hx'. apply list_elem_of_singleton in Hx as ->. apply (Hdis p Hx'), elem_of_cons. by left.
  - intros x Hx. apply (en_sub n a j (k_mem k) _ Hj Hnd root tree) in Hx. rewrite E2, Et in Hx. tauto.
  - intros va'. destruct (decide (PX (Z.of_nat (S n)) va' = j)) as [Ej|Ne]; [|by apply tn_other].
    unfold tr. cbn [plook]. rewrite Ej, E3, Hv. fold (child (k_mem (installed a j p k)) a j). rewrite E2. apply tr_zero. exact zero.
  - intros va' q. destruct (decide (PX (Z.of_nat (S n)) va' = j)) as [Ej|Ne]; [|by rewrite (proj1 (tn_other va' Ne))].
    cbn [plook]. by rewrite Ej, Hv.
  - cbn [plook]. fold j. by rewrite Hv.
Qed.
End TabNew.

Lemma walk_tabs n a va k fl :
  mem_ok k fl -> a mod PGSIZE = 0 -> NoDup (ptree n (k_mem k) a) -> (forall x, x ∈ ptree n (k_mem k) a -> x ∉ fl) ->
  exists r k' fl' taken, walk_loop (levels n) a va true k = Ok r k' /\ tabs n va a k fl k' fl' taken /\ walk_res n (k_mem k') a va r fl'.
Proof.
  revert a k fl. induction n as [|n IH]; intros a k fl Mk Ha Hnd Hdis.
  { exists (a + 8 * PX 0 va), k, fl, []. split; [done|]. split; [by apply tabs_refl|done]. }
  cbn [levels walk_loop]. set (j := PX (Z.of_nat (S n)) va). assert (Hj : 0 <= j < 512) by apply PX_bound.
  assert (Down : forall k fl, mem_ok k fl -> NoDup (ptree (S n) (k_mem k) a) -> (forall x, x ∈ ptree (S n) (k_mem k) a -> x ∉ fl) ->
    pv (word (k_mem k) a j) = true -> exists r k' fl' taken, walk_loop (levels n) (child (k_mem k) a j) va true k = Ok r k' /\
      tabs (S n) va a k fl k' fl' taken /\ (length taken <= n)%nat /\ walk_res (S n) (k_mem k') a va r fl').
  { clear k fl Mk Hnd Hdis. intros k fl Mk Hnd Hdis Hv.
    destruct (IH (child (k_mem k) a j) k fl) as (r & k' & fl' & taken & E & G & W).
    - done.
    - apply PTE2PA_aligned.
    - by apply NoDup_child.
    - intros x Hx. apply Hdis. by apply (ptree_child n (k_mem k) a j).
    - exists r, k', fl', taken. split; [exact E|]. split; [exact (tabs_descend n va a k fl k' fl' taken Hv Hnd Hdis G)|].
      split; [apply (tb_most G)|]. unfold walk_res in *. rewrite (td_look n va a k fl k' fl' taken Hv Hnd Hdis G). cbv zeta. fold j. by rewrite Hv. }
  unfold sbind at 1. rewrite ldm64_run by done. fold (pv (word (k_mem k) a j)).
  destruct (pv (word (k_mem k) a j)) eqn:Hv.
  { destruct (Down k fl Mk Hnd Hdis Hv) as (r & k' & fl' & taken & E & G & _ & W). by exists r, k', fl', taken. }
  cbn [negb]. destruct fl as [|p fl].
  - unfold sbind at 1. rewrite kalloc_nil by done. cbn [Z.eqb]. exists 0, k, [], []. split; [done|].
    split; [exact (tabs_refl _ _ _ _ _ Mk Hnd)|]. unfold walk_res. cbn [plook]. fold j. by rewrite Hv.
  - destruct (kalloc_cons k p fl Mk) as [E1 _]. unfold sbind at 1. rewrite E1.
    rewrite (proj2 (Z.eqb_neq p 0)) by (pose proof (free_pos k (p :: fl) p Mk ltac:(apply elem_of_cons; by left)); lia).
    unfold sbind at 1. unfold fill_page, smodify. fold (zeroed p k). unfold sbind at 1. rewrite stm64_run by done. fold (installed a j p k).
    pose proof (tabs_new n va a p k fl Ha Hv Mk Hnd Hdis) as G1. destruct (nw_entry a j p k fl Hj Mk) as (_ & Ec & Ev).
    destruct (Down (installed a j p k) fl) as (r & k' & fl' & taken & E & G & L & W).
    + apply (tb_mem G1).
    + apply (tb_nodup G1).
    + intros x Hx. apply (tb_sub G1) in Hx as [Hx|Hx].
      * apply Hdis in Hx. apply not_elem_of_cons in Hx. tauto.
      * apply list_elem_of_singleton in Hx as ->. pose proof (mo_nodup Mk) as N. apply NoDup_cons in N. tauto.
    + exact Ev.
    + rewrite Ec in E. exists r, k', fl', ([p] ++ taken). split; [exact E|]. split; [|exact W].
      apply (tabs_trans _ _ _ _ _ _ _ _ _ _ _ G1 G); [cbn; lia|]. cbn [plook]. fold j. by rewrite Hv.
Qed.

(** ** Lemmas: a last-level entry is stored *)

Record entry_put (n : nat) (a va e : Z) (m m' : pmem) : Prop := {
  ep_tree : ptree n m' a = ptree n m a;
  ep_look : forall va', plook n m' a va' = plook n m a va';
  ep_same : forall va', same_px n va va' -> tr n m' a va' = if pv e then Some e else None;
  ep_other : forall va', ~ same_px n va va' -> tr n m' a va' = tr n m a va'
}.

#[global] Arguments ep_tree {_ _ _ _ _ _}.
#[global] Arguments ep_look {_ _ _ _ _ _}.
#[global] Arguments ep_same {_ _ _ _ _ _}.
#[global] Arguments ep_other {_ _ _ _ _ _}.

Lemma put_page t i e m c : c <> t -> page (put_word t i e m) c = page m c.
Proof. intros N. unfold put_word. by rewrite page_insert, decide_False. Qed.

Section EntryPut.
  Context (n : nat) (a va t i e : Z) (m : pmem).
Let j : Z := PX (Z.of_nat (S n)) va.
Let m' : pmem := put_word t i e m.
  Context (Hnd : NoDup (ptree (S n) m a)) (Hv : pv (word m a j) = true).
  Context (Hl : plook n m (child m a j) va = Some (t, i)) (U : entry_put n (child m a j) va e m m').

Lemma eu_table : t ∈ ptree n m (child m a j).
Proof. rewrite <- pinner_tables. by apply (plook_inner n m _ va t i). Qed.

Lemma eu_word i' : word m' a i' = word m a i'.
Proof.
  unfold word, m'. rewrite put_page; [done|]. intros E. pose proof eu_table as H. rewrite <- E in H.
  by apply (root_not_child n m a j Hnd (PX_bound _ _) Hv).
Qed.

Lemma eu_sibling i' va' : 0 <= i' < 512 -> i' <> j -> pv (word m a i') = true ->
  ptree n m' (child m a i') = ptree n m (child m a i') /\ plook n m' (child m a i') va' = plook n m (child m a i') va' /\
  tr n m' (child m a i') va' = tr n m (child m a i') va'.
Proof.
  intros Hi N V. apply tables_frame. intros c Hc. apply put_page. intros ->.
  apply (siblings_apart n m a i' j t Hnd Hi (PX_bound _ _) N V Hv Hc eu_table).
Qed.

Lemma entry_put_S : entry_put (S n) a va e m m'.
Proof.
  split.
  - rewrite !ptree_S. f_equal. apply flat_map_ext_elem. intros i' Hi. apply elem_of_seqZ in Hi. rewrite eu_word.
    destruct (pv (word m a i')) eqn:V; [|done]. destruct (decide (i' = j)) as [->|N]; [apply (ep_tree U)|].
    apply (eu_sibling i' va ltac:(lia) N V).
  - intros va'. cbn [plook]. rewrite eu_word. destruct (pv (word m a (PX (Z.of_nat (S n)) va'))) eqn:V; [|done].
    destruct (decide (PX (Z.of_nat (S n)) va' = j)) as [E|N]; [rewrite E; apply (ep_look U)|].
    apply (eu_sibling _ va' (PX_bound _ _) N V).
  - intros va' [E S]. unfold tr. cbn [plook]. rewrite eu_word, E. fold j. rewrite Hv. by apply (ep_same U).
  - intros va' N. unfold tr. cbn [plook]. rewrite eu_word. destruct (pv (word m a (PX (Z.of_nat (S n)) va'))) eqn:V; [|done].
    destruct (decide (PX (Z.of_nat (S n)) va' = j)) as [E|Ne].
    + rewrite E. apply (ep_other U). intros S. apply N. by split.
    + apply (eu_sibling _ va' (PX_bound _ _) Ne V).
Qed.
End EntryPut.

Lemma entry_put_run n a va t i e m : pages_ok m -> 0 <= e < 2 ^ 64 -> NoDup (ptree n m a) -> plook n m a va = Some (t, i) ->
  entry_put n a va e m (put_word t i e m).
Proof.
  intros Hp He. revert a. induction n as [|n IH]; intros a Hnd Hl; cbn [plook] in Hl.
  - simplify_eq. pose proof (PX_bound 0 va) as Hi. split; [done|done| |]; intros va' H; unfold tr; cbn [plook];
      rewrite word_put by (done || apply PX_bound).
    + destruct H as [E _]. change (Z.of_nat 0) with 0 in E. rewrite decide_True by done. by destruct (pv e).
    + rewrite decide_False; [done|]. intros [_ E]. apply H. by split.
  - destruct (pv (word m a (PX (Z.of_nat (S n)) va))) eqn:Hv; [|done].
    apply entry_put_S; [exact Hnd|exact Hv|exact Hl|]. apply IH; [exact (NoDup_child _ _ _ _ Hnd (PX_bound _ _) Hv)|exact Hl].
Qed.

(** ** Lemmas: mappages *)

(** The table of [pt] became [v], at the cost of at most [used] free pages. *)
Record kmaps (k : kst) (pt : Z) (fl : list Z) (used : Z) (v : Z -> option Z) (k' : kst) (fl' : list Z) : Prop := {
  km_ok : ktab_ok k' pt fl';
  km_only : only_mem k k';
  km_fl : forall x, x ∈ fl' -> x ∈ fl;
  km_used : zlen fl <= used + zlen fl';
  km_frame : same_pages (k_mem k) (k_mem k') (ptree 2 (k_mem k) pt ++ fl);
  km_sub : forall x, x ∈ ptree 2 (k_mem k') pt -> x ∈ ptree 2 (k_mem k) pt \/ x ∈ fl;
  km_keep : forall va q, plook 2 (k_mem k) pt va = Some q -> plook 2 (k_mem k') pt va = Some q;
  km_tr : forall va, 0 <= va < MAXVA -> trans (k_mem k') pt va = v va
}.

#[global] Arguments km_ok {_ _ _ _ _ _ _}.
#[global] Arguments km_only {_ _ _ _ _ _ _}.
#[global] Arguments km_fl {_ _ _ _ _ _ _}.
#[global] Arguments km_used {_ _ _ _ _ _ _}.
#[global] Arguments km_frame {_ _ _ _ _ _ _}.
#[global] Arguments km_sub {_ _ _ _ _ _ _}.
#[global] Arguments km_keep {_ _ _ _ _ _ _}.
#[global] Arguments km_tr {_ _ _ _ _ _ _}.

Lemma kmaps_refl k pt fl : ktab_ok k pt fl -> kmaps k pt fl 0 (trans (k_mem k) pt) k fl.
Proof. intros T. split; [exact T|apply only_mem_refl|done|lia|done|by left|done|done]. Qed.

Lemma kmaps_trans k pt fl u1 v1 k1 fl1 u2 v2 k2 fl2 :
  kmaps k pt fl u1 v1 k1 fl1 -> kmaps k1 pt fl1 u2 v2 k2 fl2 -> kmaps k pt fl (u1 + u2) v2 k2 fl2.
Proof.
  intros A B. pose proof (km_fl A) as Hs. split; [apply B| | | | | | |apply B].
  - apply (only_mem_trans k k1 k2); [apply A|apply B].
  - intros x Hx. by apply Hs, (km_fl B).
  - pose proof (km_used A). pose proof (km_used B). lia.
  - intros x Hx. rewrite elem_of_app in Hx. rewrite (km_frame B), (km_frame A); [done|by rewrite elem_of_app|].
    rewrite elem_of_app. intros [H|H]; [|apply Hx; right; by apply Hs]. apply (km_sub A) in H. tauto.
  - intros x Hx. apply (km_sub B) in Hx as [Hx|Hx]; [by apply (km_sub A)|right; by apply Hs].
  - intros va q Hq. by apply (km_keep B), (km_keep A).
Qed.

Lemma kmaps_ext k pt fl u u' v v' k' fl' : u <= u' -> (forall va, 0 <= va < MAXVA -> v va = v' va) ->
  kmaps k pt fl u v k' fl' -> kmaps k pt fl u' v' k' fl'.
Proof.
  intros Hu H K. split; try apply K; [pose proof (km_used K); lia|]. intros va Hva. rewrite <- H by exact Hva. by apply (km_tr K).
Qed.

Lemma ktab_tabs k pt fl va k' fl' taken : ktab_ok k pt fl -> tabs 2 va pt k fl k' fl' taken ->
  kmaps k pt fl (zlen taken) (trans (k_mem k) pt) k' fl'.
Proof.
  intros [Mk R N F P] G. pose proof (tb_fl G) as Ef. pose proof (mo_nodup Mk) as Nf. rewrite Ef in Nf.
  apply NoDup_app in Nf as (_ & Nf & _).
  assert (Hin : forall x, x ∈ taken -> x ∈ fl) by (intros x Hx; rewrite Ef; apply elem_of_app; by left).
  split; [|apply G| | | | |apply G|intros va' _; apply (tb_tr G)].
  - split; [apply G|exact R|apply G| |]; intros x Hx; apply (tb_sub G) in Hx as [Hx|Hx].
    + intros Hf. apply (F x Hx). rewrite Ef. apply elem_of_app. by right.
    + by apply Nf.
    + by apply P.
    + apply (free_pos k fl x Mk). by apply Hin.
  - intros x Hx. rewrite Ef. apply elem_of_app. by right.
  - rewrite Ef. unfold zlen. rewrite length_app. lia.
  - intros x Hx. apply (tb_frame G). rewrite !elem_of_app in *. intros [H|H]; [tauto|]. apply Hx. right. by apply Hin.
  - intros x Hx. apply (tb_sub G) in Hx as [Hx|Hx]; [by left|right; by apply Hin].
Qed.

Lemma ktab_entry k pt fl va t i e : ktab_ok k pt fl -> plook 2 (k_mem k) pt va = Some (t, i) -> 0 <= va < MAXVA -> 0 <= e < 2 ^ 64 ->
  kmaps k pt fl 0 (upd_page va (if pv e then Some e else None) (trans (k_mem k) pt)) (set_mem (put_word t i e) k) fl.
Proof.
  intros [Mk R N F P] Hl Hva He. destruct (plook_aligned _ _ _ _ _ _ R Hl) as [Ha Hi].
  pose proof (plook_inner _ _ _ _ _ _ Hl) as Ht. rewrite pinner_tables in Ht.
  pose proof (entry_put_run 2 pt va t i e (k_mem k) (mo_pages Mk) He N Hl) as U.
  assert (Hsame : same_pages (k_mem k) (put_word t i e (k_mem k)) [t]).
  { intros x Hx. apply not_elem_of_cons in Hx as [Hx _]. by apply put_page. }
  split; change (k_mem (set_mem ?f ?x)) with (f (k_mem x)).
  - split; change (k_mem (set_mem ?f ?x)) with (f (k_mem x)); rewrite ?(ep_tree U); try done.
    apply (mem_ok_set k fl _ [t] Mk); [by apply pages_ok_put_word, Hi; apply (mo_pages Mk)|exact Hsame|].
    intros p Hp Hp'. apply list_elem_of_singleton in Hp' as ->. by apply (F t).
  - by destruct k.
  - done.
  - lia.
  - intros x Hx. apply Hsame. rewrite elem_of_app in Hx. rewrite list_elem_of_singleton. intros ->. tauto.
  - rewrite (ep_tree U). by left.
  - intros va' q. by rewrite (ep_look U).
  - intros va' Hva'. unfold upd_page. destruct (Z.eqb_spec (va' / PGSIZE) (va / PGSIZE)) as [E|Ne].
    + apply (ep_same U). apply same_px_page; [lia|lia|exact E].
    + apply (ep_other U). intros S. apply Ne. apply same_px_page in S; [exact S|lia|lia].
Qed.

(** One page is mapped: at most two tables are made, and none when the
    last-level table is there. *)
Lemma map_page_k pt a pa perm k fl c :
  ktab_ok k pt fl -> 0 <= a < MAXVA -> pa mod PGSIZE = 0 -> 0 <= pa < 2 ^ 56 -> 0 <= perm < 1024 ->
  trans (k_mem k) pt a = None -> 0 <= c -> plook 2 (k_mem k) pt a <> None \/ c = 1 -> 2 * c < zlen fl ->
  exists k' fl', map_page pt a pa perm k = Ok 0 k' /\ plook 2 (k_mem k') pt a <> None /\
    kmaps k pt fl (2 * c) (upd_page a (Some (mapent pa perm)) (trans (k_mem k) pt)) k' fl'.
Proof.
  intros T Ha Hp1 Hp2 Hperm Ht Hc0 Hc Hlen. destruct (mapent_fields pa perm Hp1 Hp2 Hperm) as (E1 & _ & V & B).
  pose proof T as [Mk R N F P]. destruct (walk_tabs 2 pt a k fl Mk R N F) as (r & k1 & fl1 & taken & E & G & W).
  pose proof (ktab_tabs k pt fl a k1 fl1 taken T G) as K. pose proof (km_ok K) as T1.
  assert (Hu : zlen taken <= 2 * c).
  { destruct Hc as [Hc| ->]; [rewrite (tb_none G Hc); unfold zlen; cbn; lia|pose proof (tb_most G); unfold zlen; lia]. }
  assert (L : exists t i, plook 2 (k_mem k1) pt a = Some (t, i) /\ r = t + 8 * i).
  { unfold walk_res in W. destruct (plook 2 (k_mem k1) pt a) as [[t i]|] eqn:L; [by exists t, i|]. exfalso. destruct W as [_ ->].
    pose proof (km_used K) as U. change (zlen (A := Z) []) with 0 in U. lia. }
  destruct L as (t & i & L & ->). unfold map_page, sbind at 1. unfold walk. destruct (Z.leb_spec MAXVA a); [lia|].
  change (walk_loop [2; 1]) with (walk_loop (levels 2)). rewrite E.
  destruct (plook_aligned _ _ _ _ _ _ R L) as [Hta Hi]. pose proof (plook_inner _ _ _ _ _ _ L) as Hin. rewrite pinner_tables in Hin.
  pose proof (kt_pos T1 t Hin). destruct (Z.eqb_spec (t + 8 * i) 0); [lia|]. unfold sbind at 1. rewrite ldm64_run by assumption.
  fold (pv (word (k_mem k1) t i)). pose proof (km_tr K a Ha) as T2. rewrite Ht in T2. unfold trans in T2.
  rewrite (tr_plook _ _ _ _ _ _ L) in T2. destruct (pv (word (k_mem k1) t i)); [congruence|].
  unfold sbind. rewrite stm64_run by assumption.
  pose proof (ktab_entry k1 pt fl1 a t i (mapent pa perm) T1 L Ha B) as K2. rewrite V in K2.
  exists (set_mem (put_word t i (mapent pa perm)) k1), fl1. split; [done|]. split.
  { pose proof (km_keep K2 a _ L) as L2. intros L3. rewrite L3 in L2. discriminate L2. }
  apply (kmaps_ext _ _ _ (zlen taken + 0) _ _ _) with (3 := kmaps_trans _ _ _ _ _ _ _ _ _ _ _ K K2); [lia|].
  intros va Hva. unfold upd_page. destruct (_ =? _); [done|]. by apply (km_tr K).
Qed.

(** The last-level table is shared by the addresses of a 2 MiB region. *)
Lemma look_region m pt a b : 0 <= a -> 0 <= b -> a / 2 ^ 21 = b / 2 ^ 21 -> plook 2 m pt a <> None -> plook 2 m pt b <> None.
Proof.
  intros Ha Hb E.
  assert (P : forall l, l = 1 \/ l = 2 -> PX l a = PX l b).
  { intros l Hl. rewrite !PX_eq by lia. replace (2 ^ (12 + 9 * l)) with (2 ^ 21 * 2 ^ (9 * (l - 1))) by (destruct Hl as [-> | ->]; done).
    rewrite <- !Z.div_div by (lia || (destruct Hl as [-> | ->]; done)). by rewrite E. }
  cbn [plook]. change (Z.of_nat 2) with 2. change (Z.of_nat 1) with 1. rewrite !P by tauto.
  destruct (pv (word m pt (PX 2 b))); [|done]. by destruct (pv _).
Qed.

Lemma page_add a : a mod PGSIZE = 0 -> (a + PGSIZE) mod PGSIZE = 0.
Proof. intros H. rewrite <- Zplus_mod_idemp_r, Z_mod_same_full. by rewrite Z.add_0_r. Qed.

Lemma mappages_loop_k n pt a pa perm k fl c :
  ktab_ok k pt fl -> a mod PGSIZE = 0 -> 0 <= a -> a + PGSIZE * Z.of_nat n <= MAXVA -> (0 < n)%nat ->
  pa mod PGSIZE = 0 -> 0 <= pa -> pa + PGSIZE * Z.of_nat n <= 2 ^ 56 -> 0 <= perm < 1024 ->
  (forall i, 0 <= i < Z.of_nat n -> trans (k_mem k) pt (a + PGSIZE * i) = None) ->
  0 <= c -> plook 2 (k_mem k) pt a <> None \/ c = 1 ->
  2 * (c + (a + PGSIZE * (Z.of_nat n - 1)) / 2 ^ 21 - a / 2 ^ 21) < zlen fl ->
  exists k' fl', mappages_loop n pt a pa perm k = Ok 0 k' /\
    kmaps k pt fl (2 * (c + (a + PGSIZE * (Z.of_nat n - 1)) / 2 ^ 21 - a / 2 ^ 21)) (map_range a pa perm (Z.of_nat n) (trans (k_mem k) pt)) k' fl'.
Proof.
  revert a pa k fl c. induction n as [|n IH]; [lia|]. intros a pa k fl c T Ha1 Ha2 Ha3 _ Hp1 Hp2 Hp3 Hperm Ht Hc0 Hc Hlen.
  assert (Hd : a / 2 ^ 21 <= (a + PGSIZE * (Z.of_nat (S n) - 1)) / 2 ^ 21) by (apply Z.div_le_mono; lia).
  destruct (map_page_k pt a pa perm k fl c T ltac:(lia) Hp1 ltac:(lia) Hperm) as (k1 & fl1 & E & L & K);
    [rewrite <- (Ht 0) by lia; f_equal; lia|exact Hc0|exact Hc|lia|].
  rewrite mappages_loop_S. unfold sbind at 1. rewrite E. cbn [Z.eqb]. pose proof (km_used K).
  destruct n as [|n].
  { exists k1, fl1. split; [done|]. apply (kmaps_ext _ _ _ (2 * c)) with (3 := K); [lia|]. intros va Hva.
    change (Z.of_nat 1) with (0 + 1). rewrite <- map_range_S by (done || lia). by rewrite map_range_0. }
  assert (Hr : exists c', 0 <= c' /\ (plook 2 (k_mem k1) pt (a + PGSIZE) <> None \/ c' = 1) /\ c' <= (a + PGSIZE) / 2 ^ 21 - a / 2 ^ 21).
  { destruct (decide (a / 2 ^ 21 = (a + PGSIZE) / 2 ^ 21)) as [Er|Er].
    - exists 0. split; [lia|]. split; [left; exact (look_region _ _ a (a + PGSIZE) Ha2 ltac:(lia) Er L)|]. rewrite <- Er, Z.sub_diag. lia.
    - exists 1. split; [lia|]. split; [by right|]. pose proof (Z.div_le_mono a (a + PGSIZE) (2 ^ 21) ltac:(lia) ltac:(lia)). lia. }
  destruct Hr as (c' & C0 & C1 & C2).
  replace (a + PGSIZE * (Z.of_nat (S (S n)) - 1)) with (a + PGSIZE + PGSIZE * (Z.of_nat (S n) - 1)) in * by lia.
  set (e := (a + PGSIZE + PGSIZE * (Z.of_nat (S n) - 1)) / 2 ^ 21) in *.
  destruct (IH (a + PGSIZE) (pa + PGSIZE) k1 fl1 c') as (k' & fl' & E' & K');
    [apply (km_ok K)|by apply page_add|lia|lia|lia|by apply page_add|lia|lia|exact Hperm| |exact C0|exact C1|fold e; lia|].
  { intros i Hi. rewrite (km_tr K) by lia. unfold upd_page.
    assert ((a + PGSIZE + PGSIZE * i) / PGSIZE = a / PGSIZE + (1 + i)) as ->.
    { replace (a + PGSIZE + PGSIZE * i) with (a + (1 + i) * PGSIZE) by lia. rewrite Z.div_add by lia. lia. }
    destruct (Z.eqb_spec (a / PGSIZE + (1 + i)) (a / PGSIZE)); [lia|]. rewrite <- (Ht (i + 1)) by lia. f_equal. lia. }
  fold e in K'. exists k', fl'. split; [exact E'|].
  apply (kmaps_ext _ _ _ (2 * c + 2 * (c' + e - (a + PGSIZE) / 2 ^ 21))) with (3 := kmaps_trans _ _ _ _ _ _ _ _ _ _ _ K K'); [lia|].
  intros va Hva. replace (Z.of_nat (S (S n))) with (Z.of_nat (S n) + 1) by lia. rewrite <- map_range_S by (done || lia).
  unfold map_range. destruct (_ && _); [done|]. by apply (km_tr K).
Qed.

(** The regions [sz] bytes from [va] on touch. *)
Definition regions (va sz : Z) : Z := (va + sz - 1) / 2 ^ 21 - va / 2 ^ 21 + 1.

Lemma kvmmap_run pt va pa sz perm k fl :
  ktab_ok k pt fl -> va mod PGSIZE = 0 -> sz mod PGSIZE = 0 -> 0 <= va -> 0 < sz -> va + sz <= MAXVA ->
  pa mod PGSIZE = 0 -> 0 <= pa -> pa + sz <= 2 ^ 56 -> 0 <= perm < 1024 ->
  (forall x, va <= x < va + sz -> trans (k_mem k) pt x = None) -> 2 * regions va sz < zlen fl ->
  exists k' fl', kvmmap pt va pa sz perm k = Ok tt k' /\
    kmaps k pt fl (2 * regions va sz)
      (fun x => if in_rng va sz x then kmapped (pa + (PGROUNDDOWN x - va)) perm else trans (k_mem k) pt x) k' fl'.
Proof.
  intros T Ha Hs Ha0 Hs0 Hm Hp1 Hp2 Hp3 Hperm Ht Hlen.
  pose proof (Z.div_mod sz PGSIZE ltac:(lia)) as Ds. rewrite Hs, Z.add_0_r in Ds. set (n := sz / PGSIZE) in *.
  pose proof (Z.div_mod va PGSIZE ltac:(lia)) as Dv. rewrite Ha, Z.add_0_r in Dv. assert (Hn : 0 < n) by lia.
  assert (El : PGROUNDDOWN (va + sz - 1) = va + PGSIZE * (n - 1)).
  { apply page_down; [|lia]. rewrite Dv, <- Z.mul_add_distr_l, Z.mul_comm. apply Z.mod_mul. lia. }
  assert (Er : (va + PGSIZE * (n - 1)) / 2 ^ 21 = (va + sz - 1) / 2 ^ 21).
  { change (2 ^ 21) with (PGSIZE * 512). rewrite <- !Z.div_div by lia. f_equal. rewrite <- El. unfold PGROUNDDOWN.
    pose proof (Z.div_mod (va + sz - 1) PGSIZE ltac:(lia)) as D.
    replace (va + sz - 1 - (va + sz - 1) mod PGSIZE) with ((va + sz - 1) / PGSIZE * PGSIZE) by lia. apply Z.div_mul. lia. }
  unfold kvmmap, mappages, sbind at 1. rewrite (proj2 (Z.eqb_neq sz 0)) by lia. cbv zeta. rewrite El, (page_down va va) by lia.
  replace (va + PGSIZE * (n - 1) - va) with ((n - 1) * PGSIZE) by lia. rewrite Z.div_mul, Z.sub_add by lia.
  unfold regions in *. destruct (mappages_loop_k (Z.to_nat n) pt va pa perm k fl 1) as (k' & fl' & E & K); rewrite ?Z2Nat.id in * by lia;
    try done; try lia.
  - intros i Hi. apply Ht. lia.
  - rewrite E. cbn [Z.eqb negb]. exists k', fl'. split; [done|].
    apply (kmaps_ext _ _ _ _ _ _ _) with (3 := K); [lia|]. intros x Hx. unfold map_range, in_rng. by rewrite <- Ds.
Qed.

(** ** Lemmas: kvmmake *)

Definition add_rng (va sz pa perm : Z) (v : Z -> option Z) (x : Z) : option Z :=
  if in_rng va sz x then kmapped (pa + (PGROUNDDOWN x - va)) perm else v x.

Lemma in_rng_spec a sz x : in_rng a sz x = true <-> a <= x < a + sz.
Proof. unfold in_rng. rewrite andb_true_iff, Z.leb_le, Z.ltb_lt. done. Qed.

Lemma in_rng_false a sz x : in_rng a sz x = false <-> ~ (a <= x < a + sz).
Proof. rewrite <- in_rng_spec. by destruct (in_rng a sz x). Qed.

Lemma ktab_new k p fl : mem_ok k (p :: fl) ->
  ktab_ok (zeroed p k) p fl /\ (forall va, trans (k_mem (zeroed p k)) p va = None) /\ ptree 2 (k_mem (zeroed p k)) p = [p].
Proof.
  intros Mk. pose proof (mo_nodup Mk) as Nd. apply NoDup_cons in Nd as [Np _].
  destruct (free_pos k (p :: fl) p Mk ltac:(apply elem_of_cons; by left)) as [Hp Ha].
  assert (Hz : forall i, 0 <= i < 512 -> word (k_mem (zeroed p k)) p i = 0) by (intros i Hi; by apply word_zeros).
  destruct (ptree_zero 2 _ p Hz) as [Et _]. split; [|split; [intros va; by apply tr_zero|exact Et]]. split.
  - apply (mem_ok_set _ _ _ [p]); [apply (kalloc_cons k p fl Mk)|exact (nw_pages p k fl Mk)| |].
    + intros x Hx. apply not_elem_of_cons in Hx as [Hx _]. by rewrite page_insert, decide_False.
    + intros x Hx Hx'. apply list_elem_of_singleton in Hx' as ->. done.
  - exact Ha.
  - rewrite Et. apply NoDup_singleton.
  - intros x. rewrite Et. intros Hx. by apply list_elem_of_singleton in Hx as ->.
  - intros x. rewrite Et. intros Hx. apply list_elem_of_singleton in Hx as ->. lia.
Qed.

(** kvmmap in a sequence of mappings. *)
Lemma kvmmap_step k0 pt fl0 u v k fl va pa sz perm :
  kmaps k0 pt fl0 u v k fl -> va mod PGSIZE = 0 -> sz mod PGSIZE = 0 -> 0 <= va -> 0 < sz -> va + sz <= MAXVA ->
  pa mod PGSIZE = 0 -> 0 <= pa -> pa + sz <= 2 ^ 56 -> 0 <= perm < 1024 ->
  (forall x, va <= x < va + sz -> v x = None) -> u + 2 * regions va sz < zlen fl0 ->
  exists k' fl', kvmmap pt va pa sz perm k = Ok tt k' /\ kmaps k0 pt fl0 (u + 2 * regions va sz) (add_rng va sz pa perm v) k' fl' /\
    (forall x, x ∈ fl' -> x ∈ fl) /\ (forall x, x ∈ ptree 2 (k_mem k') pt -> x ∈ ptree 2 (k_mem k) pt \/ x ∈ fl).
Proof.
  intros K H1 H2 H3 H4 H5 H6 H7 H8 H9 Hv Hu. pose proof (km_used K).
  destruct (kvmmap_run pt va pa sz perm k fl (km_ok K) H1 H2 H3 H4 H5 H6 H7 H8 H9) as (k' & fl' & E & K').
  - intros x Hx. rewrite (km_tr K) by lia. by apply Hv.
  - lia.
  - exists k', fl'. split; [exact E|]. split; [|split; [apply (km_fl K')|apply (km_sub K')]].
    apply (kmaps_ext _ _ _ _ _ _ _) with (3 := kmaps_trans _ _ _ _ _ _ _ _ _ _ _ K K'); [lia|].
    intros x Hx. unfold add_rng. destruct (in_rng va sz x); [done|]. by apply (km_tr K).
Qed.

(** A page is taken for a stack. *)
Lemma ktab_alloc k pt p fl : ktab_ok k pt (p :: fl) -> kmaps k pt (p :: fl) 1 (trans (k_mem k) pt) (kalloced p k) fl /\
  p ∉ fl /\ p ∉ ptree 2 (k_mem (kalloced p k)) pt.
Proof.
  intros [Mk R N F P]. destruct (kalloc_cons k p fl Mk) as [_ M1]. pose proof (mo_nodup Mk) as Nd. apply NoDup_cons in Nd as [Np _].
  assert (Hp : p ∉ ptree 2 (k_mem k) pt) by (intros H; apply (F p H), elem_of_cons; by left).
  assert (Hf : forall va, ptree 2 (k_mem (kalloced p k)) pt = ptree 2 (k_mem k) pt /\
    plook 2 (k_mem (kalloced p k)) pt va = plook 2 (k_mem k) pt va /\ tr 2 (k_mem (kalloced p k)) pt va = tr 2 (k_mem k) pt va).
  { intros va. apply tables_frame. intros c Hc. apply same_kalloced. rewrite list_elem_of_singleton. by intros ->. }
  destruct (Hf 0) as (Et & _ & _). split; [|split; [exact Np|by rewrite Et]]. split.
  - split; rewrite ?Et; try done. intros x Hx Hx'. apply (F x Hx), elem_of_cons. by right.
  - by destruct k.
  - intros x Hx. apply elem_of_cons. by right.
  - unfold zlen. cbn [length]. lia.
  - intros x Hx. apply same_kalloced. rewrite list_elem_of_singleton. intros ->. apply Hx, elem_of_app. right. apply elem_of_cons. by left.
  - rewrite Et. by left.
  - intros va q. by destruct (Hf va) as (_ & -> & _).
  - intros va _. apply Hf.
Qed.

(** The stacks [stk] of [slots] are mapped. *)
Fixpoint stk_map (slots : list nat) (stk : list Z) (v : Z -> option Z) : Z -> option Z :=
  match slots, stk with
  | i :: slots, p :: stk => stk_map slots stk (add_rng (KSTACK i) PGSIZE p (Z.lor PTE_R PTE_W) v)
  | _, _ => v
  end.

Lemma KSTACK_aligned i : KSTACK i mod PGSIZE = 0.
Proof.
  unfold KSTACK. replace (TRAMPOLINE - (Z.of_nat i + 1) * 2 * PGSIZE) with ((2 ^ 26 - 1 - (Z.of_nat i + 1) * 2) * PGSIZE) by lia.
  apply Z.mod_mul. lia.
Qed.

Lemma KSTACK_page i : (i < 64)%nat -> KSTACK i mod PGSIZE = 0 /\ PHYSTOP <= KSTACK i /\ KSTACK i + PGSIZE < TRAMPOLINE /\ regions (KSTACK i) PGSIZE = 1.
Proof.
  intros Hi. split; [apply KSTACK_aligned|]. unfold regions, KSTACK. split; [lia|]. split; [lia|].
  assert (D : forall x, 2 ^ 38 - 2 ^ 21 <= x < 2 ^ 38 -> x / 2 ^ 21 = 2 ^ 17 - 1).
  { intros x Hx. symmetry. apply (Z.div_unique_pos _ _ _ (x - (2 ^ 38 - 2 ^ 21))); lia. }
  rewrite !D by lia. lia.
Qed.

Lemma add_rng_other va sz pa perm v x : ~ (va <= x < va + sz) -> add_rng va sz pa perm v x = v x.
Proof. intros H. unfold add_rng. by rewrite (proj2 (in_rng_false va sz x) H). Qed.

Lemma mapstacks_run slots pt k fl v :
  ktab_ok k pt fl -> NoDup slots -> (forall i, i ∈ slots -> (i < 64)%nat) ->
  (forall x, 0 <= x < MAXVA -> trans (k_mem k) pt x = v x) ->
  (forall i x, i ∈ slots -> KSTACK i <= x < KSTACK i + PGSIZE -> v x = None) ->
  3 * Z.of_nat (length slots) < zlen fl ->
  exists stk k' fl', mapstacks_loop slots pt k = Ok tt k' /\ length stk = length slots /\ NoDup stk /\
    (forall p, p ∈ stk -> p ∈ fl /\ p ∉ fl' /\ p ∉ ptree 2 (k_mem k') pt) /\
    kmaps k pt fl (3 * Z.of_nat (length slots)) (stk_map slots stk v) k' fl'.
Proof.
  revert k fl v. induction slots as [|i slots IH]; intros k fl v T Hnd Hs Hv Hx Hlen.
  { exists [], k, fl. split; [done|]. split; [done|]. split; [apply NoDup_nil_2|]. split; [intros p Hp; by apply not_elem_of_nil in Hp|].
    apply (kmaps_ext _ _ _ 0 _ (trans (k_mem k) pt)); [lia|exact Hv|by apply kmaps_refl]. }
  apply NoDup_cons in Hnd as [Hi Hnd]. cbn [length] in *. destruct fl as [|p fl]; [unfold zlen in Hlen; cbn in Hlen; lia|].
  destruct (KSTACK_page i) as (S1 & S2 & S3 & S4); [apply Hs, elem_of_cons; by left|].
  destruct (free_pos k (p :: fl) p (kt_mem T) ltac:(apply elem_of_cons; by left)) as [Hp Ha].
  destruct (ktab_alloc k pt p fl T) as (K & Np & Nt). cbn [mapstacks_loop]. unfold sbind at 1. rewrite (proj1 (kalloc_cons k p fl (kt_mem T))).
  rewrite (proj2 (Z.eqb_neq p 0)) by lia. pose proof (kmaps_ext _ _ _ 1 1 _ v _ _ ltac:(lia) Hv K) as K1.
  destruct (kvmmap_step k pt (p :: fl) 1 v _ fl (KSTACK i) p PGSIZE (Z.lor PTE_R PTE_W) K1 S1) as (k1 & fl1 & E & K2 & F2 & T2);
    [done|lia|lia|lia|exact Ha|lia|lia|done| |rewrite S4; lia|].
  { intros x. apply Hx, elem_of_cons. by left. }
  unfold sbind. rewrite E. pose proof (km_used K2) as Hu2. rewrite S4 in Hu2, K2.
  destruct (IH k1 fl1 (add_rng (KSTACK i) PGSIZE p (Z.lor PTE_R PTE_W) v)) as (stk & k' & fl' & E' & L & N & D & K3).
  - apply (km_ok K2).
  - exact Hnd.
  - intros j Hj. apply Hs, elem_of_cons. by right.
  - apply (km_tr K2).
  - intros j x Hj Hjx. rewrite add_rng_other.
    + apply (Hx j x); [apply elem_of_cons; by right|done].
    + assert (i <> j) by (intros ->; done). unfold KSTACK in *. lia.
  - lia.
  - exists (p :: stk), k', fl'. split; [exact E'|]. split; [cbn; lia|].
    assert (Hstk : forall q, q ∈ stk -> q ∈ fl) by (intros q Hq; apply F2; by apply D). split.
    { apply NoDup_cons. split; [|exact N]. intros Hq. by apply Np, Hstk. }
    split; [|apply (kmaps_ext _ _ _ _ _ _ _) with (3 := kmaps_trans _ _ _ _ _ _ _ _ _ _ _ K2 K3); [lia|done]].
    intros q Hq. apply elem_of_cons in Hq as [->|Hq].
    + split; [apply elem_of_cons; by left|]. split; [intros H; by apply Np, F2, (km_fl K3)|].
      intros H. apply (km_sub K3) in H as [H|H]; [|by apply Np, F2]. apply T2 in H as [H|H]; done.
    + destruct (D q Hq) as (D1 & D2 & D3). split; [apply elem_of_cons; right; by apply Hstk|done].
Qed.

(** [stack_at] for the stacks of the slots from [i] on. *)
Definition stack_from (i : Z) (stk : list Z) (va : Z) : option Z :=
  let d := (TRAMPOLINE - PGROUNDDOWN va) / PGSIZE in
  if (2 * i <? d) && Z.even d then stk !! Z.to_nat (d / 2 - 1 - i) else None.

Lemma stack_from_cons i p stk va : 0 <= va < MAXVA ->
  stack_from (Z.of_nat i) (p :: stk) va = if in_rng (KSTACK i) PGSIZE va then Some p else stack_from (Z.of_nat (S i)) stk va.
Proof.
  intros Hva. unfold stack_from, in_rng, KSTACK, PGROUNDDOWN. pose proof (Z.div_mod va PGSIZE ltac:(lia)) as D.
  pose proof (Z.mod_pos_bound va PGSIZE ltac:(lia)) as B. set (q := va / PGSIZE) in *.
  replace (TRAMPOLINE - (va - va mod PGSIZE)) with ((2 ^ 26 - 1 - q) * PGSIZE) by lia. rewrite Z.div_mul by lia.
  set (d := 2 ^ 26 - 1 - q). pose proof (Zeven_div2 d) as Ev. rewrite Z.div2_div in Ev.
  assert (Hin : TRAMPOLINE - (Z.of_nat i + 1) * 2 * PGSIZE <= va < TRAMPOLINE - (Z.of_nat i + 1) * 2 * PGSIZE + PGSIZE <-> d = 2 * (Z.of_nat i + 1))
    by (unfold d; lia).
  destruct (Z.leb_spec (TRAMPOLINE - (Z.of_nat i + 1) * 2 * PGSIZE) va),
    (Z.ltb_spec va (TRAMPOLINE - (Z.of_nat i + 1) * 2 * PGSIZE + PGSIZE)); cbn [andb].
  1:{ rewrite (proj1 Hin) by lia. destruct (Z.ltb_spec (2 * Z.of_nat i) (2 * (Z.of_nat i + 1))); [|lia].
      rewrite Z.even_mul. cbn [Z.even orb andb]. rewrite (Z.mul_comm 2), Z.div_mul by lia. by replace (Z.of_nat i + 1 - 1 - Z.of_nat i) with 0 by lia. }
  all: assert (Hd : d <> 2 * (Z.of_nat i + 1)) by (intros E; apply Hin in E; lia); clear Hin;
    destruct (Z.even d) eqn:Ed; [|by rewrite !andb_false_r]; apply Z.even_spec in Ed as [h Eh]; rewrite Eh, (Z.mul_comm 2 h), Z.div_mul by lia;
    destruct (Z.ltb_spec (2 * Z.of_nat i) (h * 2)), (Z.ltb_spec (2 * Z.of_nat (S i)) (h * 2)); cbn [andb]; try lia; try done;
    replace (Z.to_nat (h - 1 - Z.of_nat i)) with (S (Z.to_nat (h - 1 - Z.of_nat (S i)))) by lia; done.
Qed.

Lemma stk_map_from n i stk v va : length stk = n -> 0 <= va < MAXVA ->
  stk_map (seq i n) stk v va = match stack_from (Z.of_nat i) stk va with Some p => kmapped p (Z.lor PTE_R PTE_W) | None => v va end.
Proof.
  revert i stk v. induction n as [|n IH]; intros i stk v Hl Hva; destruct stk as [|p stk]; try discriminate Hl; cbn [seq stk_map].
  - unfold stack_from. by destruct (_ && _).
  - rewrite stack_from_cons, IH by (cbn in Hl; lia || done).
    unfold add_rng. destruct (in_rng (KSTACK i) PGSIZE va) eqn:Hr.
    + apply in_rng_spec in Hr. assert (P : PGROUNDDOWN va = KSTACK i) by (apply page_down; [apply KSTACK_aligned|exact Hr]).
      assert (E : stack_from (Z.of_nat (S i)) stk va = None).
      { unfold stack_from. rewrite P. replace (TRAMPOLINE - KSTACK i) with ((2 * (Z.of_nat i + 1)) * PGSIZE) by (unfold KSTACK; lia).
        rewrite Z.div_mul by lia. destruct (Z.ltb_spec (2 * Z.of_nat (S i)) (2 * (Z.of_nat i + 1))); [lia|done]. }
      rewrite E, P. do 2 f_equal. lia.
    + done.
Qed.

Lemma stack_at_from stk va : stack_at stk va = stack_from 0 stk va.
Proof. unfold stack_at, stack_from. cbv zeta. rewrite Z.mul_0_r. by rewrite Z.sub_0_r. Qed.

(** What kernel.ld fixes of the kernel's image: the text ends at a page
    boundary and contains the trampoline page. *)
Record image_ok (etext trampoline : Z) : Prop := {
  im_etext : etext mod PGSIZE = 0;
  im_range : KERNBASE < etext < PHYSTOP;
  im_tramp : trampoline mod PGSIZE = 0;
  im_in : KERNBASE <= trampoline < etext
}.

Definition direct (etext trampoline : Z) : Z -> option Z :=
  add_rng TRAMPOLINE PGSIZE trampoline (Z.lor PTE_R PTE_X)
    (add_rng etext (PHYSTOP - etext) etext (Z.lor PTE_R PTE_W)
      (add_rng KERNBASE (etext - KERNBASE) KERNBASE (Z.lor PTE_R PTE_X)
        (add_rng PLIC 0x400000 PLIC (Z.lor PTE_R PTE_W)
          (add_rng VIRTIO0 PGSIZE VIRTIO0 (Z.lor PTE_R PTE_W)
            (add_rng UART0 PGSIZE UART0 (Z.lor PTE_R PTE_W) (fun _ => None)))))).

Section Make.
  Context (etext trampoline : Z) (Im : image_ok etext trampoline).

(** The free pages kvmmake may need before the stacks: the tables of the
    regions it maps. *)
Lemma direct_regions : regions UART0 PGSIZE = 1 /\ regions VIRTIO0 PGSIZE = 1 /\ regions PLIC 0x400000 = 2 /\
  regions TRAMPOLINE PGSIZE = 1 /\ 1 <= regions KERNBASE (etext - KERNBASE) /\ 1 <= regions etext (PHYSTOP - etext) /\
  regions KERNBASE (etext - KERNBASE) + regions etext (PHYSTOP - etext) <= 65.
Proof.
  do 4 (split; [reflexivity|]). destruct Im as [_ R _ _]. unfold regions.
  replace (KERNBASE + (etext - KERNBASE) - 1) with (etext - 1) by lia. replace (etext + (PHYSTOP - etext) - 1) with (PHYSTOP - 1) by lia.
  change (KERNBASE / 2 ^ 21) with 1024. change ((PHYSTOP - 1) / 2 ^ 21) with 1087.
  pose proof (Z.div_le_mono KERNBASE (etext - 1) (2 ^ 21) ltac:(lia) ltac:(lia)) as H1. change (KERNBASE / 2 ^ 21) with 1024 in H1.
  pose proof (Z.div_le_mono etext (PHYSTOP - 1) (2 ^ 21) ltac:(lia) ltac:(lia)) as H2. change ((PHYSTOP - 1) / 2 ^ 21) with 1087 in H2.
  pose proof (Z.div_le_mono (etext - 1) etext (2 ^ 21) ltac:(lia) ltac:(lia)). lia.
Qed.

Lemma direct_run pt k fl : ktab_ok k pt fl -> (forall va, trans (k_mem k) pt va = None) -> 140 < zlen fl ->
  exists k' fl', kmaps k pt fl 140 (direct etext trampoline) k' fl' /\ forall A (f : unit -> stM kst A),
    (kvmmap pt UART0 UART0 PGSIZE (Z.lor PTE_R PTE_W);;
     kvmmap pt VIRTIO0 VIRTIO0 PGSIZE (Z.lor PTE_R PTE_W);;
     kvmmap pt PLIC PLIC 0x400000 (Z.lor PTE_R PTE_W);;
     kvmmap pt KERNBASE KERNBASE (u64 (etext - KERNBASE)) (Z.lor PTE_R PTE_X);;
     kvmmap pt etext etext (u64 (PHYSTOP - etext)) (Z.lor PTE_R PTE_W);;
     r <- kvmmap pt TRAMPOLINE trampoline PGSIZE (Z.lor PTE_R PTE_X); f r) k = f tt k'.
Proof.
  intros T Ht Hlen. pose proof Im as [I1 I2 I3 I4]. destruct direct_regions as (R1 & R2 & R3 & R4 & R5 & R6 & R7).
  pose proof (kmaps_ext k pt fl 0 0 _ (fun _ => None) k fl ltac:(lia) (fun va _ => Ht va) (kmaps_refl k pt fl T)) as K0.
  assert (Hs1 : (etext - KERNBASE) mod PGSIZE = 0) by (rewrite Zminus_mod, I1; done).
  assert (Hs2 : (PHYSTOP - etext) mod PGSIZE = 0) by (rewrite Zminus_mod, I1; done).
  destruct (kvmmap_step k pt fl _ _ k fl UART0 UART0 PGSIZE (Z.lor PTE_R PTE_W) K0) as (k1 & fl1 & E1 & K1 & _); try done; try lia.
  destruct (kvmmap_step k pt fl _ _ k1 fl1 VIRTIO0 VIRTIO0 PGSIZE (Z.lor PTE_R PTE_W) K1) as (k2 & fl2 & E2 & K2 & _); try done; try lia.
  { intros x Hx. by rewrite !add_rng_other by lia. }
  destruct (kvmmap_step k pt fl _ _ k2 fl2 PLIC PLIC 0x400000 (Z.lor PTE_R PTE_W) K2) as (k3 & fl3 & E3 & K3 & _); try done; try lia.
  { intros x Hx. by rewrite !add_rng_other by lia. }
  destruct (kvmmap_step k pt fl _ _ k3 fl3 KERNBASE KERNBASE (etext - KERNBASE) (Z.lor PTE_R PTE_X) K3) as (k4 & fl4 & E4 & K4 & _); try done; try lia.
  { intros x Hx. by rewrite !add_rng_other by lia. }
  destruct (kvmmap_step k pt fl _ _ k4 fl4 etext etext (PHYSTOP - etext) (Z.lor PTE_R PTE_W) K4) as (k5 & fl5 & E5 & K5 & _); try done; try lia.
  { intros x Hx. by rewrite !add_rng_other by lia. }
  destruct (kvmmap_step k pt fl _ _ k5 fl5 TRAMPOLINE trampoline PGSIZE (Z.lor PTE_R PTE_X) K5) as (k6 & fl6 & E6 & K6 & _); try done; try lia.
  { intros x Hx. by rewrite !add_rng_other by lia. }
  exists k6, fl6. split; [apply (kmaps_ext _ _ _ _ _ _ _) with (3 := K6); [lia|done]|].
  intros A f. unfold u64, sbind. rewrite !Z.mod_small by lia. by rewrite E1, E2, E3, E4, E5, E6.
Qed.
End Make.

Lemma stack_at_range stk va p : length stk = 64%nat -> 0 <= va < MAXVA -> stack_at stk va = Some p -> PHYSTOP <= va < TRAMPOLINE /\ p ∈ stk.
Proof.
  intros Hl Hva H. unfold stack_at, PGROUNDDOWN in H. pose proof (Z.div_mod va PGSIZE ltac:(lia)). pose proof (Z.mod_pos_bound va PGSIZE ltac:(lia)).
  set (q := va / PGSIZE) in *. replace (TRAMPOLINE - (va - va mod PGSIZE)) with ((2 ^ 26 - 1 - q) * PGSIZE) in H by lia.
  rewrite Z.div_mul in H by lia. set (d := 2 ^ 26 - 1 - q) in *. destruct (Z.ltb_spec 0 d); [|done]. destruct (Z.even d) eqn:Ed; [|done].
  cbn [andb] in H. apply Z.even_spec in Ed as [h Eh]. rewrite Eh, (Z.mul_comm 2 h), Z.div_mul in H by lia.
  split; [|by eapply list_elem_of_lookup_2]. pose proof (lookup_lt_Some _ _ _ H). lia.
Qed.

Lemma kernel_map_eq etext trampoline stk va : image_ok etext trampoline -> length stk = 64%nat -> 0 <= va < MAXVA ->
  stk_map (seq 0 64) stk (direct etext trampoline) va = kernel_map etext trampoline stk va.
Proof.
  intros [I1 I2 I3 I4] Hl Hva. rewrite stk_map_from by done. change (Z.of_nat 0) with 0. rewrite <- stack_at_from.
  assert (Hs : forall p, stack_at stk va = Some p -> PHYSTOP <= va < TRAMPOLINE) by (intros p Hp; by eapply stack_at_range).
  unfold kernel_map. destruct (stack_at stk va) as [p|] eqn:E.
  - specialize (Hs p eq_refl). rewrite !(proj2 (in_rng_false _ _ _)) by lia. done.
  - clear Hs. unfold direct, add_rng.
    destruct (in_rng TRAMPOLINE PGSIZE va) eqn:H1.
    { apply in_rng_spec in H1. rewrite !(proj2 (in_rng_false _ _ _)) by lia. rewrite (page_down va TRAMPOLINE) by (done || lia). cbn [orb].
      by rewrite Z.sub_diag, Z.add_0_r. }
    assert (R : forall a perm, kmapped (a + (PGROUNDDOWN va - a)) perm = kmapped (PGROUNDDOWN va) perm) by (intros a perm; unfold kmapped; do 2 f_equal; lia).
    rewrite !R. destruct (in_rng etext (PHYSTOP - etext) va) eqn:H2; [by rewrite !orb_true_r|].
    destruct (in_rng KERNBASE (etext - KERNBASE) va) eqn:H3.
    { apply in_rng_spec in H3. by rewrite !(proj2 (in_rng_false _ _ _)) by lia. }
    destruct (in_rng PLIC _ va), (in_rng VIRTIO0 PGSIZE va), (in_rng UART0 PGSIZE va); done.
Qed.

Lemma mapent_bits pa perm b : pa mod PGSIZE = 0 -> 0 <= pa < 2 ^ 56 -> 0 <= perm < 1024 -> 0 <= b < 10 ->
  Z.testbit (mapent pa perm) b = Z.testbit (Z.lor perm PTE_V) b.
Proof.
  intros Ha Hp Hf Hb. destruct (mapent_fields pa perm Ha Hp Hf) as (_ & <- & _). unfold PTE_FLAGS. change 0x3FF with (Z.ones 10).
  by rewrite Z.land_spec, Z.ones_spec_low, andb_true_r by lia.
Qed.

(** No page of the kernel's table is for user mode, none is both writable
    and executable. *)
Lemma kernel_map_flags etext trampoline stk va e : image_ok etext trampoline -> length stk = 64%nat -> 0 <= va < MAXVA ->
  (forall p, p ∈ stk -> p mod PGSIZE = 0 /\ 0 <= p < 2 ^ 56) -> kernel_map etext trampoline stk va = Some e ->
  Z.testbit e 4 = false /\ Z.testbit e 2 && Z.testbit e 3 = false.
Proof.
  intros [I1 I2 I3 I4] Hl Hva Hs H.
  assert (G : forall pa perm, pa mod PGSIZE = 0 -> 0 <= pa < 2 ^ 56 -> perm = 6 \/ perm = 10 -> kmapped pa perm = Some e ->
    Z.testbit e 4 = false /\ Z.testbit e 2 && Z.testbit e 3 = false).
  { intros pa perm Ha Hp [-> | ->] [= <-]; by rewrite !mapent_bits. }
  assert (Ha : PGROUNDDOWN va mod PGSIZE = 0 /\ 0 <= PGROUNDDOWN va < 2 ^ 56).
  { unfold PGROUNDDOWN. pose proof (Z.div_mod va PGSIZE ltac:(lia)). pose proof (Z.mod_pos_bound va PGSIZE ltac:(lia)).
    split; [|lia]. replace (va - va mod PGSIZE) with (va / PGSIZE * PGSIZE) by lia. apply Z.mod_mul. lia. }
  destruct Ha as [Ha Hb]. unfold kernel_map in H. destruct (_ || _ || _ || _) in H; [exact (G _ _ Ha Hb ltac:(left; reflexivity) H)|].
  destruct (in_rng KERNBASE _ va); [exact (G _ _ Ha Hb ltac:(right; reflexivity) H)|].
  destruct (in_rng TRAMPOLINE _ va); [exact (G _ _ I3 ltac:(lia) ltac:(right; reflexivity) H)|].
  destruct (stack_at stk va) as [p|] eqn:E; [|done]. destruct (stack_at_range stk va p Hl Hva E) as [_ Hp].
  destruct (Hs p Hp) as [S1 S2]. exact (G _ _ S1 S2 ltac:(left; reflexivity) H).
Qed.

Lemma guard_page etext trampoline stk i : image_ok etext trampoline -> (i < 64)%nat ->
  kernel_map etext trampoline stk (KSTACK i - PGSIZE) = None.
Proof.
  intros [I1 I2 I3 I4] Hi. destruct (KSTACK_page i Hi) as (S1 & S2 & S3 & _).
  assert (S5 : PHYSTOP <= KSTACK i - PGSIZE) by (unfold KSTACK in *; lia).
  unfold kernel_map. rewrite !(proj2 (in_rng_false _ _ _)) by lia. cbn [orb].
  unfold stack_at. rewrite (page_down (KSTACK i - PGSIZE) (KSTACK i - PGSIZE)); [|rewrite Zminus_mod, S1; done|lia].
  replace (TRAMPOLINE - (KSTACK i - PGSIZE)) with ((1 + 2 * (Z.of_nat i + 1)) * PGSIZE) by (unfold KSTACK; lia).
  rewrite Z.div_mul, Z.even_add_mul_2 by lia. cbn [Z.even]. by rewrite andb_false_r.
Qed.

Lemma kvmmake_run etext trampoline k fl :
  mem_ok k fl -> image_ok etext trampoline -> 333 < zlen fl ->
  exists pt k' fl' stk, kvmmake etext trampoline k = Ok pt k' /\ ktab_ok k' pt fl' /\ only_mem k k' /\ (forall x, x ∈ fl' -> x ∈ fl) /\ zlen fl <= 333 + zlen fl' /\
    same_pages (k_mem k) (k_mem k') fl /\ (forall x, x ∈ ptree 2 (k_mem k') pt -> x ∈ fl) /\
    length stk = 64%nat /\ NoDup stk /\ (forall p, p ∈ stk -> p ∈ fl /\ p ∉ fl' /\ p ∉ ptree 2 (k_mem k') pt) /\
    (forall va, 0 <= va < MAXVA -> trans (k_mem k') pt va = kernel_map etext trampoline stk va) /\
    (forall i, (i < 64)%nat -> trans (k_mem k') pt (KSTACK i - PGSIZE) = None) /\
    (forall va e, 0 <= va < MAXVA -> trans (k_mem k') pt va = Some e -> Z.testbit e 4 = false /\ Z.testbit e 2 && Z.testbit e 3 = false).
Proof.
  intros Mk Im Hlen. destruct fl as [|p fl]; [unfold zlen in Hlen; cbn in Hlen; lia|].
  assert (Hp : p ∈ p :: fl) by (apply elem_of_cons; by left). assert (Hfl : forall x, x ∈ fl -> x ∈ p :: fl) by (intros x Hx; apply elem_of_cons; by right).
  destruct (ktab_new k p fl Mk) as (T0 & Z0 & Et). assert (L0 : 332 < zlen fl) by (unfold zlen in *; cbn [length] in Hlen; lia).
  destruct (direct_run etext trampoline Im p (zeroed p k) fl T0 Z0 ltac:(lia)) as (k1 & fl1 & K1 & E1). pose proof (km_used K1).
  destruct (mapstacks_run (seq 0 64) p k1 fl1 (direct etext trampoline)) as (stk & k' & fl' & E2 & L & N & D & K2).
  { apply (km_ok K1). }
  { apply NoDup_ListNoDup, seq_NoDup. }
  { intros i Hi. apply list_elem_of_In, in_seq in Hi. lia. }
  { apply (km_tr K1). }
  { intros i x Hi Hx. apply list_elem_of_In, in_seq in Hi. destruct Im. destruct (KSTACK_page i ltac:(lia)) as (_ & S2 & S3 & _).
    unfold direct. by rewrite !add_rng_other by lia. }
  { rewrite length_seq. lia. }
  pose proof (kmaps_trans _ _ _ _ _ _ _ _ _ _ _ K1 K2) as K. rewrite length_seq in L.
  assert (Tr : forall va, 0 <= va < MAXVA -> trans (k_mem k') p va = kernel_map etext trampoline stk va).
  { intros va Hva. rewrite (km_tr K2) by done. by apply kernel_map_eq. }
  assert (Hs : forall q, q ∈ stk -> q ∈ p :: fl) by (intros q Hq; apply Hfl, (km_fl K1); by apply D).
  exists p, k', fl', stk. split.
  { unfold kvmmake, sbind at 1. rewrite (proj1 (kalloc_cons k p fl Mk)). unfold sbind at 1, fill_page, smodify. fold (zeroed p k).
    rewrite E1. unfold sbind, proc_mapstacks. by rewrite E2. }
  split; [apply (km_ok K)|]. split; [apply (only_mem_trans k (zeroed p k)); [by destruct k|apply (km_only K)]|].
  split; [intros x Hx; by apply Hfl, (km_fl K)|]. split; [pose proof (km_used K) as U; rewrite length_seq in U; unfold zlen in *; cbn [length]; lia|].
  split. { intros x Hx. apply not_elem_of_cons in Hx as [H1 H2]. rewrite (km_frame K).
    - unfold zeroed, kalloced. cbn. rewrite !page_insert. by rewrite !decide_False.
    - rewrite Et, elem_of_app, list_elem_of_singleton. tauto. }
  split. { intros x Hx. apply (km_sub K) in Hx as [Hx|Hx]; [|by apply Hfl]. rewrite Et in Hx. by apply list_elem_of_singleton in Hx as ->. }
  split; [exact L|]. split; [exact N|]. split; [intros q Hq; split; [by apply Hs|by apply D]|]. split; [exact Tr|]. split.
  - intros i Hi. destruct (KSTACK_page i Hi) as (_ & S2 & S3 & _). rewrite Tr by lia. by apply guard_page.
  - intros va e Hva. rewrite Tr by exact Hva. apply (kernel_map_flags _ _ stk va e Im L Hva).
    intros q Hq. destruct (free_pos k (p :: fl) q Mk (Hs q Hq)). lia.
Qed.

(** C15. kvmmake, given 334 free pages, does not panic and builds a table
    with exactly these translations: the UART, the virtio disk and the PLIC,
    and the memory from the end of the kernel's text up to PHYSTOP, at their
    own addresses, readable and writable; the kernel's text at its own
    address and the trampoline at the top, readable and executable; the
    stack of each of the 64 process slots, a page of its own off the free
    list, two pages apart; and nothing anywhere else, the pages under the
    stacks included.  No page is accessible in user mode and none is both
    writable and executable.  Only pages off the free list were written. *)
Theorem kvmmake_correct etext trampoline k fl :
  mem_ok k fl -> image_ok etext trampoline -> 333 < zlen fl ->
  exists pt k' fl' stk, kvmmake etext trampoline k = Ok pt k' /\ ktab_ok k' pt fl' /\ only_mem k k' /\
    same_pages (k_mem k) (k_mem k') fl /\ (forall x, x ∈ ptree 2 (k_mem k') pt -> x ∈ fl) /\
    length stk = 64%nat /\ NoDup stk /\ (forall p, p ∈ stk -> p ∈ fl /\ p ∉ fl' /\ p ∉ ptree 2 (k_mem k') pt) /\
    (forall va, 0 <= va < MAXVA -> trans (k_mem k') pt va = kernel_map etext trampoline stk va) /\
    (forall i, (i < 64)%nat -> trans (k_mem k') pt (KSTACK i - PGSIZE) = None) /\
    (forall va e, 0 <= va < MAXVA -> trans (k_mem k') pt va = Some e -> Z.testbit e 4 = false /\ Z.testbit e 2 && Z.testbit e 3 = false).
Proof.
  intros Mk Im Hlen. destruct (kvmmake_run etext trampoline k fl Mk Im Hlen) as (pt & k' & fl' & stk & E & K & O & _ & _ & R). by exists pt, k', fl', stk.
Qed.

Lemma kvmmake_correct_witness : exists k0 pt k', kinit demo_mem = Ok tt k0 /\ kvmmake 0x80008000 0x80007000 k0 = Ok pt k' /\
  trans (k_mem k') pt 0x80007abc = kmapped 0x80007000 (Z.lor PTE_R PTE_X) /\ trans (k_mem k') pt 0 = None.
Proof.
  destruct (kinit_run demo_mem demo_mem_ok ltac:(cbn; lia)) as (k0 & n & E0 & M0 & Hn & _).
  change (PGROUNDUP (k_end demo_mem)) with 0x80021000 in *.
  destruct (kvmmake_correct 0x80008000 0x80007000 k0 _ M0) as (pt & k' & fl' & stk & E & _ & _ & _ & _ & _ & _ & _ & T & _).
  - split; [reflexivity|lia|reflexivity|lia].
  - unfold zlen, page_list. rewrite length_rev, length_map, length_seq. lia.
  - exists k0, pt, k'. split; [exact E0|]. split; [exact E|]. split; rewrite T by lia; reflexivity.
Defined.
