(* ===== verification/UvmSpec.v ===== *)
(** * Growing, shrinking and copying address spaces (kernel/vm.c)

    uvmunmap, uvmdealloc, uvmalloc and uvmcopy over the invariant of
    Uvm.v: what they do to the translation and to the free list, also when
    memory runs out half way. *)
From S2P Require Import Prelude Str Bio Log Crash Machine Types Vm Codec Kmem Pgtbl Uvm.
Local Open Scope st_scope.

(** [n] pages from [a] on were unmapped and their pages [freed]. *)
Definition unmap_range (a n : Z) (v : Z -> option Z) (va : Z) : option Z :=
  if (a <=? va) && (va <? a + PGSIZE * n) then None else v va.

Record unmapped (k : kst) (pt : Z) (fl : list Z) (freed : list Z) (v : Z -> option Z) (k' : kst) : Prop := {
  um_ok : space_ok k' pt (freed ++ fl);
  um_only : only_mem k k';
  um_frame : same_pages (k_mem k) (k_mem k') (pinner 3 (k_mem k) pt ++ freed);
  um_elem : forall x, x ∈ ptree 3 (k_mem k') pt <-> x ∈ ptree 3 (k_mem k) pt /\ x ∉ freed;
  um_inner : pinner 3 (k_mem k') pt = pinner 3 (k_mem k) pt;
  um_tr : forall va, 0 <= va < MAXVA -> trans (k_mem k') pt va = v va
}.
#[global] Arguments um_ok {_ _ _ _ _ _}.
#[global] Arguments um_only {_ _ _ _ _ _}.
#[global] Arguments um_frame {_ _ _ _ _ _}.
#[global] Arguments um_elem {_ _ _ _ _ _}.
#[global] Arguments um_inner {_ _ _ _ _ _}.
#[global] Arguments um_tr {_ _ _ _ _ _}.

(** ** Lemmas: uvmunmap *)

Lemma unmapped_ext k pt fl freed v v' k' : (forall va, 0 <= va < MAXVA -> v va = v' va) ->
  unmapped k pt fl freed v k' -> unmapped k pt fl freed v' k'.
Proof. intros H [A B C D E F]. split; [exact A|exact B|exact C|exact D|exact E|]. intros va Hva. rewrite <- H by exact Hva. by apply F. Qed.

Lemma unmapped_refl k pt fl : space_ok k pt fl -> unmapped k pt fl [] (trans (k_mem k) pt) k.
Proof.
  intros S. split; [exact S|apply only_mem_refl|intros x _; reflexivity| |reflexivity|reflexivity].
  intros x. split; [|tauto]. intros H. split; [exact H|apply not_elem_of_nil].
Qed.

Lemma unmapped_trans k pt fl f1 v1 k1 f2 v2 k2 :
  unmapped k pt fl f1 v1 k1 -> unmapped k1 pt (f1 ++ fl) f2 v2 k2 -> unmapped k pt fl (f2 ++ f1) v2 k2.
Proof.
  intros A B. split.
  - rewrite <- app_assoc. apply (um_ok B).
  - apply (only_mem_trans k k1 k2); [apply (um_only A)|apply (um_only B)].
  - intros x Hx. rewrite !elem_of_app in Hx. rewrite (um_frame B), (um_frame A); [reflexivity|rewrite elem_of_app; tauto|].
    rewrite elem_of_app, (um_inner A). tauto.
  - intros x. rewrite (um_elem B), (um_elem A), elem_of_app. tauto.
  - by rewrite (um_inner B), (um_inner A).
  - apply (um_tr B).
Qed.

(** Freeing a page the tree does not have. *)
Lemma space_free k pt fl p : space_ok k pt fl -> page_in k p -> p ∉ fl -> p ∉ ptree 3 (k_mem k) pt ->
  space_ok (kfreed p k) pt (p :: fl) /\ (forall va, trans (k_mem (kfreed p k)) pt va = trans (k_mem k) pt va) /\
  ptree 3 (k_mem (kfreed p k)) pt = ptree 3 (k_mem k) pt /\ pinner 3 (k_mem (kfreed p k)) pt = pinner 3 (k_mem k) pt.
Proof.
  intros S Hp Hf Ht. assert (Hs : forall c, c ∈ pinner 3 (k_mem k) pt -> page (k_mem (kfreed p k)) c = page (k_mem k) c).
  { intros c Hc. apply same_kfreed. rewrite list_elem_of_singleton. intros ->. by apply Ht, pinner_ptree. }
  destruct (pframe 3 _ _ _ Hs) as [Et Ei]. split; [|split; [intros va; apply (tr_frame 2 _ _ _ va Hs)|split; [exact Et|exact Ei]]].
  split; rewrite ?Et, ?Ei; [exact (kfree_run p k fl (so_mem S) Hp Hf)|exact (so_root S)|exact (so_nodup S)| |exact (so_pos S)].
  intros x Hx. apply not_elem_of_cons. split; [congruence|by apply (so_free S)].
Qed.

(** kfree and a store to another page commute. *)
Lemma kfreed_put p t i e k : t <> p -> set_mem (put_word t i e) (kfreed p k) = kfreed p (set_mem (put_word t i e) k).
Proof.
  intros N. unfold kfreed, put_word. destruct k. cbn. unfold set_freelist, set_mem. cbn. f_equal.
  rewrite !page_insert, !decide_False, !decide_True by congruence.
  rewrite !(insert_insert_ne _ t p) by congruence. reflexivity.
Qed.

(** The page [va] is mapped by a leaf entry [e] to a page kfree accepts. *)
Definition freeable (k : kst) (pt va : Z) : Prop :=
  exists e, trans (k_mem k) pt va = Some e /\ PTE_FLAGS e <> PTE_V /\ page_in k (PTE2PA e).

Definition leaf_page (m : pmem) (pt va : Z) : Z := default 0 (PTE2PA <$> trans m pt va).

(** One iteration of uvmunmap. *)
Definition unmap_page (pt a : Z) (do_free : bool) : stM kst unit :=
  pte <- walk pt a false;
  if pte =? 0 then spanic "uvmunmap: walk"
  else
    e <- ldm64 pte;
    if Z.land e PTE_V =? 0 then spanic "uvmunmap: not mapped"
    else if PTE_FLAGS e =? PTE_V then spanic "uvmunmap: not a leaf"
    else (if do_free then kfree (PTE2PA e) else sret tt);; stm64 pte 0.

Lemma uvmunmap_loop_S n pt a f k : uvmunmap_loop (S n) pt a f k = (unmap_page pt a f;; uvmunmap_loop n pt (a + PGSIZE) f) k.
Proof.
  cbn [uvmunmap_loop]. unfold unmap_page, sbind. destruct (walk pt a false k) as [r k1| | |]; [|done..]. destruct (r =? 0); [done|].
  destruct (ldm64 r k1) as [e k2| | |]; [|done..]. destruct (_ =? 0); [done|]. destruct (_ =? _); [done|].
  by destruct ((if f then kfree (PTE2PA e) else sret tt) k2).
Qed.

Lemma walk_look pt va k fl : space_ok k pt fl -> 0 <= va < MAXVA ->
  walk pt va false k = Ok (match plook 2 (k_mem k) pt va with Some (t, i) => t + 8 * i | None => 0 end) k.
Proof. intros S Hva. unfold walk. destruct (Z.leb_spec MAXVA va); [lia|]. apply (walk_loop_look 2), (so_root S). Qed.

Lemma unmap_page_run pt a k fl : space_ok k pt fl -> 0 <= a < MAXVA -> freeable k pt a ->
  exists k', unmap_page pt a true k = Ok tt k' /\ unmapped k pt fl [leaf_page (k_mem k) pt a] (upd_page a None (trans (k_mem k) pt)) k'.
Proof.
  intros S Ha (e & Ht & Hl & Hp). unfold unmap_page, sbind at 1. rewrite (walk_look pt a k fl S Ha).
  unfold leaf_page. rewrite Ht. cbn [fmap option_fmap option_map default]. unfold trans, tr in Ht.
  destruct (plook 2 (k_mem k) pt a) as [[t i]|] eqn:L; [|done]. destruct (pv (word (k_mem k) t i)) eqn:V; [|done]. injection Ht as <-.
  destruct (plook_aligned _ _ _ _ _ _ (so_root S) L) as [Hta Hi]. pose proof (plook_inner _ _ _ _ _ _ L) as Hin. pose proof (so_pos S t Hin).
  destruct (Z.eqb_spec (t + 8 * i) 0); [lia|]. unfold sbind at 1. rewrite ldm64_run by assumption. pose proof V as V'. unfold pv in V'.
  destruct (Z.land (word (k_mem k) t i) PTE_V =? 0); [done|]. rewrite (proj2 (Z.eqb_neq _ _) Hl). fold (child (k_mem k) t i).
  fold (child (k_mem k) t i) in Hp. set (p := child (k_mem k) t i) in *.
  pose proof (plook_child 2 _ _ _ _ _ L V) as Hpt. fold p in Hpt. pose proof (leaf_not_inner 2 _ _ _ _ _ (so_nodup S) L V) as Hpi. fold p in Hpi.
  unfold sbind at 1. rewrite (kfree_eq p k Hp). rewrite stm64_run by assumption.
  assert (N : t <> p) by (intros E; rewrite E in Hin; exact (Hpi Hin)). rewrite kfreed_put by exact N.
  destruct (space_leaf k pt fl a t i 0 [] S L Ha ltac:(lia) ltac:(done)) as [G U]. set (k1 := set_mem (put_word t i 0) k) in *.
  pose proof (rm_ok G) as S1. assert (Hp1 : p ∉ ptree 3 (k_mem k1) pt).
  { intros Hx. apply (lu_elem U) in Hx as [[_ Hx]|[Hx _]]; [|done]. apply Hx. by split. }
  destruct (space_free k1 pt fl p S1 Hp (so_free S p Hpt) Hp1) as (S2 & T2 & Et & Ei).
  exists (kfreed p k1). split; [reflexivity|]. split; rewrite ?Et, ?Ei.
  - exact S2.
  - apply (only_mem_trans k k1); [apply (rm_only G)|]. by destruct k1.
  - intros x Hx. apply not_elem_of_app in Hx as [Hx1 Hx2]. rewrite (same_kfreed p k1 x Hx2).
    change (k_mem k1) with (put_word t i 0 (k_mem k)). unfold put_word. rewrite page_insert, decide_False; [reflexivity|]. intros ->. exact (Hx1 Hin).
  - intros x. rewrite list_elem_of_singleton. change (k_mem k1) with (put_word t i 0 (k_mem k)). rewrite (lu_elem U).
    split; [intros [[H1 H2]|[H1 _]]; [|discriminate H1]|intros [H1 H2]; left]; (split; [exact H1|]);
      [intros ->; apply H2; split; [exact V|reflexivity]|intros [_ H3]; exact (H2 H3)].
  - exact (lu_inner U).
  - intros va Hva. rewrite T2. exact (rm_tr G va Hva).
Qed.

Lemma unmap_range_S a n v va : a mod PGSIZE = 0 -> 0 <= n ->
  unmap_range (a + PGSIZE) n (upd_page a None v) va = unmap_range a (n + 1) v va.
Proof.
  intros Ha Hn. unfold unmap_range, upd_page. pose proof (Z.div_mod a PGSIZE ltac:(lia)). pose proof (Z.div_mod va PGSIZE ltac:(lia)).
  pose proof (Z.mod_pos_bound va PGSIZE ltac:(lia)).
  destruct (Z.leb_spec (a + PGSIZE) va), (Z.ltb_spec va (a + PGSIZE + PGSIZE * n)), (Z.leb_spec a va), (Z.ltb_spec va (a + PGSIZE * (n + 1)));
    cbn [andb]; try lia; try done; destruct (Z.eqb_spec (va / PGSIZE) (a / PGSIZE)); done || lia.
Qed.

Lemma unmap_range_0 a v va : unmap_range a 0 v va = v va.
Proof. unfold unmap_range. destruct (Z.leb_spec a va), (Z.ltb_spec va (a + PGSIZE * 0)); cbn [andb]; done || lia. Qed.

(** Pages of [n] addresses from [a] on, the last one first. *)
Definition leaf_pages (m : pmem) (pt a : Z) (n : nat) : list Z := rev (map (leaf_page m pt) (page_list a n)).

Lemma leaf_page_trans m m' pt va : trans m' pt va = trans m pt va -> leaf_page m' pt va = leaf_page m pt va.
Proof. intros E. unfold leaf_page. by rewrite E. Qed.

Lemma uvmunmap_loop_run n pt a k fl :
  space_ok k pt fl -> a mod PGSIZE = 0 -> 0 <= a -> a + PGSIZE * Z.of_nat n <= MAXVA ->
  (forall x, x ∈ page_list a n -> freeable k pt x) ->
  exists k', uvmunmap_loop n pt a true k = Ok tt k' /\
    unmapped k pt fl (leaf_pages (k_mem k) pt a n) (unmap_range a (Z.of_nat n) (trans (k_mem k) pt)) k'.
Proof.
  revert a k fl. induction n as [|n IH]; intros a k fl S Ha1 Ha2 Ha3 Hf.
  - exists k. split; [done|]. apply (unmapped_ext _ _ _ _ (trans (k_mem k) pt)); [intros va _; by rewrite unmap_range_0|]. by apply unmapped_refl.
  - assert (Hx : a ∈ page_list a (Datatypes.S n)) by (rewrite page_list_S; apply elem_of_cons; by left).
    destruct (unmap_page_run pt a k fl S ltac:(lia) (Hf a Hx)) as (k1 & E1 & U1).
    assert (Ht : forall x, x ∈ page_list (a + PGSIZE) n -> trans (k_mem k1) pt x = trans (k_mem k) pt x).
    { intros x Hx'. apply elem_page_list in Hx' as [Hx1 _]. rewrite (um_tr U1) by lia. unfold upd_page.
      pose proof (Z.div_mod a PGSIZE ltac:(lia)). pose proof (Z.div_mod x PGSIZE ltac:(lia)). pose proof (Z.mod_pos_bound x PGSIZE ltac:(lia)).
      destruct (Z.eqb_spec (x / PGSIZE) (a / PGSIZE)); [lia|done]. }
    destruct (IH (a + PGSIZE) k1 (leaf_page (k_mem k) pt a :: fl)) as (k' & E2 & U2).
    + exact (um_ok U1).
    + rewrite <- Zplus_mod_idemp_r, Z_mod_same_full. by rewrite Z.add_0_r.
    + lia.
    + lia.
    + intros x Hx'. destruct (Hf x) as (e & He & H2 & H3); [rewrite page_list_S; apply elem_of_cons; by right|].
      exists e. rewrite (Ht x Hx'). split; [exact He|]. split; [exact H2|]. pose proof (um_only U1) as Ho. unfold page_in. rewrite Ho. by destruct k.
    + exists k'. rewrite uvmunmap_loop_S. unfold sbind. rewrite E1. split; [exact E2|].
      unfold leaf_pages in *. rewrite page_list_S. cbn [map rev].
      assert (Em : map (leaf_page (k_mem k1) pt) (page_list (a + PGSIZE) n) = map (leaf_page (k_mem k) pt) (page_list (a + PGSIZE) n)).
      { apply map_ext_in. intros x Hx'. apply leaf_page_trans, Ht. by apply list_elem_of_In. }
      rewrite Em in U2. apply (unmapped_ext _ _ _ _ _ _ _) with (2 := unmapped_trans _ _ _ _ _ _ _ _ _ U1 U2). intros va Hva.
      replace (Z.of_nat (Datatypes.S n)) with (Z.of_nat n + 1) by lia. rewrite <- unmap_range_S by (assumption || lia).
      unfold unmap_range. destruct (_ && _); [done|]. by apply (um_tr U1).
Qed.

(** ** Lemmas: fresh pages *)

Lemma trans_page k pt fl va e : space_ok k pt fl -> trans (k_mem k) pt va = Some e ->
  PTE2PA e ∈ ptree 3 (k_mem k) pt /\ PTE2PA e ∉ pinner 3 (k_mem k) pt /\ PTE2PA e ∉ fl.
Proof.
  intros S. unfold trans, tr. destruct (plook 2 (k_mem k) pt va) as [[t i]|] eqn:L; [|done].
  destruct (pv (word (k_mem k) t i)) eqn:V; [|done]. intros [= <-]. pose proof (plook_child 2 _ _ _ _ _ L V) as Hc.
  split; [exact Hc|]. split; [exact (leaf_not_inner 2 _ _ _ _ _ (so_nodup S) L V)|exact (so_free S _ Hc)].
Qed.

(** The head of the free list, filled with [d]. *)
Definition alloced (p : Z) (d : bytes) (k : kst) : kst := set_mem (insert p d) (kalloced p k).

Lemma space_alloc k pt p fl d : space_ok k pt (p :: fl) -> length d = Z.to_nat PGSIZE ->
  kalloc k = Ok p (kalloced p k) /\ remapped k pt (p :: fl) [] (trans (k_mem k) pt) (alloced p d k) fl /\
  p ∉ ptree 3 (k_mem (alloced p d k)) pt /\ p ∉ fl /\ page (k_mem (alloced p d k)) p = d.
Proof.
  intros S Hd. pose proof S as [Mk R N F P]. destruct (kalloc_cons k p fl Mk) as [E M1]. pose proof (mo_nodup Mk) as Nf.
  apply NoDup_cons in Nf as [Np Nf]. assert (Hp : p ∉ ptree 3 (k_mem k) pt) by (intros Hx; apply (F p Hx), elem_of_cons; by left).
  assert (Hs : forall x, x <> p -> page (k_mem (alloced p d k)) x = page (k_mem k) x).
  { intros x Hx. unfold alloced. change (k_mem (set_mem ?f ?x)) with (f (k_mem x)). rewrite page_insert, decide_False by exact Hx.
    apply same_kalloced. by rewrite list_elem_of_singleton. }
  assert (Hi : forall c, c ∈ pinner 3 (k_mem k) pt -> page (k_mem (alloced p d k)) c = page (k_mem k) c).
  { intros c Hc. apply Hs. intros ->. by apply Hp, pinner_ptree. }
  destruct (pframe 3 _ _ _ Hi) as [Et Ei]. split; [exact E|]. split; [|split; [by rewrite Et|split; [exact Np|]]].
  - split; rewrite ?Et, ?Ei.
    + split; rewrite ?Et, ?Ei; [|exact R|exact N| |exact P].
      * apply (mem_ok_set _ fl _ [p] M1); [by apply pages_ok_insert, Hd; apply (mo_pages M1)| |].
        -- intros x Hx. apply not_elem_of_cons in Hx as [Hx _]. by rewrite page_insert, decide_False.
        -- intros x Hx Hx'. apply list_elem_of_singleton in Hx' as ->. done.
      * intros x Hx Hx'. apply (F x Hx), elem_of_cons. by right.
    + by destruct k.
    + intros x Hx. apply elem_of_cons. by right.
    + intros x Hx. apply Hs. intros ->. apply Hx, elem_of_app. right. apply elem_of_cons. by left.
    + intros x Hx. left. exact Hx.
    + intros x Hx. left. exact Hx.
    + intros va _. apply (tr_frame 2 _ _ _ va Hi).
  - unfold alloced. change (k_mem (set_mem ?f ?x)) with (f (k_mem x)). by rewrite page_insert, decide_True.
Qed.

Lemma remapped_unmapped k pt fl new v k1 fl1 freed v' k' :
  remapped k pt fl new v k1 fl1 -> unmapped k1 pt fl1 freed v' k' -> (forall x, x ∈ freed -> x ∈ fl) -> remapped k pt fl new v' k' (freed ++ fl1).
Proof.
  intros A B Hf. split.
  - exact (um_ok B).
  - exact (only_mem_trans _ _ _ (rm_only A) (um_only B)).
  - intros x Hx. apply elem_of_app in Hx as [Hx|Hx]; [by apply Hf|by apply (rm_fl A)].
  - intros x Hx. apply not_elem_of_app in Hx as [H1 H2]. rewrite (um_frame B), (rm_frame A); [reflexivity|by apply not_elem_of_app|].
    apply not_elem_of_app. split; [|intros H; apply H2, Hf, H]. intros H. apply (rm_inner A) in H as [H|H]; [exact (H1 H)|exact (H2 H)].
  - intros x Hx. apply (um_elem B) in Hx as [Hx _]. by apply (rm_elem A).
  - intros x. rewrite (um_inner B). apply (rm_inner A).
  - exact (um_tr B).
Qed.

(** Pages that came off the free list. *)
Lemma remapped_absorb k pt fl new v k' fl' : (forall x, x ∈ new -> x ∈ fl) -> remapped k pt fl new v k' fl' -> remapped k pt fl [] v k' fl'.
Proof.
  intros H [A B C D E F G]. split; [exact A|exact B|exact C|exact D| |exact F|exact G]. intros x Hx. destruct (E x Hx) as [H1|[H1|H1]]; [left; exact H1|right; left; exact H1|right; left; exact (H x H1)].
Qed.

Lemma mappages_one pt a pa perm k : a mod PGSIZE = 0 -> mappages pt a PGSIZE pa perm k = mappages_loop 1 pt a pa perm k.
Proof.
  intros Ha. unfold mappages. cbn [Z.eqb]. rewrite (page_down a a), (page_down (a + PGSIZE - 1) a) by lia. by rewrite Z.sub_diag.
Qed.

Lemma mappages_one_run pt a pa perm k fl :
  space_ok k pt fl -> a mod PGSIZE = 0 -> 0 <= a < MAXVA -> pa mod PGSIZE = 0 -> 0 <= pa < 2 ^ 56 -> 0 <= perm < 1024 ->
  trans (k_mem k) pt a = None -> pa ∉ ptree 3 (k_mem k) pt -> pa ∉ fl ->
  exists r k' fl', mappages pt a PGSIZE pa perm k = Ok r k' /\
    (r = 0 /\ remapped k pt fl [pa] (upd_page a (Some (mapent pa perm)) (trans (k_mem k) pt)) k' fl' \/
     r = -1 /\ fl' = [] /\ remapped k pt fl [] (trans (k_mem k) pt) k' fl').
Proof.
  intros S Ha1 Ha2 Hp1 Hp2 Hperm Ht Hin Hfl. rewrite mappages_one by exact Ha1. rewrite mappages_loop_S.
  destruct (map_page_run pt a pa perm k fl S Ha2 Hp1 Hp2 Hperm Ht Hin Hfl) as (r & k' & fl' & E & D).
  exists r, k', fl'. unfold sbind. rewrite E. split; [|exact D]. by destruct D as [[-> _]|[-> _]].
Qed.

(** ** Lemmas: a range of fresh pages *)

(** Entries [es] for the pages from [start] on. *)
Definition map_pages (start : Z) (es : list Z) (v : Z -> option Z) (va : Z) : option Z :=
  if va <? start then v va
  else match es !! Z.to_nat ((va - start) / PGSIZE) with Some e => Some e | None => v va end.

Lemma map_pages_in start es v va : start <= va < start + PGSIZE * zlen es ->
  exists i e, Z.to_nat ((va - start) / PGSIZE) = i /\ es !! i = Some e /\ map_pages start es v va = Some e.
Proof.
  intros H. unfold map_pages. destruct (Z.ltb_spec va start); [lia|]. set (i := Z.to_nat ((va - start) / PGSIZE)).
  assert (Hi : (i < length es)%nat).
  { unfold i, zlen in *. pose proof (Z.div_lt_upper_bound (va - start) PGSIZE (Z.of_nat (length es))). lia. }
  apply lookup_lt_is_Some in Hi as [e He]. exists i, e. rewrite He. done.
Qed.

Lemma map_pages_out start es v va : ~ start <= va < start + PGSIZE * zlen es -> map_pages start es v va = v va.
Proof.
  intros H. unfold map_pages. destruct (Z.ltb_spec va start); [done|]. rewrite lookup_ge_None_2; [done|].
  unfold zlen in *. pose proof (Z.div_le_lower_bound (va - start) PGSIZE (Z.of_nat (length es))). lia.
Qed.

Lemma map_pages_snoc start es e v va : start mod PGSIZE = 0 ->
  map_pages start (es ++ [e]) v va = upd_page (start + PGSIZE * zlen es) (Some e) (map_pages start es v) va.
Proof.
  intros Hs. unfold upd_page. assert (Hd : (start + PGSIZE * zlen es) / PGSIZE = start / PGSIZE + zlen es).
  { rewrite (Z.mul_comm PGSIZE). by rewrite Z.div_add by lia. }
  assert (Hq : (va - start) / PGSIZE = va / PGSIZE - start / PGSIZE).
  { pose proof (Z.div_mod start PGSIZE ltac:(lia)). replace (va - start) with (va + (- (start / PGSIZE)) * PGSIZE) by lia. rewrite Z.div_add by lia. lia. }
  pose proof (Z.div_mod start PGSIZE ltac:(lia)). pose proof (Z.div_mod va PGSIZE ltac:(lia)). pose proof (Z.mod_pos_bound va PGSIZE ltac:(lia)).
  rewrite Hd. unfold map_pages. rewrite Hq. unfold zlen. destruct (Z.eqb_spec (va / PGSIZE) (start / PGSIZE + Z.of_nat (length es))) as [E|N].
  - destruct (Z.ltb_spec va start); [lia|]. rewrite E.
    replace (Z.to_nat (start / PGSIZE + Z.of_nat (length es) - start / PGSIZE)) with (length es) by lia. by rewrite list_lookup_middle.
  - destruct (Z.ltb_spec va start); [done|]. set (i := Z.to_nat (va / PGSIZE - start / PGSIZE)).
    destruct (decide (i < length es)%nat); [by rewrite lookup_app_l by lia|].
    rewrite !lookup_ge_None_2; [done|lia|rewrite length_app; cbn; unfold i in *; lia].
Qed.

Lemma map_pages_nil start v va : map_pages start [] v va = v va.
Proof. apply map_pages_out. unfold zlen. cbn. lia. Qed.

(** Since [k0], fresh pages were mapped from [start] on; page [i] of them
    holds [D i] and has the flags [FL i]. *)
Record fresh (D : nat -> bytes) (FL : nat -> Z) (k0 : kst) (pt : Z) (fl0 : list Z) (start : Z) (es : list Z) (k : kst) (fl : list Z) : Prop := {
  fr_rm : remapped k0 pt fl0 [] (map_pages start es (trans (k_mem k0) pt)) k fl;
  fr_in : forall e, e ∈ es -> PTE2PA e ∈ fl0 /\ PTE_FLAGS e <> PTE_V;
  fr_flags : forall i e, es !! i = Some e -> PTE_FLAGS e = Z.lor (FL i) PTE_V;
  fr_data : forall i e, es !! i = Some e -> page (k_mem k) (PTE2PA e) = D i
}.
#[global] Arguments fr_rm {_ _ _ _ _ _ _ _ _}.
#[global] Arguments fr_in {_ _ _ _ _ _ _ _ _}.
#[global] Arguments fr_flags {_ _ _ _ _ _ _ _ _}.
#[global] Arguments fr_data {_ _ _ _ _ _ _ _ _}.

Section Fresh.
  Context (D : nat -> bytes) (FL : nat -> Z) (HD : forall i, length (D i) = Z.to_nat PGSIZE).
  Context (k0 : kst) (pt : Z) (fl0 : list Z) (S0 : space_ok k0 pt fl0) (start : Z).
  Context (Hs1 : start mod PGSIZE = 0) (Hs2 : 0 <= start).

Lemma fresh_nil : fresh D FL k0 pt fl0 start [] k0 fl0.
Proof.
  split; [|intros e He; by apply not_elem_of_nil in He|done|done].
  apply (remapped_ext _ _ _ _ (trans (k_mem k0) pt)); [intros va _; by rewrite map_pages_nil|by apply remapped_refl].
Qed.

Lemma fresh_page k fl es i e : fresh D FL k0 pt fl0 start es k fl -> es !! i = Some e -> start + PGSIZE * zlen es <= MAXVA ->
  trans (k_mem k) pt (start + PGSIZE * Z.of_nat i) = Some e /\ PTE2PA e ∉ pinner 3 (k_mem k) pt /\ PTE2PA e ∉ fl /\ page_in k (PTE2PA e).
Proof.
  intros F He Hm. pose proof (lookup_lt_Some _ _ _ He) as Hi.
  assert (T : trans (k_mem k) pt (start + PGSIZE * Z.of_nat i) = Some e).
  { rewrite (rm_tr (fr_rm F)) by (unfold zlen in Hm; lia). destruct (map_pages_in start es (trans (k_mem k0) pt) (start + PGSIZE * Z.of_nat i)) as (j & e' & Hj & He' & ->).
    { unfold zlen. lia. }
    replace (start + PGSIZE * Z.of_nat i - start) with (Z.of_nat i * PGSIZE) in Hj by lia. rewrite Z.div_mul in Hj by lia.
    assert (j = i) as -> by lia. congruence. }
  split; [exact T|]. destruct (trans_page k pt fl _ e (rm_ok (fr_rm F)) T) as (_ & H2 & H3). split; [exact H2|]. split; [exact H3|].
  apply list_elem_of_lookup_2 in He. apply (fr_in F) in He as [He _]. pose proof (mo_in (so_mem S0)) as I. rewrite Forall_forall in I.
  pose proof (rm_only (fr_rm F)) as Ho. unfold page_in. rewrite Ho. destruct (I _ He) as [I1 I2]. by destruct k0.
Qed.

Lemma fresh_keep k fl es new v k' fl' i e : fresh D FL k0 pt fl0 start es k fl -> remapped k pt fl new v k' fl' ->
  start + PGSIZE * zlen es <= MAXVA -> es !! i = Some e -> page (k_mem k') (PTE2PA e) = D i.
Proof.
  intros F G Hm He. destruct (fresh_page k fl es i e F He Hm) as (_ & H1 & H2 & _).
  rewrite (rm_frame G) by (apply not_elem_of_app; split; assumption). exact (fr_data F i e He).
Qed.

Lemma fresh_snoc k fl es p perm k' fl' :
  fresh D FL k0 pt fl0 start es k fl -> remapped k pt fl [p] (upd_page (start + PGSIZE * zlen es) (Some (mapent p perm)) (trans (k_mem k) pt)) k' fl' ->
  start + PGSIZE * zlen es < MAXVA -> 0 <= perm < 1024 -> Z.lor perm PTE_V <> PTE_V -> p ∈ fl0 -> page (k_mem k') p = D (length es) -> perm = FL (length es) ->
  fresh D FL k0 pt fl0 start (es ++ [mapent p perm]) k' fl'.
Proof.
  intros F G Hm Hperm Hpf Hp Hd Hfl. destruct (free_pos k0 fl0 p (so_mem S0) Hp) as [Hp1 Hp2].
  destruct (mapent_fields p perm Hp2 ltac:(lia) Hperm) as (E1 & E2 & _). split.
  - apply (remapped_absorb _ _ _ [p]); [intros x Hx; apply list_elem_of_singleton in Hx as ->; exact Hp|].
    apply (remapped_ext _ _ _ _ _ _ _ _) with (2 := remapped_trans _ _ _ [] _ _ _ [p] _ _ _ (fr_rm F) G).
    intros va Hva. rewrite map_pages_snoc by exact Hs1. unfold upd_page. destruct (_ =? _); [done|]. by apply (rm_tr (fr_rm F)).
  - intros e He. apply elem_of_app in He as [He|He]; [exact (fr_in F e He)|]. apply list_elem_of_singleton in He as ->. by rewrite E1, E2.
  - intros i e He. apply lookup_app_Some in He as [He|[Hl He]]; [exact (fr_flags F i e He)|].
    apply list_lookup_singleton_Some in He as [Hi <-]. rewrite E2, Hfl. do 2 f_equal. lia.
  - intros i e He. apply lookup_app_Some in He as [He|[Hl He]]; [exact (fresh_keep _ _ _ _ _ _ _ i e F G ltac:(lia) He)|].
    apply list_lookup_singleton_Some in He as [Hi <-]. rewrite E1, Hd. f_equal. lia.
Qed.

(** A page that was taken but not mapped goes back. *)
Lemma fresh_free k es k2 fl2 p : fresh D FL k0 pt fl0 start es k (p :: fl2) -> remapped k pt (p :: fl2) [] (trans (k_mem k) pt) k2 [] ->
  p ∈ fl0 -> p ∉ ptree 3 (k_mem k2) pt -> start + PGSIZE * zlen es <= MAXVA ->
  kfree p k2 = Ok tt (kfreed p k2) /\ fresh D FL k0 pt fl0 start es (kfreed p k2) [p].
Proof.
  intros F G Hp Ht Hm. pose proof (mo_in (so_mem S0)) as I. rewrite Forall_forall in I. destruct (I p Hp) as [I1 I2].
  pose proof (remapped_trans _ _ _ [] _ _ _ [] _ _ _ (fr_rm F) G) as G2.
  assert (Hpi : page_in k2 p) by (pose proof (rm_only G2) as Ho; unfold page_in; rewrite Ho; destruct k0; done).
  split; [by apply kfree_eq|]. destruct (space_free k2 pt [] p (rm_ok G2) Hpi (not_elem_of_nil p) Ht) as (S3 & T & Et & Ei).
  assert (U : unmapped k2 pt [] [p] (map_pages start es (trans (k_mem k0) pt)) (kfreed p k2)).
  { split; rewrite ?Et, ?Ei; [exact S3|by destruct k2| | |reflexivity|].
    - intros x Hx. apply same_kfreed. apply not_elem_of_app in Hx as [_ Hx]. exact Hx.
    - intros x. rewrite list_elem_of_singleton. split; [|tauto]. intros Hx. split; [exact Hx|]. intros ->. exact (Ht Hx).
    - intros va Hva. rewrite T, (rm_tr G va Hva). by apply (rm_tr (fr_rm F)). }
  split; [|exact (fr_in F)|exact (fr_flags F)|].
  - apply (remapped_unmapped _ _ _ _ _ _ _ [p] _ _ G2 U). intros x Hx. apply list_elem_of_singleton in Hx as ->. exact Hp.
  - intros i e He. destruct (fresh_page k _ es i e F He Hm) as (_ & _ & H2 & _). rewrite same_kfreed.
    + exact (fresh_keep _ _ _ _ _ _ _ i e F G Hm He).
    + rewrite list_elem_of_singleton. intros E. apply H2, elem_of_cons. by left.
Qed.

Lemma fresh_undo k fl es : fresh D FL k0 pt fl0 start es k fl -> start + PGSIZE * zlen es <= MAXVA ->
  (forall va, start <= va < start + PGSIZE * zlen es -> trans (k_mem k0) pt va = None) ->
  exists k' fl', uvmunmap pt start (zlen es) true k = Ok tt k' /\ remapped k0 pt fl0 [] (trans (k_mem k0) pt) k' fl'.
Proof.
  intros F Hm Hn. unfold uvmunmap. rewrite Hs1. cbn [Z.eqb negb].
  assert (Hl : forall x, x ∈ page_list start (length es) -> exists e, e ∈ es /\ trans (k_mem k) pt x = Some e /\ page_in k (PTE2PA e)).
  { intros x Hx. unfold page_list in Hx. rewrite list_elem_of_In, in_map_iff in Hx. destruct Hx as (i & <- & Hi). apply in_seq in Hi.
    destruct (lookup_lt_is_Some_2 es i ltac:(lia)) as [e He]. destruct (fresh_page k fl es i e F He Hm) as (T & _ & _ & P).
    exists e. split; [exact (list_elem_of_lookup_2 _ _ _ He)|]. split; [exact T|exact P]. }
  destruct (uvmunmap_loop_run (length es) pt start k fl (rm_ok (fr_rm F)) Hs1 Hs2 Hm) as (k' & E & U).
  { intros x Hx. destruct (Hl x Hx) as (e & He & T & P). exists e. split; [exact T|]. split; [apply (fr_in F e He)|exact P]. }
  replace (Z.to_nat (zlen es)) with (length es) by (unfold zlen; lia). exists k', (leaf_pages (k_mem k) pt start (length es) ++ fl). split; [exact E|].
  assert (Hfr : forall x, x ∈ leaf_pages (k_mem k) pt start (length es) -> x ∈ fl0).
  { intros x Hx. unfold leaf_pages in Hx. rewrite list_elem_of_In, <- in_rev, in_map_iff in Hx. destruct Hx as (y & <- & Hy).
    apply list_elem_of_In in Hy. destruct (Hl y Hy) as (e & He & T & _). unfold leaf_page. rewrite T. apply (fr_in F e He). }
  apply (remapped_ext _ _ _ _ _ _ _ _) with (2 := remapped_unmapped _ _ _ _ _ _ _ _ _ _ (fr_rm F) U Hfr).
  intros va Hva. unfold unmap_range. fold (zlen es). destruct (Z.leb_spec start va), (Z.ltb_spec va (start + PGSIZE * zlen es)); cbn [andb];
    try (rewrite (rm_tr (fr_rm F) va Hva); apply map_pages_out; lia). symmetry. apply Hn. lia.
Qed.

Lemma fresh_step k p fl es perm :
  fresh D FL k0 pt fl0 start es k (p :: fl) -> start + PGSIZE * zlen es < MAXVA -> 0 <= perm < 1024 -> Z.lor perm PTE_V <> PTE_V -> perm = FL (length es) ->
  trans (k_mem k0) pt (start + PGSIZE * zlen es) = None ->
  exists r k2, mappages pt (start + PGSIZE * zlen es) PGSIZE p perm (alloced p (D (length es)) k) = Ok r k2 /\
    (r = 0 /\ (exists fl2, fresh D FL k0 pt fl0 start (es ++ [mapent p perm]) k2 fl2) \/
     r = -1 /\ kfree p k2 = Ok tt (kfreed p k2) /\ fresh D FL k0 pt fl0 start es (kfreed p k2) [p]).
Proof.
  intros F Hm Hperm Hpf Hfl Hn. set (a := start + PGSIZE * zlen es) in *. pose proof (rm_ok (fr_rm F)) as S.
  assert (Hz : 0 <= zlen es) by (unfold zlen; lia).
  assert (Hp : p ∈ fl0) by (apply (rm_fl (fr_rm F)), elem_of_cons; by left). destruct (free_pos k0 fl0 p (so_mem S0) Hp) as [Hp1 Hp2].
  destruct (space_alloc k pt p fl (D (length es)) S (HD _)) as (_ & G1 & Hpt & Hpf' & Hpg). set (k1 := alloced p (D (length es)) k) in *.
  assert (Ha : a mod PGSIZE = 0).
  { unfold a. rewrite (Z.mul_comm PGSIZE). rewrite Z.mod_add by lia. exact Hs1. }
  assert (Hn1 : trans (k_mem k1) pt a = None).
  { rewrite (rm_tr G1) by lia. rewrite (rm_tr (fr_rm F)) by lia. rewrite map_pages_out by lia. exact Hn. }
  destruct (mappages_one_run pt a p perm k1 fl (rm_ok G1) Ha ltac:(lia) Hp2 ltac:(lia) Hperm Hn1 Hpt Hpf') as (r & k2 & fl2 & E & [[-> G2]|(-> & -> & G2)]);
    [exists 0, k2|exists (-1), k2]; (split; [exact E|]).
  - left. split; [reflexivity|]. exists fl2.
    assert (G : remapped k pt (p :: fl) [p] (upd_page a (Some (mapent p perm)) (trans (k_mem k) pt)) k2 fl2).
    { apply (remapped_ext _ _ _ _ _ _ _ _) with (2 := remapped_trans _ _ _ [] _ _ _ [p] _ _ _ G1 G2). intros va Hva. unfold upd_page.
      destruct (_ =? _); [done|]. exact (rm_tr G1 va Hva). }
    apply (fresh_snoc k (p :: fl) es p perm k2 fl2 F G Hm Hperm Hpf Hp); [|exact Hfl]. rewrite (rm_frame G2); [exact Hpg|].
    apply not_elem_of_app. split; [|exact Hpf']. intros Hx. by apply Hpt, pinner_ptree.
  - right. split; [reflexivity|].
    assert (G : remapped k pt (p :: fl) [] (trans (k_mem k) pt) k2 []).
    { apply (remapped_ext _ _ _ _ _ _ _ _) with (2 := remapped_trans _ _ _ [] _ _ _ [] _ _ _ G1 G2). exact (rm_tr G1). }
    apply (fresh_free k es k2 fl p F G Hp); [|lia]. intros Hx.
    apply (rm_elem G2) in Hx as [Hx|[Hx|Hx]]; [exact (Hpt Hx)|exact (Hpf' Hx)|by apply not_elem_of_nil in Hx].
Qed.
End Fresh.

(** ** Lemmas: user bytes *)

Lemma ubyte_remapped k pt fl new v k' fl' va : space_ok k pt fl -> remapped k pt fl new v k' fl' -> 0 <= va ->
  (PGROUNDDOWN va < MAXVA -> v (PGROUNDDOWN va) = trans (k_mem k) pt (PGROUNDDOWN va)) -> ubyte (k_mem k') pt va = ubyte (k_mem k) pt va.
Proof.
  intros S G Hva T. unfold ubyte. assert (Eu : uaddr (k_mem k') pt (PGROUNDDOWN va) = uaddr (k_mem k) pt (PGROUNDDOWN va)) 
    by (unfold uaddr; destruct (Z.leb_spec MAXVA (PGROUNDDOWN va)); [done|]; pose proof (page_down_nonneg va Hva); by rewrite (rm_tr G), T by lia).
  rewrite Eu. destruct (Z.eqb_spec (uaddr (k_mem k) pt (PGROUNDDOWN va)) 0) as [|N]; [done|].
  destruct (uaddr_page k pt fl _ S (page_down_nonneg va Hva) N) as (_ & _ & H1 & H2 & _).
  rewrite (rm_frame G); [done|]. apply not_elem_of_app. split; [exact H2|exact (so_free S _ H1)].
Qed.

Lemma flags_u e f : PTE_FLAGS e = Z.lor f PTE_V -> Z.land e PTE_U = Z.land f PTE_U.
Proof.
  intros E. assert (Z.land e PTE_U = Z.land (PTE_FLAGS e) PTE_U) as ->.
  { unfold PTE_FLAGS. rewrite <- Z.land_assoc. by change (Z.land 1023 PTE_U) with PTE_U. }
  rewrite E, Z.land_lor_distr_l. change (Z.land PTE_V PTE_U) with 0. apply Z.lor_0_r.
Qed.

Lemma fresh_byte D FL k0 pt fl0 start es k fl va : space_ok k0 pt fl0 -> start mod PGSIZE = 0 -> 0 <= start ->
  fresh D FL k0 pt fl0 start es k fl -> start <= va < start + PGSIZE * zlen es -> start + PGSIZE * zlen es <= MAXVA ->
  exists i e, Z.to_nat ((va - start) / PGSIZE) = i /\ es !! i = Some e /\ uaddr (k_mem k) pt (PGROUNDDOWN va) =
    (if Z.land (FL i) PTE_U =? 0 then 0 else PTE2PA e) /\ PTE2PA e ∈ fl0 /\
  ubyte (k_mem k) pt va = if Z.land (FL i) PTE_U =? 0 then None else Some (getb (va mod PGSIZE) (D i)).
Proof.
  intros S0 Hs1 Hs2 F Hva Hm. destruct (page_split va) as (E & B & A).
  assert (Hd : (PGROUNDDOWN va - start) / PGSIZE = (va - start) / PGSIZE /\ start <= PGROUNDDOWN va).
  { pose proof (Z.div_mod start PGSIZE ltac:(lia)). pose proof (Z.div_mod (PGROUNDDOWN va) PGSIZE ltac:(lia)). split; [|lia].
    replace (PGROUNDDOWN va - start) with ((PGROUNDDOWN va / PGSIZE - start / PGSIZE) * PGSIZE) by lia. rewrite Z.div_mul by lia.
    apply Z.div_unique with (va mod PGSIZE); lia. }
  destruct Hd as [Hd Hlo]. destruct (map_pages_in start es (trans (k_mem k0) pt) (PGROUNDDOWN va) ltac:(lia)) as (i & e & Hi & He & Ee).
  exists i, e. rewrite Hd in Hi. split; [exact Hi|]. split; [exact He|].
  destruct (fr_in F e (list_elem_of_lookup_2 _ _ _ He)) as [Hp _]. destruct (free_pos k0 fl0 _ (so_mem S0) Hp) as [Hp1 _].
  assert (Eu : uaddr (k_mem k) pt (PGROUNDDOWN va) = if Z.land (FL i) PTE_U =? 0 then 0 else PTE2PA e).
  { unfold uaddr. destruct (Z.leb_spec MAXVA (PGROUNDDOWN va)); [lia|]. rewrite (rm_tr (fr_rm F)) by lia. rewrite Ee.
    by rewrite (flags_u e (FL i) (fr_flags F i e He)). }
  split; [exact Eu|]. split; [exact Hp|]. unfold ubyte. rewrite Eu. destruct (Z.land (FL i) PTE_U =? 0); [done|].
  rewrite (proj2 (Z.eqb_neq (PTE2PA e) 0) ltac:(lia)). by rewrite (fr_data F i e He).
Qed.

(** ** Lemmas: uvmalloc *)

Lemma PGROUNDUP_aligned x : x mod PGSIZE = 0 -> 0 <= x <= MAXVA -> PGROUNDUP x = x.
Proof.
  intros Ha Hx. unfold PGROUNDUP, u64. rewrite Z.mod_small by lia. cbv zeta. fold (PGROUNDDOWN (x + PGSIZE - 1)). apply page_down; [exact Ha|lia].
Qed.

Lemma PGROUNDUP_spec x : 0 <= x <= MAXVA -> PGROUNDUP x mod PGSIZE = 0 /\ x <= PGROUNDUP x < x + PGSIZE.
Proof.
  intros Hx. assert (PGROUNDUP x = PGROUNDDOWN (x + PGSIZE - 1)) as -> by (unfold PGROUNDUP, u64; by rewrite Z.mod_small by lia).
  destruct (page_split (x + PGSIZE - 1)) as (E & B & A). split; [exact A|lia].
Qed.

Definition zero_page : bytes := replicate (Z.to_nat PGSIZE) 0.
Definition UPERM : Z := Z.lor (Z.lor (Z.lor PTE_W PTE_X) PTE_R) PTE_U.

Section Uvmalloc.
  Context (k0 : kst) (pt : Z) (fl0 : list Z) (S0 : space_ok k0 pt fl0) (start newsz : Z).
  Context (Hs1 : start mod PGSIZE = 0) (Hs2 : 0 <= start) (Hn1 : start < newsz + PGSIZE) (Hn2 : newsz <= MAXVA).
  Context (Hfree : forall va, start <= va < newsz + PGSIZE -> va < MAXVA -> PGROUNDDOWN va < newsz -> trans (k_mem k0) pt va = None).
Let D : nat -> bytes := fun _ => zero_page.
Let FL : nat -> Z := fun _ => UPERM.
Let HD : forall i, length (D i) = Z.to_nat PGSIZE.
  Proof. intros i. apply length_replicate. Qed.

Lemma range_end (es : list Z) : start + PGSIZE * zlen es < newsz + PGSIZE -> start + PGSIZE * zlen es <= MAXVA.
Proof. intros H. pose proof (Z.div_mod start PGSIZE ltac:(lia)). lia. Qed.

Lemma range_free (es : list Z) va : start + PGSIZE * zlen es < newsz + PGSIZE -> start <= va < start + PGSIZE * zlen es -> trans (k_mem k0) pt va = None.
Proof.
  intros H Hva. pose proof (range_end es H). apply Hfree; [lia|lia|]. destruct (page_split va) as (E & B & A).
  pose proof (Z.div_mod start PGSIZE ltac:(lia)). pose proof (Z.div_mod (PGROUNDDOWN va) PGSIZE ltac:(lia)). lia.
Qed.

Lemma dealloc_undo es k fl : fresh D FL k0 pt fl0 start es k fl -> start + PGSIZE * zlen es < newsz + PGSIZE ->
  exists r k' fl', uvmdealloc pt (start + PGSIZE * zlen es) start k = Ok r k' /\ remapped k0 pt fl0 [] (trans (k_mem k0) pt) k' fl'.
Proof.
  intros F H. pose proof (range_end es H) as Hm. assert (Hz : 0 <= zlen es) by (unfold zlen; lia). set (a := start + PGSIZE * zlen es) in *.
  assert (Ha : a mod PGSIZE = 0) by (unfold a; rewrite (Z.mul_comm PGSIZE), Z.mod_add by lia; exact Hs1).
  unfold uvmdealloc. destruct (Z.leb_spec a start) as [Hle|Hgt].
  - exists a, k, fl. split; [done|]. apply (remapped_ext _ _ _ _ _ _ _ _) with (2 := fr_rm F). intros va _. apply map_pages_out. lia.
  - rewrite !PGROUNDUP_aligned by (assumption || lia). destruct (Z.ltb_spec start a); [|lia].
    assert (Hc : s32 ((a - start) / PGSIZE) = zlen es).
    { replace (a - start) with (zlen es * PGSIZE) by (unfold a; lia). rewrite Z.div_mul by lia. apply s32_small. lia. }
    rewrite Hc. destruct (fresh_undo D FL k0 pt fl0 S0 start Hs1 Hs2 k fl es F Hm) as (k' & fl' & E & G).
    { intros va Hva. by apply (range_free es). }
    exists start, k', fl'. unfold sbind. rewrite E. split; [done|exact G].
Qed.

Lemma uvmalloc_loop_run n es k fl :
  fresh D FL k0 pt fl0 start es k fl -> start + PGSIZE * zlen es < newsz + PGSIZE -> newsz - (start + PGSIZE * zlen es) <= PGSIZE * Z.of_nat n ->
  exists r k' fl', uvmalloc_loop n pt (start + PGSIZE * zlen es) start newsz k = Ok r k' /\
    (r = newsz /\ (exists es', fresh D FL k0 pt fl0 start es' k' fl' /\ newsz <= start + PGSIZE * zlen es' < newsz + PGSIZE) \/
     r = 0 /\ remapped k0 pt fl0 [] (trans (k_mem k0) pt) k' fl').
Proof.
  revert es k fl. induction n as [|n IH]; intros es k fl F H Hn; cbn [uvmalloc_loop].
  { exists newsz, k, fl. split; [done|]. left. split; [done|]. exists es. split; [exact F|lia]. }
  destruct (Z.ltb_spec (start + PGSIZE * zlen es) newsz) as [Hlt|Hge]; cbn [negb].
  2:{ exists newsz, k, fl. split; [done|]. left. split; [done|]. exists es. split; [exact F|lia]. }
  assert (Hz : 0 <= zlen es) by (unfold zlen; lia). pose proof (rm_ok (fr_rm F)) as S. destruct fl as [|p fl]; unfold sbind at 1.
  - rewrite kalloc_nil by exact (so_mem S). cbn [Z.eqb]. destruct (dealloc_undo es k [] F H) as (r & k' & fl' & E & G).
    exists 0, k', fl'. unfold sbind. rewrite E. split; [done|]. right. split; [done|exact G].
  - destruct (kalloc_cons k p fl (so_mem S)) as [E _]. rewrite E.
    assert (Hp : p ∈ fl0) by (apply (rm_fl (fr_rm F)), elem_of_cons; by left). destruct (free_pos k0 fl0 p (so_mem S0) Hp) as [Hp1 _].
    rewrite (proj2 (Z.eqb_neq p 0) ltac:(lia)). unfold sbind at 1, fill_page, smodify. fold zero_page. fold (alloced p zero_page k).
    assert (Ht : trans (k_mem k0) pt (start + PGSIZE * zlen es) = None).
    { apply Hfree; [lia|lia|]. rewrite (page_down _ (start + PGSIZE * zlen es)); [lia| |lia]. rewrite (Z.mul_comm PGSIZE), Z.mod_add by lia. exact Hs1. }
    destruct (fresh_step D FL HD k0 pt fl0 S0 start Hs1 Hs2 k p fl es UPERM F ltac:(lia) ltac:(done) ltac:(done) eq_refl Ht) as (r & k2 & E2 & D2).
    unfold sbind at 1. fold UPERM. change (D (length es)) with zero_page in E2. rewrite E2. destruct D2 as [[-> [fl2 F2]]|(-> & E3 & F3)]; cbn [Z.eqb negb].
    + assert (Hz' : zlen (es ++ [mapent p UPERM]) = zlen es + 1) by (unfold zlen; rewrite length_app; cbn; lia).
      destruct (IH _ _ _ F2) as (r & k' & fl' & E3 & D3); [lia|lia|]. exists r, k', fl'. split; [|exact D3].
      rewrite <- E3. f_equal. lia.
    + unfold sbind at 1. rewrite E3. destruct (dealloc_undo es _ _ F3 H) as (r & k' & fl' & E4 & G).
      exists 0, k', fl'. unfold sbind. rewrite E4. split; [done|]. right. split; [done|exact G].
Qed.
End Uvmalloc.

(** ** Lemmas: uvmcopy *)

(** Another address space whose pages are not tables of the one that changes. *)
Lemma other_space k old new fl n v k' fl' : space_ok k old fl -> remapped k new fl n v k' fl' ->
  (forall x, x ∈ ptree 3 (k_mem k) old -> x ∉ pinner 3 (k_mem k) new) ->
  space_ok k' old fl' /\ (forall va, trans (k_mem k') old va = trans (k_mem k) old va) /\
  ptree 3 (k_mem k') old = ptree 3 (k_mem k) old /\ forall x, x ∈ ptree 3 (k_mem k) old -> page (k_mem k') x = page (k_mem k) x.
Proof.
  intros S G Hd. assert (Hp : forall x, x ∈ ptree 3 (k_mem k) old -> page (k_mem k') x = page (k_mem k) x).
  { intros x Hx. apply (rm_frame G), not_elem_of_app. split; [exact (Hd x Hx)|exact (so_free S x Hx)]. }
  assert (Hi : forall c, c ∈ pinner 3 (k_mem k) old -> page (k_mem k') c = page (k_mem k) c) by (intros c Hc; by apply Hp, pinner_ptree).
  destruct (pframe 3 _ _ _ Hi) as [Et Ei]. split; [|split; [intros va; apply (tr_frame 2 _ _ _ va Hi)|split; [exact Et|exact Hp]]].
  split; rewrite ?Et, ?Ei; [exact (so_mem (rm_ok G))|exact (so_root S)|exact (so_nodup S)| |exact (so_pos S)].
  intros x Hx Hf. exact (so_free S x Hx (rm_fl G x Hf)).
Qed.

Lemma other_bytes k old new fl n v k' fl' va : space_ok k old fl -> remapped k new fl n v k' fl' ->
  (forall x, x ∈ ptree 3 (k_mem k) old -> x ∉ pinner 3 (k_mem k) new) -> 0 <= va ->
  uaddr (k_mem k') old va = uaddr (k_mem k) old va /\ ubyte (k_mem k') old va = ubyte (k_mem k) old va.
Proof.
  intros S G Hd Hva. destruct (other_space k old new fl n v k' fl' S G Hd) as (_ & T & _ & Hp).
  split; [by apply uaddr_trans|]. unfold ubyte. rewrite (uaddr_trans _ _ _ _ T).
  destruct (Z.eqb_spec (uaddr (k_mem k) old (PGROUNDDOWN va)) 0) as [|N]; [done|].
  destruct (uaddr_page k old fl _ S (page_down_nonneg va Hva) N) as (_ & _ & H1 & _). by rewrite (Hp _ H1).
Qed.

Lemma flags_leaf e : pv e = true -> PTE_FLAGS e <> PTE_V -> 0 <= PTE_FLAGS e < 1024 /\ Z.lor (PTE_FLAGS e) PTE_V <> PTE_V.
Proof.
  intros V N. split; [unfold PTE_FLAGS; change 1023 with (Z.ones 10); rewrite Z.land_ones by lia; apply Z.mod_pos_bound; lia|].
  rewrite pv_flags in V. revert V N. generalize (PTE_FLAGS e). intros f V N E. apply N.
  assert (Z.lor f PTE_V = f) as <-; [|exact E]. apply Z.bits_inj'. intros b Hb. rewrite Z.lor_spec.
  destruct (decide (b = 0)) as [->|Hb0].
  - unfold pv in V. destruct (Z.eqb_spec (Z.land f PTE_V) 0) as [|Hn]; [done|]. change PTE_V with (Z.ones 1) in Hn.
    rewrite Z.land_ones in Hn by lia. rewrite Z.bit0_odd, Zodd_mod. change (2 ^ 1) with 2 in Hn. pose proof (Z.mod_pos_bound f 2 ltac:(lia)).
    assert (f mod 2 = 1) as -> by lia. done.
  - change PTE_V with (2 ^ 0). rewrite Z.pow2_bits_false by lia. apply orb_false_r.
Qed.

Section Uvmcopy.
  Context (k0 : kst) (old new : Z) (fl0 : list Z) (So : space_ok k0 old fl0) (Sn : space_ok k0 new fl0).
  Context (Hd : forall x, x ∈ ptree 3 (k_mem k0) old -> x ∉ pinner 3 (k_mem k0) new).
  Context (sz : Z) (Hsz : 0 <= sz <= MAXVA).
  Context (Hold : forall va, 0 <= va < sz -> exists e, trans (k_mem k0) old va = Some e /\ PTE_FLAGS e <> PTE_V /\ PTE2PA e <> 0).
  Context (Hnew : forall va, 0 <= va < PGROUNDUP sz -> trans (k_mem k0) new va = None).
Let pte (i : nat) : Z := default 0 (trans (k_mem k0) old (PGSIZE * Z.of_nat i)).
Let D (i : nat) : bytes := page (k_mem k0) (PTE2PA (pte i)).
Let FL (i : nat) : Z := PTE_FLAGS (pte i).
Let HD : forall i, length (D i) = Z.to_nat PGSIZE.
  Proof. intros i. apply (mo_pages (so_mem So)). Qed.

Lemma copy_bound (es : list Z) : PGSIZE * zlen es < sz + PGSIZE -> PGSIZE * zlen es <= PGROUNDUP sz /\ PGROUNDUP sz <= MAXVA.
Proof.
  intros Hl. destruct (PGROUNDUP_spec sz Hsz) as [Hu1 Hu2]. pose proof (Z.div_mod (PGROUNDUP sz) PGSIZE ltac:(lia)). lia.
Qed.

Lemma copy_undo es k fl : fresh D FL k0 new fl0 0 es k fl -> PGSIZE * zlen es < sz + PGSIZE -> exists k' fl',
  uvmunmap new 0 (PGSIZE * zlen es / PGSIZE) true k = Ok tt k' /\ remapped k0 new fl0 [] (trans (k_mem k0) new) k' fl'.
Proof.
  intros F H. destruct (copy_bound es H) as [Hu Hu']. rewrite Z.mul_comm, Z.div_mul by lia.
  apply (fresh_undo D FL k0 new fl0 Sn 0 eq_refl ltac:(lia) k fl es F); [lia|]. intros va Hva. apply Hnew. lia.
Qed.

(** The source page of an iteration is still what it was. *)
Lemma copy_source es k fl : fresh D FL k0 new fl0 0 es k fl -> PGSIZE * zlen es < sz ->
  exists t i, walk old (PGSIZE * zlen es) false k = Ok (t + 8 * i) k /\ t + 8 * i <> 0 /\
    ldm64 (t + 8 * i) k = Ok (pte (length es)) k /\ pv (pte (length es)) = true /\ PTE_FLAGS (pte (length es)) <> PTE_V /\
    page (k_mem k) (PTE2PA (pte (length es))) = D (length es) /\ PTE2PA (pte (length es)) ∉ fl.
Proof.
  intros F H. assert (Hz : 0 <= zlen es) by (unfold zlen; lia).
  destruct (other_space k0 old new fl0 _ _ k fl So (fr_rm F) Hd) as (Sk & T & _ & Hp).
  destruct (Hold (PGSIZE * zlen es) ltac:(lia)) as (e & He & Hfl & _). assert (Ep : pte (length es) = e) by (unfold pte; fold (zlen es); by rewrite He).
  rewrite Ep. assert (Hde : D (length es) = page (k_mem k0) (PTE2PA e)) by (unfold D; by rewrite Ep). rewrite Hde.
  pose proof (T (PGSIZE * zlen es)) as Tk. rewrite He in Tk. destruct (trans_page k0 old fl0 _ e So He) as (Hin & _ & _).
  destruct (trans_page k old fl _ e Sk Tk) as (_ & _ & Hnf). rewrite (walk_look old _ k fl Sk) by lia. unfold trans, tr in Tk.
  destruct (plook 2 (k_mem k) old (PGSIZE * zlen es)) as [[t i]|] eqn:L; [|done]. destruct (pv (word (k_mem k) t i)) eqn:V; [|done].
  injection Tk as <-. destruct (plook_aligned _ _ _ _ _ _ (so_root Sk) L) as [Hta Hi]. pose proof (so_pos Sk t (plook_inner _ _ _ _ _ _ L)).
  exists t, i. split; [done|]. split; [lia|]. split; [by apply ldm64_run|]. split; [exact V|]. split; [exact Hfl|]. split; [exact (Hp _ Hin)|exact Hnf].
Qed.

Lemma uvmcopy_loop_run n es k fl :
  fresh D FL k0 new fl0 0 es k fl -> PGSIZE * zlen es < sz + PGSIZE -> sz - PGSIZE * zlen es <= PGSIZE * Z.of_nat n ->
  exists r k' fl', uvmcopy_loop n old new (PGSIZE * zlen es) sz k = Ok r k' /\
    (r = 0 /\ (exists es', fresh D FL k0 new fl0 0 es' k' fl' /\ sz <= PGSIZE * zlen es' < sz + PGSIZE) \/
     r = -1 /\ remapped k0 new fl0 [] (trans (k_mem k0) new) k' fl').
Proof.
  revert es k fl. induction n as [|n IH]; intros es k fl F H Hn; cbn [uvmcopy_loop].
  { exists 0, k, fl. split; [done|]. left. split; [done|]. exists es. split; [exact F|lia]. }
  destruct (Z.ltb_spec (PGSIZE * zlen es) sz) as [Hlt|Hge]; cbn [negb].
  2:{ exists 0, k, fl. split; [done|]. left. split; [done|]. exists es. split; [exact F|lia]. }
  assert (Hz : 0 <= zlen es) by (unfold zlen; lia). destruct (copy_bound es H) as [Hu Hu']. pose proof (rm_ok (fr_rm F)) as S.
  destruct (copy_source es k fl F Hlt) as (t & i & E1 & Nz & E2 & V & Hfl & Hpg & Hnf). set (e := pte (length es)) in *.
  unfold sbind at 1. rewrite E1, (proj2 (Z.eqb_neq _ _) Nz). unfold sbind at 1. rewrite E2. pose proof V as V'. unfold pv in V'.
  destruct (Z.land e PTE_V =? 0); [done|]. destruct fl as [|p fl]; unfold sbind at 1.
  - rewrite kalloc_nil by exact (so_mem S). cbn [Z.eqb]. destruct (copy_undo es k [] F H) as (k' & fl' & E3 & G).
    exists (-1), k', fl'. unfold sbind. rewrite E3. split; [done|]. right. split; [done|exact G].
  - destruct (kalloc_cons k p fl (so_mem S)) as [E3 _]. rewrite E3.
    assert (Hp : p ∈ fl0) by (apply (rm_fl (fr_rm F)), elem_of_cons; by left). destruct (free_pos k0 fl0 p (so_mem Sn) Hp) as [Hp1 _].
    rewrite (proj2 (Z.eqb_neq p 0) ltac:(lia)). unfold sbind at 1, smodify. rewrite (same_kalloced p k (PTE2PA e)), Hpg.
    2:{ rewrite list_elem_of_singleton. intros E. apply Hnf, elem_of_cons. by left. }
    fold (alloced p (D (length es)) k). destruct (flags_leaf e V Hfl) as [Hf1 Hf2].
    destruct (fresh_step D FL HD k0 new fl0 Sn 0 eq_refl ltac:(lia) k p fl es (PTE_FLAGS e) F ltac:(lia) Hf1 Hf2 eq_refl) as (r & k2 & E4 & D2).
    { apply Hnew. pose proof (PGROUNDUP_spec sz Hsz). lia. }
    rewrite Z.add_0_l in E4. unfold sbind at 1. rewrite E4. destruct D2 as [[-> [fl2 F2]]|(-> & E5 & F3)]; cbn [Z.eqb negb].
    + assert (Hz' : zlen (es ++ [mapent p (PTE_FLAGS e)]) = zlen es + 1) by (unfold zlen; rewrite length_app; cbn; lia).
      destruct (IH _ _ _ F2) as (r & k' & fl' & E5 & D3); [lia|lia|]. exists r, k', fl'. split; [|exact D3]. rewrite <- E5. f_equal. lia.
    + unfold sbind at 1. rewrite E5. destruct (copy_undo es _ _ F3 H) as (k' & fl' & E6 & G).
      exists (-1), k', fl'. unfold sbind. rewrite E6. split; [done|]. right. split; [done|exact G].
Qed.

Lemma copy_byte es k fl va : fresh D FL k0 new fl0 0 es k fl -> PGSIZE * zlen es = PGROUNDUP sz -> 0 <= va < PGROUNDUP sz ->
  ubyte (k_mem k) new va = ubyte (k_mem k0) old va /\
  (uaddr (k_mem k) new (PGROUNDDOWN va) <> 0 -> uaddr (k_mem k) new (PGROUNDDOWN va) ∈ fl0).
Proof.
  intros F Ez Hva. destruct (copy_bound es) as [_ Hm]; [pose proof (PGROUNDUP_spec sz Hsz); lia|].
  destruct (page_split va) as (E & B & A). pose proof (page_down_nonneg va ltac:(lia)) as Hn0.
  assert (Hlt : PGROUNDDOWN va < sz).
  { destruct (PGROUNDUP_spec sz Hsz) as [Hu1 Hu2]. pose proof (Z.div_mod (PGROUNDDOWN va) PGSIZE ltac:(lia)).
    pose proof (Z.div_mod (PGROUNDUP sz) PGSIZE ltac:(lia)). lia. }
  destruct (fresh_byte D FL k0 new fl0 0 es k fl va Sn eq_refl ltac:(lia) F ltac:(lia) ltac:(lia)) as (i & e & Hi & He & Eu & Hin & ->).
  destruct (Hold (PGROUNDDOWN va) ltac:(lia)) as (e0 & T & _ & Np).
  assert (Ep : pte i = e0).
  { unfold pte. replace (PGSIZE * Z.of_nat i) with (PGROUNDDOWN va); [by rewrite T|]. rewrite Z.sub_0_r in Hi.
    pose proof (Z.div_mod va PGSIZE ltac:(lia)). pose proof (Z.div_pos va PGSIZE). unfold PGROUNDDOWN. lia. }
  assert (Ef : Z.land (FL i) PTE_U = Z.land e0 PTE_U).
  { unfold FL. rewrite Ep. unfold PTE_FLAGS. rewrite <- Z.land_assoc. by change (Z.land 1023 PTE_U) with PTE_U. }
  rewrite Ef in *. split.
  - unfold ubyte, uaddr. destruct (Z.leb_spec MAXVA (PGROUNDDOWN va)); [lia|]. rewrite T. destruct (Z.land e0 PTE_U =? 0); [done|].
    rewrite (proj2 (Z.eqb_neq _ _) Np). unfold D. by rewrite Ep.
  - rewrite Eu. destruct (Z.land e0 PTE_U =? 0); [done|]. intros _. exact Hin.
Qed.
End Uvmcopy.


(** C6. Copying an address space, for fork.  uvmcopy gives the new table a
    copy of every user byte of the old one below [sz], in pages that no
    address of the old one maps, or fails with -1 and leaves the new table's
    user memory as it was.  In both cases the old address space is unchanged
    and both stay well formed. *)
Theorem uvmcopy_correct old new sz k fl :
  space_ok k old fl -> space_ok k new fl -> (forall x, x ∈ ptree 3 (k_mem k) old -> x ∉ pinner 3 (k_mem k) new) ->
  0 <= sz <= MAXVA ->
  (forall va, 0 <= va < sz -> exists e, trans (k_mem k) old va = Some e /\ PTE_FLAGS e <> PTE_V /\ PTE2PA e <> 0) ->
  (forall va, 0 <= va < PGROUNDUP sz -> trans (k_mem k) new va = None) ->
  exists r k' fl', uvmcopy old new sz k = Ok r k' /\ space_ok k' old fl' /\ space_ok k' new fl' /\
    (forall va, 0 <= va -> ubyte (k_mem k') old va = ubyte (k_mem k) old va) /\
    (r = 0 /\
       (forall va, 0 <= va -> ubyte (k_mem k') new va = if decide (va < PGROUNDUP sz) then ubyte (k_mem k) old va else ubyte (k_mem k) new va) /\
       (forall va va', 0 <= va < PGROUNDUP sz -> 0 <= va' -> uaddr (k_mem k') new (PGROUNDDOWN va) <> 0 ->
          uaddr (k_mem k') new (PGROUNDDOWN va) <> uaddr (k_mem k') old va') \/
     r = -1 /\ (forall va, 0 <= va -> ubyte (k_mem k') new va = ubyte (k_mem k) new va)).
Proof.
  intros So Sn Hd Hsz Hold Hnew. unfold uvmcopy.
  destruct (uvmcopy_loop_run k old new fl So Sn Hd sz Hsz Hold Hnew (Z.to_nat (sz / PGSIZE + 1)) [] k fl (fresh_nil _ _ k new fl Sn 0)) as (r & k' & fl' & E & D).
  { change (zlen (@nil Z)) with 0. lia. }
  { change (zlen (@nil Z)) with 0. pose proof (Z.div_mod sz PGSIZE ltac:(lia)). pose proof (Z.mod_pos_bound sz PGSIZE ltac:(lia)).
    pose proof (Z.div_pos sz PGSIZE). lia. }
  exists r, k', fl'. split; [exact E|].
  assert (G : exists v, remapped k new fl [] v k' fl') by (destruct D as [[_ (es & F & _)]|[_ G]]; [eexists; exact (fr_rm F)|by eexists]).
  destruct G as [v G]. split; [apply (other_space k old new fl _ _ k' fl' So G Hd)|]. split; [exact (rm_ok G)|].
  split; [intros va Hva; by apply (other_bytes k old new fl _ _ k' fl' va So G Hd)|].
  destruct D as [[-> (es & F & Hes)]|[-> G']]; [left|right; split; [done|intros va Hva; by apply (ubyte_remapped k new fl _ _ k' fl' va Sn G')]].
  destruct (PGROUNDUP_spec sz Hsz) as [Hu1 Hu2]. assert (Eu : PGSIZE * zlen es = PGROUNDUP sz /\ PGROUNDUP sz <= MAXVA).
  { pose proof (Z.div_mod (PGROUNDUP sz) PGSIZE ltac:(lia)). lia. }
  destruct Eu as [Eu Hm]. split; [done|]. split.
  - intros va Hva. case_decide as Hr; [by apply (copy_byte k old new fl Sn sz Hsz Hold es k' fl')|].
    apply (ubyte_remapped k new fl _ _ k' fl' va Sn (fr_rm F) Hva). intros _. apply map_pages_out. destruct (page_split va) as (E' & B & A).
    pose proof (Z.div_mod (PGROUNDDOWN va) PGSIZE ltac:(lia)). pose proof (Z.div_mod (PGROUNDUP sz) PGSIZE ltac:(lia)). lia.
  - intros va va' Hva Hva' N Ee. pose proof (proj2 (copy_byte k old new fl Sn sz Hsz Hold es k' fl' va F Eu Hva) N) as Hin. rewrite Ee in Hin, N.
    rewrite (proj1 (other_bytes k old new fl _ _ k' fl' va' So G Hd Hva')) in Hin, N.
    destruct (uaddr_page k old fl va' So Hva' N) as (_ & _ & H1 & _). exact (so_free So _ H1 Hin).
Qed.
