(* ===== verification/VmDemo.v ===== *)
(** * A small machine with two address spaces

    Sixteen free pages, one table with two user pages and an empty one, made
    by running the allocator and vm.c; the witnesses of the theorems about
    address spaces are on it. *)
From S2P Require Import Prelude Str Bio Log Crash Machine Types Vm Codec Kmem Pgtbl Uvm UvmSpec.
Local Open Scope st_scope.

Definition vm_setup : stM kst (Z * Z) :=
  freerange 0x80022000 0x80032000;;
  a <- uvmcreate;
  b <- uvmcreate;
  uvmalloc a 0 (2 * PGSIZE);;
  sret (a, b).

Definition vm_result : Z * Z * kst := match vm_setup demo_mem with Ok r k => (r, k) | _ => (0, 0, demo_mem) end.
Definition vm_old : Z := fst (fst vm_result).
Definition vm_new : Z := snd (fst vm_result).
Definition vm_k : kst := snd vm_result.

(** The free list, read off the memory. *)
Fixpoint read_chain (n : nat) (m : pmem) (h : Z) : list Z :=
  match n with O => [] | S n => if h =? 0 then [] else h :: read_chain n m (word m h 0) end.
Definition vm_free : list Z := read_chain 100 (k_mem vm_k) (k_freelist vm_k).

(** A check of the invariant. *)
Definition space_okb (k : kst) (pt : Z) (fl : list Z) : bool :=
  let t := ptree 3 (k_mem k) pt in
  bool_decide (map_Forall (fun _ d => length d = Z.to_nat PGSIZE) (k_mem k)) && (0 <? k_end k) &&
  bool_decide (read_chain (S (length fl)) (k_mem k) (k_freelist k) = fl) && forallb (fun p => negb (p =? 0)) fl && bool_decide (NoDup fl) &&
  forallb (fun p => (p mod PGSIZE =? 0) && (k_end k <=? p) && (p <? PHYSTOP)) fl &&
  (pt mod PGSIZE =? 0) && bool_decide (NoDup t) && forallb (fun x => negb (bool_decide (x ∈ fl))) t &&
  forallb (fun x => 0 <? x) (pinner 3 (k_mem k) pt).

(** ** Lemmas *)

Lemma read_chain_ok n m h l : read_chain (S n) m h = l -> n = length l -> forallb (fun p => negb (p =? 0)) l = true -> chain m h l.
Proof.
  revert h l. induction n as [|n IH]; intros h l E Hn Hl.
  - destruct l; [|done]. cbn in E. destruct (Z.eqb_spec h 0); [done|discriminate].
  - destruct l as [|p l]; [done|]. cbn [read_chain] in E. destruct (h =? 0); [discriminate|]. injection E as -> E. cbn [forallb] in Hl.
    apply andb_true_iff in Hl as [_ Hl]. split; [done|]. apply IH; [exact E|by injection Hn|exact Hl].
Qed.

Lemma space_okb_ok k pt fl : space_okb k pt fl = true -> space_ok k pt fl.
Proof.
  unfold space_okb. rewrite !andb_true_iff, !bool_decide_eq_true, !forallb_forall. intros (((((((((Hp & He) & Hc) & Hz) & Hn) & Hi) & Hr) & Ht) & Hf) & Hpos).
  split.
  - split; [|lia| |exact Hn|].
    + intros a. unfold page. destruct (k_mem k !! a) as [d|] eqn:E; [exact (Hp a d E)|]. apply length_replicate.
    + apply (read_chain_ok (length fl)); [exact Hc|done|]. by apply forallb_forall.
    + apply Forall_forall. intros p Hp'. apply list_elem_of_In, Hi in Hp'. rewrite !andb_true_iff in Hp'. unfold page_in. lia.
  - lia.
  - exact Ht.
  - intros x Hx. apply list_elem_of_In, Hf in Hx. by rewrite negb_true_iff, bool_decide_eq_false in Hx.
  - intros x Hx. apply list_elem_of_In, Hpos in Hx. lia.
Qed.

Lemma vm_old_ok : space_ok vm_k vm_old vm_free.
Proof. apply space_okb_ok. vm_compute. reflexivity. Qed.

Lemma vm_new_ok : space_ok vm_k vm_new vm_free.
Proof. apply space_okb_ok. vm_compute. reflexivity. Qed.

Lemma page_cases va n : 0 <= va < PGSIZE * Z.of_nat n -> exists i, (i < n)%nat /\ PGROUNDDOWN va = PGSIZE * Z.of_nat i.
Proof.
  intros H. exists (Z.to_nat (va / PGSIZE)). pose proof (Z.div_mod va PGSIZE ltac:(lia)). pose proof (Z.div_pos va PGSIZE).
  pose proof (Z.mod_pos_bound va PGSIZE ltac:(lia)). unfold PGROUNDDOWN. lia.
Qed.

Lemma vm_new_empty va : 0 <= va < MAXVA -> trans (k_mem vm_k) vm_new va = None.
Proof.
  intros H. unfold trans. apply tr_zero. intros i Hi.
  assert (E : forallb (fun i => word (k_mem vm_k) vm_new i =? 0) (seqZ 0 512) = true) by (vm_compute; reflexivity).
  rewrite forallb_forall in E. apply Z.eqb_eq, E, list_elem_of_In, elem_of_seqZ. lia.
Qed.

Lemma vm_old_mapped va : 0 <= va < 2 * PGSIZE -> exists e, trans (k_mem vm_k) vm_old va = Some e /\ PTE_FLAGS e <> PTE_V /\ PTE2PA e <> 0.
Proof.
  intros H. rewrite trans_down by lia. destruct (page_cases va 2 ltac:(lia)) as (i & Hi & ->).
  destruct i as [|[|i]]; [| |lia]; eexists; (split; [vm_compute; reflexivity|]); split; vm_compute; discriminate.
Qed.

Lemma vm_old_free va : 2 * PGSIZE <= va < 4 * PGSIZE -> trans (k_mem vm_k) vm_old va = None.
Proof.
  intros H. rewrite trans_down by lia. destruct (page_cases va 4 ltac:(lia)) as (i & Hi & E). rewrite E.
  destruct i as [|[|[|[|i]]]]; try (vm_compute; reflexivity); destruct (page_split va); lia.
Qed.

Lemma vm_apart x : x ∈ ptree 3 (k_mem vm_k) vm_old -> x ∉ pinner 3 (k_mem vm_k) vm_new.
Proof.
  assert (E : forallb (fun x => negb (bool_decide (x ∈ pinner 3 (k_mem vm_k) vm_new))) (ptree 3 (k_mem vm_k) vm_old) = true) by (vm_compute; reflexivity).
  rewrite forallb_forall in E. intros Hx. apply list_elem_of_In, E in Hx. by rewrite negb_true_iff, bool_decide_eq_false in Hx.
Qed.

(** ** Witnesses *)

Lemma copyin_correct_witness : exists r d, copyin vm_old 4000 300 vm_k = Ok (r, d) vm_k.
Proof. destruct (copyin_correct vm_old 4000 300 vm_k vm_free vm_old_ok ltac:(lia) ltac:(lia)) as (r & d & E & _). exists r, d. exact E. Defined.

Lemma copyout_copyin_witness : exists r k', copyout vm_old 4094 [1; 2; 3; 4] vm_k = Ok r k'.
Proof. destruct (copyout_copyin vm_old 4094 [1; 2; 3; 4] vm_k vm_free vm_old_ok ltac:(lia)) as (r & k' & E & _). exists r, k'. exact E. Defined.

Lemma mappages_correct_witness : exists r k', mappages vm_new 100 5000 0x10000000 PTE_R vm_k = Ok r k'.
Proof.
  destruct (mappages_correct vm_new 100 5000 0x10000000 PTE_R vm_k vm_free vm_new_ok) as (r & k' & fl' & j & E & _);
    [lia|lia|lia|reflexivity|lia|lia|lia| | |exists r, k'; exact E].
  - intros a Ha. apply vm_new_empty. change (PGROUNDDOWN 100) with 0 in Ha. lia.
  - intros x Hx. split; intros Hin.
    + assert (E : forallb (fun x => 0x80000000 <=? x) (ptree 3 (k_mem vm_k) vm_new) = true) by (vm_compute; reflexivity).
      rewrite forallb_forall in E. apply list_elem_of_In, E in Hin. lia.
    + assert (E : forallb (fun x => 0x80000000 <=? x) vm_free = true) by (vm_compute; reflexivity).
      rewrite forallb_forall in E. apply list_elem_of_In, E in Hin. lia.
Defined.


Lemma uvmcopy_correct_witness : exists r k', uvmcopy vm_old vm_new 8000 vm_k = Ok r k'.
Proof.
  destruct (uvmcopy_correct vm_old vm_new 8000 vm_k vm_free vm_old_ok vm_new_ok vm_apart ltac:(lia)) as (r & k' & fl' & E & _); [| |exists r, k'; exact E].
  - intros va Hva. apply vm_old_mapped. lia.
  - intros va Hva. apply vm_new_empty. assert (va < 8192) by exact (proj2 Hva). lia.
Defined.
