(* ===== verification/Ld.v ===== *)
(** * Reasoning on the logical disk

    The proof rules the file-system components share: what each operation of
    the block interface does in a good state of the logical disk, the update
    [put_blk] that a [bread]/[log_write]/[brelse] sequence amounts to, and
    the accounting of log space ([room], [ext]). *)
From S2P Require Import Prelude Bio Log Crash Machine Types Codec.
Local Open Scope prog_scope.

Definition add_log (b : Z) (l : list Z) : list Z := if decide (b ∈ l) then l else l ++ [b].

(** The block gets new contents and joins the transaction. *)
Definition put_blk (b : Z) (d : bytes) (v : ldisk) : ldisk :=
  mkLD (<[b := d]> (ld_blk v)) (ld_held v) (ld_dirty v) (add_log b (ld_log v))
       (ld_out v) (ld_start v) (ld_size v).

(** A block outside the log area. *)
Definition vb (v : ldisk) (b : Z) : Prop := valid_block v ROOTDEV b = true.

(** Inside a transaction, with every unlogged update in a held buffer. *)
Record lok (v : ldisk) : Prop := {
  lk_out : 1 <= ld_out v;
  lk_size : ld_size v <= LOGSIZE;
  lk_dirty : forall b, b ∈ ld_dirty v -> b ∈ ld_held v;
  lk_len : forall b, length (blk v b) = Z.to_nat BSIZE
}.

(** [n] more blocks may be logged. *)
Definition room (n : Z) (v : ldisk) : Prop :=
  zlen (ld_log v) + n <= ld_size v - 1 /\ zlen (ld_held v) + zlen (ld_log v) + n <= 45.

(** [v'] comes from [v] by at most [n] logged updates. *)
Record ext (n : Z) (v v' : ldisk) : Prop := {
  ex_held : ld_held v' = ld_held v;
  ex_dirty : ld_dirty v' = ld_dirty v;
  ex_out : ld_out v' = ld_out v;
  ex_start : ld_start v' = ld_start v;
  ex_size : ld_size v' = ld_size v;
  ex_log : forall b, b ∈ ld_log v -> b ∈ ld_log v';
  ex_len : zlen (ld_log v') <= zlen (ld_log v) + n;
  ex_blen : (forall b, length (blk v b) = Z.to_nat BSIZE) -> forall b, length (blk v' b) = Z.to_nat BSIZE
}.

(** ** Lemmas *)

Lemma blk_put b d v c : blk (put_blk b d v) c = if decide (c = b) then d else blk v c.
Proof. unfold blk, put_blk, dblk. simpl. destruct (decide (c = b)) as [->|]; by simplify_map_eq. Qed.

Lemma blk_put_eq b d v : blk (put_blk b d v) b = d.
Proof. by rewrite blk_put, decide_True. Qed.
Lemma blk_put_ne b d v c : c <> b -> blk (put_blk b d v) c = blk v c.
Proof. intros. by rewrite blk_put, decide_False. Qed.

Lemma add_log_len b l : zlen l <= zlen (add_log b l) <= zlen l + 1.
Proof. unfold add_log, zlen. case_decide; rewrite ?length_app; simpl; lia. Qed.

Lemma elem_add_log b l c : c ∈ add_log b l <-> c = b \/ c ∈ l.
Proof. unfold add_log. case_decide; set_solver. Qed.

Lemma ext_refl v : ext 0 v v.
Proof. split; try done. lia. Qed.

Lemma ext_trans n m v1 v2 v3 : ext n v1 v2 -> ext m v2 v3 -> ext (n + m) v1 v3.
Proof. intros [] []. split; try congruence; eauto. lia. Qed.

Lemma ext_weaken n m v v' : ext n v v' -> n <= m -> ext m v v'.
Proof. intros []. split; try done. lia. Qed.

Lemma ext_put b d v : length d = Z.to_nat BSIZE -> ext 1 v (put_blk b d v).
Proof.
  intros Hd. split; try done; simpl.
  - intros c Hc. apply elem_add_log. by right.
  - pose proof (add_log_len b (ld_log v)). lia.
  - intros Hl c. rewrite blk_put. by case_decide.
Qed.

Lemma ext_room n m v v' : room (n + m) v -> ext n v v' -> room m v'.
Proof. intros [H1 H2] []. unfold room. rewrite ex_held0, ex_size0. split; lia. Qed.

Lemma ext_lok n v v' : lok v -> ext n v v' -> lok v'.
Proof.
  intros [] []. split; [congruence|congruence| |by auto]. intros b. rewrite ex_dirty0, ex_held0. auto.
Qed.

Lemma ext_vb n v v' b : ext n v v' -> vb v' b <-> vb v b.
Proof. intros []. unfold vb, valid_block. by rewrite ex_start0, ex_size0. Qed.

Lemma room_weaken n m v : room n v -> m <= n -> room m v.
Proof. intros []. split; lia. Qed.

Lemma vb_put b d v c : vb (put_blk b d v) c <-> vb v c.
Proof. done. Qed.

Lemma lok_put b d v : lok v -> length d = Z.to_nat BSIZE -> lok (put_blk b d v).
Proof. intros. by eapply ext_lok; [|apply ext_put]. Qed.

Lemma room_put n b d v : length d = Z.to_nat BSIZE -> room (n + 1) v -> room n (put_blk b d v).
Proof. intros Hd Hr. eapply ext_room; [|by apply ext_put]. by rewrite Z.add_comm. Qed.

Lemma filter_notin (b : Z) (l : list Z) : b ∉ l -> filter (fun c => c <> b) l = l.
Proof.
  induction l as [|x l IH]; intros Hb; [done|]. apply not_elem_of_cons in Hb as [Hx Hl].
  rewrite filter_cons_True by done. by rewrite IH.
Qed.

Lemma lok_notdirty v b : lok v -> b ∉ ld_held v -> b ∉ ld_dirty v.
Proof. intros Hl Hb Hd. by apply Hb, (lk_dirty v Hl). Qed.

(** Releasing an unchanged buffer. *)
Lemma unhold_hold v b : b ∉ ld_held v -> b ∉ ld_dirty v -> unhold b (hold b v) = v.
Proof.
  intros Hh Hd. destruct v as [bl he di lo ou st si]. unfold unhold, hold. simpl in *.
  rewrite filter_cons_False by naive_solver. by rewrite !filter_notin.
Qed.

(** Releasing a logged buffer. *)
Lemma unhold_logged v b d : b ∉ ld_held v -> b ∉ ld_dirty v ->
  unhold b (logged b (upd_blk b d (hold b v))) = put_blk b d v.
Proof.
  intros Hh Hd. destruct v as [bl he di lo ou st si]. unfold unhold, logged, upd_blk, hold, put_blk, add_log.
  simpl in *. rewrite !filter_cons_False by naive_solver. by rewrite !(filter_notin b) by (rewrite ?filter_notin; done).
Qed.

Lemma nref_le v : (nref v <= length (ld_held v) + length (ld_log v))%nat.
Proof. unfold nref. rewrite length_app. pose proof (length_filter (fun b => b ∉ ld_held v) (ld_log v)). lia. Qed.

Lemma run_bread (k : kst) v b :
  vb v b -> b ∉ ld_held v -> zlen (ld_held v) + zlen (ld_log v) < 45 ->
  run hA (P.bread ROOTDEV b) (k, v) = Ok b (k, hold b v).
Proof.
  intros Hv Hh Hr. unfold P.bread, pbind, trigger, vb in *. cbn [pbind_ run hA]. rewrite Hv. cbn [negb].
  rewrite decide_False by done. rewrite decide_False; [done|].
  intros [_ Hn]. pose proof (nref_le v). unfold zlen in *. lia.
Qed.

Lemma run_bdata (k : kst) v b : b ∈ ld_held v -> run hA (P.bdata b) (k, v) = Ok (blk v b) (k, v).
Proof. intros H. unfold P.bdata, trigger. cbn [run hA]. by rewrite decide_True. Qed.

Lemma run_bset (k : kst) v b d :
  b ∈ ld_held v -> length d = Z.to_nat BSIZE -> run hA (P.bset b d) (k, v) = Ok tt (k, upd_blk b d v).
Proof. intros H Hd. unfold P.bset, trigger. cbn [run hA]. by rewrite decide_True. Qed.

Lemma run_log_write (k : kst) v b :
  b ∈ ld_held v -> 1 <= ld_out v -> zlen (ld_log v) < LOGSIZE -> zlen (ld_log v) < ld_size v - 1 ->
  run hA (P.log_write b) (k, v) = Ok tt (k, logged b v).
Proof.
  intros H Ho H1 H2. unfold P.log_write, trigger. cbn [run hA]. rewrite bool_decide_eq_true_2 by done. cbn [negb].
  destruct (Z.leb_spec LOGSIZE (zlen (ld_log v))); [lia|].
  destruct (Z.leb_spec (ld_size v - 1) (zlen (ld_log v))); [lia|].
  by destruct (Z.ltb_spec (ld_out v) 1); [lia|].
Qed.

Lemma run_brelse (k : kst) v b :
  b ∈ ld_held v -> (b ∈ ld_dirty v -> b ∈ ld_log v) -> run hA (P.brelse b) (k, v) = Ok tt (k, unhold b v).
Proof.
  intros H Hd. unfold P.brelse, trigger. cbn [run hA]. rewrite bool_decide_eq_true_2 by done. cbn [negb].
  rewrite decide_False; [done|]. tauto.
Qed.

Lemma run_get (k : kst) v : run hA P.get (k, v) = Ok k (k, v).
Proof. done. Qed.
Lemma run_put (k k' : kst) v : run hA (P.put k') (k, v) = Ok tt (k', v).
Proof. done. Qed.
Lemma run_modk (k : kst) v f : run hA (modk f) (k, v) = Ok tt (f k, v).
Proof. done. Qed.

(** [bread], read, [brelse]. *)
Lemma run_read {A} (k : kst) v b (g : bytes -> M A) :
  lok v -> vb v b -> b ∉ ld_held v -> room 1 v ->
  run hA (bp <- P.bread ROOTDEV b; d <- P.bdata bp; P.brelse bp;; g d) (k, v)
  = run hA (g (blk v b)) (k, v).
Proof.
  intros Hl Hv Hh [_ Hr]. pose proof (lok_notdirty v b Hl Hh).
  rewrite run_bind, run_bread by (done || lia).
  rewrite run_bind, run_bdata by (simpl; set_solver).
  rewrite run_bind, run_brelse by (simpl; set_solver). by rewrite unhold_hold.
Qed.

(** The change, [log_write] and [brelse] of a held buffer, as the end of a
    routine and followed by more code. *)
Lemma run_logged_end (k : kst) v b d :
  lok v -> b ∉ ld_held v -> room 1 v -> length d = Z.to_nat BSIZE ->
  run hA (P.bset b d;; P.log_write b;; P.brelse b) (k, hold b v) = Ok tt (k, put_blk b d v).
Proof.
  intros Hl Hh [Hr1 Hr] Hf. pose proof (lok_notdirty v b Hl Hh).
  pose proof (lk_out v Hl). pose proof (lk_size v Hl).
  rewrite run_bind, run_bset by (simpl; set_solver).
  rewrite run_bind, run_log_write by (simpl; (set_solver || lia)).
  rewrite run_brelse; [|simpl; set_solver|].
  - by rewrite unhold_logged.
  - intros _. change (b ∈ add_log b (ld_log v)). apply elem_add_log. by left.
Qed.

Lemma run_logged {A} (k : kst) v b d (g : M A) :
  lok v -> b ∉ ld_held v -> room 1 v -> length d = Z.to_nat BSIZE ->
  run hA (P.bset b d;; P.log_write b;; P.brelse b;; g) (k, hold b v) = run hA g (k, put_blk b d v).
Proof.
  intros Hl Hh Hr Hf. pose proof (run_logged_end k v b d Hl Hh Hr Hf) as E.
  rewrite !run_bind in E. rewrite run_bind. destruct (run hA (P.bset b d) (k, hold b v)) as [[] [k1 v1]| | |]; try done.
  rewrite run_bind in E. rewrite run_bind. destruct (run hA (P.log_write b) (k1, v1)) as [[] [k2 v2]| | |]; try done.
  by rewrite run_bind, E.
Qed.

Lemma run_update_end (k : kst) v b (f : bytes -> bytes) :
  lok v -> vb v b -> b ∉ ld_held v -> room 1 v -> length (f (blk v b)) = Z.to_nat BSIZE ->
  run hA (bp <- P.bread ROOTDEV b; d <- P.bdata bp; P.bset bp (f d);; P.log_write bp;; P.brelse bp) (k, v)
  = Ok tt (k, put_blk b (f (blk v b)) v).
Proof.
  intros Hl Hv Hh [Hr1 Hr] Hf.
  rewrite run_bind, run_bread by (done || lia).
  rewrite run_bind, run_bdata by (simpl; set_solver).
  by apply run_logged_end.
Qed.

(** [bread], change, [log_write], [brelse]. *)
Lemma run_update {A} (k : kst) v b (f : bytes -> bytes) (g : bytes -> M A) :
  lok v -> vb v b -> b ∉ ld_held v -> room 1 v -> length (f (blk v b)) = Z.to_nat BSIZE ->
  run hA (bp <- P.bread ROOTDEV b; d <- P.bdata bp; P.bset bp (f d);; P.log_write bp;; P.brelse bp;; g d) (k, v)
  = run hA (g (blk v b)) (k, put_blk b (f (blk v b)) v).
Proof.
  intros Hl Hv Hh [Hr1 Hr] Hf.
  rewrite run_bind, run_bread by (done || lia).
  rewrite run_bind, run_bdata by (simpl; set_solver).
  by apply run_logged.
Qed.
