(* ===== verification/Balloc.v ===== *)
(** * Superblock, block and inode bitmaps (kernel/fs.c: readsb .. ifree)

    The block allocator and the inode-number allocator scan bitmaps of the
    disk and keep the counters [freeblocks] and [freeinodes] of the
    superblock, which they write through to block 1.  The theorems relate the
    chunked scan to a search for the first free number, and show that the
    counters always equal the number of free bits. *)
From S2P Require Import Prelude Str Bio Log Crash Machine Types Codec Ld.
Local Open Scope prog_scope.

Definition readsb (dev : Z) : M superblock :=
  bp <- P.bread dev 1;
  d <- P.bdata bp;
  P.brelse bp;;
  Ret (dec_sb d).

Definition updatesb (dev : Z) (sb : superblock) : M unit :=
  bp <- P.bread dev 1;
  d <- P.bdata bp;
  P.bset bp (splice 0 (enc_sb sb) d);;
  P.log_write bp;;
  P.brelse bp.

(** The superblock is read before the log is replayed. *)
Definition fsinit (dev : Z) : stM (kst * bstate) unit := fun s =>
  match run hC (readsb dev) s with
  | Ok sb (k, s) =>
      if negb (sb_magic sb =? FSMAGIC) then Panic "invalid file system"
      else on_snd (Log.initlog dev (sb_logstart sb) (sb_nlog sb)) (set_sb (fun _ => sb) k, s)
  | Panic msg => Panic msg
  | Sleep c s => Sleep c s
  | Wrong w => Wrong w
  end.

Definition bzero (dev bno : Z) : M unit :=
  bp <- P.bread dev bno;
  d <- P.bdata bp;
  P.bset bp (zeros BSIZE);;
  P.log_write bp;;
  P.brelse bp.

(** ** Bits of a bitmap block *)
Definition bitm (bi : Z) : Z := Z.shiftl 1 (bi mod 8).
Definition bit_clear (d : bytes) (bi : Z) : bool := Z.land (getb (bi / 8) d) (bitm bi) =? 0.
Definition set_bit (bi : Z) (d : bytes) : bytes := setb (bi / 8) (Z.lor (getb (bi / 8) d) (bitm bi)) d.
Definition clear_bit (bi : Z) (d : bytes) : bytes :=
  setb (bi / 8) (u8 (Z.land (getb (bi / 8) d) (Z.lnot (bitm bi)))) d.

(** The first [i] of [n] candidates from [i] on that satisfies [p]. *)
Fixpoint scan (p : Z -> bool) (n : nat) (i : Z) : option Z :=
  match n with
  | O => None
  | S n => if p i then Some i else scan p n (i + 1)
  end.

(** The scan common to balloc and searchibmap, over the bitmap at [start]
    with [limit] bits; [upd] is the change of the superblock's counter. *)
Section Bitmap.
  Context (dev start limit : Z) (upd : superblock -> superblock) (msg : string).

Fixpoint bm_loop (fuel : nat) (b : Z) : M Z :=
  match fuel with
  | O => panic msg
  | S fuel =>
      if negb (b <? limit) then panic msg
      else
        bp <- P.bread dev (b / BPB + start);
        d <- P.bdata bp;
        match scan (bit_clear d) (Z.to_nat (Z.min BPB (limit - b))) 0 with
        | Some bi =>
            P.bset bp (set_bit bi d);;
            P.log_write bp;;
            P.brelse bp;;
            modk (set_sb upd);;
            sb <- getsb;
            updatesb dev sb;;
            Ret (b + bi)
        | None => P.brelse bp;; bm_loop fuel (b + BPB)
        end
  end.

Definition bm_alloc : M Z := bm_loop (Z.to_nat (limit / BPB + 1)) 0.

Definition bm_free (n : Z) : M unit :=
  bp <- P.bread dev (n / BPB + start);
  d <- P.bdata bp;
  if bit_clear d (n mod BPB) then panic msg
  else
    P.bset bp (clear_bit (n mod BPB) d);;
    P.log_write bp;;
    P.brelse bp;;
    modk (set_sb upd);;
    sb <- getsb;
    updatesb dev sb.
End Bitmap.

Definition dec_freeblocks (s : superblock) : superblock := set_freeblocks (u32 (sb_freeblocks s - 1)) s.
Definition inc_freeblocks (s : superblock) : superblock := set_freeblocks (u32 (sb_freeblocks s + 1)) s.
Definition dec_freeinodes (s : superblock) : superblock := set_freeinodes (u32 (sb_freeinodes s - 1)) s.
Definition inc_freeinodes (s : superblock) : superblock := set_freeinodes (u32 (sb_freeinodes s + 1)) s.

Definition balloc (dev : Z) : M Z :=
  sb <- getsb;
  b <- bm_alloc dev (sb_bmapstart sb) (sb_size sb) dec_freeblocks "balloc: out of blocks";
  bzero dev b;;
  Ret b.

Definition bfree (dev b : Z) : M unit :=
  sb <- getsb;
  bm_free dev (sb_bmapstart sb) inc_freeblocks "freeing free block" b.

Definition searchibmap (dev : Z) : M Z :=
  sb <- getsb;
  bm_alloc dev (sb_ibmapstart sb) (sb_ninodes sb) dec_freeinodes "ialloc: out of free inodes".

Definition ifree (dev inum : Z) : M unit :=
  sb <- getsb;
  bm_free dev (sb_ibmapstart sb) inc_freeinodes "freeing free inode" inum.

(** ** Abstract view *)

(** Bit [n] of the bitmap at [start]. *)
Definition bitof (v : ldisk) (start n : Z) : bool :=
  Z.testbit (getb ((n mod BPB) / 8) (blk v (n / BPB + start))) (n mod BPB mod 8).

(** Number of clear bits among the first [limit]. *)
Definition nfree (v : ldisk) (start limit : Z) : Z :=
  zlen (filter (fun n => bitof v start n = false) (seqZ 0 limit)).

(** Reference search: the first clear bit of the whole bitmap. *)
Definition first_free (v : ldisk) (start limit : Z) : option Z :=
  scan (fun n => negb (bitof v start n)) (Z.to_nat limit) 0.

(** The bitmap's blocks are file-system blocks other than the superblock,
    and nobody holds them. *)
Definition bm_ok (v : ldisk) (start limit : Z) : Prop :=
  0 <= limit /\
  forall n, 0 <= n < limit -> vb v (n / BPB + start) /\ n / BPB + start <> 1 /\ n / BPB + start ∉ ld_held v.

(** Blocks [start .. start + cnt). *)
Definition in_range (start cnt b : Z) : Prop := start <= b < start + cnt.

(** The parts of the disk: log, inode blocks and the two bitmaps. *)
Definition in_inodes (sb : superblock) : Z -> Prop := in_range (sb_inodestart sb) (sb_ninodes sb / IPB + 1).
Definition in_bmap (sb : superblock) : Z -> Prop := in_range (sb_bmapstart sb) (sb_size sb / BPB + 1).
Definition in_ibmap (sb : superblock) : Z -> Prop := in_range (sb_ibmapstart sb) (sb_ninodes sb / BPB + 1).
Definition is_meta (sb : superblock) (b : Z) : Prop :=
  b = 0 \/ b = 1 \/ in_log (sb_logstart sb) (sb_nlog sb) b \/ in_inodes sb b \/ in_bmap sb b \/ in_ibmap sb b.

(** The layout mkfs produces: the parts follow one another. *)
Record geom_ok (sb : superblock) : Prop := {
  ge_log : 2 <= sb_logstart sb /\ 0 <= sb_nlog sb <= LOGSIZE /\ sb_logstart sb + sb_nlog sb <= sb_ibmapstart sb;
  ge_ibmap : sb_ibmapstart sb + (sb_ninodes sb / BPB + 1) <= sb_inodestart sb;
  ge_inodes : 0 <= sb_ninodes sb < 2 ^ 16 /\ sb_inodestart sb + (sb_ninodes sb / IPB + 1) <= sb_bmapstart sb;
  ge_bmap : sb_bmapstart sb + (sb_size sb / BPB + 1) <= sb_size sb;
  ge_size : 0 <= sb_size sb < 2 ^ 31
}.

(** The allocators' invariant: the counters are the numbers of clear bits,
    block 1 holds the superblock, the metadata is marked in use, and buffers
    are held only for allocated data blocks. *)
Record alloc_inv (k : kst) (v : ldisk) : Prop := {
  ai_geom : geom_ok (k_sb k);
  ai_fits : sb_fits (k_sb k);
  ai_start : ld_start v = sb_logstart (k_sb k);
  ai_logsz : ld_size v = sb_nlog (k_sb k);
  ai_disk : dec_sb (blk v 1) = k_sb k;
  ai_blocks : sb_freeblocks (k_sb k) = nfree v (sb_bmapstart (k_sb k)) (sb_size (k_sb k));
  ai_inodes : sb_freeinodes (k_sb k) = nfree v (sb_ibmapstart (k_sb k)) (sb_ninodes (k_sb k));
  ai_meta : forall b, is_meta (k_sb k) b -> bitof v (sb_bmapstart (k_sb k)) b = true;
  ai_held : forall b, b ∈ ld_held v ->
    0 <= b < sb_size (k_sb k) /\ ~ is_meta (k_sb k) b /\ bitof v (sb_bmapstart (k_sb k)) b = true
}.

(** The state after bit [n] is set or cleared with [f] and the counter
    changed with [upd]. *)
Definition bm_state (f : Z -> bytes -> bytes) (upd : superblock -> superblock) (start n : Z) (k : kst) (v : ldisk)
  : kst * ldisk :=
  let b := n / BPB + start in
  (set_sb upd k,
   put_blk 1 (splice 0 (enc_sb (upd (k_sb k))) (blk v 1)) (put_blk b (f (n mod BPB) (blk v b)) v)).

(** ** Lemmas: bits *)

Lemma bit_clear_spec d bi : bit_clear d bi = negb (Z.testbit (getb (bi / 8) d) (bi mod 8)).
Proof.
  unfold bit_clear, bitm. set (x := getb (bi / 8) d). set (j := bi mod 8).
  assert (0 <= j) by (apply Z.mod_pos_bound; lia). rewrite Z.shiftl_1_l.
  assert (T : forall i, Z.testbit (Z.land x (2 ^ j)) i = if decide (i = j) then Z.testbit x j else false).
  { intros i. rewrite Z.land_spec. case_decide as E.
    - subst. rewrite Z.pow2_bits_true by done. apply andb_true_r.
    - rewrite Z.pow2_bits_false by done. apply andb_false_r. }
  destruct (Z.testbit x j) eqn:E; simpl.
  - apply Z.eqb_neq. intros H0. specialize (T j). rewrite H0, Z.bits_0, decide_True in T by done. congruence.
  - apply Z.eqb_eq, Z.bits_inj_0. intros i. rewrite T. by case_decide.
Qed.

Lemma testbit_u8 x j : 0 <= j < 8 -> Z.testbit (u8 x) j = Z.testbit x j.
Proof. intros. unfold u8. apply Z.mod_pow2_bits_low. lia. Qed.

(** Two bit numbers in the same byte at the same position are equal. *)
Lemma bit_eq i j : i / 8 = j / 8 -> i mod 8 = j mod 8 -> i = j.
Proof. intros. rewrite (Z.div_mod i 8), (Z.div_mod j 8) by lia. lia. Qed.

Lemma testbit_set_bit i j d : 0 <= i < 8 * zlen d -> 0 <= j ->
  Z.testbit (getb (j / 8) (set_bit i d)) (j mod 8)
  = if decide (j = i) then true else Z.testbit (getb (j / 8) d) (j mod 8).
Proof.
  intros Hi Hj. unfold set_bit, bitm. rewrite Z.shiftl_1_l.
  pose proof (Z.mod_pos_bound i 8). pose proof (Z.mod_pos_bound j 8).
  rewrite getb_setb; [|split; [apply Z.div_pos; lia|apply Z.div_lt_upper_bound; lia]|apply Z.div_pos; lia].
  destruct (decide (j / 8 = i / 8)) as [E|E].
  - rewrite Z.lor_spec, E. destruct (decide (j = i)) as [->|N].
    + rewrite Z.pow2_bits_true by lia. apply orb_true_r.
    + rewrite Z.pow2_bits_false; [apply orb_false_r|]. intros M. apply N. by apply bit_eq.
  - rewrite decide_False; [done|]. by intros ->.
Qed.

Lemma testbit_clear_bit i j d : 0 <= i < 8 * zlen d -> 0 <= j ->
  Z.testbit (getb (j / 8) (clear_bit i d)) (j mod 8)
  = if decide (j = i) then false else Z.testbit (getb (j / 8) d) (j mod 8).
Proof.
  intros Hi Hj. unfold clear_bit, bitm. rewrite Z.shiftl_1_l.
  pose proof (Z.mod_pos_bound i 8). pose proof (Z.mod_pos_bound j 8).
  rewrite getb_setb; [|split; [apply Z.div_pos; lia|apply Z.div_lt_upper_bound; lia]|apply Z.div_pos; lia].
  destruct (decide (j / 8 = i / 8)) as [E|E].
  - rewrite testbit_u8, Z.land_spec, Z.lnot_spec, E by lia. destruct (decide (j = i)) as [->|N].
    + rewrite Z.pow2_bits_true by lia. apply andb_false_r.
    + rewrite Z.pow2_bits_false; [apply andb_true_r|]. intros M. apply N. by apply bit_eq.
  - rewrite decide_False; [done|]. by intros ->.
Qed.

(** ** Lemmas: the search *)

Lemma scan_Some p n i x :
  scan p n i = Some x -> i <= x < i + Z.of_nat n /\ p x = true /\ forall y, i <= y < x -> p y = false.
Proof.
  revert i. induction n as [|n IH]; intros i H; simpl in H; [done|].
  destruct (p i) eqn:E.
  - simplify_eq. repeat split; [lia|lia|done|intros; lia].
  - apply IH in H as (H1 & H2 & H3). repeat split; [lia|lia|done|].
    intros y Hy. destruct (decide (y = i)) as [->|]; [done|]. apply H3. lia.
Qed.

Lemma scan_None p n i y : scan p n i = None -> i <= y < i + Z.of_nat n -> p y = false.
Proof.
  revert i. induction n as [|n IH]; intros i H Hy; simpl in H; [lia|].
  destruct (p i) eqn:E; [done|]. destruct (decide (y = i)) as [->|]; [done|]. apply (IH (i + 1)); [done|lia].
Qed.

Lemma scan_is_Some p n i y : i <= y < i + Z.of_nat n -> p y = true -> is_Some (scan p n i).
Proof.
  intros Hy Hp. destruct (scan p n i) as [x|] eqn:E; [eauto|].
  by rewrite (scan_None p n i y E Hy) in Hp.
Qed.

Lemma scan_app p n m i :
  scan p (n + m) i = match scan p n i with Some x => Some x | None => scan p m (i + Z.of_nat n) end.
Proof.
  revert i. induction n as [|n IH]; intros i; simpl.
  - f_equal. lia.
  - destruct (p i); [done|]. rewrite IH. destruct (scan p n (i + 1)); [done|]. f_equal. lia.
Qed.

Lemma scan_shift p q b n i :
  (forall j, i <= j < i + Z.of_nat n -> p j = q (b + j)) ->
  scan q n (b + i) = Z.add b <$> scan p n i.
Proof.
  revert i. induction n as [|n IH]; intros i H; simpl; [done|].
  rewrite (H i) by lia. destruct (q (b + i)); [done|].
  rewrite <- Z.add_assoc. apply IH. intros j Hj. apply H. lia.
Qed.

(** ** Lemmas: bitmaps *)

Lemma bitof_put_ne c d v start m : c <> m / BPB + start -> bitof (put_blk c d v) start m = bitof v start m.
Proof. intros. unfold bitof. by rewrite blk_put_ne by congruence. Qed.

Lemma BPB_split m n : m / BPB = n / BPB -> m mod BPB = n mod BPB -> m = n.
Proof. intros. rewrite (Z.div_mod m BPB), (Z.div_mod n BPB) by lia. lia. Qed.

(** [f i] makes bit [i] of a block [x] and keeps the others. *)
Definition bitop (f : Z -> bytes -> bytes) (x : bool) : Prop :=
  (forall i d, length (f i d) = length d) /\
  (forall i j d, 0 <= i < 8 * zlen d -> 0 <= j ->
     Z.testbit (getb (j / 8) (f i d)) (j mod 8)
     = if decide (j = i) then x else Z.testbit (getb (j / 8) d) (j mod 8)).

Lemma bitop_set : bitop set_bit true.
Proof. split; [intros; apply length_insert|exact testbit_set_bit]. Qed.
Lemma bitop_clear : bitop clear_bit false.
Proof. split; [intros; apply length_insert|exact testbit_clear_bit]. Qed.

Lemma bitof_put_bit f (x : bool) v start n m :
  bitop f x ->
  length (blk v (n / BPB + start)) = Z.to_nat BSIZE ->
  bitof (put_blk (n / BPB + start) (f (n mod BPB) (blk v (n / BPB + start))) v) start m
  = if decide (m = n) then x else bitof v start m.
Proof.
  intros [_ Hf] Hl. unfold bitof. rewrite blk_put.
  pose proof (Z.mod_pos_bound n BPB). pose proof (Z.mod_pos_bound m BPB).
  destruct (decide (m / BPB + start = n / BPB + start)) as [E|E].
  - rewrite Hf by (unfold zlen; lia). rewrite E. destruct (decide (m = n)) as [->|N].
    + by rewrite decide_True.
    + rewrite decide_False; [done|]. intros ?. apply N, BPB_split; lia.
  - rewrite decide_False; [done|]. by intros ->.
Qed.

Lemma length_sb_block sb d : length d = Z.to_nat BSIZE -> length (splice 0 (enc_sb sb) d) = Z.to_nat BSIZE.
Proof.
  intros Hd. rewrite length_splice; [done|lia|]. unfold enc_sb. rewrite zlen_enc32s. unfold zlen. rewrite Hd. simpl. lia.
Qed.

Lemma run_updatesb (k : kst) v sb :
  lok v -> vb v 1 -> 1 ∉ ld_held v -> room 1 v ->
  run hA (updatesb ROOTDEV sb) (k, v) = Ok tt (k, put_blk 1 (splice 0 (enc_sb sb) (blk v 1)) v).
Proof.
  intros Hl Hv Hh Hr. apply (run_update_end k v 1 (splice 0 (enc_sb sb))); try done.
  apply length_sb_block, (lk_len v Hl).
Qed.

Lemma length_set_bit i d : length (set_bit i d) = length d.
Proof. apply length_insert. Qed.
Lemma length_clear_bit i d : length (clear_bit i d) = length d.
Proof. apply length_insert. Qed.

(** The part of the allocator and of the deallocator after the bit is
    chosen. *)
Lemma run_bm_commit {A} f upd (k : kst) v start n (g : M A) :
  (forall i d, length (f i d) = length d) ->
  lok v -> n / BPB + start <> 1 -> n / BPB + start ∉ ld_held v -> vb v 1 -> 1 ∉ ld_held v -> room 2 v ->
  let b := n / BPB + start in
  run hA (P.bset b (f (n mod BPB) (blk v b));; P.log_write b;; P.brelse b;;
          modk (set_sb upd);; sb <- getsb; updatesb ROOTDEV sb;; g) (k, hold b v)
  = run hA g (bm_state f upd start n k v).
Proof.
  intros Hf Hl H1 Hb Hv1 H1h Hr b.
  assert (Hlen : length (f (n mod BPB) (blk v b)) = Z.to_nat BSIZE) by (rewrite Hf; apply (lk_len v Hl)).
  rewrite run_logged; [|done|done|apply (room_weaken 2); [done|lia]|done].
  rewrite run_bind, run_modk. unfold getsb. rewrite run_bind.
  change (run hA (k0 <- P.get; Ret (k_sb k0)) ?s) with (@Ok (kst * ldisk) _ (k_sb (fst s)) s).
  cbv beta iota. rewrite run_bind, run_updatesb; [|by apply lok_put|done|done|by apply (room_put 1)].
  rewrite blk_put_ne by done. done.
Qed.

Lemma run_bm_commit_end f upd (k : kst) v start n :
  (forall i d, length (f i d) = length d) ->
  lok v -> n / BPB + start <> 1 -> n / BPB + start ∉ ld_held v -> vb v 1 -> 1 ∉ ld_held v -> room 2 v ->
  let b := n / BPB + start in
  run hA (P.bset b (f (n mod BPB) (blk v b));; P.log_write b;; P.brelse b;;
          modk (set_sb upd);; sb <- getsb; updatesb ROOTDEV sb) (k, hold b v)
  = (let '(k', v') := bm_state f upd start n k v in Ok tt (k', v')).
Proof.
  intros Hf Hl H1 Hb Hv1 H1h Hr b.
  assert (Hlen : length (f (n mod BPB) (blk v b)) = Z.to_nat BSIZE) by (rewrite Hf; apply (lk_len v Hl)).
  rewrite run_logged; [|done|done|apply (room_weaken 2); [done|lia]|done].
  rewrite run_bind, run_modk. unfold getsb. rewrite run_bind.
  change (run hA (k0 <- P.get; Ret (k_sb k0)) ?s) with (@Ok (kst * ldisk) _ (k_sb (fst s)) s).
  cbv beta iota. rewrite run_updatesb; [|by apply lok_put|done|done|by apply (room_put 1)].
  rewrite blk_put_ne by done. done.
Qed.

Lemma bm_loop_run fuel b start limit upd msg (k : kst) v :
  lok v -> bm_ok v start limit -> vb v 1 -> 1 ∉ ld_held v -> room 2 v ->
  0 <= b -> b mod BPB = 0 -> limit < b + BPB * Z.of_nat fuel ->
  run hA (bm_loop ROOTDEV start limit upd msg fuel b) (k, v)
  = match scan (fun n => negb (bitof v start n)) (Z.to_nat (limit - b)) b with
    | Some n => let '(k', v') := bm_state set_bit upd start n k v in Ok n (k', v')
    | None => Panic msg
    end.
Proof.
  intros Hl [Hlim Hok] Hv1 H1h Hr. revert b. induction fuel as [|fuel IH]; intros b Hb Hm Hfuel.
  { replace (Z.to_nat (limit - b)) with 0%nat by lia. done. }
  cbn [bm_loop]. destruct (Z.ltb_spec b limit) as [Hlt|Hge]; cbn [negb].
  2: { replace (Z.to_nat (limit - b)) with 0%nat by lia. done. }
  destruct (Hok b) as (Hvb & Hne & Hnh); [lia|]. destruct Hr as [Hr1 Hr2].
  rewrite run_bind, run_bread by (done || lia).
  rewrite run_bind, run_bdata by (simpl; set_solver).
  change (blk (hold ?c v) ?c) with (blk v c). set (c := b / BPB + start) in *.
  set (w := Z.min BPB (limit - b)).
  assert (Hbit : forall j, 0 <= j < BPB -> (b + j) / BPB + start = c /\ (b + j) mod BPB = j).
  { intros j Hj. pose proof (Z.div_mod b BPB). unfold c. rewrite (Z.div_mod b BPB), Hm by lia.
    rewrite Z.add_0_r, (Z.mul_comm BPB), Z.div_add_l, Z.div_mul by lia.
    rewrite (Z.div_small j) by lia. split; [lia|]. rewrite Z.add_comm, Z.mod_add, Z.mod_small by lia. done. }
  replace (Z.to_nat (limit - b)) with (Z.to_nat w + Z.to_nat (limit - b - w))%nat by lia.
  rewrite scan_app.
  assert (Es : scan (fun n => negb (bitof v start n)) (Z.to_nat w) b
             = Z.add b <$> scan (bit_clear (blk v c)) (Z.to_nat w) 0).
  { rewrite <- (Z.add_0_r b) at 1. apply scan_shift. intros j Hj.
    destruct (Hbit j) as [E1 E2]; [lia|]. unfold bitof. by rewrite E1, E2, bit_clear_spec. }
  rewrite Es. destruct (scan (bit_clear (blk v c)) (Z.to_nat w) 0) as [bi|] eqn:Ebi; cbn [fmap option_fmap option_map].
  - apply scan_Some in Ebi as (Hbi & _ & _). destruct (Hbit bi) as [E1 E2]; [lia|].
    pose proof (run_bm_commit set_bit upd k v start (b + bi) (Ret (b + bi)) length_set_bit Hl) as R.
    cbv zeta in R. rewrite E1, E2 in R. by rewrite R.
  - rewrite run_bind, run_brelse by (simpl; pose proof (lok_notdirty v c Hl Hnh); set_solver).
    rewrite unhold_hold by (done || by apply lok_notdirty).
    destruct (decide (w = BPB)) as [Ew|Ew].
    + rewrite IH; [|lia| |lia].
      * by replace (limit - (b + BPB)) with (limit - b - w) by lia; replace (b + Z.of_nat (Z.to_nat w)) with (b + BPB) by lia.
      * by rewrite <- Z.add_mod_idemp_l, Hm by lia.
    + replace (limit - b - w) with 0 by lia. destruct fuel as [|fuel']; [done|].
      cbn [bm_loop]. destruct (Z.ltb_spec (b + BPB) limit); [lia|]. done.
Qed.

Lemma bm_alloc_run start limit upd msg (k : kst) v :
  lok v -> bm_ok v start limit -> vb v 1 -> 1 ∉ ld_held v -> room 2 v ->
  run hA (bm_alloc ROOTDEV start limit upd msg) (k, v)
  = match first_free v start limit with
    | Some n => let '(k', v') := bm_state set_bit upd start n k v in Ok n (k', v')
    | None => Panic msg
    end.
Proof.
  intros Hl Hok ???. unfold bm_alloc. rewrite bm_loop_run; try done.
  - by rewrite Z.sub_0_r.
  - destruct Hok as [? _]. pose proof (Z.div_mod limit BPB). pose proof (Z.mod_pos_bound limit BPB).
    rewrite Z2Nat.id; lia.
Qed.

Lemma bm_free_run start limit upd msg (k : kst) v n :
  lok v -> bm_ok v start limit -> vb v 1 -> 1 ∉ ld_held v -> room 2 v -> 0 <= n < limit ->
  run hA (bm_free ROOTDEV start upd msg n) (k, v)
  = if bitof v start n then let '(k', v') := bm_state clear_bit upd start n k v in Ok tt (k', v')
    else Panic msg.
Proof.
  intros Hl [_ Hok] Hv1 H1h Hr Hn. destruct (Hok n Hn) as (Hvb & Hne & Hnh). unfold bm_free.
  rewrite run_bind, run_bread; [|done|done|destruct Hr; lia].
  rewrite run_bind, run_bdata by (simpl; set_solver).
  change (blk (hold ?c v) ?c) with (blk v c). rewrite bit_clear_spec. fold (bitof v start n).
  destruct (bitof v start n); cbn [negb]; [|done].
  apply (run_bm_commit_end clear_bit upd k v start n length_clear_bit Hl Hne Hnh Hv1 H1h Hr).
Qed.

Lemma first_free_Some v start limit n :
  0 <= limit -> first_free v start limit = Some n ->
  0 <= n < limit /\ bitof v start n = false /\ forall m, 0 <= m < n -> bitof v start m = true.
Proof.
  intros Hl H. apply scan_Some in H as (H1 & H2 & H3). split; [lia|]. split; [by apply negb_true_iff|].
  intros m Hm. by apply negb_false_iff, H3.
Qed.

(** ** Lemmas: counting *)

Lemma count_flip (p q : Z -> bool) n l :
  NoDup l -> n ∈ l -> p n = false -> q n = true -> (forall m, m <> n -> p m = q m) ->
  zlen (filter (fun m => p m = false) l) = zlen (filter (fun m => q m = false) l) + 1.
Proof.
  intros Hnd Hn Hp Hq Heq. apply list_elem_of_split in Hn as (l1 & l2 & ->).
  apply NoDup_app in Hnd as (_ & H1 & H2). apply NoDup_cons in H2 as [H2 _].
  rewrite !filter_app, filter_cons_True, filter_cons_False by congruence.
  assert (F : forall l : list Z, n ∉ l -> filter (fun m => p m = false) l = filter (fun m => q m = false) l).
  { clear -Heq. induction l as [|x l IH]; intros Hl; [done|]. apply not_elem_of_cons in Hl as [Hx Hl].
    destruct (p x) eqn:E.
    - rewrite !filter_cons_False by (rewrite <- ?Heq; congruence). auto.
    - rewrite !filter_cons_True by (rewrite <- ?Heq; congruence). f_equal. auto. }
  rewrite (F l1), (F l2); [|done|intros H; by apply (H1 n H), elem_of_cons; left].
  unfold zlen. rewrite !length_app. simpl. lia.
Qed.

Lemma nfree_ext v v' start limit :
  (forall m, 0 <= m < limit -> bitof v' start m = bitof v start m) -> nfree v' start limit = nfree v start limit.
Proof.
  intros H. unfold nfree. f_equal.
  assert (Hin : forall m, m ∈ seqZ 0 limit -> bitof v' start m = bitof v start m).
  { intros m Hm. apply elem_of_seqZ in Hm. apply H. lia. }
  induction (seqZ 0 limit) as [|m l IH]; [done|]. rewrite !filter_cons, (Hin m) by set_solver.
  rewrite IH by set_solver. done.
Qed.

Lemma nfree_bound v start limit : 0 <= limit -> 0 <= nfree v start limit <= limit.
Proof.
  intros H. unfold nfree, zlen.
  pose proof (length_filter (fun n => bitof v start n = false) (seqZ 0 limit)) as L.
  rewrite length_seqZ in L. lia.
Qed.

Lemma nfree_flip v v' start limit n :
  0 <= n < limit -> bitof v start n = false ->
  (forall m, 0 <= m < limit -> bitof v' start m = if decide (m = n) then true else bitof v start m) ->
  nfree v start limit = nfree v' start limit + 1.
Proof.
  intros Hn Hf Hv. unfold nfree.
  rewrite (count_flip (bitof v start) (fun m => if decide (m = n) then true else bitof v start m) n).
  - f_equal. symmetry. change (nfree v' start limit = zlen (filter (fun m => (if decide (m = n) then true else bitof v start m) = false) (seqZ 0 limit))).
    unfold nfree. f_equal.
    assert (Hin : forall m, m ∈ seqZ 0 limit -> bitof v' start m = if decide (m = n) then true else bitof v start m).
    { intros m Hm. apply elem_of_seqZ in Hm. apply Hv. lia. }
    induction (seqZ 0 limit) as [|m l IH]; [done|]. rewrite !filter_cons, (Hin m) by set_solver.
    rewrite IH by set_solver. done.
  - apply NoDup_seqZ.
  - apply elem_of_seqZ. lia.
  - done.
  - by rewrite decide_True.
  - intros m Hm. by rewrite decide_False.
Qed.

(** ** Lemmas: geometry *)

Lemma div_range n limit c : 0 < c -> 0 <= n < limit -> 0 <= n / c < limit / c + 1.
Proof.
  intros Hc Hn. split; [apply Z.div_pos; lia|].
  pose proof (Z.div_le_mono n limit c). lia.
Qed.

Lemma bmap_block sb n : geom_ok sb -> 0 <= n < sb_size sb -> in_bmap sb (n / BPB + sb_bmapstart sb).
Proof. intros _ Hn. unfold in_bmap, in_range. pose proof (div_range n (sb_size sb) BPB). lia. Qed.

Lemma ibmap_block sb n : geom_ok sb -> 0 <= n < sb_ninodes sb -> in_ibmap sb (n / BPB + sb_ibmapstart sb).
Proof. intros _ Hn. unfold in_ibmap, in_range. pose proof (div_range n (sb_ninodes sb) BPB). lia. Qed.

Lemma inode_block sb n : geom_ok sb -> 0 <= n < sb_ninodes sb -> in_inodes sb (n / IPB + sb_inodestart sb).
Proof. intros _ Hn. unfold in_inodes, in_range. pose proof (div_range n (sb_ninodes sb) IPB). lia. Qed.

(** The parts are disjoint and lie inside the disk: all linear facts. *)
Ltac geom G :=
  let G1 := fresh in let G2 := fresh in let G3 := fresh in let G4 := fresh in let G5 := fresh in
  pose proof (ge_log _ G) as G1; pose proof (ge_inodes _ G) as G2; pose proof (ge_bmap _ G) as G3;
  pose proof (ge_ibmap _ G) as G4; pose proof (ge_size _ G) as G5;
  match type of G with geom_ok ?sb =>
    assert (0 <= sb_ninodes sb / IPB) by (apply Z.div_pos; lia);
    assert (0 <= sb_ninodes sb / BPB) by (apply Z.div_pos; lia);
    assert (0 <= sb_size sb / BPB) by (apply Z.div_pos; lia)
  end;
  unfold is_meta, in_log, in_inodes, in_bmap, in_ibmap, in_range in *.

Lemma meta_range sb b : geom_ok sb -> is_meta sb b -> 0 <= b < sb_size sb.
Proof. intros G H. geom G. lia. Qed.

Section Inv.
  Context (k : kst) (v : ldisk) (I : alloc_inv k v).
Let G := ai_geom k v I.
Local Notation sb := (k_sb k).

Lemma ai_vb b : 0 <= b < sb_size sb -> ~ in_log (sb_logstart sb) (sb_nlog sb) b -> vb v b.
Proof.
  intros Hb Hl. unfold vb, valid_block. rewrite (ai_start k v I), (ai_logsz k v I). geom G.
  rewrite !andb_true_iff, negb_true_iff, andb_false_iff. lia.
Qed.

Lemma ai_notheld b : is_meta sb b -> b ∉ ld_held v.
Proof. intros Hm Hh. by apply (ai_held k v I) in Hh as (_ & ? & _). Qed.

Lemma ai_vb1 : vb v 1.
Proof. apply ai_vb; geom G; lia. Qed.
Lemma ai_1h : 1 ∉ ld_held v.
Proof. apply ai_notheld. right. by left. Qed.

Lemma ai_data b : 0 <= b < sb_size sb -> ~ is_meta sb b -> vb v b.
Proof. intros Hb Hm. apply ai_vb; [done|]. unfold is_meta in Hm. tauto. Qed.

Lemma ai_bmap : bm_ok v (sb_bmapstart sb) (sb_size sb).
Proof.
  split; [geom G; lia|]. intros n Hn. pose proof (bmap_block sb n G Hn) as B.
  split; [|split].
  - apply ai_vb; geom G; lia.
  - geom G; lia.
  - apply ai_notheld. unfold is_meta. tauto.
Qed.

Lemma ai_ibmap : bm_ok v (sb_ibmapstart sb) (sb_ninodes sb).
Proof.
  split; [geom G; lia|]. intros n Hn. pose proof (ibmap_block sb n G Hn) as B.
  split; [|split].
  - apply ai_vb; geom G; lia.
  - geom G; lia.
  - apply ai_notheld. unfold is_meta. tauto.
Qed.

Lemma ai_inode n : 0 <= n < sb_ninodes sb ->
  vb v (n / IPB + sb_inodestart sb) /\ n / IPB + sb_inodestart sb ∉ ld_held v.
Proof.
  intros Hn. pose proof (inode_block sb n G Hn) as B. split.
  - apply ai_vb; geom G; lia.
  - apply ai_notheld. unfold is_meta. tauto.
Qed.

End Inv.

(** ** Lemmas: the invariant under bitmap updates *)

Section Step.
  Context (f : Z -> bytes -> bytes) (x : bool) (Hf : bitop f x).
  Context (k : kst) (v : ldisk) (I : alloc_inv k v) (L : lok v).
  Context (upd : superblock -> superblock) (n : Z).
Local Notation sb := (k_sb k).

(** All blocks but the superblock and the bitmap block are unchanged. *)
Lemma bm_state_blk start c :
  c <> 1 -> c <> n / BPB + start -> blk (snd (bm_state f upd start n k v)) c = blk v c.
Proof. intros H1 H2. unfold bm_state. cbn [snd]. by rewrite !blk_put_ne. Qed.

Lemma bm_state_sb start :
  n / BPB + start <> 1 -> sb_fits (upd sb) ->
  dec_sb (blk (snd (bm_state f upd start n k v)) 1) = upd sb.
Proof.
  intros Hne Hfit. unfold bm_state. cbn [snd]. rewrite blk_put_eq. apply dec_enc_sb; [|done].
  unfold zlen. rewrite (lk_len v L). lia.
Qed.

Lemma bm_state_bit start m :
  n / BPB + start <> 1 -> m / BPB + start <> 1 ->
  bitof (snd (bm_state f upd start n k v)) start m = if decide (m = n) then x else bitof v start m.
Proof.
  intros Hn Hm. unfold bm_state. cbn [snd]. rewrite bitof_put_ne by done.
  apply bitof_put_bit; [done|apply (lk_len v L)].
Qed.

Lemma bm_state_bit_ne start start' m :
  m / BPB + start' <> 1 -> m / BPB + start' <> n / BPB + start ->
  bitof (snd (bm_state f upd start n k v)) start' m = bitof v start' m.
Proof. intros H1 H2. unfold bm_state. cbn [snd]. by rewrite !bitof_put_ne by done. Qed.

Lemma bm_state_ext start : ext 2 v (snd (bm_state f upd start n k v)).
Proof.
  unfold bm_state. cbn [snd]. apply (ext_trans 1 1 v (put_blk (n / BPB + start) (f (n mod BPB) (blk v (n / BPB + start))) v)).
  - apply ext_put. rewrite (proj1 Hf). apply (lk_len v L).
  - apply ext_put, length_sb_block, (lk_len v L).
Qed.

(** A bit of the block bitmap. *)
Lemma bmap_state_inv fb :
  upd sb = set_freeblocks fb sb -> is_u32 fb -> 0 <= n < sb_size sb ->
  (x = true \/ ~ is_meta sb n /\ n ∉ ld_held v) ->
  nfree (snd (bm_state f upd (sb_bmapstart sb) n k v)) (sb_bmapstart sb) (sb_size sb) = fb ->
  alloc_inv (set_sb upd k) (snd (bm_state f upd (sb_bmapstart sb) n k v)).
Proof.
  intros Eu Hu Hn Hx Hfb. pose proof (ai_geom k v I) as G. pose proof (bmap_block sb n G Hn) as Bn.
  pose proof (bm_state_ext (sb_bmapstart sb)) as E.
  assert (Hne : n / BPB + sb_bmapstart sb <> 1) by (geom G; lia).
  assert (Hbit : forall m, 0 <= m < sb_size sb ->
    bitof (snd (bm_state f upd (sb_bmapstart sb) n k v)) (sb_bmapstart sb) m
    = if decide (m = n) then x else bitof v (sb_bmapstart sb) m).
  { intros m Hm. apply bm_state_bit; [done|]. pose proof (bmap_block sb m G Hm). geom G; lia. }
  assert (Hfit : sb_fits (set_freeblocks fb sb)) by (destruct (ai_fits k v I); by split).
  split; unfold set_sb; cbn [k_sb]; rewrite ?Eu; try done.
  - destruct G; by split.
  - rewrite (ex_start _ _ _ E). apply I.
  - rewrite (ex_size _ _ _ E). apply I.
  - rewrite bm_state_sb; rewrite ?Eu; done.
  - cbn. rewrite (ai_inodes k v I). symmetry. apply nfree_ext. intros m Hm.
    pose proof (ibmap_block sb m G Hm). apply bm_state_bit_ne; geom G; lia.
  - intros b Hb. change (is_meta sb b) in Hb. cbn. rewrite Hbit by (by apply meta_range).
    case_decide; [subst|by apply (ai_meta k v I)]. naive_solver.
  - intros b Hb. change (is_meta (set_freeblocks fb sb) b) with (is_meta sb b). cbn.
    rewrite (ex_held _ _ _ E) in Hb. pose proof (ai_held k v I b Hb) as (H1 & H2 & H3).
    split; [done|]. split; [done|]. rewrite Hbit by done. case_decide; [subst; naive_solver|done].
Qed.

(** A bit of the inode bitmap. *)
Lemma ibmap_state_inv fi :
  upd sb = set_freeinodes fi sb -> is_u32 fi -> 0 <= n < sb_ninodes sb ->
  nfree (snd (bm_state f upd (sb_ibmapstart sb) n k v)) (sb_ibmapstart sb) (sb_ninodes sb) = fi ->
  alloc_inv (set_sb upd k) (snd (bm_state f upd (sb_ibmapstart sb) n k v)).
Proof.
  intros Eu Hu Hn Hfi. pose proof (ai_geom k v I) as G. pose proof (ibmap_block sb n G Hn) as Bn.
  pose proof (bm_state_ext (sb_ibmapstart sb)) as E.
  assert (Hne : n / BPB + sb_ibmapstart sb <> 1) by (geom G; lia).
  assert (Hbit : forall m, 0 <= m < sb_size sb ->
    bitof (snd (bm_state f upd (sb_ibmapstart sb) n k v)) (sb_bmapstart sb) m = bitof v (sb_bmapstart sb) m).
  { intros m Hm. pose proof (bmap_block sb m G Hm). apply bm_state_bit_ne; geom G; lia. }
  assert (Hfit : sb_fits (set_freeinodes fi sb)) by (destruct (ai_fits k v I); by split).
  split; unfold set_sb; cbn [k_sb]; rewrite ?Eu; try done.
  - destruct G; by split.
  - rewrite (ex_start _ _ _ E). apply I.
  - rewrite (ex_size _ _ _ E). apply I.
  - rewrite bm_state_sb; rewrite ?Eu; done.
  - cbn. rewrite (ai_blocks k v I). symmetry. by apply nfree_ext.
  - intros b Hb. change (is_meta sb b) in Hb. cbn. rewrite Hbit by (by apply meta_range). by apply (ai_meta k v I).
  - intros b Hb. change (is_meta (set_freeinodes fi sb) b) with (is_meta sb b). cbn.
    rewrite (ex_held _ _ _ E) in Hb. pose proof (ai_held k v I b Hb) as (H1 & H2 & H3). by rewrite Hbit.
Qed.
End Step.

(** Writing a block that is neither the superblock nor part of a bitmap. *)
Lemma alloc_inv_put k v c d :
  alloc_inv k v -> c <> 1 -> ~ in_bmap (k_sb k) c -> ~ in_ibmap (k_sb k) c -> alloc_inv k (put_blk c d v).
Proof.
  intros I H1 Hb Hi. pose proof (ai_geom k v I) as G.
  assert (B : forall m, 0 <= m < sb_size (k_sb k) ->
    bitof (put_blk c d v) (sb_bmapstart (k_sb k)) m = bitof v (sb_bmapstart (k_sb k)) m).
  { intros m Hm. apply bitof_put_ne. intros ->. by apply Hb, bmap_block. }
  split; try apply I.
  - rewrite blk_put_ne by done. apply I.
  - rewrite (ai_blocks k v I). symmetry. by apply nfree_ext.
  - rewrite (ai_inodes k v I). symmetry. apply nfree_ext. intros m Hm. apply bitof_put_ne. intros ->.
    by apply Hi, ibmap_block.
  - intros b Hm. rewrite B by (by apply meta_range). by apply (ai_meta k v I).
  - intros b Hh. pose proof (ai_held k v I b Hh) as (? & ? & ?). by rewrite B.
Qed.

Lemma u32_sub1 x : 1 <= x < 2 ^ 32 -> u32 (x - 1) = x - 1.
Proof. intros. apply Z.mod_small. lia. Qed.

(** Setting a clear bit of the block bitmap. *)
Lemma bmap_set_inv k v b :
  alloc_inv k v -> lok v -> 0 <= b < sb_size (k_sb k) -> bitof v (sb_bmapstart (k_sb k)) b = false ->
  let st := bm_state set_bit dec_freeblocks (sb_bmapstart (k_sb k)) b k v in
  alloc_inv (fst st) (snd st) /\ sb_freeblocks (k_sb (fst st)) = sb_freeblocks (k_sb k) - 1 /\
  forall m, 0 <= m < sb_size (k_sb k) ->
    bitof (snd st) (sb_bmapstart (k_sb k)) m = if decide (m = b) then true else bitof v (sb_bmapstart (k_sb k)) m.
Proof.
  intros I L Hb Hbit st. pose proof (ai_geom k v I) as G.
  assert (Hbits : forall m, 0 <= m < sb_size (k_sb k) ->
    bitof (snd st) (sb_bmapstart (k_sb k)) m = if decide (m = b) then true else bitof v (sb_bmapstart (k_sb k)) m).
  { intros m Hm. pose proof (bmap_block (k_sb k) m G Hm). pose proof (bmap_block (k_sb k) b G Hb).
    apply bm_state_bit; [apply bitop_set|done|geom G; lia..]. }
  pose proof (nfree_flip _ _ _ _ _ Hb Hbit Hbits) as Hc. rewrite <- (ai_blocks k v I) in Hc.
  pose proof (nfree_bound (snd st) (sb_bmapstart (k_sb k)) (sb_size (k_sb k))) as Hn.
  assert (Hs : 0 <= sb_size (k_sb k) < 2 ^ 31) by apply G.
  assert (Hfb : u32 (sb_freeblocks (k_sb k) - 1) = sb_freeblocks (k_sb k) - 1).
  { apply u32_sub1. lia. }
  split; [|split; [|done]].
  - apply (bmap_state_inv set_bit true bitop_set k v I L dec_freeblocks b (sb_freeblocks (k_sb k) - 1)); try done.
    + unfold dec_freeblocks. by rewrite Hfb.
    + unfold is_u32. lia.
    + by left.
    + fold st. lia.
  - cbn. exact Hfb.
Qed.

(** What a successful allocation of block [b] does. *)
Record ballocd (k : kst) (v : ldisk) (b : Z) (k' : kst) (v' : ldisk) : Prop := {
  ba_inv : alloc_inv k' v';
  ba_ext : ext 3 v v';
  ba_k : k' = set_sb dec_freeblocks k;
  ba_range : 0 <= b < sb_size (k_sb k);
  ba_free : bitof v (sb_bmapstart (k_sb k)) b = false;
  ba_data : ~ is_meta (k_sb k) b;
  ba_zero : blk v' b = zeros BSIZE;
  ba_bit : forall m, 0 <= m < sb_size (k_sb k) ->
    bitof v' (sb_bmapstart (k_sb k)) m = if decide (m = b) then true else bitof v (sb_bmapstart (k_sb k)) m;
  ba_count : sb_freeblocks (k_sb k') = sb_freeblocks (k_sb k) - 1;
  ba_frame : forall c, c <> b -> c <> 1 -> ~ in_bmap (k_sb k) c -> blk v' c = blk v c
}.

Lemma balloc_run k v :
  alloc_inv k v -> lok v -> room 3 v ->
  match first_free v (sb_bmapstart (k_sb k)) (sb_size (k_sb k)) with
  | None => run hA (balloc ROOTDEV) (k, v) = Panic "balloc: out of blocks"
  | Some b => exists k' v', run hA (balloc ROOTDEV) (k, v) = Ok b (k', v') /\ ballocd k v b k' v'
  end.
Proof.
  intros I L R. pose proof (ai_geom k v I) as G.
  assert (E : run hA (balloc ROOTDEV) (k, v) =
    match first_free v (sb_bmapstart (k_sb k)) (sb_size (k_sb k)) with
    | Some b => run hA (bzero ROOTDEV b;; Ret b) (bm_state set_bit dec_freeblocks (sb_bmapstart (k_sb k)) b k v)
    | None => Panic "balloc: out of blocks"
    end).
  { unfold balloc, getsb. rewrite run_bind. cbn -[bm_alloc bzero].
    rewrite run_bind, bm_alloc_run;
      [|done|by apply ai_bmap|by eapply ai_vb1|by eapply ai_1h|by eapply room_weaken; [done|lia]].
    by destruct (first_free _ _ _). }
  rewrite E. destruct (first_free _ _ _) as [b|] eqn:F; [|done]. clear E.
  apply first_free_Some in F as (Hb & Hbit & _); [|geom G; lia].
  assert (Hd : ~ is_meta (k_sb k) b) by (intros Hm; by rewrite (ai_meta k v I b Hm) in Hbit).
  assert (Hh : b ∉ ld_held v) by (intros Hh; by rewrite (proj2 (proj2 (ai_held k v I b Hh))) in Hbit).
  destruct (bmap_set_inv k v b I L Hb Hbit) as (I1 & Hc & Hbits).
  pose proof (bm_state_ext set_bit true bitop_set k v L dec_freeblocks b (sb_bmapstart (k_sb k))) as E1.
  pose proof (bm_state_blk set_bit k v dec_freeblocks b (sb_bmapstart (k_sb k))) as Hblk.
  destruct (bm_state set_bit dec_freeblocks (sb_bmapstart (k_sb k)) b k v) as [k1 v1] eqn:Es.
  assert (k1 = set_sb dec_freeblocks k) as -> by (unfold bm_state in Es; congruence). cbn [fst snd] in *.
  assert (Z0 : length (zeros BSIZE) = Z.to_nat BSIZE) by apply length_replicate.
  rewrite run_bind. unfold bzero.
  rewrite (run_update_end _ v1 b (fun _ => zeros BSIZE));
    [|by eapply ext_lok| by eapply (ext_vb 2 v), ai_data|by rewrite (ex_held _ _ _ E1)|by eapply (ext_room 2)|done].
  eexists _, _. split; [done|].
  assert (Hnb : ~ in_bmap (k_sb k) b /\ ~ in_ibmap (k_sb k) b /\ b <> 1) by (unfold is_meta in Hd; tauto).
  destruct Hnb as (Hn1 & Hn2 & Hn3). split; [| |done|exact Hb|exact Hbit|exact Hd| | |exact Hc|].
  - by apply alloc_inv_put.
  - by eapply (ext_trans 2 1); [|apply ext_put].
  - apply blk_put_eq.
  - intros m Hm. rewrite <- Hbits by done. apply bitof_put_ne. intros ->. by apply Hn1, bmap_block.
  - intros c H1 H2 H3. rewrite blk_put_ne by done. apply Hblk; [done|]. intros ->. by apply H3, bmap_block.
Qed.

(** ** Freeing blocks, and the inode bitmap *)

(** What freeing block [b] does. *)
Record bfreed (k : kst) (v : ldisk) (b : Z) (k' : kst) (v' : ldisk) : Prop := {
  bf_inv : alloc_inv k' v';
  bf_ext : ext 2 v v';
  bf_k : k' = set_sb inc_freeblocks k;
  bf_bit : forall m, 0 <= m < sb_size (k_sb k) ->
    bitof v' (sb_bmapstart (k_sb k)) m = if decide (m = b) then false else bitof v (sb_bmapstart (k_sb k)) m;
  bf_count : sb_freeblocks (k_sb k') = sb_freeblocks (k_sb k) + 1;
  bf_frame : forall c, c <> 1 -> ~ in_bmap (k_sb k) c -> blk v' c = blk v c
}.

(** A bit that becomes clear adds one to the count. *)
Lemma nfree_unflip v v' start limit n :
  0 <= n < limit -> bitof v start n = true ->
  (forall m, 0 <= m < limit -> bitof v' start m = if decide (m = n) then false else bitof v start m) ->
  nfree v' start limit = nfree v start limit + 1.
Proof.
  intros Hn Ht Hv. apply (nfree_flip v' v start limit n); [done| |].
  - by rewrite Hv, decide_True.
  - intros m Hm. rewrite Hv by done. by case_decide; subst.
Qed.

Lemma bfree_run k v b :
  alloc_inv k v -> lok v -> room 2 v -> 0 <= b < sb_size (k_sb k) -> ~ is_meta (k_sb k) b -> b ∉ ld_held v ->
  if bitof v (sb_bmapstart (k_sb k)) b
  then exists k' v', run hA (bfree ROOTDEV b) (k, v) = Ok tt (k', v') /\ bfreed k v b k' v'
  else run hA (bfree ROOTDEV b) (k, v) = Panic "freeing free block".
Proof.
  intros I L R Hb Hd Hh. pose proof (ai_geom k v I) as G.
  assert (E : run hA (bfree ROOTDEV b) (k, v) = if bitof v (sb_bmapstart (k_sb k)) b
    then (let '(k', v') := bm_state clear_bit inc_freeblocks (sb_bmapstart (k_sb k)) b k v in Ok tt (k', v'))
    else Panic "freeing free block").
  { apply (bm_free_run (sb_bmapstart (k_sb k)) (sb_size (k_sb k))); try done;
      [by apply ai_bmap|by eapply ai_vb1|by eapply ai_1h]. }
  rewrite E. destruct (bitof v (sb_bmapstart (k_sb k)) b) eqn:Hbit; [|done]. clear E.
  set (st := bm_state clear_bit inc_freeblocks (sb_bmapstart (k_sb k)) b k v).
  assert (Hbits : forall m, 0 <= m < sb_size (k_sb k) ->
    bitof (snd st) (sb_bmapstart (k_sb k)) m = if decide (m = b) then false else bitof v (sb_bmapstart (k_sb k)) m).
  { intros m Hm. pose proof (bmap_block (k_sb k) m G Hm). pose proof (bmap_block (k_sb k) b G Hb).
    apply bm_state_bit; [apply bitop_clear|done|geom G; lia..]. }
  pose proof (nfree_unflip _ _ _ _ _ Hb Hbit Hbits) as Hc. rewrite <- (ai_blocks k v I) in Hc.
  pose proof (nfree_bound (snd st) (sb_bmapstart (k_sb k)) (sb_size (k_sb k))) as Hn.
  assert (Hs : 0 <= sb_size (k_sb k) < 2 ^ 31) by apply G.
  assert (Hfb : u32 (sb_freeblocks (k_sb k) + 1) = sb_freeblocks (k_sb k) + 1).
  { apply u32_id. unfold is_u32. pose proof (sf_freeblocks _ (ai_fits k v I)) as [? _]. lia. }
  exists (set_sb inc_freeblocks k), (snd st). split; [done|]. split; try done.
  - apply (bmap_state_inv clear_bit false bitop_clear k v I L inc_freeblocks b (sb_freeblocks (k_sb k) + 1)); try done.
    + unfold inc_freeblocks. by rewrite Hfb.
    + unfold is_u32. pose proof (sf_freeblocks _ (ai_fits k v I)) as [? _]. lia.
    + by right.
  - by apply (bm_state_ext clear_bit false bitop_clear).
  - intros c H1 H2. apply bm_state_blk; [done|]. intros ->. by apply H2, bmap_block.
Qed.

(** What taking or releasing inode number [n] does. *)
Record ibmap_step (x : bool) (k : kst) (v : ldisk) (n : Z) (k' : kst) (v' : ldisk) : Prop := {
  ib_inv : alloc_inv k' v';
  ib_ext : ext 2 v v';
  ib_k : k' = set_sb (if x then dec_freeinodes else inc_freeinodes) k;
  ib_range : 0 <= n < sb_ninodes (k_sb k);
  ib_was : bitof v (sb_ibmapstart (k_sb k)) n = negb x;
  ib_bit : forall m, 0 <= m < sb_ninodes (k_sb k) ->
    bitof v' (sb_ibmapstart (k_sb k)) m = if decide (m = n) then x else bitof v (sb_ibmapstart (k_sb k)) m;
  ib_count : sb_freeinodes (k_sb k') = sb_freeinodes (k_sb k) + (if x then -1 else 1);
  ib_frame : forall c, c <> 1 -> ~ in_ibmap (k_sb k) c -> blk v' c = blk v c
}.

Lemma ibmap_step_intro (x : bool) k v n :
  alloc_inv k v -> lok v -> 0 <= n < sb_ninodes (k_sb k) -> bitof v (sb_ibmapstart (k_sb k)) n = negb x ->
  let st := bm_state (if x then set_bit else clear_bit) (if x then dec_freeinodes else inc_freeinodes)
              (sb_ibmapstart (k_sb k)) n k v in
  ibmap_step x k v n (fst st) (snd st).
Proof.
  intros I L Hn Hbit st. pose proof (ai_geom k v I) as G.
  assert (Hop : bitop (if x then set_bit else clear_bit) x) by (destruct x; [apply bitop_set|apply bitop_clear]).
  assert (Hbits : forall m, 0 <= m < sb_ninodes (k_sb k) ->
    bitof (snd st) (sb_ibmapstart (k_sb k)) m = if decide (m = n) then x else bitof v (sb_ibmapstart (k_sb k)) m).
  { intros m Hm. pose proof (ibmap_block (k_sb k) m G Hm). pose proof (ibmap_block (k_sb k) n G Hn).
    apply bm_state_bit; [done|done|geom G; lia..]. }
  assert (Hc : nfree (snd st) (sb_ibmapstart (k_sb k)) (sb_ninodes (k_sb k)) = sb_freeinodes (k_sb k) + (if x then -1 else 1)).
  { rewrite (ai_inodes k v I). destruct x.
    - rewrite (nfree_flip v (snd st) _ _ n) by done. lia.
    - by rewrite (nfree_unflip v (snd st) _ _ n). }
  assert (Hs : 0 <= sb_ninodes (k_sb k) < 2 ^ 16) by apply G.
  pose proof (nfree_bound (snd st) (sb_ibmapstart (k_sb k)) (sb_ninodes (k_sb k)) (proj1 Hs)) as Hnb.
  assert (Hu : (if x then dec_freeinodes else inc_freeinodes) (k_sb k)
             = set_freeinodes (sb_freeinodes (k_sb k) + (if x then -1 else 1)) (k_sb k)).
  { unfold dec_freeinodes, inc_freeinodes, u32. destruct x; f_equal; apply Z.mod_small; lia. }
  split; try done.
  - apply (ibmap_state_inv _ x Hop k v I L _ n (sb_freeinodes (k_sb k) + (if x then -1 else 1))); try done.
    unfold is_u32. lia.
  - by apply (bm_state_ext _ x).
  - cbn [st bm_state fst]. unfold set_sb. cbn [k_sb]. by rewrite Hu.
  - intros c H1 H2. apply bm_state_blk; [done|]. intros ->. by apply H2, ibmap_block.
Qed.

Lemma searchibmap_run k v :
  alloc_inv k v -> lok v -> room 2 v ->
  match first_free v (sb_ibmapstart (k_sb k)) (sb_ninodes (k_sb k)) with
  | None => run hA (searchibmap ROOTDEV) (k, v) = Panic "ialloc: out of free inodes"
  | Some n => exists k' v', run hA (searchibmap ROOTDEV) (k, v) = Ok n (k', v') /\ ibmap_step true k v n k' v'
  end.
Proof.
  intros I L R. pose proof (ai_geom k v I) as G.
  pose proof (bm_alloc_run (sb_ibmapstart (k_sb k)) (sb_ninodes (k_sb k)) dec_freeinodes
    "ialloc: out of free inodes" k v L (ai_ibmap k v I) (ai_vb1 k v I) (ai_1h k v I) R) as E.
  change (run hA (searchibmap ROOTDEV) (k, v)) with
    (run hA (bm_alloc ROOTDEV (sb_ibmapstart (k_sb k)) (sb_ninodes (k_sb k)) dec_freeinodes
       "ialloc: out of free inodes") (k, v)). rewrite E. clear E.
  destruct (first_free _ _ _) as [n|] eqn:F; [|done].
  apply first_free_Some in F as (Hn & Hbit & _); [|geom G; lia].
  eexists _, _. split; [done|]. by apply (ibmap_step_intro true).
Qed.

Lemma ifree_run k v n :
  alloc_inv k v -> lok v -> room 2 v -> 0 <= n < sb_ninodes (k_sb k) ->
  if bitof v (sb_ibmapstart (k_sb k)) n
  then exists k' v', run hA (ifree ROOTDEV n) (k, v) = Ok tt (k', v') /\ ibmap_step false k v n k' v'
  else run hA (ifree ROOTDEV n) (k, v) = Panic "freeing free inode".
Proof.
  intros I L R Hn.
  pose proof (bm_free_run (sb_ibmapstart (k_sb k)) (sb_ninodes (k_sb k)) inc_freeinodes
    "freeing free inode" k v n L (ai_ibmap k v I) (ai_vb1 k v I) (ai_1h k v I) R Hn) as E.
  change (run hA (ifree ROOTDEV n) (k, v)) with
    (run hA (bm_free ROOTDEV (sb_ibmapstart (k_sb k)) inc_freeinodes "freeing free inode" n) (k, v)).
  rewrite E. clear E. destruct (bitof v (sb_ibmapstart (k_sb k)) n) eqn:Hbit; [|done].
  eexists _, _. split; [done|]. by apply (ibmap_step_intro false).
Qed.

(** ** Theorems *)

(** C29. balloc on the machine with buffer cache and log: in a state of the
    allocators' invariant, inside a transaction with room for three blocks,
    balloc returns the first block whose bit is clear or panics when there is
    none.  The block lies outside the metadata, is zeroed, its bit alone
    becomes set, freeblocks drops by one, no other data block changes, and
    the invariant holds again. *)
Theorem balloc_correct k v s :
  Rel s v -> alloc_inv k v -> lok v -> room 3 v ->
  match first_free v (sb_bmapstart (k_sb k)) (sb_size (k_sb k)) with
  | None => run hC (balloc ROOTDEV) (k, s) = Panic "balloc: out of blocks"
  | Some b => exists k' v' s', run hC (balloc ROOTDEV) (k, s) = Ok b (k', s') /\ Rel s' v' /\ ballocd k v b k' v'
  end.
Proof.
  intros R I L Hr. pose proof (balloc_run k v I L Hr) as H. pose proof (refine_run (balloc ROOTDEV) k s v R) as S.
  destruct (first_free _ _ _) as [b|]; [|by rewrite H in S]. destruct H as (k' & v' & E & B). rewrite E in S.
  destruct S as (s' & E' & R'). eauto 10.
Qed.

(** C30. bfree on the machine with buffer cache and log: freeing an allocated
    data block that nobody holds clears its bit alone, raises freeblocks by
    one and keeps the invariant; freeing a free block panics. *)
Theorem bfree_correct k v s b :
  Rel s v -> alloc_inv k v -> lok v -> room 2 v ->
  0 <= b < sb_size (k_sb k) -> ~ is_meta (k_sb k) b -> b ∉ ld_held v ->
  if bitof v (sb_bmapstart (k_sb k)) b
  then exists k' v' s', run hC (bfree ROOTDEV b) (k, s) = Ok tt (k', s') /\ Rel s' v' /\ bfreed k v b k' v'
  else run hC (bfree ROOTDEV b) (k, s) = Panic "freeing free block".
Proof.
  intros R I L Hr Hb Hd Hh. pose proof (bfree_run k v b I L Hr Hb Hd Hh) as H.
  pose proof (refine_run (bfree ROOTDEV b) k s v R) as S.
  destruct (bitof _ _ _); [|by rewrite H in S]. destruct H as (k' & v' & E & B). rewrite E in S.
  destruct S as (s' & E' & R'). eauto 10.
Qed.

(** The inode bitmap: searchibmap takes the first free inode number or
    panics, and ifree on that number gives it back, so that the bitmap and
    freeinodes are what they were. *)
Theorem searchibmap_ifree k v :
  alloc_inv k v -> lok v -> room 4 v ->
  match first_free v (sb_ibmapstart (k_sb k)) (sb_ninodes (k_sb k)) with
  | None => run hA (searchibmap ROOTDEV) (k, v) = Panic "ialloc: out of free inodes"
  | Some n => exists k1 v1 k2 v2,
      run hA (searchibmap ROOTDEV) (k, v) = Ok n (k1, v1) /\ ibmap_step true k v n k1 v1 /\
      run hA (ifree ROOTDEV n) (k1, v1) = Ok tt (k2, v2) /\ alloc_inv k2 v2 /\
      sb_freeinodes (k_sb k2) = sb_freeinodes (k_sb k) /\
      forall m, 0 <= m < sb_ninodes (k_sb k) ->
        bitof v2 (sb_ibmapstart (k_sb k)) m = bitof v (sb_ibmapstart (k_sb k)) m
  end.
Proof.
  intros I L R. pose proof (searchibmap_run k v I L) as H. specialize (H ltac:(by apply (room_weaken 4); [|lia])).
  destruct (first_free _ _ _) as [n|]; [|done]. destruct H as (k1 & v1 & E1 & S1). pose proof (ib_ext _ _ _ _ _ _ S1) as X1.
  assert (Hsb : sb_ninodes (k_sb k1) = sb_ninodes (k_sb k) /\ sb_ibmapstart (k_sb k1) = sb_ibmapstart (k_sb k))
    by (rewrite (ib_k _ _ _ _ _ _ S1); done). destruct Hsb as [Hn Hs].
  pose proof (ib_range _ _ _ _ _ _ S1) as Hr. pose proof (ib_bit _ _ _ _ _ _ S1) as Hb1.
  pose proof (ifree_run k1 v1 n (ib_inv _ _ _ _ _ _ S1) (ext_lok _ _ _ L X1)) as H2.
  specialize (H2 ltac:(by apply (ext_room 2 2 v)) ltac:(by rewrite Hn)).
  rewrite Hs, (Hb1 n Hr), decide_True in H2 by done. destruct H2 as (k2 & v2 & E2 & S2).
  exists k1, v1, k2, v2. split; [done|]. split; [done|]. split; [done|]. split; [apply S2|]. split.
  - rewrite (ib_count _ _ _ _ _ _ S2), (ib_count _ _ _ _ _ _ S1). lia.
  - intros m Hm. pose proof (ib_bit _ _ _ _ _ _ S2 m) as Hb2. rewrite Hs, Hn in Hb2. rewrite Hb2 by done.
    destruct (decide (m = n)) as [->|N]; [by rewrite (ib_was _ _ _ _ _ _ S1)|]. rewrite Hb1 by done. by rewrite decide_False.
Qed.
