(* ===== verification/Inode.v ===== *)
(** * Inodes (kernel/fs.c: ialloc .. writei, kernel/proc.c: either_copyout)

    The in-memory inode table with its reference counts and sleep-locks, the
    map from file blocks to disk blocks, truncation, and reads and writes of
    file contents. *)
From S2P Require Import Prelude Str Bio Log Crash Machine Types Vm Codec Ld Balloc.
Local Open Scope prog_scope.

Definition IBLOCK (inum : Z) (sb : superblock) : Z := inum / IPB + sb_inodestart sb.

(** ** The inode table *)

(** iinit: every lock is free. *)
Definition iinit : M unit := modk (set_itable (fmap (i_set_lock false 0))).

(** The scan of iget: the entry of the inode, or else the first free one. *)
Fixpoint iget_scan (l : list inode) (idx : nat) (dev inum : Z) (empty : option nat) : nat + option nat :=
  match l with
  | [] => inr empty
  | ip :: l =>
      if (0 <? i_ref ip) && (i_dev ip =? dev) && (i_inum ip =? inum) then inl idx
      else iget_scan l (S idx) dev inum
             (match empty with
              | None => if i_ref ip =? 0 then Some idx else None
              | Some _ => empty
              end)
  end.

Definition iget (dev inum : Z) : M nat :=
  k <- P.get;
  match iget_scan (k_itable k) 0 dev inum None with
  | inl ip => modi ip (fun i => i_set_ref (i_ref i + 1) i);; Ret ip
  | inr None => panic "iget: no inodes"
  | inr (Some ip) => modi ip (i_set_id dev inum);; Ret ip
  end.

Definition idup (ip : nat) : M nat :=
  modi ip (fun i => i_set_ref (i_ref i + 1) i);; Ret ip.

Definition ialloc (dev type : Z) : M nat :=
  inum <- searchibmap dev;
  sb <- getsb;
  bp <- P.bread dev (IBLOCK inum sb);
  d <- P.bdata bp;
  let off := dioff inum in
  let d := splice off (zeros 128) d in
  let d := st16 off type d in
  let d := st32 (off + 12) 3 d in
  let d := st32 (off + 16) 0 d in
  let d := st32 (off + 80) 1 d in
  P.bset bp d;;
  P.log_write bp;;
  P.brelse bp;;
  iget dev inum.

Definition di_of (i : inode) : dinode :=
  mkDi (i_type i) (i_major i) (i_minor i) (i_nlink i) (i_size i) (i_rwmode i) (i_supermode i)
       (i_addrs i) (i_showmode i).

Definition iupdate (ip : nat) : M unit :=
  i <- geti ip;
  sb <- getsb;
  bp <- P.bread (i_dev i) (IBLOCK (i_inum i) sb);
  d <- P.bdata bp;
  P.bset bp (put_dinode (dioff (i_inum i)) (di_of i) d);;
  P.log_write bp;;
  P.brelse bp.

(** sleeplock.c on an inode's lock *)
Definition acquiresleep (ip : nat) : M unit :=
  i <- geti ip;
  if i_locked i then SleepP "sleep lock"
  else p <- myproc; modi ip (i_set_lock true (p_pid p)).
Definition releasesleep (ip : nat) : M unit := modi ip (i_set_lock false 0).
Definition holdingsleep (ip : nat) : M bool :=
  i <- geti ip;
  p <- myproc;
  Ret (i_locked i && (i_lpid i =? p_pid p)).

(** ilock's copy of the disk inode. *)
Definition i_load (di : dinode) (i : inode) : inode :=
  mkI (i_dev i) (i_inum i) (i_ref i) (i_locked i) (i_lpid i) (i_valid i) (d_type di) (d_major di)
      (d_minor di) (d_nlink di) (d_size di) (d_rwmode di) (d_supermode di) (d_addrs di) (d_showmode di).

(** A null inode pointer is [None]. *)
Definition ilock (oip : option nat) : M unit :=
  match oip with
  | None => panic "ilock"
  | Some ip =>
      i <- geti ip;
      if i_ref i <? 1 then panic "ilock"
      else
        acquiresleep ip;;
        i <- geti ip;
        if negb (i_valid i) then
          sb <- getsb;
          bp <- P.bread (i_dev i) (IBLOCK (i_inum i) sb);
          d <- P.bdata bp;
          modi ip (i_load (get_dinode (dioff (i_inum i)) d));;
          P.brelse bp;;
          modi ip (i_set_valid true);;
          i <- geti ip;
          if i_type i =? 0 then panic "ilock: no type" else Ret tt
        else Ret tt
  end.

Definition iunlock (oip : option nat) : M unit :=
  match oip with
  | None => panic "iunlock"
  | Some ip =>
      h <- holdingsleep ip;
      i <- geti ip;
      if negb h || (i_ref i <? 1) then panic "iunlock" else releasesleep ip
  end.

(** ** Block map *)

(** [ip->addrs[j]]; an index past the array is outside the model. *)
Definition addr_at (ip : nat) (j : Z) : M Z :=
  i <- geti ip;
  match i_addrs i !! Z.to_nat j with
  | Some a => Ret a
  | None => WrongP "addrs index out of range"
  end.
Definition set_addr (ip : nat) (j a : Z) : M unit :=
  if j <? NDIRECT + 3 then modi ip (i_set_addr j a) else WrongP "addrs index out of range".

(** The extent branch of bmap: [addrs[i]] packs a start block and a length,
    [addrs[i+1]] is read as the first file block of the extent. *)
Fixpoint extent_find (fuel : nat) (ip : nat) (bn i : Z) : M (Z + Z) :=
  match fuel with
  | O => WrongP "addrs index out of range"
  | S fuel =>
      ai <- addr_at ip i;
      if ai =? 0 then Ret (inr i)
      else
        let len := Z.land ai 0xff in
        aj <- addr_at ip (i + 1);
        if (aj <=? bn) && (bn <? u32 (aj + len))
        then Ret (inl (u32 (Z.land ai 0xffffff00 / 256 + bn - aj)))
        else extent_find fuel ip bn (i + 1)
  end.

Definition bmap_extent (ip : nat) (bn : Z) : M Z :=
  r <- extent_find 16 ip bn 0;
  match r with
  | inl addr => Ret addr
  | inr i =>
      ino <- geti ip;
      addr <- balloc (i_dev ino);
      grown <- (if 0 <? i then
                  a <- addr_at ip (i - 1);
                  let len := Z.land a 0xff in
                  let p := Z.land a 0xffffff00 / 256 in
                  if addr =? u32 (p + len)
                  then set_addr ip (i - 1) (Z.lor (u32 (p * 256)) (len + 1));; Ret true
                  else Ret false
                else Ret false);
      if grown : bool then Ret addr
      else
        set_addr ip i (Z.lor (u32 (addr * 256)) 1);;
        set_addr ip (i + 1) bn;;
        Ret addr
  end.

(** [if((addr = ip->addrs[j]) == 0) ip->addrs[j] = addr = balloc(ip->dev);] *)
Definition bmap_top (ip : nat) (j : Z) : M Z :=
  addr <- addr_at ip j;
  if addr =? 0 then
    i <- geti ip;
    addr <- balloc (i_dev i);
    set_addr ip j addr;;
    Ret addr
  else Ret addr.

(** One level of indirection: entry [idx] of the block [addr]. *)
Definition bmap_ind (dev addr idx : Z) : M Z :=
  bp <- P.bread dev addr;
  d <- P.bdata bp;
  let addr := ld32 (4 * idx) d in
  if addr =? 0 then
    addr <- balloc dev;
    d <- P.bdata bp;
    P.bset bp (st32 (4 * idx) addr d);;
    P.log_write bp;;
    P.brelse bp;;
    Ret addr
  else
    P.brelse bp;;
    Ret addr.

Definition bmap (ip : nat) (bn : Z) : M Z :=
  i <- geti ip;
  let dev := i_dev i in
  if i_type i =? T_EXTENT then bmap_extent ip bn
  else if bn <? NDIRECT then bmap_top ip bn
  else
    let bn := bn - NDIRECT in
    if bn <? NINDIRECT then
      addr <- bmap_top ip NDIRECT;
      bmap_ind dev addr bn
    else
      let bn := bn - NINDIRECT in
      if bn <? NINDIRECT * NINDIRECT then
        addr <- bmap_top ip (NDIRECT + 1);
        addr <- bmap_ind dev addr (bn / NINDIRECT);
        bmap_ind dev addr (bn mod NINDIRECT)
      else
        let bn := bn - NINDIRECT * NINDIRECT in
        if bn <? NINDIRECT * NINDIRECT * NINDIRECT then
          addr <- bmap_top ip (NDIRECT + 2);
          addr <- bmap_ind dev addr (bn / (NINDIRECT * NINDIRECT));
          addr <- bmap_ind dev addr (bn mod (NINDIRECT * NINDIRECT) / NINDIRECT);
          bmap_ind dev addr (bn mod (NINDIRECT * NINDIRECT) mod NINDIRECT)
        else panic "bmap: out of range".

(** ** Truncation *)

(** Free the blocks an indirect block lists; [n] levels below it are
    indirect blocks themselves. *)
Fixpoint free_ind (n : nat) (dev addr : Z) : M unit :=
  bp <- P.bread dev addr;
  pfor (seqZ 0 NINDIRECT) (fun j =>
    d <- P.bdata bp;
    let a := ld32 (4 * j) d in
    if a =? 0 then Ret tt
    else
      match n with
      | O => bfree dev a
      | S n => free_ind n dev a;; bfree dev a
      end);;
  P.brelse bp.

Fixpoint trunc_extents (fuel : nat) (ip : nat) (dev i : Z) : M unit :=
  match fuel with
  | O => Ret tt
  | S fuel =>
      ai <- addr_at ip i;
      if ai =? 0 then Ret tt
      else
        let len := ai mod 256 in
        aj <- addr_at ip (i + 1);
        pfor (seqZ aj len) (fun bn => bfree dev (u32 (Z.land ai 0xffffff00 / 256 + bn - aj)));;
        set_addr ip i 0;;
        if NDIRECT + 2 <? i + 1 then Ret tt else trunc_extents fuel ip dev (i + 1)
  end.

Definition itrunc (ip : nat) : M unit :=
  i <- geti ip;
  let dev := i_dev i in
  (if i_type i =? T_EXTENT then trunc_extents 16 ip dev 0
   else
     pfor (seqZ 0 NDIRECT) (fun j =>
       a <- addr_at ip j;
       if a =? 0 then Ret tt else bfree dev a;; set_addr ip j 0);;
     (a <- addr_at ip NDIRECT;
      if a =? 0 then Ret tt
      else
        free_ind 0 dev a;;
        bfree dev a;;
        set_addr ip NDIRECT 0);;
     (a <- addr_at ip (NDIRECT + 1);
      if a =? 0 then Ret tt
      else
        free_ind 1 dev a;;
        bfree dev a;;
        set_addr ip (NDIRECT + 1) 0);;
     (a <- addr_at ip (NDIRECT + 2);
      if a =? 0 then Ret tt
      else
        free_ind 2 dev a;;
        a1 <- addr_at ip (NDIRECT + 1);
        bfree dev a1;;
        set_addr ip (NDIRECT + 1) 0));;
  modi ip (i_set_size 0);;
  iupdate ip.

Definition iput (ip : nat) : M unit :=
  i <- geti ip;
  (if (i_ref i =? 1) && i_valid i && (i_nlink i =? 0) then
     acquiresleep ip;;
     itrunc ip;;
     ifree (i_dev i) (i_inum i);;
     modi ip (i_set_valid false);;
     releasesleep ip
   else Ret tt);;
  modi ip (fun i => i_set_ref (i_ref i - 1) i).

Definition iunlockput (ip : nat) : M unit := iunlock (Some ip);; iput ip.

(** ** Contents *)

(** struct stat *)
Record stat := mkStat {
  st_dev : Z; st_ino : Z; st_type : Z; st_nlink : Z; st_size : Z;
  st_rwmode : Z; st_supermode : Z; st_showmode : Z; st_addrs : list Z
}.

Definition stati (ip : nat) : M stat :=
  i <- geti ip;
  Ret (mkStat (i_dev i) (i_inum i) (i_type i) (i_nlink i) (i_size i)
         (i_rwmode i) (i_supermode i) (i_showmode i) (take 13 (i_addrs i))).

(** Where a transfer ends or starts: a user address, or kernel memory, whose
    bytes are passed by value. *)
Inductive udst := UserDst (a : Z) | KernDst.
Inductive usrc := UserSrc (a : Z) | KernSrc (d : bytes).

Definition either_copyout (dst : udst) (at_ : Z) (src : bytes) : M Z :=
  match dst with
  | UserDst a => p <- myproc; liftK (copyout (p_pagetable p) (u64 (a + at_)) src)
  | KernDst => Ret 0
  end.

Definition either_copyin (src : usrc) (at_ len : Z) : M (Z * bytes) :=
  match src with
  | UserSrc a => p <- myproc; liftK (copyin (p_pagetable p) (u64 (a + at_)) len)
  | KernSrc d => Ret (0, sub at_ len d)
  end.

(** The loops of readi and writei; [tot] bytes are done, [acc] collects what
    a kernel destination receives. *)
Fixpoint readi_loop (fuel : nat) (ip : nat) (dst : udst) (off n tot : Z) (acc : bytes) : M (Z * bytes) :=
  match fuel with
  | O => WrongP "readi: fuel"
  | S fuel =>
      if negb (tot <? n) then Ret (s32 tot, acc)
      else
        i <- geti ip;
        addr <- bmap ip (off / BSIZE);
        bp <- P.bread (i_dev i) addr;
        let m := Z.min (n - tot) (BSIZE - off mod BSIZE) in
        d <- P.bdata bp;
        r <- either_copyout dst tot (sub (off mod BSIZE) m d);
        if r =? -1 then P.brelse bp;; Ret (-1, acc)
        else
          P.brelse bp;;
          readi_loop fuel ip dst (u32 (off + m)) n (tot + m) (acc ++ sub (off mod BSIZE) m d)
  end.

Definition readi (ip : nat) (dst : udst) (off n : Z) : M (Z * bytes) :=
  i <- geti ip;
  if (i_size i <? off) || (u32 (off + n) <? off) then Ret (0, [])
  else
    let n := if i_size i <? u32 (off + n) then i_size i - off else n in
    readi_loop (Z.to_nat (n / BSIZE + 3)) ip dst off n 0 [].

(** Returns the bytes done and the final offset. *)
Fixpoint writei_loop (fuel : nat) (ip : nat) (src : usrc) (off n tot : Z) : M (Z * Z) :=
  match fuel with
  | O => WrongP "writei: fuel"
  | S fuel =>
      if negb (tot <? n) then Ret (tot, off)
      else
        i <- geti ip;
        addr <- bmap ip (off / BSIZE);
        bp <- P.bread (i_dev i) addr;
        let m := Z.min (n - tot) (BSIZE - off mod BSIZE) in
        '(r, pre) <- either_copyin src tot m;
        (if zlen pre =? 0 then Ret tt
         else d <- P.bdata bp; P.bset bp (splice (off mod BSIZE) pre d));;
        if r =? -1 then P.brelse bp;; Ret (tot, off)
        else
          P.log_write bp;;
          P.brelse bp;;
          writei_loop fuel ip src (u32 (off + m)) n (tot + m)
  end.

Definition writei (ip : nat) (src : usrc) (off n : Z) : M Z :=
  i <- geti ip;
  if (i_size i <? off) || (u32 (off + n) <? off) then Ret (-1)
  else if (NDIRECT + NINDIRECT + NINDIRECT * NINDIRECT + NINDIRECT * NINDIRECT * NINDIRECT) * BSIZE <? u32 (off + n)
  then Ret (-1)
  else
    '(tot, off) <- writei_loop (Z.to_nat (n / BSIZE + 3)) ip src off n 0;
    i <- geti ip;
    (if i_size i <? off then modi ip (i_set_size off) else Ret tt);;
    iupdate ip;;
    Ret (s32 tot).
