(* ===== verification/Bmap.v ===== *)
(** * The block map of a file (kernel/fs.c: bmap)

    A file's blocks hang off the fifteen [addrs] of its inode: twelve direct
    ones and trees of depth one, two and three.  [tlook] reads an entry of a
    tree, [tree] lists its blocks.  The theorems say that bmap returns the
    mapped block without changing anything, or extends the tree by freshly
    allocated zeroed blocks at exactly the requested position. *)
From S2P Require Import Prelude Str Bio Log Crash Machine Types Vm Codec Ld Balloc Inode.
Local Open Scope prog_scope.

(** The 256 entries of an indirect block. *)
Definition entries (v : ldisk) (a : Z) : list Z := dec32s 0 NINDIRECT (blk v a).

#[global] Arguments entries : simpl never.

(** The disk block at index [idx] of a tree of depth [n] rooted at [a]; 0 if
    unmapped. *)
Fixpoint tlook (n : nat) (v : ldisk) (a idx : Z) : Z :=
  match n with
  | O => a
  | S n => if a =? 0 then 0
           else tlook n v (ld32 (4 * (idx / 256 ^ Z.of_nat n)) (blk v a)) (idx mod 256 ^ Z.of_nat n)
  end.

(** All blocks of a tree, and its indirect blocks. *)
Fixpoint tree (n : nat) (v : ldisk) (a : Z) : list Z :=
  if a =? 0 then []
  else a :: match n with O => [] | S n => flat_map (tree n v) (entries v a) end.
Fixpoint inner (n : nat) (v : ldisk) (a : Z) : list Z :=
  match n with
  | O => []
  | S n => if a =? 0 then [] else a :: flat_map (inner n v) (entries v a)
  end.

(** bmap below the inode, by recursion on the depth. *)
Fixpoint bmap_walk (n : nat) (dev addr idx : Z) : M Z :=
  match n with
  | O => Ret addr
  | S n =>
      addr <- bmap_ind dev addr (idx / 256 ^ Z.of_nat n);
      bmap_walk n dev addr (idx mod 256 ^ Z.of_nat n)
  end.

(** An allocated data block. *)
Definition dblock (k : kst) (v : ldisk) (b : Z) : Prop :=
  0 <= b < sb_size (k_sb k) /\ ~ is_meta (k_sb k) b /\ bitof v (sb_bmapstart (k_sb k)) b = true.

Definition tree_ok (n : nat) (k : kst) (v : ldisk) (a : Z) : Prop :=
  NoDup (tree n v a) /\ Forall (dblock k v) (tree n v a).

(** ** Lemmas: entries *)

Lemma length_entries v a : length (entries v a) = 256%nat.
Proof. unfold entries, dec32s. by rewrite length_map, length_seqZ. Qed.

Lemma entries_lookup v a i : 0 <= i < 256 -> entries v a !! Z.to_nat i = Some (ld32 (4 * i) (blk v a)).
Proof.
  intros Hi. unfold entries, dec32s. rewrite list_lookup_fmap, lookup_seqZ_lt by lia. simpl.
  f_equal. f_equal. lia.
Qed.

Lemma entries_ext v v' a : blk v' a = blk v a -> entries v' a = entries v a.
Proof. intros E. unfold entries. by rewrite E. Qed.

Lemma ld32_zeros j : 0 <= j -> j + 4 <= 1024 -> ld32 j (zeros BSIZE) = 0.
Proof.
  intros Hj Hk. unfold ld32, sub, zeros. rewrite drop_replicate, take_replicate.
  replace (Z.to_nat 4 `min` (Z.to_nat BSIZE - Z.to_nat j))%nat with 4%nat by lia. done.
Qed.

Lemma entries_zeros v a : blk v a = zeros BSIZE -> Forall (eq 0) (entries v a).
Proof.
  intros E. apply Forall_lookup. intros i x Hx. assert (i < 256)%nat.
  { apply lookup_lt_Some in Hx. by rewrite length_entries in Hx. }
  rewrite <- (Nat2Z.id i), entries_lookup, E, ld32_zeros in Hx by lia. congruence.
Qed.

(** Storing one entry of an indirect block. *)
Lemma entries_store v v' a i x :
  length (blk v a) = Z.to_nat BSIZE -> 0 <= i < 256 -> is_u32 x ->
  blk v' a = st32 (4 * i) x (blk v a) ->
  entries v' a = <[Z.to_nat i := x]> (entries v a).
Proof.
  intros Hl Hi Hx E. apply list_eq. intros j.
  destruct (decide (j < 256)%nat) as [Hj|Hj].
  - rewrite <- (Nat2Z.id j), entries_lookup, E by lia. destruct (decide (Z.of_nat j = i)) as [<-|N].
    + rewrite list_lookup_insert_eq by (rewrite length_entries; lia).
      rewrite ld32_st32_eq by (unfold zlen; lia). by rewrite u32_id.
    + rewrite list_lookup_insert_ne by lia. rewrite entries_lookup by lia.
      by rewrite ld32_st32_ne by (unfold zlen; lia).
  - rewrite !lookup_ge_None_2; [done|rewrite length_insert, length_entries; lia|rewrite length_entries; lia].
Qed.

(** ** Lemmas: trees depend only on their indirect blocks *)

Lemma tree_0 n v : tree n v 0 = [].
Proof. by destruct n. Qed.
Lemma inner_0 n v : inner n v 0 = [].
Proof. by destruct n. Qed.
Lemma tlook_0 n v idx : tlook n v 0 idx = 0.
Proof. by destruct n. Qed.

Lemma inner_tree n v a x : x ∈ inner n v a -> x ∈ tree n v a.
Proof.
  revert a. induction n as [|n IH]; intros a; cbn [inner tree]; [set_solver|].
  destruct (a =? 0); [set_solver|]. rewrite !elem_of_cons, !elem_flat_map. naive_solver.
Qed.

Lemma tree_frame n v v' a :
  (forall c, c ∈ inner n v a -> blk v' c = blk v c) ->
  tree n v' a = tree n v a /\ inner n v' a = inner n v a /\
  (forall idx, tlook n v' a idx = tlook n v a idx \/ ~ 0 <= idx < 256 ^ Z.of_nat n).
Proof.
  revert a. induction n as [|n IH]; intros a H; cbn [tree inner tlook]; [auto|].
  destruct (Z.eqb_spec a 0) as [E|E]; [auto|].
  assert (Ha : blk v' a = blk v a).
  { apply H. cbn [inner]. rewrite (proj2 (Z.eqb_neq a 0) E). apply elem_of_cons. by left. }
  assert (Hin : forall y, y ∈ entries v a ->
     tree n v' y = tree n v y /\ inner n v' y = inner n v y /\
     (forall idx, tlook n v' y idx = tlook n v y idx \/ ~ 0 <= idx < 256 ^ Z.of_nat n)).
  { intros y Hy. apply IH. intros c Hc. apply H. cbn [inner].
    rewrite (proj2 (Z.eqb_neq a 0) E). apply elem_of_cons. right. apply elem_flat_map. eauto. }
  rewrite (entries_ext v v' a Ha). split; [|split].
  - f_equal. revert Hin. induction (entries v a) as [|y l IHl]; intros Hin; [done|]. cbn [flat_map].
    rewrite (proj1 (Hin y ltac:(apply elem_of_cons; by left))). f_equal. apply IHl. intros z Hz. apply Hin, elem_of_cons. by right.
  - f_equal. revert Hin. induction (entries v a) as [|y l IHl]; intros Hin; [done|]. cbn [flat_map].
    rewrite (proj1 (proj2 (Hin y ltac:(apply elem_of_cons; by left)))). f_equal. apply IHl. intros z Hz. apply Hin, elem_of_cons. by right.
  - intros idx. destruct (decide (0 <= idx < 256 ^ Z.of_nat (S n))) as [Hi|Hi]; [left|by right].
    rewrite Ha. rewrite Nat2Z.inj_succ, Z.pow_succ_r in Hi by lia.
    assert (0 < 256 ^ Z.of_nat n) by lia.
    assert (He : 0 <= idx / 256 ^ Z.of_nat n < 256).
    { split; [apply Z.div_pos; lia|apply Z.div_lt_upper_bound; lia]. }
    destruct (Hin (ld32 (4 * (idx / 256 ^ Z.of_nat n)) (blk v a))) as (_ & _ & Hl).
    { eapply list_elem_of_lookup_2, entries_lookup, He. }
    destruct (Hl (idx mod 256 ^ Z.of_nat n)) as [|Hb]; [done|].
    exfalso. apply Hb, Z.mod_pos_bound. lia.
Qed.

Lemma tree_frame_look n v v' a idx :
  (forall c, c ∈ inner n v a -> blk v' c = blk v c) -> 0 <= idx < 256 ^ Z.of_nat n ->
  tlook n v' a idx = tlook n v a idx.
Proof. intros H Hi. destruct (tree_frame n v v' a H) as (_ & _ & T). destruct (T idx); tauto. Qed.

(** The tree of a zeroed block is just that block. *)
Lemma tree_zero_root n v b : b <> 0 -> blk v b = zeros BSIZE -> tree n v b = [b].
Proof.
  intros Hb E. destruct n as [|n]; cbn [tree]; (destruct (Z.eqb_spec b 0); [done|]); [done|]. f_equal.
  pose proof (entries_zeros v b E) as F. induction F as [|x l <- F IH]; [done|]. cbn [flat_map]. by rewrite tree_0.
Qed.

Lemma inner_zero_root n v b x : blk v b = zeros BSIZE -> x ∈ inner n v b -> x = b.
Proof.
  intros E. destruct n as [|n]; cbn [inner]; [set_solver|]. destruct (b =? 0); [set_solver|].
  rewrite elem_of_cons, elem_flat_map. intros [->|(y & Hy & Hx)]; [done|].
  pose proof (entries_zeros v b E) as F. rewrite Forall_forall in F. apply F in Hy. subst.
  rewrite inner_0 in Hx. set_solver.
Qed.

Lemma tlook_zero_root n v b idx :
  blk v b = zeros BSIZE -> 0 <= idx < 256 ^ Z.of_nat (S n) -> tlook (S n) v b idx = 0.
Proof.
  intros E Hi. cbn [tlook]. destruct (b =? 0); [done|].
  rewrite Nat2Z.inj_succ, Z.pow_succ_r in Hi by lia. assert (0 < 256 ^ Z.of_nat n) by lia.
  assert (0 <= idx / 256 ^ Z.of_nat n < 256) by (split; [apply Z.div_pos; lia|apply Z.div_lt_upper_bound; lia]).
  rewrite E, ld32_zeros by lia. apply tlook_0.
Qed.

(** ** Lemmas: one level of indirection *)

(** A quiet state: inside a transaction, no buffer held. *)
Record fs_ok (k : kst) (v : ldisk) : Prop := {
  fo_inv : alloc_inv k v;
  fo_lok : lok v;
  fo_held : ld_held v = []
}.

(** Only the count of free blocks changed in the kernel's memory. *)
Definition only_count (k k' : kst) : Prop := k' = set_sb (set_freeblocks (sb_freeblocks (k_sb k'))) k.

Lemma only_count_refl k : only_count k k.
Proof. unfold only_count. destruct k as [[] ? ? ? ? ? ? ? ? ? ? ?]. done. Qed.

Lemma only_count_trans k1 k2 k3 : only_count k1 k2 -> only_count k2 k3 -> only_count k1 k3.
Proof. unfold only_count. intros H1 H2. rewrite H2 at 1. by rewrite H1. Qed.

Lemma only_count_sb k k' : only_count k k' -> k_sb k' = set_freeblocks (sb_freeblocks (k_sb k')) (k_sb k).
Proof. unfold only_count. intros H. by rewrite H at 1. Qed.

(** Facts about the geometry carry over. *)
Lemma only_count_geom k k' : only_count k k' ->
  sb_size (k_sb k') = sb_size (k_sb k) /\ sb_bmapstart (k_sb k') = sb_bmapstart (k_sb k) /\
  (forall b, is_meta (k_sb k') b <-> is_meta (k_sb k) b) /\ (forall b, in_bmap (k_sb k') b <-> in_bmap (k_sb k) b).
Proof. intros H. rewrite (only_count_sb k k' H). done. Qed.

Lemma free_first k v : alloc_inv k v -> 1 <= sb_freeblocks (k_sb k) ->
  exists b, first_free v (sb_bmapstart (k_sb k)) (sb_size (k_sb k)) = Some b.
Proof.
  intros I Hf. rewrite (ai_blocks k v I) in Hf. unfold nfree, zlen in Hf.
  destruct (filter _ _) as [|n l] eqn:E; [simpl in Hf; lia|].
  assert (Hn : n ∈ filter (fun n => bitof v (sb_bmapstart (k_sb k)) n = false) (seqZ 0 (sb_size (k_sb k)))).
  { rewrite E. apply elem_of_cons. by left. }
  apply list_elem_of_filter in Hn as [Hb Hn]. apply elem_of_seqZ in Hn.
  unfold first_free. destruct (scan_is_Some (fun n => negb (bitof v (sb_bmapstart (k_sb k)) n))
    (Z.to_nat (sb_size (k_sb k))) 0 n) as [x ->]; [lia|by rewrite Hb|eauto].
Qed.

Lemma alloc_inv_hold k v a : alloc_inv k v -> dblock k v a -> alloc_inv k (hold a v).
Proof.
  intros I D. split; try apply I. intros b Hb. apply elem_of_cons in Hb as [->|Hb]; [done|]. by apply (ai_held k v I).
Qed.

Lemma lok_hold v a : lok v -> lok (hold a v).
Proof. intros L. split; try apply L. intros b Hb. apply elem_of_cons. right. by apply (lk_dirty v L). Qed.

Lemma room_hold n v a : room (n + 1) v -> room n (hold a v).
Proof. intros [H1 H2]. unfold room, zlen in *. simpl. split; lia. Qed.

(** The state without its held buffers. *)
Definition unheld (v : ldisk) : ldisk :=
  mkLD (ld_blk v) [] (ld_dirty v) (ld_log v) (ld_out v) (ld_start v) (ld_size v).

Lemma hold_unheld v a : ld_held v = [a] -> v = hold a (unheld v).
Proof. intros H. destruct v. simpl in *. by subst. Qed.

Lemma dirty_nil v : lok v -> ld_held v = [] -> ld_dirty v = [].
Proof.
  intros L H. destruct (ld_dirty v) as [|b l] eqn:E; [done|]. pose proof (lk_dirty v L b) as X.
  rewrite E, H in X. exfalso. eapply not_elem_of_nil, X, elem_of_cons. by left.
Qed.

(** The state after block [b] is allocated and stored in entry [i] of [a]. *)
Record ind_new (k : kst) (v : ldisk) (a i b : Z) (k' : kst) (v' : ldisk) : Prop := {
  in_ok : fs_ok k' v';
  in_ext : ext 4 v v';
  in_k : only_count k k';
  in_count : sb_freeblocks (k_sb k') = sb_freeblocks (k_sb k) - 1;
  in_range0 : 0 <= b < sb_size (k_sb k);
  in_free : bitof v (sb_bmapstart (k_sb k)) b = false;
  in_data : ~ is_meta (k_sb k) b;
  in_zero : blk v' b = zeros BSIZE;
  in_entry : blk v' a = st32 (4 * i) b (blk v a);
  in_bit : forall m, 0 <= m < sb_size (k_sb k) ->
    bitof v' (sb_bmapstart (k_sb k)) m = if decide (m = b) then true else bitof v (sb_bmapstart (k_sb k)) m;
  in_frame : forall c, c <> a -> c <> b -> c <> 1 -> ~ in_bmap (k_sb k) c -> blk v' c = blk v c
}.

Lemma alloc_inv_unheld k v : alloc_inv k v -> alloc_inv k (unheld v).
Proof. intros I. split; try apply I. intros b Hb. by apply not_elem_of_nil in Hb. Qed.

Lemma ind_new_intro k v a i b k1 v1 :
  geom_ok (k_sb k) -> lok v -> ld_held v = [] -> ballocd k (hold a v) b k1 v1 -> ld_held v1 = [a] -> ld_dirty v1 = [] -> lok (unheld v1) ->
  a <> b -> ~ is_meta (k_sb k) a -> length (st32 (4 * i) b (blk v a)) = Z.to_nat BSIZE ->
  ind_new k v a i b k1 (put_blk a (st32 (4 * i) b (blk v a)) (unheld v1)).
Proof.
  intros G L H0 [Bi Bx Bk Br Bf Bd Bz Bb Bc Bfr] Hh1 Hd1 L1 Hab Hm Hlen.
  assert (Hma : a <> 1 /\ ~ in_bmap (k_sb k) a /\ ~ in_ibmap (k_sb k) a) by (unfold is_meta in Hm; tauto).
  destruct Hma as (Ha1 & Ha2 & Ha3).
  split; try done.
  - split; [|by apply lok_put|done]. apply alloc_inv_put; [by apply alloc_inv_unheld|done| |]; by rewrite Bk.
  - pose proof (add_log_len a (ld_log v1)) as Hal. destruct Bx as [X1 X2 X3 X4 X5 X6 X7 X8].
    split; simpl in *; try congruence.
    + intros c Hc. apply elem_add_log. right. by apply X6.
    + lia.
    + intros Hl c. rewrite blk_put. case_decide; [done|]. by apply X8.
  - by rewrite Bk.
  - rewrite blk_put_ne by congruence. done.
  - apply blk_put_eq.
  - intros m Hmr. etransitivity; [|exact (Bb m Hmr)].
    change (bitof v1) with (bitof (unheld v1)). apply bitof_put_ne. intros ->. by apply Ha2, bmap_block.
  - intros c H1 H2 H3 H4. rewrite blk_put_ne by done. by apply Bfr.
Qed.

Lemma bmap_ind_run k v a i :
  fs_ok k v -> dblock k v a -> 0 <= i < 256 -> room 4 v -> 1 <= sb_freeblocks (k_sb k) ->
  let e := ld32 (4 * i) (blk v a) in
  if e =? 0
  then exists b k' v', run hA (bmap_ind ROOTDEV a i) (k, v) = Ok b (k', v') /\ ind_new k v a i b k' v'
  else run hA (bmap_ind ROOTDEV a i) (k, v) = Ok e (k, v).
Proof.
  intros [I L H0] D Hi R Hfree e. destruct D as (Hr & Hm & Hb).
  assert (Ha : a ∉ ld_held v) by (rewrite H0; apply not_elem_of_nil).
  assert (Hv : vb v a) by (by apply (ai_data k v I)).
  assert (Hda : a ∉ ld_dirty v) by (by apply lok_notdirty).
  assert (Er : run hA (P.bread ROOTDEV a) (k, v) = Ok a (k, hold a v)).
  { apply run_bread; [done|done|destruct R; lia]. }
  destruct (Z.eqb_spec e 0) as [E|E].
  2: { unfold bmap_ind. rewrite run_bind, Er. rewrite run_bind, run_bdata by (apply elem_of_cons; by left).
       change (blk (hold a v) a) with (blk v a). fold e. rewrite (proj2 (Z.eqb_neq e 0) E).
       rewrite run_bind, run_brelse by (simpl; set_solver). by rewrite unhold_hold. }
  pose proof (alloc_inv_hold k v a I (conj Hr (conj Hm Hb))) as Ih.
  destruct (free_first k v I Hfree) as [b Hff].
  pose proof (balloc_run k (hold a v) Ih (lok_hold v a L) (room_hold 3 v a R)) as Hba.
  change (first_free (hold a v)) with (first_free v) in Hba. rewrite Hff in Hba.
  destruct Hba as (k1 & v1 & Eb & B). destruct B as [Bi Bx Bk Br Bf Bd Bz Bb Bc Bfr].
  assert (Hh1 : ld_held v1 = [a]) by (rewrite (ex_held _ _ _ Bx); simpl; by rewrite H0).
  assert (Hd1 : ld_dirty v1 = []) by (rewrite (ex_dirty _ _ _ Bx); exact (dirty_nil v L H0)).
  assert (L1 : lok (unheld v1)).
  { pose proof (ext_lok _ _ _ (lok_hold v a L) Bx) as X. split; try apply X. intros c. simpl. rewrite Hd1. intros Hc. by apply not_elem_of_nil in Hc. }
  assert (Hab : a <> b) by (intros ->; change (bitof (hold b v)) with (bitof v) in Bf; congruence).
  assert (Ha1 : blk v1 a = blk v a).
  { apply Bfr; [done| |]; intros X; apply Hm; unfold is_meta; tauto. }
  exists b, k1, (put_blk a (st32 (4 * i) b (blk v a)) (unheld v1)). split.
  - unfold bmap_ind. rewrite run_bind, Er. rewrite run_bind, run_bdata by (apply elem_of_cons; by left).
    change (blk (hold a v) a) with (blk v a). fold e. rewrite E. cbn [Z.eqb].
    rewrite run_bind, Eb. rewrite run_bind, run_bdata by (rewrite Hh1; apply elem_of_cons; by left).
    rewrite Ha1. rewrite (hold_unheld v1 a Hh1) at 1. rewrite run_logged; [done|done|apply not_elem_of_nil| |].
    + destruct R as [R1 R2]. pose proof (ex_len _ _ _ Bx) as X1. pose proof (ex_size _ _ _ Bx) as X2.
      unfold room. simpl in *. rewrite X2. unfold zlen in *. simpl. lia.
    + rewrite length_st32 by (unfold zlen; rewrite ?(lk_len v L); lia). apply (lk_len v L).
  - assert (Hlen : length (st32 (4 * i) b (blk v a)) = Z.to_nat BSIZE).
    { rewrite length_st32 by (unfold zlen; rewrite ?(lk_len v L); lia). apply (lk_len v L). }
    apply (ind_new_intro k v a i b k1 v1); try done. apply (ai_geom k v I).
Qed.

(** ** Lemmas: the walk *)

Notation alloc_bit k v b := (bitof v (sb_bmapstart (k_sb k)) b) (only parsing).

(** What the walk to index [idx] below [a] does; [r] is the block it
    returns. *)
Record walked (n : nat) (k : kst) (v : ldisk) (a idx r : Z) (k' : kst) (v' : ldisk) : Prop := {
  wk_ok : fs_ok k' v';
  wk_ext : ext (4 * Z.of_nat n) v v';
  wk_k : only_count k k';
  wk_count : sb_freeblocks (k_sb k) - Z.of_nat n <= sb_freeblocks (k_sb k');
  wk_res : r = tlook n v' a idx;
  wk_nz : r <> 0;
  wk_same : tlook n v a idx <> 0 -> k' = k /\ v' = v;
  wk_new : tlook n v a idx = 0 -> blk v' r = zeros BSIZE /\ alloc_bit k v r = false;
  wk_other : forall j, 0 <= j < 256 ^ Z.of_nat n -> j <> idx -> tlook n v' a j = tlook n v a j;
  wk_tree : tree_ok n k' v' a;
  wk_grow : forall x, x ∈ tree n v' a -> x ∈ tree n v a \/ alloc_bit k v x = false;
  wk_keep : forall x, x ∈ tree n v a -> x ∈ tree n v' a;
  wk_bits : forall x, 0 <= x < sb_size (k_sb k) -> alloc_bit k v x = true -> alloc_bit k v' x = true;
  wk_used : forall x, 0 <= x < sb_size (k_sb k) -> alloc_bit k v' x = true ->
    alloc_bit k v x = true \/ x ∈ tree n v' a;
  wk_frame : forall c, 0 <= c < sb_size (k_sb k) -> alloc_bit k v c = true -> c <> 1 ->
    ~ in_bmap (k_sb k) c -> c ∉ inner n v a -> blk v' c = blk v c
}.

(** Index arithmetic of one level. *)
Lemma idx_split n idx : 0 <= idx < 256 ^ Z.of_nat (S n) ->
  0 <= idx / 256 ^ Z.of_nat n < 256 /\ 0 <= idx mod 256 ^ Z.of_nat n < 256 ^ Z.of_nat n.
Proof.
  intros Hi. rewrite Nat2Z.inj_succ, Z.pow_succ_r in Hi by lia. assert (0 < 256 ^ Z.of_nat n) by lia.
  split; [split; [apply Z.div_pos; lia|apply Z.div_lt_upper_bound; lia]|apply Z.mod_pos_bound; lia].
Qed.

Lemma idx_join n i j :
  i / 256 ^ Z.of_nat n = j / 256 ^ Z.of_nat n -> i mod 256 ^ Z.of_nat n = j mod 256 ^ Z.of_nat n -> i = j.
Proof.
  intros H1 H2. assert (0 < 256 ^ Z.of_nat n) by lia.
  rewrite (Z.div_mod i (256 ^ Z.of_nat n)), (Z.div_mod j (256 ^ Z.of_nat n)) by lia. lia.
Qed.

Lemma tree_S n v a : a <> 0 -> tree (S n) v a = a :: flat_map (tree n v) (entries v a).
Proof. intros H. cbn [tree]. by rewrite (proj2 (Z.eqb_neq a 0) H). Qed.
Lemma inner_S n v a : a <> 0 -> inner (S n) v a = a :: flat_map (inner n v) (entries v a).
Proof. intros H. cbn [inner]. by rewrite (proj2 (Z.eqb_neq a 0) H). Qed.
Lemma tlook_S n v a idx : a <> 0 -> tlook (S n) v a idx =
  tlook n v (ld32 (4 * (idx / 256 ^ Z.of_nat n)) (blk v a)) (idx mod 256 ^ Z.of_nat n).
Proof. intros H. cbn [tlook]. by rewrite (proj2 (Z.eqb_neq a 0) H). Qed.

(** A mapped block is a block of the tree. *)
Lemma tlook_tree n v a idx :
  0 <= idx < 256 ^ Z.of_nat n -> tlook n v a idx <> 0 -> tlook n v a idx ∈ tree n v a.
Proof.
  revert a idx. induction n as [|n IH]; intros a idx Hi Hn.
  - cbn [tlook tree] in *. rewrite (proj2 (Z.eqb_neq a 0) Hn). apply elem_of_cons. by left.
  - destruct (decide (a = 0)) as [->|Ha]; [by rewrite tlook_0 in Hn|].
    rewrite tlook_S in Hn |- * by done. rewrite tree_S by done. destruct (idx_split n idx Hi) as [H1 H2].
    apply elem_of_cons. right. apply elem_flat_map. eexists. split; [eapply list_elem_of_lookup_2, entries_lookup, H1|].
    by apply IH.
Qed.

Lemma tree_ok_sub n k v a i e :
  a <> 0 -> tree_ok (S n) k v a -> entries v a !! i = Some e -> tree_ok n k v e.
Proof.
  intros Ha [H1 H2] He. rewrite tree_S in H1, H2 by done.
  apply NoDup_cons in H1 as [_ H1]. apply Forall_cons in H2 as [_ H2].
  rewrite (flat_map_insert (tree n v) _ i e He) in H1, H2.
  apply NoDup_app in H1 as (_ & _ & H1). apply NoDup_app in H1 as (H1 & _ & _).
  apply Forall_app in H2 as [_ H2]. apply Forall_app in H2 as [H2 _]. done.
Qed.

Lemma tree_ok_root n k v a : a <> 0 -> tree_ok n k v a -> dblock k v a.
Proof.
  intros Ha [_ H]. rewrite Forall_forall in H. apply H.
  destruct n; cbn [tree]; rewrite (proj2 (Z.eqb_neq a 0) Ha); apply elem_of_cons; by left.
Qed.

(** A member of a subtree is a member of the tree, not its root, and an
    allocated data block. *)
Lemma sub_member n k v a i e x :
  a <> 0 -> tree_ok (S n) k v a -> entries v a !! i = Some e -> x ∈ tree n v e ->
  x ∈ tree (S n) v a /\ x <> a /\ dblock k v x.
Proof.
  intros Ha [H1 H2] He Hx. rewrite tree_S in H1, H2 |- * by done.
  assert (Hf : x ∈ flat_map (tree n v) (entries v a)).
  { apply elem_flat_map. exists e. split; [|done]. by eapply list_elem_of_lookup_2. }
  split; [apply elem_of_cons; by right|]. split.
  - intros ->. by apply NoDup_cons in H1 as [H1 _].
  - rewrite Forall_forall in H2. apply H2, elem_of_cons. by right.
Qed.

Lemma dblock_not_bmap k v c : dblock k v c -> c <> 1 /\ ~ in_bmap (k_sb k) c.
Proof. intros (_ & H & _). unfold is_meta in H. tauto. Qed.

(** Blocks keep their status while allocation only adds bits. *)
Lemma dblock_mono k k' v v' b :
  only_count k k' ->
  (forall x, 0 <= x < sb_size (k_sb k) -> alloc_bit k v x = true -> alloc_bit k v' x = true) ->
  dblock k v b -> dblock k' v' b.
Proof.
  intros Hk Hb (H1 & H2 & H3). destruct (only_count_geom k k' Hk) as (G1 & G2 & G3 & _).
  unfold dblock. rewrite G1, G2, G3. auto.
Qed.

(** The walk below an existing entry, seen from the block above. *)
Section Descend.
  Context (n : nat) (k : kst) (v : ldisk) (a i e idx r : Z) (k' : kst) (v' : ldisk).
  Context (Ha : a <> 0) (Ht : tree_ok (S n) k v a) (Hi : 0 <= i < 256).
  Context (He : ld32 (4 * i) (blk v a) = e) (W : walked n k v e idx r k' v').

Lemma de_entry : entries v a !! Z.to_nat i = Some e.
Proof. rewrite entries_lookup; congruence. Qed.

Lemma de_dblock x : x ∈ flat_map (tree n v) (entries v a) -> dblock k v x.
Proof.
  intros Hx. destruct Ht as [_ H]. rewrite Forall_forall in H. apply H. rewrite tree_S by done.
  apply elem_of_cons. by right.
Qed.

Lemma de_in x j y : entries v a !! j = Some y -> x ∈ tree n v y -> x ∈ flat_map (tree n v) (entries v a).
Proof. intros Hy Hx. apply elem_flat_map. exists y. split; [by eapply list_elem_of_lookup_2|done]. Qed.

Lemma de_nodup : a ∉ flat_map (tree n v) (entries v a) /\ NoDup (flat_map (tree n v) (entries v a)).
Proof. destruct Ht as [H _]. rewrite tree_S in H by done. by apply NoDup_cons in H. Qed.

Lemma de_root : blk v' a = blk v a.
Proof.
  pose proof (tree_ok_root _ _ _ _ Ha Ht) as D. destruct (dblock_not_bmap _ _ _ D).
  destruct D as (D1 & D2 & D3). apply (wk_frame _ _ _ _ _ _ _ _ W); try done.
  intros Hin. apply inner_tree in Hin. by apply (sub_member n k v a _ e _ Ha Ht de_entry) in Hin as (_ & ? & _).
Qed.

Lemma de_sibling j y c :
  entries v a !! j = Some y -> j <> Z.to_nat i -> c ∈ inner n v y -> blk v' c = blk v c.
Proof.
  intros Hy Hij Hc. apply inner_tree in Hc. pose proof (de_dblock c (de_in c j y Hy Hc)) as D.
  destruct (dblock_not_bmap _ _ _ D). destruct D as (D1 & D2 & D3).
  apply (wk_frame _ _ _ _ _ _ _ _ W); try done. intros Hin. apply inner_tree in Hin.
  eapply (flat_map_disjoint (tree n v) (entries v a) j (Z.to_nat i) y e c); try done; [apply de_nodup|apply de_entry].
Qed.

Lemma de_tree j y : entries v a !! j = Some y -> j <> Z.to_nat i -> tree n v' y = tree n v y.
Proof. intros Hy Hj. apply tree_frame. intros c Hc. by eapply de_sibling. Qed.

Lemma de_entries : entries v' a = entries v a.
Proof. apply entries_ext, de_root. Qed.

Lemma de_members x : x ∈ flat_map (tree n v') (entries v' a) <->
  x ∈ tree n v' e \/ exists j y, j <> Z.to_nat i /\ entries v a !! j = Some y /\ x ∈ tree n v y.
Proof.
  rewrite de_entries, elem_flat_map. split.
  - intros (y & Hy & Hx). apply list_elem_of_lookup in Hy as [j Hj].
    destruct (decide (j = Z.to_nat i)) as [->|N].
    + left. pose proof de_entry. congruence.
    + right. exists j, y. by rewrite <- (de_tree j y).
  - intros [Hx|(j & y & N & Hj & Hx)].
    + exists e. split; [eapply list_elem_of_lookup_2, de_entry|done].
    + exists y. split; [by eapply list_elem_of_lookup_2|]. by rewrite (de_tree j y).
Qed.

Lemma de_tree_ok : tree_ok (S n) k' v' a.
Proof.
  destruct de_nodup as [Hta Htn]. pose proof (tree_ok_root _ _ _ _ Ha Ht) as Da.
  split; rewrite tree_S by done.
  - apply NoDup_cons. split.
    + rewrite de_members. intros [Hx|(j & y & N & Hj & Hx)]; [|by apply Hta, (de_in _ j y)].
      apply (wk_grow _ _ _ _ _ _ _ _ W) in Hx as [Hx|Hx].
      * apply Hta, (de_in _ _ e de_entry Hx).
      * destruct Da as (_ & _ & Da). congruence.
    + rewrite de_entries. rewrite <- (list_insert_id (entries v a) (Z.to_nat i) e de_entry).
      eapply (NoDup_flat_map_update (tree n v)); [done|apply de_entry| |apply (wk_tree _ _ _ _ _ _ _ _ W)|].
      * intros j y N Hy. by eapply de_tree.
      * intros z Hz. apply (wk_grow _ _ _ _ _ _ _ _ W) in Hz as [Hz|Hz]; [by left|right]. intros Hin.
        destruct (de_dblock z Hin) as (_ & _ & D). congruence.
  - pose proof (fun b => dblock_mono k k' v v' b (wk_k _ _ _ _ _ _ _ _ W) (wk_bits _ _ _ _ _ _ _ _ W)) as Hmono.
    apply Forall_cons. split; [by apply Hmono|].
    apply Forall_forall. intros x Hx. apply de_members in Hx as [Hx|(j & y & N & Hj & Hx)].
    + destruct (wk_tree _ _ _ _ _ _ _ _ W) as [_ Wt]. rewrite Forall_forall in Wt. by apply Wt.
    + by eapply Hmono, de_dblock, de_in.
Qed.
End Descend.

Lemma walked_descend n k v a idx e r k' v' :
  a <> 0 -> tree_ok (S n) k v a -> 0 <= idx < 256 ^ Z.of_nat (S n) ->
  ld32 (4 * (idx / 256 ^ Z.of_nat n)) (blk v a) = e ->
  walked n k v e (idx mod 256 ^ Z.of_nat n) r k' v' ->
  walked (S n) k v a idx r k' v'.
Proof.
  intros Ha Ht Hidx He W. destruct (idx_split n idx Hidx) as [Hi Hm].
  set (i := idx / 256 ^ Z.of_nat n) in *.
  pose proof (de_entry v a i e Hi He) as Hei.
  pose proof (de_root n k v a i e _ r k' v' Ha Ht Hi He W) as Hroot.
  pose proof (de_members n k v a i e _ r k' v' Ha Ht Hi He W) as Htree.
  pose proof (de_tree_ok n k v a i e _ r k' v' Ha Ht Hi He W) as Htok.
  pose proof (de_sibling n k v a i e _ r k' v' Ha Ht Hi He W) as Hsib.
  pose proof (de_in n v a) as Hin.
  destruct W as [Wok Wext Wk Wc Wres Wnz Wsame Wnew Woth Wtree Wgrow Wkeep Wbits Wused Wframe].
  split; try assumption.
  - eapply ext_weaken; [done|lia].
  - lia.
  - rewrite tlook_S by done. fold i. by rewrite Hroot, He.
  - rewrite tlook_S by done. fold i. by rewrite He.
  - rewrite tlook_S by done. fold i. by rewrite He.
  - intros j Hj Hne. rewrite !tlook_S, Hroot by done. destruct (idx_split n j Hj) as [Hj1 Hj2].
    destruct (decide (j / 256 ^ Z.of_nat n = i)) as [Ej|Ej].
    + rewrite Ej, He. apply Woth; [done|]. intros Hmod. by apply Hne, (idx_join n).
    + apply tree_frame_look; [|done]. intros c. eapply (Hsib (Z.to_nat (j / 256 ^ Z.of_nat n))); [by apply entries_lookup|lia].
  - intros x. rewrite !tree_S by done. rewrite !elem_of_cons. intros [->|Hx]; [by left; left|].
    apply Htree in Hx as [Hx|(j & y & N & Hj & Hx)]; [|left; right; by eapply Hin].
    apply Wgrow in Hx as [Hx|Hx]; [left; right; by eapply Hin|by right].
  - intros x. rewrite !tree_S by done. rewrite !elem_of_cons. intros [->|Hx]; [by left|right].
    apply Htree. apply elem_flat_map in Hx as (y & Hy & Hx). apply list_elem_of_lookup in Hy as [j Hj].
    destruct (decide (j = Z.to_nat i)) as [->|N]; [left; apply Wkeep; congruence|right; eauto].
  - intros x Hx Hb. destruct (Wused x Hx Hb) as [|Hu]; [by left|right].
    rewrite tree_S by done. apply elem_of_cons. right. apply Htree. by left.
  - intros c H1 H2 H3 H4 H5. apply Wframe; try done. rewrite inner_S in H5 by done.
    intros Hc. apply H5, elem_of_cons. right. apply elem_flat_map. exists e. split; [by eapply list_elem_of_lookup_2|done].
Qed.

(** A new entry in an indirect block. *)
Section New.
  Context (n : nat) (k : kst) (v : ldisk) (a i b : Z) (k1 : kst) (v1 : ldisk).
  Context (G : geom_ok (k_sb k)) (Ha : a <> 0) (Ht : tree_ok (S n) k v a) (Hi : 0 <= i < 256).
  Context (Hlen : length (blk v a) = Z.to_nat BSIZE).
  Context (He : ld32 (4 * i) (blk v a) = 0) (N : ind_new k v a i b k1 v1).

Lemma ne_b : b <> 0.
Proof. intros E. apply (in_data _ _ _ _ _ _ _ N). left. done. Qed.

Lemma ne_entries : entries v1 a = <[Z.to_nat i := b]> (entries v a).
Proof.
  apply entries_store; try done; [|apply (in_entry _ _ _ _ _ _ _ N)].
  pose proof (in_range0 _ _ _ _ _ _ _ N). geom G. unfold is_u32. lia.
Qed.

Lemma ne_used x : dblock k v x -> x <> b.
Proof. intros (_ & _ & H) ->. pose proof (in_free _ _ _ _ _ _ _ N). congruence. Qed.

Lemma ne_frame c : dblock k v c -> c <> a -> blk v1 c = blk v c.
Proof.
  intros D Hc. destruct (dblock_not_bmap _ _ _ D). apply (in_frame _ _ _ _ _ _ _ N); try done. by apply ne_used.
Qed.

Lemma ne_sibling j y c : entries v a !! j = Some y -> c ∈ inner n v y -> blk v1 c = blk v c.
Proof.
  intros Hy Hc. apply inner_tree in Hc. apply ne_frame.
  - by eapply (de_dblock n k v a Ha Ht), de_in.
  - intros ->. destruct (de_nodup n k v a Ha Ht) as [H _]. by eapply H, de_in.
Qed.

Lemma ne_tree j y : entries v a !! j = Some y -> tree n v1 y = tree n v y /\ inner n v1 y = inner n v y.
Proof.
  intros Hy. destruct (tree_frame n v v1 y) as (H1 & H2 & _); [|done]. intros c. by eapply ne_sibling.
Qed.

Lemma ne_leaf : tree n v1 b = [b].
Proof. apply tree_zero_root; [apply ne_b|apply (in_zero _ _ _ _ _ _ _ N)]. Qed.

Lemma ne_entry0 : entries v a !! Z.to_nat i = Some 0.
Proof. rewrite entries_lookup; congruence. Qed.

Lemma ne_members x :
  x ∈ flat_map (tree n v1) (entries v1 a) <-> x = b \/ x ∈ flat_map (tree n v) (entries v a).
Proof.
  rewrite ne_entries, !elem_flat_map. split.
  - intros (y & Hy & Hx). apply list_elem_of_lookup in Hy as [j Hj].
    destruct (decide (j = Z.to_nat i)) as [->|Nj].
    + rewrite list_lookup_insert_eq in Hj by (rewrite length_entries; lia).
      assert (y = b) as -> by congruence. rewrite ne_leaf in Hx. left. by apply list_elem_of_singleton in Hx.
    + rewrite list_lookup_insert_ne in Hj by done. right. exists y.
      split; [by eapply list_elem_of_lookup_2|]. by rewrite <- (proj1 (ne_tree j y Hj)).
  - intros [->|(y & Hy & Hx)].
    + exists b. split; [|rewrite ne_leaf; by apply list_elem_of_singleton].
      eapply list_elem_of_lookup_2, list_lookup_insert_eq. rewrite length_entries. lia.
    + apply list_elem_of_lookup in Hy as [j Hj]. destruct (decide (j = Z.to_nat i)) as [->|Nj].
      * rewrite ne_entry0 in Hj. assert (y = 0) as -> by congruence. rewrite tree_0 in Hx. by apply not_elem_of_nil in Hx.
      * exists y. split; [eapply list_elem_of_lookup_2; by rewrite list_lookup_insert_ne|].
        by rewrite (proj1 (ne_tree j y Hj)).
Qed.

Lemma ne_bits x : 0 <= x < sb_size (k_sb k) -> alloc_bit k v x = true -> alloc_bit k v1 x = true.
Proof. intros Hx Hb. rewrite (in_bit _ _ _ _ _ _ _ N x Hx). by case_decide. Qed.

Lemma ne_dblock x : dblock k v x -> dblock k1 v1 x.
Proof. apply dblock_mono; [apply (in_k _ _ _ _ _ _ _ N)|exact ne_bits]. Qed.

Lemma ne_tree_ok : tree_ok (S n) k1 v1 a.
Proof.
  destruct (de_nodup n k v a Ha Ht) as [Hta Htn]. pose proof (tree_ok_root _ _ _ _ Ha Ht) as Da.
  split; rewrite tree_S by done.
  - apply NoDup_cons. split.
    + rewrite ne_members. intros [E|Hx]; [by apply (ne_used a Da)|done].
    + rewrite ne_entries. eapply (NoDup_flat_map_update (tree n v)); [done|apply ne_entry0| | |].
      * intros j y Nj Hy. by eapply ne_tree.
      * rewrite ne_leaf. apply NoDup_singleton.
      * intros z Hz. right. rewrite ne_leaf in Hz. apply list_elem_of_singleton in Hz as ->. intros Hb.
        by apply (ne_used b (de_dblock n k v a Ha Ht b Hb)).
  - apply Forall_cons. split; [by apply ne_dblock|]. apply Forall_forall. intros x Hx.
    apply ne_members in Hx as [->|Hx]; [|by eapply ne_dblock, de_dblock].
    destruct (only_count_geom k k1 (in_k _ _ _ _ _ _ _ N)) as (G1 & G2 & G3 & _).
    unfold dblock. rewrite G1, G2, G3, (in_bit _ _ _ _ _ _ _ N b) by (apply (in_range0 _ _ _ _ _ _ _ N)).
    rewrite decide_True by done. split; [apply (in_range0 _ _ _ _ _ _ _ N)|]. split; [apply (in_data _ _ _ _ _ _ _ N)|done].
Qed.

Lemma ne_inner x : x ∈ inner (S n) v1 a -> x = b \/ x ∈ inner (S n) v a.
Proof.
  rewrite !inner_S, !elem_of_cons, !elem_flat_map, ne_entries by done.
  intros [->|(y & Hy & Hx)]; [by right; left|]. apply list_elem_of_lookup in Hy as [j Hj].
  destruct (decide (j = Z.to_nat i)) as [->|Nj].
  - rewrite list_lookup_insert_eq in Hj by (rewrite length_entries; lia).
    assert (y = b) as -> by congruence. left. eapply inner_zero_root; [apply (in_zero _ _ _ _ _ _ _ N)|done].
  - rewrite list_lookup_insert_ne in Hj by done. right. right. exists y.
    split; [by eapply list_elem_of_lookup_2|]. by rewrite <- (proj2 (ne_tree j y Hj)).
Qed.

(** Only the new entry can be reached differently. *)
Lemma ne_look j : 0 <= j < 256 ^ Z.of_nat (S n) -> j / 256 ^ Z.of_nat n <> i ->
  tlook (S n) v1 a j = tlook (S n) v a j.
Proof.
  intros Hj Hne. rewrite !tlook_S by done. destruct (idx_split n j Hj) as [Hj1 Hj2].
  assert (E : ld32 (4 * (j / 256 ^ Z.of_nat n)) (blk v1 a) = ld32 (4 * (j / 256 ^ Z.of_nat n)) (blk v a)).
  { rewrite (in_entry _ _ _ _ _ _ _ N). apply ld32_st32_ne; unfold zlen; lia. }
  rewrite E. apply tree_frame_look; [|done]. intros c. eapply ne_sibling. by apply entries_lookup.
Qed.

Lemma ne_look_new j : 0 <= j < 256 ^ Z.of_nat (S n) -> j / 256 ^ Z.of_nat n = i ->
  tlook (S n) v a j = 0 /\ tlook (S n) v1 a j = match n with O => b | S _ => 0 end.
Proof.
  intros Hj E. rewrite !tlook_S, E by done. split; [rewrite He; apply tlook_0|].
  rewrite (in_entry _ _ _ _ _ _ _ N), ld32_st32_eq by (unfold zlen; lia).
  rewrite u32_id by (pose proof (in_range0 _ _ _ _ _ _ _ N); geom G; unfold is_u32; lia).
  destruct n; [done|]. apply tlook_zero_root; [apply (in_zero _ _ _ _ _ _ _ N)|by apply idx_split].
Qed.

Lemma walked_after_new idx r k' v' :
  0 <= idx < 256 ^ Z.of_nat (S n) -> idx / 256 ^ Z.of_nat n = i ->
  ext (4 * Z.of_nat n) v1 v' -> sb_freeblocks (k_sb k1) - Z.of_nat n <= sb_freeblocks (k_sb k') ->
  walked (S n) k1 v1 a idx r k' v' -> walked (S n) k v a idx r k' v'.
Proof.
  intros Hidx Ei Wext' Wc' W. pose proof (in_k _ _ _ _ _ _ _ N) as Hk.
  destruct (only_count_geom k k1 Hk) as (G1 & G2 & G3 & G4).
  destruct (ne_look_new idx Hidx Ei) as [L0 L1].
  destruct W as [Wok _ Wk _ Wres Wnz Wsame Wnew Woth Wtree Wgrow Wkeep Wbits Wused Wframe].
  rewrite ?G1, ?G2 in *.
  assert (Hmem : forall x, x ∈ tree (S n) v1 a <-> x = b \/ x ∈ tree (S n) v a).
  { intros x. rewrite !tree_S, !elem_of_cons, ne_members by done. tauto. }
  assert (Hfree : forall x, alloc_bit k v1 x = false -> 0 <= x < sb_size (k_sb k) -> alloc_bit k v x = false).
  { intros x Hx Hr. destruct (bitof v _ x) eqn:Eb; [|done]. by rewrite (ne_bits x Hr Eb) in Hx. }
  assert (Hrange : forall x, x ∈ tree (S n) v' a -> 0 <= x < sb_size (k_sb k)).
  { intros x Hx. destruct Wtree as [_ Wt]. rewrite Forall_forall in Wt. destruct (Wt x Hx) as (Hr & _).
    destruct (only_count_geom k1 k' Wk) as (G5 & _). by rewrite G5, G1 in Hr. }
  split; try assumption.
  - replace (4 * Z.of_nat (S n)) with (4 + 4 * Z.of_nat n) by lia. eapply ext_trans; [apply (in_ext _ _ _ _ _ _ _ N)|done].
  - by eapply only_count_trans.
  - pose proof (in_count _ _ _ _ _ _ _ N). lia.
  - intros H. congruence.
  - intros _. destruct (decide (tlook (S n) v1 a idx = 0)) as [E0|E0].
    + destruct (Wnew E0) as [Hz Hf]. split; [done|]. apply Hfree; [done|]. apply Hrange.
      rewrite Wres. apply tlook_tree; [done|]. by rewrite <- Wres.
    + destruct (Wsame E0) as [-> ->]. rewrite Wres. rewrite L1 in *. destruct n; [|done].
      split; [apply (in_zero _ _ _ _ _ _ _ N)|apply (in_free _ _ _ _ _ _ _ N)].
  - intros j Hj Hne. rewrite Woth by done. destruct (decide (j / 256 ^ Z.of_nat n = i)) as [E|E]; [|by apply ne_look].
    destruct (ne_look_new j Hj E) as [-> ->]. destruct n; [|done]. exfalso. apply Hne. 
    apply (idx_join 0); [congruence|]. by rewrite !Z.mod_1_r.
  - intros x Hx. destruct (Wgrow x Hx) as [H|H]; [|right; by apply Hfree, Hrange].
    apply Hmem in H as [->|H]; [right; apply (in_free _ _ _ _ _ _ _ N)|by left].
  - intros x Hx. apply Wkeep, Hmem. by right.
  - intros x Hx Hb. apply Wbits; [done|]. by apply ne_bits.
  - intros x Hx Hb. destruct (Wused x Hx Hb) as [H|H]; [|by right].
    rewrite (in_bit _ _ _ _ _ _ _ N x Hx) in H. case_decide as E; [right; apply Wkeep, Hmem; by left|by left].
  - intros c H1 H2 H3 H4 H5. rewrite Wframe; [|done|by apply ne_bits|done|by rewrite G4|].
    + apply (in_frame _ _ _ _ _ _ _ N); try done.
      * intros ->. apply H5. rewrite inner_S by done. apply elem_of_cons. by left.
      * intros ->. pose proof (in_free _ _ _ _ _ _ _ N). congruence.
    + intros Hc. apply ne_inner in Hc as [->|Hc]; [|done]. pose proof (in_free _ _ _ _ _ _ _ N). congruence.
Qed.
End New.

Lemma walked_here k v a idx : fs_ok k v -> a <> 0 -> tree_ok 0 k v a -> walked 0 k v a idx a k v.
Proof.
  intros F Ha Ht. split; try done; try lia.
  - apply ext_refl.
  - apply only_count_refl.
  - by left.
  - by left.
Qed.

Lemma bmap_walk_run n : forall k v a idx,
  fs_ok k v -> a <> 0 -> tree_ok n k v a -> 0 <= idx < 256 ^ Z.of_nat n ->
  room (4 * Z.of_nat n) v -> Z.of_nat n <= sb_freeblocks (k_sb k) ->
  exists r k' v', run hA (bmap_walk n ROOTDEV a idx) (k, v) = Ok r (k', v') /\ walked n k v a idx r k' v'.
Proof.
  induction n as [|n IH]; intros k v a idx F Ha Ht Hidx Hr Hf.
  { exists a, k, v. split; [done|]. by apply walked_here. }
  destruct (idx_split n idx Hidx) as [Hi Hm]. set (i := idx / 256 ^ Z.of_nat n) in *.
  pose proof (bmap_ind_run k v a i F (tree_ok_root _ _ _ _ Ha Ht) Hi) as Hind. cbv zeta in Hind.
  assert (R4 : room 4 v) by (eapply room_weaken; [done|lia]). assert (F1 : 1 <= sb_freeblocks (k_sb k)) by lia.
  specialize (Hind R4 F1). cbn [bmap_walk]. fold i. rewrite run_bind.
  destruct (Z.eqb_spec (ld32 (4 * i) (blk v a)) 0) as [E|E].
  - destruct Hind as (b & k1 & v1 & Erun & N). rewrite Erun.
    pose proof (ai_geom _ _ (fo_inv _ _ F)) as G. pose proof (lk_len _ (fo_lok _ _ F) a) as Hlen.
    pose proof (ne_tree_ok n k v a i b k1 v1 G Ha Ht Hi Hlen E N) as Ht1.
    pose proof (ne_entries k v a i b k1 v1 G Hi Hlen N) as Hent.
    assert (Hb : b <> 0) by (eapply ne_b; done).
    assert (Hei : entries v1 a !! Z.to_nat i = Some b).
    { rewrite Hent. apply list_lookup_insert_eq. rewrite length_entries. lia. }
    destruct (IH k1 v1 b (idx mod 256 ^ Z.of_nat n)) as (r & k' & v' & Er & W).
    + apply (in_ok _ _ _ _ _ _ _ N).
    + done.
    + by apply (tree_ok_sub n k1 v1 a (Z.to_nat i)).
    + done.
    + eapply (ext_room 4); [|apply (in_ext _ _ _ _ _ _ _ N)]. apply (room_weaken (4 * Z.of_nat (S n))); [done|lia].
    + pose proof (in_count _ _ _ _ _ _ _ N). lia.
    + exists r, k', v'. split; [done|]. eapply walked_after_new; try done; [apply W|apply W|].
      apply (walked_descend n k1 v1 a idx b); try done. fold i. rewrite entries_lookup in Hei by done. congruence.
  - rewrite Hind. destruct (IH k v (ld32 (4 * i) (blk v a)) (idx mod 256 ^ Z.of_nat n)) as (r & k' & v' & Er & W); try done.
    + apply (tree_ok_sub n k v a (Z.to_nat i)); [done|done|by apply entries_lookup].
    + apply (room_weaken (4 * Z.of_nat (S n))); [done|lia].
    + lia.
    + exists r, k', v'. split; [done|]. by eapply walked_descend.
Qed.

(** ** The map of an inode *)

(** Depth of the tree at [addrs[j]]. *)
Definition deps : list nat := [0; 0; 0; 0; 0; 0; 0; 0; 0; 0; 0; 0; 1; 2; 3]%nat.
Definition dep (s : Z) : nat := nth (Z.to_nat s) deps 0%nat.

(** The slot of [addrs] and the index below it for file block [bn]. *)
Definition slot_of (bn : Z) : Z * Z :=
  if bn <? 12 then (bn, 0)
  else if bn <? 12 + 256 then (12, bn - 12)
  else if bn <? 12 + 256 + 65536 then (13, bn - (12 + 256))
  else (14, bn - (12 + 256 + 65536)).

Definition MAXBN : Z := 12 + 256 + 65536 + 16777216.

Definition addr_of (addrs : list Z) (s : Z) : Z := nth (Z.to_nat s) addrs 0.

(** The disk block of file block [bn]; 0 if there is none. *)
Definition ilook (v : ldisk) (addrs : list Z) (bn : Z) : Z :=
  let '(s, x) := slot_of bn in tlook (dep s) v (addr_of addrs s) x.

Definition itree (v : ldisk) (addrs : list Z) : list Z :=
  flat_map (fun p => tree (fst p) v (snd p)) (zip deps addrs).
Definition iinner (v : ldisk) (addrs : list Z) : list Z :=
  flat_map (fun p => inner (fst p) v (snd p)) (zip deps addrs).

(** The blocks of a file are distinct allocated data blocks. *)
Definition imap_ok (k : kst) (v : ldisk) (addrs : list Z) : Prop :=
  length addrs = 15%nat /\ NoDup (itree v addrs) /\ Forall (dblock k v) (itree v addrs).

Lemma dep_direct s : 0 <= s < 12 -> dep s = 0%nat.
Proof.
  intros H. assert (Hs : s = 0 \/ s = 1 \/ s = 2 \/ s = 3 \/ s = 4 \/ s = 5 \/ s = 6 \/ s = 7 \/ s = 8 \/
    s = 9 \/ s = 10 \/ s = 11) by lia. by destruct_or! Hs; subst.
Qed.

Lemma slot_range bn : 0 <= bn < MAXBN ->
  let '(s, x) := slot_of bn in 0 <= s < 15 /\ 0 <= x < 256 ^ Z.of_nat (dep s).
Proof.
  unfold MAXBN, slot_of. intros H. destruct (Z.ltb_spec bn 12).
  - split; [lia|]. rewrite dep_direct by lia. simpl. lia.
  - destruct (Z.ltb_spec bn (12 + 256)); [split; [lia|]; change (dep 12) with 1%nat; lia|].
    destruct (Z.ltb_spec bn (12 + 256 + 65536)); [split; [lia|]; change (dep 13) with 2%nat; lia|].
    split; [lia|]. change (dep 14) with 3%nat. lia.
Qed.

Lemma slot_inj bn bn' : 0 <= bn < MAXBN -> 0 <= bn' < MAXBN -> slot_of bn = slot_of bn' -> bn = bn'.
Proof.
  unfold MAXBN, slot_of. intros H H'.
  destruct (Z.ltb_spec bn 12), (Z.ltb_spec bn' 12), (Z.ltb_spec bn (12 + 256)), (Z.ltb_spec bn' (12 + 256)),
    (Z.ltb_spec bn (12 + 256 + 65536)), (Z.ltb_spec bn' (12 + 256 + 65536)); intros E; simplify_eq; lia.
Qed.

Lemma slot_lookup addrs s : length addrs = 15%nat -> 0 <= s < 15 ->
  zip deps addrs !! Z.to_nat s = Some (dep s, addr_of addrs s).
Proof.
  intros Hl Hs. apply lookup_zip_with_Some. exists (dep s), (addr_of addrs s). split; [done|].
  unfold dep, addr_of. split; apply lookup_nth; simpl; lia.
Qed.
