(* ===== verification/Imap.v ===== *)
(** * bmap on an inode (kernel/fs.c: bmap, non-extent files)

    Lifts the walk through one tree of indirect blocks to the fifteen
    addresses of an inode, and states what bmap does to a file. *)
From S2P Require Import Prelude Str Bio Log Crash Machine Types Vm Codec Ld Balloc Inode Bmap.
Local Open Scope prog_scope.

(** The superblock changed at most in its count of free blocks. *)
Definition same_sb (k k' : kst) : Prop := k_sb k' = set_freeblocks (sb_freeblocks (k_sb k')) (k_sb k).

(** What bmap does for file block [bn] of a file with block map [addrs];
    [r] is the result and [addrs'] the map afterwards. *)
Record iwalked (k : kst) (v : ldisk) (addrs : list Z) (bn r : Z) (k' : kst) (v' : ldisk) (addrs' : list Z) : Prop := {
  iw_ok : fs_ok k' v';
  iw_ext : ext 15 v v';
  iw_sb : same_sb k k';
  iw_count : sb_freeblocks (k_sb k) - 4 <= sb_freeblocks (k_sb k');
  iw_res : r = ilook v' addrs' bn;
  iw_nz : r <> 0;
  iw_same : ilook v addrs bn <> 0 -> k_sb k' = k_sb k /\ v' = v /\ addrs' = addrs;
  iw_new : ilook v addrs bn = 0 -> blk v' r = zeros BSIZE /\ alloc_bit k v r = false;
  iw_other : forall j, 0 <= j < MAXBN -> j <> bn -> ilook v' addrs' j = ilook v addrs j;
  iw_map : imap_ok k' v' addrs';
  iw_grow : forall x, x ∈ itree v' addrs' -> x ∈ itree v addrs \/ alloc_bit k v x = false;
  iw_keep : forall x, x ∈ itree v addrs -> x ∈ itree v' addrs';
  iw_bits : forall x, 0 <= x < sb_size (k_sb k) -> alloc_bit k v x = true -> alloc_bit k v' x = true;
  iw_used : forall x, 0 <= x < sb_size (k_sb k) -> alloc_bit k v' x = true ->
    alloc_bit k v x = true \/ x ∈ itree v' addrs';
  iw_frame : forall c, 0 <= c < sb_size (k_sb k) -> alloc_bit k v c = true -> c <> 1 ->
    ~ in_bmap (k_sb k) c -> c ∉ iinner v addrs -> blk v' c = blk v c
}.

(** ** Lemmas *)

Lemma same_sb_refl k : same_sb k k.
Proof. unfold same_sb. by destruct (k_sb k). Qed.
Lemma same_sb_trans k1 k2 k3 : same_sb k1 k2 -> same_sb k2 k3 -> same_sb k1 k3.
Proof. unfold same_sb. intros H1 H2. rewrite H2 at 1. by rewrite H1. Qed.
Lemma same_sb_geom k k' : same_sb k k' ->
  sb_size (k_sb k') = sb_size (k_sb k) /\ sb_bmapstart (k_sb k') = sb_bmapstart (k_sb k) /\
  (forall b, is_meta (k_sb k') b <-> is_meta (k_sb k) b) /\ (forall b, in_bmap (k_sb k') b <-> in_bmap (k_sb k) b).
Proof. unfold same_sb. intros ->. done. Qed.
Lemma only_count_same k k' : only_count k k' -> same_sb k k'.
Proof. apply only_count_sb. Qed.

Lemma dblock_same k k' v v' b :
  same_sb k k' ->
  (forall x, 0 <= x < sb_size (k_sb k) -> alloc_bit k v x = true -> alloc_bit k v' x = true) ->
  dblock k v b -> dblock k' v' b.
Proof.
  intros Hk Hb (H1 & H2 & H3). destruct (same_sb_geom k k' Hk) as (G1 & G2 & G3 & _).
  unfold dblock. rewrite G1, G2, G3. auto.
Qed.

Lemma length_slots (addrs : list Z) : length addrs = 15%nat -> length (zip deps addrs) = 15%nat.
Proof. intros H. rewrite length_zip_with, H. done. Qed.

Lemma slots_inv (addrs : list Z) i p : length addrs = 15%nat -> zip deps addrs !! i = Some p ->
  0 <= Z.of_nat i < 15 /\ p = (dep (Z.of_nat i), addr_of addrs (Z.of_nat i)).
Proof.
  intros Hl Hp. assert (i < 15)%nat by (apply lookup_lt_Some in Hp; by rewrite length_slots in Hp).
  split; [lia|]. pose proof (slot_lookup addrs (Z.of_nat i) Hl ltac:(lia)) as E. rewrite Nat2Z.id in E. congruence.
Qed.

Lemma elem_itree v addrs x : length addrs = 15%nat ->
  x ∈ itree v addrs <-> exists s, 0 <= s < 15 /\ x ∈ tree (dep s) v (addr_of addrs s).
Proof.
  intros Hl. unfold itree. rewrite elem_flat_map. split.
  - intros (p & Hp & Hx). apply list_elem_of_lookup in Hp as [i Hi].
    destruct (slots_inv addrs i p Hl Hi) as [Hr ->]. eauto.
  - intros (s & Hs & Hx). exists (dep s, addr_of addrs s).
    split; [by eapply list_elem_of_lookup_2, slot_lookup|done].
Qed.

Lemma elem_iinner v addrs x : length addrs = 15%nat ->
  x ∈ iinner v addrs <-> exists s, 0 <= s < 15 /\ x ∈ inner (dep s) v (addr_of addrs s).
Proof.
  intros Hl. unfold iinner. rewrite elem_flat_map. split.
  - intros (p & Hp & Hx). apply list_elem_of_lookup in Hp as [i Hi].
    destruct (slots_inv addrs i p Hl Hi) as [Hr ->]. eauto.
  - intros (s & Hs & Hx). exists (dep s, addr_of addrs s).
    split; [by eapply list_elem_of_lookup_2, slot_lookup|done].
Qed.

Lemma iinner_itree v addrs x : length addrs = 15%nat -> x ∈ iinner v addrs -> x ∈ itree v addrs.
Proof. intros Hl. rewrite elem_iinner, elem_itree by done. intros (s & Hs & Hx). eauto using inner_tree. Qed.

(** Trees at different slots are disjoint. *)
Lemma islot_disjoint k v addrs s t x : imap_ok k v addrs -> 0 <= s < 15 -> 0 <= t < 15 -> s <> t ->
  x ∈ tree (dep s) v (addr_of addrs s) -> x ∈ tree (dep t) v (addr_of addrs t) -> False.
Proof.
  intros (Hl & Hn & _) Hs Ht Hne H1 H2.
  eapply (flat_map_disjoint (fun p => tree (fst p) v (snd p)) (zip deps addrs) (Z.to_nat s) (Z.to_nat t) _ _ x Hn);
    [lia|by apply slot_lookup|by apply slot_lookup|done|done].
Qed.

Lemma imap_dblock k v addrs x : imap_ok k v addrs -> x ∈ itree v addrs -> dblock k v x.
Proof. intros (_ & _ & H) Hx. rewrite Forall_forall in H. auto. Qed.

Lemma imap_slot k v addrs s : imap_ok k v addrs -> 0 <= s < 15 -> tree_ok (dep s) k v (addr_of addrs s).
Proof.
  intros (Hl & Hn & Hf) Hs. pose proof (slot_lookup addrs s Hl Hs) as Hp. unfold itree in *.
  rewrite (flat_map_insert _ _ _ _ Hp) in Hn, Hf. cbn [fst snd] in *.
  apply NoDup_app in Hn as (_ & _ & Hn). apply NoDup_app in Hn as (Hn & _ & _).
  apply Forall_app in Hf as [_ Hf]. apply Forall_app in Hf as [Hf _]. done.
Qed.

Lemma addr_of_insert addrs s t x : length addrs = 15%nat -> 0 <= s < 15 -> 0 <= t ->
  addr_of (<[Z.to_nat s := x]> addrs) t = if decide (t = s) then x else addr_of addrs t.
Proof.
  intros Hl Hs Ht. unfold addr_of. rewrite !nth_lookup. case_decide as E.
  - subst. by rewrite list_lookup_insert_eq by lia.
  - by rewrite list_lookup_insert_ne by lia.
Qed.

Lemma zip_insert (addrs : list Z) s x : length addrs = 15%nat -> 0 <= s < 15 ->
  zip deps (<[Z.to_nat s := x]> addrs) = <[Z.to_nat s := (dep s, x)]> (zip deps addrs).
Proof.
  intros Hl Hs. apply list_eq. intros j. destruct (decide (j = Z.to_nat s)) as [->|N].
  - rewrite list_lookup_insert_eq by (rewrite length_slots; lia).
    rewrite slot_lookup by (rewrite ?length_insert; done). rewrite addr_of_insert by (done || lia).
    by rewrite decide_True.
  - rewrite list_lookup_insert_ne by done. rewrite !lookup_zip_with, list_lookup_insert_ne by done. done.
Qed.

(** ** A walk below an existing address *)
Section IDescend.
  Context (k : kst) (v : ldisk) (addrs : list Z) (bn s a x r : Z) (k' : kst) (v' : ldisk).
  Context (Hmap : imap_ok k v addrs) (Hbn : 0 <= bn < MAXBN) (Hslot : slot_of bn = (s, x)) (Hs : 0 <= s < 15).
  Context (Ha : addr_of addrs s = a) (W : walked (dep s) k v a x r k' v').

Lemma id_len : length addrs = 15%nat.
Proof. apply Hmap. Qed.

Lemma id_sibling t c : 0 <= t < 15 -> t <> s -> c ∈ inner (dep t) v (addr_of addrs t) -> blk v' c = blk v c.
Proof.
  intros Ht Hne Hc. apply inner_tree in Hc.
  assert (D : dblock k v c) by (eapply imap_dblock; [done|]; apply elem_itree; [apply id_len|eauto]).
  destruct (dblock_not_bmap _ _ _ D). destruct D as (D1 & D2 & D3).
  apply (wk_frame _ _ _ _ _ _ _ _ W); try done. intros Hin. apply inner_tree in Hin. rewrite <- Ha in Hin.
  by eapply (islot_disjoint k v addrs t s c).
Qed.

Lemma id_tree t : 0 <= t < 15 -> t <> s ->
  tree (dep t) v' (addr_of addrs t) = tree (dep t) v (addr_of addrs t).
Proof. intros Ht Hne. apply tree_frame. intros c. by apply id_sibling. Qed.

Lemma id_members z : z ∈ itree v' addrs <->
  z ∈ tree (dep s) v' a \/ exists t, t <> s /\ 0 <= t < 15 /\ z ∈ tree (dep t) v (addr_of addrs t).
Proof.
  rewrite elem_itree by apply id_len. split.
  - intros (t & Ht & Hz). destruct (decide (t = s)) as [->|N]; [left; congruence|right].
    exists t. by rewrite <- id_tree.
  - intros [Hz|(t & N & Ht & Hz)]; [exists s; by rewrite Ha|]. exists t. by rewrite id_tree.
Qed.

Lemma id_map : imap_ok k' v' addrs.
Proof.
  split; [apply id_len|]. split.
  - unfold itree. destruct Hmap as (_ & Hn & _).
    pose proof (slot_lookup addrs s id_len Hs) as Hsl. rewrite Ha in Hsl.
    rewrite <- (list_insert_id (zip deps addrs) (Z.to_nat s) (dep s, a)) by done.
    eapply (NoDup_flat_map_update (fun p => tree (fst p) v (snd p))); [done|done| | |].
    + intros j p Nj Hp. destruct (slots_inv addrs j p id_len Hp) as [Hr ->]. cbn [fst snd]. apply id_tree; lia.
    + apply (wk_tree _ _ _ _ _ _ _ _ W).
    + intros z Hz. cbn [fst snd] in *. apply (wk_grow _ _ _ _ _ _ _ _ W) in Hz as [Hz|Hz]; [by left|right].
      intros Hin. destruct (imap_dblock k v addrs z Hmap Hin) as (_ & _ & D). congruence.
  - apply Forall_forall. intros z Hz. apply id_members in Hz as [Hz|(t & N & Ht & Hz)].
    + destruct (wk_tree _ _ _ _ _ _ _ _ W) as [_ Wt]. rewrite Forall_forall in Wt. by apply Wt.
    + eapply dblock_mono; [apply (wk_k _ _ _ _ _ _ _ _ W)|apply (wk_bits _ _ _ _ _ _ _ _ W)|].
      apply (imap_dblock k v addrs z Hmap), elem_itree; [apply id_len|eauto].
Qed.

Lemma id_ilook v0 : ilook v0 addrs bn = tlook (dep s) v0 a x.
Proof. unfold ilook. by rewrite Hslot, Ha. Qed.

Lemma dep_le t : (dep t <= 3)%nat.
Proof.
  unfold dep. assert (F : Forall (fun d => d <= 3)%nat deps) by (repeat constructor; lia).
  rewrite nth_lookup. destruct (deps !! Z.to_nat t) as [d|] eqn:E; simpl; [|lia].
  rewrite Forall_lookup in F. by eapply F.
Qed.

Lemma iwalked_descend : iwalked k v addrs bn r k' v' addrs.
Proof.
  pose proof id_map as Hmap'. pose proof id_members as Hmem. pose proof id_len as Hlen. pose proof (dep_le s) as Hd.
  pose proof id_sibling as Hsib.
  destruct W as [Wok Wext Wk Wc Wres Wnz Wsame Wnew Woth Wtree Wgrow Wkeep Wbits Wused Wframe].
  split; try assumption.
  - eapply ext_weaken; [done|lia].
  - by apply only_count_same.
  - lia.
  - by rewrite id_ilook.
  - rewrite id_ilook. intros H. destruct (Wsame H) as [-> ->]. done.
  - rewrite id_ilook. done.
  - intros j Hj Hne. pose proof (slot_range j Hj) as Hr. unfold ilook. destruct (slot_of j) as [t y] eqn:Et.
    destruct Hr as [Ht Hy]. destruct (decide (t = s)) as [->|N].
    + rewrite Ha. apply Woth; [done|]. intros ->. apply Hne, slot_inj; try done. congruence.
    + apply tree_frame_look; [|done]. intros c. by apply Hsib.
  - intros z Hz. apply Hmem in Hz as [Hz|(t & N & Ht & Hz)].
    + apply Wgrow in Hz as [Hz|Hz]; [left|by right]. apply elem_itree; [done|]. exists s. by rewrite Ha.
    + left. apply elem_itree; eauto.
  - intros z Hz. apply Hmem. apply elem_itree in Hz as (t & Ht & Hz); [|done].
    destruct (decide (t = s)) as [->|N]; [left; apply Wkeep; congruence|right; eauto].
  - intros z Hz Hb. destruct (Wused z Hz Hb) as [|Hu]; [by left|right]. apply Hmem. by left.
  - intros c H1 H2 H3 H4 H5. apply Wframe; try done. intros Hc. apply H5, elem_iinner; [done|].
    exists s. by rewrite Ha.
Qed.
End IDescend.

(** ** A new address in the inode *)
Section INew.
  Context (k : kst) (v : ldisk) (addrs : list Z) (s b : Z) (k1 : kst) (v1 : ldisk).
  Context (Hmap : imap_ok k v addrs) (Hs : 0 <= s < 15) (H0 : addr_of addrs s = 0) (B : ballocd k v b k1 v1).
Local Notation addrs1 := (<[Z.to_nat s := b]> addrs).

Lemma im_len : length addrs = 15%nat.
Proof. apply Hmap. Qed.

Lemma im_b : b <> 0.
Proof. intros E. apply (ba_data _ _ _ _ _ B). left. done. Qed.

Lemma im_same : same_sb k k1.
Proof. unfold same_sb. by rewrite (ba_k _ _ _ _ _ B). Qed.

Lemma im_used z : dblock k v z -> z <> b.
Proof. intros (_ & _ & H) ->. pose proof (ba_free _ _ _ _ _ B). congruence. Qed.

Lemma im_frame c : dblock k v c -> blk v1 c = blk v c.
Proof.
  intros D. destruct (dblock_not_bmap _ _ _ D). apply (ba_frame _ _ _ _ _ B); try done. by apply im_used.
Qed.

Lemma im_inner t c : 0 <= t < 15 -> c ∈ inner (dep t) v (addr_of addrs t) -> blk v1 c = blk v c.
Proof.
  intros Ht Hc. apply im_frame, (imap_dblock k v addrs c Hmap), elem_itree; [apply im_len|].
  exists t. split; [done|]. by apply inner_tree.
Qed.

Lemma im_tree t : 0 <= t < 15 ->
  tree (dep t) v1 (addr_of addrs t) = tree (dep t) v (addr_of addrs t) /\
  inner (dep t) v1 (addr_of addrs t) = inner (dep t) v (addr_of addrs t).
Proof.
  intros Ht. destruct (tree_frame (dep t) v v1 (addr_of addrs t)) as (E1 & E2 & _); [|done].
  intros c. by apply im_inner.
Qed.

Lemma im_leaf : tree (dep s) v1 b = [b].
Proof. apply tree_zero_root; [apply im_b|apply (ba_zero _ _ _ _ _ B)]. Qed.

Lemma im_addr t : 0 <= t -> addr_of addrs1 t = if decide (t = s) then b else addr_of addrs t.
Proof. intros Ht. apply addr_of_insert; [apply im_len|done|done]. Qed.

Lemma im_len1 : length addrs1 = 15%nat.
Proof. rewrite length_insert. apply im_len. Qed.

Lemma im_members z : z ∈ itree v1 addrs1 <-> z = b \/ z ∈ itree v addrs.
Proof.
  rewrite !elem_itree by (apply im_len1 || apply im_len). split.
  - intros (t & Ht & Hz). rewrite im_addr in Hz by lia. destruct (decide (t = s)) as [->|N].
    + rewrite im_leaf in Hz. left. by apply list_elem_of_singleton in Hz.
    + right. exists t. by rewrite <- (proj1 (im_tree t Ht)).
  - intros [->|(t & Ht & Hz)].
    + exists s. rewrite im_addr, decide_True, im_leaf by (done || lia). split; [done|]. by apply list_elem_of_singleton.
    + destruct (decide (t = s)) as [->|N].
      * rewrite H0, tree_0 in Hz. by apply not_elem_of_nil in Hz.
      * exists t. rewrite im_addr, decide_False by (done || lia). by rewrite (proj1 (im_tree t Ht)).
Qed.

Lemma im_bits z : 0 <= z < sb_size (k_sb k) -> alloc_bit k v z = true -> alloc_bit k v1 z = true.
Proof. intros Hz Hb. rewrite (ba_bit _ _ _ _ _ B z Hz). by case_decide. Qed.

Lemma im_dblock z : dblock k v z -> dblock k1 v1 z.
Proof. apply dblock_same; [apply im_same|exact im_bits]. Qed.

Lemma im_dblock_b : dblock k1 v1 b.
Proof.
  destruct (same_sb_geom k k1 im_same) as (G1 & G2 & G3 & _). unfold dblock. rewrite G1, G2, G3.
  rewrite (ba_bit _ _ _ _ _ B b) by apply (ba_range _ _ _ _ _ B). rewrite decide_True by done.
  split; [apply (ba_range _ _ _ _ _ B)|]. split; [apply (ba_data _ _ _ _ _ B)|done].
Qed.

Lemma im_map : imap_ok k1 v1 addrs1.
Proof.
  split; [apply im_len1|]. split.
  - unfold itree. rewrite zip_insert by (apply im_len || done). destruct Hmap as (_ & Hn & _).
    eapply (NoDup_flat_map_update (fun p => tree (fst p) v (snd p))); [done|by apply slot_lookup; [apply im_len|]| | |].
    + intros j p Nj Hp. destruct (slots_inv addrs j p im_len Hp) as [Hr ->]. by apply im_tree.
    + cbn [fst snd]. rewrite im_leaf. apply NoDup_singleton.
    + cbn [fst snd]. rewrite im_leaf. intros z Hz. apply list_elem_of_singleton in Hz as ->. right. intros Hin.
      by apply (im_used b (imap_dblock k v addrs b Hmap Hin)).
  - apply Forall_forall. intros z Hz. apply im_members in Hz as [->|Hz]; [apply im_dblock_b|].
    by eapply im_dblock, imap_dblock.
Qed.

Lemma im_iinner z : z ∈ iinner v1 addrs1 -> z = b \/ z ∈ iinner v addrs.
Proof.
  rewrite !elem_iinner by (apply im_len1 || apply im_len). intros (t & Ht & Hz). rewrite im_addr in Hz by lia.
  destruct (decide (t = s)) as [->|N].
  - left. eapply inner_zero_root; [apply (ba_zero _ _ _ _ _ B)|done].
  - right. exists t. by rewrite <- (proj2 (im_tree t Ht)).
Qed.

Lemma im_look j : 0 <= j < MAXBN -> fst (slot_of j) <> s -> ilook v1 addrs1 j = ilook v addrs j.
Proof.
  intros Hj Hne. pose proof (slot_range j Hj) as Hr. unfold ilook. destruct (slot_of j) as [t y].
  destruct Hr as [Ht Hy]. simpl in Hne. rewrite im_addr, decide_False by (done || lia).
  apply tree_frame_look; [|done]. intros c. by apply im_inner.
Qed.

Lemma im_look_new j : 0 <= j < MAXBN -> fst (slot_of j) = s ->
  ilook v addrs j = 0 /\ ilook v1 addrs1 j = match dep s with O => b | S _ => 0 end.
Proof.
  intros Hj E. pose proof (slot_range j Hj) as Hr. unfold ilook. destruct (slot_of j) as [t y].
  destruct Hr as [Ht Hy]. simpl in E. subst t. rewrite im_addr, decide_True, H0 by (done || lia).
  split; [apply tlook_0|]. destruct (dep s); [done|]. apply tlook_zero_root; [apply (ba_zero _ _ _ _ _ B)|done].
Qed.
End INew.

(** Allocation of the address followed by the walk below it. *)
Lemma iwalked_new k v addrs bn s x b k1 v1 k2 r k' v' :
  imap_ok k v addrs -> 0 <= bn < MAXBN -> slot_of bn = (s, x) -> 0 <= s < 15 -> addr_of addrs s = 0 ->
  ballocd k v b k1 v1 -> k_sb k2 = k_sb k1 -> walked (dep s) k2 v1 b x r k' v' ->
  iwalked k v addrs bn r k' v' (<[Z.to_nat s := b]> addrs).
Proof.
  intros Hmap Hbn Hslot Hs H0 B Hk2 W. set (addrs1 := <[Z.to_nat s := b]> addrs).
  pose proof (im_map k v addrs s b k1 v1 Hmap Hs H0 B) as Hmap1.
  assert (Hmap2 : imap_ok k2 v1 addrs1).
  { destruct Hmap1 as (? & ? & Hf). split; [done|]. split; [done|]. unfold dblock in *. by rewrite Hk2. }
  assert (Ha1 : addr_of addrs1 s = b).
  { unfold addrs1. rewrite addr_of_insert by (apply Hmap || lia). by rewrite decide_True. }
  pose proof (iwalked_descend k2 v1 addrs1 bn s b x r k' v' Hmap2 Hbn Hslot Hs Ha1 W) as IW.
  pose proof (wk_ext _ _ _ _ _ _ _ _ W) as Wext. pose proof (wk_count _ _ _ _ _ _ _ _ W) as Wcnt. pose proof (dep_le s) as Hd.
  assert (Hsame : same_sb k k2) by (unfold same_sb; rewrite Hk2; apply (im_same k v b k1 v1 B)).
  destruct (same_sb_geom k k2 Hsame) as (G1 & G2 & G3 & G4).
  destruct (im_look_new k v addrs s b k1 v1 Hmap Hs H0 B bn Hbn) as [L0 L1]; [by rewrite Hslot|].
  pose proof (im_members k v addrs s b k1 v1 Hmap Hs H0 B) as Hmem. fold addrs1 in Hmem, L1.
  pose proof (im_bits k v b k1 v1 B) as Hbits.
  destruct IW as [Wok _ Wsb _ Wres Wnz Wsame Wnew Woth Wmap Wgrow Wkeep Wbits Wused Wframe].
  rewrite ?G1, ?G2 in *.
  assert (Hfree : forall z, z ∈ itree v' addrs1 -> alloc_bit k v1 z = false -> alloc_bit k v z = false).
  { intros z Hz Hf. destruct (imap_dblock _ _ _ _ Wmap Hz) as (Hr & _).
    destruct (same_sb_geom k2 k' Wsb) as (G5 & _). rewrite G5, G1 in Hr.
    destruct (bitof v _ z) eqn:Eb; [|done]. by rewrite (Hbits z Hr Eb) in Hf. }
  split; try assumption.
  - eapply ext_weaken; [eapply ext_trans; [apply (ba_ext _ _ _ _ _ B)|done]|lia].
  - by eapply same_sb_trans.
  - pose proof (ba_count _ _ _ _ _ B). rewrite Hk2 in Wcnt. lia.
  - intros H. congruence.
  - intros _. destruct (decide (ilook v1 addrs1 bn = 0)) as [E0|E0].
    + destruct (Wnew E0) as [Hz Hf]. split; [done|]. apply Hfree; [|done].
      rewrite Wres. pose proof (slot_range bn Hbn) as Hr. unfold ilook in *. rewrite Hslot in *. destruct Hr as [_ Hx].
      apply elem_itree; [apply Wmap|]. exists s. split; [done|]. apply tlook_tree; [done|congruence].
    + destruct (Wsame E0) as (_ & -> & _). rewrite Wres, L1 in *. destruct (dep s); [|done].
      split; [apply (ba_zero _ _ _ _ _ B)|apply (ba_free _ _ _ _ _ B)].
  - intros j Hj Hne. rewrite Woth by done. destruct (decide (fst (slot_of j) = s)) as [E|E]; [|by eapply im_look].
    destruct (im_look_new k v addrs s b k1 v1 Hmap Hs H0 B j Hj E) as [-> E2]. fold addrs1 in E2. rewrite E2.
    destruct (dep s) eqn:Ed; [|done]. exfalso. apply Hne, slot_inj; try done.
    pose proof (slot_range j Hj) as Hr. pose proof (slot_range bn Hbn) as Hr'. rewrite Hslot in *.
    destruct (slot_of j) as [t y]. simpl in E. subst t. rewrite Ed in *. simpl in *. f_equal. lia.
  - intros z Hz. destruct (Wgrow z Hz) as [H|H]; [|right; by apply Hfree].
    apply Hmem in H as [->|H]; [right; apply (ba_free _ _ _ _ _ B)|by left].
  - intros z Hz. apply Wkeep, Hmem. by right.
  - intros z Hz Hzb. by apply Wbits, Hbits.
  - intros z Hz Hzb. destruct (Wused z Hz Hzb) as [H|H]; [|by right].
    rewrite (ba_bit _ _ _ _ _ B z Hz) in H. case_decide as E; [right; apply Wkeep, Hmem; by left|by left].
  - intros c H1 H2 H3 H4 H5. assert (c <> b) by (intros ->; pose proof (ba_free _ _ _ _ _ B); congruence).
    rewrite Wframe; [by apply (ba_frame _ _ _ _ _ B)|done|by apply Hbits|done|by rewrite G4|].
    intros Hc. by apply (im_iinner k v addrs s b k1 v1 Hmap Hs B) in Hc as [?|?].
Qed.

(** ** bmap *)

Definition inode_at (k : kst) (ip : nat) : inode := nth ip (k_itable k) inode0.
Definition i_set_addrs (l : list Z) (i : inode) : inode :=
  mkI (i_dev i) (i_inum i) (i_ref i) (i_locked i) (i_lpid i) (i_valid i) (i_type i) (i_major i) (i_minor i)
      (i_nlink i) (i_size i) (i_rwmode i) (i_supermode i) l (i_showmode i).

Lemma run_geti k v ip : run hA (geti ip) (k, v) = Ok (inode_at k ip) (k, v).
Proof. done. Qed.

Lemma run_bind_ret {A} (m : M A) s : run hA (a <- m; Ret a) s = run hA m s.
Proof. rewrite run_bind. by destruct (run hA m s). Qed.

(** Programs with equal runs from every state may replace one another. *)
Lemma run_bind_ext {A B} (m : M A) (f g : A -> M B) s :
  (forall a s, run hA (f a) s = run hA (g a) s) -> run hA (pbind m f) s = run hA (pbind m g) s.
Proof. intros H. rewrite !run_bind. destruct (run hA m s); [apply H|done..]. Qed.

Lemma bmap_norm k v ip bn :
  0 <= bn < MAXBN -> i_type (inode_at k ip) <> T_EXTENT ->
  run hA (bmap ip bn) (k, v) =
  (let '(s, x) := slot_of bn in
   run hA (addr <- bmap_top ip s; bmap_walk (dep s) (i_dev (inode_at k ip)) addr x) (k, v)).
Proof.
  intros Hbn Ht. unfold bmap. rewrite run_bind, run_geti. cbv zeta.
  rewrite (proj2 (Z.eqb_neq _ _) Ht). unfold slot_of, MAXBN in *.
  destruct (Z.ltb_spec bn 12).
  { rewrite dep_direct by lia. symmetry. apply run_bind_ret. }
  replace (bn - 12 <? 256) with (bn <? 12 + 256) by (destruct (Z.ltb_spec bn (12 + 256)), (Z.ltb_spec (bn - 12) 256); lia || done).
  destruct (Z.ltb_spec bn (12 + 256)).
  { change (dep 12) with 1%nat. apply run_bind_ext. intros a s. cbn [bmap_walk]. rewrite Z.pow_0_r, Z.div_1_r.
    symmetry. apply run_bind_ret. }
  replace (bn - 12 - 256 <? 256 * 256) with (bn <? 12 + 256 + 65536)
    by (destruct (Z.ltb_spec bn (12 + 256 + 65536)), (Z.ltb_spec (bn - 12 - 256) (256 * 256)); lia || done).
  destruct (Z.ltb_spec bn (12 + 256 + 65536)).
  { change (dep 13) with 2%nat. apply run_bind_ext. intros a s. cbn [bmap_walk]. change (256 ^ Z.of_nat 1) with 256.
    rewrite Z.pow_0_r. replace (bn - 12 - 256) with (bn - (12 + 256)) by lia. apply run_bind_ext. intros a' s'.
    rewrite Z.div_1_r. symmetry. apply run_bind_ret. }
  destruct (Z.ltb_spec (bn - 12 - 256 - 256 * 256) (256 * 256 * 256)); [|lia].
  change (dep 14) with 3%nat. apply run_bind_ext. intros a s. cbn [bmap_walk].
  change (256 ^ Z.of_nat 2) with (256 * 256). change (256 ^ Z.of_nat 1) with 256. rewrite Z.pow_0_r.
  replace (bn - 12 - 256 - 256 * 256) with (bn - (12 + 256 + 65536)) by lia.
  apply run_bind_ext. intros a' s'. apply run_bind_ext. intros a'' s''. rewrite Z.div_1_r. symmetry. apply run_bind_ret.
Qed.

(** The kernel's memory after bmap: the inode's addresses and the count of
    free blocks. *)
Definition bmap_mem (ip : nat) (addrs : list Z) (fb : Z) (k : kst) : kst :=
  set_itable (alter (i_set_addrs addrs) ip) (set_sb (set_freeblocks fb) k).

Lemma alter_addrs_id (l : list inode) ip :
  alter (i_set_addrs (i_addrs (nth ip l inode0))) ip l = l.
Proof.
  apply list_eq. intros j. destruct (decide (j = ip)) as [->|N].
  - rewrite list_lookup_alter_eq. destruct (l !! ip) as [i|] eqn:E; [|done]. simpl.
    rewrite (nth_lookup_Some _ _ _ _ E). by destruct i.
  - by rewrite list_lookup_alter_ne.
Qed.

Lemma alter_addr_one (l : list inode) ip s b :
  alter (i_set_addr s b) ip l = alter (i_set_addrs (<[Z.to_nat s := b]> (i_addrs (nth ip l inode0)))) ip l.
Proof.
  apply list_eq. intros j. destruct (decide (j = ip)) as [->|N].
  - rewrite !list_lookup_alter_eq. destruct (l !! ip) as [i|] eqn:E; [|done].
    by rewrite (nth_lookup_Some _ _ _ _ E).
  - by rewrite !list_lookup_alter_ne.
Qed.

Lemma only_count_mem k k' ip :
  only_count k k' -> k' = bmap_mem ip (i_addrs (inode_at k ip)) (sb_freeblocks (k_sb k')) k.
Proof.
  unfold only_count. intros H. rewrite H at 1. unfold bmap_mem, set_itable, set_sb. cbn. f_equal.
  symmetry. apply alter_addrs_id.
Qed.

Lemma only_count_mem_new k k1 k' ip s b :
  k1 = set_sb dec_freeblocks k -> only_count (set_itable (alter (i_set_addr s b) ip) k1) k' ->
  k' = bmap_mem ip (<[Z.to_nat s := b]> (i_addrs (inode_at k ip))) (sb_freeblocks (k_sb k')) k.
Proof.
  intros -> H. unfold only_count in H. rewrite H at 1. unfold bmap_mem, set_itable, set_sb. cbn.
  by rewrite alter_addr_one.
Qed.

Lemma fs_ok_sb k k' v : k_sb k' = k_sb k -> fs_ok k v -> fs_ok k' v.
Proof. intros E [I L H]. split; [|done|done]. destruct I. split; rewrite ?E; done. Qed.

Lemma bmap_run k v ip bn :
  fs_ok k v -> i_dev (inode_at k ip) = ROOTDEV -> i_type (inode_at k ip) <> T_EXTENT ->
  imap_ok k v (i_addrs (inode_at k ip)) -> 0 <= bn < MAXBN -> room 15 v -> 4 <= sb_freeblocks (k_sb k) ->
  exists r k' v' addrs', run hA (bmap ip bn) (k, v) = Ok r (k', v') /\
    iwalked k v (i_addrs (inode_at k ip)) bn r k' v' addrs' /\
    k' = bmap_mem ip addrs' (sb_freeblocks (k_sb k')) k.
Proof.
  intros F Hdev Hty Hmap Hbn Hr Hf. rewrite bmap_norm by done. pose proof (slot_range bn Hbn) as Hsl.
  destruct (slot_of bn) as [s x] eqn:Es. destruct Hsl as [Hs Hx]. rewrite Hdev.
  set (addrs := i_addrs (inode_at k ip)) in *. pose proof (dep_le s) as Hd.
  assert (Haddr : run hA (addr_at ip s) (k, v) = Ok (addr_of addrs s) (k, v)).
  { unfold addr_at. rewrite run_bind, run_geti. fold addrs. rewrite (lookup_nth addrs (Z.to_nat s) 0); [done|].
    destruct Hmap as [-> _]. lia. }
  destruct (Z.eqb_spec (addr_of addrs s) 0) as [E|E].
  - destruct (free_first k v (fo_inv _ _ F)) as [b Hb]; [lia|].
    pose proof (balloc_run k v (fo_inv _ _ F) (fo_lok _ _ F)) as Hba. rewrite Hb in Hba.
    destruct Hba as (k1 & v1 & Eb & B); [eapply room_weaken; [done|lia]|].
    set (k2 := set_itable (alter (i_set_addr s b) ip) k1).
    assert (Etop : run hA (bmap_top ip s) (k, v) = Ok b (k2, v1)).
    { unfold bmap_top. rewrite run_bind, Haddr, E. cbn [Z.eqb]. rewrite run_bind, run_geti, Hdev.
      rewrite run_bind, Eb. unfold set_addr. destruct (Z.ltb_spec s (12 + 3)); [|lia]. done. }
    rewrite run_bind, Etop. assert (Hb0 : b <> 0) by (by eapply im_b).
    assert (F2 : fs_ok k2 v1).
    { apply (fs_ok_sb k1); [done|]. split; [apply (ba_inv _ _ _ _ _ B)| |].
      - eapply ext_lok; [apply F|apply (ba_ext _ _ _ _ _ B)].
      - rewrite (ex_held _ _ _ (ba_ext _ _ _ _ _ B)). apply F. }
    destruct (bmap_walk_run (dep s) k2 v1 b x) as (r & k' & v' & Er & W); try done.
    + split; rewrite (tree_zero_root _ _ _ Hb0 (ba_zero _ _ _ _ _ B)); [apply NoDup_singleton|].
      apply Forall_singleton, (im_dblock_b k v b k1 v1 B).
    + eapply (ext_room 3); [|apply (ba_ext _ _ _ _ _ B)]. apply (room_weaken 15); [done|lia].
    + pose proof (ba_count _ _ _ _ _ B). change (k_sb k2) with (k_sb k1). lia.
    + exists r, k', v', (<[Z.to_nat s := b]> addrs). split; [done|]. split; [by apply (iwalked_new k v addrs bn s x b k1 v1 k2)|].
      eapply only_count_mem_new; [apply (ba_k _ _ _ _ _ B)|]. apply (wk_k _ _ _ _ _ _ _ _ W).
  - assert (Etop : run hA (bmap_top ip s) (k, v) = Ok (addr_of addrs s) (k, v)).
    { unfold bmap_top. rewrite run_bind, Haddr. by rewrite (proj2 (Z.eqb_neq _ _) E). }
    rewrite run_bind, Etop.
    destruct (bmap_walk_run (dep s) k v (addr_of addrs s) x) as (r & k' & v' & Er & W); try done.
    + by apply imap_slot.
    + eapply room_weaken; [done|lia].
    + lia.
    + exists r, k', v', addrs. split; [done|]. split; [by eapply iwalked_descend|].
      apply only_count_mem, (wk_k _ _ _ _ _ _ _ _ W).
Qed.

(** ** Theorems *)

(** C10. bmap on the machine with buffer cache and log, for the direct, single,
    double and triple indirect ranges: the returned disk block is what the
    block map holds for [bn] afterwards; a mapped block is returned without
    any change; an unmapped one is a freshly allocated zeroed block; every
    other file block keeps its disk block; the map stays a tree of distinct
    allocated data blocks, and no other allocated block of the disk changes
    ([iwalked]); at most four blocks are allocated. *)
Theorem bmap_correct k v s ip bn :
  Rel s v -> fs_ok k v -> i_dev (inode_at k ip) = ROOTDEV -> i_type (inode_at k ip) <> T_EXTENT ->
  imap_ok k v (i_addrs (inode_at k ip)) -> 0 <= bn < MAXBN -> room 15 v -> 4 <= sb_freeblocks (k_sb k) ->
  exists r k' v' s' addrs', run hC (bmap ip bn) (k, s) = Ok r (k', s') /\ Rel s' v' /\
    iwalked k v (i_addrs (inode_at k ip)) bn r k' v' addrs' /\
    k' = bmap_mem ip addrs' (sb_freeblocks (k_sb k')) k.
Proof.
  intros R F Hd Ht Hm Hb Hr Hf. destruct (bmap_run k v ip bn F Hd Ht Hm Hb Hr Hf) as (r & k' & v' & a & E & W & Ek).
  pose proof (refine_run (bmap ip bn) k s v R) as S. rewrite E in S. destruct S as (s' & E' & R'). eauto 10.
Qed.
