(* ===== verification/Rw.v ===== *)
(** * File contents (kernel/fs.c: readi, writei)

    A file is the function [fbyte] from offsets to bytes that its block map
    and the disk determine.  readi returns a stretch of it; writei replaces a
    stretch, allocating the blocks it lacks, and nothing else. *)
From S2P Require Import Prelude Str Bio Log Crash Machine Types Vm Codec Ld Balloc Inode Bmap Imap.
Local Open Scope prog_scope.

Definition fbyte (v : ldisk) (addrs : list Z) (o : Z) : Z :=
  getb (o mod BSIZE) (blk v (ilook v addrs (o / BSIZE))).

(** Every block below [size] is mapped. *)
Definition mapped (v : ldisk) (addrs : list Z) (size : Z) : Prop :=
  forall bn, 0 <= bn -> bn * BSIZE < size -> ilook v addrs bn <> 0.

(** ** Lemmas: the map is injective and its leaves are not indirect blocks *)

Lemma tlook_not_inner n k v a idx :
  tree_ok n k v a -> 0 <= idx < 256 ^ Z.of_nat n -> tlook n v a idx <> 0 -> tlook n v a idx ∉ inner n v a.
Proof.
  revert a idx. induction n as [|n IH]; intros a idx Ht Hi Hn; [apply not_elem_of_nil|].
  destruct (decide (a = 0)) as [->|Ha]; [by rewrite tlook_0 in Hn|].
  rewrite tlook_S in Hn |- * by done. destruct (idx_split n idx Hi) as [H1 H2].
  set (i := idx / 256 ^ Z.of_nat n) in *. set (e := ld32 (4 * i) (blk v a)) in *.
  assert (Hei : entries v a !! Z.to_nat i = Some e) by (by apply entries_lookup).
  pose proof (tree_ok_sub n k v a _ e Ha Ht Hei) as Hte.
  pose proof (tlook_tree n v e _ H2 Hn) as Hin.
  rewrite inner_S by done. intros Hc. apply elem_of_cons in Hc as [Hc|Hc].
  - destruct (sub_member n k v a _ e _ Ha Ht Hei Hin) as (_ & Hne & _). done.
  - apply elem_flat_map in Hc as (y & Hy & Hc). apply list_elem_of_lookup in Hy as [j Hj].
    destruct (decide (j = Z.to_nat i)) as [->|N].
    + assert (y = e) as -> by congruence. by eapply (IH e).
    + apply inner_tree in Hc. destruct (de_nodup n k v a Ha Ht) as [_ Hnd].
      by eapply (flat_map_disjoint (tree n v) (entries v a) j (Z.to_nat i) y e).
Qed.

Lemma tlook_inj n k v a i j :
  tree_ok n k v a -> 0 <= i < 256 ^ Z.of_nat n -> 0 <= j < 256 ^ Z.of_nat n ->
  tlook n v a i <> 0 -> tlook n v a i = tlook n v a j -> i = j.
Proof.
  revert a i j. induction n as [|n IH]; intros a i j Ht Hi Hj Hn E; [simpl in *; lia|].
  destruct (decide (a = 0)) as [->|Ha]; [by rewrite tlook_0 in Hn|].
  rewrite !tlook_S in E by done. rewrite tlook_S in Hn by done.
  destruct (idx_split n i Hi) as [Hi1 Hi2], (idx_split n j Hj) as [Hj1 Hj2].
  pose proof (entries_lookup v a _ Hi1) as Ei. pose proof (entries_lookup v a _ Hj1) as Ej.
  destruct (decide (i / 256 ^ Z.of_nat n = j / 256 ^ Z.of_nat n)) as [Eq|N].
  - apply (idx_join n); [done|]. rewrite <- Eq in E. eapply IH; try done. by eapply tree_ok_sub.
  - exfalso. destruct (de_nodup n k v a Ha Ht) as [_ Hnd].
    pose proof (tlook_tree n v _ _ Hi2 Hn) as M1.
    pose proof (tlook_tree n v _ _ Hj2 ltac:(by rewrite <- E)) as M2. rewrite <- E in M2.
    eapply (flat_map_disjoint (tree n v) (entries v a) _ _ _ _ _ Hnd); [|exact Ei|exact Ej|exact M1|exact M2]. lia.
Qed.

Lemma ilook_itree k v addrs bn : imap_ok k v addrs -> 0 <= bn < MAXBN -> ilook v addrs bn <> 0 ->
  ilook v addrs bn ∈ itree v addrs.
Proof.
  intros Hm Hbn Hn. pose proof (slot_range bn Hbn) as Hr. unfold ilook in *. destruct (slot_of bn) as [s x].
  destruct Hr as [Hs Hx]. apply elem_itree; [apply Hm|]. exists s. split; [done|]. by apply tlook_tree.
Qed.

Lemma ilook_not_inner k v addrs bn : imap_ok k v addrs -> 0 <= bn < MAXBN -> ilook v addrs bn <> 0 ->
  ilook v addrs bn ∉ iinner v addrs.
Proof.
  intros Hm Hbn Hn Hin. pose proof (slot_range bn Hbn) as Hr. unfold ilook in *. destruct (slot_of bn) as [s x].
  destruct Hr as [Hs Hx]. apply elem_iinner in Hin as (t & Ht & Hin); [|apply Hm].
  destruct (decide (t = s)) as [->|N].
  - by eapply (tlook_not_inner _ k v); [by apply imap_slot| | |].
  - apply inner_tree in Hin. by eapply (islot_disjoint k v addrs t s); [..|apply tlook_tree].
Qed.

Lemma ilook_inj k v addrs b1 b2 : imap_ok k v addrs -> 0 <= b1 < MAXBN -> 0 <= b2 < MAXBN ->
  ilook v addrs b1 <> 0 -> ilook v addrs b1 = ilook v addrs b2 -> b1 = b2.
Proof.
  intros Hm H1 H2 Hn E. pose proof (slot_range b1 H1) as R1. pose proof (slot_range b2 H2) as R2.
  unfold ilook in *. destruct (slot_of b1) as [s x] eqn:E1, (slot_of b2) as [t y] eqn:E2.
  destruct R1 as [Hs Hx], R2 as [Ht Hy]. destruct (decide (s = t)) as [->|N].
  - apply slot_inj; try done. rewrite E1, E2. f_equal. by eapply (tlook_inj _ k v); [apply imap_slot| | | |].
  - exfalso. eapply (islot_disjoint k v addrs s t); try done; [by apply tlook_tree|].
    rewrite E. apply tlook_tree; [done|congruence].
Qed.

(** The map depends on the indirect blocks only. *)
Lemma imap_frame v v' addrs : length addrs = 15%nat ->
  (forall c, c ∈ iinner v addrs -> blk v' c = blk v c) ->
  itree v' addrs = itree v addrs /\ iinner v' addrs = iinner v addrs /\
  forall bn, 0 <= bn < MAXBN -> ilook v' addrs bn = ilook v addrs bn.
Proof.
  intros Hl Hb.
  assert (H : forall s c, 0 <= s < 15 -> c ∈ inner (dep s) v (addr_of addrs s) -> blk v' c = blk v c).
  { intros s c Hs Hc. apply Hb, elem_iinner; [done|eauto]. }
  assert (E : forall p, p ∈ zip deps addrs ->
    tree (fst p) v' (snd p) = tree (fst p) v (snd p) /\ inner (fst p) v' (snd p) = inner (fst p) v (snd p)).
  { intros p Hp. apply list_elem_of_lookup in Hp as [i Hi]. destruct (slots_inv addrs i p Hl Hi) as [Hr ->].
    destruct (tree_frame (dep (Z.of_nat i)) v v' (addr_of addrs (Z.of_nat i))) as (T1 & T2 & _); [|done].
    intros c. by apply H. }
  split; [|split].
  - apply flat_map_ext_elem. intros p Hp. apply (E p Hp).
  - apply flat_map_ext_elem. intros p Hp. apply (E p Hp).
  - intros bn Hbn. pose proof (slot_range bn Hbn) as Hr. unfold ilook. destruct (slot_of bn) as [s x].
    destruct Hr as [Hs Hx]. apply tree_frame_look; [|done]. intros c. by apply H.
Qed.

(** Writing a data block of the file changes no map. *)
Lemma ilook_put_leaf v addrs b d : length addrs = 15%nat -> b ∉ iinner v addrs ->
  itree (put_blk b d v) addrs = itree v addrs /\ iinner (put_blk b d v) addrs = iinner v addrs /\
  forall bn, 0 <= bn < MAXBN -> ilook (put_blk b d v) addrs bn = ilook v addrs bn.
Proof. intros Hl Hb. apply imap_frame; [done|]. intros c Hc. apply blk_put_ne. by intros ->. Qed.

(** ** Reading *)

(** A state in which blocks can be read, inside a transaction or not. *)
Record rd_ok (k : kst) (v : ldisk) : Prop := {
  rd_inv : alloc_inv k v;
  rd_held : ld_held v = [];
  rd_dirty : ld_dirty v = [];
  rd_space : zlen (ld_log v) < 45
}.

Lemma fs_rd k v : fs_ok k v -> room 1 v -> rd_ok k v.
Proof.
  intros [I L H] [_ R]. rewrite H in R. split; try done; [by apply dirty_nil|]. unfold zlen in *. simpl in R. lia.
Qed.

Lemma rd_bread k v b : rd_ok k v -> dblock k v b -> run hA (P.bread ROOTDEV b) (k, v) = Ok b (k, hold b v).
Proof.
  intros [I H D S] (Hr & Hm & _). apply run_bread; [by apply (ai_data k v I)|rewrite H; apply not_elem_of_nil|].
  rewrite H. unfold zlen in *. simpl. lia.
Qed.

(** The end of a read: the buffer goes back as it came. *)
Lemma rd_brelse k v b : rd_ok k v -> run hA (P.brelse b) (k, hold b v) = Ok tt (k, v).
Proof.
  intros [I H D S]. rewrite run_brelse.
  - by rewrite unhold_hold by (rewrite ?H, ?D; apply not_elem_of_nil).
  - apply elem_of_cons. by left.
  - simpl. rewrite D. intros X. by apply not_elem_of_nil in X.
Qed.

Lemma bmap_ind_mapped k v a i :
  rd_ok k v -> dblock k v a -> ld32 (4 * i) (blk v a) <> 0 ->
  run hA (bmap_ind ROOTDEV a i) (k, v) = Ok (ld32 (4 * i) (blk v a)) (k, v).
Proof.
  intros R D E. unfold bmap_ind. rewrite run_bind, rd_bread by done.
  rewrite run_bind, run_bdata by (apply elem_of_cons; by left). change (blk (hold a v) a) with (blk v a).
  cbv zeta. rewrite (proj2 (Z.eqb_neq _ 0) E). by rewrite run_bind, rd_brelse.
Qed.

Lemma bmap_walk_mapped n k v a idx :
  rd_ok k v -> tree_ok n k v a -> 0 <= idx < 256 ^ Z.of_nat n -> tlook n v a idx <> 0 ->
  run hA (bmap_walk n ROOTDEV a idx) (k, v) = Ok (tlook n v a idx) (k, v).
Proof.
  intros R. revert a idx. induction n as [|n IH]; intros a idx Ht Hi Hn; [done|].
  destruct (decide (a = 0)) as [->|Ha]; [by rewrite tlook_0 in Hn|].
  rewrite tlook_S in Hn |- * by done. destruct (idx_split n idx Hi) as [H1 H2]. cbn [bmap_walk].
  rewrite run_bind, bmap_ind_mapped; [|done|by eapply tree_ok_root|intros E; by rewrite E, tlook_0 in Hn].
  apply IH; [|done|done]. eapply tree_ok_sub; [done|done|by apply entries_lookup].
Qed.

Lemma bmap_mapped k v ip bn :
  rd_ok k v -> i_dev (inode_at k ip) = ROOTDEV -> i_type (inode_at k ip) <> T_EXTENT ->
  imap_ok k v (i_addrs (inode_at k ip)) -> 0 <= bn < MAXBN -> ilook v (i_addrs (inode_at k ip)) bn <> 0 ->
  run hA (bmap ip bn) (k, v) = Ok (ilook v (i_addrs (inode_at k ip)) bn) (k, v).
Proof.
  intros R Hdev Hty Hmap Hbn Hn. rewrite bmap_norm by done. pose proof (slot_range bn Hbn) as Hsl.
  unfold ilook in *. destruct (slot_of bn) as [s x]. destruct Hsl as [Hs Hx]. rewrite Hdev.
  set (addrs := i_addrs (inode_at k ip)) in *.
  assert (Haddr : run hA (addr_at ip s) (k, v) = Ok (addr_of addrs s) (k, v)).
  { unfold addr_at. rewrite run_bind, run_geti. fold addrs. rewrite (lookup_nth addrs (Z.to_nat s) 0); [done|].
    destruct Hmap as [-> _]. lia. }
  assert (E : addr_of addrs s <> 0) by (intros E; by rewrite E, tlook_0 in Hn).
  rewrite run_bind. unfold bmap_top at 1. rewrite run_bind, Haddr, (proj2 (Z.eqb_neq _ 0) E).
  apply bmap_walk_mapped; try done. by apply imap_slot.
Qed.

(** ** readi into kernel memory *)

(** A regular inode in the table whose blocks below its size are mapped. *)
Record file_ok (k : kst) (v : ldisk) (ip : nat) : Prop := {
  fk_ip : (ip < length (k_itable k))%nat;
  fk_dev : i_dev (inode_at k ip) = ROOTDEV;
  fk_type : i_type (inode_at k ip) <> T_EXTENT;
  fk_map : imap_ok k v (i_addrs (inode_at k ip));
  fk_size : 0 <= i_size (inode_at k ip) < 2 ^ 31;
  fk_mapped : mapped v (i_addrs (inode_at k ip)) (i_size (inode_at k ip))
}.

(** The bytes [off .. off+n) of a file. *)
Definition fsub (v : ldisk) (addrs : list Z) (off n : Z) : bytes := map (fbyte v addrs) (seqZ off n).

Lemma fsub_app v addrs off n m : 0 <= n -> 0 <= m ->
  fsub v addrs off (n + m) = fsub v addrs off n ++ fsub v addrs (off + n) m.
Proof. intros. unfold fsub. by rewrite seqZ_app, map_app by lia. Qed.

(** A stretch that stays in one block. *)
Lemma fsub_block v addrs off m :
  (forall b, length (blk v b) = Z.to_nat BSIZE) -> 0 <= off -> 0 <= m -> off mod BSIZE + m <= BSIZE ->
  fsub v addrs off m = sub (off mod BSIZE) m (blk v (ilook v addrs (off / BSIZE))).
Proof.
  intros Hl Ho Hm Hb. pose proof (Z.mod_pos_bound off BSIZE). unfold fsub.
  apply list_eq. intros i. destruct (decide (i < Z.to_nat m)%nat) as [Hi|Hi].
  - rewrite list_lookup_fmap, lookup_seqZ_lt by lia. simpl. rewrite lookup_sub by done.
    unfold fbyte. assert (E : (off + Z.of_nat i) / BSIZE = off / BSIZE /\ (off + Z.of_nat i) mod BSIZE = off mod BSIZE + Z.of_nat i).
    { rewrite (Z.div_mod off BSIZE) at 1 3 by lia.
      replace (BSIZE * (off / BSIZE) + off mod BSIZE + Z.of_nat i) with ((off mod BSIZE + Z.of_nat i) + (off / BSIZE) * BSIZE) by lia.
      rewrite Z.div_add, Z.mod_add, Z.div_small, Z.mod_small by lia. lia. }
    destruct E as [-> ->]. unfold getb. symmetry. rewrite lookup_nth with (d := 0); [|rewrite Hl; lia].
    f_equal. f_equal. lia.
  - rewrite !lookup_ge_None_2; [done| |].
    + rewrite length_sub; unfold zlen; rewrite ?Hl; lia.
    + rewrite length_map, length_seqZ. lia.
Qed.

Lemma file_bn k v ip o : file_ok k v ip -> 0 <= o < i_size (inode_at k ip) ->
  0 <= o / BSIZE < MAXBN /\ ilook v (i_addrs (inode_at k ip)) (o / BSIZE) <> 0.
Proof.
  intros F Ho. pose proof (fk_size _ _ _ F). pose proof (Z.div_mod o BSIZE). pose proof (Z.mod_pos_bound o BSIZE).
  unfold MAXBN. assert (0 <= o / BSIZE) by (apply Z.div_pos; lia). split; [lia|].
  apply (fk_mapped _ _ _ F); lia.
Qed.

Lemma next_block off m : 0 <= off -> m = BSIZE - off mod BSIZE -> (off + m) mod BSIZE = 0.
Proof.
  intros Ho ->. replace (off + (BSIZE - off mod BSIZE)) with ((off / BSIZE + 1) * BSIZE); [by apply Z.mod_mul|].
  rewrite (Z.div_mod off BSIZE) at 2 by lia. lia.
Qed.

Lemma readi_loop_run fuel k v ip off n tot acc :
  rd_ok k v -> (forall b, length (blk v b) = Z.to_nat BSIZE) -> file_ok k v ip ->
  0 <= off -> 0 <= tot <= n -> off + (n - tot) <= i_size (inode_at k ip) ->
  (tot = n \/ n - tot <= (Z.of_nat fuel - 2) * BSIZE + (BSIZE - off mod BSIZE)) -> (1 <= fuel)%nat ->
  run hA (readi_loop fuel ip KernDst off n tot acc) (k, v)
  = Ok (s32 n, acc ++ fsub v (i_addrs (inode_at k ip)) off (n - tot)) (k, v).
Proof.
  intros R Hl F. set (addrs := i_addrs (inode_at k ip)).
  revert off tot acc. induction fuel as [|fuel IH]; intros off tot acc Ho Ht Hs Hf Hf1; [lia|].
  cbn [readi_loop]. destruct (Z.ltb_spec tot n) as [Hlt|Hge]; cbn [negb].
  2: { replace (n - tot) with 0 by lia. replace tot with n by lia. unfold fsub. simpl. by rewrite app_nil_r. }
  pose proof (fk_size _ _ _ F) as Hsz. destruct (file_bn k v ip off F) as [Hbn Hn]; [lia|].
  rewrite run_bind, run_geti, (fk_dev _ _ _ F).
  rewrite run_bind, bmap_mapped; [|done|apply F|apply F|apply F|done|done]. fold addrs in Hn |- *.
  set (b := ilook v addrs (off / BSIZE)) in *.
  assert (Db : dblock k v b) by (eapply imap_dblock; [apply F|]; by eapply ilook_itree; [apply F|..]).
  set (m := Z.min (n - tot) (BSIZE - off mod BSIZE)). pose proof (Z.mod_pos_bound off BSIZE).
  rewrite run_bind, rd_bread by done. cbv zeta. fold m.
  rewrite run_bind, run_bdata by (apply elem_of_cons; by left). change (blk (hold b v) b) with (blk v b).
  cbn [either_copyout]. rewrite run_bind. cbn [run].
  change (0 =? -1) with false. cbv iota. rewrite run_bind, rd_brelse by done.
  pose proof (fsub_block v addrs off m Hl Ho) as Eb. fold b in Eb. rewrite <- Eb by lia.
  assert (Hm : 0 < m <= n - tot) by lia.
  replace (u32 (off + m)) with (off + m) by (symmetry; apply u32_id; unfold is_u32; lia).
  rewrite IH; try lia.
  - rewrite <- app_assoc. f_equal. f_equal. f_equal. rewrite <- fsub_app by lia. f_equal. lia.
  - destruct (decide (m = n - tot)) as [E|E]; [left; lia|right].
    rewrite (next_block off m) by lia. lia.
Qed.

Lemma readi_run k v ip off n :
  rd_ok k v -> (forall b, length (blk v b) = Z.to_nat BSIZE) -> file_ok k v ip ->
  0 <= off <= i_size (inode_at k ip) -> 0 <= n -> off + n < 2 ^ 32 ->
  let n' := Z.min n (i_size (inode_at k ip) - off) in
  run hA (readi ip KernDst off n) (k, v) = Ok (n', fsub v (i_addrs (inode_at k ip)) off n') (k, v).
Proof.
  intros R Hl F Ho Hn Hb n'. pose proof (fk_size _ _ _ F) as Hsz.
  unfold readi. rewrite run_bind, run_geti. rewrite (u32_id (off + n)) by (unfold is_u32; lia).
  destruct (Z.ltb_spec (i_size (inode_at k ip)) off); [lia|]. destruct (Z.ltb_spec (off + n) off); [lia|]. cbn [orb].
  assert (E : (if i_size (inode_at k ip) <? off + n then i_size (inode_at k ip) - off else n) = n').
  { destruct (Z.ltb_spec (i_size (inode_at k ip)) (off + n)); lia. }
  rewrite E. pose proof (Z.div_mod n' BSIZE). pose proof (Z.mod_pos_bound n' BSIZE). pose proof (Z.mod_pos_bound off BSIZE).
  assert (0 <= n' / BSIZE) by (apply Z.div_pos; lia).
  rewrite readi_loop_run; try done; try lia.
  rewrite Z.sub_0_r. f_equal. f_equal. apply s32_small. lia.
Qed.

(** ** writei from kernel memory *)

(** The file whose inode is [ip] was written at [lo .. hi) with the bytes
    [d]; [n] bounds the logged updates. *)
Record written (n : Z) (k : kst) (v : ldisk) (addrs : list Z) (ip : nat) (lo hi : Z) (d : Z -> Z)
    (k' : kst) (v' : ldisk) (addrs' : list Z) : Prop := {
  wr_ok : fs_ok k' v';
  wr_ext : ext n v v';
  wr_k : k' = bmap_mem ip addrs' (sb_freeblocks (k_sb k')) k;
  wr_count : sb_freeblocks (k_sb k) - n <= sb_freeblocks (k_sb k');
  wr_map : imap_ok k' v' addrs';
  wr_kept : forall bn, 0 <= bn < MAXBN -> ilook v addrs bn <> 0 -> ilook v' addrs' bn = ilook v addrs bn;
  wr_new : forall o, lo <= o < hi -> ilook v' addrs' (o / BSIZE) <> 0;
  wr_byte : forall o, 0 <= o / BSIZE < MAXBN -> (ilook v addrs (o / BSIZE) <> 0 \/ lo <= o < hi) ->
    fbyte v' addrs' o = if decide (lo <= o < hi) then d o else fbyte v addrs o;
  wr_bits : forall x, 0 <= x < sb_size (k_sb k) -> alloc_bit k v x = true -> alloc_bit k v' x = true;
  wr_grow : forall x, x ∈ itree v' addrs' -> x ∈ itree v addrs \/ alloc_bit k v x = false;
  wr_frame : forall c, 0 <= c < sb_size (k_sb k) -> alloc_bit k v c = true -> c <> 1 ->
    ~ in_bmap (k_sb k) c -> c ∉ itree v addrs -> blk v' c = blk v c
}.

Lemma bmap_mem_sb ip addrs fb k : k_sb (bmap_mem ip addrs fb k) = set_freeblocks fb (k_sb k).
Proof. done. Qed.

Lemma bmap_mem_trans ip a1 f1 a2 f2 k : bmap_mem ip a2 f2 (bmap_mem ip a1 f1 k) = bmap_mem ip a2 f2 k.
Proof.
  unfold bmap_mem, set_itable, set_sb. cbn. f_equal. by rewrite list_alter_alter_eq.
Qed.

Lemma mem_same ip addrs k k' : k' = bmap_mem ip addrs (sb_freeblocks (k_sb k')) k -> same_sb k k'.
Proof. intros H. unfold same_sb. rewrite H at 1. done. Qed.

Lemma bmap_mem_inode ip addrs fb k : (ip < length (k_itable k))%nat ->
  inode_at (bmap_mem ip addrs fb k) ip = i_set_addrs addrs (inode_at k ip).
Proof.
  intros H. unfold inode_at, bmap_mem. cbn. rewrite !nth_lookup, list_lookup_alter_eq.
  destruct (k_itable k !! ip) as [i|] eqn:E; [done|]. apply lookup_ge_None in E. lia.
Qed.

Lemma written_trans n m k v addrs ip lo mid hi d k1 v1 addrs1 k2 v2 addrs2 :
  lo <= mid <= hi -> (forall o, lo <= o < hi -> 0 <= o / BSIZE < MAXBN) ->
  written n k v addrs ip lo mid d k1 v1 addrs1 -> written m k1 v1 addrs1 ip mid hi d k2 v2 addrs2 ->
  written (n + m) k v addrs ip lo hi d k2 v2 addrs2.
Proof.
  intros Hmid Hbn [O1 X1 K1 C1 M1 T1 N1 B1 S1 G1 F1] [O2 X2 K2 C2 M2 T2 N2 B2 S2 G2 F2].
  destruct (same_sb_geom k k1 (mem_same _ _ _ _ K1)) as (E1 & E2 & E3 & E4). rewrite E1, E2 in *.
  assert (Kept : forall bn, 0 <= bn < MAXBN -> ilook v addrs bn <> 0 -> ilook v2 addrs2 bn = ilook v addrs bn).
  { intros bn Hb Hn. rewrite T2; [by apply T1|done|by rewrite T1]. }
  split; try done.
  - by eapply ext_trans.
  - rewrite K2 at 1. rewrite K1 at 1. by rewrite bmap_mem_trans.
  - lia.
  - intros o Ho. destruct (decide (o < mid)).
    + rewrite T2; [apply N1; lia|apply Hbn; lia|apply N1; lia].
    + apply N2. lia.
  - intros o Hb Ho. destruct (decide (mid <= o < hi)) as [Hi|Hi].
    + rewrite B2 by (done || by right). rewrite !decide_True by lia. done.
    + assert (Ho1 : ilook v addrs (o / BSIZE) <> 0 \/ lo <= o < mid) by (destruct Ho; [by left|right; lia]).
      rewrite B2, decide_False; [|done|done|].
      * rewrite B1 by done. destruct (decide (lo <= o < mid)), (decide (lo <= o < hi)); try done; lia.
      * left. destruct Ho1 as [Ho1|Ho1]; [by rewrite T1|by apply N1].
  - intros x Hx Hb. apply S2; [done|]. by apply S1.
  - intros x Hin. destruct (G2 x Hin) as [Hx|Hx]; [by apply G1|right]. destruct (bitof v _ x) eqn:Eb; [|done].
    destruct (imap_dblock _ _ _ _ M2 Hin) as (Hr & _).
    destruct (same_sb_geom k1 k2 (mem_same _ _ _ _ K2)) as (E5 & _). rewrite E5, E1 in Hr. by rewrite S1 in Hx.
  - intros c H1 H2 H3 H4 H5. rewrite F2; [by apply F1|done|by apply S1|done|by rewrite E4|].
    intros Hc. apply G1 in Hc as [?|?]; [done|congruence].
Qed.

Lemma fs_ok_put k v c d : fs_ok k v -> ~ is_meta (k_sb k) c -> length d = Z.to_nat BSIZE -> fs_ok k (put_blk c d v).
Proof.
  intros [I L H] Hm Hd. assert (c <> 1 /\ ~ in_bmap (k_sb k) c /\ ~ in_ibmap (k_sb k) c) as (? & ? & ?) by (unfold is_meta in Hm; tauto).
  split; [by apply alloc_inv_put|by apply lok_put|done].
Qed.

(** Offsets of a stretch that stays in one block. *)
Lemma same_block off o n : 0 <= off -> off mod BSIZE + n <= BSIZE -> off <= o < off + n -> o / BSIZE = off / BSIZE.
Proof.
  intros H1 H2 H3. pose proof (Z.div_mod off BSIZE). pose proof (Z.mod_pos_bound off BSIZE).
  pose proof (Z.div_mod o BSIZE). pose proof (Z.mod_pos_bound o BSIZE). lia.
Qed.

Section WriteStep.
  Context (k : kst) (v : ldisk) (addrs : list Z) (ip : nat) (off : Z) (chunk : bytes) (d : Z -> Z).
  Context (k1 : kst) (v1 : ldisk) (addrs1 : list Z) (r : Z).
  Context (F : fs_ok k v) (Hmap : imap_ok k v addrs).
  Context (Ho : 0 <= off) (Hbn : 0 <= off / BSIZE < MAXBN) (Hc : off mod BSIZE + zlen chunk <= BSIZE).
  Context (Hd : forall i, 0 <= i < zlen chunk -> getb i chunk = d (off + i)).
  Context (IW : iwalked k v addrs (off / BSIZE) r k1 v1 addrs1).
  Context (Hk : k1 = bmap_mem ip addrs1 (sb_freeblocks (k_sb k1)) k).
Local Notation v2 := (put_blk r (splice (off mod BSIZE) chunk (blk v1 r)) v1).

Lemma ws_len1 : length (blk v1 r) = Z.to_nat BSIZE.
Proof. apply (lk_len _ (fo_lok _ _ (iw_ok _ _ _ _ _ _ _ _ IW))). Qed.

Lemma ws_len : length (splice (off mod BSIZE) chunk (blk v1 r)) = Z.to_nat BSIZE.
Proof.
  rewrite length_splice; [apply ws_len1|apply Z.mod_pos_bound; lia|]. unfold zlen at 2. rewrite ws_len1. lia.
Qed.

Lemma ws_leaf : r ∈ itree v1 addrs1 /\ r ∉ iinner v1 addrs1 /\ dblock k1 v1 r.
Proof.
  pose proof (iw_res _ _ _ _ _ _ _ _ IW) as Er. pose proof (iw_nz _ _ _ _ _ _ _ _ IW) as Hn.
  pose proof (iw_map _ _ _ _ _ _ _ _ IW) as Hm1. rewrite Er in *.
  split; [by eapply ilook_itree|]. split; [by eapply ilook_not_inner|]. eapply imap_dblock; [done|]. by eapply ilook_itree.
Qed.

Lemma ws_look bn : 0 <= bn < MAXBN -> ilook v2 addrs1 bn = ilook v1 addrs1 bn.
Proof.
  intros Hb. destruct ws_leaf as (_ & Hni & _).
  by apply (ilook_put_leaf v1 addrs1 r _ (proj1 (iw_map _ _ _ _ _ _ _ _ IW)) Hni).
Qed.

Lemma ws_kept bn : 0 <= bn < MAXBN -> ilook v addrs bn <> 0 -> ilook v2 addrs1 bn = ilook v addrs bn.
Proof.
  intros Hb Hn. rewrite ws_look by done. destruct (decide (bn = off / BSIZE)) as [->|N].
  - destruct (iw_same _ _ _ _ _ _ _ _ IW Hn) as (_ & -> & ->). done.
  - by apply (iw_other _ _ _ _ _ _ _ _ IW).
Qed.

(** Blocks of the file other than [r] keep their contents. *)
Lemma ws_block bn : 0 <= bn < MAXBN -> bn <> off / BSIZE -> ilook v addrs bn <> 0 ->
  blk v2 (ilook v addrs bn) = blk v (ilook v addrs bn).
Proof.
  intros Hb Hne Hn. pose proof (iw_other _ _ _ _ _ _ _ _ IW bn Hb Hne) as Eo.
  rewrite blk_put_ne.
  - pose proof (imap_dblock k v addrs _ Hmap (ilook_itree k v addrs bn Hmap Hb Hn)) as D.
    destruct (dblock_not_bmap _ _ _ D). destruct D as (D1 & D2 & D3).
    apply (iw_frame _ _ _ _ _ _ _ _ IW); try done. by eapply ilook_not_inner.
  - rewrite <- Eo, (iw_res _ _ _ _ _ _ _ _ IW). intros E. apply Hne.
    eapply ilook_inj; [apply (iw_map _ _ _ _ _ _ _ _ IW)|done|done|by rewrite Eo|done].
Qed.

Lemma ws_byte o : 0 <= o / BSIZE < MAXBN -> (ilook v addrs (o / BSIZE) <> 0 \/ off <= o < off + zlen chunk) ->
  fbyte v2 addrs1 o = if decide (off <= o < off + zlen chunk) then d o else fbyte v addrs o.
Proof.
  intros Hb Hor. pose proof (Z.div_mod off BSIZE). pose proof (Z.mod_pos_bound off BSIZE).
  pose proof (Z.div_mod o BSIZE). pose proof (Z.mod_pos_bound o BSIZE). unfold fbyte.
  rewrite ws_look by done. destruct (decide (o / BSIZE = off / BSIZE)) as [E|E].
  - rewrite E, <- (iw_res _ _ _ _ _ _ _ _ IW), blk_put_eq.
    rewrite getb_splice by (unfold zlen in *; rewrite ?ws_len1; lia).
    destruct (decide (off <= o < off + zlen chunk)) as [Hi|Hi].
    + rewrite decide_True by lia. rewrite Hd by lia. f_equal. lia.
    + rewrite decide_False by lia. destruct Hor as [Hn|]; [|done]. rewrite E in Hn.
      destruct (iw_same _ _ _ _ _ _ _ _ IW Hn) as (_ & Ev & Ea). 
      rewrite (iw_res _ _ _ _ _ _ _ _ IW). by rewrite Ev, Ea.
  - assert (Hi : ~ off <= o < off + zlen chunk).
    { intros Hi. apply E. by apply (same_block off o (zlen chunk)). }
    rewrite decide_False by done. destruct Hor as [Hn|]; [|done].
    rewrite (iw_other _ _ _ _ _ _ _ _ IW) by done. by rewrite ws_block.
Qed.

Lemma written_step : written 16 k v addrs ip off (off + zlen chunk) d k1 v2 addrs1.
Proof.
  destruct ws_leaf as (Hin & Hni & Dr). destruct IW as [Wok Wext Wsb Wc Wres Wnz Wsame Wnew Woth Wmap Wgrow Wkeep Wbits Wused Wframe].
  destruct (ilook_put_leaf v1 addrs1 r (splice (off mod BSIZE) chunk (blk v1 r)) (proj1 Wmap) Hni) as (Et & Ei & El).
  assert (Hbit : forall x, 0 <= x < sb_size (k_sb k) -> alloc_bit k v2 x = alloc_bit k v1 x).
  { intros x Hx. apply bitof_put_ne. intros ->. destruct Dr as (_ & Dm & _). apply Dm.
    destruct (same_sb_geom k k1 Wsb) as (_ & _ & -> & _). unfold is_meta.
    pose proof (bmap_block (k_sb k) x (ai_geom _ _ (fo_inv _ _ F)) Hx). tauto. }
  split; try done.
  - apply fs_ok_put; [done|apply Dr|apply ws_len].
  - eapply (ext_trans 15 1); [done|]. apply ext_put, ws_len.
  - lia.
  - destruct Wmap as (Hl & Hnd & Hf). split; [done|]. rewrite Et. split; [done|].
    eapply Forall_impl; [done|]. intros x (X1 & X2 & X3). split; [done|]. split; [done|].
    destruct (same_sb_geom k k1 Wsb) as (G1 & G2 & _). rewrite G1, G2 in *. by rewrite Hbit.
  - exact ws_kept.
  - intros o Hi. rewrite (same_block off o (zlen chunk)) by done. by rewrite El, <- Wres.
  - exact ws_byte.
  - intros x Hx Hb. rewrite Hbit by done. by apply Wbits.
  - intros x Hx. rewrite Et in Hx. by apply Wgrow.
  - intros c H1 H2 H3 H4 H5. rewrite blk_put_ne.
    + apply Wframe; try done. intros Hi. by apply H5, iinner_itree; [apply Hmap|].
    + intros ->. apply Wgrow in Hin as [?|?]; [done|congruence].
Qed.
End WriteStep.

Lemma bmap_mem_id ip k : bmap_mem ip (i_addrs (inode_at k ip)) (sb_freeblocks (k_sb k)) k = k.
Proof. symmetry. apply only_count_mem, only_count_refl. Qed.

Lemma written_refl k v ip o d :
  fs_ok k v -> imap_ok k v (i_addrs (inode_at k ip)) ->
  written 0 k v (i_addrs (inode_at k ip)) ip o o d k v (i_addrs (inode_at k ip)).
Proof.
  intros F Hm. split; try done; try lia.
  - apply ext_refl.
  - by rewrite bmap_mem_id.
  - intros o' Hb Ho. rewrite decide_False by lia. done.
  - by left.
Qed.

(** The bytes a write takes from kernel memory. *)
Definition src_byte (data : bytes) (off0 o : Z) : Z := getb (o - off0) data.

Lemma written_weaken n m k v addrs ip lo hi d k' v' addrs' :
  written n k v addrs ip lo hi d k' v' addrs' -> n <= m -> written m k v addrs ip lo hi d k' v' addrs'.
Proof. intros [] H. split; try done; [by eapply ext_weaken|lia]. Qed.

(** One iteration of writei's loop. *)
Lemma writei_iter fuel ip data off0 n off tot k v :
  fs_ok k v -> i_dev (inode_at k ip) = ROOTDEV -> i_type (inode_at k ip) <> T_EXTENT ->
  imap_ok k v (i_addrs (inode_at k ip)) ->
  0 <= off0 -> off = off0 + tot -> 0 <= tot < n -> n <= zlen data -> off0 + n < 2 ^ 32 ->
  room 16 v -> 4 <= sb_freeblocks (k_sb k) ->
  let m := Z.min (n - tot) (BSIZE - off mod BSIZE) in
  exists k' v' addrs',
    run hA (writei_loop (S fuel) ip (KernSrc data) off n tot) (k, v)
    = run hA (writei_loop fuel ip (KernSrc data) (off + m) n (tot + m)) (k', v') /\
    written 16 k v (i_addrs (inode_at k ip)) ip off (off + m) (src_byte data off0) k' v' addrs'.
Proof.
  intros F Hdev Hty Hmap H0 Eo Ht Hd Hmax Hr Hf m. cbn [writei_loop].
  destruct (Z.ltb_spec tot n) as [_|]; [cbn [negb]|lia].
  pose proof (Z.mod_pos_bound off BSIZE) as Hmod. pose proof (Z.div_mod off BSIZE) as Hdm.
  assert (Hbn : 0 <= off / BSIZE < MAXBN) by (unfold MAXBN; split; [apply Z.div_pos; lia|lia]).
  assert (Hm : 0 < m <= n - tot) by lia.
  destruct (bmap_run k v ip (off / BSIZE) F Hdev Hty Hmap Hbn) as (r & k1 & v1 & addrs1 & Eb & IW & Hk1);
    [apply (room_weaken 16); [exact Hr|lia]|lia|].
  assert (Hcl : zlen (sub tot m data) = m) by (unfold zlen; rewrite length_sub; unfold zlen in *; lia).
  destruct (ws_leaf _ _ _ _ _ _ _ _ Hbn IW) as (_ & _ & Dr).
  pose proof (iw_ok _ _ _ _ _ _ _ _ IW) as F1. pose proof (iw_ext _ _ _ _ _ _ _ _ IW) as X1.
  assert (R1 : room 1 v1) by (by eapply (ext_room 15)).
  assert (Hlen : length (splice (off mod BSIZE) (sub tot m data) (blk v1 r)) = Z.to_nat BSIZE).
  { eapply ws_len; [lia|done]. }
  assert (Hh : r ∉ ld_held v1) by (rewrite (fo_held _ _ F1); apply not_elem_of_nil).
  exists k1, (put_blk r (splice (off mod BSIZE) (sub tot m data) (blk v1 r)) v1), addrs1. split.
  - rewrite run_bind, run_geti, Hdev. rewrite run_bind, Eb.
    rewrite run_bind, (rd_bread k1 v1 r (fs_rd _ _ F1 R1) Dr). cbv zeta. fold m.
    cbn [either_copyin]. rewrite run_bind. cbn [run]. cbv iota. rewrite Hcl.
    rewrite (proj2 (Z.eqb_neq m 0)) by lia. rewrite run_bind.
    rewrite run_bind, run_bdata by (apply elem_of_cons; by left). change (blk (hold r v1) r) with (blk v1 r).
    rewrite <- (run_bind hA). 
    change (0 =? -1) with false. cbv iota.
    replace (u32 (off + m)) with (off + m) by (symmetry; apply u32_id; unfold is_u32; lia).
    apply run_logged; [apply F1|done|done|done].
  - rewrite <- Hcl at 1. apply (written_step k v _ ip off (sub tot m data)); try done; try lia.
    intros i Hi. rewrite getb_sub by lia. unfold src_byte. f_equal. lia.
Qed.

Lemma writei_loop_run data off0 n q : forall fuel ip off tot k v,
  fs_ok k v -> i_dev (inode_at k ip) = ROOTDEV -> i_type (inode_at k ip) <> T_EXTENT ->
  (ip < length (k_itable k))%nat -> imap_ok k v (i_addrs (inode_at k ip)) ->
  0 <= off0 -> off = off0 + tot -> 0 <= tot <= n -> n <= zlen data -> off0 + n < 2 ^ 32 ->
  (q < fuel)%nat -> (tot = n \/ n - tot <= Z.of_nat q * BSIZE - off mod BSIZE) ->
  room (16 * Z.of_nat q) v -> 16 * Z.of_nat q <= sb_freeblocks (k_sb k) ->
  exists k' v' addrs', run hA (writei_loop fuel ip (KernSrc data) off n tot) (k, v) = Ok (n, off0 + n) (k', v') /\
    written (16 * Z.of_nat q) k v (i_addrs (inode_at k ip)) ip off (off0 + n) (src_byte data off0) k' v' addrs'.
Proof.
  induction q as [|q IH]; intros fuel ip off tot k v F Hdev Hty Hip Hmap H0 Eo Ht Hd Hmax Hfu Hq Hr Hf;
    (destruct fuel as [|fuel]; [lia|]); pose proof (Z.mod_pos_bound off BSIZE) as Hmod.
  { assert (tot = n) as -> by lia. cbn [writei_loop]. rewrite Z.ltb_irrefl. subst off.
    eexists k, v, _. split; [done|]. by apply written_refl. }
  destruct (decide (tot = n)) as [->|Hne].
  { cbn [writei_loop]. rewrite Z.ltb_irrefl. subst off. eexists k, v, _. split; [done|].
    eapply written_weaken; [by apply written_refl|lia]. }
  destruct (writei_iter fuel ip data off0 n off tot k v) as (k1 & v1 & addrs1 & E1 & W1); try done; try lia.
  { apply (room_weaken (16 * Z.of_nat (S q))); [done|lia]. }
  set (m := Z.min (n - tot) (BSIZE - off mod BSIZE)) in *. rewrite E1.
  pose proof (wr_k _ _ _ _ _ _ _ _ _ _ _ W1) as K1.
  assert (Ei : inode_at k1 ip = i_set_addrs addrs1 (inode_at k ip)) by (rewrite K1; by apply bmap_mem_inode).
  destruct (IH fuel ip (off + m) (tot + m) k1 v1) as (k2 & v2 & addrs2 & E2 & W2); rewrite ?Ei; try done; try lia.
  - apply W1.
  - rewrite K1. cbn. by rewrite length_alter.
  - apply W1.
  - destruct (decide (m = n - tot)) as [E|E]; [left; lia|right]. rewrite (next_block off m) by lia. lia.
  - eapply (ext_room 16); [|apply W1]. apply (room_weaken (16 * Z.of_nat (S q))); [done|lia].
  - pose proof (wr_count _ _ _ _ _ _ _ _ _ _ _ W1). lia.
  - exists k2, v2, addrs2. split; [done|]. rewrite Ei in W2. cbn [i_addrs i_set_addrs] in W2.
    replace (16 * Z.of_nat (S q)) with (16 + 16 * Z.of_nat q) by lia.
    eapply (written_trans _ _ _ _ _ _ _ (off + m)); [lia| |done|done].
    intros o Ho. unfold MAXBN. pose proof (Z.div_mod o BSIZE). pose proof (Z.mod_pos_bound o BSIZE). lia.
Qed.

(** ** iupdate *)

(** The inode number is one of the disk's. *)
Definition inum_ok (k : kst) (ip : nat) : Prop := 0 <= i_inum (inode_at k ip) < sb_ninodes (k_sb k).

Definition iblock (k : kst) (ip : nat) : Z := IBLOCK (i_inum (inode_at k ip)) (k_sb k).

(** The disk inode of number [inum]. *)
Definition disk_inode (k : kst) (v : ldisk) (inum : Z) : dinode :=
  get_dinode (dioff inum) (blk v (IBLOCK inum (k_sb k))).

(** The disk after iupdate. *)
Definition iupdated (k : kst) (v : ldisk) (ip : nat) : ldisk :=
  put_blk (iblock k ip) (put_dinode (dioff (i_inum (inode_at k ip))) (di_of (inode_at k ip)) (blk v (iblock k ip))) v.

Lemma iblock_inodes k v ip : alloc_inv k v -> inum_ok k ip -> in_inodes (k_sb k) (iblock k ip).
Proof. intros I H. apply inode_block; [apply I|done]. Qed.

Lemma length_put_dinode off di (d : bytes) :
  0 <= off -> off + 128 <= zlen d -> length (d_addrs di) = 15%nat -> length (put_dinode off di d) = length d.
Proof. intros H1 H2 H3. pose proof (zlen_put_dinode off di d H1 H2 H3). unfold zlen in *. lia. Qed.

Lemma iupdate_run k v ip :
  fs_ok k v -> i_dev (inode_at k ip) = ROOTDEV -> inum_ok k ip -> length (i_addrs (inode_at k ip)) = 15%nat ->
  room 1 v ->
  run hA (iupdate ip) (k, v) = Ok tt (k, iupdated k v ip) /\ fs_ok k (iupdated k v ip) /\ ext 1 v (iupdated k v ip).
Proof.
  intros [I L H] Hdev Hi Hl Hr. destruct (ai_inode k v I _ Hi) as [Hv Hh]. fold (IBLOCK (i_inum (inode_at k ip)) (k_sb k)) in Hv, Hh.
  assert (Hlen : length (put_dinode (dioff (i_inum (inode_at k ip))) (di_of (inode_at k ip)) (blk v (iblock k ip))) = Z.to_nat BSIZE).
  { pose proof (dioff_bound (i_inum (inode_at k ip))). pose proof (lk_len v L (iblock k ip)).
    rewrite length_put_dinode; [done|lia|unfold zlen; lia|done]. }
  split; [|split].
  - unfold iupdate. rewrite run_bind, run_geti. rewrite Hdev. unfold getsb. rewrite run_bind.
    change (run hA (k0 <- P.get; Ret (k_sb k0)) (k, v)) with (@Ok (kst * ldisk) _ (k_sb k) (k, v)). cbv iota beta.
    by apply (run_update_end k v _ (put_dinode (dioff (i_inum (inode_at k ip))) (di_of (inode_at k ip)))).
  - pose proof (iblock_inodes k v ip I Hi) as B. pose proof (ai_geom k v I) as G.
    split; [|by apply lok_put|done]. apply alloc_inv_put; [done|..]; geom G; lia.
  - by apply ext_put.
Qed.

(** The other blocks, and the block maps of files, survive iupdate. *)
Lemma iupdated_blk k v ip c : c <> iblock k ip -> blk (iupdated k v ip) c = blk v c.
Proof. apply blk_put_ne. Qed.

Lemma meta_not_tree k v addrs b : imap_ok k v addrs -> is_meta (k_sb k) b -> b ∉ itree v addrs.
Proof. intros Hm Hb Hin. by destruct (imap_dblock _ _ _ _ Hm Hin) as (_ & ? & _). Qed.

Lemma iupdated_map k v ip addrs :
  alloc_inv k v -> inum_ok k ip -> imap_ok k v addrs ->
  imap_ok k (iupdated k v ip) addrs /\ itree (iupdated k v ip) addrs = itree v addrs /\
  forall bn, 0 <= bn < MAXBN -> ilook (iupdated k v ip) addrs bn = ilook v addrs bn.
Proof.
  intros I Hi Hm. pose proof (iblock_inodes k v ip I Hi) as B. pose proof (ai_geom k v I) as G.
  assert (Hni : iblock k ip ∉ iinner v addrs).
  { intros Hin. apply iinner_itree in Hin; [|apply Hm]. eapply meta_not_tree; [done| |done]. unfold is_meta. tauto. }
  destruct (ilook_put_leaf v addrs (iblock k ip) (put_dinode (dioff (i_inum (inode_at k ip))) (di_of (inode_at k ip)) (blk v (iblock k ip))) (proj1 Hm) Hni) as (E1 & E2 & E3).
  split; [|done]. destruct Hm as (Hl & Hn & Hf). split; [done|]. unfold iupdated. rewrite E1. split; [done|].
  eapply Forall_impl; [done|]. intros x (X1 & X2 & X3). split; [done|]. split; [done|].
  rewrite bitof_put_ne; [done|]. pose proof (bmap_block (k_sb k) x G X1). geom G. lia.
Qed.

Lemma iupdated_disk k v ip :
  lok v -> di_fits (di_of (inode_at k ip)) -> disk_inode k (iupdated k v ip) (i_inum (inode_at k ip)) = di_of (inode_at k ip).
Proof.
  intros L Hf. unfold disk_inode, iupdated, iblock. rewrite blk_put_eq. pose proof (dioff_bound (i_inum (inode_at k ip))).
  apply get_put_dinode; [lia| |done]. unfold zlen. rewrite (lk_len v L). lia.
Qed.

(** Other inodes are untouched. *)
Lemma iupdated_disk_ne k v ip inum :
  lok v -> length (i_addrs (inode_at k ip)) = 15%nat -> 0 <= inum -> 0 <= i_inum (inode_at k ip) -> inum <> i_inum (inode_at k ip) ->
  disk_inode k (iupdated k v ip) inum = disk_inode k v inum.
Proof.
  intros L Hl H1 H2 Hne. unfold disk_inode, iupdated, iblock, IBLOCK.
  destruct (decide (inum / IPB = i_inum (inode_at k ip) / IPB)) as [E|E].
  - rewrite E, blk_put_eq. pose proof (dioff_bound inum). pose proof (dioff_bound (i_inum (inode_at k ip))).
    apply get_put_dinode_ne; unfold zlen; rewrite ?(lk_len v L); try lia; [done|].
    unfold dioff. pose proof (Z.div_mod inum IPB). pose proof (Z.div_mod (i_inum (inode_at k ip)) IPB). lia.
  - by rewrite blk_put_ne by lia.
Qed.

(** ** writei *)

(** What a write of [n] bytes of [data] at [off] does to the file [ip]. *)
Record wrote (b : Z) (k : kst) (v : ldisk) (ip : nat) (off n : Z) (data : bytes) (k' : kst) (v' : ldisk) : Prop := {
  wt_ok : fs_ok k' v';
  wt_ext : ext b v v';
  wt_sb : same_sb k k';
  wt_file : file_ok k' v' ip;
  wt_inode : exists addrs', inode_at k' ip =
    i_set_size (Z.max (i_size (inode_at k ip)) (off + n)) (i_set_addrs addrs' (inode_at k ip));
  wt_others : forall j, j <> ip -> inode_at k' j = inode_at k j;
  wt_byte : forall o, 0 <= o < Z.max (i_size (inode_at k ip)) (off + n) ->
    fbyte v' (i_addrs (inode_at k' ip)) o
    = if decide (off <= o < off + n) then getb (o - off) data else fbyte v (i_addrs (inode_at k ip)) o;
  wt_disk : di_fits (di_of (inode_at k' ip)) ->
    disk_inode k' v' (i_inum (inode_at k ip)) = di_of (inode_at k' ip);
  wt_bits : forall x, 0 <= x < sb_size (k_sb k) -> alloc_bit k v x = true -> alloc_bit k v' x = true;
  wt_grow : forall x, x ∈ itree v' (i_addrs (inode_at k' ip)) ->
    x ∈ itree v (i_addrs (inode_at k ip)) \/ alloc_bit k v x = false;
  wt_frame : forall c, dblock k v c -> c ∉ itree v (i_addrs (inode_at k ip)) -> blk v' c = blk v c
}.

Lemma inode_at_modi k ip f : (ip < length (k_itable k))%nat ->
  inode_at (set_itable (alter f ip) k) ip = f (inode_at k ip).
Proof.
  intros H. unfold inode_at. cbn. rewrite !nth_lookup, list_lookup_alter_eq.
  destruct (k_itable k !! ip) as [i|] eqn:E; [done|]. apply lookup_ge_None in E. lia.
Qed.

Lemma inode_at_modi_ne k ip j f : j <> ip -> inode_at (set_itable (alter f ip) k) j = inode_at k j.
Proof. intros H. unfold inode_at. cbn. by rewrite !nth_lookup, list_lookup_alter_ne. Qed.

Lemma mapped_written n k v addrs ip off hi d k' v' addrs' size :
  written n k v addrs ip off hi d k' v' addrs' -> mapped v addrs size -> 0 <= off <= size ->
  Z.max size hi < 2 ^ 31 -> mapped v' addrs' (Z.max size hi).
Proof.
  intros W Hm Ho Hmax bn Hb Hs. destruct (decide (bn * BSIZE < size)) as [Hlt|Hge].
  - rewrite (wr_kept _ _ _ _ _ _ _ _ _ _ _ W); [by apply Hm|unfold MAXBN; lia|by apply Hm].
  - replace bn with (bn * BSIZE / BSIZE) by (by apply Z.div_mul). apply (wr_new _ _ _ _ _ _ _ _ _ _ _ W). lia.
Qed.

(** The size update between the loop and iupdate. *)
Definition size_mem (ip : nat) (old new : Z) (k : kst) : kst :=
  if old <? new then set_itable (alter (i_set_size new) ip) k else k.

Lemma size_mem_inode ip old new k : (ip < length (k_itable k))%nat -> i_size (inode_at k ip) = old ->
  inode_at (size_mem ip old new k) ip = i_set_size (Z.max old new) (inode_at k ip).
Proof.
  intros Hip Hs. unfold size_mem. destruct (Z.ltb_spec old new).
  - rewrite inode_at_modi by done. f_equal. lia.
  - replace (Z.max old new) with old by lia. subst. by destruct (inode_at k ip).
Qed.

Lemma size_mem_ne ip old new k j : j <> ip -> inode_at (size_mem ip old new k) j = inode_at k j.
Proof. intros H. unfold size_mem. destruct (_ <? _); [by apply inode_at_modi_ne|done]. Qed.

Lemma size_mem_sb ip old new k : k_sb (size_mem ip old new k) = k_sb k.
Proof. unfold size_mem. by destruct (_ <? _). Qed.

Lemma size_mem_len ip old new k : length (k_itable (size_mem ip old new k)) = length (k_itable k).
Proof. unfold size_mem. destruct (_ <? _); [|done]. cbn. by rewrite length_alter. Qed.

(** Everything writei establishes, from what its loop established. *)
Section Wrote.
  Context (b : Z) (k : kst) (v : ldisk) (ip : nat) (off n : Z) (data : bytes) (k1 : kst) (v1 : ldisk) (addrs1 : list Z).
Let size := i_size (inode_at k ip).
Let k2 := size_mem ip size (off + n) k1.
  Context (F : fs_ok k v) (Fk : file_ok k v ip) (Hi : inum_ok k ip).
  Context (Ho : 0 <= off <= size) (Hn : 0 <= n) (Hmax : off + n < 2 ^ 31).
  Context (W : written b k v (i_addrs (inode_at k ip)) ip off (off + n) (src_byte data off) k1 v1 addrs1).

Lemma wt_same1 : same_sb k k1.
Proof. eapply mem_same, W. Qed.

Lemma wt_inode2 : inode_at k2 ip = i_set_size (Z.max size (off + n)) (i_set_addrs addrs1 (inode_at k ip)).
Proof.
  pose proof (wr_k _ _ _ _ _ _ _ _ _ _ _ W) as K1.
  assert (E1 : inode_at k1 ip = i_set_addrs addrs1 (inode_at k ip)) by (rewrite K1; apply bmap_mem_inode, Fk).
  unfold k2. rewrite size_mem_inode, E1; [done| |by rewrite E1].
  rewrite K1. cbn. rewrite length_alter. apply Fk.
Qed.

Lemma wt_sb2 : k_sb k2 = k_sb k1.
Proof. apply size_mem_sb. Qed.

Lemma wt_inv1 : alloc_inv k2 v1.
Proof. apply (fo_inv _ _ (fs_ok_sb k1 k2 v1 wt_sb2 (wr_ok _ _ _ _ _ _ _ _ _ _ _ W))). Qed.

Lemma wt_inum2 : inum_ok k2 ip.
Proof. unfold inum_ok. rewrite wt_inode2, wt_sb2, wt_same1. apply Hi. Qed.

Lemma wt_map1 : imap_ok k2 v1 addrs1.
Proof.
  destruct (wr_map _ _ _ _ _ _ _ _ _ _ _ W) as (? & ? & Hf). split; [done|]. split; [done|].
  unfold dblock in *. by rewrite wt_sb2.
Qed.

Lemma wt_iblock_meta : is_meta (k_sb k) (iblock k2 ip) /\ in_inodes (k_sb k) (iblock k2 ip).
Proof.
  pose proof (iblock_inodes k2 v1 ip wt_inv1 wt_inum2) as B. rewrite wt_sb2, wt_same1 in B.
  change (in_inodes (k_sb k) (iblock k2 ip)) in B. split; [unfold is_meta; tauto|done].
Qed.

Lemma wt_bn o : 0 <= o < Z.max size (off + n) -> 0 <= o / BSIZE < MAXBN.
Proof.
  intros Hr. pose proof (fk_size _ _ _ Fk) as Hsz. fold size in Hsz. unfold MAXBN.
  pose proof (Z.div_mod o BSIZE). pose proof (Z.mod_pos_bound o BSIZE). lia.
Qed.

Lemma wt_mapped1 : mapped v1 addrs1 (Z.max size (off + n)).
Proof. pose proof (fk_size _ _ _ Fk) as Hsz. fold size in Hsz. eapply mapped_written; [done|apply Fk|done|lia]. Qed.

Lemma wt_file_ok : file_ok k2 (iupdated k2 v1 ip) ip.
Proof.
  pose proof (fk_size _ _ _ Fk) as Hsz. fold size in Hsz.
  destruct (iupdated_map k2 v1 ip addrs1 wt_inv1 wt_inum2 wt_map1) as (M2 & _ & L2).
  split; rewrite ?wt_inode2; cbn; try apply Fk; try done.
  - unfold k2. rewrite size_mem_len, (wr_k _ _ _ _ _ _ _ _ _ _ _ W). cbn. rewrite length_alter. apply Fk.
  - lia.
  - intros bn Hb Hs. rewrite L2; [by apply wt_mapped1|unfold MAXBN; lia].
Qed.

Lemma wt_bytes o : 0 <= o < Z.max size (off + n) ->
  fbyte (iupdated k2 v1 ip) addrs1 o
  = if decide (off <= o < off + n) then getb (o - off) data else fbyte v (i_addrs (inode_at k ip)) o.
Proof.
  intros Hr. pose proof (wt_bn o Hr) as Hbo. pose proof (Z.div_mod o BSIZE). pose proof (Z.mod_pos_bound o BSIZE).
  assert (Hor : ilook v (i_addrs (inode_at k ip)) (o / BSIZE) <> 0 \/ off <= o < off + n).
  { destruct (decide (off <= o < off + n)); [by right|left]. apply (fk_mapped _ _ _ Fk); [lia|]. fold size. lia. }
  pose proof (wr_byte _ _ _ _ _ _ _ _ _ _ _ W o Hbo Hor) as Eb. unfold src_byte in Eb. rewrite <- Eb.
  destruct (iupdated_map k2 v1 ip addrs1 wt_inv1 wt_inum2 wt_map1) as (_ & _ & L2).
  unfold fbyte. rewrite L2 by done. rewrite iupdated_blk; [done|]. intros Ec.
  eapply meta_not_tree; [exact wt_map1| |eapply ilook_itree; [exact wt_map1|exact Hbo|]].
  - rewrite Ec, wt_sb2, wt_same1. apply wt_iblock_meta.
  - destruct Hor as [Hor|Hor]; [by rewrite (wr_kept _ _ _ _ _ _ _ _ _ _ _ W)|by apply (wr_new _ _ _ _ _ _ _ _ _ _ _ W)].
Qed.

Lemma wt_allocbits x : 0 <= x < sb_size (k_sb k) -> alloc_bit k (iupdated k2 v1 ip) x = alloc_bit k v1 x.
Proof.
  intros Hx. apply bitof_put_ne. pose proof (bmap_block (k_sb k) x (ai_geom _ _ (fo_inv _ _ F)) Hx) as B.
  pose proof (proj2 wt_iblock_meta) as B2. pose proof (ai_geom _ _ (fo_inv _ _ F)) as G. geom G. lia.
Qed.

Lemma wrote_intro : fs_ok k2 (iupdated k2 v1 ip) -> wrote (b + 1) k v ip off n data k2 (iupdated k2 v1 ip).
Proof.
  intros F2. pose proof (fo_lok _ _ (wr_ok _ _ _ _ _ _ _ _ _ _ _ W)) as L1.
  destruct (iupdated_map k2 v1 ip addrs1 wt_inv1 wt_inum2 wt_map1) as (_ & T2 & _).
  split; rewrite ?wt_inode2; cbn [i_size i_addrs i_set_size i_set_addrs i_dev i_type].
  - done.
  - eapply ext_trans; [apply W|]. apply ext_put. pose proof (dioff_bound (i_inum (inode_at k2 ip))).
    pose proof (lk_len v1 L1 (iblock k2 ip)) as Hl.
    rewrite length_put_dinode; [done|lia|unfold zlen; lia|]. rewrite wt_inode2. apply wt_map1.
  - unfold same_sb. rewrite wt_sb2. apply wt_same1.
  - exact wt_file_ok.
  - by exists addrs1.
  - intros j Hj. unfold k2. rewrite size_mem_ne, (wr_k _ _ _ _ _ _ _ _ _ _ _ W) by done. unfold bmap_mem.
    by rewrite inode_at_modi_ne.
  - exact wt_bytes.
  - pose proof (iupdated_disk k2 v1 ip L1) as Hd. by rewrite wt_inode2 in Hd.
  - intros x Hx Hb. rewrite wt_allocbits by done. by apply (wr_bits _ _ _ _ _ _ _ _ _ _ _ W).
  - intros x. rewrite T2. apply (wr_grow _ _ _ _ _ _ _ _ _ _ _ W).
  - intros c Dc Hc. destruct (dblock_not_bmap _ _ _ Dc). destruct Dc as (D1 & D2 & D3).
    rewrite iupdated_blk by (intros ->; apply D2, wt_iblock_meta). by apply (wr_frame _ _ _ _ _ _ _ _ _ _ _ W).
Qed.
End Wrote.

Lemma writei_run k v ip off n data q :
  fs_ok k v -> file_ok k v ip -> inum_ok k ip -> 0 <= off <= i_size (inode_at k ip) -> 0 <= n <= zlen data ->
  off + n < 2 ^ 31 -> n <= Z.of_nat q * BSIZE - off mod BSIZE -> (q <= Z.to_nat (n / BSIZE + 2))%nat ->
  room (16 * Z.of_nat q + 1) v -> 16 * Z.of_nat q <= sb_freeblocks (k_sb k) ->
  exists k' v', run hA (writei ip (KernSrc data) off n) (k, v) = Ok n (k', v') /\
    wrote (16 * Z.of_nat q + 1) k v ip off n data k' v'.
Proof.
  intros F Fk Hi Ho Hn Hmax Hq Hq2 Hr Hf. pose proof (fk_size _ _ _ Fk) as Hsz.
  assert (Hnd : 0 <= n / BSIZE) by (apply Z.div_pos; lia).
  destruct (writei_loop_run data off n q (Z.to_nat (n / BSIZE + 3)) ip off 0 k v) as (k1 & v1 & addrs1 & E1 & W);
    try done; try apply Fk; try lia.
  { apply (room_weaken (16 * Z.of_nat q + 1)); [done|lia]. }
  set (k2 := size_mem ip (i_size (inode_at k ip)) (off + n) k1).
  assert (S2 : k_sb k2 = k_sb k1) by apply size_mem_sb.
  pose proof (wt_inode2 _ _ _ _ _ _ _ _ _ _ Fk W) as E2. fold k2 in E2.
  destruct (iupdate_run k2 v1 ip) as (Eu & Fu & _).
  { apply (fs_ok_sb k1); [done|apply W]. }
  { rewrite E2. apply Fk. }
  { exact (wt_inum2 _ _ _ _ _ _ _ _ _ _ Fk Hi W). }
  { rewrite E2. apply (wr_map _ _ _ _ _ _ _ _ _ _ _ W). }
  { eapply (ext_room (16 * Z.of_nat q)); [done|apply W]. }
  exists k2, (iupdated k2 v1 ip). split; [|by apply (wrote_intro _ k v ip off n data k1 v1 addrs1)].
  unfold writei. rewrite run_bind, run_geti. rewrite (u32_id (off + n)) by (unfold is_u32; lia).
  destruct (Z.ltb_spec (i_size (inode_at k ip)) off); [lia|]. destruct (Z.ltb_spec (off + n) off); [lia|]. cbn [orb].
  match goal with |- context[if ?c then _ else _] => destruct c eqn:Ec end; [apply Z.ltb_lt in Ec; lia|].
  rewrite run_bind, E1. cbv beta iota. rewrite run_bind, run_geti.
  assert (Es : i_size (inode_at k1 ip) = i_size (inode_at k ip)).
  { rewrite (wr_k _ _ _ _ _ _ _ _ _ _ _ W), bmap_mem_inode by apply Fk. done. }
  rewrite Es. rewrite run_bind.
  assert (Em : run hA (if i_size (inode_at k ip) <? off + n then modi ip (i_set_size (off + n)) else Ret tt) (k1, v1)
             = Ok tt (k2, v1)).
  { unfold k2, size_mem. destruct (i_size (inode_at k ip) <? off + n); [apply run_modk|done]. }
  rewrite Em, run_bind, Eu. cbn [run]. by rewrite s32_small by lia.
Qed.
