(* ===== verification/FileSpec.v ===== *)
(** * Files as byte sequences

    The contract of readi and writei: a file is a sequence of bytes, reading
    returns a piece of it, writing replaces or extends it.  The block map, the
    allocator and the inode block stay hidden behind [contents]. *)
From S2P Require Import Prelude Str Bio Log Crash Machine Types Vm Codec Ld Balloc Inode Bmap Imap Rw.
Local Open Scope prog_scope.

(** ** The abstract file *)

Definition contents (k : kst) (v : ldisk) (ip : nat) : bytes :=
  fsub v (i_addrs (inode_at k ip)) 0 (i_size (inode_at k ip)).

(** What a read of [n] bytes at [off] promises. *)
Definition spec_read (c : bytes) (off n : Z) : Z * bytes :=
  let m := Z.min n (zlen c - off) in (m, sub off m c).

(** What a write of [d] at [off] promises; [off] is at most the length. *)
Definition spec_write (c : bytes) (off : Z) (d : bytes) : bytes := splice off d c.

(** The open files [l]: well-formed, no block in two of them. *)
Record files_ok (k : kst) (v : ldisk) (l : list nat) : Prop := {
  fo_fs : fs_ok k v;
  fo_each : forall i, i ∈ l -> file_ok k v i;
  fo_apart : forall i j x, i ∈ l -> j ∈ l -> i <> j ->
    x ∈ itree v (i_addrs (inode_at k i)) -> x ∉ itree v (i_addrs (inode_at k j))
}.

(** ** Lemmas *)

Lemma zlen_contents k v ip : 0 <= i_size (inode_at k ip) -> zlen (contents k v ip) = i_size (inode_at k ip).
Proof. intros H. unfold zlen, contents, fsub. rewrite length_map, length_seqZ. lia. Qed.

Lemma nth_fsub v addrs off n i : 0 <= i < n -> nth (Z.to_nat i) (fsub v addrs off n) 0 = fbyte v addrs (off + i).
Proof.
  intros Hi. unfold fsub. apply nth_lookup_Some. rewrite list_lookup_fmap, lookup_seqZ_lt by lia. simpl.
  do 2 f_equal. lia.
Qed.

Lemma fsub_sub v addrs off m n : 0 <= off -> 0 <= m -> off + m <= n ->
  fsub v addrs off m = sub off m (fsub v addrs 0 n).
Proof.
  intros Ho Hm Hn. replace n with (off + (m + (n - off - m))) by lia. rewrite !fsub_app by lia. unfold sub.
  rewrite drop_app_length' by (unfold fsub; rewrite length_map, length_seqZ; lia).
  rewrite take_app_length' by (unfold fsub; rewrite length_map, length_seqZ; lia). by rewrite Z.add_0_l.
Qed.

Lemma contents_written b k v ip off n data k' v' :
  file_ok k v ip -> 0 <= off <= i_size (inode_at k ip) -> 0 <= n <= zlen data ->
  wrote b k v ip off n data k' v' ->
  contents k' v' ip = spec_write (contents k v ip) off (take (Z.to_nat n) data).
Proof.
  intros Fk Ho Hn W. pose proof (fk_size _ _ _ Fk) as Hs. destruct (wt_inode _ _ _ _ _ _ _ _ _ W) as [a E].
  pose proof (wt_byte _ _ _ _ _ _ _ _ _ W) as Hb. unfold spec_write, splice.
  assert (Hlen : length (take (Z.to_nat n) data) = Z.to_nat n) by (rewrite length_take; unfold zlen in Hn; lia).
  set (sz := i_size (inode_at k ip)) in *. set (sz' := Z.max sz (off + n)) in *.
  assert (Esz : i_size (inode_at k' ip) = sz') by (rewrite E; done).
  unfold contents at 1. rewrite Esz.
  replace sz' with (off + (n + (sz' - off - n))) at 1 by lia. rewrite !fsub_app by lia. f_equal; [|f_equal].
  - unfold contents. fold sz. change (take (Z.to_nat off) ?x) with (sub 0 off x) at 1.
    rewrite <- (fsub_sub v (i_addrs (inode_at k ip)) 0 off sz) by lia. unfold fsub. apply map_ext_in. intros j Hj.
    apply list_elem_of_In, elem_of_seqZ in Hj. rewrite Hb by lia. by rewrite decide_False by lia.
  - apply list_eq. intros i. unfold fsub. rewrite list_lookup_fmap. destruct (decide (Z.of_nat i < n)) as [Hi|Hi].
    + rewrite lookup_seqZ_lt by lia. simpl. rewrite Hb by lia. rewrite decide_True by lia.
      rewrite lookup_take_lt, (lookup_nth data i 0) by (unfold zlen in Hn; lia). unfold getb. do 2 f_equal. lia.
    + rewrite lookup_seqZ_ge by lia. by rewrite lookup_ge_None_2 by lia.
  - rewrite Hlen. unfold contents. fold sz. destruct (decide (off + n < sz)) as [Hlt|Hge].
    + assert (sz' = sz) as -> by lia. replace sz with ((off + n) + (sz - off - n)) at 2 by lia.
      rewrite fsub_app by lia. rewrite drop_app_length' by (unfold fsub; rewrite length_map, length_seqZ; lia).
      unfold fsub. replace (0 + off + n) with (off + n) by lia. replace (0 + (off + n)) with (off + n) by lia. apply map_ext_in. intros j Hj.
      apply list_elem_of_In, elem_of_seqZ in Hj. rewrite Hb by lia. by rewrite decide_False by lia.
    + replace (sz' - off - n) with 0 by lia. rewrite drop_ge by (unfold fsub; rewrite length_map, length_seqZ; lia). done.
Qed.

(** A write into one file keeps every other file. *)
Lemma other_file b k v ip off n data k' v' j :
  file_ok k v ip -> wrote b k v ip off n data k' v' -> j <> ip -> file_ok k v j ->
  (forall x, x ∈ itree v (i_addrs (inode_at k j)) -> x ∉ itree v (i_addrs (inode_at k ip))) ->
  file_ok k' v' j /\ contents k' v' j = contents k v j /\
  itree v' (i_addrs (inode_at k' j)) = itree v (i_addrs (inode_at k j)).
Proof.
  intros Fk W Hne Fj Hd. pose proof (wt_others _ _ _ _ _ _ _ _ _ W j Hne) as E.
  pose proof (fk_map _ _ _ Fj) as Hm. pose proof (fk_size _ _ _ Fj) as Hs.
  assert (Hf : forall c, c ∈ itree v (i_addrs (inode_at k j)) -> blk v' c = blk v c).
  { intros c Hc. apply (wt_frame _ _ _ _ _ _ _ _ _ W); [by apply (imap_dblock _ _ _ _ Hm)|by apply Hd]. }
  destruct (imap_frame v v' (i_addrs (inode_at k j)) (proj1 Hm)) as (Ht & Hi & Hl).
  { intros c Hc. apply Hf, iinner_itree; [apply Hm|done]. }
  rewrite E. split; [|split; [|done]].
  - split; rewrite ?E; try apply Fj.
    + destruct (decide (j < length (k_itable k'))%nat); [done|]. exfalso.
      pose proof (fk_dev _ _ _ Fj) as Hdev. rewrite <- E in Hdev. unfold inode_at in Hdev.
      rewrite nth_overflow in Hdev by lia. done.
    + destruct Hm as (H1 & H2 & H3). split; [done|]. rewrite Ht. split; [done|].
      apply (Forall_impl _ _ _ H3). intros x (Hx & Hx1 & Hx2). pose proof (wt_sb _ _ _ _ _ _ _ _ _ W) as Hsb.
      unfold same_sb in Hsb. unfold dblock. rewrite Hsb. split; [done|]. split; [done|].
      by apply (wt_bits _ _ _ _ _ _ _ _ _ W).
    + intros bn H0 H1. rewrite Hl by (unfold MAXBN; lia). by apply (fk_mapped _ _ _ Fj).
  - unfold contents. rewrite E. unfold fsub. apply map_ext_in. intros o Ho. apply list_elem_of_In, elem_of_seqZ in Ho.
    assert (0 <= o / BSIZE) by (apply Z.div_pos; lia). pose proof (Z.div_mod o BSIZE). pose proof (Z.mod_pos_bound o BSIZE).
    unfold fbyte. rewrite Hl by (unfold MAXBN; lia). rewrite Hf; [done|]. apply (ilook_itree k); [done|unfold MAXBN; lia|].
    apply (fk_mapped _ _ _ Fj); lia.
Qed.

(** The blocks of the written file stay apart from those of the others. *)
Lemma apart_written b k v ip off n data k' v' j x :
  wrote b k v ip off n data k' v' -> imap_ok k v (i_addrs (inode_at k j)) ->
  (forall x, x ∈ itree v (i_addrs (inode_at k j)) -> x ∉ itree v (i_addrs (inode_at k ip))) ->
  x ∈ itree v (i_addrs (inode_at k j)) -> x ∉ itree v' (i_addrs (inode_at k' ip)).
Proof.
  intros W Hm Hd Hx Hx'. destruct (wt_grow _ _ _ _ _ _ _ _ _ W x Hx') as [H|H]; [by apply (Hd x)|].
  destruct (imap_dblock _ _ _ _ Hm Hx) as (_ & _ & Hb). congruence.
Qed.

Lemma files_ok_written b k v l ip off n data k' v' :
  files_ok k v l -> ip ∈ l -> wrote b k v ip off n data k' v' ->
  files_ok k' v' l /\ forall j, j ∈ l -> j <> ip -> contents k' v' j = contents k v j.
Proof.
  intros [F E A] Hip W.
  assert (O : forall j, j ∈ l -> j <> ip -> file_ok k' v' j /\ contents k' v' j = contents k v j /\
    itree v' (i_addrs (inode_at k' j)) = itree v (i_addrs (inode_at k j))).
  { intros j Hj Hne. apply (other_file b k v ip off n data); auto. intros x. by apply A. }
  assert (P : forall j x, j ∈ l -> j <> ip -> x ∈ itree v (i_addrs (inode_at k j)) -> x ∉ itree v' (i_addrs (inode_at k' ip))).
  { intros j x Hj Hne. apply (apart_written b k v ip off n data k' v' j x W); [by apply E|]. intros y. by apply A. }
  split; [|intros j Hj Hne; by apply O]. split.
  - apply W.
  - intros j Hj. destruct (decide (j = ip)) as [->|Hne]; [apply W|by apply O].
  - intros i j x Hi Hj Hne Hx Hx'. destruct (decide (i = ip)) as [->|Ni].
    + destruct (O j Hj ltac:(congruence)) as (_ & _ & T). rewrite T in Hx'. by apply (P j x).
    + destruct (O i Hi Ni) as (_ & _ & T). rewrite T in Hx. destruct (decide (j = ip)) as [->|Nj].
      * by apply (P i x).
      * destruct (O j Hj Nj) as (_ & _ & T'). rewrite T' in Hx'. by apply (A i j x).
Qed.

Lemma addrs_u32 k v addrs : geom_ok (k_sb k) -> imap_ok k v addrs -> Forall is_u32 addrs.
Proof.
  intros G Hm. apply Forall_lookup. intros i a Ha. pose proof (lookup_lt_Some _ _ _ Ha) as Hi. rewrite (proj1 Hm) in Hi.
  destruct (decide (a = 0)) as [->|N]; [unfold is_u32; lia|].
  assert (a ∈ itree v addrs) as Hin.
  { apply elem_itree; [apply Hm|]. exists (Z.of_nat i). split; [lia|]. unfold addr_of. rewrite Nat2Z.id.
    rewrite (nth_lookup_Some _ _ _ _ Ha). destruct (dep _); cbn [tree]; rewrite (proj2 (Z.eqb_neq a 0) N); apply elem_of_cons; by left. }
  destruct (imap_dblock _ _ _ _ Hm Hin) as (Hr & _). pose proof (ge_size _ G). unfold is_u32. lia.
Qed.

(** The inode still fits its disk fields. *)
Lemma di_fits_written b k v ip off n data k' v' :
  file_ok k v ip -> 0 <= off -> 0 <= n -> off + n < 2 ^ 31 -> di_fits (di_of (inode_at k ip)) ->
  wrote b k v ip off n data k' v' -> di_fits (di_of (inode_at k' ip)).
Proof.
  intros Fk Ho Hn Hmax D W. pose proof (fk_size _ _ _ Fk). pose proof (fk_map _ _ _ (wt_file _ _ _ _ _ _ _ _ _ W)) as Hm.
  pose proof (addrs_u32 k' v' _ (ai_geom _ _ (fo_inv _ _ (wt_ok _ _ _ _ _ _ _ _ _ W))) Hm) as Ha. pose proof (proj1 Hm) as Hl.
  destruct (wt_inode _ _ _ _ _ _ _ _ _ W) as [a E]. rewrite E in Ha, Hl |- *. destruct D.
  split; cbn in *; try done. unfold is_u32. lia.
Qed.

(** ** Theorems *)

(** C9. readi refines the read of a byte sequence: on the machine with buffer
    cache and log, for every file of well-formed [file_ok] shape, a read of
    [n] bytes at [off] returns min(n, size - off) and exactly those bytes of
    the file's contents, through all levels of indirection, and changes
    neither the kernel state nor the logical disk. *)
Theorem readi_refines k v s ip off n :
  Rel s v -> rd_ok k v -> (forall b, length (blk v b) = Z.to_nat BSIZE) -> file_ok k v ip ->
  0 <= off <= i_size (inode_at k ip) -> 0 <= n -> off + n < 2 ^ 32 ->
  exists s', run hC (readi ip KernDst off n) (k, s) = Ok (spec_read (contents k v ip) off n) (k, s') /\ Rel s' v.
Proof.
  intros R Hr Hl Fk Ho Hn Hb. pose proof (fk_size _ _ _ Fk). pose proof (refine_run (readi ip KernDst off n) k s v R) as H'.
  rewrite (readi_run k v ip off n) in H' by done. destruct H' as (s' & E & R'). exists s'. split; [|done]. rewrite E.
  unfold spec_read. rewrite zlen_contents by lia. unfold contents. cbv zeta. by rewrite <- fsub_sub by lia.
Qed.

