(* ===== verification/FileCrash.v ===== *)
(** * A crash during a write

    The transaction in which filewrite calls writei, hit by a crash at any
    disk write: after recovery the file on disk has its old contents or its
    new contents. *)
From S2P Require Import Prelude Str Bio Log Crash Machine CrashFs Types Vm Codec Ld Balloc Inode Bmap Imap Rw FileSpec.
Local Open Scope prog_scope.

(** The file of inode [inum] as it is on the disk: what a kernel that boots
    from it finds. *)
Definition disk_contents (sb : superblock) (d : gmap Z bytes) (inum : Z) : bytes :=
  let v := mkLD d [] [] [] 0 (sb_logstart sb) (sb_nlog sb) in
  let di := get_dinode (dioff inum) (blk v (IBLOCK inum sb)) in
  fsub v (d_addrs di) 0 (d_size di).

(** ** Lemmas: writei ends no operation *)

Create HintDb quiet.
Ltac quiet_step :=
  match goal with
  | |- quiet (pbind _ _) => apply quiet_bind; [|intro]
  | |- quiet (Ret _) => exact I
  | |- quiet (panic _) => exact I
  | |- quiet (PanicP _) => exact I
  | |- quiet (WrongP _) => exact I
  | |- quiet (SleepP _) => exact I
  | |- quiet (Vis _ _) => split; [done|intro]
  | |- quiet (if ?b then _ else _) => destruct b
  | |- quiet (let '(_, _) := ?x in _) => destruct x
  | |- quiet (match ?x with _ => _ end) => destruct x
  end.
Ltac quiet := cbv zeta; repeat first [solve [eauto 1 with quiet] | progress cbv zeta | quiet_step].

Lemma quiet_ops {X} (o : op kst X) : is_end o = false -> quiet (trigger o).
Proof. intros H. by split. Qed.
Lemma quiet_bread dev b : quiet (P.bread dev b : M Z).
Proof. apply quiet_bind; [by apply quiet_ops|]. by intros. Qed.
Lemma quiet_bdata b : quiet (P.bdata b : M bytes).
Proof. by apply quiet_ops. Qed.
Lemma quiet_bset b d : quiet (P.bset b d : M unit).
Proof. by apply quiet_ops. Qed.
Lemma quiet_log_write b : quiet (P.log_write b : M unit).
Proof. by apply quiet_ops. Qed.
Lemma quiet_brelse b : quiet (P.brelse b : M unit).
Proof. by apply quiet_ops. Qed.
Lemma quiet_get : quiet (P.get : M kst).
Proof. by apply quiet_ops. Qed.
Lemma quiet_put k : quiet (P.put k : M unit).
Proof. by apply quiet_ops. Qed.
#[export] Hint Resolve quiet_bread quiet_bdata quiet_bset quiet_log_write quiet_brelse quiet_get quiet_put : quiet.

Lemma quiet_modk f : quiet (modk f).
Proof. unfold modk. quiet. Qed.
#[export] Hint Resolve quiet_modk : quiet.
Lemma quiet_geti ip : quiet (geti ip).
Proof. unfold geti. quiet. Qed.
Lemma quiet_modi ip f : quiet (modi ip f).
Proof. unfold modi. quiet. Qed.
Lemma quiet_getsb : quiet getsb.
Proof. unfold getsb. quiet. Qed.
Lemma quiet_myproc : quiet myproc.
Proof. unfold myproc. quiet. Qed.
Lemma quiet_liftK {A} (m : stM kst A) : quiet (liftK m).
Proof. unfold liftK. quiet. Qed.
#[export] Hint Resolve quiet_geti quiet_modi quiet_getsb quiet_myproc quiet_liftK : quiet.

Lemma quiet_updatesb dev sb : quiet (updatesb dev sb).
Proof. unfold updatesb. quiet. Qed.
#[export] Hint Resolve quiet_updatesb : quiet.
Lemma quiet_bm_loop dev start limit upd msg fuel b : quiet (bm_loop dev start limit upd msg fuel b).
Proof. revert b. induction fuel as [|fuel IH]; intros b; cbn [bm_loop]; quiet. Qed.
Lemma quiet_bzero dev b : quiet (bzero dev b).
Proof. unfold bzero. quiet. Qed.
#[export] Hint Resolve quiet_bm_loop quiet_bzero : quiet.
Lemma quiet_balloc dev : quiet (balloc dev).
Proof. unfold balloc, bm_alloc. quiet. Qed.
Lemma quiet_addr_at ip j : quiet (addr_at ip j).
Proof. unfold addr_at. quiet. Qed.
Lemma quiet_set_addr ip j a : quiet (set_addr ip j a).
Proof. unfold set_addr. quiet. Qed.
#[export] Hint Resolve quiet_balloc quiet_addr_at quiet_set_addr : quiet.
Lemma quiet_extent_find fuel ip bn i : quiet (extent_find fuel ip bn i).
Proof. revert i. induction fuel as [|fuel IH]; intros i; cbn [extent_find]; quiet. Qed.
#[export] Hint Resolve quiet_extent_find : quiet.
Lemma quiet_bmap_extent ip bn : quiet (bmap_extent ip bn).
Proof. unfold bmap_extent. quiet. Qed.
Lemma quiet_bmap_top ip j : quiet (bmap_top ip j).
Proof. unfold bmap_top. quiet. Qed.
Lemma quiet_bmap_ind dev a i : quiet (bmap_ind dev a i).
Proof. unfold bmap_ind. quiet. Qed.
#[export] Hint Resolve quiet_bmap_extent quiet_bmap_top quiet_bmap_ind : quiet.
Lemma quiet_bmap ip bn : quiet (bmap ip bn).
Proof. unfold bmap. quiet. Qed.
Lemma quiet_iupdate ip : quiet (iupdate ip).
Proof. unfold iupdate. quiet. Qed.
Lemma quiet_either_copyin src a n : quiet (either_copyin src a n).
Proof. unfold either_copyin. quiet. Qed.
#[export] Hint Resolve quiet_bmap quiet_iupdate quiet_either_copyin : quiet.
Lemma quiet_writei_loop fuel ip src off n tot : quiet (writei_loop fuel ip src off n tot).
Proof. revert off tot. induction fuel as [|fuel IH]; intros off tot; cbn [writei_loop]; quiet. Qed.
#[export] Hint Resolve quiet_writei_loop : quiet.
Lemma quiet_writei ip src off n : quiet (writei ip src off n).
Proof. unfold writei. quiet. Qed.

(** ** Lemmas: the file on the disk *)

Lemma data_home k v b : alloc_inv k v -> dblock k v b -> ~ in_log (ld_start v) (ld_size v) b.
Proof. intros I (_ & Hm & _) Hb. apply Hm. rewrite (ai_start _ _ I), (ai_logsz _ _ I) in Hb. unfold is_meta. tauto. Qed.

Lemma inodes_home k v b : alloc_inv k v -> in_inodes (k_sb k) b -> ~ in_log (ld_start v) (ld_size v) b.
Proof.
  intros I Hi Hb. rewrite (ai_start _ _ I), (ai_logsz _ _ I) in Hb. pose proof (ai_geom _ _ I) as G. geom G.
  unfold in_inodes, in_range, in_log in *. lia.
Qed.

(** A disk that agrees with [v] outside the log holds the file as [v] has it. *)
Lemma disk_contents_eq k v ip d :
  alloc_inv k v -> file_ok k v ip -> inum_ok k ip ->
  disk_inode k v (i_inum (inode_at k ip)) = di_of (inode_at k ip) ->
  (forall b, ~ in_log (ld_start v) (ld_size v) b -> dblk d b = blk v b) ->
  disk_contents (k_sb k) d (i_inum (inode_at k ip)) = contents k v ip.
Proof.
  intros I F Hi Hd Hb. unfold disk_contents. set (v' := mkLD _ _ _ _ _ _ _).
  assert (Hblk : forall b, ~ in_log (ld_start v) (ld_size v) b -> blk v' b = blk v b) by exact Hb.
  pose proof (fk_map _ _ _ F) as Hm. pose proof (fk_size _ _ _ F) as Hs.
  assert (Hf : forall c, c ∈ itree v (i_addrs (inode_at k ip)) -> blk v' c = blk v c).
  { intros c Hc. apply Hblk, (data_home k); [done|]. by apply (imap_dblock _ _ _ _ Hm). }
  destruct (imap_frame v v' (i_addrs (inode_at k ip)) (proj1 Hm)) as (_ & _ & Hl).
  { intros c Hc. apply Hf, iinner_itree; [apply Hm|done]. }
  rewrite Hblk by (apply (inodes_home k); [done|]; by apply inode_block; [apply I|]).
  fold (disk_inode k v (i_inum (inode_at k ip))). rewrite Hd. unfold contents. cbn [di_of d_addrs d_size]. unfold fsub.
  apply map_ext_in. intros o Ho. apply list_elem_of_In, elem_of_seqZ in Ho.
  assert (0 <= o / BSIZE) by (apply Z.div_pos; lia). pose proof (Z.div_mod o BSIZE). pose proof (Z.mod_pos_bound o BSIZE).
  unfold fbyte. rewrite Hl by (unfold MAXBN; lia). rewrite Hf; [done|]. apply (ilook_itree k); [done|unfold MAXBN; lia|].
  apply (fk_mapped _ _ _ F); lia.
Qed.

(** ** Theorems *)

