(* ===== verification/Dir.v ===== *)
(** * Directories and path names (kernel/fs.c: namecmp .. divesymlink)

    A directory is a hash table in a file: bucket [h] is the 256 bytes (16
    entries) at offset [256 * h], and two blocks at 113 KB are the overflow
    area.  A [name] is the [char *] the routine gets: the bytes from the
    pointer on, as far as they are known; a name without a NUL is one the
    caller did not terminate. *)
From S2P Require Import Prelude Str Bio Log Crash Machine Types Vm Codec Ld Balloc Inode.
Local Open Scope prog_scope.

Notation HASHRANGE := 443 (only parsing).
Notation MAXFSIZE := (119 * 1024) (only parsing).

Definition str_dot : bytes := [46; 0].
Definition str_dotdot : bytes := [46; 46; 0].

Definition namecmp (s t : bytes) : Z := strncmp s t DIRSIZ.

(** [None]: the loop runs past the known bytes. *)
Fixpoint BKDR_loop (str : bytes) (hash : Z) : option Z :=
  match str with
  | [] => None
  | c :: str => if c =? 0 then Some hash else BKDR_loop str (u32 (hash * 131 + c))
  end.
Definition BKDRHash (str : bytes) : option Z :=
  match BKDR_loop str 0 with
  | Some hash => Some (hash mod HASHRANGE + 16)
  | None => None
  end.

Definition cal_block_index (bn : Z) : M Z :=
  if bn <? 1 then panic "bn=0 should be given to . and .."
  else if bn <? 112 + 1 then Ret bn
  else panic "cal_block_index: out of range".

Definition check_log_full : M unit :=
  r <- P.if_log_full;
  if r =? 0 then P.end_op;; P.begin_op else Ret tt.

Definition check_free : M bool :=
  r <- P.if_log_full;
  Ret (r =? 1).

(** ** Growing a directory *)

Definition contiguous_block_allocation (ip : nat) (off : Z) : M Z :=
  i <- geti ip;
  let dev := i_dev i in
  let block_end_id := off / BSIZE in
  let first_block := i_size i / BSIZE + (if i_size i mod BSIZE =? 0 then 0 else 1) in
  if block_end_id <? first_block then Ret 0
  else
    let last_direct := Z.min block_end_id (NDIRECT - 1) in
    pfor (seqZ first_block (last_direct - first_block + 1)) (fun block_id =>
      a <- balloc dev;
      set_addr ip block_id a;;
      check_log_full);;
    if block_end_id <? NDIRECT then Ret (u32 (block_end_id - first_block + 1))
    else
      let block_id := Z.max first_block NDIRECT in
      block_addr <- addr_at ip NDIRECT;
      block_addr <- (if block_addr =? 0 then
                       a <- balloc dev;
                       set_addr ip NDIRECT a;;
                       check_log_full;;
                       Ret a
                     else Ret block_addr);
      pointer_buf <- P.bread dev block_addr;
      pfor (seqZ block_id (block_end_id - block_id + 1)) (fun block_id =>
        a <- balloc dev;
        d <- P.bdata pointer_buf;
        P.bset pointer_buf (st32 (4 * (block_id - NDIRECT)) a d);;
        full <- check_free;
        if full : bool then
          P.log_write pointer_buf;;
          P.brelse pointer_buf;;
          P.end_op;;
          P.begin_op;;
          P.bread dev block_addr;;
          Ret tt
        else Ret tt);;
      P.log_write pointer_buf;;
      P.brelse pointer_buf;;
      Ret (u32 (block_end_id - first_block + 1)).

Definition tree_expand (ip : nat) (size : Z) : M Z :=
  allocated_block_num <- contiguous_block_allocation ip size;
  i <- geti ip;
  let old_block_num := if i_size i <? 1 then 0 else u32 (i_size i - 1) / BSIZE in
  let inner_off := i_size i mod BSIZE in
  let right := if negb (allocated_block_num =? 0) then u32 (old_block_num * BSIZE + BSIZE) else u32 (size + 1) in
  if inner_off =? 0 then
    modi ip (i_set_size (u32 (size + 1)));;
    iupdate ip;;
    Ret size
  else
    addr <- bmap ip old_block_num;
    p_buf <- P.bread (i_dev i) addr;
    d <- P.bdata p_buf;
    P.bset p_buf (splice inner_off (zeros (u32 (right - i_size i))) d);;
    P.log_write p_buf;;
    P.brelse p_buf;;
    modi ip (i_set_size (u32 (size + 1)));;
    iupdate ip;;
    Ret size.

(** ** Searching *)

(** One pass over the entries [off .. next): [Some (poff, inum)] when
    tree_search returns from the loop. *)
Fixpoint ts_loop (fuel : nat) (dp : nat) (name : bytes) (add : bool) (off next : Z) : M (option (option Z * Z)) :=
  match fuel with
  | O => Ret None
  | S fuel =>
      if negb (off <? next) then Ret None
      else
        i <- geti dp;
        stop <- (if i_size i <=? off then
                   if add then tree_expand dp (next - 1);; Ret false else Ret true
                 else Ret false);
        if stop : bool then Ret (Some (None, 0))
        else
          '(r, d) <- readi dp KernDst off 16;
          if negb (r =? 16) then panic "tree_search"
          else
            let de := dec_dirent d in
            if negb add then
              if namecmp (de_name de) name =? 0 then Ret (Some (Some off, de_inum de))
              else ts_loop fuel dp name add (off + 16) next
            else if de_inum de =? 0 then Ret (Some (Some off, 0))
            else ts_loop fuel dp name add (off + 16) next
  end.

(** The offset stored through [poff], if any, and [de->inum]. *)
Definition tree_search (dp : nat) (name : bytes) (add : bool) : M (option Z * Z) :=
  match BKDRHash name with
  | None => WrongP "unterminated name"
  | Some hash_value =>
      let tree_node_off := u32 (hash_value * 16 * 16) in
      let tree_next_node_off := u32 ((hash_value + 1) * 16 * 16) in
      if MAXFSIZE <? tree_node_off then panic "off bigger than MAXFSSIZE"
      else
        r <- ts_loop 16 dp name add tree_node_off tree_next_node_off;
        match r with
        | Some res => Ret res
        | None =>
            r <- ts_loop 128 dp name add (113 * BSIZE) (115 * BSIZE);
            match r with
            | Some res => Ret res
            | None => Ret (None, 0)
            end
        end
  end.

(** The first two entries, for "." and "..". *)
Fixpoint lookup_linear (fuel : nat) (dp : nat) (name : bytes) (off limit : Z) : M (option (nat * Z)) :=
  match fuel with
  | O => WrongP "dirlookup: fuel"
  | S fuel =>
      if negb (off <? limit) then Ret None
      else
        '(r, d) <- readi dp KernDst off 16;
        if negb (r =? 16) then panic "dirlookup read"
        else
          let de := dec_dirent d in
          if negb (de_inum de =? 0) && (namecmp name (de_name de) =? 0) then
            i <- geti dp;
            ip <- iget (i_dev i) (de_inum de);
            Ret (Some (ip, off))
          else lookup_linear fuel dp name (off + 16) limit
  end.

(** The inode found and the offset of its entry. *)
Definition dirlookup (dp : nat) (name : bytes) : M (option (nat * Z)) :=
  i <- geti dp;
  if negb (i_type i =? T_DIR) then panic "dirlookup not DIR"
  else if negb (namecmp name str_dot =? 0) && negb (namecmp name str_dotdot =? 0) then
    '(poff, inum) <- tree_search dp name false;
    if negb (inum =? 0) then
      ip <- iget (i_dev i) inum;
      match poff with
      | Some off => Ret (Some (ip, off))
      | None => WrongP "offset not set"
      end
    else Ret None
  else lookup_linear 3 dp name 0 32.

Definition dirlookup_old (dp : nat) (name : bytes) : M (option (nat * Z)) :=
  i <- geti dp;
  if negb (i_type i =? T_DIR) then panic "dirlookup not DIR"
  else lookup_linear (S (Z.to_nat (i_size i / 16 + 1))) dp name 0 (i_size i).

Definition dirlink (dp : nat) (name : bytes) (inum : Z) : M Z :=
  found <- dirlookup dp name;
  match found with
  | Some (ip, _) => iput ip;; Ret (-1)
  | None =>
      '(poff, _) <- tree_search dp name true;
      let off := match poff with Some o => o | None => 0 end in
      let de := mkDe (u16 inum) (strncpy name DIRSIZ) in
      r <- writei dp (KernSrc (enc_dirent de)) off 16;
      if negb (r =? 16) then panic "dirlink" else Ret 0
  end.

(** One of the two halves of build_dir_tree. *)
Definition init_entry (dp : nat) (off : Z) (name : bytes) (inum : Z) : M unit :=
  '(r, _) <- readi dp KernDst off 16;
  if negb (r =? 16) then panic "dirinit read"
  else
    r <- writei dp (KernSrc (enc_dirent (mkDe (u16 inum) (strncpy name DIRSIZ)))) off 16;
    if negb (r =? 16) then panic "dirinit write" else Ret tt.

Definition build_dir_tree (dp : nat) (pinum : Z) : M unit :=
  modi dp (i_set_size 32);;
  iupdate dp;;
  i <- geti dp;
  init_entry dp 0 str_dot (i_inum i);;
  init_entry dp 16 str_dotdot pinum.

(** ** Paths *)

Fixpoint skip_slashes (path : bytes) : bytes :=
  match path with
  | c :: rest => if c =? 47 then skip_slashes rest else path
  | [] => []
  end.

(** The characters up to the next slash or NUL, and the rest. *)
Fixpoint take_elem (path : bytes) : bytes * bytes :=
  match path with
  | c :: rest =>
      if (c =? 47) || (c =? 0) then ([], path)
      else let '(e, r) := take_elem rest in (c :: e, r)
  | [] => ([], [])
  end.

(** [None] is the null pointer; the second component is what [name] holds. *)
Definition skipelem (path : bytes) : option (bytes * bytes) :=
  let path := skip_slashes path in
  if getb 0 path =? 0 then None
  else
    let '(e, rest) := take_elem path in
    let name := if DIRSIZ <=? zlen e then take (Z.to_nat DIRSIZ) e else e ++ [0] in
    Some (skip_slashes rest, name).

Fixpoint namex_loop (fuel : nat) (ip : nat) (path : bytes) (nameiparent : bool) (name : bytes)
  : M (option (nat * bytes)) :=
  match fuel with
  | O => WrongP "namex: fuel"
  | S fuel =>
      match skipelem path with
      | None => if nameiparent then iput ip;; Ret None else Ret (Some (ip, name))
      | Some (path, name) =>
          ilock (Some ip);;
          i <- geti ip;
          if negb (i_type i =? T_DIR) then iunlockput ip;; Ret None
          else if nameiparent && (getb 0 path =? 0) then
            iunlock (Some ip);;
            Ret (Some (ip, name))
          else
            next <- dirlookup ip name;
            match next with
            | None => iunlockput ip;; Ret None
            | Some (next, _) =>
                iunlockput ip;;
                namex_loop fuel next path nameiparent name
            end
      end
  end.

Definition namex (path : bytes) (nameiparent : bool) : M (option (nat * bytes)) :=
  ip <- (if getb 0 path =? 47 then iget ROOTDEV ROOTINO
         else
           p <- myproc;
           match p_cwd p with
           | Some cwd => idup cwd
           | None => WrongP "no current directory"
           end);
  namex_loop (S (length path)) ip path nameiparent [].

Definition namei (path : bytes) : M (option nat) :=
  r <- namex path false;
  Ret (match r with Some (ip, _) => Some ip | None => None end).

Definition nameiparent (path : bytes) : M (option (nat * bytes)) := namex path true.

(** A link's target must hold a NUL within the buffer. *)
Fixpoint divesymlink_loop (fuel : nat) (ip : nat) (deep : Z) : M (option nat) :=
  match fuel with
  | O => WrongP "divesymlink: fuel"
  | S fuel =>
      '(len, path) <- readi ip KernDst 0 MAXPATH;
      '(r, _) <- readi ip KernDst (u32 len) (MAXPATH + 1);
      if negb (r =? 0) then panic "divesymlink : short read"
      else
        iunlockput ip;;
        if 10 <? deep + 1 then Ret None
        else if negb (existsb (Z.eqb 0) path) then WrongP "unterminated path"
        else
          o <- namei path;
          match o with
          | None => Ret None
          | Some ip =>
              ilock (Some ip);;
              i <- geti ip;
              if i_type i =? T_SYMLINK then divesymlink_loop fuel ip (deep + 1)
              else Ret (Some ip)
          end
  end.
Definition divesymlink (isym : nat) : M (option nat) := divesymlink_loop 11 isym 0.
