(* ===== verification/DirSpec.v ===== *)
(** * Directories as hash tables

    The probe sequence of a name is its bucket followed by the overflow area.
    tree_search is the first match (or the first free slot) of that sequence;
    a name linked by dirlink is found again, and no other name changes. *)
From S2P Require Import Prelude Str Bio Log Crash Machine Types Vm Codec Ld Balloc Inode Bmap Imap Rw Dir.
Local Open Scope prog_scope.

(** The entry at byte offset [off] of a directory. *)
Definition dent (v : ldisk) (addrs : list Z) (off : Z) : dirent := dec_dirent (fsub v addrs off 16).

(** What one pass of tree_search returns, by the entries [e] of a directory
    of [size] bytes. *)
Fixpoint pass (e : Z -> dirent) (size : Z) (name : bytes) (add : bool) (fuel : nat) (off : Z) : option (option Z * Z) :=
  match fuel with
  | O => None
  | S fuel =>
      if size <=? off then Some (None, 0)
      else if negb add then
        if namecmp (de_name (e off)) name =? 0 then Some (Some off, de_inum (e off))
        else pass e size name add fuel (off + 16)
      else if de_inum (e off) =? 0 then Some (Some off, 0)
      else pass e size name add fuel (off + 16)
  end.

(** Two passes, over [n1] slots from [o1] and [n2] slots from [o2]; in
    tree_search these are the bucket of hash [h] and the overflow area. *)
Definition two_passes (n1 : nat) (o1 : Z) (n2 : nat) (o2 : Z) (e : Z -> dirent) (size : Z) (name : bytes)
    (add : bool) : option Z * Z :=
  match pass e size name add n1 o1 with
  | Some r => r
  | None => match pass e size name add n2 o2 with
            | Some r => r
            | None => (None, 0)
            end
  end.
Definition search (e : Z -> dirent) (size : Z) (name : bytes) (add : bool) (h : Z) : option Z * Z :=
  two_passes 16 (256 * h) 128 (113 * BSIZE) e size name add.

(** A directory in the inode table. *)
Record dir_ok (k : kst) (v : ldisk) (dp : nat) : Prop := {
  do_file : file_ok k v dp;
  do_type : i_type (inode_at k dp) = T_DIR;
  do_size : i_size (inode_at k dp) mod 16 = 0
}.

Definition dsize (k : kst) (dp : nat) : Z := i_size (inode_at k dp).
Definition dents (k : kst) (v : ldisk) (dp : nat) : Z -> dirent := dent v (i_addrs (inode_at k dp)).

(** ** Lemmas: the hash *)

Lemma BKDR_loop_term s h : 0 ∈ s -> exists x, BKDR_loop s h = Some x.
Proof.
  revert h. induction s as [|c s IH]; intros h Hin; [by apply not_elem_of_nil in Hin|]. cbn [BKDR_loop].
  destruct (Z.eqb_spec c 0); [eauto|]. apply IH. by apply elem_of_cons in Hin as [?|?].
Qed.

Lemma BKDRHash_range s h : BKDRHash s = Some h -> 16 <= h <= 458.
Proof.
  unfold BKDRHash. destruct (BKDR_loop s 0) as [x|]; [|done]. intros ?. simplify_eq.
  pose proof (Z.mod_pos_bound x 443). lia.
Qed.

Lemma BKDR_loop_cstr s h : 0 ∈ s -> BKDR_loop s h = BKDR_loop (cstr s ++ [0]) h.
Proof.
  revert h. induction s as [|c s IH]; intros h Hin; [by apply not_elem_of_nil in Hin|]. cbn [BKDR_loop cstr].
  destruct (Z.eqb_spec c 0); [done|]. cbn [app BKDR_loop]. destruct (Z.eqb_spec c 0); [done|].
  apply IH. by apply elem_of_cons in Hin as [?|?].
Qed.

(** ** Lemmas: tree_search is [search] *)

Lemma dir_read k v dp off :
  rd_ok k v -> (forall b, length (blk v b) = Z.to_nat BSIZE) -> dir_ok k v dp ->
  0 <= off < dsize k dp -> off mod 16 = 0 ->
  run hA (readi dp KernDst off 16) (k, v) = Ok (16, fsub v (i_addrs (inode_at k dp)) off 16) (k, v).
Proof.
  intros R Hl D Ho Hm. pose proof (fk_size _ _ _ (do_file _ _ _ D)). pose proof (do_size _ _ _ D).
  unfold dsize in *. pose proof (Z.div_mod off 16). pose proof (Z.div_mod (i_size (inode_at k dp)) 16).
  assert (E : Z.min 16 (i_size (inode_at k dp) - off) = 16) by lia.
  rewrite readi_run; try done; try lia; [by rewrite E|apply D].
Qed.

Lemma ts_loop_run fuel k v dp name add off :
  rd_ok k v -> (forall b, length (blk v b) = Z.to_nat BSIZE) -> dir_ok k v dp -> 0 <= off -> off mod 16 = 0 ->
  (add = true -> off + 16 * Z.of_nat fuel <= dsize k dp) ->
  run hA (ts_loop fuel dp name add off (off + 16 * Z.of_nat fuel)) (k, v)
  = Ok (pass (dents k v dp) (dsize k dp) name add fuel off) (k, v).
Proof.
  intros R Hl D. revert off. induction fuel as [|fuel IH]; intros off Ho Hm Hadd; [done|].
  cbn [ts_loop pass]. destruct (Z.ltb_spec off (off + 16 * Z.of_nat (S fuel))); [cbn [negb]|lia].
  rewrite run_bind, run_geti. fold (dsize k dp). destruct (Z.leb_spec (dsize k dp) off) as [Hs|Hs].
  { destruct add; [specialize (Hadd eq_refl); lia|done]. }
  rewrite run_bind. cbn [run]. cbv iota. rewrite run_bind, dir_read by done. cbv beta iota.
  change (16 =? 16) with true. cbn [negb]. fold (dent v (i_addrs (inode_at k dp)) off). fold (dents k v dp off).
  assert (Hm' : (off + 16) mod 16 = 0) by (rewrite <- Z.add_mod_idemp_r by lia; by rewrite Z_mod_same_full, Z.add_0_r).
  replace (off + 16 * Z.of_nat (S fuel)) with (off + 16 + 16 * Z.of_nat fuel) in * by lia.
  destruct add; cbn [negb].
  - destruct (de_inum (dents k v dp off) =? 0); [done|]. apply IH; [lia|done|done].
  - destruct (namecmp (de_name (dents k v dp off)) name =? 0); [done|]. apply IH; [lia|done|done].
Qed.

Lemma tree_search_run k v dp name add h :
  rd_ok k v -> (forall b, length (blk v b) = Z.to_nat BSIZE) -> dir_ok k v dp -> BKDRHash name = Some h ->
  (add = true -> 256 * h + 256 <= dsize k dp /\
     (pass (dents k v dp) (dsize k dp) name true 16 (256 * h) = None -> 115 * BSIZE <= dsize k dp)) ->
  run hA (tree_search dp name add) (k, v) = Ok (search (dents k v dp) (dsize k dp) name add h) (k, v).
Proof.
  intros R Hl D Hh Hadd. pose proof (BKDRHash_range name h Hh) as Hr. unfold tree_search. rewrite Hh. cbv zeta.
  rewrite !u32_id by (unfold is_u32; lia). destruct (Z.ltb_spec (119 * 1024) (h * 16 * 16)); [lia|].
  pose proof (ts_loop_run 16 k v dp name add (256 * h) R Hl D) as E1.
  pose proof (ts_loop_run 128 k v dp name add (113 * BSIZE) R Hl D) as E2.
  replace (h * 16 * 16) with (256 * h) by lia. replace ((h + 1) * 16 * 16) with (256 * h + 16 * Z.of_nat 16) by lia.
  change (115 * BSIZE) with (113 * BSIZE + 16 * Z.of_nat 128) in *.
  assert (Hm : (256 * h) mod 16 = 0) by (replace (256 * h) with ((16 * h) * 16) by lia; by apply Z.mod_mul).
  rewrite run_bind, E1; [|lia|done|intros Ha; destruct (Hadd Ha); lia]. unfold search, two_passes.
  destruct (pass (dents k v dp) (dsize k dp) name add 16 (256 * h)) as [r|] eqn:Ep; [exact eq_refl|].
  rewrite run_bind, E2; [|lia|exact eq_refl|intros Ha; subst add; apply (Hadd eq_refl), Ep].
  destruct (pass (dents k v dp) (dsize k dp) name add 128 (113 * BSIZE)); exact eq_refl.
Qed.

(** ** Lemmas: probe sequences *)

Definition matches (e : dirent) (name : bytes) : bool := namecmp (de_name e) name =? 0.

Section Pass.
  Context (e : Z -> dirent) (size : Z) (name : bytes).

Lemma pass_find_None fuel off : pass e size name false fuel off = None ->
  forall i, (i < fuel)%nat -> off + 16 * Z.of_nat i < size /\ matches (e (off + 16 * Z.of_nat i)) name = false.
Proof.
  revert off. induction fuel as [|fuel IH]; intros off H i Hi; [lia|]. cbn [pass negb] in H.
  destruct (Z.leb_spec size off); [done|]. destruct (namecmp (de_name (e off)) name =? 0) eqn:E; [done|].
  destruct i as [|i]; [replace (off + 16 * Z.of_nat 0) with off by lia; done|].
  replace (off + 16 * Z.of_nat (S i)) with (off + 16 + 16 * Z.of_nat i) by lia. apply IH; [done|lia].
Qed.

Lemma pass_find_stop fuel off x : pass e size name false fuel off = Some (None, x) ->
  exists j, (j < fuel)%nat /\ size <= off + 16 * Z.of_nat j /\ x = 0 /\
    forall i, (i < j)%nat -> off + 16 * Z.of_nat i < size /\ matches (e (off + 16 * Z.of_nat i)) name = false.
Proof.
  revert off. induction fuel as [|fuel IH]; intros off H; [done|]. cbn [pass negb] in H.
  destruct (Z.leb_spec size off).
  { exists 0%nat. simplify_eq. split; [lia|]. split; [lia|]. split; [done|]. intros; lia. }
  destruct (namecmp (de_name (e off)) name =? 0) eqn:E; [done|].
  destruct (IH _ H) as (j & H1 & H2 & H3 & H4). exists (S j). split; [lia|]. split; [lia|]. split; [done|].
  intros [|i] Hi; [replace (off + 16 * Z.of_nat 0) with off by lia; done|].
  replace (off + 16 * Z.of_nat (S i)) with (off + 16 + 16 * Z.of_nat i) by lia. apply H4. lia.
Qed.

Lemma pass_find_hit fuel off j :
  (j < fuel)%nat -> off + 16 * Z.of_nat j < size -> matches (e (off + 16 * Z.of_nat j)) name = true ->
  (forall i, (i < j)%nat -> matches (e (off + 16 * Z.of_nat i)) name = false) ->
  pass e size name false fuel off = Some (Some (off + 16 * Z.of_nat j), de_inum (e (off + 16 * Z.of_nat j))).
Proof.
  revert off j. induction fuel as [|fuel IH]; intros off j Hj Hs Hm Hb; [lia|]. cbn [pass negb].
  destruct (Z.leb_spec size off); [lia|]. destruct j as [|j].
  - replace (off + 16 * Z.of_nat 0) with off in * by lia. unfold matches in Hm. by rewrite Hm.
  - pose proof (Hb 0%nat ltac:(lia)) as H0. replace (off + 16 * Z.of_nat 0) with off in H0 by lia.
    unfold matches in H0. rewrite H0. replace (off + 16 * Z.of_nat (S j)) with (off + 16 + 16 * Z.of_nat j) in * by lia.
    apply IH; [lia|done|done|]. intros i Hi. specialize (Hb (S i) ltac:(lia)).
    by replace (off + 16 * Z.of_nat (S i)) with (off + 16 + 16 * Z.of_nat i) in Hb by lia.
Qed.

Lemma pass_find_miss fuel off :
  (forall i, (i < fuel)%nat -> off + 16 * Z.of_nat i < size /\ matches (e (off + 16 * Z.of_nat i)) name = false) ->
  pass e size name false fuel off = None.
Proof.
  revert off. induction fuel as [|fuel IH]; intros off H; [done|]. cbn [pass negb].
  destruct (H 0%nat ltac:(lia)) as [H1 H2]. replace (off + 16 * Z.of_nat 0) with off in * by lia.
  destruct (Z.leb_spec size off); [lia|]. unfold matches in H2. rewrite H2. apply IH. intros i Hi.
  specialize (H (S i) ltac:(lia)). by replace (off + 16 * Z.of_nat (S i)) with (off + 16 + 16 * Z.of_nat i) in H by lia.
Qed.

Lemma pass_add_hit fuel off s x : pass e size name true fuel off = Some (Some s, x) ->
  exists j, (j < fuel)%nat /\ s = off + 16 * Z.of_nat j /\ s < size /\ de_inum (e s) = 0.
Proof.
  revert off. induction fuel as [|fuel IH]; intros off H; [done|]. cbn [pass negb] in H.
  destruct (Z.leb_spec size off); [done|]. destruct (Z.eqb_spec (de_inum (e off)) 0) as [E|E].
  - simplify_eq. exists 0%nat. split; [lia|]. split; [lia|]. done.
  - destruct (IH _ H) as (j & H1 & H2 & H3). exists (S j). split; [lia|]. split; [lia|done].
Qed.

Lemma pass_add_None fuel off : pass e size name true fuel off = None ->
  forall i, (i < fuel)%nat -> de_inum (e (off + 16 * Z.of_nat i)) <> 0.
Proof.
  revert off. induction fuel as [|fuel IH]; intros off H i Hi; [lia|]. cbn [pass negb] in H.
  destruct (Z.leb_spec size off); [done|]. destruct (Z.eqb_spec (de_inum (e off)) 0) as [E|E]; [done|].
  destruct i as [|i]; [by replace (off + 16 * Z.of_nat 0) with off by lia|].
  replace (off + 16 * Z.of_nat (S i)) with (off + 16 + 16 * Z.of_nat i) by lia. apply IH; [done|lia].
Qed.
End Pass.

(** Two directories that agree on the matches of a name answer alike. *)
Lemma pass_find_ext e e' size name fuel off :
  (forall i, (i < fuel)%nat -> off + 16 * Z.of_nat i < size ->
     matches (e' (off + 16 * Z.of_nat i)) name = matches (e (off + 16 * Z.of_nat i)) name /\
     (matches (e (off + 16 * Z.of_nat i)) name = true -> e' (off + 16 * Z.of_nat i) = e (off + 16 * Z.of_nat i))) ->
  pass e' size name false fuel off = pass e size name false fuel off.
Proof.
  revert off. induction fuel as [|fuel IH]; intros off H; [done|]. cbn [pass negb].
  destruct (Z.leb_spec size off) as [|Hlt]; [done|].
  destruct (H 0%nat ltac:(lia)) as [H1 H2]; [lia|]. replace (off + 16 * Z.of_nat 0) with off in * by lia.
  unfold matches in *. rewrite H1. destruct (namecmp (de_name (e off)) name =? 0); [by rewrite H2|].
  apply IH. intros i Hi Hs. specialize (H (S i) ltac:(lia)).
  replace (off + 16 * Z.of_nat (S i)) with (off + 16 + 16 * Z.of_nat i) in H by lia. by apply H.
Qed.

(** ** Lemmas: linking a name *)

Lemma slot_aligned a i : a mod 16 = 0 -> (a + 16 * Z.of_nat i) mod 16 = 0.
Proof. intros Ha. rewrite (Z.mul_comm 16), Z.mod_add by lia. done. Qed.

Lemma slot_in_block s : s mod 16 = 0 -> s mod BSIZE <= 1008.
Proof.
  intros H. pose proof (Z.div_mod s 16). pose proof (Z.div_mod s BSIZE). pose proof (Z.mod_pos_bound s BSIZE). lia.
Qed.

Section Link.
  Context (n1 n2 : nat) (o1 o2 : Z) (e e' : Z -> dirent) (size : Z) (name : bytes) (s x : Z).
  Context (Hb : o1 + 16 * Z.of_nat n1 <= size).
  (** Entries that carry the name are in use, and there is none. *)
  Context (Hwf : forall o, 0 <= o < size -> o mod 16 = 0 -> matches (e o) name = true -> de_inum (e o) <> 0).
  Context (Habs : snd (two_passes n1 o1 n2 o2 e size name false) = 0).
  Context (Hadd : two_passes n1 o1 n2 o2 e size name true = (Some s, x)).
  Context (Hnew : matches (e' s) name = true).
  Context (Hold : forall o, 0 <= o < size -> o mod 16 = 0 -> o <> s -> e' o = e o).
  Context (P1 : 0 <= o1) (P2 : 0 <= o2) (M1 : o1 mod 16 = 0) (M2 : o2 mod 16 = 0).

Lemma hit_used fuel off o y : 0 <= off -> off mod 16 = 0 -> pass e size name false fuel off = Some (Some o, y) -> y <> 0.
Proof.
  revert off. induction fuel as [|fuel IH]; intros off Hp Hm H; [done|]. cbn [pass negb] in H.
  destruct (Z.leb_spec size off); [done|]. destruct (namecmp (de_name (e off)) name =? 0) eqn:E.
  - simplify_eq. apply Hwf; [lia|done|]. exact E.
  - apply (IH (off + 16)); [lia| |done]. by apply (slot_aligned off 1).
Qed.

Lemma absent_bucket : pass e size name false n1 o1 = None.
Proof.
  unfold two_passes in Habs. destruct (pass e size name false n1 o1) as [[[o|] y]|] eqn:E; [| |done].
  - simpl in Habs. by apply hit_used in E.
  - apply pass_find_stop in E as (j & H1 & H2 & _). lia.
Qed.

Lemma absent_overflow j : (j < n2)%nat -> o2 + 16 * Z.of_nat j < size ->
  forall i, (i <= j)%nat -> matches (e (o2 + 16 * Z.of_nat i)) name = false.
Proof.
  intros Hj Hs i Hi. unfold two_passes in Habs. rewrite absent_bucket in Habs.
  destruct (pass e size name false n2 o2) as [[[o|] y]|] eqn:E.
  - simpl in Habs. by apply hit_used in E.
  - apply pass_find_stop in E as (j' & H1 & H2 & _ & H4). apply H4. lia.
  - apply (pass_find_None _ _ _ _ _ E i). lia.
Qed.

Lemma two_passes_link : two_passes n1 o1 n2 o2 e' size name false = (Some s, de_inum (e' s)).
Proof.
  pose proof (pass_find_None _ _ _ _ _ absent_bucket) as Hbk. unfold two_passes in Hadd |- *.
  destruct (pass e size name true n1 o1) as [r|] eqn:E1.
  - subst r. destruct (pass_add_hit _ _ _ _ _ _ _ E1) as (j & Hj & Es & Hs & H0).
    pose proof (pass_find_hit e' size name n1 o1 j Hj) as P. rewrite <- Es in P. rewrite P; try done.
    intros i Hi. rewrite Hold by (by apply slot_aligned || lia). apply Hbk. lia.
  - pose proof (pass_add_None _ _ _ _ _ E1) as Hfull.
    destruct (pass e size name true n2 o2) as [r|] eqn:E2; [subst r|done].
    destruct (pass_add_hit _ _ _ _ _ _ _ E2) as (j & Hj & Es & Hs & H0).
    rewrite (pass_find_miss e' size name n1 o1).
    + pose proof (pass_find_hit e' size name n2 o2 j Hj) as P. rewrite <- Es in P. rewrite P; try done.
      intros i Hi. rewrite Hold by (by apply slot_aligned || lia). apply (absent_overflow j); lia.
    + intros i Hi. split; [apply (Hbk i Hi)|]. rewrite Hold; [apply (Hbk i Hi)|lia|by apply slot_aligned|].
      intros E. rewrite <- E in H0. by apply (Hfull i Hi).
Qed.

(** The slot is a free entry inside the directory. *)
Lemma two_passes_slot : 0 <= s < size /\ s mod 16 = 0 /\ de_inum (e s) = 0.
Proof.
  unfold two_passes in Hadd.
  destruct (pass e size name true n1 o1) as [r|] eqn:E1.
  - subst r. destruct (pass_add_hit _ _ _ _ _ _ _ E1) as (j & Hj & Es & Hs & H0).
    split; [lia|]. split; [|done]. rewrite Es. by apply slot_aligned.
  - destruct (pass e size name true n2 o2) as [r|] eqn:E2; [subst r|done].
    destruct (pass_add_hit _ _ _ _ _ _ _ E2) as (j & Hj & Es & Hs & H0).
    split; [lia|]. split; [|done]. rewrite Es. by apply slot_aligned.
Qed.
End Link.

(** Another name's answer does not change when the slot neither carried that
    name before nor carries it now. *)
Lemma two_passes_other n1 o1 n2 o2 e e' size name s :
  0 <= o1 -> 0 <= o2 -> o1 mod 16 = 0 -> o2 mod 16 = 0 ->
  (forall o, 0 <= o < size -> o mod 16 = 0 -> o <> s -> e' o = e o) ->
  matches (e s) name = false -> matches (e' s) name = false ->
  two_passes n1 o1 n2 o2 e' size name false = two_passes n1 o1 n2 o2 e size name false.
Proof.
  intros P1 P2 M1 M2 Hold H1 H2.
  assert (P : forall fuel off, 0 <= off -> off mod 16 = 0 -> pass e' size name false fuel off = pass e size name false fuel off).
  { intros fuel off Ho Hm. apply pass_find_ext. intros i Hi Hs.
    destruct (decide (off + 16 * Z.of_nat i = s)) as [->|N]; [by rewrite H1, H2|].
    rewrite Hold; [done|lia|by apply slot_aligned|done]. }
  unfold two_passes. by rewrite !P.
Qed.

(** Names are compared up to [DIRSIZ] characters. *)
Lemma matches_spec e name :
  matches e name = true <-> take (Z.to_nat DIRSIZ) (cstr (de_name e)) = take (Z.to_nat DIRSIZ) (cstr name).
Proof. unfold matches, namecmp, strncmp. rewrite Z.eqb_eq. apply strncmp_loop_eq. Qed.

Lemma matches_linked inum name name' :
  matches (mkDe inum (strncpy name DIRSIZ)) name' = true
  <-> take (Z.to_nat DIRSIZ) (cstr name) = take (Z.to_nat DIRSIZ) (cstr name').
Proof.
  rewrite matches_spec. cbn [de_name]. unfold strncpy. rewrite cstr_strncpy, take_idemp. done.
Qed.

(** ** Lemmas: dirlookup and dirlink *)

Definition proper_name (name : bytes) : Prop :=
  namecmp name str_dot <> 0 /\ namecmp name str_dotdot <> 0.

Lemma dirlookup_run k v dp name h :
  rd_ok k v -> (forall b, length (blk v b) = Z.to_nat BSIZE) -> dir_ok k v dp -> BKDRHash name = Some h ->
  proper_name name ->
  run hA (dirlookup dp name) (k, v) =
  (let '(poff, inum) := search (dents k v dp) (dsize k dp) name false h in
   if negb (inum =? 0) then
     run hA (ip <- iget (i_dev (inode_at k dp)) inum;
             match poff with Some off => Ret (Some (ip, off)) | None => WrongP "offset not set" end) (k, v)
   else Ok None (k, v)).
Proof.
  intros R Hl D Hh [P1 P2]. unfold dirlookup. rewrite run_bind, run_geti, (do_type _ _ _ D).
  change (1 =? 1) with true. cbn [negb]. rewrite (proj2 (Z.eqb_neq _ 0) P1), (proj2 (Z.eqb_neq _ 0) P2). cbn [negb andb].
  rewrite run_bind, (tree_search_run k v dp name false h) by done.
  destruct (search _ _ _ _ _) as [poff inum]. by destruct (inum =? 0).
Qed.

(** A directory's entries after sixteen bytes were written at [s]. *)
Lemma dents_written b k v dp s data k' v' :
  file_ok k v dp -> 0 <= s -> s mod 16 = 0 -> s + 16 <= dsize k dp -> zlen data = 16 ->
  wrote b k v dp s 16 data k' v' ->
  dsize k' dp = dsize k dp /\
  dents k' v' dp s = dec_dirent data /\
  forall o, 0 <= o < dsize k dp -> dsize k dp mod 16 = 0 -> o mod 16 = 0 -> o <> s -> dents k' v' dp o = dents k v dp o.
Proof.
  intros Fk Hs0 Hsm Hs Hd W. unfold dsize, dents in *.
  assert (Hmax : Z.max (i_size (inode_at k dp)) (s + 16) = i_size (inode_at k dp)) by lia.
  pose proof (wt_byte _ _ _ _ _ _ _ _ _ W) as Hb. rewrite Hmax in Hb.
  split; [destruct (wt_inode _ _ _ _ _ _ _ _ _ W) as [a ->]; cbn; lia|]. split.
  - unfold dent. f_equal. apply list_eq. intros i. unfold fsub. rewrite list_lookup_fmap.
    destruct (decide (i < 16)%nat) as [Hi|Hi].
    + rewrite lookup_seqZ_lt by lia. simpl. rewrite Hb by lia. rewrite decide_True by lia.
      rewrite (lookup_nth data i 0) by (unfold zlen in Hd; lia). unfold getb. f_equal. f_equal. lia.
    + rewrite lookup_seqZ_ge by lia. rewrite lookup_ge_None_2 by (unfold zlen in Hd; lia). done.
  - intros o Ho Hsz Hm Hne. unfold dent. f_equal. unfold fsub. apply map_ext_in. intros j Hj.
    apply list_elem_of_In, elem_of_seqZ in Hj.
    pose proof (Z.div_mod o 16). pose proof (Z.div_mod s 16). pose proof (Z.div_mod (i_size (inode_at k dp)) 16).
    rewrite Hb by lia. by rewrite decide_False by lia.
Qed.

(** Free entries carry no name: unlink clears the whole entry and fresh
    blocks are zero. *)
Definition free_blank (k : kst) (v : ldisk) (dp : nat) : Prop :=
  forall o, 0 <= o < dsize k dp -> o mod 16 = 0 -> de_inum (dents k v dp o) = 0 -> cstr (de_name (dents k v dp o)) = [].

Lemma blank_used k v dp name o :
  free_blank k v dp -> cstr name <> [] -> 0 <= o < dsize k dp -> o mod 16 = 0 ->
  matches (dents k v dp o) name = true -> de_inum (dents k v dp o) <> 0.
Proof.
  intros B Hn Ho Hm Hmt H0. apply matches_spec in Hmt. rewrite (B o Ho Hm H0), take_nil in Hmt.
  apply Hn. destruct (cstr name); [done|]. discriminate.
Qed.

(** A name linked into a directory: its slot is a free entry, holds the new
    entry afterwards, and every other slot keeps its contents. *)
Record linked (k : kst) (v : ldisk) (dp : nat) (name : bytes) (inum h : Z) (k' : kst) (v' : ldisk) : Prop := {
  ln_ok : fs_ok k' v';
  ln_dir : dir_ok k' v' dp;
  ln_ext : ext 17 v v';
  ln_size : dsize k' dp = dsize k dp;
  ln_slot : exists s, 0 <= s < dsize k dp /\ s mod 16 = 0 /\ de_inum (dents k v dp s) = 0 /\
    dents k' v' dp s = mkDe inum (strncpy name DIRSIZ) /\
    search (dents k' v' dp) (dsize k dp) name false h = (Some s, inum) /\
    forall o, 0 <= o < dsize k dp -> o mod 16 = 0 -> o <> s -> dents k' v' dp o = dents k v dp o
}.

(** What dirlink needs: the name is free and its bucket or the overflow area
    has a free slot. *)
Record linkable (k : kst) (v : ldisk) (dp : nat) (name : bytes) (inum h : Z) : Prop := {
  la_fs : fs_ok k v;
  la_dir : dir_ok k v dp;
  la_inum : inum_ok k dp;
  la_name : proper_name name;
  la_hash : BKDRHash name = Some h;
  la_bucket : 256 * h + 256 <= dsize k dp;
  la_overflow : pass (dents k v dp) (dsize k dp) name true 16 (256 * h) = None -> 115 * BSIZE <= dsize k dp;
  la_blank : free_blank k v dp;
  la_nonempty : cstr name <> [];
  la_absent : snd (search (dents k v dp) (dsize k dp) name false h) = 0;
  la_free : is_Some (fst (search (dents k v dp) (dsize k dp) name true h));
  la_val : 0 < inum < 2 ^ 16;
  la_room : room 17 v;
  la_blocks : 16 <= sb_freeblocks (k_sb k)
}.

Lemma dir_ok_wrote b k v dp s data k' v' :
  dir_ok k v dp -> 0 <= s -> s + 16 <= dsize k dp -> wrote b k v dp s 16 data k' v' -> dir_ok k' v' dp.
Proof.
  intros D H0 Hs W. unfold dsize in Hs. destruct (wt_inode _ _ _ _ _ _ _ _ _ W) as [a E].
  split; [apply W|by rewrite E; apply D|]. rewrite E. cbn. rewrite Z.max_l by lia. apply D.
Qed.

Lemma search_eq e size name add h : search e size name add h = two_passes 16 (256 * h) 128 (113 * BSIZE) e size name add.
Proof. done. Qed.

Lemma bucket_aligned h : (256 * h) mod 16 = 0.
Proof. replace (256 * h) with ((16 * h) * 16) by lia. apply Z.mod_mul. lia. Qed.

Lemma search_slot e size name h s x : 16 <= h -> search e size name true h = (Some s, x) ->
  0 <= s < size /\ s mod 16 = 0 /\ de_inum (e s) = 0.
Proof.
  unfold search. generalize 16%nat, 128%nat. intros n1 n2 Hh E.
  apply (two_passes_slot n1 n2 (256 * h) (113 * BSIZE) e size name s x E); [lia|lia|apply bucket_aligned|done].
Qed.

Lemma search_link k v dp name inum h s x e' :
  linkable k v dp name inum h ->
  search (dents k v dp) (dsize k dp) name true h = (Some s, x) ->
  e' s = mkDe inum (strncpy name DIRSIZ) ->
  (forall o, 0 <= o < dsize k dp -> o mod 16 = 0 -> o <> s -> e' o = dents k v dp o) ->
  search e' (dsize k dp) name false h = (Some s, inum).
Proof.
  intros L E En Ho. pose proof (BKDRHash_range _ _ (la_hash _ _ _ _ _ _ L)) as Hh.
  pose proof (la_bucket _ _ _ _ _ _ L) as Hb. pose proof (la_absent _ _ _ _ _ _ L) as Ha.
  pose proof (fun o => blank_used k v dp name o (la_blank _ _ _ _ _ _ L) (la_nonempty _ _ _ _ _ _ L)) as Hu. replace 256 with (16 * Z.of_nat 16) in Hb at 2 by lia.
  rewrite search_eq in E, Ha |- *. revert E Ha Hb. generalize 16%nat, 128%nat. intros n1 n2 E Ha Hb.
  rewrite (two_passes_link n1 n2 (256 * h) (113 * BSIZE) (dents k v dp) e' (dsize k dp) name s x);
    [by rewrite En|done|done|done|done| |done|lia|lia|apply bucket_aligned|done].
  rewrite En. by apply matches_linked.
Qed.

Lemma dirlink_run k v dp name inum h :
  linkable k v dp name inum h ->
  exists k' v', run hA (dirlink dp name inum) (k, v) = Ok 0 (k', v') /\ linked k v dp name inum h k' v'.
Proof.
  intros L. pose proof (la_dir _ _ _ _ _ _ L) as D. pose proof (do_file _ _ _ D) as Fk. pose proof (la_fs _ _ _ _ _ _ L) as F.
  pose proof (BKDRHash_range _ _ (la_hash _ _ _ _ _ _ L)) as Hh. pose proof (la_val _ _ _ _ _ _ L) as Hv.
  assert (R : rd_ok k v) by (apply fs_rd; [done|]; apply (room_weaken 17); [apply L|lia]).
  assert (Hlen : forall b, length (blk v b) = Z.to_nat BSIZE) by apply F.
  destruct (search (dents k v dp) (dsize k dp) name true h) as [[s|] x] eqn:E2;
    [|destruct (la_free _ _ _ _ _ _ L) as [? ?]; by rewrite E2 in *].
  destruct (search_slot _ _ _ _ _ _ (proj1 Hh) E2) as (Hs & Hm & H0).
  pose proof (do_size _ _ _ D) as Hsz. pose proof (fk_size _ _ _ Fk) as Hf. fold (dsize k dp) in Hsz, Hf.
  pose proof (Z.div_mod s 16). pose proof (Z.div_mod (dsize k dp) 16).
  set (de := mkDe inum (strncpy name DIRSIZ)).
  assert (Hn : length (de_name de) = Z.to_nat DIRSIZ) by apply length_strncpy_loop.
  assert (Hz : zlen (enc_dirent de) = 16).
  { unfold zlen, enc_dirent. rewrite length_app, length_le_enc, Hn. done. }
  pose proof (Z.div_mod s BSIZE). pose proof (Z.mod_pos_bound s BSIZE).
  assert (Hb : s mod BSIZE <= 1008) by (apply slot_in_block; done).
  destruct (writei_run k v dp s 16 (enc_dirent de) 1) as (k' & v' & Ew & W); try done; try apply L; try lia.
  { unfold dsize in Hs. lia. }
  { vm_compute. lia. }
  destruct (dents_written _ _ _ _ _ _ _ _ Fk (proj1 Hs) Hm ltac:(lia) Hz W) as (Ws & Wn & Wo).
  rewrite dec_enc_dirent in Wn by (done || (simpl; lia)).
  exists k', v'. split.
  - unfold dirlink. rewrite run_bind, (dirlookup_run k v dp name h) by (done || apply L).
    pose proof (la_absent _ _ _ _ _ _ L) as Ha. destruct (search _ _ _ false h) as [p y]. simpl in Ha. subst y. cbn [Z.eqb negb].
    rewrite run_bind, (tree_search_run k v dp name true h); try done; try (intros _; split); try apply L. rewrite E2.
    unfold u16. rewrite Z.mod_small by lia. fold de. rewrite run_bind, Ew. done.
  - split; try apply W; try done.
    + by apply (dir_ok_wrote 17 k v dp s (enc_dirent de)); try lia.
    + exists s. split; [done|]. split; [done|]. split; [done|]. split; [done|].
      assert (Wo' : forall o, 0 <= o < dsize k dp -> o mod 16 = 0 -> o <> s -> dents k' v' dp o = dents k v dp o) by (intros; apply Wo; done).
      split; [|done]. by apply (search_link k v dp name inum h s x).
Qed.

Lemma linked_blank k v dp name inum h k' v' :
  free_blank k v dp -> 0 < inum -> linked k v dp name inum h k' v' -> free_blank k' v' dp.
Proof.
  intros B Hi Ln o Ho Hm H0. rewrite (ln_size _ _ _ _ _ _ _ _ Ln) in Ho.
  destruct (ln_slot _ _ _ _ _ _ _ _ Ln) as (s & _ & _ & _ & Es & _ & Hs).
  destruct (decide (o = s)) as [->|N]; [rewrite Es in H0; simpl in H0; lia|].
  rewrite Hs in H0 |- * by done. by apply B.
Qed.

(** Other names are answered as before. *)
Lemma linked_other k v dp name inum h k' v' name' h' :
  free_blank k v dp -> linked k v dp name inum h k' v' -> 16 <= h' -> cstr name' <> [] ->
  take (Z.to_nat DIRSIZ) (cstr name) <> take (Z.to_nat DIRSIZ) (cstr name') ->
  search (dents k' v' dp) (dsize k' dp) name' false h' = search (dents k v dp) (dsize k dp) name' false h'.
Proof.
  intros B Ln Hh Hn Hd. rewrite (ln_size _ _ _ _ _ _ _ _ Ln).
  destruct (ln_slot _ _ _ _ _ _ _ _ Ln) as (s & Hs & Hm & H0 & Es & _ & Ho).
  rewrite !search_eq. apply (two_passes_other _ _ _ _ _ _ _ _ s); [lia|lia|apply bucket_aligned|done|done| |].
  - destruct (matches (dents k v dp s) name') eqn:E; [|done]. exfalso. by apply (blank_used k v dp name' s).
  - rewrite Es. destruct (matches _ name') eqn:E; [|done]. exfalso. by apply matches_linked in E.
Qed.

Lemma linked_rd k v dp name inum h k' v' :
  linkable k v dp name inum h -> linked k v dp name inum h k' v' -> rd_ok k' v'.
Proof.
  intros L Ln. pose proof (ln_ok _ _ _ _ _ _ _ _ Ln) as F. pose proof (ln_ext _ _ _ _ _ _ _ _ Ln) as X.
  destruct (la_room _ _ _ _ _ _ L) as [R _]. pose proof (lk_size v (fo_lok _ _ (la_fs _ _ _ _ _ _ L))). split.
  - apply F.
  - apply F.
  - apply (dirty_nil v'); apply F.
  - pose proof (ex_len _ _ _ X). lia.
Qed.

(** ** Theorems *)

