(* ===== verification/Demo.v ===== *)
(** * A concrete file system

    A formatted disk of 200 blocks with one regular file and one directory,
    and the machine booted from it.  The theorems of the file-system files
    are applied to it here, so their hypotheses hold together. *)
From S2P Require Import Prelude Str Bio Log Crash Machine CrashFs Types Vm Codec Ld Balloc Inode Bmap Imap Rw FileSpec FileCrash Dir DirSpec.
Local Open Scope prog_scope.

(** Blocks: boot, superblock, log 2..46, inode bitmap 47, inodes 48..50,
    block bitmap 51, directory 52..56, file 57..58, free from 59 on. *)
Definition demo_sb : superblock := mkSb FSMAGIC 200 148 16 45 2 48 51 47 12 141.
Definition demo_file : inode :=
  mkI ROOTDEV 2 1 true 1 true T_FILE 0 0 1 2000 3 0 ([57; 58] ++ replicate 13 0) 1.
Definition demo_dir : inode :=
  mkI ROOTDEV 1 1 true 1 true T_DIR 0 0 1 5120 3 0 ([52; 53; 54; 55; 56] ++ replicate 10 0) 1.

Definition pad_block (l : bytes) : bytes := l ++ zeros (BSIZE - zlen l).
Definition demo_disk : gmap Z bytes := list_to_map [
  (1, pad_block (enc_sb demo_sb));
  (48, put_dinode (dioff 1) (di_of demo_dir) (put_dinode (dioff 2) (di_of demo_file) (zeros BSIZE)));
  (51, pad_block (replicate 7 255 ++ [7]));
  (47, pad_block [15]);
  (57, replicate 1024 1);
  (58, replicate 1024 2)
].
Definition demo_k : kst :=
  mkK demo_sb [demo_file; demo_dir] [] ∅ ∅ 0 0 [] 0 None 1 [].

(** The booted machine's logical disk, outside and inside a transaction. *)
Definition demo_v0 : ldisk := boot_ld demo_disk 2 45.
Definition demo_v : ldisk := set_out 1 demo_v0.

(** ** Lemmas *)

Lemma demo_good : good_disk demo_disk.
Proof.
  intros b. unfold dblk. destruct (demo_disk !! b) as [x|] eqn:E; [|done]. simpl.
  apply elem_of_list_to_map_2 in E. rewrite !elem_of_cons in E.
  destruct_or! E; try (injection E as -> ->; vm_compute; reflexivity). by apply not_elem_of_nil in E.
Qed.

Lemma demo_head : head_ok 2 45 (dblk demo_disk 2).
Proof. by apply head_ok_zero. Qed.

Lemma demo_boot : exists s, Log.initlog ROOTDEV 2 45 (boot demo_disk 1) = Ok tt s /\ Rel s demo_v0.
Proof. exact (boot_Rel demo_disk 1 2 45 demo_good ltac:(lia) demo_head). Qed.

Lemma demo_blk b : b <> 2 -> blk demo_v b = dblk demo_disk b.
Proof. intros Hb. change (dblk (rec_disk 2 demo_disk) b = dblk demo_disk b). by apply rec_disk_zero. Qed.

Lemma demo_len b : length (blk demo_v b) = Z.to_nat BSIZE.
Proof.
  destruct (decide (b = 2)) as [->|N]; [vm_compute; reflexivity|]. rewrite demo_blk by done. apply demo_good.
Qed.

Lemma demo_geom : geom_ok demo_sb.
Proof. split; vm_compute; repeat split; congruence. Qed.

Lemma demo_bits : forallb (fun b => bitof demo_v 51 b) (seqZ 0 59) = true.
Proof. vm_compute. reflexivity. Qed.

Lemma demo_bit b : 0 <= b < 59 -> bitof demo_v 51 b = true.
Proof.
  intros Hb. pose proof demo_bits as H. rewrite forallb_forall in H. apply H, list_elem_of_In, elem_of_seqZ. lia.
Qed.

Lemma demo_alloc : alloc_inv demo_k demo_v.
Proof.
  split.
  - exact demo_geom.
  - split; vm_compute; split; congruence.
  - done.
  - done.
  - vm_compute. reflexivity.
  - vm_compute. reflexivity.
  - vm_compute. reflexivity.
  - intros b Hb. apply demo_bit. unfold is_meta, in_log, in_inodes, in_bmap, in_ibmap, in_range in Hb.
    cbn [demo_k k_sb demo_sb sb_logstart sb_nlog sb_inodestart sb_bmapstart sb_ibmapstart sb_ninodes sb_size] in Hb.
    change (16 / IPB) with 2 in Hb. change (200 / BPB) with 0 in Hb. change (16 / BPB) with 0 in Hb. lia.
  - intros b Hb. by apply not_elem_of_nil in Hb.
Qed.

Lemma demo_fs : fs_ok demo_k demo_v.
Proof.
  split; [exact demo_alloc| |done]. split; [done|done| |exact demo_len].
  intros b Hb. by apply not_elem_of_nil in Hb.
Qed.

Lemma demo_data b : 52 <= b < 59 -> dblock demo_k demo_v b.
Proof.
  intros Hb. split; [cbn; lia|]. split; [|apply demo_bit; lia].
  unfold is_meta, in_log, in_inodes, in_bmap, in_ibmap, in_range.
  cbn [demo_k k_sb demo_sb sb_logstart sb_nlog sb_inodestart sb_bmapstart sb_ibmapstart sb_ninodes sb_size].
  change (16 / IPB) with 2. change (200 / BPB) with 0. change (16 / BPB) with 0. lia.
Qed.

Lemma demo_trees : itree demo_v (i_addrs demo_file) = [57; 58] /\ itree demo_v (i_addrs demo_dir) = [52; 53; 54; 55; 56].
Proof. split; vm_compute; reflexivity. Qed.

Lemma demo_file_ok : file_ok demo_k demo_v 0.
Proof.
  split; [cbn; lia|done|done| |cbn; lia|].
  - split; [done|]. change (inode_at demo_k 0) with demo_file. rewrite (proj1 demo_trees).
    split; [apply (bool_decide_unpack _); vm_compute; exact I|]. repeat constructor; apply demo_data; lia.
  - intros bn H0 H1. change (bn * BSIZE < 2000) in H1. assert (bn = 0 \/ bn = 1) as [-> | ->] by lia; done.
Qed.

Lemma demo_dir_ok : dir_ok demo_k demo_v 1.
Proof.
  split; [|done|done]. split; [cbn; lia|done|done| |cbn; lia|].
  - split; [done|]. change (inode_at demo_k 1) with demo_dir. rewrite (proj2 demo_trees).
    split; [apply (bool_decide_unpack _); vm_compute; exact I|]. repeat constructor; apply demo_data; lia.
  - intros bn H0 H1. change (bn * BSIZE < 5120) in H1.
    assert (bn = 0 \/ bn = 1 \/ bn = 2 \/ bn = 3 \/ bn = 4) as Hb by lia. destruct_or! Hb; subst; done.
Qed.

Lemma demo_files : files_ok demo_k demo_v [0; 1]%nat.
Proof.
  split; [exact demo_fs| |].
  - intros i Hi. rewrite !elem_of_cons in Hi. destruct_or! Hi; subst; [exact demo_file_ok|apply demo_dir_ok|by apply not_elem_of_nil in Hi].
  - intros i j x Hi Hj Hne. rewrite !elem_of_cons in Hi, Hj. pose proof (not_elem_of_nil i). pose proof (not_elem_of_nil j).
    destruct demo_trees as [T1 T2].
    destruct_or! Hi; destruct_or! Hj; subst; try done;
      change (inode_at demo_k 0) with demo_file; change (inode_at demo_k 1) with demo_dir; rewrite T1, T2; set_solver.
Qed.

Lemma demo_room n : n <= 44 -> room n demo_v.
Proof.
  intros H. unfold room. change (zlen (ld_log demo_v)) with 0. change (zlen (ld_held demo_v)) with 0.
  change (ld_size demo_v) with 45. lia.
Qed.

(** The machine inside a transaction. *)
Lemma demo_rel : exists s, Rel s demo_v.
Proof.
  destruct demo_boot as (s & _ & R). pose proof (refine_run (P.begin_op : M unit) demo_k s demo_v0 R) as H.
  destruct H as (s' & _ & R'). by exists s'.
Qed.

(** ** Witnesses *)

Lemma readi_refines_witness : exists s s', Rel s demo_v /\
  run hC (readi 0 KernDst 1020 8) (demo_k, s) = Ok (8, [1; 1; 1; 1; 2; 2; 2; 2]) (demo_k, s').
Proof.
  destruct demo_rel as [s R]. exists s.
  destruct (readi_refines demo_k demo_v s 0 1020 8) as (s' & E & _); try lia; try exact R; try exact demo_len; try exact demo_file_ok.
  - apply fs_rd; [exact demo_fs|]. apply demo_room. lia.
  - cbn. lia.
  - exists s'. split; [exact R|]. rewrite E.
    assert (H : spec_read (contents demo_k demo_v 0) 1020 8 = (8, [1; 1; 1; 1; 2; 2; 2; 2])) by (vm_compute; reflexivity).
    by rewrite H.
Defined.

Lemma demo_file_fits : di_fits (di_of (inode_at demo_k 0)).
Proof.
  change (inode_at demo_k 0) with demo_file. split; cbn [di_of d_type d_major d_minor d_nlink d_size d_rwmode d_supermode
    d_showmode d_addrs demo_file i_type i_major i_minor i_nlink i_size i_rwmode i_supermode i_showmode i_addrs];
    try (unfold is_s16, is_u32; lia); [|reflexivity].
  apply Forall_app. split; [|apply Forall_replicate; unfold is_u32; lia].
  repeat (apply Forall_cons; split; [unfold is_u32; lia|]). by apply Forall_nil.
Qed.



Lemma balloc_correct_witness : exists s k' v' s', Rel s demo_v /\
  run hC (balloc ROOTDEV) (demo_k, s) = Ok 59 (k', s') /\ ballocd demo_k demo_v 59 k' v'.
Proof.
  destruct demo_rel as [s R]. pose proof (balloc_correct demo_k demo_v s R demo_alloc (fo_lok _ _ demo_fs) (demo_room 3 ltac:(lia))) as H.
  assert (E : first_free demo_v (sb_bmapstart (k_sb demo_k)) (sb_size (k_sb demo_k)) = Some 59) by (vm_compute; reflexivity).
  rewrite E in H. destruct H as (k' & v' & s' & Er & _ & B). exists s, k', v', s'. split; [exact R|]. split; [exact Er|exact B].
Defined.

Lemma demo_not_meta b : 52 <= b < 59 -> ~ is_meta (k_sb demo_k) b.
Proof. intros H. by destruct (demo_data b H) as (_ & ? & _). Qed.

Lemma bfree_correct_witness : exists s k' v' s', Rel s demo_v /\
  run hC (bfree ROOTDEV 58) (demo_k, s) = Ok tt (k', s') /\ bfreed demo_k demo_v 58 k' v'.
Proof.
  destruct demo_rel as [s R].
  pose proof (bfree_correct demo_k demo_v s 58 R demo_alloc (fo_lok _ _ demo_fs) (demo_room 2 ltac:(lia)) ltac:(cbn; lia)
    (demo_not_meta 58 ltac:(lia)) (not_elem_of_nil 58)) as H.
  assert (E : bitof demo_v (sb_bmapstart (k_sb demo_k)) 58 = true) by (vm_compute; reflexivity).
  rewrite E in H. destruct H as (k' & v' & s' & Er & _ & B). exists s, k', v', s'. split; [exact R|]. split; [exact Er|exact B].
Defined.

Lemma searchibmap_ifree_witness : exists k1 v1 k2 v2,
  run hA (searchibmap ROOTDEV) (demo_k, demo_v) = Ok 4 (k1, v1) /\ run hA (ifree ROOTDEV 4) (k1, v1) = Ok tt (k2, v2) /\
  sb_freeinodes (k_sb k2) = 12.
Proof.
  pose proof (searchibmap_ifree demo_k demo_v demo_alloc (fo_lok _ _ demo_fs) (demo_room 4 ltac:(lia))) as H.
  assert (E : first_free demo_v (sb_ibmapstart (k_sb demo_k)) (sb_ninodes (k_sb demo_k)) = Some 4) by (vm_compute; reflexivity).
  rewrite E in H. destruct H as (k1 & v1 & k2 & v2 & E1 & _ & E2 & _ & Hc & _). exists k1, v1, k2, v2.
  split; [exact E1|]. split; [exact E2|]. rewrite Hc. reflexivity.
Defined.

(** File block 300 of the demo file hangs off two levels of indirection,
    neither of which exists yet. *)
Lemma bmap_correct_witness : exists s r k' v' s' addrs', Rel s demo_v /\
  run hC (bmap 0 300) (demo_k, s) = Ok r (k', s') /\ iwalked demo_k demo_v (i_addrs demo_file) 300 r k' v' addrs'.
Proof.
  destruct demo_rel as [s R]. pose proof demo_file_ok as F.
  destruct (bmap_correct demo_k demo_v s 0 300) as (r & k' & v' & s' & a & E & _ & W & _).
  - exact R.
  - exact demo_fs.
  - reflexivity.
  - discriminate.
  - apply (fk_map _ _ _ F).
  - unfold MAXBN. lia.
  - apply demo_room. lia.
  - cbn. lia.
  - exists s, r, k', v', s', a. split; [exact R|]. split; [exact E|exact W].
Defined.

(** "hm": its bucket starts at byte 4096 of the directory. *)
Definition demo_name : bytes := [104; 109; 0].

Lemma demo_slots : forallb (fun i => bool_decide (de_inum (dents demo_k demo_v 1 (16 * i)) = 0 /\
  cstr (de_name (dents demo_k demo_v 1 (16 * i))) = [])) (seqZ 0 320) = true.
Proof. vm_compute. reflexivity. Qed.

Lemma demo_blank : free_blank demo_k demo_v 1.
Proof.
  intros o Ho Hm _. change (dsize demo_k 1) with 5120 in Ho. pose proof (Z.div_mod o 16 ltac:(lia)) as Ed.
  pose proof demo_slots as H. rewrite forallb_forall in H. specialize (H (o / 16)).
  assert (0 <= o / 16) by (apply Z.div_pos; lia). replace o with (16 * (o / 16)) by lia.
  assert (Hin : In (o / 16) (seqZ 0 320)) by (apply list_elem_of_In, elem_of_seqZ; lia).
  apply (bool_decide_eq_true_1 _ (H Hin)).
Qed.

Lemma demo_linkable : linkable demo_k demo_v 1 demo_name 5 16.
Proof.
  split.
  - exact demo_fs.
  - exact demo_dir_ok.
  - cbv. split; congruence.
  - split; vm_compute; congruence.
  - vm_compute. reflexivity.
  - vm_compute. congruence.
  - vm_compute. congruence.
  - exact demo_blank.
  - vm_compute. congruence.
  - vm_compute. reflexivity.
  - vm_compute. eauto.
  - lia.
  - apply demo_room. lia.
  - cbn. lia.
Qed.

