(* ===== verification/Pipe.v ===== *)
(** * Pipes (kernel/pipe.c)

    A pipe is a ring buffer with two free-running 32-bit counters.  The
    kernel keeps it in a page of its own; the model keeps the structure in
    [k_pipes], keyed by that page's address. *)
From S2P Require Import Prelude Str Bio Log Crash Machine Types Vm.
Local Open Scope st_scope.

(** proc.c: wakeup — the sleeping processes on the channel become runnable;
    the caller itself is skipped. *)
Definition wakeup (chan : Z) : stM kst unit := fun k =>
  Ok tt (set_procs (imap (fun i p =>
    if negb (Nat.eqb i (k_cur k)) && bool_decide (p_state p = SLEEPING) && (p_chan p =? chan)
    then p_set_state RUNNABLE p else p)) k).

(** Channels: the addresses of [pi->nread] and [pi->nwrite]. *)
Definition ch_nread (pi : Z) : Z := pi + 536.
Definition ch_nwrite (pi : Z) : Z := pi + 540.

Definition pipe0 : pipe := mkPipe (replicate 512 5) 0 0 false false.
Definition getpipe (pi : Z) : stM kst pipe := fun k => Ok (default pipe0 (k_pipes k !! pi)) k.
Definition setpipe (pi : Z) (p : pipe) : stM kst unit := smodify (set_pipes (insert pi p)).

(** The structure pipealloc sets up in a fresh page. *)
Definition pipe_new : pipe := mkPipe (replicate 512 5) 0 0 true true.

Definition pipeclose (pi : Z) (writable : bool) : stM kst unit :=
  p <- getpipe pi;
  (if writable
   then setpipe pi (mkPipe (pi_data p) (pi_nread p) (pi_nwrite p) (pi_readopen p) false);; wakeup (ch_nread pi)
   else setpipe pi (mkPipe (pi_data p) (pi_nread p) (pi_nwrite p) false (pi_writeopen p));; wakeup (ch_nwrite pi));;
  p <- getpipe pi;
  if negb (pi_readopen p) && negb (pi_writeopen p)
  then smodify (set_pipes (delete pi));; kfree pi
  else sret tt.

(** [pi->data[pi->nwrite++ % PIPESIZE] = ch] *)
Definition pipe_put (ch : Z) (p : pipe) : pipe :=
  mkPipe (setb (pi_nwrite p mod PIPESIZE) ch (pi_data p)) (pi_nread p) (u32 (pi_nwrite p + 1))
         (pi_readopen p) (pi_writeopen p).
(** [ch = pi->data[pi->nread++ % PIPESIZE]] *)
Definition pipe_get (p : pipe) : Z * pipe :=
  (getb (pi_nread p mod PIPESIZE) (pi_data p),
   mkPipe (pi_data p) (u32 (pi_nread p + 1)) (pi_nwrite p) (pi_readopen p) (pi_writeopen p)).
Definition pipe_full (p : pipe) : bool := pi_nwrite p =? u32 (pi_nread p + PIPESIZE).
Definition pipe_empty (p : pipe) : bool := pi_nread p =? pi_nwrite p.

(** A transfer either returns or has to sleep with [i] bytes done. *)
Inductive pres := PDone (r : Z) | PWait (i : Z).

Definition curproc : stM kst proc := fun k => Ok (nth (k_cur k) (k_procs k) proc0) k.

Fixpoint pipewrite_loop (fuel : nat) (pi addr n i : Z) : stM kst pres :=
  match fuel with
  | O => fun _ => Wrong "pipewrite: fuel"
  | S fuel =>
      if negb (i <? n) then wakeup (ch_nread pi);; sret (PDone i)
      else
        pr <- curproc;
        p <- getpipe pi;
        if negb (pi_readopen p) || p_killed pr then sret (PDone (-1))
        else if pipe_full p then wakeup (ch_nread pi);; sret (PWait i)
        else
          '(r, ch) <- copyin (p_pagetable pr) (u64 (addr + i)) 1;
          if r =? -1 then wakeup (ch_nread pi);; sret (PDone i)
          else
            setpipe pi (pipe_put (getb 0 ch) p);;
            pipewrite_loop fuel pi addr n (i + 1)
  end.

(** A call resumed with [i] bytes done, as after a wakeup. *)
Definition pipewrite_from (pi addr n i : Z) : stM kst pres :=
  pipewrite_loop (S (Z.to_nat (n - i))) pi addr n i.

Definition pipewrite (pi addr n : Z) : stM kst Z :=
  r <- pipewrite_from pi addr n 0;
  match r with
  | PDone r => sret r
  | PWait _ => fun k => Sleep "pipe write" k
  end.

Fixpoint piperead_loop (l : nat) (pi addr i : Z) : stM kst Z :=
  match l with
  | O => sret i
  | S l =>
      pr <- curproc;
      p <- getpipe pi;
      if pipe_empty p then sret i
      else
        let '(ch, p) := pipe_get p in
        setpipe pi p;;
        r <- copyout (p_pagetable pr) (u64 (addr + i)) [ch];
        if r =? -1 then sret i else piperead_loop l pi addr (i + 1)
  end.

(** A call, also after a wakeup: the reader waits only before it has read. *)
Definition piperead_try (pi addr n : Z) : stM kst pres :=
  pr <- curproc;
  p <- getpipe pi;
  if pipe_empty p && pi_writeopen p then
    if p_killed pr then sret (PDone (-1)) else sret (PWait 0)
  else
    i <- piperead_loop (Z.to_nat n) pi addr 0;
    wakeup (ch_nwrite pi);;
    sret (PDone i).

Definition piperead (pi addr n : Z) : stM kst Z :=
  r <- piperead_try pi addr n;
  match r with
  | PDone r => sret r
  | PWait _ => fun k => Sleep "pipe read" k
  end.
