(* ===== verification/PipeSpec.v ===== *)
(** * Pipes as bounded queues

    The ring buffer of pipe.c, with its free-running 32-bit counters, is a
    queue of at most 512 bytes: [queue] reads it off the structure, and the
    two transfers append to and remove from it, also when the counters wrap. *)
From S2P Require Import Prelude Str Bio Log Crash Machine Types Vm Codec Kmem Pgtbl Uvm VmDemo Pipe.
Local Open Scope st_scope.

(** Number of bytes in the pipe: the difference of the counters, at 32 bits. *)
Definition fill (p : pipe) : Z := u32 (pi_nwrite p - pi_nread p).
Definition queue (p : pipe) : bytes :=
  map (fun i => getb ((pi_nread p + i) mod PIPESIZE) (pi_data p)) (seqZ 0 (fill p)).

Record pipe_ok (p : pipe) : Prop := {
  po_data : length (pi_data p) = Z.to_nat PIPESIZE;
  po_read : 0 <= pi_nread p < 2 ^ 32;
  po_write : 0 <= pi_nwrite p < 2 ^ 32;
  po_fill : fill p <= PIPESIZE
}.

(** One byte in, one byte out, each where the code allows it. *)
Inductive pipe_step : pipe -> list Z -> list Z -> pipe -> Prop :=
| step_put p c : pipe_full p = false -> pipe_step p [c] [] (pipe_put c p)
| step_get p : pipe_empty p = false -> pipe_step p [] [fst (pipe_get p)] (snd (pipe_get p)).

(** A run with all the bytes put in and all the bytes taken out. *)
Inductive pipe_run (p0 : pipe) : list Z -> list Z -> pipe -> Prop :=
| run_nil : pipe_run p0 [] [] p0
| run_snoc ins outs p i o p' : pipe_run p0 ins outs p -> pipe_step p i o p' -> pipe_run p0 (ins ++ i) (outs ++ o) p'.

(** ** Lemmas *)

Lemma length_queue p : 0 <= fill p -> zlen (queue p) = fill p.
Proof. intros H. unfold zlen, queue. rewrite length_map, length_seqZ. lia. Qed.

Lemma fill_nonneg p : 0 <= fill p.
Proof. unfold fill, u32. apply Z.mod_pos_bound. lia. Qed.

(** The counters wrap at a multiple of the buffer size. *)
Lemma wrap_index x : u32 x mod PIPESIZE = x mod PIPESIZE.
Proof. unfold u32. change (2 ^ 32) with (PIPESIZE * 8388608). rewrite Z.rem_mul_r by lia. rewrite Z.mul_comm, Z.mod_add by lia. apply Z.mod_mod. lia. Qed.

Lemma full_fill p : pipe_ok p -> pipe_full p = (fill p =? PIPESIZE).
Proof.
  intros [_ R W _]. unfold pipe_full, fill. apply eq_true_iff_eq. rewrite !Z.eqb_eq. unfold u32.
  pose proof (Z.div_mod (pi_nread p + PIPESIZE) (2 ^ 32)). pose proof (Z.mod_pos_bound (pi_nread p + PIPESIZE) (2 ^ 32)).
  pose proof (Z.div_mod (pi_nwrite p - pi_nread p) (2 ^ 32)). pose proof (Z.mod_pos_bound (pi_nwrite p - pi_nread p) (2 ^ 32)). lia.
Qed.

Lemma empty_fill p : pipe_ok p -> pipe_empty p = (fill p =? 0).
Proof.
  intros [_ R W _]. unfold pipe_empty, fill. apply eq_true_iff_eq. rewrite !Z.eqb_eq. unfold u32.
  pose proof (Z.div_mod (pi_nwrite p - pi_nread p) (2 ^ 32)). pose proof (Z.mod_pos_bound (pi_nwrite p - pi_nread p) (2 ^ 32)). lia.
Qed.

Lemma fill_put c p : pipe_ok p -> pipe_full p = false -> fill (pipe_put c p) = fill p + 1.
Proof.
  intros H E. rewrite (full_fill p H) in E. apply Z.eqb_neq in E. destruct H as [_ R W F]. unfold fill, u32 in *. cbn in *. unfold u32.
  rewrite Zminus_mod_idemp_l. pose proof (Z.mod_pos_bound (pi_nwrite p - pi_nread p) (2 ^ 32)).
  replace (pi_nwrite p + 1 - pi_nread p) with ((pi_nwrite p - pi_nread p) + 1) by lia.
  rewrite <- Zplus_mod_idemp_l. apply Z.mod_small. lia.
Qed.

Lemma fill_get p : pipe_ok p -> pipe_empty p = false -> fill (snd (pipe_get p)) = fill p - 1.
Proof.
  intros H E. rewrite (empty_fill p H) in E. apply Z.eqb_neq in E. destruct H as [_ R W F]. unfold fill, u32 in *. cbn in *. unfold u32.
  rewrite Zminus_mod_idemp_r. pose proof (Z.mod_pos_bound (pi_nwrite p - pi_nread p) (2 ^ 32)).
  replace (pi_nwrite p - (pi_nread p + 1)) with ((pi_nwrite p - pi_nread p) - 1) by lia.
  rewrite <- Zminus_mod_idemp_l. apply Z.mod_small. lia.
Qed.

Lemma pipe_ok_put c p : pipe_ok p -> pipe_full p = false -> pipe_ok (pipe_put c p).
Proof.
  intros H E. pose proof (fill_put c p H E) as Ef. rewrite (full_fill p H) in E. apply Z.eqb_neq in E. destruct H as [D R W F].
  split; [by cbn; rewrite length_setb|done|by cbn; apply Z.mod_pos_bound|lia].
Qed.

Lemma pipe_ok_get p : pipe_ok p -> pipe_empty p = false -> pipe_ok (snd (pipe_get p)).
Proof.
  intros H E. pose proof (fill_get p H E) as Ef. destruct H as [D R W F].
  split; [done|by cbn; apply Z.mod_pos_bound|done|lia].
Qed.

Lemma ring_distinct a i j : 0 <= i < j -> j < PIPESIZE -> (a + i) mod PIPESIZE <> (a + j) mod PIPESIZE.
Proof.
  intros Hi Hj E. pose proof (Z.div_mod (a + i) PIPESIZE). pose proof (Z.div_mod (a + j) PIPESIZE). lia.
Qed.

Lemma queue_put c p : pipe_ok p -> pipe_full p = false -> queue (pipe_put c p) = queue p ++ [c].
Proof.
  intros H E. unfold queue. rewrite (fill_put c p H E). pose proof (fill_nonneg p) as F0.
  rewrite (full_fill p H) in E. apply Z.eqb_neq in E. destruct H as [D R W F].
  rewrite seqZ_app, map_app by lia. cbn [pipe_put pi_data pi_nread].
  assert (Ew : (pi_nread p + fill p) mod PIPESIZE = pi_nwrite p mod PIPESIZE).
  { unfold fill. rewrite <- Zplus_mod_idemp_r, wrap_index, Zplus_mod_idemp_r. f_equal. lia. }
  assert (Hb : 0 <= pi_nwrite p mod PIPESIZE < zlen (pi_data p)).
  { unfold zlen. rewrite D. apply Z.mod_pos_bound. lia. }
  f_equal.
  - apply map_ext_in. intros i Hi. apply list_elem_of_In, elem_of_seqZ in Hi.
    rewrite getb_setb by (done || (apply Z.mod_pos_bound; lia)). rewrite decide_False; [done|]. rewrite <- Ew. apply ring_distinct; lia.
  - change (seqZ (0 + fill p) 1) with [0 + fill p]. cbn [map]. rewrite Z.add_0_l, Ew.
    rewrite getb_setb by lia. by rewrite decide_True.
Qed.

Lemma queue_get p : pipe_ok p -> pipe_empty p = false -> queue p = fst (pipe_get p) :: queue (snd (pipe_get p)).
Proof.
  intros H E. unfold queue. rewrite (fill_get p H E). pose proof (fill_nonneg p) as F0.
  rewrite (empty_fill p H) in E. apply Z.eqb_neq in E.
  rewrite seqZ_cons by lia. cbn [map pipe_get fst snd pi_data pi_nread]. rewrite Z.add_0_r. f_equal.
  replace (Z.pred (fill p)) with (fill p - 1) by lia.
  rewrite <- (fmap_add_seqZ 1 0). rewrite <- list_fmap_compose. apply map_ext. intros i. cbn.
  rewrite <- (Zplus_mod_idemp_l (u32 _)), wrap_index, Zplus_mod_idemp_l. do 2 f_equal. lia.
Qed.

Lemma pipe_ok_step p i o p' : pipe_ok p -> pipe_step p i o p' -> pipe_ok p' /\ queue p ++ i = o ++ queue p'.
Proof.
  intros H S. destruct S as [p c E|p E].
  - split; [by apply pipe_ok_put|]. by rewrite queue_put.
  - split; [by apply pipe_ok_get|]. rewrite app_nil_r. by apply queue_get.
Qed.

Lemma pipe_new_ok : pipe_ok pipe_new.
Proof. by split. Qed.

(** ** Lemmas: transfers *)

(** The state after a wakeup, and after pipe [pi] became [p]. *)
Definition woken (chan : Z) (k : kst) : kst :=
  set_procs (imap (fun i p =>
    if negb (Nat.eqb i (k_cur k)) && bool_decide (p_state p = SLEEPING) && (p_chan p =? chan) then p_set_state RUNNABLE p else p)) k.
Definition with_pipe (pi : Z) (p : pipe) (k : kst) : kst := set_pipes (insert pi p) k.
Definition cur (k : kst) : proc := nth (k_cur k) (k_procs k) proc0.

Lemma with_pipe_id pi p k : k_pipes k !! pi = Some p -> with_pipe pi p k = k.
Proof. intros H. unfold with_pipe. destruct k. cbn in *. unfold set_pipes. cbn. by rewrite insert_id. Qed.

Lemma with_pipe_twice pi p p' k : with_pipe pi p' (with_pipe pi p k) = with_pipe pi p' k.
Proof. unfold with_pipe. destruct k. unfold set_pipes. cbn. by rewrite insert_insert_eq. Qed.

Lemma space_with_pipe pi p k pt fl : space_ok k pt fl -> space_ok (with_pipe pi p k) pt fl.
Proof. apply space_ok_ext; by destruct k. Qed.

Section Transfer.
  Context (pi addr n : Z) (Ha : 0 <= addr) (Hn : addr + n <= 2 ^ 64).

(** What a write of bytes [i..n) does to the queue, and how it can stop: all
    bytes are in, the pipe is full, or the next user byte cannot be read. *)
Definition pw_result (k : kst) (p : pipe) (i : Z) (res : pres) (k' : kst) : Prop :=
  let pt := p_pagetable (cur k) in
  exists w p', k' = woken (ch_nread pi) (with_pipe pi p' k) /\ pipe_ok p' /\ queue p' = queue p ++ w /\
    (forall j, 0 <= j < zlen w -> ubyte (k_mem k) pt (addr + i + j) = Some (getb j w)) /\
    (res = PDone n /\ zlen w = n - i \/
     res = PWait (i + zlen w) /\ zlen w < n - i /\ fill p' = PIPESIZE \/
     res = PDone (i + zlen w) /\ zlen w < n - i /\ ubyte (k_mem k) pt (addr + i + zlen w) = None).

Lemma pw_stop k p i res : k_pipes k !! pi = Some p -> pipe_ok p ->
  (res = PDone n /\ i = n \/ res = PWait i /\ i < n /\ fill p = PIPESIZE \/
   res = PDone i /\ i < n /\ ubyte (k_mem k) (p_pagetable (cur k)) (addr + i) = None) ->
  pw_result k p i res (woken (ch_nread pi) k).
Proof.
  intros Hp Hok D. exists [], p. rewrite (with_pipe_id pi p k Hp), app_nil_r. change (zlen (@nil Z)) with 0. rewrite !Z.add_0_r.
  split; [done|]. split; [done|]. split; [done|]. split; [lia|]. destruct D as [[-> ->]|[(-> & D1 & D2)|(-> & D1 & D2)]];
    [left; split; [done|lia]|right; left|right; right]; (split; [done|]); (split; [lia|done]).
Qed.

Lemma pw_step k p c i res k' : pipe_ok p -> pipe_full p = false -> ubyte (k_mem k) (p_pagetable (cur k)) (addr + i) = Some c ->
  pw_result (with_pipe pi (pipe_put c p) k) (pipe_put c p) (i + 1) res k' -> pw_result k p i res k'.
Proof.
  intros Hok Hfull Hc (w & p' & E & Hok' & Hq & Hb & D). rewrite with_pipe_twice in E. exists (c :: w), p'.
  change (k_mem (with_pipe _ _ k)) with (k_mem k) in Hb, D. change (cur (with_pipe _ _ k)) with (cur k) in Hb, D.
  assert (Hz : zlen (c :: w) = zlen w + 1) by (unfold zlen; cbn; lia). rewrite Hz.
  split; [exact E|]. split; [exact Hok'|]. split; [by rewrite Hq, (queue_put c p Hok Hfull), <- app_assoc|]. split.
  - intros j Hj. destruct (decide (j = 0)) as [->|]; [by rewrite Z.add_0_r|].
    specialize (Hb (j - 1) ltac:(lia)). replace (addr + (i + 1) + (j - 1)) with (addr + i + j) in Hb by lia. rewrite Hb. f_equal. unfold getb.
    replace (Z.to_nat j) with (S (Z.to_nat (j - 1))) by lia. done.
  - destruct D as [[-> D]|[(-> & D1 & D2)|(-> & D1 & D2)]]; [left; split; [done|lia]|right; left|right; right];
      (split; [f_equal; lia|]); (split; [lia|]); [done|]. rewrite <- D2. f_equal. lia.
Qed.

Lemma pipewrite_loop_run fuel k p fl i :
  k_pipes k !! pi = Some p -> pipe_ok p -> pi_readopen p = true -> p_killed (cur k) = false ->
  space_ok k (p_pagetable (cur k)) fl -> 0 <= i <= n -> n - i < Z.of_nat fuel ->
  exists res k', pipewrite_loop fuel pi addr n i k = Ok res k' /\ pw_result k p i res k'.
Proof.
  revert k p i. induction fuel as [|fuel IH]; intros k p i Hp Hok Hr Hk Hs Hi Hf; [lia|]. cbn [pipewrite_loop].
  destruct (Z.ltb_spec i n) as [Hlt|Hge]; cbn [negb].
  2:{ exists (PDone i), (woken (ch_nread pi) k). split; [done|]. apply pw_stop; [done|done|]. left. assert (i = n) as -> by lia. done. }
  unfold sbind at 1, curproc. fold (cur k). unfold sbind at 1, getpipe. rewrite Hp. change (default pipe0 (Some p)) with p. rewrite Hr, Hk. cbn [negb orb].
  destruct (pipe_full p) eqn:Hfull.
  { exists (PWait i), (woken (ch_nread pi) k). split; [done|]. apply pw_stop; [done|done|]. right. left. split; [done|]. split; [lia|].
    rewrite (full_fill p Hok) in Hfull. by apply Z.eqb_eq. }
  assert (Eu : u64 (addr + i) = addr + i) by (apply Z.mod_small; lia). rewrite Eu.
  destruct (copyin_run (p_pagetable (cur k)) (addr + i) 1 k fl Hs ltac:(lia) ltac:(lia)) as (r & d & E & Hb & D).
  unfold sbind at 1. rewrite E. destruct D as [[-> Hd]|(-> & Hd & Hnone)]; cbn [Z.eqb].
  2:{ assert (d = []) as -> by (destruct d; [done|unfold zlen in Hd; cbn in Hd; lia]). change (zlen (@nil Z)) with 0 in Hnone. rewrite Z.add_0_r in Hnone.
      exists (PDone i), (woken (ch_nread pi) k). split; [done|]. apply pw_stop; [done|done|]. right. right. split; [done|]. split; [lia|done]. }
  destruct d as [|c [|c' d]]; [discriminate Hd| |unfold zlen in Hd; cbn in Hd; lia]. change (getb 0 [c]) with c.
  unfold sbind at 1, setpipe, smodify. fold (with_pipe pi (pipe_put c p) k). set (k1 := with_pipe pi (pipe_put c p) k).
  assert (Hp1 : k_pipes k1 !! pi = Some (pipe_put c p)) by (unfold k1, with_pipe; destruct k; apply lookup_insert_eq).
  destruct (IH k1 (pipe_put c p) (i + 1) Hp1 (pipe_ok_put c p Hok Hfull) Hr Hk (space_with_pipe pi _ k _ fl Hs) ltac:(lia) ltac:(lia)) as (res & k' & E' & R).
  exists res, k'. split; [exact E'|]. apply (pw_step k p c i res k' Hok Hfull); [|exact R]. specialize (Hb 0 ltac:(done)). by rewrite Z.add_0_r in Hb.
Qed.

(** The reader's side: bytes [r] went to the user; a byte whose copy failed
    is taken from the pipe and lost. *)
Definition pr_result (k : kst) (p : pipe) (l i : Z) (res : Z) (k' : kst) : Prop :=
  let pt := p_pagetable (cur k) in
  exists r lost p', pipe_ok p' /\ k' = set_mem (fun _ => k_mem k') (with_pipe pi p' k) /\ queue p = r ++ lost ++ queue p' /\
    uwrote pt (addr + i) r (k_mem k) (k_mem k') /\ res = i + zlen r /\
    (lost = [] /\ (zlen r = l \/ zlen r < l /\ queue p' = []) \/
     (exists c, lost = [c]) /\ zlen r < l /\ ubyte (k_mem k) pt (addr + i + zlen r) = None).

Lemma pr_stop k p l i : k_pipes k !! pi = Some p -> pipe_ok p -> (l = 0 \/ 0 < l /\ pipe_empty p = true) -> pr_result k p l i i k.
Proof.
  intros Hp Hok D. exists [], [], p. rewrite (with_pipe_id pi p k Hp). change (zlen (@nil Z)) with 0. rewrite Z.add_0_r.
  split; [done|]. split; [by destruct k|]. split; [done|]. split; [apply uwrote_nil|]. split; [done|]. left. split; [done|].
  destruct D as [->|[D1 D2]]; [by left|]. right. split; [lia|]. rewrite (empty_fill p Hok) in D2. apply Z.eqb_eq in D2. unfold queue. by rewrite D2.
Qed.

Lemma pr_step k p l i res k2 k' : let c := fst (pipe_get p) in let p1 := snd (pipe_get p) in
  pipe_ok p -> pipe_empty p = false -> 0 <= i -> k2 = set_mem (fun _ => k_mem k2) (with_pipe pi p1 k) ->
  uwrote (p_pagetable (cur k)) (addr + i) [c] (k_mem k) (k_mem k2) -> pr_result k2 p1 (l - 1) (i + 1) res k' -> pr_result k p l i res k'.
Proof.
  intros c p1 Hok He Hi E2 W (r & lost & p' & Hok' & E & Hq & W' & Hres & D). assert (Ec : cur k2 = cur k) by (rewrite E2; done). rewrite Ec in W', D.
  exists (c :: r), lost, p'. assert (Hz : zlen (c :: r) = zlen r + 1) by (unfold zlen; cbn; lia). assert (Hr0 : 0 <= zlen r) by (unfold zlen; lia).
  split; [exact Hok'|]. split; [|split; [rewrite (queue_get p Hok He); unfold p1 in Hq; rewrite Hq; done|]]; [|split; [|split; [lia|]]].
  - rewrite E, E2, <- (with_pipe_twice pi p1 p' k). by destruct k.
  - change (c :: r) with ([c] ++ r). apply (uwrote_app _ _ (addr + (i + 1)) _ _ _ (k_mem k2)); [exact W|exact W'|]. intros _. unfold zlen. cbn. lia.
  - rewrite Hz. destruct D as [[-> D]|(D0 & D1 & D2)]; [left; split; [done|]; destruct D as [D|[D1 D2]]; [left; lia|right; split; [lia|done]]|right].
    split; [exact D0|]. split; [lia|]. rewrite (W (addr + (i + 1) + zlen r) ltac:(lia)) in D2. rewrite decide_False in D2 by (change (zlen [c]) with 1; lia).
    rewrite <- D2. f_equal. lia.
Qed.

Lemma piperead_loop_run l k p fl i :
  k_pipes k !! pi = Some p -> pipe_ok p -> space_ok k (p_pagetable (cur k)) fl -> 0 <= i -> i + Z.of_nat l <= n ->
  exists res k', piperead_loop l pi addr i k = Ok res k' /\ pr_result k p (Z.of_nat l) i res k' /\ space_ok k' (p_pagetable (cur k)) fl.
Proof.
  revert k p i. induction l as [|l IH]; intros k p i Hp Hok Hs Hi Hl; cbn [piperead_loop].
  { exists i, k. split; [done|]. split; [|exact Hs]. apply pr_stop; [done|done|by left]. }
  unfold sbind at 1, curproc. fold (cur k). unfold sbind at 1, getpipe. rewrite Hp. change (default pipe0 (Some p)) with p.
  destruct (pipe_empty p) eqn:He.
  { exists i, k. split; [done|]. split; [|exact Hs]. apply pr_stop; [done|done|]. right. split; [lia|done]. }
  destruct (pipe_get p) as [c p1] eqn:Eg. unfold sbind at 1, setpipe, smodify. fold (with_pipe pi p1 k). set (k1 := with_pipe pi p1 k).
  assert (Eu : u64 (addr + i) = addr + i) by (apply Z.mod_small; lia). rewrite Eu.
  destruct (copyout_run (p_pagetable (cur k)) (addr + i) [c] k1 fl (space_with_pipe pi p1 k _ fl Hs) ltac:(lia)) as (r & k2 & d & E & U & W & D).
  change (k_mem k1) with (k_mem k) in W. pose proof (us_mem _ _ _ _ U) as E2. pose proof (us_ok _ _ _ _ U) as S2.
  assert (Hp2 : k_pipes k2 !! pi = Some p1) by (rewrite E2; unfold k1, with_pipe; destruct k; apply lookup_insert_eq).
  assert (Ec : cur k2 = cur k) by (by rewrite E2). pose proof (pipe_ok_get p Hok He) as Hok1. rewrite Eg in Hok1. cbn [snd] in Hok1.
  unfold sbind. rewrite E. destruct D as [[-> ->]|(-> & Hd & _ & Hnone)]; cbn [Z.eqb].
  - destruct (IH k2 p1 (i + 1) Hp2 Hok1) as (res & k' & E' & R & S'); [by rewrite Ec|lia|lia|]. exists res, k'. split; [exact E'|]. rewrite Ec in S'.
    split; [|exact S']. apply (pr_step k p (Z.of_nat (S l)) i res k2 k'); rewrite ?Eg; [exact Hok|exact He|exact Hi|exact E2|exact W|].
    replace (Z.of_nat (S l) - 1) with (Z.of_nat l) by lia. exact R.
  - assert (d = []) as -> by (destruct d; [done|unfold zlen in Hd; cbn in Hd; lia]). exists i, k2. split; [done|]. split; [|exact S2].
    exists [], [c], p1. change (zlen (@nil Z)) with 0 in *. rewrite Z.add_0_r in Hnone. rewrite !Z.add_0_r. split; [exact Hok1|]. split; [exact E2|].
    split; [rewrite (queue_get p Hok He), Eg; done|]. split; [exact W|]. split; [done|]. right. split; [by exists c|]. split; [lia|exact Hnone].
Qed.
End Transfer.

(** ** Theorems *)

(** C33. A pipe is a FIFO queue: after any interleaving of byte transfers, each
    allowed by the code's full and empty tests, the bytes put in are the
    bytes taken out followed by the at most 512 bytes still queued, also when
    the 32-bit counters wrap around. *)
Theorem pipe_fifo p0 ins outs p :
  pipe_ok p0 -> pipe_run p0 ins outs p -> queue p0 ++ ins = outs ++ queue p /\ zlen (queue p) <= PIPESIZE.
Proof.
  intros H0 R. assert (H : pipe_ok p /\ queue p0 ++ ins = outs ++ queue p).
  { induction R as [|ins outs p i o p' R [IH1 IH2] S]; [by rewrite app_nil_r|]. destruct (pipe_ok_step p i o p' IH1 S) as [H1 H2].
    split; [exact H1|]. by rewrite app_assoc, IH2, <- app_assoc, H2, app_assoc. }
  destruct H as [H1 H2]. split; [exact H2|]. rewrite length_queue by apply fill_nonneg. apply H1.
Qed.

(** C34. pipewrite, started or resumed after a sleep with [i] bytes done,
    appends user bytes from [addr + i] on to the queue and stops for exactly
    three reasons: all [n] bytes are written; the pipe is full, and it waits
    with the number of bytes done; the next user byte cannot be read, and it
    returns the number of bytes done. *)
Theorem pipewrite_correct pi addr n i k p fl :
  k_pipes k !! pi = Some p -> pipe_ok p -> pi_readopen p = true -> p_killed (cur k) = false ->
  space_ok k (p_pagetable (cur k)) fl -> 0 <= addr -> addr + n <= 2 ^ 64 -> 0 <= i <= n ->
  exists res k', pipewrite_from pi addr n i k = Ok res k' /\ pw_result pi addr n k p i res k'.
Proof. intros Hp Hok Hr Hk Hs Ha Hn Hi. apply (pipewrite_loop_run pi addr n Ha Hn _ k p fl i); try assumption. lia. Qed.

(** C35. piperead waits when the pipe is empty and still open for writing, and
    otherwise takes up to [n] bytes off the front of the queue and stores them
    at [addr]; fewer when the queue runs empty.  When a store faults, the byte
    it was for is gone from the pipe. *)
Theorem piperead_correct pi addr n k p fl :
  k_pipes k !! pi = Some p -> pipe_ok p -> p_killed (cur k) = false ->
  space_ok k (p_pagetable (cur k)) fl -> 0 <= addr -> 0 <= n -> addr + n <= 2 ^ 64 ->
  if pipe_empty p && pi_writeopen p then piperead_try pi addr n k = Ok (PWait 0) k
  else exists res k', piperead_try pi addr n k = Ok (PDone res) (woken (ch_nwrite pi) k') /\ pr_result pi addr k p n 0 res k'.
Proof.
  intros Hp Hok Hk Hs Ha Hn Hm. assert (E0 : piperead_try pi addr n k = (if pipe_empty p && pi_writeopen p then Ok (PWait 0) k
    else sbind (piperead_loop (Z.to_nat n) pi addr 0) (fun i => sbind (wakeup (ch_nwrite pi)) (fun _ => sret (PDone i))) k)).
  { unfold piperead_try, sbind at 1, curproc. fold (cur k). unfold sbind at 1, getpipe. rewrite Hp. change (default pipe0 (Some p)) with p.
    rewrite Hk. by destruct (_ && _). }
  rewrite E0. destruct (pipe_empty p && pi_writeopen p); [done|].
  destruct (piperead_loop_run pi addr n Ha Hm (Z.to_nat n) k p fl 0 Hp Hok Hs ltac:(lia) ltac:(lia)) as (res & k' & E & R & _).
  exists res, k'. unfold sbind. rewrite E. split; [done|]. by rewrite Z2Nat.id in R.
Qed.

(** ** Witnesses *)

Definition wrap_pipe : pipe := mkPipe (replicate 512 5) (2 ^ 32 - 1) (2 ^ 32 - 1) true true.
Definition pipe_k : kst :=
  mkK (mkSb 0 0 0 0 0 0 0 0 0 0 0) [] [] {[ 7 := wrap_pipe ]} (k_mem vm_k) (k_freelist vm_k) (k_end vm_k)
    [mkP RUNNING 0 false 0 1 None 8192 vm_old 0 [] None []] 0 None 2 [].

Lemma wrap_pipe_ok : pipe_ok wrap_pipe.
Proof. split; [reflexivity|cbn; lia|cbn; lia|vm_compute; discriminate]. Qed.

Lemma pipe_k_ok : space_ok pipe_k (p_pagetable (cur pipe_k)) vm_free.
Proof. apply (space_ok_ext vm_k); [reflexivity|reflexivity|reflexivity|exact vm_old_ok]. Qed.

Lemma pipe_fifo_witness : exists p, queue wrap_pipe ++ [65] = [65] ++ queue p.
Proof.
  exists (snd (pipe_get (pipe_put 65 wrap_pipe))). apply (pipe_fifo wrap_pipe [65] [65] _ wrap_pipe_ok).
  exact (run_snoc _ _ _ _ _ _ _ (run_snoc _ _ _ _ _ _ _ (run_nil _) (step_put wrap_pipe 65 eq_refl)) (step_get (pipe_put 65 wrap_pipe) eq_refl)).
Defined.

Lemma pipewrite_correct_witness : exists res k', pipewrite_from 7 4000 600 0 pipe_k = Ok res k'.
Proof.
  destruct (pipewrite_correct 7 4000 600 0 pipe_k wrap_pipe vm_free eq_refl wrap_pipe_ok eq_refl eq_refl pipe_k_ok) as (res & k' & E & _);
    [lia|lia|lia|]. exists res, k'. exact E.
Defined.

Lemma piperead_correct_witness : piperead_try 7 4000 600 pipe_k = Ok (PWait 0) pipe_k.
Proof. apply (piperead_correct 7 4000 600 pipe_k wrap_pipe vm_free eq_refl wrap_pipe_ok eq_refl pipe_k_ok); lia. Defined.
