(* ===== verification/File.v ===== *)
(** * Open files (kernel/file.c, and pipealloc of kernel/pipe.c) *)
From S2P Require Import Prelude Str Bio Log Crash Machine Types Vm Codec Ld Balloc Inode Pipe.
Local Open Scope prog_scope.

(** The first entry with no references. *)
Fixpoint free_file (l : list file) (idx : nat) : option nat :=
  match l with
  | [] => None
  | f :: l => if f_ref f =? 0 then Some idx else free_file l (S idx)
  end.

Definition filealloc : M (option nat) :=
  k <- P.get;
  match free_file (k_ftable k) 0 with
  | Some f => modf f (f_set_ref 1);; Ret (Some f)
  | None => Ret None
  end.

Definition filedup (f : nat) : M nat :=
  ff <- getf f;
  if f_ref ff <? 1 then panic "filedup"
  else modf f (f_set_ref (f_ref ff + 1));; Ret f.

Definition fileclose (f : nat) : M unit :=
  ff <- getf f;
  if f_ref ff <? 1 then panic "fileclose"
  else
    modf f (f_set_ref (f_ref ff - 1));;
    if 0 <? f_ref ff - 1 then Ret tt
    else
      ff <- getf f;
      modf f (f_set_ref 0);;
      modf f (f_set_type FD_NONE);;
      match f_type ff with
      | FD_PIPE => liftK (pipeclose (f_pipe ff) (f_writable ff))
      | FD_INODE | FD_DEVICE =>
          P.begin_op;;
          iput (f_ip ff);;
          P.end_op
      | FD_NONE => Ret tt
      end.

(** The bytes of a struct stat; [pad] is its padding, which stati does not
    set. *)
Definition enc_stat (pad : bytes) (st : stat) : bytes :=
  le_enc 4 (st_dev st) ++ le_enc 4 (st_ino st) ++ le_enc 2 (st_type st) ++ le_enc 2 (st_nlink st) ++
  pad ++ le_enc 8 (st_size st) ++ le_enc 4 (st_rwmode st) ++ le_enc 4 (st_supermode st) ++
  le_enc 4 (st_showmode st) ++ enc32s (st_addrs st).

Definition filestat (pad : bytes) (f : nat) (addr : Z) : M Z :=
  p <- myproc;
  ff <- getf f;
  match f_type ff with
  | FD_INODE | FD_DEVICE =>
      ilock (Some (f_ip ff));;
      st <- stati (f_ip ff);
      iunlock (Some (f_ip ff));;
      r <- liftK (copyout (p_pagetable p) addr (enc_stat pad st));
      if r <? 0 then Ret (-1) else Ret 0
  | _ => Ret (-1)
  end.

(** The access checks added before reads and writes: [bit] of the mode, and
    the recycle-bin flag. *)
Definition mode_ok (ff : file) (bit : Z) : M bool :=
  match f_type ff with
  | FD_DEVICE | FD_INODE =>
      i <- geti (f_ip ff);
      if Z.land (i_rwmode i) bit =? 0 then Ret false
      else if i_showmode i =? 0 then Ret false
      else Ret true
  | _ => Ret true
  end.

Definition dev_read (major addr n : Z) : M Z :=
  k <- P.get;
  p <- myproc;
  if (major <? 0) || (NDEV <=? major) then Ret (-1)
  else
    match k_devsw k !! Z.to_nat major with
    | Some (mkDev (Some rd) _) =>
        let '(r, m) := rd (k_mem k) (p_pagetable p) addr n in
        modk (set_mem (fun _ => m));;
        Ret r
    | _ => Ret (-1)
    end.

Definition dev_write (major addr n : Z) : M Z :=
  k <- P.get;
  p <- myproc;
  if (major <? 0) || (NDEV <=? major) then Ret (-1)
  else
    match k_devsw k !! Z.to_nat major with
    | Some (mkDev _ (Some wr)) => Ret (wr (k_mem k) (p_pagetable p) addr n)
    | _ => Ret (-1)
    end.

Definition fileread (f : nat) (addr n : Z) : M Z :=
  ff <- getf f;
  if negb (f_readable ff) then Ret (-1)
  else
    ok <- mode_ok ff 2;
    if negb ok then Ret (-1)
    else
      match f_type ff with
      | FD_PIPE => liftK (piperead (f_pipe ff) addr n)
      | FD_DEVICE => dev_read (f_major ff) addr n
      | FD_INODE =>
          ilock (Some (f_ip ff));;
          ff <- getf f;
          '(r, _) <- readi (f_ip ff) (UserDst addr) (f_off ff) (u32 n);
          (if 0 <? r then modf f (fun g => f_set_off (u32 (f_off g + r)) g) else Ret tt);;
          iunlock (Some (f_ip ff));;
          Ret r
      | FD_NONE => panic "fileread"
      end.

(** The loop of filewrite: at most five blocks per transaction. *)
Fixpoint filewrite_loop (fuel : nat) (f : nat) (addr n i : Z) : M Z :=
  match fuel with
  | O => WrongP "filewrite: fuel"
  | S fuel =>
      if negb (i <? n) then Ret i
      else
        let max := (MAXOPBLOCKS - 1 - 1 - 2) / 2 * BSIZE in
        let n1 := Z.min (n - i) max in
        P.begin_op;;
        ff <- getf f;
        ilock (Some (f_ip ff));;
        ff <- getf f;
        r <- writei (f_ip ff) (UserSrc (u64 (addr + i))) (f_off ff) n1;
        (if 0 <? r then modf f (fun g => f_set_off (u32 (f_off g + r)) g) else Ret tt);;
        iunlock (Some (f_ip ff));;
        P.end_op;;
        if negb (r =? n1) then Ret i
        else filewrite_loop fuel f addr n (i + r)
  end.

Definition filewrite (f : nat) (addr n : Z) : M Z :=
  ff <- getf f;
  if negb (f_writable ff) then Ret (-1)
  else
    ok <- mode_ok ff 1;
    if negb ok then Ret (-1)
    else
      match f_type ff with
      | FD_PIPE => liftK (pipewrite (f_pipe ff) addr n)
      | FD_DEVICE => dev_write (f_major ff) addr n
      | FD_INODE =>
          i <- filewrite_loop (Z.to_nat (Z.max n 0 / 5120 + 2)) f addr n 0;
          Ret (if i =? n then n else -1)
      | FD_NONE => panic "filewrite"
      end.

Definition pipealloc : M (option (nat * nat)) :=
  f0 <- filealloc;
  match f0 with
  | None => Ret None
  | Some f0 =>
      f1 <- filealloc;
      match f1 with
      | None => fileclose f0;; Ret None
      | Some f1 =>
          pi <- liftK kalloc;
          if pi =? 0 then fileclose f0;; fileclose f1;; Ret None
          else
            modk (set_pipes (insert pi pipe_new));;
            modf f0 (f_set_pipe pi true false);;
            modf f1 (f_set_pipe pi false true);;
            Ret (Some (f0, f1))
      end
  end.
