(* ===== verification/Sysfile.v ===== *)
(** * File system calls (kernel/sysfile.c, syscall.c, and the mode calls of
    proc.c and sysproc.c)

    Each call is its argument fetching followed by a body on the fetched
    values; the bodies carry the names of the calls with a trailing [_]. *)
From S2P Require Import Prelude Str Bio Log Crash Machine Types Vm Codec Ld Balloc Inode Dir Pipe File.
Local Open Scope prog_scope.

Notation O_RDONLY := 0 (only parsing).
Notation O_WRONLY := 0x001 (only parsing).
Notation O_RDWR := 0x002 (only parsing).
Notation O_EXTENT := 0x004 (only parsing).
Notation O_CREATE := 0x200 (only parsing).
Notation O_TRUNC := 0x400 (only parsing).
Notation O_NOFOLLOW := 0x800 (only parsing).
Notation O_APPEND := 0x1000 (only parsing).
Notation SEEK_SET := 0 (only parsing).
Notation SEEK_CUR := 1 (only parsing).
Notation SEEK_END := 2 (only parsing).

Definition flag (omode bit : Z) : bool := negb (Z.land omode bit =? 0).

(** ** Arguments (syscall.c) *)

(** [None] for -1. *)
Definition fetchaddr (addr : Z) : M (option Z) :=
  p <- myproc;
  if (p_sz p <=? addr) || (p_sz p <? u64 (addr + 8)) then Ret None
  else
    '(r, d) <- liftK (copyin (p_pagetable p) addr 8);
    if negb (r =? 0) then Ret None else Ret (Some (le_dec d)).

(** The string with its NUL. *)
Definition fetchstr (addr max : Z) : M (option bytes) :=
  p <- myproc;
  '(err, buf) <- liftK (copyinstr (p_pagetable p) addr max);
  if err <? 0 then Ret None else Ret (Some buf).

(** [p->trapframe->a0 ..]: register [an] at offset 112 + 8n. *)
Definition argraw (n : Z) : M Z :=
  p <- myproc;
  if (n <? 0) || (5 <? n) then panic "argraw"
  else liftK (ldm64 (p_trapframe p + 112 + 8 * n)).

Definition argint (n : Z) : M Z := x <- argraw n; Ret (s32 x).
Definition argaddr (n : Z) : M Z := argraw n.
Definition argstr (n max : Z) : M (option bytes) := addr <- argaddr n; fetchstr addr max.

(** The descriptor and its file. *)
Definition argfd (n : Z) : M (option (Z * nat)) :=
  fd <- argint n;
  p <- myproc;
  if (fd <? 0) || (Z.of_nat NOFILE <=? fd) then Ret None
  else
    match p_ofile p !! Z.to_nat fd with
    | Some (Some f) => Ret (Some (fd, f))
    | _ => Ret None
    end.

Fixpoint free_fd (l : list (option nat)) (fd : Z) : option Z :=
  match l with
  | [] => None
  | None :: _ => Some fd
  | Some _ :: l => free_fd l (fd + 1)
  end.

Definition set_ofile (fd : Z) (f : option nat) : M unit :=
  modproc (p_set_ofile (fun l => <[Z.to_nat fd := f]> l)).

(** The descriptor, or -1. *)
Definition fdalloc (f : nat) : M Z :=
  p <- myproc;
  match free_fd (p_ofile p) 0 with
  | Some fd => set_ofile fd (Some f);; Ret fd
  | None => Ret (-1)
  end.

(** ** Calls on descriptors *)

Definition sys_dup_ (f : nat) : M Z :=
  fd <- fdalloc f;
  if fd <? 0 then Ret (-1) else filedup f;; Ret fd.
Definition sys_dup : M Z :=
  a <- argfd 0;
  match a with None => Ret (-1) | Some (_, f) => sys_dup_ f end.

Definition sys_read : M Z :=
  a <- argfd 0;
  match a with
  | None => Ret (-1)
  | Some (_, f) => n <- argint 2; p <- argaddr 1; fileread f p n
  end.

Definition sys_write : M Z :=
  a <- argfd 0;
  match a with
  | None => Ret (-1)
  | Some (_, f) => n <- argint 2; p <- argaddr 1; filewrite f p n
  end.

Definition sys_close_ (fd : Z) (f : nat) : M Z :=
  set_ofile fd None;;
  fileclose f;;
  Ret 0.
Definition sys_close : M Z :=
  a <- argfd 0;
  match a with None => Ret (-1) | Some (fd, f) => sys_close_ fd f end.

Definition sys_fstat (pad : bytes) : M Z :=
  a <- argfd 0;
  match a with
  | None => Ret (-1)
  | Some (_, f) => st <- argaddr 1; filestat pad f st
  end.

Definition sys_lseek_ (f : nat) (off whence : Z) : M Z :=
  ff <- getf f;
  if negb (bool_decide (f_type ff = FD_INODE)) then Ret (-1)
  else
    i <- geti (f_ip ff);
    let newoff :=
      if whence =? SEEK_SET then off
      else if whence =? SEEK_CUR then s32 (f_off ff + off)
      else if whence =? SEEK_END then s32 (i_size i + off)
      else -1 in
    if newoff <? 0 then Ret (-1)
    else
      let newoff := if i_size i <? newoff then s32 (i_size i) else newoff in
      modf f (f_set_off (u32 newoff));;
      Ret (u32 newoff).
Definition sys_lseek : M Z :=
  a <- argfd 0;
  match a with
  | None => Ret (-1)
  | Some (_, f) => off <- argint 1; whence <- argint 2; sys_lseek_ f off whence
  end.

(** ** Links *)

Definition addlink (d : Z) (i : inode) : inode := i_set_nlink (s16 (i_nlink i + d)) i.

Definition sys_link_ (old new : bytes) : M Z :=
  P.begin_op;;
  o <- namei old;
  match o with
  | None => P.end_op;; Ret (-1)
  | Some ip =>
      ilock (Some ip);;
      i <- geti ip;
      if i_type i =? T_DIR then iunlockput ip;; P.end_op;; Ret (-1)
      else
        modi ip (addlink 1);;
        iupdate ip;;
        iunlock (Some ip);;
        let bad :=
          ilock (Some ip);;
          modi ip (addlink (-1));;
          iupdate ip;;
          iunlockput ip;;
          P.end_op;;
          Ret (-1) in
        d <- nameiparent new;
        match d with
        | None => bad
        | Some (dp, name) =>
            ilock (Some dp);;
            di <- geti dp;
            i <- geti ip;
            r <- (if negb (i_dev di =? i_dev i) then Ret (-1) else dirlink dp name (i_inum i));
            if r <? 0 then iunlockput dp;; bad
            else
              iunlockput dp;;
              iput ip;;
              P.end_op;;
              Ret 0
        end
  end.
Definition sys_link : M Z :=
  old <- argstr 0 MAXPATH;
  match old with
  | None => Ret (-1)
  | Some old =>
      new <- argstr 1 MAXPATH;
      match new with None => Ret (-1) | Some new => sys_link_ old new end
  end.

Fixpoint isdirempty_loop (fuel : nat) (dp : nat) (off : Z) : M bool :=
  match fuel with
  | O => WrongP "isdirempty: fuel"
  | S fuel =>
      i <- geti dp;
      if negb (off <? i_size i) then Ret true
      else
        '(r, d) <- readi dp KernDst off 16;
        if negb (r =? 16) then panic "isdirempty: readi"
        else if negb (de_inum (dec_dirent d) =? 0) then Ret false
        else isdirempty_loop fuel dp (off + 16)
  end.
Definition isdirempty (dp : nat) : M bool :=
  i <- geti dp;
  isdirempty_loop (Z.to_nat (i_size i / 16 + 2)) dp 32.

Definition sys_unlink_ (path : bytes) : M Z :=
  P.begin_op;;
  d <- nameiparent path;
  match d with
  | None => P.end_op;; Ret (-1)
  | Some (dp, name) =>
      ilock (Some dp);;
      let bad := iunlockput dp;; P.end_op;; Ret (-1) in
      if (namecmp name str_dot =? 0) || (namecmp name str_dotdot =? 0) then bad
      else
        o <- dirlookup dp name;
        match o with
        | None => bad
        | Some (ip, off) =>
            ilock (Some ip);;
            i <- geti ip;
            if i_nlink i <? 1 then panic "unlink: nlink < 1"
            else
              busy <- (if i_type i =? T_DIR then e <- isdirempty ip; Ret (negb e) else Ret false);
              if busy : bool then iunlockput ip;; bad
              else
                r <- writei dp (KernSrc (zeros 16)) off 16;
                if negb (r =? 16) then panic "unlink: writei"
                else
                  i <- geti ip;
                  (if i_type i =? T_DIR then modi dp (addlink (-1));; iupdate dp else Ret tt);;
                  iunlockput dp;;
                  modi ip (addlink (-1));;
                  iupdate ip;;
                  iunlockput ip;;
                  P.end_op;;
                  Ret 0
        end
  end.
Definition sys_unlink : M Z :=
  path <- argstr 0 MAXPATH;
  match path with None => Ret (-1) | Some path => sys_unlink_ path end.

(** ** Creation and opening *)

(** Returns the inode locked. *)
Definition create (path : bytes) (type major minor : Z) : M (option nat) :=
  d <- nameiparent path;
  match d with
  | None => Ret None
  | Some (dp, name) =>
      ilock (Some dp);;
      o <- dirlookup dp name;
      match o with
      | Some (ip, _) =>
          iunlockput dp;;
          ilock (Some ip);;
          i <- geti ip;
          if (type =? T_FILE) && ((i_type i =? T_FILE) || (i_type i =? T_DEVICE)) then Ret (Some ip)
          else if i_type i =? T_SYMLINK then Ret (Some ip)
          else iunlockput ip;; Ret None
      | None =>
          di <- geti dp;
          ip <- ialloc (i_dev di) type;
          ilock (Some ip);;
          modi ip (fun i => i_set_showmode 1 (i_set_nlink 1 (i_set_devno major minor i)));;
          iupdate ip;;
          (if type =? T_DIR then
             modi dp (addlink 1);;
             iupdate dp;;
             di <- geti dp;
             build_dir_tree ip (i_inum di)
           else Ret tt);;
          i <- geti ip;
          r <- dirlink dp name (i_inum i);
          if r <? 0 then panic "create: dirlink"
          else iunlockput dp;; Ret (Some ip)
      end
  end.

(** "iam@admin9876" *)
Definition admin_password : bytes := [105; 97; 109; 64; 97; 100; 109; 105; 110; 57; 56; 55; 54; 0].

(** The symbolic-link loop of sys_open; [None] after end_op. *)
Fixpoint open_follow (fuel : nat) (ip : nat) (omode cnt : Z) : M (option nat) :=
  match fuel with
  | O => WrongP "sys_open: fuel"
  | S fuel =>
      i <- geti ip;
      if (i_type i =? T_SYMLINK) && negb (flag omode O_NOFOLLOW) then
        '(n, path) <- readi ip KernDst 0 MAXPATH;
        if negb (n =? MAXPATH) then iunlockput ip;; P.end_op;; Ret None
        else
          iunlockput ip;;
          if negb (existsb (Z.eqb 0) path) then WrongP "unterminated path"
          else
            o <- namei path;
            match o with
            | None => P.end_op;; Ret None
            | Some ip =>
                if 10 <? cnt + 1 then P.end_op;; Ret None
                else ilock (Some ip);; open_follow fuel ip omode (cnt + 1)
            end
      else Ret (Some ip)
  end.

Definition sys_open_ (path : bytes) (omode : Z) (password : bytes) : M Z :=
  P.begin_op;;
  o <- (if flag omode O_CREATE then
          if omode =? O_EXTENT then create path T_EXTENT 0 0 else create path T_FILE 0 0
        else
          o <- namei path;
          match o with
          | None => Ret None
          | Some ip =>
              ilock (Some ip);;
              i <- geti ip;
              if (i_type i =? T_DIR) && negb (omode =? O_RDONLY) then iunlockput ip;; Ret None
              else Ret (Some ip)
          end);
  match o with
  | None => P.end_op;; Ret (-1)
  | Some ip =>
      o <- open_follow 12 ip omode 0;
      match o with
      | None => Ret (-1)
      | Some ip =>
          i <- geti ip;
          if (i_type i =? T_DEVICE) && ((i_major i <? 0) || (NDEV <=? i_major i)) then
            iunlockput ip;; P.end_op;; Ret (-1)
          else
            fo <- filealloc;
            match fo with
            | None => iunlockput ip;; P.end_op;; Ret (-1)
            | Some f =>
                fd <- fdalloc f;
                if fd <? 0 then fileclose f;; iunlockput ip;; P.end_op;; Ret (-1)
                else if (i_supermode i =? 1) && negb (strncmp password admin_password 13 =? 0) then
                  iunlockput ip;; P.end_op;; Ret (-1)
                else
                  (if i_type i =? T_DEVICE then
                     modf f (fun g => f_set_major (i_major i) (f_set_type FD_DEVICE g))
                   else
                     modf f (fun g => f_set_off (if flag omode O_APPEND then i_size i else 0)
                                        (f_set_type FD_INODE g)));;
                  modf f (f_set_ip ip (negb (flag omode O_WRONLY)) (flag omode O_WRONLY || flag omode O_RDWR));;
                  (if flag omode O_TRUNC && (i_type i =? T_FILE) then itrunc ip else Ret tt);;
                  iunlock (Some ip);;
                  P.end_op;;
                  Ret fd
            end
      end
  end.
Definition sys_open : M Z :=
  path <- argstr 0 MAXPATH;
  match path with
  | None => Ret (-1)
  | Some path =>
      omode <- argint 1;
      password <- argstr 2 30;
      match password with None => Ret (-1) | Some password => sys_open_ path omode password end
  end.

(** Create an inode inside the transaction and drop it again. *)
Definition create_and_put (path : option bytes) (type major minor : Z) : M Z :=
  o <- match path with Some path => create path type major minor | None => Ret None end;
  match o with
  | None => P.end_op;; Ret (-1)
  | Some ip => iunlockput ip;; P.end_op;; Ret 0
  end.

Definition sys_mkdir : M Z :=
  P.begin_op;;
  path <- argstr 0 MAXPATH;
  create_and_put path T_DIR 0 0.

Definition sys_mknod : M Z :=
  P.begin_op;;
  path <- argstr 0 MAXPATH;
  match path with
  | None => create_and_put None T_DEVICE 0 0
  | Some path =>
      major <- argint 1;
      minor <- argint 2;
      create_and_put (Some path) T_DEVICE (s16 major) (s16 minor)
  end.

Definition sys_chdir : M Z :=
  p <- myproc;
  P.begin_op;;
  path <- argstr 0 MAXPATH;
  o <- match path with Some path => namei path | None => Ret None end;
  match o with
  | None => P.end_op;; Ret (-1)
  | Some ip =>
      ilock (Some ip);;
      i <- geti ip;
      if negb (i_type i =? T_DIR) then iunlockput ip;; P.end_op;; Ret (-1)
      else
        iunlock (Some ip);;
        match p_cwd p with
        | Some cwd => iput cwd
        | None => WrongP "no current directory"
        end;;
        P.end_op;;
        modproc (p_set_cwd (Some ip));;
        Ret 0
  end.

(** ** Pipes and information *)

Definition sys_pipe_ (fdarray : Z) : M Z :=
  p <- myproc;
  fs <- pipealloc;
  match fs with
  | None => Ret (-1)
  | Some (rf, wf) =>
      fd0 <- fdalloc rf;
      if fd0 <? 0 then fileclose rf;; fileclose wf;; Ret (-1)
      else
        fd1 <- fdalloc wf;
        if fd1 <? 0 then set_ofile fd0 None;; fileclose rf;; fileclose wf;; Ret (-1)
        else
          r0 <- liftK (copyout (p_pagetable p) fdarray (le_enc 4 fd0));
          r1 <- (if r0 <? 0 then Ret (-1)
                 else liftK (copyout (p_pagetable p) (u64 (fdarray + 4)) (le_enc 4 fd1)));
          if r1 <? 0 then
            set_ofile fd0 None;;
            set_ofile fd1 None;;
            fileclose rf;;
            fileclose wf;;
            Ret (-1)
          else Ret 0
  end.
Definition sys_pipe : M Z := a <- argaddr 0; sys_pipe_ a.

Definition sys_fsinfo : M Z :=
  sb_user <- argaddr 0;
  p <- myproc;
  sb <- getsb;
  r <- liftK (copyout (p_pagetable p) sb_user (enc_sb sb));
  if r <? 0 then Ret (-1) else Ret 0.

(** Only prints; the copy and the printing leave the state alone. *)
Definition sys_showstat : M Z :=
  st_addr <- argaddr 0;
  p <- myproc;
  liftK (copyin (p_pagetable p) st_addr 88);;
  Ret 0.

Definition sys_sysinfo : M Z :=
  p <- myproc;
  addr <- argaddr 0;
  freemem <- liftK freemem_size;
  r <- liftK (copyout (p_pagetable p) addr (le_enc 4 freemem));
  if r <? 0 then Ret (-1) else Ret 0.

(** [target] is the 128-byte array after argstr: the string and what the
    stack held behind it. *)
Definition sys_symlink_ (target path : bytes) : M Z :=
  P.begin_op;;
  o <- create path T_SYMLINK 0 0;
  match o with
  | None => P.end_op;; Ret (-1)
  | Some ip =>
      r <- writei ip (KernSrc target) 0 MAXPATH;
      if negb (r =? MAXPATH) then P.end_op;; Ret (-1)
      else
        iupdate ip;;
        iunlockput ip;;
        P.end_op;;
        Ret 0
  end.
Definition sys_symlink (stack : bytes) : M Z :=
  target <- argstr 0 MAXPATH;
  match target with
  | None => Ret (-1)
  | Some target =>
      path <- argstr 1 MAXPATH;
      match path with
      | None => Ret (-1)
      | Some path => sys_symlink_ (splice 0 target stack) path
      end
  end.

(** ** Recycle bin and modes *)

(** Update, unlock and commit: the common end of the calls below. *)
Definition finish (ip : option nat) : M Z :=
  match ip with Some ip => iupdate ip | None => WrongP "null inode" end;;
  iunlock ip;;
  P.end_op;;
  Ret 0.

Definition sys_delete_ (path : bytes) : M Z :=
  P.begin_op;;
  o <- namei path;
  match o with
  | None => P.end_op;; Ret (-1)
  | Some ip =>
      ilock (Some ip);;
      i <- geti ip;
      if i_showmode i =? 1 then
        modi ip (i_set_showmode 0);;
        finish (Some ip)
      else
        d <- nameiparent path;
        match d with
        | None => P.end_op;; Ret (-1)
        | Some (dp, name) =>
            ilock (Some dp);;
            let fail (ip : option nat) := iunlockput dp;; iunlock ip;; P.end_op;; Ret (-1) in
            if (namecmp name str_dot =? 0) || (namecmp name str_dotdot =? 0) then fail (Some ip)
            else
              o <- dirlookup dp name;
              match o with
              | None => fail None
              | Some (ip, off) =>
                  i <- geti ip;
                  if i_nlink i <? 1 then panic "unlink: nlink < 1"
                  else
                    busy <- (if i_type i =? T_DIR then e <- isdirempty ip; Ret (negb e) else Ret false);
                    if busy : bool then fail (Some ip)
                    else
                      r <- writei dp (KernSrc (zeros 16)) off 16;
                      if negb (r =? 16) then panic "unlink: writei"
                      else
                        i <- geti ip;
                        (if i_type i =? T_DIR then modi dp (addlink (-1));; iupdate dp else Ret tt);;
                        iunlockput dp;;
                        modi ip (addlink (-1));;
                        finish (Some ip)
              end
        end
  end.
Definition sys_delete : M Z :=
  path <- argstr 0 MAXPATH;
  match path with None => Ret (-1) | Some path => sys_delete_ path end.

(** Change a field of the inode a path names, as sys_show, chmode and
    chspmode do. *)
Definition set_field (path : bytes) (g : inode -> inode) : M Z :=
  P.begin_op;;
  o <- namei path;
  match o with
  | None => P.end_op;; Ret (-1)
  | Some ip =>
      ilock (Some ip);;
      modi ip g;;
      finish (Some ip)
  end.

Definition sys_show_ (path : bytes) : M Z := set_field path (i_set_showmode 1).
Definition sys_show : M Z :=
  path <- argstr 0 MAXPATH;
  match path with None => Ret (-1) | Some path => sys_show_ path end.

Definition chmode (path : bytes) (mode : Z) : M Z := set_field path (i_set_rwmode (u32 mode)).
Definition sys_chmode : M Z :=
  path <- argstr 0 MAXPATH;
  match path with None => Ret (-1) | Some path => mode <- argint 1; chmode path mode end.

Definition chspmode (path password : bytes) (supermode : Z) : M Z :=
  if negb (strncmp password admin_password 13 =? 0) then Ret (-1)
  else set_field path (i_set_supermode (u32 supermode)).
Definition sys_chspmode : M Z :=
  path <- argstr 0 MAXPATH;
  match path with
  | None => Ret (-1)
  | Some path =>
      password <- argstr 1 30;
      match password with
      | None => Ret (-1)
      | Some password => supermode <- argint 2; chspmode path password supermode
      end
  end.
