(* ===== verification/Proc.v ===== *)
(** * Processes (kernel/proc.c)

    The process table and its operations.  Each definition is what its
    function does while it holds the locks it takes, so an operation is one
    step; a process that has to wait is put to sleep and its call is started
    again when it runs next.  The saved kernel registers (context, kernel
    stack) are not part of the model.  [trampoline] is the address of the page
    of assembly code mapped into every process. *)
From S2P Require Import Prelude Str Bio Log Crash Machine Types Vm Codec Ld Balloc Inode Dir Pipe File.
Local Open Scope st_scope.

(** ** Record updates *)
Definition set_nextpid (x : Z) (k : kst) : kst :=
  mkK (k_sb k) (k_itable k) (k_ftable k) (k_pipes k) (k_mem k) (k_freelist k) (k_end k)
      (k_procs k) (k_cur k) (k_initproc k) x (k_devsw k).
Definition set_initproc (x : option nat) (k : kst) : kst :=
  mkK (k_sb k) (k_itable k) (k_ftable k) (k_pipes k) (k_mem k) (k_freelist k) (k_end k)
      (k_procs k) (k_cur k) x (k_nextpid k) (k_devsw k).
Definition set_cur (x : nat) (k : kst) : kst :=
  mkK (k_sb k) (k_itable k) (k_ftable k) (k_pipes k) (k_mem k) (k_freelist k) (k_end k)
      (k_procs k) x (k_initproc k) (k_nextpid k) (k_devsw k).

Definition p_set_chan (c : Z) (p : proc) : proc :=
  mkP (p_state p) c (p_killed p) (p_xstate p) (p_pid p) (p_parent p) (p_sz p) (p_pagetable p)
      (p_trapframe p) (p_ofile p) (p_cwd p) (p_name p).
Definition p_set_killed (b : bool) (p : proc) : proc :=
  mkP (p_state p) (p_chan p) b (p_xstate p) (p_pid p) (p_parent p) (p_sz p) (p_pagetable p)
      (p_trapframe p) (p_ofile p) (p_cwd p) (p_name p).
Definition p_set_xstate (x : Z) (p : proc) : proc :=
  mkP (p_state p) (p_chan p) (p_killed p) x (p_pid p) (p_parent p) (p_sz p) (p_pagetable p)
      (p_trapframe p) (p_ofile p) (p_cwd p) (p_name p).
Definition p_set_pid (x : Z) (p : proc) : proc :=
  mkP (p_state p) (p_chan p) (p_killed p) (p_xstate p) x (p_parent p) (p_sz p) (p_pagetable p)
      (p_trapframe p) (p_ofile p) (p_cwd p) (p_name p).
Definition p_set_parent (x : option nat) (p : proc) : proc :=
  mkP (p_state p) (p_chan p) (p_killed p) (p_xstate p) (p_pid p) x (p_sz p) (p_pagetable p)
      (p_trapframe p) (p_ofile p) (p_cwd p) (p_name p).
Definition p_set_sz (x : Z) (p : proc) : proc :=
  mkP (p_state p) (p_chan p) (p_killed p) (p_xstate p) (p_pid p) (p_parent p) x (p_pagetable p)
      (p_trapframe p) (p_ofile p) (p_cwd p) (p_name p).
Definition p_set_pagetable (x : Z) (p : proc) : proc :=
  mkP (p_state p) (p_chan p) (p_killed p) (p_xstate p) (p_pid p) (p_parent p) (p_sz p) x
      (p_trapframe p) (p_ofile p) (p_cwd p) (p_name p).
Definition p_set_trapframe (x : Z) (p : proc) : proc :=
  mkP (p_state p) (p_chan p) (p_killed p) (p_xstate p) (p_pid p) (p_parent p) (p_sz p) (p_pagetable p)
      x (p_ofile p) (p_cwd p) (p_name p).
Definition p_set_name (x : bytes) (p : proc) : proc :=
  mkP (p_state p) (p_chan p) (p_killed p) (p_xstate p) (p_pid p) (p_parent p) (p_sz p) (p_pagetable p)
      (p_trapframe p) (p_ofile p) (p_cwd p) x.

(** [proc[i]] *)
Definition getp (i : nat) : stM kst proc := fun k => Ok (nth i (k_procs k) proc0) k.
Definition modp (i : nat) (g : proc -> proc) : stM kst unit := smodify (set_procs (alter g i)).

(** The channel a process sleeps on in wait: its own address.  Static
    addresses are small numbers, below every page address. *)
Definition ch_proc (p : option nat) : Z := match p with Some i => 1 + Z.of_nat i | None => 0 end.

(** ** Allocation *)

Definition procinit : stM kst unit := smodify (set_procs (fun _ => replicate NPROC proc0)).

Definition allocpid : stM kst Z :=
  k <- sget;
  smodify (set_nextpid (s32 (k_nextpid k + 1)));;
  sret (k_nextpid k).

Definition proc_freepagetable (pagetable sz : Z) : stM kst unit :=
  uvmunmap pagetable TRAMPOLINE 1 false;;
  uvmunmap pagetable TRAPFRAME 1 false;;
  uvmfree pagetable sz.

Definition freeproc (i : nat) : stM kst unit :=
  p <- getp i;
  (if negb (p_trapframe p =? 0) then kfree (p_trapframe p) else sret tt);;
  modp i (p_set_trapframe 0);;
  (if negb (p_pagetable p =? 0) then proc_freepagetable (p_pagetable p) (p_sz p) else sret tt);;
  modp i (p_set_pagetable 0);;
  modp i (p_set_sz 0);;
  modp i (p_set_pid 0);;
  modp i (p_set_parent None);;
  modp i (fun q => p_set_name (setb 0 0 (p_name q)) q);;
  modp i (p_set_chan 0);;
  modp i (p_set_killed false);;
  modp i (p_set_xstate 0);;
  modp i (p_set_state UNUSED).

Fixpoint find_unused (l : list proc) (i : nat) : option nat :=
  match l with
  | [] => None
  | p :: l => if bool_decide (p_state p = UNUSED) then Some i else find_unused l (S i)
  end.

Definition proc_pagetable (trampoline : Z) (i : nat) : stM kst Z :=
  pagetable <- uvmcreate;
  if pagetable =? 0 then sret 0
  else
    r <- mappages pagetable TRAMPOLINE PGSIZE trampoline (Z.lor PTE_R PTE_X);
    if r <? 0 then uvmfree pagetable 0;; sret 0
    else
      p <- getp i;
      r <- mappages pagetable TRAPFRAME PGSIZE (p_trapframe p) (Z.lor PTE_R PTE_W);
      if r <? 0 then
        uvmunmap pagetable TRAMPOLINE 1 false;;
        uvmfree pagetable 0;;
        sret 0
      else sret pagetable.

Definition allocproc (trampoline : Z) : stM kst (option nat) :=
  k <- sget;
  match find_unused (k_procs k) 0 with
  | None => sret None
  | Some i =>
      pid <- allocpid;
      modp i (p_set_pid pid);;
      modp i (p_set_state USED);;
      tf <- kalloc;
      modp i (p_set_trapframe tf);;
      if tf =? 0 then freeproc i;; sret None
      else
        pt <- proc_pagetable trampoline i;
        modp i (p_set_pagetable pt);;
        if pt =? 0 then freeproc i;; sret None
        else sret (Some i)
  end.

(** ** Scheduling *)

(** scheduler's body for process [i]. *)
Definition sched_proc (i : nat) : stM kst bool :=
  p <- getp i;
  if bool_decide (p_state p = RUNNABLE) then
    modp i (p_set_state RUNNING);;
    smodify (set_cur i);;
    sret true
  else sret false.

(** The scheduler when the process has switched back: no process is current. *)
Definition sched_return : stM kst unit := smodify (set_cur NPROC).

(** yield and sleep, up to the switch to the scheduler. *)
Definition yield : stM kst unit := k <- sget; modp (k_cur k) (p_set_state RUNNABLE).
Definition sleep (chan : Z) : stM kst unit :=
  k <- sget;
  modp (k_cur k) (p_set_chan chan);;
  modp (k_cur k) (p_set_state SLEEPING).
(** sleep, after the process runs again. *)
Definition sleep_return : stM kst unit := k <- sget; modp (k_cur k) (p_set_chan 0).

Fixpoint kill_scan (l : list proc) (i : nat) (pid : Z) : option nat :=
  match l with
  | [] => None
  | p :: l => if p_pid p =? pid then Some i else kill_scan l (S i) pid
  end.
Definition kill (pid : Z) : stM kst Z :=
  k <- sget;
  match kill_scan (k_procs k) 0 pid with
  | None => sret (-1)
  | Some i =>
      modp i (p_set_killed true);;
      modp i (fun p => if bool_decide (p_state p = SLEEPING) then p_set_state RUNNABLE p else p);;
      sret 0
  end.

Definition proc_num : stM kst Z := fun k =>
  Ok (s32 (zlen (filter (fun p => p_state p <> UNUSED) (k_procs k)))) k.

(** ** Exit and wait *)

Definition reparent (i : nat) : stM kst unit :=
  sfor (seq 0 NPROC) (fun j =>
    q <- getp j;
    if bool_decide (p_parent q = Some i) then
      k <- sget;
      modp j (p_set_parent (k_initproc k));;
      wakeup (ch_proc (k_initproc k))
    else sret tt).

(** exit from the point where the files are closed; the process never runs
    again. *)
Definition exit_finish (status : Z) : stM kst unit :=
  k <- sget;
  let i := k_cur k in
  reparent i;;
  p <- getp i;
  wakeup (ch_proc (p_parent p));;
  modp i (p_set_xstate status);;
  modp i (p_set_state ZOMBIE).

(** The scan of wait over the table from entry [j] on: done, or nothing found
    with the flag havekids. *)
Inductive wres := WDone (r : Z) | WNone (havekids : bool).

Fixpoint wait_scan (js : list nat) (i : nat) (addr : Z) (havekids : bool) : stM kst wres :=
  match js with
  | [] => sret (WNone havekids)
  | j :: js =>
      np <- getp j;
      if bool_decide (p_parent np = Some i) then
        if bool_decide (p_state np = ZOMBIE) then
          p <- getp i;
          r <- (if addr =? 0 then sret 0 else copyout (p_pagetable p) addr (le_enc 4 (p_xstate np)));
          if r <? 0 then sret (WDone (-1))
          else freeproc j;; sret (WDone (p_pid np))
        else wait_scan js i addr true
      else wait_scan js i addr havekids
  end.

(** One pass of the loop of wait: a result, or the process sleeps. *)
Definition wait (addr : Z) : stM kst (option Z) :=
  k <- sget;
  let i := k_cur k in
  r <- wait_scan (seq 0 NPROC) i addr false;
  match r with
  | WDone r => sret (Some r)
  | WNone havekids =>
      p <- getp i;
      if negb havekids || p_killed p then sret (Some (-1))
      else sleep (ch_proc (Some i));; sret None
  end.

(** ** Memory size *)

Definition growproc (n : Z) : stM kst Z :=
  k <- sget;
  p <- getp (k_cur k);
  let sz := u32 (p_sz p) in
  if 0 <? n then
    r <- uvmalloc (p_pagetable p) sz (u32 (sz + n));
    let sz := u32 r in
    if sz =? 0 then sret (-1) else modp (k_cur k) (p_set_sz sz);; sret 0
  else if n <? 0 then
    r <- uvmdealloc (p_pagetable p) sz (u32 (sz + n));
    modp (k_cur k) (p_set_sz (u32 r));; sret 0
  else modp (k_cur k) (p_set_sz sz);; sret 0.

Local Close Scope st_scope.
Local Open Scope prog_scope.

(** ** Creation and exit, with the file system *)

(** The child's registers: a copy of the parent's, with 0 in a0. *)
Definition copy_trapframe (dst src : Z) : stM kst unit := fun k =>
  sbind (smodify (set_mem (pm_write dst (pm_read (k_mem k) src 288)))) (fun _ => stm64 (dst + 112) 0) k.

Definition fork (trampoline : Z) : M Z :=
  p <- myproc;
  np <- liftK (allocproc trampoline);
  match np with
  | None => Ret (-1)
  | Some np =>
      q <- liftK (getp np);
      r <- liftK (uvmcopy (p_pagetable p) (p_pagetable q) (p_sz p));
      if r <? 0 then liftK (freeproc np);; Ret (-1)
      else
        liftK (modp np (p_set_sz (p_sz p)));;
        liftK (copy_trapframe (p_trapframe q) (p_trapframe p));;
        pfor (seq 0 NOFILE) (fun i =>
          match p_ofile p !! i with
          | Some (Some f) => f' <- filedup f; liftK (modp np (p_set_ofile (<[i := Some f']>)))
          | _ => Ret tt
          end);;
        cwd <- (match p_cwd p with Some ip => idup ip | None => WrongP "no current directory" end);
        liftK (modp np (p_set_cwd (Some cwd)));;
        liftK (modp np (fun c => p_set_name (splice 0 (safestrcpy (p_name p) 16) (p_name c)) c));;
        q <- liftK (getp np);
        k <- P.get;
        liftK (modp np (p_set_parent (Some (k_cur k))));;
        liftK (modp np (p_set_state RUNNABLE));;
        Ret (p_pid q)
  end.

Definition exit (status : Z) : M unit :=
  k <- P.get;
  if bool_decide (Some (k_cur k) = k_initproc k) then panic "init exiting"
  else
    pfor (seq 0 NOFILE) (fun fd =>
      p <- myproc;
      match p_ofile p !! fd with
      | Some (Some f) => fileclose f;; modproc (p_set_ofile (<[fd := None]>))
      | _ => Ret tt
      end);;
    P.begin_op;;
    p <- myproc;
    (match p_cwd p with Some ip => iput ip | None => WrongP "no current directory" end);;
    P.end_op;;
    modproc (p_set_cwd None);;
    liftK (exit_finish status).

(** [initcode], from proc.c *)
Definition initcode : bytes :=
  [0x17; 0x05; 0x00; 0x00; 0x13; 0x05; 0x45; 0x02;
   0x97; 0x05; 0x00; 0x00; 0x93; 0x85; 0x35; 0x02;
   0x93; 0x08; 0x70; 0x00; 0x73; 0x00; 0x00; 0x00;
   0x93; 0x08; 0x20; 0x00; 0x73; 0x00; 0x00; 0x00;
   0xef; 0xf0; 0x9f; 0xff; 0x2f; 0x69; 0x6e; 0x69;
   0x74; 0x00; 0x00; 0x24; 0x00; 0x00; 0x00; 0x00;
   0x00; 0x00; 0x00; 0x00].

Definition userinit (trampoline : Z) : M unit :=
  p <- liftK (allocproc trampoline);
  match p with
  | None => WrongP "no process for init"
  | Some i =>
      liftK (smodify (set_initproc (Some i)));;
      q <- liftK (getp i);
      liftK (uvminit (p_pagetable q) initcode);;
      liftK (modp i (p_set_sz PGSIZE));;
      liftK (stm64 (p_trapframe q + 24) 0);;
      liftK (stm64 (p_trapframe q + 48) PGSIZE);;
      liftK (modp i (fun c => p_set_name (splice 0 (safestrcpy [105; 110; 105; 116; 99; 111; 100; 101; 0] 16) (p_name c)) c));;
      cwd <- namei [47; 0];
      liftK (modp i (p_set_cwd cwd));;
      liftK (modp i (p_set_state RUNNABLE))
  end.
