(* ===== verification/Userinit.v ===== *)
(** * The first process (kernel/proc.c: allocproc, userinit; vm.c: uvminit)

    With free pages left, allocproc makes a process with a trapframe and an
    address space that maps the trampoline and the trapframe, and userinit
    turns the first one into the process that runs initcode.  How many pages
    that takes follows from the count of tables walk makes (Kvm.v). *)
From S2P Require Import Prelude Str Bio Log Crash Machine Types Vm Codec Kmem Pgtbl Uvm Kvm UvmSpec Ld Balloc Inode Dir Pipe File Proc.
Local Open Scope st_scope.

(** ** Lemmas: a mapping takes at most two pages *)

Lemma flat_map_sublist {A B} (f g : A -> list B) l : (forall x, f x `sublist_of` g x) -> flat_map f l `sublist_of` flat_map g l.
Proof. intros H. induction l as [|x l IH]; [done|]. cbn [flat_map]. by apply sublist_app. Qed.

Lemma ptree_sublist n m a : ptree n m a `sublist_of` ptree (S n) m a.
Proof.
  revert a. induction n as [|n IH]; intros a; rewrite (ptree_S _ m a).
  - change (ptree 0 m a) with [a]. apply sublist_skip, sublist_nil_l.
  - rewrite (ptree_S (S n)). apply sublist_skip, flat_map_sublist. intros i. by destruct (pv _).
Qed.

Lemma space_ktab k pt fl : space_ok k pt fl -> ktab_ok k pt fl.
Proof.
  intros [Mk R N F P]. split; [exact Mk|exact R| | |].
  - apply (sublist_NoDup _ (ptree 3 (k_mem k) pt)); [exact N|apply ptree_sublist].
  - intros x Hx. apply F, pinner_ptree. by rewrite pinner_tables.
  - intros x Hx. apply P. by rewrite pinner_tables.
Qed.

Lemma chain_det m h l l' : Forall (fun p => p <> 0) l -> Forall (fun p => p <> 0) l' -> chain m h l -> chain m h l' -> l = l'.
Proof.
  intros F F'. revert h l' F'. induction l as [|p l IH]; intros h [|p' l'] F'; cbn [chain]; try done.
  - intros -> [<- _]. by apply Forall_cons in F' as [? _].
  - intros [-> _] E. by apply Forall_cons in F as [? _].
  - intros [-> C] [-> C']. f_equal. apply Forall_cons in F as [_ F], F' as [_ F']. by apply (IH F (word m p' 0)).
Qed.

Lemma free_unique k l l' : mem_ok k l -> mem_ok k l' -> l = l'.
Proof.
  intros M1 M2. assert (P : forall l, mem_ok k l -> Forall (fun p => p <> 0) l).
  { intros x Mx. apply Forall_forall. intros p Hp. destruct (free_pos k x p Mx Hp). lia. }
  apply (chain_det (k_mem k) (k_freelist k)); [by apply P|by apply P|apply M1|apply M2].
Qed.

(** mappages of one page, with enough memory. *)
Lemma map_one pt a pa perm k fl :
  space_ok k pt fl -> a mod PGSIZE = 0 -> 0 <= a < MAXVA -> pa mod PGSIZE = 0 -> 0 <= pa < 2 ^ 56 -> 0 <= perm < 1024 ->
  trans (k_mem k) pt a = None -> pa ∉ ptree 3 (k_mem k) pt -> pa ∉ fl -> 2 < zlen fl ->
  exists k' fl', mappages pt a PGSIZE pa perm k = Ok 0 k' /\ zlen fl <= 2 + zlen fl' /\
    remapped k pt fl [pa] (upd_page a (Some (mapent pa perm)) (trans (k_mem k) pt)) k' fl'.
Proof.
  intros S Ha1 Ha2 Hp1 Hp2 Hperm Ht Hin Hfl Hlen.
  destruct (mappages_one_run pt a pa perm k fl S Ha1 Ha2 Hp1 Hp2 Hperm Ht Hin Hfl) as (r & k' & fl' & E & D).
  destruct (map_page_k pt a pa perm k fl 1 (space_ktab k pt fl S) Ha2 Hp1 Hp2 Hperm Ht ltac:(lia) ltac:(by right) ltac:(lia)) as (k2 & fl2 & E2 & _ & K).
  assert (Er : r = 0 /\ k' = k2).
  { rewrite mappages_one, mappages_loop_S in E by exact Ha1. unfold sbind in E. rewrite E2 in E. cbn [Z.eqb mappages_loop] in E.
    unfold sret in E. by simplify_eq. }
  destruct Er as [-> ->]. destruct D as [[_ D]|[D _]]; [|discriminate D]. exists k2, fl'. split; [exact E|]. split; [|exact D].
  rewrite (free_unique k2 fl' fl2 (so_mem (rm_ok D)) (kt_mem (km_ok K))). pose proof (km_used K). lia.
Qed.

(** ** Lemmas: an empty address space *)

Lemma space_new k p fl : mem_ok k (p :: fl) ->
  space_ok (zeroed p k) p fl /\ (forall va, trans (k_mem (zeroed p k)) p va = None) /\ ptree 3 (k_mem (zeroed p k)) p = [p].
Proof.
  intros Mk. destruct (ktab_new k p fl Mk) as ([M1 R N F P] & T & Et).
  assert (Hz : forall i, 0 <= i < 512 -> word (k_mem (zeroed p k)) p i = 0) by (intros i Hi; by apply word_zeros).
  destruct (ptree_zero 3 _ p Hz) as [E3 _]. split; [|split; [exact T|exact E3]].
  split; [exact M1|exact R|rewrite E3; apply NoDup_singleton| |].
  - intros x. rewrite E3, <- Et. apply F.
  - intros x. rewrite pinner_tables. apply P.
Qed.

Lemma only_mem_fields k k' : only_mem k k' -> k_procs k' = k_procs k /\ k_end k' = k_end k /\ k_itable k' = k_itable k /\
  k_cur k' = k_cur k /\ k_nextpid k' = k_nextpid k /\ k_initproc k' = k_initproc k.
Proof. intros ->. done. Qed.

Lemma mem_ok_same k k' l : k_mem k' = k_mem k -> k_freelist k' = k_freelist k -> k_end k' = k_end k -> mem_ok k l -> mem_ok k' l.
Proof.
  intros E1 E2 E3 [A B C D I]. split; rewrite ?E1, ?E2, ?E3; try done. apply (Forall_impl _ _ _ I). intros p. unfold page_in. by rewrite E3.
Qed.

Lemma space_same k k' pt l : k_mem k' = k_mem k -> k_freelist k' = k_freelist k -> k_end k' = k_end k -> space_ok k pt l -> space_ok k' pt l.
Proof. intros E1 E2 E3 [A B C D I]. split; rewrite ?E1; [by apply (mem_ok_same k)|assumption..]. Qed.

(** ** Lemmas: allocproc *)

Section Alloc.
  Context (trampoline : Z) (Ta : trampoline mod PGSIZE = 0) (Tb : 0 <= trampoline < 2 ^ 56).

(** The address space of a new process. *)
Definition empty_space (tf va : Z) : option Z :=
  if va / PGSIZE =? TRAPFRAME / PGSIZE then Some (mapent tf (Z.lor PTE_R PTE_W))
  else if va / PGSIZE =? TRAMPOLINE / PGSIZE then Some (mapent trampoline (Z.lor PTE_R PTE_X))
  else None.

(** An address space [pt] with translation [v] was made from pages of [fl]. *)
Record made (k : kst) (fl : list Z) (used pt : Z) (v : Z -> option Z) (k' : kst) (fl' : list Z) : Prop := {
  md_ok : space_ok k' pt fl';
  md_only : only_mem k k';
  md_fl : forall x, x ∈ fl' -> x ∈ fl;
  md_used : zlen fl <= used + zlen fl';
  md_frame : same_pages (k_mem k) (k_mem k') fl;
  md_elem : forall x, x ∈ ptree 3 (k_mem k') pt -> x ∈ fl \/ x = trampoline;
  md_inner : forall x, x ∈ pinner 3 (k_mem k') pt -> x ∈ fl;
  md_tr : forall va, 0 <= va < MAXVA -> trans (k_mem k') pt va = v va
}.

Lemma pagetable_run i k fl tf :
  mem_ok k fl -> p_trapframe (nth i (k_procs k) proc0) = tf -> tf mod PGSIZE = 0 -> 0 <= tf < 2 ^ 56 -> tf ∉ fl -> trampoline ∉ fl ->
  tf <> trampoline -> 5 < zlen fl ->
  exists pt k' fl', proc_pagetable trampoline i k = Ok pt k' /\ pt <> 0 /\ pt ∈ fl /\ zlen fl <= 5 + zlen fl' /\
    space_ok k' pt fl' /\ only_mem k k' /\ (forall x, x ∈ fl' -> x ∈ fl) /\ same_pages (k_mem k) (k_mem k') fl /\
    (forall x, x ∈ ptree 3 (k_mem k') pt -> x ∈ fl \/ x = trampoline \/ x = tf) /\
    (forall x, x ∈ pinner 3 (k_mem k') pt -> x ∈ fl) /\
    (forall va, 0 <= va < MAXVA -> trans (k_mem k') pt va = empty_space tf va).
Proof.
  intros Mk Etf F1 F2 F3 Tf Ft Hlen. destruct fl as [|pt fl]; [unfold zlen in Hlen; cbn in Hlen; lia|].
  apply not_elem_of_cons in F3 as [F3 F4], Tf as [T3 T4]. assert (Hl : 4 < zlen fl) by (unfold zlen in *; cbn [length] in Hlen; lia).
  destruct (free_pos k (pt :: fl) pt Mk ltac:(apply elem_of_cons; by left)) as [Hp _].
  destruct (space_new k pt fl Mk) as (S0 & V0 & E0).
  destruct (map_one pt TRAMPOLINE trampoline (Z.lor PTE_R PTE_X) _ fl S0) as (k1 & fl1 & E1 & U1 & R1);
    [done|lia|exact Ta|exact Tb|done|apply V0|rewrite E0; by rewrite list_elem_of_singleton|exact T4|lia|].
  assert (Hin : forall x, x ∈ ptree 3 (k_mem k1) pt -> x ∈ pt :: fl \/ x = trampoline).
  { intros x Hx. apply (rm_elem R1) in Hx. rewrite E0, !list_elem_of_singleton, elem_of_cons in *. tauto. }
  destruct (map_one pt TRAPFRAME tf (Z.lor PTE_R PTE_W) k1 fl1 (rm_ok R1)) as (k2 & fl2 & E2 & U2 & R2);
    [done|lia|exact F1|exact F2|done|rewrite (rm_tr R1) by lia; apply V0| | |lia|].
  { intros Hx. apply Hin in Hx. rewrite elem_of_cons in Hx. tauto. }
  { intros Hx. apply F4. by apply (rm_fl R1). }
  exists pt, k2, fl2. split.
  { unfold proc_pagetable, uvmcreate, sbind. rewrite (proj1 (kalloc_cons k pt fl Mk)). rewrite (proj2 (Z.eqb_neq pt 0)) by lia.
    unfold fill_page, smodify, sret. fold (zeroed pt k). rewrite (proj2 (Z.eqb_neq pt 0)) by lia. rewrite E1. cbn [Z.ltb Z.compare].
    unfold getp. destruct (only_mem_fields _ _ (rm_only R1)) as (-> & _). change (k_procs (zeroed pt k)) with (k_procs k). by rewrite Etf, E2. }
  split; [lia|]. split; [apply elem_of_cons; by left|]. split; [unfold zlen in *; cbn [length]; lia|]. split; [apply (rm_ok R2)|].
  split; [apply (only_mem_trans k (zeroed pt k)); [by destruct k|]; apply (only_mem_trans _ k1); [apply (rm_only R1)|apply (rm_only R2)]|].
  split; [intros x Hx; apply elem_of_cons; right; by apply (rm_fl R1), (rm_fl R2)|].
  assert (Hi1 : forall x, x ∈ pinner 3 (k_mem k1) pt -> x ∈ pt :: fl).
  { intros x Hx. apply (rm_inner R1) in Hx as [Hx|Hx]; [|apply elem_of_cons; by right]. apply pinner_ptree in Hx. rewrite E0 in Hx.
    apply list_elem_of_singleton in Hx as ->. apply elem_of_cons. by left. }
  split. { intros x Hx. rewrite (rm_frame R2), (rm_frame R1).
    - apply not_elem_of_cons in Hx as [H1 H2]. unfold zeroed, kalloced. cbn. rewrite !page_insert. by rewrite !decide_False.
    - apply not_elem_of_cons in Hx as [H1 H2]. rewrite elem_of_app. intros [H|H]; [|done]. apply pinner_ptree in H. rewrite E0 in H.
      by apply list_elem_of_singleton in H.
    - rewrite elem_of_app. intros [H|H]; [by apply Hx, Hi1|]. apply Hx, elem_of_cons. right. by apply (rm_fl R1). }
  split. { intros x Hx. apply (rm_elem R2) in Hx as [Hx|[Hx|Hx]]; [apply Hin in Hx; tauto| |apply list_elem_of_singleton in Hx; tauto].
    left. apply elem_of_cons. right. by apply (rm_fl R1). }
  split. { intros x Hx. apply (rm_inner R2) in Hx as [Hx|Hx]; [by apply Hi1|]. apply elem_of_cons. right. by apply (rm_fl R1). }
  intros va Hva. rewrite (rm_tr R2) by exact Hva. unfold upd_page, empty_space. destruct (_ =? _); [done|].
  rewrite (rm_tr R1) by exact Hva. unfold upd_page. destruct (_ =? _); [done|]. apply V0.
Qed.

(** The state around the memory after allocproc took slot [i]. *)
Definition new_entry (pid tf pt : Z) (p : proc) : proc := p_set_pagetable pt (p_set_trapframe tf (p_set_state USED (p_set_pid pid p))).
Definition took (i : nat) (tf pt : Z) (k : kst) : kst :=
  set_procs (alter (new_entry (k_nextpid k) tf pt) i) (set_nextpid (s32 (k_nextpid k + 1)) k).

Lemma alter2 {A} (f g : A -> A) i (l : list A) : alter f i (alter g i l) = alter (f ∘ g) i l.
Proof.
  apply list_eq. intros j. destruct (decide (j = i)) as [->|N]; [rewrite !list_lookup_alter_eq; by destruct (_ !! i)|by rewrite !list_lookup_alter_ne].
Qed.

Lemma nth_alter {A} (f : A -> A) i (l : list A) d : (i < length l)%nat -> nth i (alter f i l) d = f (nth i l d).
Proof.
  intros Hi. rewrite !nth_lookup. rewrite list_lookup_alter_eq. destruct (lookup_lt_is_Some_2 l i Hi) as [x ->]. done.
Qed.

Lemma only_mem_procs f k k' : only_mem k k' -> only_mem (set_procs f k) (set_procs f k').
Proof. unfold only_mem. intros ->. by destruct k. Qed.

Lemma allocproc_run i k fl :
  mem_ok k fl -> find_unused (k_procs k) 0 = Some i -> (i < length (k_procs k))%nat -> trampoline ∉ fl -> 6 < zlen fl ->
  exists tf pt k' fl', allocproc trampoline k = Ok (Some i) k' /\ made (took i tf pt k) fl 6 pt (empty_space tf) k' fl' /\
    tf ∈ fl /\ tf ∉ fl' /\ tf ∉ pinner 3 (k_mem k') pt.
Proof.
  intros Mk Hi Hl Ht Hlen. destruct fl as [|tf fl]; [unfold zlen in Hlen; cbn in Hlen; lia|].
  pose proof Ht as Ht0. apply not_elem_of_cons in Ht as [T1 T2]. destruct (free_pos k (tf :: fl) tf Mk ltac:(apply elem_of_cons; by left)) as [F1 F2].
  pose proof (mo_nodup Mk) as Nd. apply NoDup_cons in Nd as [Nf _].
  set (k1 := set_procs (alter (p_set_state USED) i) (set_procs (alter (p_set_pid (k_nextpid k)) i) (set_nextpid (s32 (k_nextpid k + 1)) k))).
  assert (M1 : mem_ok k1 (tf :: fl)) by (by apply (mem_ok_same k)).
  set (k2 := set_procs (alter (p_set_trapframe tf) i) (kalloced tf k1)).
  assert (M2 : mem_ok k2 fl) by (apply (mem_ok_same (kalloced tf k1)); [done|done|done|]; exact (proj2 (kalloc_cons k1 tf fl M1))).
  destruct (pagetable_run i k2 fl tf M2) as (pt & k3 & fl3 & E & P0 & P1 & U & S & O & Fl & Fr & El & In & Tr);
    [|exact F2|lia|exact Nf|exact T2|congruence|unfold zlen in *; cbn [length] in Hlen; lia|].
  { unfold k2, set_procs. cbn [k_procs]. rewrite nth_alter; [done|]. unfold kalloced, k1, set_procs. cbn. by rewrite !length_alter. }
  exists tf, pt, (set_procs (alter (p_set_pagetable pt) i) k3), fl3. split.
  { unfold allocproc, sbind at 1, sget. rewrite Hi. unfold allocpid, modp, sbind, sget, smodify, sret. fold k1.
    rewrite (proj1 (kalloc_cons k1 tf fl M1)). fold k2. rewrite (proj2 (Z.eqb_neq tf 0)) by lia. rewrite E.
    by rewrite (proj2 (Z.eqb_neq pt 0)) by exact P0. }
  assert (Hin : forall x, x ∈ fl -> x ∈ tf :: fl) by (intros x Hx; apply elem_of_cons; by right).
  split; [|split; [apply elem_of_cons; by left|split; [intros Hx; by apply Nf, Fl|intros Hx; by apply Nf, In]]]. split.
  - by apply (space_same k3).
  - assert (Et : set_procs (alter (p_set_pagetable pt) i) (set_procs (alter (p_set_trapframe tf) i) k1) = took i tf pt k).
    { unfold took, k1, set_procs, set_nextpid. cbn [k_procs k_sb k_itable k_ftable k_pipes k_mem k_freelist k_end k_cur k_initproc k_nextpid k_devsw].
      by rewrite !alter2. }
    rewrite <- Et. apply only_mem_procs. apply (only_mem_trans _ k2); [|exact O]. apply only_mem_procs. by destruct k1.
  - intros x Hx. by apply Hin, Fl.
  - unfold zlen in *. cbn [length]. lia.
  - intros x Hx. apply not_elem_of_cons in Hx as [H1 H2]. cbn [set_procs k_mem]. rewrite (Fr x H2). unfold k2, kalloced, k1. cbn.
    by rewrite page_insert, decide_False.
  - intros x Hx. apply El in Hx as [Hx|[Hx|Hx]]; [left; by apply Hin|by right|left; rewrite Hx; apply elem_of_cons; by left].
  - intros x Hx. by apply Hin, In.
  - exact Tr.
Qed.
End Alloc.

#[global] Arguments md_ok {_ _ _ _ _ _ _ _}.
#[global] Arguments md_only {_ _ _ _ _ _ _ _}.
#[global] Arguments md_fl {_ _ _ _ _ _ _ _}.
#[global] Arguments md_used {_ _ _ _ _ _ _ _}.
#[global] Arguments md_frame {_ _ _ _ _ _ _ _}.
#[global] Arguments md_elem {_ _ _ _ _ _ _ _}.
#[global] Arguments md_inner {_ _ _ _ _ _ _ _}.
#[global] Arguments md_tr {_ _ _ _ _ _ _ _}.

(** ** Lemmas: uvminit *)

Lemma length_zpage : length (replicate (Z.to_nat PGSIZE) 0) = Z.to_nat PGSIZE.
Proof. apply length_replicate. Qed.

Lemma uvminit_run pt src k fl :
  space_ok k pt fl -> zlen src < PGSIZE -> trans (k_mem k) pt 0 = None -> 3 < zlen fl ->
  exists pg k' fl', uvminit pt src k = Ok tt k' /\ zlen fl <= 3 + zlen fl' /\ pg ∈ fl /\ pg ∉ pinner 3 (k_mem k') pt /\
    remapped k pt fl [] (upd_page 0 (Some (mapent pg 30)) (trans (k_mem k) pt)) k' fl' /\
    page (k_mem k') pg = splice 0 src (replicate (Z.to_nat PGSIZE) 0).
Proof.
  intros S Hs Ht Hlen. destruct fl as [|pg fl]; [unfold zlen in Hlen; cbn in Hlen; lia|].
  destruct (free_pos k (pg :: fl) pg (so_mem S) ltac:(apply elem_of_cons; by left)) as [F1 F2].
  destruct (space_alloc k pt pg fl _ S length_zpage) as (E1 & R1 & N1 & N2 & D1). set (k1 := alloced pg (replicate (Z.to_nat PGSIZE) 0) k) in *.
  destruct (map_one pt 0 pg 30 k1 fl (rm_ok R1)) as (k2 & fl2 & E2 & U2 & R2);
    [done|lia|exact F2|lia|lia|rewrite (rm_tr R1) by lia; exact Ht|exact N1|exact N2|unfold zlen in *; cbn [length] in Hlen; lia|].
  assert (Hp : page (k_mem k2) pg = replicate (Z.to_nat PGSIZE) 0).
  { rewrite (rm_frame R2); [exact D1|]. rewrite elem_of_app. intros [H|H]; [by apply N1, pinner_ptree|done]. }
  assert (Hi : pg ∉ pinner 3 (k_mem k2) pt).
  { intros H. apply (rm_inner R2) in H as [H|H]; [by apply N1, pinner_ptree|done]. }
  assert (Hl : length (splice 0 src (replicate (Z.to_nat PGSIZE) 0)) = Z.to_nat PGSIZE).
  { rewrite length_splice; [apply length_zpage|lia|]. unfold zlen in *. rewrite length_zpage. lia. }
  destruct (space_data k2 pt fl2 pg _ (rm_ok R2) Hi ltac:(intros H; by apply N2, (rm_fl R2)) Hl) as (S3 & T3 & Et & Ei).
  set (k3 := set_mem (insert pg (splice 0 src (replicate (Z.to_nat PGSIZE) 0))) k2) in *.
  exists pg, k3, fl2. split.
  { unfold uvminit. destruct (Z.leb_spec PGSIZE (zlen src)); [lia|]. unfold sbind at 1. rewrite E1. unfold sbind at 1, fill_page, smodify.
    change (set_mem (insert pg (replicate (Z.to_nat PGSIZE) 0)) (kalloced pg k)) with k1. unfold sbind. change (Z.lor (Z.lor (Z.lor PTE_W PTE_R) PTE_X) PTE_U) with 30. rewrite E2.
    pose proof (pm_write_page pg 0 src (k_mem k2) F2 ltac:(lia)) as Ew. rewrite Z.add_0_r, Hp in Ew. unfold k3, set_mem. by rewrite Ew. }
  split; [unfold zlen in *; cbn [length]; lia|]. split; [apply elem_of_cons; by left|]. split; [exact (eq_ind_r (fun l => pg ∉ l) Hi Ei)|].
  assert (P3 : forall x, page (k_mem k3) x = if decide (x = pg) then splice 0 src (replicate (Z.to_nat PGSIZE) 0) else page (k_mem k2) x).
  { intros x. unfold k3. change (k_mem (set_mem ?f ?x)) with (f (k_mem x)). by rewrite page_insert. }
  split; [|by rewrite P3, decide_True].
  pose proof (remapped_trans _ _ _ _ _ _ _ _ _ _ _ R1 R2) as R.
  apply (remapped_absorb _ _ _ [pg]); [intros x Hx; apply list_elem_of_singleton in Hx as ->; apply elem_of_cons; by left|].
  split; [exact S3| |apply (rm_fl R)| | | |].
  - apply (only_mem_trans _ k2); [apply (rm_only R)|]. unfold k3, only_mem. by destruct k2.
  - intros x Hx. rewrite P3, decide_False; [by apply (rm_frame R)|]. intros ->. apply Hx, elem_of_app. right. apply elem_of_cons. by left.
  - intros x Hx. apply (rm_elem R). by rewrite <- Et.
  - intros x Hx. apply (rm_inner R). by rewrite <- Ei.
  - intros va Hva. etransitivity; [exact (T3 va)|]. rewrite (rm_tr R2) by exact Hva. unfold upd_page. destruct (_ =? _); [done|]. by apply (rm_tr R1).
Qed.

(** ** Lemmas: userinit *)

(** The process and the kernel after userinit, up to memory. *)
Definition init_entry (pid tf pt : Z) (ip : nat) (p : proc) : proc :=
  p_set_state RUNNABLE (p_set_cwd (Some ip)
    (p_set_name (splice 0 (safestrcpy [105; 110; 105; 116; 99; 111; 100; 101; 0] 16) (p_name p)) (p_set_sz PGSIZE (new_entry pid tf pt p)))).
Definition init_started (i ip : nat) (tf pt : Z) (k : kst) : kst :=
  set_procs (alter (init_entry (k_nextpid k) tf pt ip) i)
    (set_itable (alter (i_set_id ROOTDEV ROOTINO) ip) (set_initproc (Some i) (set_nextpid (s32 (k_nextpid k + 1)) k))).

Lemma run_lift {A B} (m : stM kst A) (f : A -> prog kst B) k s a k' : m k = Ok a k' ->
  run hC (pbind (liftK m) f) (k, s) = run hC (f a) (k', s).
Proof. intros E. rewrite run_bind. unfold liftK. cbn. by rewrite E. Qed.

Lemma run_modify {B} f (g : unit -> prog kst B) k s : run hC (pbind (liftK (smodify f)) g) (k, s) = run hC (g tt) (f k, s).
Proof. by apply run_lift. Qed.
Lemma run_modp {B} i f (g : unit -> prog kst B) k s : run hC (pbind (liftK (modp i f)) g) (k, s) = run hC (g tt) (set_procs (alter f i) k, s).
Proof. by apply run_lift. Qed.
Lemma run_getp {B} i (g : proc -> prog kst B) k s : run hC (pbind (liftK (getp i)) g) (k, s) = run hC (g (nth i (k_procs k) proc0)) (k, s).
Proof. by apply run_lift. Qed.

Lemma run_namei_root (k : kst) s ip : iget_scan (k_itable k) 0 ROOTDEV ROOTINO None = inr (Some ip) ->
  run hC (namei [47; 0]) (k, s) = Ok (Some ip) (set_itable (alter (i_set_id ROOTDEV ROOTINO) ip) k, s).
Proof.
  intros E. unfold namei, namex. change (getb 0 [47; 0] =? 47) with true. cbv iota. rewrite !run_bind. unfold iget. rewrite run_bind.
  change (run hC P.get (k, s)) with (Ok (A := kst) k (k, s)). cbv beta iota. rewrite E. reflexivity.
Qed.

Lemma space_put k pt fl p i x : space_ok k pt fl -> p mod PGSIZE = 0 -> p ∉ pinner 3 (k_mem k) pt -> p ∉ fl -> 0 <= i < 512 ->
  stm64 (p + 8 * i) x k = Ok tt (set_mem (put_word p i x) k) /\ space_ok (set_mem (put_word p i x) k) pt fl /\
  (forall va, trans (put_word p i x (k_mem k)) pt va = trans (k_mem k) pt va) /\
  ptree 3 (put_word p i x (k_mem k)) pt = ptree 3 (k_mem k) pt /\ pinner 3 (put_word p i x (k_mem k)) pt = pinner 3 (k_mem k) pt.
Proof.
  intros S Ha Hi Hf Hr. split; [by apply stm64_run|].
  assert (Hl : length (splice (8 * i) (le_enc 8 x) (page (k_mem k) p)) = Z.to_nat PGSIZE).
  { pose proof (pages_ok_put_word p i x (k_mem k) (mo_pages (so_mem S)) Hr p) as P. unfold put_word in P. by rewrite page_insert, decide_True in P. }
  exact (space_data k pt fl p _ S Hi Hf Hl).
Qed.

Lemma only_mem_init x k k' : only_mem k k' -> only_mem (set_initproc x k) (set_initproc x k').
Proof. unfold only_mem. intros ->. by destruct k. Qed.
Lemma only_mem_itable f k k' : only_mem k k' -> only_mem (set_itable f k) (set_itable f k').
Proof. unfold only_mem. intros ->. by destruct k. Qed.
Lemma only_mem_put f k : only_mem k (set_mem f k).
Proof. by destruct k. Qed.

Lemma set_procs_alter2 f g i k : set_procs (alter f i) (set_procs (alter g i) k) = set_procs (alter (f ∘ g) i) k.
Proof. destruct k. unfold set_procs. cbn. by rewrite alter2. Qed.
Lemma set_itable_procs f g k : set_itable f (set_procs g k) = set_procs g (set_itable f k).
Proof. done. Qed.
Lemma set_initproc_procs x g k : set_initproc x (set_procs g k) = set_procs g (set_initproc x k).
Proof. done. Qed.

Lemma took_started i ip tf pt k :
  set_procs (alter (p_set_state RUNNABLE) i) (set_procs (alter (p_set_cwd (Some ip)) i) (set_itable (alter (i_set_id ROOTDEV ROOTINO) ip)
    (set_procs (alter (fun c => p_set_name (splice 0 (safestrcpy [105; 110; 105; 116; 99; 111; 100; 101; 0] 16) (p_name c)) c) i)
      (set_procs (alter (p_set_sz PGSIZE) i) (set_initproc (Some i) (took i tf pt k)))))) = init_started i ip tf pt k.
Proof.
  unfold took, init_started. rewrite set_initproc_procs, !set_procs_alter2, set_itable_procs, !set_procs_alter2. done.
Qed.

(** The memory of the first process. *)
Definition init_image (va : Z) : option Z := if (0 <=? va) && (va <? PGSIZE) then Some (getb va initcode) else None.

Lemma init_ubyte m pt tf trampoline pg va :
  pg mod PGSIZE = 0 -> 0 < pg < 2 ^ 56 -> tf mod PGSIZE = 0 -> 0 <= tf < 2 ^ 56 -> trampoline mod PGSIZE = 0 -> 0 <= trampoline < 2 ^ 56 ->
  (forall va, 0 <= va < MAXVA -> trans m pt va = upd_page 0 (Some (mapent pg 30)) (empty_space trampoline tf) va) ->
  page m pg = splice 0 initcode (replicate (Z.to_nat PGSIZE) 0) -> 0 <= va -> ubyte m pt va = init_image va.
Proof.
  intros P1 P2 F1 F2 T1 T2 Tr Hp Hva. destruct (page_split va) as (E & B & A). pose proof (page_down_nonneg va Hva) as H0.
  assert (NU : forall pa perm, pa mod PGSIZE = 0 -> 0 <= pa < 2 ^ 56 -> perm = 6 \/ perm = 10 -> Z.land (mapent pa perm) PTE_U = 0).
  { intros pa perm Ha Hb Hc. rewrite (flags_u _ perm); [by destruct Hc as [-> | ->]|]. apply mapent_fields; [done|done|lia]. }
  unfold ubyte, init_image, uaddr. destruct (Z.leb_spec MAXVA (PGROUNDDOWN va)) as [Hm|Hm].
  { destruct (Z.leb_spec 0 va), (Z.ltb_spec va PGSIZE); cbn [andb Z.eqb]; [lia|done..]. }
  rewrite Tr by lia. unfold upd_page. change (0 / PGSIZE) with 0. pose proof (Z.div_mod (PGROUNDDOWN va) PGSIZE ltac:(lia)) as D. rewrite A in D.
  destruct (Z.eqb_spec (PGROUNDDOWN va / PGSIZE) 0) as [E0|N0].
  - destruct (mapent_fields pg 30 P1 ltac:(lia) ltac:(lia)) as (Ea & Ef & _).
    rewrite (flags_u _ 30 Ef). change (Z.land 30 PTE_U =? 0) with false. cbv iota. rewrite Ea.
    destruct (Z.eqb_spec pg 0); [lia|]. rewrite Hp, getb_splice by (done || lia || (vm_compute; discriminate)).
    rewrite Z.sub_0_r. replace (va mod PGSIZE) with va by lia.
    destruct (Z.leb_spec 0 va), (Z.ltb_spec va PGSIZE); try lia. cbn [andb]. f_equal. case_decide as Hd; [done|].
    unfold getb. rewrite (nth_overflow initcode) by (unfold zlen in Hd; lia). rewrite nth_lookup. by destruct (_ !! _) as [x|] eqn:Ex; [apply lookup_replicate in Ex as [-> _]|].
  - destruct (Z.leb_spec 0 va), (Z.ltb_spec va PGSIZE); cbn [andb]; try lia. unfold empty_space.
    destruct (PGROUNDDOWN va / PGSIZE =? TRAPFRAME / PGSIZE); [rewrite NU by (done || (by left)); done|].
    destruct (PGROUNDDOWN va / PGSIZE =? TRAMPOLINE / PGSIZE); [rewrite NU by (done || (by right)); done|done].
Qed.

(** userinit made process [i], with address space [pt] and trapframe [tf],
    out of pages of [fl]. *)
Record init_made (trampoline : Z) (i ip : nat) (k : kst) (fl : list Z) (tf pt : Z) (k' : kst) (fl' : list Z) : Prop := {
  in_ok : space_ok k' pt fl';
  in_only : only_mem (init_started i ip tf pt k) k';
  in_fl : forall x, x ∈ fl' -> x ∈ fl;
  in_frame : same_pages (k_mem k) (k_mem k') fl;
  in_image : forall va, 0 <= va -> ubyte (k_mem k') pt va = init_image va;
  in_tramp : trans (k_mem k') pt TRAMPOLINE = Some (mapent trampoline (Z.lor PTE_R PTE_X));
  in_tf : trans (k_mem k') pt TRAPFRAME = Some (mapent tf (Z.lor PTE_R PTE_W));
  in_page : tf ∈ fl /\ tf ∉ fl';
  in_epc : word (k_mem k') tf 3 = 0;
  in_sp : word (k_mem k') tf 6 = PGSIZE
}.

#[global] Arguments in_ok {_ _ _ _ _ _ _ _ _}.
#[global] Arguments in_only {_ _ _ _ _ _ _ _ _}.
#[global] Arguments in_fl {_ _ _ _ _ _ _ _ _}.
#[global] Arguments in_frame {_ _ _ _ _ _ _ _ _}.

Section Init.
  Context (trampoline : Z) (i ip : nat) (k : kst) (fl : list Z).
  Context (Ta : trampoline mod PGSIZE = 0) (Tb : 0 <= trampoline < 2 ^ 56) (Tf : trampoline ∉ fl).
  Context (Mk : mem_ok k fl) (Hlen : 9 < zlen fl).

(** The memory after the last store, with the frame page [tf] filled. *)
Lemma init_stores tf pt pg k1 fl1 k2 fl2 :
  made trampoline (took i tf pt k) fl 6 pt (empty_space trampoline tf) k1 fl1 -> tf ∈ fl -> tf ∉ fl1 -> tf ∉ pinner 3 (k_mem k1) pt ->
  remapped (set_initproc (Some i) k1) pt fl1 [] (upd_page 0 (Some (mapent pg 30)) (trans (k_mem k1) pt)) k2 fl2 ->
  pg ∈ fl1 -> page (k_mem k2) pg = splice 0 initcode (replicate (Z.to_nat PGSIZE) 0) ->
  let m := put_word tf 6 PGSIZE (put_word tf 3 0 (k_mem k2)) in
  space_ok (set_mem (put_word tf 6 PGSIZE) (set_mem (put_word tf 3 0) k2)) pt fl2 /\ same_pages (k_mem k) m fl /\
  (forall va, 0 <= va -> ubyte m pt va = init_image va) /\
  (forall va, 0 <= va < MAXVA -> trans m pt va = upd_page 0 (Some (mapent pg 30)) (empty_space trampoline tf) va) /\
  word m tf 3 = 0 /\ word m tf 6 = PGSIZE.
Proof.
  intros D1 F1 F2 F3 R2 G1 G2 m. destruct (free_pos k fl tf Mk F1) as [F4 F5].
  destruct (free_pos k1 fl1 pg (so_mem (md_ok D1)) G1) as [G3 G4]. assert (Ne : pg <> tf) by (by intros ->).
  assert (I2 : tf ∉ pinner 3 (k_mem k2) pt) by (intros H; apply (rm_inner R2) in H as [H|H]; done).
  assert (L2 : tf ∉ fl2) by (intros H; by apply F2, (rm_fl R2)).
  destruct (space_put k2 pt fl2 tf 3 0 (rm_ok R2) F5 I2 L2 ltac:(lia)) as (_ & S3 & T3 & _ & N3).
  assert (I3 : tf ∉ pinner 3 (k_mem (set_mem (put_word tf 3 0) k2)) pt) by exact (eq_ind_r (fun l => tf ∉ l) I2 N3).
  destruct (space_put _ pt fl2 tf 6 PGSIZE S3 F5 I3 L2 ltac:(lia)) as (_ & S4 & T4 & _ & _).
  assert (Pg : forall x, x <> tf -> page m x = page (k_mem k2) x).
  { intros x Hx. unfold m, put_word. by rewrite !page_insert, !decide_False by done. }
  assert (Tr : forall va, 0 <= va < MAXVA -> trans m pt va = upd_page 0 (Some (mapent pg 30)) (empty_space trampoline tf) va).
  { intros va Hva. etransitivity; [exact (T4 va)|]. etransitivity; [exact (T3 va)|]. rewrite (rm_tr R2) by exact Hva.
    unfold upd_page. destruct (_ =? _); [done|]. by apply (md_tr D1). }
  split; [exact S4|]. split; [|split; [|split; [exact Tr|]]].
  - intros x Hx. rewrite Pg by (by intros ->). rewrite (rm_frame R2), (md_frame D1); [done|exact Hx|].
    rewrite elem_of_app. intros [H|H]; [by apply Hx, (md_inner D1)|by apply Hx, (md_fl D1)].
  - intros va Hva. apply (init_ubyte m pt tf trampoline pg va); try done; [lia|lia|]. by rewrite Pg.
  - unfold m. pose proof (mo_pages (so_mem S3)) as P3. pose proof (mo_pages (so_mem (rm_ok R2))) as P2.
    change (k_mem (set_mem ?f ?x)) with (f (k_mem x)) in P3. rewrite !word_put by (done || lia). split.
    + rewrite decide_False by lia. by rewrite decide_True.
    + by rewrite decide_True.
Qed.

Lemma userinit_run s :
  find_unused (k_procs k) 0 = Some i -> (i < length (k_procs k))%nat -> iget_scan (k_itable k) 0 ROOTDEV ROOTINO None = inr (Some ip) ->
  exists tf pt k' fl', run hC (userinit trampoline) (k, s) = Ok tt (k', s) /\ init_made trampoline i ip k fl tf pt k' fl'.
Proof.
  intros Hi Hl Hg. destruct (allocproc_run trampoline Ta Tb i k fl Mk Hi Hl Tf ltac:(lia)) as (tf & pt & k1 & fl1 & E1 & D1 & F1 & F2 & F3).
  assert (S1 : space_ok (set_initproc (Some i) k1) pt fl1) by (apply (space_same k1); [done|done|done|apply (md_ok D1)]).
  pose proof (md_used D1). assert (Hz : trans (k_mem k1) pt 0 = None) by (rewrite (md_tr D1) by lia; done).
  destruct (uvminit_run pt initcode _ fl1 S1 ltac:(done) Hz ltac:(lia)) as (pg & k2 & fl2 & E2 & _ & G1 & _ & R2 & G2).
  destruct (init_stores tf pt pg k1 fl1 k2 fl2 D1 F1 F2 F3 R2 G1 G2) as (S4 & Fr & Ub & Tr & W3 & W6).
  destruct (free_pos k fl tf Mk F1) as [F4 F5].
  set (k3 := set_procs (alter (p_set_sz PGSIZE) i) k2). set (k4 := set_mem (put_word tf 6 PGSIZE) (set_mem (put_word tf 3 0) k3)).
  set (k5 := set_procs (alter (fun c => p_set_name (splice 0 (safestrcpy [105; 110; 105; 116; 99; 111; 100; 101; 0] 16) (p_name c)) c) i) k4).
  set (k6 := set_itable (alter (i_set_id ROOTDEV ROOTINO) ip) k5).
  set (k7 := set_procs (alter (p_set_state RUNNABLE) i) (set_procs (alter (p_set_cwd (Some ip)) i) k6)).
  assert (O2 : only_mem (set_initproc (Some i) (took i tf pt k)) k2).
  { apply (only_mem_trans _ (set_initproc (Some i) k1)); [apply only_mem_init, (md_only D1)|apply (rm_only R2)]. }
  assert (Hp : nth i (k_procs k1) proc0 = new_entry (k_nextpid k) tf pt (nth i (k_procs k) proc0)).
  { destruct (only_mem_fields _ _ (md_only D1)) as (-> & _). unfold took, set_procs. cbn [k_procs]. by rewrite nth_alter. }
  assert (I5 : k_itable k5 = k_itable k) by (destruct (only_mem_fields _ _ O2) as (_ & _ & E & _); exact E).
  exists tf, pt, k7, fl2. split.
  - unfold userinit. rewrite (run_lift _ _ _ _ _ _ E1). cbv iota.
    rewrite run_modify, run_getp.
    change (k_procs (set_initproc (Some i) k1)) with (k_procs k1). rewrite Hp. cbn [new_entry p_pagetable p_trapframe p_set_pagetable p_set_trapframe].
    rewrite (run_lift _ _ _ _ _ _ E2). rewrite run_modp. fold k3.
    rewrite (run_lift _ _ _ _ _ _ (stm64_run tf 3 0 k3 F5 ltac:(lia))). rewrite (run_lift _ _ _ _ _ _ (stm64_run tf 6 PGSIZE _ F5 ltac:(lia))).
    fold k4. rewrite run_modp. fold k5. rewrite run_bind, (run_namei_root k5 s ip) by (by rewrite I5). fold k6.
    rewrite run_modp. reflexivity.
  - split; try done.
    + apply (space_same (set_mem (put_word tf 6 PGSIZE) (set_mem (put_word tf 3 0) k2))); done.
    + rewrite <- took_started. unfold k7, k6, k5. do 2 apply only_mem_procs. apply only_mem_itable, only_mem_procs.
      unfold k4. apply (only_mem_trans _ k3); [unfold k3; by apply only_mem_procs|].
      apply (only_mem_trans _ (set_mem (put_word tf 3 0) k3)); apply only_mem_put.
    + intros x Hx. by apply (md_fl D1), (rm_fl R2).
    + etransitivity; [apply (Tr TRAMPOLINE); lia|done].
    + etransitivity; [apply (Tr TRAPFRAME); lia|done].
    + split; [done|]. intros H1. by apply F2, (rm_fl R2).
Qed.
End Init.
