(* ===== verification/Exec.v ===== *)
(** * exec (kernel/exec.c) *)
From S2P Require Import Prelude Str Bio Log Crash Machine Types Vm Codec Ld Balloc Inode Dir Pipe File Sysfile Proc.
Local Open Scope prog_scope.

Notation ELF_MAGIC := 0x464C457F (only parsing).
Notation ELF_PROG_LOAD := 1 (only parsing).
Notation MAXARG := 32 (only parsing).

(** struct elfhdr and struct proghdr: the fields exec uses. *)
Record elfhdr := mkElf { elf_magic : Z; elf_entry : Z; elf_phoff : Z; elf_phnum : Z }.
Record proghdr := mkPh { ph_type : Z; ph_off : Z; ph_vaddr : Z; ph_filesz : Z; ph_memsz : Z }.
Definition dec_elf (d : bytes) : elfhdr := mkElf (ld32 0 d) (ld64 24 d) (ld64 32 d) (ld16 56 d).
Definition dec_ph (d : bytes) : proghdr := mkPh (ld32 0 d) (ld64 8 d) (ld64 16 d) (ld64 32 d) (ld64 40 d).

(** readi to a physical address: the bytes go to memory. *)
Fixpoint loadseg_loop (fuel : nat) (pagetable va : Z) (ip : nat) (offset sz i : Z) : M Z :=
  match fuel with
  | O => WrongP "loadseg: fuel"
  | S fuel =>
      if negb (i <? sz) then Ret 0
      else
        pa <- liftK (walkaddr pagetable (u64 (va + i)));
        if pa =? 0 then panic "loadseg: address should exist"
        else
          let n := if sz - i <? PGSIZE then sz - i else PGSIZE in
          '(r, d) <- readi ip KernDst (u32 (offset + i)) n;
          modk (set_mem (pm_write pa d));;
          if negb (r =? n) then Ret (-1)
          else loadseg_loop fuel pagetable va ip offset sz (i + PGSIZE)
  end.
Definition loadseg (pagetable va : Z) (ip : nat) (offset sz : Z) : M Z :=
  loadseg_loop (Z.to_nat (sz / PGSIZE + 2)) pagetable va ip offset sz 0.

(** The label [bad]. *)
Definition exec_bad (pagetable sz : Z) (ip : option nat) : M Z :=
  (if pagetable =? 0 then Ret tt else liftK (proc_freepagetable pagetable sz));;
  match ip with Some ip => iunlockput ip;; P.end_op | None => Ret tt end;;
  Ret (-1).

(** The loop over the program headers: whether it ended well, and the size. *)
Fixpoint exec_load (n : nat) (ip : nat) (off pagetable sz : Z) : M (bool * Z) :=
  match n with
  | O => Ret (true, sz)
  | S n =>
      '(r, d) <- readi ip KernDst (u32 off) 56;
      if negb (r =? 56) then Ret (false, sz)
      else
        let ph := dec_ph d in
        if negb (ph_type ph =? ELF_PROG_LOAD) then exec_load n ip (s32 (off + 56)) pagetable sz
        else if ph_memsz ph <? ph_filesz ph then Ret (false, sz)
        else if u64 (ph_vaddr ph + ph_memsz ph) <? ph_vaddr ph then Ret (false, sz)
        else
          sz1 <- liftK (uvmalloc pagetable sz (u64 (ph_vaddr ph + ph_memsz ph)));
          if sz1 =? 0 then Ret (false, sz)
          else if negb (ph_vaddr ph mod PGSIZE =? 0) then Ret (false, sz1)
          else
            r <- loadseg pagetable (ph_vaddr ph) ip (u32 (ph_off ph)) (u32 (ph_filesz ph));
            if r <? 0 then Ret (false, sz1)
            else exec_load n ip (s32 (off + 56)) pagetable sz1
  end.

(** The loop over argv, the addresses of pages that hold strings: the stack
    pointer and the user addresses pushed. *)
Fixpoint push_args (argv : list Z) (argc pagetable sp stackbase : Z) (ustack : list Z) : M (option (Z * list Z)) :=
  match argv with
  | [] => Ret (Some (sp, ustack))
  | a :: argv =>
      if MAXARG <=? argc then Ret None
      else
        k <- P.get;
        let s := page (k_mem k) a in
        let sp := u64 (sp - (strlen s + 1)) in
        let sp := sp - sp mod 16 in
        if sp <? stackbase then Ret None
        else
          r <- liftK (copyout pagetable sp (take (Z.to_nat (strlen s + 1)) s));
          if r <? 0 then Ret None
          else push_args argv (argc + 1) pagetable sp stackbase (ustack ++ [sp])
  end.

(** What follows the last slash. *)
Fixpoint last_elem (s last : bytes) : bytes :=
  match s with
  | [] => last
  | c :: s => if c =? 0 then last else last_elem s (if c =? 47 then s else last)
  end.

(** exec after the file is loaded and closed. *)
Definition exec_commit (path : bytes) (argv : list Z) (elf : elfhdr) (pagetable sz : Z) : M Z :=
  p <- myproc;
  let oldsz := p_sz p in
  let sz := PGROUNDUP sz in
  sz1 <- liftK (uvmalloc pagetable sz (u64 (sz + 2 * PGSIZE)));
  if sz1 =? 0 then exec_bad pagetable sz None
  else
    let sz := sz1 in
    liftK (uvmclear pagetable (sz - 2 * PGSIZE));;
    let stackbase := sz - PGSIZE in
    o <- push_args argv 0 pagetable sz stackbase [];
    match o with
    | None => exec_bad pagetable sz None
    | Some (sp, ustack) =>
        let argc := zlen ustack in
        let sp := u64 (sp - (argc + 1) * 8) in
        let sp := sp - sp mod 16 in
        if sp <? stackbase then exec_bad pagetable sz None
        else
          r <- liftK (copyout pagetable sp (concat (map (le_enc 8) (ustack ++ [0]))));
          if r <? 0 then exec_bad pagetable sz None
          else
            liftK (stm64 (p_trapframe p + 120) sp);;
            modproc (fun c => p_set_name (splice 0 (safestrcpy (last_elem path path) 16) (p_name c)) c);;
            modproc (p_set_pagetable pagetable);;
            modproc (p_set_sz sz);;
            liftK (stm64 (p_trapframe p + 24) (elf_entry elf));;
            liftK (stm64 (p_trapframe p + 48) sp);;
            liftK (proc_freepagetable (p_pagetable p) oldsz);;
            Ret argc
    end.

Definition exec (trampoline : Z) (path : bytes) (argv : list Z) : M Z :=
  P.begin_op;;
  o <- namei path;
  match o with
  | None => P.end_op;; Ret (-1)
  | Some ip =>
      ilock (Some ip);;
      '(r, d) <- readi ip KernDst 0 64;
      if negb (r =? 64) then exec_bad 0 0 (Some ip)
      else if negb (elf_magic (dec_elf d) =? ELF_MAGIC) then exec_bad 0 0 (Some ip)
      else
        k <- P.get;
        pagetable <- liftK (proc_pagetable trampoline (k_cur k));
        if pagetable =? 0 then exec_bad 0 0 (Some ip)
        else
          '(ok, sz) <- exec_load (Z.to_nat (elf_phnum (dec_elf d))) ip (s32 (elf_phoff (dec_elf d))) pagetable 0;
          if negb ok then exec_bad pagetable sz (Some ip)
          else
            iunlockput ip;;
            P.end_op;;
            exec_commit path argv (dec_elf d) pagetable sz
  end.

(** sys_exec (sysfile.c): the loop that copies the arguments into pages of
    their own; the flag says whether it reached the null pointer. *)
Fixpoint exec_args (fuel : nat) (uargv i : Z) (argv : list Z) : M (bool * list Z) :=
  match fuel with
  | O => Ret (false, argv)
  | S fuel =>
      uarg <- fetchaddr (u64 (uargv + 8 * i));
      match uarg with
      | None => Ret (false, argv)
      | Some uarg =>
          if uarg =? 0 then Ret (true, argv)
          else
            a <- liftK kalloc;
            if a =? 0 then Ret (false, argv)
            else
              p <- myproc;
              '(err, buf) <- liftK (copyinstr (p_pagetable p) uarg PGSIZE);
              modk (set_mem (pm_write a buf));;
              if err <? 0 then Ret (false, argv ++ [a])
              else exec_args fuel uargv (i + 1) (argv ++ [a])
      end
  end.

Definition sys_exec (trampoline : Z) : M Z :=
  path <- argstr 0 MAXPATH;
  match path with
  | None => Ret (-1)
  | Some path =>
      uargv <- argaddr 1;
      '(ok, argv) <- exec_args 32 uargv 0 [];
      ret <- (if ok : bool then exec trampoline path argv else Ret (-1));
      pfor argv (fun a => liftK (kfree a));;
      Ret ret
  end.
