(* ===== verification/Syscall.v ===== *)
(** * System calls on processes (kernel/sysproc.c) and the dispatcher
    (kernel/syscall.c)

    A call that has to wait ends in the outcome Sleep; it is started again
    when the process runs next. *)
From S2P Require Import Prelude Str Bio Log Crash Machine Types Vm Codec Ld Balloc Inode Dir Pipe File Sysfile Proc Exec.
Local Open Scope prog_scope.

(** The process does not come back. *)
Definition sys_exit : M Z := n <- argint 0; exit n;; SleepP "zombie".
Definition sys_getpid : M Z := p <- myproc; Ret (p_pid p).
Definition sys_fork (trampoline : Z) : M Z := fork trampoline.
Definition sys_wait : M Z :=
  p <- argaddr 0;
  r <- liftK (wait p);
  match r with Some r => Ret r | None => SleepP "wait" end.
Definition sys_sbrk : M Z :=
  n <- argint 0;
  p <- myproc;
  let addr := s32 (p_sz p) in
  r <- liftK (growproc n);
  if r <? 0 then Ret (-1) else Ret addr.
Definition sys_kill : M Z := pid <- argint 0; liftK (kill pid).

(** [ticks0] is the clock when the call started; the difference is compared
    as an unsigned int. *)
Definition sys_sleep (ticks0 ticks : Z) : M Z :=
  n <- argint 0;
  if u32 (ticks - ticks0) <? u32 n then
    p <- myproc;
    if p_killed p then Ret (-1) else SleepP "ticks"
  else Ret 0.
Definition sys_uptime (ticks : Z) : M Z := Ret ticks.

(** What the calls get from outside the kernel state: the trampoline page,
    the clock (and the clock at the start of a sleep), and the stack garbage
    that some calls copy. *)
Record env := mkEnv { e_trampoline : Z; e_ticks0 : Z; e_ticks : Z; e_pad : bytes; e_stack : bytes }.

(** The table [syscalls]. *)
Definition syscalls (e : env) (num : Z) : option (M Z) :=
  match num with
  | 1 => Some (sys_fork (e_trampoline e))
  | 2 => Some sys_exit
  | 3 => Some sys_wait
  | 4 => Some sys_pipe
  | 5 => Some sys_read
  | 6 => Some sys_kill
  | 7 => Some (sys_exec (e_trampoline e))
  | 8 => Some (sys_fstat (e_pad e))
  | 9 => Some sys_chdir
  | 10 => Some sys_dup
  | 11 => Some sys_getpid
  | 12 => Some sys_sbrk
  | 13 => Some (sys_sleep (e_ticks0 e) (e_ticks e))
  | 14 => Some (sys_uptime (e_ticks e))
  | 15 => Some sys_open
  | 16 => Some sys_write
  | 17 => Some sys_mknod
  | 18 => Some sys_unlink
  | 19 => Some sys_link
  | 20 => Some sys_mkdir
  | 21 => Some sys_close
  | 22 => Some sys_chmode
  | 23 => Some sys_chspmode
  | 24 => Some sys_sysinfo
  | 25 => Some (sys_symlink (e_stack e))
  | 26 => Some sys_fsinfo
  | 27 => Some sys_showstat
  | 28 => Some sys_delete
  | 29 => Some sys_show
  | 30 => Some sys_lseek
  | _ => None
  end.

(** [p->trapframe->a7] at offset 168; the result goes to a0. *)
Definition syscall (e : env) : M unit :=
  p <- myproc;
  a7 <- liftK (ldm64 (p_trapframe p + 168));
  match syscalls e (s32 a7) with
  | Some f => r <- f; liftK (stm64 (p_trapframe p + 112) (u64 r))
  | None => liftK (stm64 (p_trapframe p + 112) (u64 (-1)))
  end.
