(* ===== verification/Frame.v ===== *)
(** * What a kernel program does to the kernel state

    [kwp Q p k] says that a run of [p] from kernel state [k] that returns or
    goes to sleep ends in a kernel state satisfying [Q], whatever the disk
    holds; the value returned is [Some] in the first case.  [kept R p] is the
    frame property: the kernel states before and after are related by [R].
    For a relation that allows the updates of the tables ([KFrame]) every
    routine of the file layers keeps it. *)
From S2P Require Import Prelude Str Bio Log Crash Machine Types Vm Codec Ld Balloc Inode Dir Pipe File Sysfile Proc Exec Syscall.

Fixpoint kwp {A} (Q : option A -> kst -> Prop) (p : prog kst A) (k : kst) : Prop :=
  match p with
  | Ret a => Q (Some a) k
  | SleepP _ => Q None k
  | PanicP _ | WrongP _ => True
  | @Vis _ _ X o f =>
      match o in op _ X return (X -> prog kst A) -> Prop with
      | OGet => fun f => kwp Q (f k) k
      | OPut k' => fun f => kwp Q (f tt) k'
      | OBread _ _ => fun f => Q None k /\ forall x, kwp Q (f x) k
      | OBdata _ => fun f => forall x, kwp Q (f x) k
      | OBset _ _ => fun f => forall x, kwp Q (f x) k
      | OLogWrite _ => fun f => forall x, kwp Q (f x) k
      | OBrelse _ => fun f => forall x, kwp Q (f x) k
      | OBeginOp => fun f => Q None k /\ forall x, kwp Q (f x) k
      | OEndOp => fun f => Q None k /\ forall x, kwp Q (f x) k
      | OIfLogFull => fun f => forall x, kwp Q (f x) k
      end f
  end.

Definition kept (R : kst -> kst -> Prop) {A} (p : prog kst A) : Prop := forall k, kwp (fun _ k' => R k k') p k.
Definition skept (R : kst -> kst -> Prop) {A} (m : stM kst A) : Prop := forall k,
  match m k with Ok _ k' | Sleep _ k' => R k k' | _ => True end.

(** A relation between kernel states that allows updates of the memory and
    of the inode, file and pipe tables, of a process's files, and wakeups; the
    tables keep their sizes. *)
Class KFrame (R : kst -> kst -> Prop) := {
  kf_refl : forall k, R k k;
  kf_trans : forall k1 k2 k3, R k1 k2 -> R k2 k3 -> R k1 k3;
  kf_sb : forall f k, R k (set_sb f k);
  kf_itable : forall f k, (forall l, length (f l) = length l) -> R k (set_itable f k);
  kf_ftable : forall f k, (forall l, length (f l) = length l) -> R k (set_ftable f k);
  kf_pipes : forall f k, R k (set_pipes f k);
  kf_mem : forall f k, R k (set_mem f k);
  kf_freelist : forall x k, R k (set_freelist x k);
  kf_wakeup : forall c, skept R (wakeup c);
  kf_ofile : forall g i k, (forall l, length (g l) = length l) -> R k (set_procs (alter (p_set_ofile g) i) k);
  kf_cwd : forall c i k, R k (set_procs (alter (p_set_cwd c) i) k)
}.

(** ** Lemmas: rules *)

Lemma kwp_mono {A} (Q Q' : option A -> kst -> Prop) (p : prog kst A) k : (forall a k, Q a k -> Q' a k) -> kwp Q p k -> kwp Q' p k.
Proof.
  intros H. revert k. induction p as [a|m|c|w|X o f IH]; intros k; cbn [kwp]; [apply H|done|apply H|done|].
  destruct o; cbn; try (intros [H1 H2]; split; [by apply H|intros x; apply IH, H2]); intros Hk; try (intros x; apply IH, Hk); apply IH, Hk.
Qed.

(** The postcondition for the first part of a sequence. *)
Definition kthen {A B} (Q : option B -> kst -> Prop) (f : A -> prog kst B) (o : option A) (k : kst) : Prop :=
  match o with Some a => kwp Q (f a) k | None => Q None k end.

Lemma kwp_bind {A B} (Q : option B -> kst -> Prop) (m : prog kst A) (f : A -> prog kst B) k :
  kwp (kthen Q f) m k -> kwp Q (pbind m f) k.
Proof.
  revert k. unfold pbind. induction m as [a|m|c|w|X o g IH]; intros k; cbn [kwp pbind_]; [done|done|done|done|].
  destruct o; cbn; try (intros [H1 H2]; split; [done|intros x; apply IH, H2]); intros Hk; try (intros x; apply IH, Hk); apply IH, Hk.
Qed.

(** Handlers under which only [OPut] changes the kernel state, and only some
    operations sleep. *)
Definition khandler {S} (h : forall X, op kst X -> stM (kst * S) X) : Prop :=
  forall X (o : op kst X) k s,
    match h X o (k, s) with
    | Ok x (k', _) =>
        match o in op _ X return X -> Prop with
        | OGet => fun x => x = k /\ k' = k
        | OPut k2 => fun _ => k' = k2
        | _ => fun _ => k' = k
        end x
    | Sleep _ (k', _) => k' = k /\ match o with OBread _ _ | OBeginOp | OEndOp => True | _ => False end
    | _ => True
    end.

Lemma khandler_A : khandler (@hA kst).
Proof. intros X o k s. destruct o; cbn; repeat case_match; simplify_eq; done. Qed.

Lemma khandler_C : khandler (@hC kst).
Proof.
  assert (Ho : forall X (o : op kst X) (m : stM bstate X) (k : kst) s, match o with OBread _ _ | OBeginOp | OEndOp => True | _ => False end ->
    match on_snd m (k, s) with Ok _ (k', _) => k' = k | Sleep _ (k', _) => k' = k /\ match o with OBread _ _ | OBeginOp | OEndOp => True | _ => False end | _ => True end).
  { intros X o m k s H. cbn. by destruct (m s). }
  intros X o k s. destruct o; cbn [hC]; try done.
  - exact (Ho _ (OBread dev b) _ k s I).
  - cbn. unfold at_buf. by destruct (bidx s b).
  - cbn. unfold at_buf. by destruct (bidx s b).
  - cbn. unfold at_buf. destruct (bidx s b) as [i|]; [|done]. unfold Log.log_write. cbv zeta. destruct (_ || _); [done|]. destruct (_ <? 1); [done|].
    unfold sbind, modlog, smodify, bpin. by destruct (_ =? _).
  - cbn. unfold at_buf. destruct (bidx s b) as [i|]; [|done]. unfold Bio.brelse, sbind, holdingsleep_buf. cbv beta.
    destruct (negb _); [done|]. unfold releasesleep_buf, smodify, sget. cbv beta. by destruct (_ =? 0).
  - exact (Ho _ OBeginOp _ k s I).
  - exact (Ho _ OEndOp _ k s I).
Qed.

Lemma kwp_run {S A} (h : forall X, op kst X -> stM (kst * S) X) (Q : option A -> kst -> Prop) (p : prog kst A) k s :
  khandler h -> kwp Q p k ->
  match run h p (k, s) with Ok x (k', _) => Q (Some x) k' | Sleep _ (k', _) => Q None k' | _ => True end.
Proof.
  intros Hh. revert k s. induction p as [a|m|c|w|X o f IH]; intros k s; cbn [kwp run]; try done.
  specialize (Hh X o k s). destruct (h X o (k, s)) as [y [k1 s1]| |c [k1 s1]|] eqn:E; try done.
  - intros Hk. apply IH. destruct o; cbn in *; try (subst k1; apply Hk); [destruct Hh as [-> ->]; exact Hk|subst k1; by destruct y].
  - destruct Hh as [-> Ho]. destruct o; try done; by intros [H _].
Qed.

Section Rules.
  Context (R : kst -> kst -> Prop) {KF : KFrame R}.

Lemma kept_bind {A B} (m : prog kst A) (f : A -> prog kst B) : kept R m -> (forall a, kept R (f a)) -> kept R (pbind m f).
Proof.
  intros Hm Hf k. apply kwp_bind. apply (kwp_mono _ _ _ _) with (2 := Hm k). intros [a|] k1 H1; [|exact H1].
  apply (kwp_mono _ _ _ _) with (2 := Hf a k1). intros b k2 H2. exact (kf_trans _ _ _ H1 H2).
Qed.

Lemma kept_ret {A} (a : A) : kept R (Ret a).
Proof. intros k. exact (kf_refl k). Qed.
Lemma kept_panic {A} m : kept R (panic m : prog kst A).
Proof. done. Qed.
Lemma kept_wrong {A} m : kept R (WrongP m : prog kst A).
Proof. done. Qed.
Lemma kept_sleep {A} m : kept R (SleepP m : prog kst A).
Proof. intros k. exact (kf_refl k). Qed.
Lemma kept_get : kept R (P.get : M kst).
Proof. intros k. exact (kf_refl k). Qed.
Lemma kept_op {X} (o : op kst X) : match o with OPut _ => False | _ => True end -> kept R (trigger o).
Proof. intros H k. pose proof (kf_refl k). destruct o; cbn; try done; try (split; [done|]); done. Qed.

Lemma kept_modk f : (forall k, R k (f k)) -> kept R (modk f).
Proof. intros H k. cbn. apply H. Qed.

Lemma kept_liftK {A} (m : stM kst A) : skept R m -> kept R (liftK m).
Proof.
  intros H k. unfold liftK. apply kwp_bind. cbn [kwp P.get trigger kthen]. specialize (H k). by destruct (m k).
Qed.

Lemma kept_pfor {I} (l : list I) (f : I -> prog kst unit) : (forall i, kept R (f i)) -> kept R (pfor l f).
Proof. intros H. induction l as [|i l IH]; [apply kept_ret|]. cbn [pfor]. by apply kept_bind. Qed.

Lemma skept_bind {A B} (m : stM kst A) (f : A -> stM kst B) : skept R m -> (forall a, skept R (f a)) -> skept R (sbind m f).
Proof.
  intros Hm Hf k. unfold sbind. specialize (Hm k). destruct (m k) as [a k1| | |]; [|done..]. specialize (Hf a k1).
  destruct (f a k1); try done; exact (kf_trans _ _ _ Hm Hf).
Qed.
Lemma skept_ret {A} (a : A) : skept R (sret a).
Proof. intros k. exact (kf_refl k). Qed.
Lemma skept_panic {A} m : skept R (spanic m : stM kst A).
Proof. by intros k. Qed.
Lemma skept_get : skept R sget.
Proof. intros k. exact (kf_refl k). Qed.
Lemma skept_modify f : (forall k, R k (f k)) -> skept R (smodify f).
Proof. intros H k. apply H. Qed.
Lemma skept_wrong {A} w : skept R (fun _ => Wrong w : outcome kst A).
Proof. by intros k. Qed.
Lemma skept_sleep {A} c : skept R (fun k => Sleep c k : outcome kst A).
Proof. intros k. exact (kf_refl k). Qed.
Lemma skept_sfor {I} (l : list I) (f : I -> stM kst unit) : (forall i, skept R (f i)) -> skept R (sfor l f).
Proof. intros H. induction l as [|i l IH]; [apply skept_ret|]. cbn [sfor]. by apply skept_bind. Qed.
End Rules.

(** ** Automation: walk over a routine, with the lemmas of the routines it
    calls. *)
Create HintDb kept.
#[export] Hint Constants Opaque : kept.
Ltac kept_size := first [assumption|solve [auto]|apply length_alter|apply length_insert|apply length_fmap].
Ltac kept_step :=
  match goal with
  | |- kept _ (pbind _ _) => apply kept_bind; [exact _| |intro]
  | |- kept _ (Ret _) => apply kept_ret; exact _
  | |- kept _ (panic _) => apply kept_panic
  | |- kept _ (PanicP _) => apply kept_panic
  | |- kept _ (WrongP _) => apply kept_wrong
  | |- kept _ (SleepP _) => apply kept_sleep; exact _
  | |- kept _ P.get => apply kept_get; exact _
  | |- kept _ (P.put _) => fail 1
  | |- kept _ (trigger _) => apply kept_op; [exact _|exact I]
  | |- kept _ (P.bread _ _) => unfold P.bread
  | |- kept _ (P.bdata _) => unfold P.bdata
  | |- kept _ (P.bset _ _) => unfold P.bset
  | |- kept _ (P.log_write _) => unfold P.log_write
  | |- kept _ (P.brelse _) => unfold P.brelse
  | |- kept _ P.begin_op => unfold P.begin_op
  | |- kept _ P.end_op => unfold P.end_op
  | |- kept _ P.if_log_full => unfold P.if_log_full
  | |- kept _ (modk _) => apply kept_modk; intro
  | |- kept _ (liftK _) => apply kept_liftK
  | |- kept _ (pfor _ _) => apply kept_pfor; [exact _|intro]
  | |- skept _ (sbind _ _) => apply skept_bind; [exact _| |intro]
  | |- skept _ (sret _) => apply skept_ret; exact _
  | |- skept _ (spanic _) => apply skept_panic
  | |- skept _ sget => apply skept_get; exact _
  | |- skept _ (smodify _) => apply skept_modify; intro
  | |- skept _ (sfor _ _) => apply skept_sfor; [exact _|intro]
  | |- skept _ (wakeup _) => apply kf_wakeup
  | |- skept _ (fun _ => Wrong _) => apply skept_wrong
  | |- skept _ (fun _ => Sleep _ _) => apply skept_sleep; exact _
  | |- ?R _ (set_sb _ _) => apply kf_sb
  | |- ?R _ (set_itable _ _) => apply kf_itable; intro; kept_size
  | |- ?R _ (set_ftable _ _) => apply kf_ftable; intro; kept_size
  | |- ?R _ (set_pipes _ _) => apply kf_pipes
  | |- ?R _ (set_mem _ _) => apply kf_mem
  | |- ?R _ (set_freelist _ _) => apply kf_freelist
  | |- ?R _ (set_procs (alter (p_set_ofile _) _) _) => apply kf_ofile; intro; kept_size
  | |- ?R _ (set_procs (alter (p_set_cwd _) _) _) => apply kf_cwd
  | |- kept _ (modproc (p_set_ofile _)) => unfold modproc
  | |- _ _ (if ?b then _ else _) => destruct b
  | |- _ _ (let '(_, _) := ?x in _) => destruct x
  | |- _ _ (match ?x with _ => _ end) => destruct x
  end.
Ltac kept := cbv zeta; repeat first [solve [eauto 2 with kept typeclass_instances] | progress cbv zeta | kept_step].

Section Routines.
  Context (R : kst -> kst -> Prop) {KF : KFrame R}.

(** kalloc.c and vm.c *)
Lemma skept_ldm64 a : skept R (ldm64 a).
Proof. intros k. exact (kf_refl k). Qed.
Lemma skept_stm64 a x : skept R (stm64 a x).
Proof. unfold stm64. kept. Qed.
Lemma skept_fill_page a c : skept R (fill_page a c).
Proof. unfold fill_page. kept. Qed.
Hint Resolve skept_ldm64 skept_stm64 skept_fill_page : kept.
Lemma skept_kfree pa : skept R (kfree pa).
Proof. unfold kfree. kept. Qed.
Lemma skept_kalloc : skept R kalloc.
Proof. unfold kalloc. kept. Qed.
Hint Resolve skept_kfree skept_kalloc : kept.
Lemma skept_walk pt va b : skept R (walk pt va b).
Proof.
  unfold walk. destruct (_ <=? _); [kept|]. revert pt. generalize [2; 1]. intros l. induction l as [|j l IH]; intros pt; cbn [walk_loop]; kept.
Qed.
Hint Resolve skept_walk : kept.
Lemma skept_walkaddr pt va : skept R (walkaddr pt va).
Proof. unfold walkaddr. kept. Qed.
Hint Resolve skept_walkaddr : kept.
Lemma skept_mappages pt va sz pa perm : skept R (mappages pt va sz pa perm).
Proof.
  assert (H : forall n a pa, skept R (mappages_loop n pt a pa perm)) by (induction n as [|n IH]; intros a q; cbn [mappages_loop]; kept).
  unfold mappages. kept.
Qed.
Lemma skept_uvmunmap pt va n b : skept R (uvmunmap pt va n b).
Proof.
  assert (H : forall n a, skept R (uvmunmap_loop n pt a b)) by (induction n0 as [|m IH]; intros a; cbn [uvmunmap_loop]; kept).
  unfold uvmunmap. kept.
Qed.
Lemma skept_uvmcreate : skept R uvmcreate.
Proof. unfold uvmcreate. kept. Qed.
Hint Resolve skept_mappages skept_uvmunmap skept_uvmcreate : kept.
Lemma skept_uvminit pt src : skept R (uvminit pt src).
Proof. unfold uvminit. kept. Qed.
Lemma skept_uvmdealloc pt o n : skept R (uvmdealloc pt o n).
Proof. unfold uvmdealloc. kept. Qed.
Hint Resolve skept_uvminit skept_uvmdealloc : kept.
Lemma skept_uvmalloc pt o n : skept R (uvmalloc pt o n).
Proof.
  assert (H : forall i a s, skept R (uvmalloc_loop i pt a s n)) by (induction i as [|i IH]; intros a s; cbn [uvmalloc_loop]; kept).
  unfold uvmalloc. kept.
Qed.
Lemma skept_freewalk d pt : skept R (freewalk d pt).
Proof. revert pt. induction d as [|d IH]; intros pt; cbn [freewalk]; kept. Qed.
Hint Resolve skept_uvmalloc skept_freewalk : kept.
Lemma skept_uvmfree pt sz : skept R (uvmfree pt sz).
Proof. unfold uvmfree. kept. Qed.
Lemma skept_uvmcopy o n sz : skept R (uvmcopy o n sz).
Proof.
  assert (H : forall j i, skept R (uvmcopy_loop j o n i sz)) by (induction j as [|j IH]; intros i; cbn [uvmcopy_loop]; kept).
  unfold uvmcopy. kept.
Qed.
Lemma skept_uvmclear pt va : skept R (uvmclear pt va).
Proof. unfold uvmclear. kept. Qed.
Lemma skept_copyout pt va src : skept R (copyout pt va src).
Proof.
  assert (H : forall n va src, skept R (copyout_loop n pt va src)) by (induction n as [|n IH]; intros a s; cbn [copyout_loop]; kept).
  unfold copyout. kept.
Qed.
Lemma skept_copyin pt va len : skept R (copyin pt va len).
Proof.
  assert (H : forall n va len acc, skept R (copyin_loop n pt va len acc)) by (induction n as [|n IH]; intros a l acc; cbn [copyin_loop]; kept).
  unfold copyin. kept.
Qed.
Lemma skept_copyinstr pt va max : skept R (copyinstr pt va max).
Proof.
  assert (H : forall n va m acc, skept R (copyinstr_loop n pt va m acc)) by (induction n as [|n IH]; intros a l acc; cbn [copyinstr_loop]; kept).
  unfold copyinstr. kept.
Qed.
Hint Resolve skept_uvmfree skept_uvmcopy skept_uvmclear skept_copyout skept_copyin skept_copyinstr : kept.

(** pipe.c *)
Lemma skept_setpipe pi p : skept R (setpipe pi p).
Proof. unfold setpipe. kept. Qed.
Lemma skept_getpipe pi : skept R (getpipe pi).
Proof. intros k. exact (kf_refl k). Qed.
Lemma skept_curproc : skept R curproc.
Proof. intros k. exact (kf_refl k). Qed.
Hint Resolve skept_setpipe skept_getpipe skept_curproc : kept.
Lemma skept_pipeclose pi w : skept R (pipeclose pi w).
Proof. unfold pipeclose. kept. Qed.
Lemma skept_pipewrite pi addr n : skept R (pipewrite pi addr n).
Proof.
  assert (H : forall f i, skept R (pipewrite_loop f pi addr n i)) by (induction f as [|f IH]; intros i; cbn [pipewrite_loop]; kept).
  unfold pipewrite, pipewrite_from. kept.
Qed.
Lemma skept_piperead pi addr n : skept R (piperead pi addr n).
Proof.
  assert (H : forall l i, skept R (piperead_loop l pi addr i)) by (induction l as [|l IH]; intros i; cbn [piperead_loop]; kept).
  unfold piperead, piperead_try. kept.
Qed.
Hint Resolve skept_pipeclose skept_pipewrite skept_piperead : kept.

(** Access to the tables *)
Lemma kept_geti ip : kept R (geti ip).
Proof. unfold geti. kept. Qed.
Lemma kept_modi ip f : kept R (modi ip f).
Proof. unfold modi. kept. Qed.
Lemma kept_getf f : kept R (getf f).
Proof. unfold getf. kept. Qed.
Lemma kept_modf f g : kept R (modf f g).
Proof. unfold modf. kept. Qed.
Lemma kept_getsb : kept R getsb.
Proof. unfold getsb. kept. Qed.
Lemma kept_myproc : kept R myproc.
Proof. unfold myproc. kept. Qed.
Hint Resolve kept_geti kept_modi kept_getf kept_modf kept_getsb kept_myproc : kept.

(** fs.c *)
Lemma kept_updatesb dev sb : kept R (updatesb dev sb).
Proof. unfold updatesb. kept. Qed.
Lemma kept_bzero dev b : kept R (bzero dev b).
Proof. unfold bzero. kept. Qed.
Hint Resolve kept_updatesb kept_bzero : kept.
Lemma kept_bm_alloc dev s l u m : kept R (bm_alloc dev s l u m).
Proof. unfold bm_alloc. generalize (Z.to_nat (l / BPB + 1)), 0. intros n. induction n as [|n IH]; intros b; cbn [bm_loop]; kept. Qed.
Lemma kept_bm_free dev s u m n : kept R (bm_free dev s u m n).
Proof. unfold bm_free. kept. Qed.
Hint Resolve kept_bm_alloc kept_bm_free : kept.
Lemma kept_balloc dev : kept R (balloc dev).
Proof. unfold balloc. kept. Qed.
Lemma kept_bfree dev b : kept R (bfree dev b).
Proof. unfold bfree. kept. Qed.
Lemma kept_searchibmap dev : kept R (searchibmap dev).
Proof. unfold searchibmap. kept. Qed.
Lemma kept_ifree dev i : kept R (ifree dev i).
Proof. unfold ifree. kept. Qed.
Lemma kept_iget dev i : kept R (iget dev i).
Proof. unfold iget. kept. Qed.
Lemma kept_idup ip : kept R (idup ip).
Proof. unfold idup. kept. Qed.
Lemma kept_iupdate ip : kept R (iupdate ip).
Proof. unfold iupdate. kept. Qed.
Lemma kept_acquiresleep ip : kept R (acquiresleep ip).
Proof. unfold acquiresleep. kept. Qed.
Lemma kept_releasesleep ip : kept R (releasesleep ip).
Proof. unfold releasesleep. kept. Qed.
Lemma kept_holdingsleep ip : kept R (holdingsleep ip).
Proof. unfold holdingsleep. kept. Qed.
Hint Resolve kept_balloc kept_bfree kept_searchibmap kept_ifree kept_iget kept_idup kept_iupdate kept_acquiresleep kept_releasesleep kept_holdingsleep : kept.
Lemma kept_ialloc dev t : kept R (ialloc dev t).
Proof. unfold ialloc. kept. Qed.
Lemma kept_ilock o : kept R (ilock o).
Proof. unfold ilock. kept. Qed.
Lemma kept_iunlock o : kept R (iunlock o).
Proof. unfold iunlock. kept. Qed.
Lemma kept_addr_at ip j : kept R (addr_at ip j).
Proof. unfold addr_at. kept. Qed.
Lemma kept_set_addr ip j a : kept R (set_addr ip j a).
Proof. unfold set_addr. kept. Qed.
Hint Resolve kept_ialloc kept_ilock kept_iunlock kept_addr_at kept_set_addr : kept.
Lemma kept_bmap_top ip j : kept R (bmap_top ip j).
Proof. unfold bmap_top. kept. Qed.
Lemma kept_bmap_ind dev a j : kept R (bmap_ind dev a j).
Proof. unfold bmap_ind. kept. Qed.
Lemma kept_bmap_extent ip bn : kept R (bmap_extent ip bn).
Proof.
  assert (H : forall n i, kept R (extent_find n ip bn i)) by (induction n as [|n IH]; intros i; cbn [extent_find]; kept).
  unfold bmap_extent. kept.
Qed.
Hint Resolve kept_bmap_top kept_bmap_ind kept_bmap_extent : kept.
Lemma kept_bmap ip bn : kept R (bmap ip bn).
Proof. unfold bmap. kept. Qed.
Lemma kept_free_ind n dev a : kept R (free_ind n dev a).
Proof. revert a. induction n as [|n IH]; intros a; cbn [free_ind]; kept. Qed.
Lemma kept_trunc_extents n ip dev i : kept R (trunc_extents n ip dev i).
Proof. revert i. induction n as [|n IH]; intros i; cbn [trunc_extents]; kept. Qed.
Hint Resolve kept_bmap kept_free_ind kept_trunc_extents : kept.
Lemma kept_itrunc ip : kept R (itrunc ip).
Proof. unfold itrunc. kept. Qed.
Hint Resolve kept_itrunc : kept.
Lemma kept_iput ip : kept R (iput ip).
Proof. unfold iput. kept. Qed.
Hint Resolve kept_iput : kept.
Lemma kept_iunlockput ip : kept R (iunlockput ip).
Proof. unfold iunlockput. kept. Qed.
Lemma kept_either_copyout d a s : kept R (either_copyout d a s).
Proof. unfold either_copyout. kept. Qed.
Lemma kept_either_copyin s a l : kept R (either_copyin s a l).
Proof. unfold either_copyin. kept. Qed.
Hint Resolve kept_iunlockput kept_either_copyout kept_either_copyin : kept.
Lemma kept_readi ip d o n : kept R (readi ip d o n).
Proof.
  assert (H : forall f o n t acc, kept R (readi_loop f ip d o n t acc)) by (induction f as [|f IH]; intros; cbn [readi_loop]; kept).
  unfold readi. kept.
Qed.
Lemma kept_writei ip s o n : kept R (writei ip s o n).
Proof.
  assert (H : forall f o t, kept R (writei_loop f ip s o n t)) by (induction f as [|f IH]; intros; cbn [writei_loop]; kept).
  unfold writei. kept.
Qed.
Hint Resolve kept_readi kept_writei : kept.

(** Directories and paths *)
Lemma kept_check_log_full : kept R check_log_full.
Proof. unfold check_log_full. kept. Qed.
Lemma kept_check_free : kept R check_free.
Proof. unfold check_free. kept. Qed.
Hint Resolve kept_check_log_full kept_check_free : kept.
Lemma kept_contiguous ip off : kept R (contiguous_block_allocation ip off).
Proof. unfold contiguous_block_allocation. kept. Qed.
Hint Resolve kept_contiguous : kept.
Lemma kept_tree_expand ip sz : kept R (tree_expand ip sz).
Proof. unfold tree_expand. kept. Qed.
Hint Resolve kept_tree_expand : kept.
Lemma kept_ts_loop f dp nm add o n : kept R (ts_loop f dp nm add o n).
Proof. revert o. induction f as [|f IH]; intros o; cbn [ts_loop]; kept. Qed.
Hint Resolve kept_ts_loop : kept.
Lemma kept_tree_search dp nm add : kept R (tree_search dp nm add).
Proof. unfold tree_search. kept. Qed.
Lemma kept_lookup_linear f dp nm o l : kept R (lookup_linear f dp nm o l).
Proof. revert o. induction f as [|f IH]; intros o; cbn [lookup_linear]; kept. Qed.
Hint Resolve kept_tree_search kept_lookup_linear : kept.
Lemma kept_dirlookup dp nm : kept R (dirlookup dp nm).
Proof. unfold dirlookup. kept. Qed.
Hint Resolve kept_dirlookup : kept.
Lemma kept_dirlink dp nm i : kept R (dirlink dp nm i).
Proof. unfold dirlink. kept. Qed.
Lemma kept_init_entry dp o nm i : kept R (init_entry dp o nm i).
Proof. unfold init_entry. kept. Qed.
Hint Resolve kept_dirlink kept_init_entry : kept.
Lemma kept_build_dir_tree dp i : kept R (build_dir_tree dp i).
Proof. unfold build_dir_tree. kept. Qed.
Lemma kept_namex p b : kept R (namex p b).
Proof.
  assert (H : forall f ip p nm, kept R (namex_loop f ip p b nm)) by (induction f as [|f IH]; intros; cbn [namex_loop]; kept).
  unfold namex. kept.
Qed.
Hint Resolve kept_build_dir_tree kept_namex : kept.
Lemma kept_namei p : kept R (namei p).
Proof. unfold namei. kept. Qed.
Lemma kept_nameiparent p : kept R (nameiparent p).
Proof. unfold nameiparent. kept. Qed.
Hint Resolve kept_namei kept_nameiparent : kept.

(** file.c *)
Lemma kept_filealloc : kept R filealloc.
Proof. unfold filealloc. kept. Qed.
Lemma kept_filedup f : kept R (filedup f).
Proof. unfold filedup. kept. Qed.
Lemma kept_fileclose f : kept R (fileclose f).
Proof. unfold fileclose. kept. Qed.
Lemma kept_stati ip : kept R (stati ip).
Proof. unfold stati. kept. Qed.
Hint Resolve kept_filealloc kept_filedup kept_fileclose kept_stati : kept.
Lemma kept_filestat pad f a : kept R (filestat pad f a).
Proof. unfold filestat. kept. Qed.
Lemma kept_mode_ok ff b : kept R (mode_ok ff b).
Proof. unfold mode_ok. kept. Qed.
Lemma kept_dev_read m a n : kept R (dev_read m a n).
Proof. unfold dev_read. kept. Qed.
Lemma kept_dev_write m a n : kept R (dev_write m a n).
Proof. unfold dev_write. kept. Qed.
Hint Resolve kept_filestat kept_mode_ok kept_dev_read kept_dev_write : kept.
Lemma kept_fileread f a n : kept R (fileread f a n).
Proof. unfold fileread. kept. Qed.
Lemma kept_filewrite f a n : kept R (filewrite f a n).
Proof.
  assert (H : forall u i, kept R (filewrite_loop u f a n i)) by (induction u as [|u IH]; intros; cbn [filewrite_loop]; kept).
  unfold filewrite. kept.
Qed.
Lemma kept_pipealloc : kept R pipealloc.
Proof. unfold pipealloc. kept. Qed.
Hint Resolve kept_fileread kept_filewrite kept_pipealloc : kept.

(** syscall.c and sysfile.c *)
Lemma kept_modproc_ofile g : (forall l, length (g l) = length l) -> kept R (modproc (p_set_ofile g)).
Proof. intros Hg. unfold modproc. kept. Qed.
Lemma kept_modproc_cwd c : kept R (modproc (p_set_cwd c)).
Proof. unfold modproc. kept. Qed.
Hint Resolve kept_modproc_ofile kept_modproc_cwd : kept.
Lemma kept_argraw n : kept R (argraw n).
Proof. unfold argraw. kept. Qed.
Hint Resolve kept_argraw : kept.
Lemma kept_argint n : kept R (argint n).
Proof. unfold argint. kept. Qed.
Lemma kept_argaddr n : kept R (argaddr n).
Proof. unfold argaddr. kept. Qed.
Lemma kept_fetchaddr a : kept R (fetchaddr a).
Proof. unfold fetchaddr. kept. Qed.
Lemma kept_fetchstr a m : kept R (fetchstr a m).
Proof. unfold fetchstr. kept. Qed.
Hint Resolve kept_argint kept_argaddr kept_fetchaddr kept_fetchstr : kept.
Lemma kept_argstr n m : kept R (argstr n m).
Proof. unfold argstr. kept. Qed.
Lemma kept_argfd n : kept R (argfd n).
Proof. unfold argfd. kept. Qed.
Lemma kept_set_ofile fd f : kept R (set_ofile fd f).
Proof. unfold set_ofile. apply kept_modproc_ofile. intros l. apply length_insert. Qed.
Hint Resolve kept_argstr kept_argfd kept_set_ofile : kept.
Lemma kept_fdalloc f : kept R (fdalloc f).
Proof. unfold fdalloc. kept. Qed.
Lemma kept_isdirempty dp : kept R (isdirempty dp).
Proof.
  assert (H : forall f o, kept R (isdirempty_loop f dp o)) by (induction f as [|f IH]; intros; cbn [isdirempty_loop]; kept).
  unfold isdirempty. kept.
Qed.
Lemma kept_create p t a b : kept R (create p t a b).
Proof. unfold create. kept. Qed.
Lemma kept_open_follow f ip o c : kept R (open_follow f ip o c).
Proof. revert ip c. induction f as [|f IH]; intros ip c; cbn [open_follow]; kept. Qed.
Lemma kept_finish o : kept R (finish o).
Proof. unfold finish. kept. Qed.
Hint Resolve kept_fdalloc kept_isdirempty kept_create kept_open_follow kept_finish : kept.
Lemma kept_create_and_put p t a b : kept R (create_and_put p t a b).
Proof. unfold create_and_put. kept. Qed.
Lemma kept_set_field p g : kept R (set_field p g).
Proof. unfold set_field. kept. Qed.
Lemma skept_freemem_size : skept R freemem_size.
Proof.
  assert (H : forall n r i, skept R (freemem_loop n r i)) by (induction n as [|n IH]; intros; cbn [freemem_loop]; kept).
  unfold freemem_size. kept.
Qed.
Hint Resolve kept_create_and_put kept_set_field skept_freemem_size : kept.

(** The calls that are not about processes *)
Lemma kept_sys_pipe : kept R sys_pipe.
Proof. unfold sys_pipe, sys_pipe_. kept. Qed.
Lemma kept_sys_read : kept R sys_read.
Proof. unfold sys_read. kept. Qed.
Lemma kept_sys_fstat pad : kept R (sys_fstat pad).
Proof. unfold sys_fstat. kept. Qed.
Lemma kept_sys_chdir : kept R sys_chdir.
Proof. unfold sys_chdir. kept. Qed.
Lemma kept_sys_dup : kept R sys_dup.
Proof. unfold sys_dup, sys_dup_. kept. Qed.
Lemma kept_sys_getpid : kept R sys_getpid.
Proof. unfold sys_getpid. kept. Qed.
Lemma kept_sys_sleep t0 t : kept R (sys_sleep t0 t).
Proof. unfold sys_sleep. kept. Qed.
Lemma kept_sys_uptime t : kept R (sys_uptime t).
Proof. unfold sys_uptime. kept. Qed.
Lemma kept_sys_open : kept R sys_open.
Proof. unfold sys_open, sys_open_. kept. Qed.
Lemma kept_sys_write : kept R sys_write.
Proof. unfold sys_write. kept. Qed.
Lemma kept_sys_mknod : kept R sys_mknod.
Proof. unfold sys_mknod. kept. Qed.
Lemma kept_sys_unlink : kept R sys_unlink.
Proof. unfold sys_unlink, sys_unlink_. kept. Qed.
Lemma kept_sys_link : kept R sys_link.
Proof. unfold sys_link, sys_link_. kept. Qed.
Lemma kept_sys_mkdir : kept R sys_mkdir.
Proof. unfold sys_mkdir. kept. Qed.
Lemma kept_sys_close : kept R sys_close.
Proof. unfold sys_close, sys_close_. kept. Qed.
Lemma kept_sys_chmode : kept R sys_chmode.
Proof. unfold sys_chmode, chmode. kept. Qed.
Lemma kept_sys_chspmode : kept R sys_chspmode.
Proof. unfold sys_chspmode, chspmode. kept. Qed.
Lemma kept_sys_sysinfo : kept R sys_sysinfo.
Proof. unfold sys_sysinfo. kept. Qed.
Lemma kept_sys_symlink st : kept R (sys_symlink st).
Proof. unfold sys_symlink, sys_symlink_. kept. Qed.
Lemma kept_sys_fsinfo : kept R sys_fsinfo.
Proof. unfold sys_fsinfo. kept. Qed.
Lemma kept_sys_showstat : kept R sys_showstat.
Proof. unfold sys_showstat. kept. Qed.
Lemma kept_sys_delete : kept R sys_delete.
Proof. unfold sys_delete, sys_delete_. kept. Qed.
Lemma kept_sys_show : kept R sys_show.
Proof. unfold sys_show, sys_show_. kept. Qed.
Lemma kept_sys_lseek : kept R sys_lseek.
Proof. unfold sys_lseek, sys_lseek_. kept. Qed.
Hint Resolve kept_sys_pipe kept_sys_read kept_sys_fstat kept_sys_chdir kept_sys_dup kept_sys_getpid kept_sys_sleep kept_sys_uptime kept_sys_open kept_sys_write kept_sys_mknod kept_sys_unlink kept_sys_link kept_sys_mkdir kept_sys_close kept_sys_chmode kept_sys_chspmode kept_sys_sysinfo kept_sys_symlink kept_sys_fsinfo kept_sys_showstat kept_sys_delete kept_sys_show kept_sys_lseek : kept.

(** A call of the table that is about processes: fork, exit, wait, kill, exec
    and sbrk. *)
Definition is_proc_call (num : Z) : bool := existsb (Z.eqb num) [1; 2; 3; 6; 7; 12].

Lemma kept_syscalls e num f : syscalls e num = Some f -> is_proc_call num = false -> kept R f.
Proof.
  intros E Hn. unfold syscalls in E. destruct num as [|q|q]; try discriminate E.
  repeat (destruct q as [q|q|]; try discriminate E); injection E as <-; first [vm_compute in Hn; discriminate Hn|solve [eauto 1 with kept]].
Qed.
End Routines.

#[export] Hint Resolve skept_ldm64 skept_stm64 skept_fill_page skept_kfree skept_kalloc skept_walk skept_walkaddr skept_mappages
  skept_uvmunmap skept_uvmcreate skept_uvminit skept_uvmdealloc skept_uvmalloc skept_freewalk skept_uvmfree skept_uvmcopy
  skept_uvmclear skept_copyout skept_copyin skept_copyinstr skept_setpipe skept_getpipe skept_curproc skept_pipeclose
  skept_pipewrite skept_piperead kept_geti kept_modi kept_getf kept_modf kept_getsb kept_myproc kept_updatesb kept_bzero
  kept_bm_alloc kept_bm_free kept_balloc kept_bfree kept_searchibmap kept_ifree kept_iget kept_idup kept_iupdate kept_acquiresleep
  kept_releasesleep kept_holdingsleep kept_ialloc kept_ilock kept_iunlock kept_addr_at kept_set_addr kept_bmap_top kept_bmap_ind
  kept_bmap_extent kept_bmap kept_free_ind kept_trunc_extents kept_itrunc kept_iput kept_iunlockput kept_either_copyout
  kept_either_copyin kept_readi kept_writei kept_check_log_full kept_check_free kept_contiguous kept_tree_expand kept_ts_loop
  kept_tree_search kept_lookup_linear kept_dirlookup kept_dirlink kept_init_entry kept_build_dir_tree kept_namex kept_namei
  kept_nameiparent kept_filealloc kept_filedup kept_fileclose kept_stati kept_filestat kept_mode_ok kept_dev_read kept_dev_write
  kept_fileread kept_filewrite kept_pipealloc kept_modproc_ofile kept_modproc_cwd kept_argraw kept_argint kept_argaddr
  kept_fetchaddr kept_fetchstr kept_argstr kept_argfd kept_set_ofile kept_fdalloc kept_isdirempty kept_create kept_open_follow
  kept_finish kept_create_and_put kept_set_field skept_freemem_size kept_sys_pipe kept_sys_read kept_sys_fstat kept_sys_chdir
  kept_sys_dup kept_sys_getpid kept_sys_sleep kept_sys_uptime kept_sys_open kept_sys_write kept_sys_mknod kept_sys_unlink
  kept_sys_link kept_sys_mkdir kept_sys_close kept_sys_chmode kept_sys_chspmode kept_sys_sysinfo kept_sys_symlink kept_sys_fsinfo
  kept_sys_showstat kept_sys_delete kept_sys_show kept_sys_lseek : kept.
