(* ===== verification/ProcSpec.v ===== *)
(** * The process table (kernel/proc.c)

    [ptable_ok] is the invariant of the process table: process ids are unique
    and below the counter, parents are alive, at most one process runs.
    Every system call, wakeup and switch preserves it, so it holds in every
    reachable state.  Further: what exit and wait do to a parent and a child. *)
From S2P Require Import Prelude Str Bio Log Crash Machine Types Vm Codec Ld Balloc Inode Dir Pipe File Sysfile Proc Exec Syscall Frame.

Definition st_of (k : kst) (i : nat) : procstate := p_state (nth i (k_procs k) proc0).

(** A process that can still run. *)
Definition alive (s : procstate) : bool := match s with SLEEPING | RUNNABLE | RUNNING => true | _ => false end.
Definition live (k : kst) (i : nat) : Prop := exists p, k_procs k !! i = Some p /\ alive (p_state p) = true.

Record ptable_ok (k : kst) : Prop := {
  pt_len : length (k_procs k) = NPROC;
  pt_next : 0 < k_nextpid k;
  pt_unused : forall i p, k_procs k !! i = Some p -> p_state p = UNUSED -> p_pid p = 0 /\ p_parent p = None;
  pt_pid : forall i p, k_procs k !! i = Some p -> p_state p <> UNUSED -> 0 < p_pid p < k_nextpid k;
  pt_inj : forall i j p q, k_procs k !! i = Some p -> k_procs k !! j = Some q -> p_pid p = p_pid q -> p_pid p <> 0 -> i = j;
  pt_parent : forall i p j, k_procs k !! i = Some p -> p_parent p = Some j -> live k j;
  pt_init : forall j, k_initproc k = Some j -> live k j;
  pt_running : forall i p, k_procs k !! i = Some p -> p_state p = RUNNING -> i = k_cur k
}.

(** The current process has the CPU, or nobody has it. *)
Definition running (k : kst) : Prop := exists p, k_procs k !! k_cur k = Some p /\ p_state p = RUNNING.
Definition idle (k : kst) : Prop := forall i p, k_procs k !! i = Some p -> p_state p <> RUNNING.

(** No wakeup is lost: a process that sleeps in wait has no child to collect. *)
Definition nolost (k : kst) : Prop := forall j p z q,
  k_procs k !! j = Some p -> p_state p = SLEEPING -> p_chan p = ch_proc (Some j) ->
  k_procs k !! z = Some q -> p_state q = ZOMBIE -> p_parent q <> Some j.

(** The invariant, with a process on the CPU ([c]) or none. *)
Definition good (c : bool) (k : kst) : Prop := ptable_ok k /\ nolost k /\ if c then running k else idle k.

(** What routines may do to a process without changing its place in the
    table: its id, parent and state are the same, or it is woken. *)
Record pwoke (p p' : proc) : Prop := {
  pw_pid : p_pid p' = p_pid p;
  pw_parent : p_parent p' = p_parent p;
  pw_state : p_state p' = p_state p \/ p_state p = SLEEPING /\ p_state p' = RUNNABLE;
  pw_chan : p_state p' = SLEEPING -> p_chan p' = p_chan p
}.

Definition pkeep (k k' : kst) : Prop :=
  k_cur k' = k_cur k /\ k_initproc k' = k_initproc k /\ k_nextpid k' = k_nextpid k /\ Forall2 pwoke (k_procs k) (k_procs k').

(** ** Lemmas: the frame of the file and memory layers *)

Lemma pwoke_refl p : pwoke p p.
Proof. split; try done. by left. Qed.
Lemma pwoke_trans p q r : pwoke p q -> pwoke q r -> pwoke p r.
Proof.
  intros [A1 A2 A3 A4] [B1 B2 B3 B4]. split; try congruence.
  - destruct A3 as [?|[? ?]], B3 as [?|[? ?]]; (left; congruence) || (right; split; congruence).
  - intros Hr. rewrite B4 by done. apply A4. destruct B3 as [?|[? ?]]; congruence.
Qed.

Lemma pkeep_procs f k : k_procs (f k) = k_procs k -> k_cur (f k) = k_cur k -> k_initproc (f k) = k_initproc k -> k_nextpid (f k) = k_nextpid k -> pkeep k (f k).
Proof. intros E1 E2 E3 E4. split; [done|]. split; [done|]. split; [done|]. rewrite E1. apply Forall_Forall2_diag, Forall_forall. intros p _. apply pwoke_refl. Qed.

Lemma pkeep_at_slot g i k : (forall p, k_procs k !! i = Some p -> pwoke p (g p)) -> pkeep k (set_procs (alter g i) k).
Proof.
  intros H. split; [done|]. split; [done|]. split; [done|]. apply Forall2_lookup. intros j. cbn. destruct (decide (j = i)) as [->|Ne].
  - rewrite list_lookup_alter_eq. destruct (k_procs k !! i); cbn; constructor; auto.
  - rewrite list_lookup_alter_ne by done. destruct (k_procs k !! j); constructor. apply pwoke_refl.
Qed.

Lemma pkeep_alter g i k : (forall p, pwoke p (g p)) -> pkeep k (set_procs (alter g i) k).
Proof. intros H. apply pkeep_at_slot. auto. Qed.

Lemma pkeep_wakeup c : skept pkeep (wakeup c).
Proof.
  intros k. unfold wakeup. split; [done|]. split; [done|]. split; [done|]. destruct k as [? ? ? ? ? ? ? l cur ? ? ?]. cbn.
  rewrite Forall2_lookup. intros i. rewrite list_lookup_imap. destruct (l !! i) as [p|]; cbn; constructor.
  destruct (_ && _) eqn:E; [|apply pwoke_refl]. rewrite !andb_true_iff, bool_decide_eq_true in E. split; try done. right. split; [tauto|done].
Qed.

#[export] Instance pkeep_frame : KFrame pkeep.
Proof.
  split.
  - intros k. by apply (pkeep_procs id).
  - intros k1 k2 k3 (A1 & A2 & A3 & A4) (B1 & B2 & B3 & B4). split; [congruence|]. split; [congruence|]. split; [congruence|].
    rewrite Forall2_lookup in A4, B4 |- *. intros i. specialize (A4 i). specialize (B4 i).
    destruct (k_procs k1 !! i) as [x|], (k_procs k2 !! i) as [y|], (k_procs k3 !! i) as [z|]; inversion A4; inversion B4; constructor.
    subst. by eapply pwoke_trans.
  - intros f k. by apply (pkeep_procs (set_sb f)).
  - intros f k _. by apply (pkeep_procs (set_itable f)).
  - intros f k _. by apply (pkeep_procs (set_ftable f)).
  - intros f k. by apply (pkeep_procs (set_pipes f)).
  - intros f k. by apply (pkeep_procs (set_mem f)).
  - intros x k. by apply (pkeep_procs (set_freelist x)).
  - exact pkeep_wakeup.
  - intros g i k _. apply pkeep_alter. intros p. split; try done. by left.
  - intros c i k. apply pkeep_alter. intros p. split; try done. by left.
Qed.

Lemma pkeep_at k k' i : pkeep k k' ->
  (forall p, k_procs k !! i = Some p -> exists p', k_procs k' !! i = Some p' /\ pwoke p p') /\
  (forall p', k_procs k' !! i = Some p' -> exists p, k_procs k !! i = Some p /\ pwoke p p').
Proof.
  intros (_ & _ & _ & F). rewrite Forall2_lookup in F. specialize (F i).
  destruct (k_procs k !! i) as [p|], (k_procs k' !! i) as [p'|]; inversion F; subst; split; intros q [= <-]; eauto.
Qed.

Lemma pwoke_alive p p' : pwoke p p' -> alive (p_state p) = true -> alive (p_state p') = true.
Proof. intros [_ _ [->|[_ ->]] _]; done. Qed.

Lemma live_pkeep k k' j : pkeep k k' -> live k j -> live k' j.
Proof.
  intros K (p & Hp & A). destruct (proj1 (pkeep_at k k' j K) p Hp) as (p' & Hp' & W). exists p'. split; [done|]. by apply (pwoke_alive p).
Qed.

Lemma ptable_pkeep k k' : ptable_ok k -> pkeep k k' -> ptable_ok k'.
Proof.
  intros [L N U P I Pa In R] K. pose proof K as (E1 & E2 & E3 & F). split.
  - rewrite <- L. symmetry. by eapply Forall2_length.
  - lia.
  - intros i p' Hp' Hs. destruct (proj2 (pkeep_at k k' i K) p' Hp') as (p & Hp & [W1 W2 W _]). rewrite W1, W2.
    apply (U i); [done|]. destruct W as [W|[_ W]]; congruence.
  - intros i p' Hp' Hs. destruct (proj2 (pkeep_at k k' i K) p' Hp') as (p & Hp & [W1 W2 W _]). rewrite W1, E3. apply (P i); [done|].
    destruct W as [W|[W _]]; congruence.
  - intros i j p' q' Hp' Hq'. destruct (proj2 (pkeep_at k k' i K) p' Hp') as (p & Hp & [W1 _ _ _]).
    destruct (proj2 (pkeep_at k k' j K) q' Hq') as (q & Hq & [W2 _ _ _]). rewrite W1, W2. by apply (I i j p q).
  - intros i p' j Hp' Hj. destruct (proj2 (pkeep_at k k' i K) p' Hp') as (p & Hp & [_ W2 _ _]). apply (live_pkeep k k' j K).
    apply (Pa i p); [done|congruence].
  - intros j Hj. apply (live_pkeep k k' j K), In. congruence.
  - intros i p' Hp' Hs. destruct (proj2 (pkeep_at k k' i K) p' Hp') as (p & Hp & [_ _ W _]). rewrite E1. apply (R i p); [done|].
    destruct W as [W|[_ W]]; congruence.
Qed.

Lemma running_pkeep k k' : running k -> pkeep k k' -> running k'.
Proof.
  intros (p & Hp & Hs) K. pose proof K as (E1 & _). destruct (proj1 (pkeep_at k k' _ K) p Hp) as (p' & Hp' & [_ _ W _]).
  exists p'. rewrite E1. split; [done|]. destruct W as [W|[W _]]; congruence.
Qed.

Lemma idle_pkeep k k' : idle k -> pkeep k k' -> idle k'.
Proof.
  intros H K i p' Hp'. destruct (proj2 (pkeep_at k k' i K) p' Hp') as (p & Hp & [_ _ W _]). specialize (H i p Hp).
  destruct W as [->|[_ ->]]; done.
Qed.

Lemma nolost_pkeep k k' : nolost k -> pkeep k k' -> nolost k'.
Proof.
  intros N K j p' z q' Hp' Hs Hc Hq' Hz. destruct (proj2 (pkeep_at k k' j K) p' Hp') as (p & Hp & [_ _ W1 W2]).
  destruct (proj2 (pkeep_at k k' z K) q' Hq') as (q & Hq & [_ W3 W4 _]). rewrite W3.
  apply (N j p z q); try congruence; [destruct W1 as [?|[_ ?]]; congruence|by rewrite <- W2|destruct W4 as [?|[_ ?]]; congruence].
Qed.

(** ** Lemmas: steps that keep every process in its place *)

Lemma skept_getp R `{KFrame R} i : skept R (getp i).
Proof. intros k. exact (kf_refl k). Qed.
Lemma skept_modp i g : (forall p, pwoke p (g p)) -> skept pkeep (modp i g).
Proof. intros H. apply skept_modify. intros k. by apply pkeep_alter. Qed.
#[export] Hint Resolve skept_getp : kept.

Ltac benign := apply skept_modp; intros ?; split; [done|done|by left|done].
#[export] Hint Extern 1 (skept pkeep (modp _ _)) => benign : kept.

Lemma kept_modproc g : (forall p, pwoke p (g p)) -> kept pkeep (modproc g).
Proof. intros H. unfold modproc. kept. by apply pkeep_alter. Qed.

Lemma skept_growproc n : skept pkeep (growproc n).
Proof. unfold growproc. kept. Qed.
Lemma skept_proc_freepagetable R `{KFrame R} pt sz : skept R (proc_freepagetable pt sz).
Proof. unfold proc_freepagetable. kept. Qed.
#[export] Hint Resolve skept_growproc skept_proc_freepagetable : kept.
Lemma skept_proc_pagetable R `{KFrame R} t i : skept R (proc_pagetable t i).
Proof. unfold proc_pagetable. kept. Qed.
#[export] Hint Resolve skept_proc_pagetable : kept.

Lemma kept_loadseg R `{KFrame R} pt va ip off sz : kept R (loadseg pt va ip off sz).
Proof.
  assert (L : forall f i, kept R (loadseg_loop f pt va ip off sz i)) by (induction f as [|f IH]; intros; cbn [loadseg_loop]; kept).
  unfold loadseg. kept.
Qed.
Lemma kept_exec_bad R `{KFrame R} pt sz ip : kept R (exec_bad pt sz ip).
Proof. unfold exec_bad. kept. Qed.
#[export] Hint Resolve kept_loadseg kept_exec_bad : kept.
Lemma kept_exec_load R `{KFrame R} n ip off pt sz : kept R (exec_load n ip off pt sz).
Proof. revert off sz. induction n as [|n IH]; intros off sz; cbn [exec_load]; kept. Qed.
Lemma kept_push_args R `{KFrame R} argv c pt sp b u : kept R (push_args argv c pt sp b u).
Proof. revert c sp u. induction argv as [|a l IH]; intros c sp u; cbn [push_args]; kept. Qed.
Lemma kept_exec_args R `{KFrame R} f u i l : kept R (exec_args f u i l).
Proof. revert i l. induction f as [|f IH]; intros i l; cbn [exec_args]; kept. Qed.
#[export] Hint Resolve kept_exec_load kept_push_args kept_exec_args : kept.
Lemma kept_exec_commit path argv e pt sz : kept pkeep (exec_commit path argv e pt sz).
Proof. unfold exec_commit. kept; apply kept_modproc; intros p; (split; [done|done|by left|done]). Qed.
#[export] Hint Resolve kept_exec_commit : kept.
Lemma kept_exec t path argv : kept pkeep (exec t path argv).
Proof. unfold exec. kept. Qed.
#[export] Hint Resolve kept_exec : kept.
Lemma kept_sys_exec t : kept pkeep (sys_exec t).
Proof. unfold sys_exec. kept. Qed.
Lemma kept_sys_sbrk : kept pkeep sys_sbrk.
Proof. unfold sys_sbrk. kept. Qed.
Lemma skept_kill pid : skept pkeep (kill pid).
Proof.
  unfold kill. kept. apply skept_modp. intros p. case_bool_decide as E; (split; [done|done| |done]); [right; by rewrite E|by left].
Qed.
#[export] Hint Resolve skept_kill : kept.
Lemma kept_sys_kill : kept pkeep sys_kill.
Proof. unfold sys_kill. kept. Qed.
#[export] Hint Resolve kept_sys_exec kept_sys_sbrk kept_sys_kill : kept.

(** ** Lemmas: one process changes its place *)

(** Nobody needs process [i]: it is no parent and not init. *)
Definition loose (k : kst) (i : nat) : Prop :=
  k_initproc k <> Some i /\ forall j q, k_procs k !! j = Some q -> p_parent q <> Some i.

Lemma alter_at (l : list proc) i g p : l !! i = Some p -> forall j q, alter g i l !! j = Some q -> j = i /\ q = g p \/ j <> i /\ l !! j = Some q.
Proof.
  intros Hp j q. destruct (decide (j = i)) as [->|Ne]; [rewrite list_lookup_alter_eq, Hp; intros [= <-]; by left|].
  rewrite list_lookup_alter_ne by done. by right.
Qed.

Section Slot.
  Context (k k' : kst) (i : nat) (g : proc -> proc) (p : proc).
  Context (Ok0 : ptable_ok k) (Hp : k_procs k !! i = Some p).
  Context (Ep : k_procs k' = alter g i (k_procs k)) (Ec : k_cur k' = k_cur k) (Ei : k_initproc k' = k_initproc k).
  Context (En : k_nextpid k <= k_nextpid k').
  Context (Hun : p_state (g p) = UNUSED -> p_pid (g p) = 0 /\ p_parent (g p) = None).
  Context (Hpid : p_state (g p) <> UNUSED -> 0 < p_pid (g p) < k_nextpid k').
  Context (Hnew : forall j q, j <> i -> k_procs k !! j = Some q -> p_pid (g p) <> 0 -> p_pid q <> p_pid (g p)).
  Context (Hlive : alive (p_state p) = true -> alive (p_state (g p)) = true \/ loose k' i).
  Context (Hpar : forall j, p_parent (g p) = Some j -> live k j \/ p_parent p = Some j).
  Context (Hrun : p_state (g p) = RUNNING -> i = k_cur k').

Lemma slot_eq : k_procs k' !! i = Some (g p).
Proof. by rewrite Ep, list_lookup_alter_eq, Hp. Qed.

Lemma slot_ne j : j <> i -> k_procs k' !! j = k_procs k !! j.
Proof. intros N. by rewrite Ep, list_lookup_alter_ne. Qed.

Lemma slot_live j : live k j -> j <> i \/ ~ loose k' i -> live k' j.
Proof.
  intros (q & Hq & A) D. destruct (decide (j = i)) as [->|N].
  - destruct D as [D|D]; [done|]. exists (g p). split; [apply slot_eq|]. assert (q = p) as -> by congruence. destruct (Hlive A); done.
  - exists q. by rewrite slot_ne.
Qed.

Lemma slot_ok : ptable_ok k'.
Proof.
  destruct Ok0 as [L N U P I Pa In R]. split.
  - by rewrite Ep, length_alter.
  - lia.
  - intros j q Hq Hs. destruct (decide (j = i)) as [->|Ne]; [rewrite slot_eq in Hq; injection Hq as <-; auto|].
    rewrite slot_ne in Hq by done. by apply (U j).
  - intros j q Hq Hs. destruct (decide (j = i)) as [->|Ne]; [rewrite slot_eq in Hq; injection Hq as <-; auto|].
    rewrite slot_ne in Hq by done. specialize (P j q Hq Hs). lia.
  - intros j1 j2 q1 q2 H1 H2 E Nz. destruct (decide (j1 = i)) as [->|N1], (decide (j2 = i)) as [->|N2]; try done.
    + rewrite slot_eq in H1. injection H1 as <-. rewrite slot_ne in H2 by done. exfalso. by apply (Hnew j2 q2 N2 H2 Nz).
    + rewrite slot_eq in H2. injection H2 as <-. rewrite slot_ne in H1 by done. exfalso. by apply (Hnew j1 q1 N1 H1); [congruence|].
    + rewrite slot_ne in H1, H2 by done. by apply (I j1 j2 q1 q2).
  - intros j q l Hq Hl. assert (Hn : ~ loose k' i \/ l <> i) by (destruct (decide (l = i)) as [->|]; [left; intros [_ H]; by apply (H j q)|by right]).
    destruct (decide (j = i)) as [->|Ne].
    + rewrite slot_eq in Hq. injection Hq as <-. destruct (Hpar l Hl) as [D|D]; [apply slot_live; tauto|]. apply slot_live; [by apply (Pa i p)|tauto].
    + rewrite slot_ne in Hq by done. apply slot_live; [by apply (Pa j q)|tauto].
  - intros l Hl. rewrite Ei in Hl. apply slot_live; [by apply In|]. destruct (decide (l = i)) as [->|]; [right; intros [H _]; congruence|by left].
  - intros j q Hq Hs. destruct (decide (j = i)) as [->|Ne]; [rewrite slot_eq in Hq; injection Hq as <-; auto|].
    rewrite slot_ne in Hq by done. rewrite Ec. by apply (R j q).
Qed.
End Slot.

(** ** Lemmas: rules for predicates *)

Definition swp {A} (Q : option A -> kst -> Prop) (m : stM kst A) (k : kst) : Prop :=
  match m k with Ok x k' => Q (Some x) k' | Sleep _ k' => Q None k' | _ => True end.
Definition sthen {A B} (Q : option B -> kst -> Prop) (f : A -> stM kst B) (o : option A) (k : kst) : Prop :=
  match o with Some a => swp Q (f a) k | None => Q None k end.

Lemma swp_bind {A B} (Q : option B -> kst -> Prop) (m : stM kst A) (f : A -> stM kst B) k : swp (sthen Q f) m k -> swp Q (sbind m f) k.
Proof. unfold swp, sbind. by destruct (m k). Qed.
Lemma swp_mono {A} (Q Q' : option A -> kst -> Prop) (m : stM kst A) k : (forall a k, Q a k -> Q' a k) -> swp Q m k -> swp Q' m k.
Proof. unfold swp. intros H. destruct (m k); auto. Qed.
Lemma kwp_liftK {A} (Q : option A -> kst -> Prop) (m : stM kst A) k : swp Q m k -> kwp Q (liftK m) k.
Proof. intros H. unfold liftK. apply kwp_bind. cbn [kwp P.get trigger kthen]. unfold swp in H. by destruct (m k). Qed.

Lemma swp_get {A} (Q : option A -> kst -> Prop) (f : kst -> stM kst A) k : swp Q (sbind sget f) k = swp Q (f k) k.
Proof. done. Qed.
Lemma swp_modify {A} (Q : option A -> kst -> Prop) g (f : unit -> stM kst A) k : swp Q (sbind (smodify g) f) k = swp Q (f tt) (g k).
Proof. done. Qed.
Lemma swp_ret {A B} (Q : option A -> kst -> Prop) (x : B) (f : B -> stM kst A) k : swp Q (sbind (sret x) f) k = swp Q (f x) k.
Proof. done. Qed.
Lemma swp_assoc {A B C} (Q : option A -> kst -> Prop) (m : stM kst B) (n : B -> stM kst C) (f : C -> stM kst A) k :
  swp Q (sbind (sbind m n) f) k = swp Q (sbind m (fun x => sbind (n x) f)) k.
Proof. unfold swp, sbind. by destruct (m k). Qed.

(** Predicates that survive steps which keep processes in their place. *)
Definition stable (P : kst -> Prop) : Prop := forall k k', P k -> pkeep k k' -> P k'.

Lemma kwp_stable {A} (P : kst -> Prop) (p : prog kst A) k : stable P -> kept pkeep p -> P k -> kwp (fun _ k' => P k') p k.
Proof. intros S H Hk. apply (kwp_mono _ _ _ _) with (2 := H k). intros _ k' K. by apply (S k). Qed.
Lemma swp_stable {A} (P : kst -> Prop) (m : stM kst A) k : stable P -> skept pkeep m -> P k -> swp (fun _ k' => P k') m k.
Proof. intros S H Hk. unfold swp. specialize (H k). destruct (m k); try done; by apply (S k). Qed.

(** The next step of a sequence keeps [P]. *)
Lemma kwp_seq {A B} (P : kst -> Prop) (Q : option B -> kst -> Prop) (m : prog kst A) (f : A -> prog kst B) k :
  stable P -> kept pkeep m -> P k -> (forall k', P k' -> Q None k') -> (forall a k', P k' -> kwp Q (f a) k') -> kwp Q (pbind m f) k.
Proof.
  intros S H Hk Hn Hf. apply kwp_bind. apply (kwp_mono _ _ _ _) with (2 := kwp_stable P m k S H Hk). intros [a|] k' Hk'; cbn; auto.
Qed.
Lemma swp_seq {A B} (P : kst -> Prop) (Q : option B -> kst -> Prop) (m : stM kst A) (f : A -> stM kst B) k :
  stable P -> skept pkeep m -> P k -> (forall k', P k' -> Q None k') -> (forall a k', P k' -> swp Q (f a) k') -> swp Q (sbind m f) k.
Proof.
  intros S H Hk Hn Hf. apply swp_bind. apply (swp_mono _ _ _ _) with (2 := swp_stable P m k S H Hk). intros [a|] k' Hk'; cbn; auto.
Qed.

Lemma good_stable c : stable (good c).
Proof.
  intros k k' (H1 & H2 & H3) K. split; [by apply (ptable_pkeep k)|]. split; [by apply (nolost_pkeep k)|].
  destruct c; [by apply (running_pkeep k)|by apply (idle_pkeep k)].
Qed.

(** Slot [i] is in state [s]. *)
Definition slot (c : bool) (s : procstate) (i : nat) (k : kst) : Prop :=
  good c k /\ exists p, k_procs k !! i = Some p /\ p_state p = s.
Lemma slot_stable c s i : s <> SLEEPING -> stable (slot c s i).
Proof.
  intros Hs k k' [G (p & Hp & E)] K. split; [by apply (good_stable c k)|]. destruct (proj1 (pkeep_at k k' i K) p Hp) as (p' & Hp' & [_ _ W _]).
  exists p'. split; [done|]. destruct W as [W|[W _]]; congruence.
Qed.

Lemma not_alive_loose k i p : ptable_ok k -> k_procs k !! i = Some p -> alive (p_state p) = false -> loose k i.
Proof.
  intros O Hp A. split.
  - intros E. destruct (pt_init k O i E) as (q & Hq & A'). congruence.
  - intros j q Hq E. destruct (pt_parent k O j q i Hq E) as (r & Hr & A'). congruence.
Qed.

(** A slot that is not on the CPU changes: the rest of the invariant. *)
Lemma good_slot c k k' i g p : good c k -> ptable_ok k' -> k_procs k !! i = Some p -> k_procs k' = alter g i (k_procs k) -> k_cur k' = k_cur k ->
  p_state p <> RUNNING -> p_state (g p) <> RUNNING -> p_state (g p) <> ZOMBIE -> p_state (g p) <> SLEEPING -> good c k'.
Proof.
  intros (O & N & C) O' Hp E Ec R1 R2 R3 R4.
  pose proof (alter_at _ i g p Hp) as At. rewrite <- E in At.
  split; [done|]. split.
  - intros j q z r Hq Hs Hc Hr Hz. destruct (At j q Hq) as [[_ ->]|[_ Hq']]; [done|]. destruct (At z r Hr) as [[_ ->]|[_ Hr']]; [done|]. by apply (N j q z r).
  - destruct c.
    + destruct C as (r & Hr & Er). exists r. rewrite Ec, E. split; [|done]. rewrite list_lookup_alter_ne; [done|]. intros Ei. rewrite <- Ei in Hr. congruence.
    + intros j q Hq. destruct (At j q Hq) as [[_ ->]|[_ Hq']]; [done|]. by apply (C j q).
Qed.

Lemma modp_modp i g h k : set_procs (alter h i) (set_procs (alter g i) k) = set_procs (alter (h ∘ g) i) k.
Proof. unfold set_procs. cbn. f_equal. apply list_eq. intros j. destruct (decide (j = i)) as [->|N]; [rewrite !list_lookup_alter_eq; by destruct (_ !! i)|by rewrite !list_lookup_alter_ne]. Qed.
Lemma swp_modp2 {A} (Q : option A -> kst -> Prop) i g h (f : stM kst A) k :
  swp Q (sbind (modp i g) (fun _ => sbind (modp i h) (fun _ => f))) k = swp Q (sbind (modp i (h ∘ g)) (fun _ => f)) k.
Proof. unfold swp, sbind, modp, smodify. by rewrite modp_modp. Qed.
Lemma swp_modp2' (Q : option unit -> kst -> Prop) i g h k :
  swp Q (sbind (modp i g) (fun _ => modp i h)) k = swp Q (modp i (h ∘ g)) k.
Proof. unfold swp, sbind, modp, smodify. by rewrite modp_modp. Qed.

(** The end of freeproc. *)
Definition freed_slot (p : proc) : proc :=
  mkP UNUSED 0 false 0 0 None 0 0 (p_trapframe p) (p_ofile p) (p_cwd p) (setb 0 0 (p_name p)).

Lemma freeproc_good c i s k : (s = USED \/ s = ZOMBIE) -> slot c s i k -> swp (fun _ k' => good c k') (freeproc i) k.
Proof.
  intros Hs Hk. assert (S : stable (slot c s i)) by (apply slot_stable; destruct Hs; congruence).
  unfold freeproc. apply (swp_seq (slot c s i)); [done|kept|done|by intros ? []|]. intros p k1 H1.
  apply (swp_seq (slot c s i)); [done|kept|done|by intros ? []|]. intros _ k2 H2.
  apply (swp_seq (slot c s i)); [done|kept|done|by intros ? []|]. intros _ k3 H3.
  apply (swp_seq (slot c s i)); [done|kept|done|by intros ? []|]. intros _ k4 [G (q & Hq & Eq)].
  assert (E : k_procs (set_procs (alter freed_slot i) k4) = alter freed_slot i (k_procs k4)) by (by destruct k4).
  assert (A : alive (p_state q) = false) by (rewrite Eq; by destruct Hs as [-> | ->]).
  assert (G' : good c (set_procs (alter freed_slot i) k4)).
  { apply (good_slot c k4 _ i freed_slot q); try done; [|intros R; by rewrite R in A].
    apply (slot_ok k4 _ i freed_slot q (proj1 G) Hq E); try done. congruence. }
  rewrite !swp_modp2. rewrite swp_modp2'. exact G'.
Qed.

(** ** Lemmas: creation *)

Lemma find_unused_spec l b i : find_unused l b = Some i -> exists p, (b <= i)%nat /\ l !! (i - b)%nat = Some p /\ p_state p = UNUSED.
Proof.
  revert b. induction l as [|p l IH]; intros b; cbn [find_unused]; [done|]. case_bool_decide as E.
  - intros [= ->]. exists p. rewrite Nat.sub_diag. by split; [lia|].
  - intros H. destruct (IH _ H) as (q & L & Hq & Eq). exists q. split; [lia|]. split; [|done].
    replace (i - b)%nat with (Datatypes.S (i - Datatypes.S b)) by lia. done.
Qed.

(** Process ids are not used up: the counter is below the largest int. *)
Definition pids_left (k : kst) : Prop := k_nextpid k < 2 ^ 31 - 1.

Lemma take_slot c k i p : good c k -> pids_left k -> k_procs k !! i = Some p -> p_state p = UNUSED ->
  slot c USED i (set_procs (alter (p_set_state USED ∘ p_set_pid (k_nextpid k)) i) (set_nextpid (s32 (k_nextpid k + 1)) k)).
Proof.
  intros G Hn Hp Hs. pose proof (proj1 G) as O. set (g := p_set_state USED ∘ p_set_pid (k_nextpid k)).
  assert (E : k_procs (set_procs (alter g i) (set_nextpid (s32 (k_nextpid k + 1)) k)) = alter g i (k_procs k)) by done.
  assert (En : k_nextpid (set_procs (alter g i) (set_nextpid (s32 (k_nextpid k + 1)) k)) = k_nextpid k + 1).
  { cbn. pose proof (pt_next k O). unfold pids_left in Hn. rewrite s32_small; lia. }
  pose proof (pt_next k O) as H0. destruct (pt_unused k O i p Hp Hs) as [_ Hpar].
  split; [|exists (g p); split; [by rewrite E, list_lookup_alter_eq, Hp|done]].
  apply (good_slot c k _ i g p); try done; [|by rewrite Hs].
  apply (slot_ok k _ i g p O Hp E); rewrite ?En; try done; try (cbn; lia).
  - intros j q _ Hq _. cbn. destruct (decide (p_state q = UNUSED)) as [U|U].
    + destruct (pt_unused k O j q Hq U) as [-> _]. lia.
    + pose proof (pt_pid k O j q Hq U). lia.
  - rewrite Hs. done.
  - intros j. cbn. rewrite Hpar. done.
Qed.

(** After allocproc: the new process, if there is one, is USED. *)
Definition after_alloc (c : bool) (o : option (option nat)) (k : kst) : Prop :=
  good c k /\ forall np, o = Some (Some np) -> slot c USED np k.

Lemma allocproc_good c t k : good c k -> pids_left k -> swp (after_alloc c) (allocproc t) k.
Proof.
  intros G Hn. unfold allocproc. destruct (find_unused (k_procs k) 0) as [i|] eqn:F.
  2: { unfold swp, sbind, sget. rewrite F. by split. }
  destruct (find_unused_spec _ _ _ F) as (p & _ & Hp & Hs). rewrite Nat.sub_0_r in Hp.
  pose proof (take_slot c k i p G Hn Hp Hs) as T. set (k1 := set_procs _ _) in T.
  assert (S : stable (slot c USED i)) by (by apply slot_stable).
  assert (W : forall k, slot c USED i k -> after_alloc c None k) by (intros ? []; by split).
  assert (Fr : forall k, slot c USED i k -> swp (after_alloc c) (sbind (freeproc i) (fun _ => sret None)) k).
  { intros k' H'. apply swp_bind. apply (swp_mono (fun _ => good c)); [|by apply (freeproc_good c i USED); [left|]].
    intros [a|] k'' G''; by split. }
  rewrite swp_get, F. unfold allocpid. rewrite swp_assoc, swp_get, swp_assoc, swp_modify, swp_ret, swp_modp2. unfold modp at 1. rewrite swp_modify. fold k1.
  apply (swp_seq (slot c USED i)); [done|kept|done|done|]. intros tf k2 H2.
  apply (swp_seq (slot c USED i)); [done|kept|done|done|]. intros _ k3 H3.
  destruct (tf =? 0); [by apply Fr|].
  apply (swp_seq (slot c USED i)); [done|kept|done|done|]. intros pt k4 H4.
  apply (swp_seq (slot c USED i)); [done|kept|done|done|]. intros _ k5 H5.
  destruct (pt =? 0); [by apply Fr|]. split; [apply H5|]. intros np [= <-]. done.
Qed.

Lemma kwp_freeproc {A} c i s (x : A) k : s = USED \/ s = ZOMBIE -> slot c s i k -> kwp (fun _ => good c) (pbind (liftK (freeproc i)) (fun _ => Ret x)) k.
Proof.
  intros Hs H. apply kwp_bind, kwp_liftK. apply (swp_mono (fun _ => good c)); [|by apply (freeproc_good c i s)]. intros [a|] k' G; exact G.
Qed.

(** The end of fork: the child gets its parent and may run. *)
Lemma start_child np k : slot true USED np k ->
  good true (set_procs (alter (p_set_state RUNNABLE ∘ p_set_parent (Some (k_cur k))) np) k).
Proof.
  intros [G (p & Hp & Hs)]. pose proof G as (O & _ & Ru). set (g := p_set_state RUNNABLE ∘ p_set_parent (Some (k_cur k))).
  assert (E : k_procs (set_procs (alter g np) k) = alter g np (k_procs k)) by done.
  apply (good_slot true k _ np g p); try done; [|by rewrite Hs]. apply (slot_ok k _ np g p O Hp E); try done.
  - intros _. cbn. apply (pt_pid k O np p Hp). by rewrite Hs.
  - intros j q Nj Hq Nz. cbn. intros Eq. apply Nj. by apply (pt_inj k O j np q p Hq Hp); [|rewrite Eq].
  - rewrite Hs. done.
  - intros j [= <-]. left. destruct Ru as (r & Hr & Er). exists r. by rewrite Er.
Qed.

Lemma skept_copy_trapframe d s : skept pkeep (copy_trapframe d s).
Proof.
  intros k. unfold copy_trapframe. exact (skept_bind pkeep (smodify _) _ (fun k' => kf_mem _ k') (fun _ => skept_stm64 pkeep (d + 112) 0) k).
Qed.
#[export] Hint Resolve skept_copy_trapframe : kept.

Lemma fork_good t k : good true k -> pids_left k -> kwp (fun _ => good true) (fork t) k.
Proof.
  intros G Hn. unfold fork. apply (kwp_seq (fun k => good true k /\ pids_left k)); [|kept|by split|by intros ? []|].
  { intros k1 k2 [G1 N1] K. split; [by apply (good_stable true k1)|]. unfold pids_left. destruct K as (_ & _ & -> & _). exact N1. }
  intros p k1 [G1 N1]. apply kwp_bind, kwp_liftK. apply (swp_mono (after_alloc true)); [|by apply allocproc_good].
  intros [[np|]|] k2 [G2 H2]; try exact G2. specialize (H2 np eq_refl). cbn [kthen].
  assert (S : stable (slot true USED np)) by (by apply slot_stable).
  assert (W : forall k, slot true USED np k -> good true k) by (by intros ? []).
  apply (kwp_seq (slot true USED np)); [done|kept|done|done|]. intros q k3 H3.
  apply (kwp_seq (slot true USED np)); [done|kept|done|done|]. intros r k4 H4.
  destruct (r <? 0); [by apply (kwp_freeproc true np USED); [left|]|].
  apply (kwp_seq (slot true USED np)); [done|kept|done|done|]. intros _ k5 H5.
  apply (kwp_seq (slot true USED np)); [done|kept|done|done|]. intros _ k6 H6.
  apply (kwp_seq (slot true USED np)); [done|kept|done|done|]. intros _ k7 H7.
  apply (kwp_seq (slot true USED np)); [done|kept|done|done|]. intros cwd k8 H8.
  apply (kwp_seq (slot true USED np)); [done|kept|done|done|]. intros _ k9 H9.
  apply (kwp_seq (slot true USED np)); [done|kept|done|done|]. intros _ k10 H10.
  apply (kwp_seq (slot true USED np)); [done|kept|done|done|]. intros q' k11 H11.
  apply kwp_bind. cbn [kwp P.get trigger kthen]. apply kwp_bind, kwp_liftK.
  unfold swp, modp at 1, smodify. cbn [kthen]. apply kwp_bind, kwp_liftK. unfold swp, modp, smodify. cbn [kthen kwp].
  rewrite modp_modp. by apply start_child.
Qed.

(** The first process: init may be named before it can run. *)
Definition booting (i : nat) (k : kst) : Prop := slot false USED i (set_initproc None k) /\ k_initproc k = Some i.
Lemma booting_stable i : stable (booting i).
Proof.
  intros k k' [H E] (K1 & K2 & K3 & K4). split; [|congruence]. by apply (slot_stable false USED i (ltac:(done)) (set_initproc None k)).
Qed.

Lemma start_init i k : booting i k -> good false (set_procs (alter (p_set_state RUNNABLE) i) k).
Proof.
  intros [[G (p & Hp & Hs)] Ei]. pose proof (proj1 G) as O. set (g := p_set_state RUNNABLE). set (k0 := set_initproc None k) in *.
  assert (G1 : good false (set_procs (alter g i) k0)).
  { apply (good_slot false k0 _ i g p); try done; [|by rewrite Hs]. apply (slot_ok k0 (set_procs (alter g i) k0) i g p O Hp eq_refl); try done.
    - intros _. cbn. apply (pt_pid k0 O i p Hp). by rewrite Hs.
    - intros j q Nj Hq Nz. cbn. intros Eq. apply Nj. by apply (pt_inj k0 O j i q p Hq Hp); [|rewrite Eq].
    - rewrite Hs. done.
    - intros j Hj. right. exact Hj. }
  assert (Li : live (set_procs (alter g i) k) i) by (exists (g p); split; [cbn; rewrite list_lookup_alter_eq; by change (k_procs k) with (k_procs k0); rewrite Hp|done]).
  destruct G1 as ([L N U P I Pa _ R] & N1 & I1). split; [|by split]. split; try done.
  intros j Hj. cbn in Hj. rewrite Ei in Hj. injection Hj as <-. exact Li.
Qed.

(** Only userinit names init. *)
Definition ikeep (k k' : kst) : Prop := k_initproc k' = k_initproc k.
#[export] Instance ikeep_frame : KFrame ikeep.
Proof. split; try done. unfold ikeep. congruence. Qed.
Lemma skept_modp_init i g : skept ikeep (modp i g).
Proof. by apply skept_modify. Qed.
#[export] Hint Resolve skept_modp_init : kept.
Lemma skept_freeproc_init i : skept ikeep (freeproc i).
Proof. unfold freeproc, proc_freepagetable. kept. Qed.
#[export] Hint Resolve skept_freeproc_init : kept.
Lemma skept_allocproc_init t : skept ikeep (allocproc t).
Proof. unfold allocproc, allocpid. kept. by apply skept_modify. Qed.

Lemma swp_and {A} (Q Q' : option A -> kst -> Prop) m k : swp Q m k -> swp Q' m k -> swp (fun a k => Q a k /\ Q' a k) m k.
Proof. unfold swp. destruct (m k); auto. Qed.

Lemma userinit_good t k : good false k -> pids_left k -> k_initproc k = None -> kwp (fun o k' => o <> None -> good false k') (userinit t) k.
Proof.
  intros G Hn E0. unfold userinit. apply kwp_bind, kwp_liftK.
  assert (I : swp (fun _ k' => k_initproc k' = None) (allocproc t) k).
  { pose proof (skept_allocproc_init t k) as H. unfold swp. destruct (allocproc t k); try done; unfold ikeep in H; congruence. }
  apply (swp_mono _ _ _ _) with (2 := swp_and _ _ _ _ (allocproc_good false t k G Hn) I).
  intros [[i|]|] k1 [[_ H1] E1]; [|done..]. specialize (H1 i eq_refl). cbn [kthen].
  apply kwp_bind, kwp_liftK. unfold swp, smodify. cbn [kthen].
  assert (B : booting i (set_initproc (Some i) k1)).
  { split; [|done]. by replace (set_initproc None (set_initproc (Some i) k1)) with k1 by (destruct k1; cbn in *; by subst). }
  pose proof (booting_stable i) as S.
  apply (kwp_seq (booting i)); [done|kept|done|done|]. intros q k2 B2.
  apply (kwp_seq (booting i)); [done|kept|done|done|]. intros _ k3 B3.
  apply (kwp_seq (booting i)); [done|kept|done|done|]. intros _ k4 B4.
  apply (kwp_seq (booting i)); [done|kept|done|done|]. intros _ k5 B5.
  apply (kwp_seq (booting i)); [done|kept|done|done|]. intros _ k6 B6.
  apply (kwp_seq (booting i)); [done|kept|done|done|]. intros _ k7 B7.
  apply (kwp_seq (booting i)); [done|kept|done|done|]. intros cwd k8 B8.
  apply (kwp_seq (booting i)); [done|kept|done|done|]. intros _ k9 B9.
  apply kwp_liftK. intros _. by apply start_init.
Qed.

(** ** Lemmas: exit *)

(** Process [i] is exiting; those outside [js] have been given a new parent. *)
Definition orphaned (i : nat) (js : list nat) (k : kst) : Prop :=
  good true k /\ k_cur k = i /\ k_initproc k <> Some i /\ forall j q, j ∉ js -> k_procs k !! j = Some q -> p_parent q <> Some i.
Lemma orphaned_stable i js : stable (orphaned i js).
Proof.
  intros k k' (G & C & N & H) K. pose proof K as (K1 & K2 & _). split; [by apply (good_stable true k)|]. split; [congruence|]. split; [congruence|].
  intros j q' Hj Hq'. destruct (proj2 (pkeep_at k k' j K) q' Hq') as (q & Hq & [_ W _ _]). rewrite W. by apply (H j q).
Qed.

Lemma wakeup_at c k k' : wakeup c k = Ok tt k' -> pkeep k k' /\
  forall j p, k_procs k' !! j = Some p -> p_state p = SLEEPING -> p_chan p = c -> j = k_cur k.
Proof.
  intros E. split; [specialize (pkeep_wakeup c k); by rewrite E|]. intros j p Hp Hs Hc. unfold wakeup in E. injection E as <-. cbn in Hp.
  rewrite list_lookup_imap in Hp. destruct (k_procs k !! j) as [q|] eqn:Hq; [|done]. cbn in Hp. injection Hp as <-.
  destruct (decide (j = k_cur k)) as [->|Ne]; [done|exfalso]. apply Nat.eqb_neq in Ne. rewrite Ne in *. cbn in *.
  destruct (bool_decide (p_state q = SLEEPING)) eqn:B; cbn in *; [|by apply bool_decide_eq_false in B].
  destruct (p_chan q =? c) eqn:B2; [done|]. apply Z.eqb_neq in B2. done.
Qed.

(** A child moves to init, and init is woken: the table stays right, and no
    wakeup is lost for init. *)
Lemma reparent_step i j js k k' q : orphaned i (j :: js) k -> k_procs k !! j = Some q -> p_parent q = Some i ->
  wakeup (ch_proc (k_initproc k)) (set_procs (alter (p_set_parent (k_initproc k)) j) k) = Ok tt k' -> orphaned i js k'.
Proof.
  intros ((O & NL & Ru) & C & N & H) Hq Eq W. set (g := p_set_parent (k_initproc k)) in *. set (k1 := set_procs (alter g j) k) in *.
  destruct (wakeup_at _ _ _ W) as [K Wk]. pose proof K as (K1 & K2 & _).
  assert (E : k_procs k1 = alter g j (k_procs k)) by done.
  pose proof (alter_at _ j g q Hq) as At.
  assert (O1 : ptable_ok k1).
  { apply (slot_ok k k1 j g q O Hq E); try done.
    - intros U. by destruct (pt_unused k O j q Hq U) as [_ ?]; congruence.
    - intros U. by apply (pt_pid k O j q Hq).
    - intros l r Nl Hr Nz Er. apply Nl. by apply (pt_inj k O l j r q Hr Hq); [|rewrite Er].
    - intros A. by left.
    - intros l Hl. left. by apply (pt_init k O).
    - intros A. by apply (pt_running k O j q). }
  assert (R1 : running k1).
  { destruct Ru as (r & Hr & Er). destruct (decide (k_cur k = j)) as [Ej|Ne].
    - exists (g q). change (k_cur k1) with (k_cur k). rewrite E, Ej, list_lookup_alter_eq, Hq. split; [done|]. rewrite Ej, Hq in Hr. cbn. congruence.
    - exists r. change (k_cur k1) with (k_cur k). by rewrite E, list_lookup_alter_ne by done. }
  assert (R' : running k') by (by apply (running_pkeep k1)).
  split; [split; [by apply (ptable_pkeep k1)|split; [|done]]|].
  - intros w p z r Hp Hs Hc Hr Hz Ep. destruct (proj2 (pkeep_at k1 k' w K) p Hp) as (p1 & Hp1 & [_ _ V1 V2]).
    destruct (proj2 (pkeep_at k1 k' z K) r Hr) as (r1 & Hr1 & [_ V3 V4 _]). rewrite V3 in Ep.
    assert (Hs1 : p_state p1 = SLEEPING) by (destruct V1 as [?|[_ ?]]; congruence).
    assert (Hz1 : p_state r1 = ZOMBIE) by (destruct V4 as [?|[_ ?]]; congruence).
    assert (exists p0, k_procs k !! w = Some p0 /\ p_state p0 = SLEEPING /\ p_chan p0 = ch_proc (Some w)) as (p0 & H1 & H2 & H3).
    { destruct (At w p1 Hp1) as [[-> ->]|[_ ?]]; [exists q|exists p1]; (split; [done|]); (split; [done|]); rewrite <- Hc, V2 by done; done. }
    destruct (At z r1 Hr1) as [[-> ->]|[_ Hr0]]; [|by apply (NL w p0 z r1)].
    cbn in Ep. assert (w = k_cur k1) as -> by (apply (Wk w p); congruence). destruct R' as (x & Hx & Ex). congruence.
  - split; [by rewrite K1|]. split; [by rewrite K2|]. intros l r' Hl Hr'. destruct (proj2 (pkeep_at k1 k' l K) r' Hr') as (r & Hr & [_ V _ _]). rewrite V.
    destruct (At l r Hr) as [[-> ->]|[Nl Hr0]]; [done|]. apply (H l); [|done]. rewrite not_elem_of_cons. done.
Qed.

Lemma reparent_good i js k : orphaned i js k -> (forall j, j ∈ js -> (j < NPROC)%nat) ->
  swp (fun o k' => o <> None /\ orphaned i [] k') (sfor js (fun j =>
    q <- getp j;
    if bool_decide (p_parent q = Some i) then
      k <- sget;
      modp j (p_set_parent (k_initproc k));;
      wakeup (ch_proc (k_initproc k))
    else sret tt)%st) k.
Proof.
  revert k. induction js as [|j js IH]; intros k H Hj; cbn [sfor]; [by split|].
  apply swp_bind. apply (swp_mono (fun o k => o <> None /\ orphaned i js k)).
  { intros [u|] k' [N H']; [|done]. apply IH; [done|]. intros l Hl. apply Hj. by apply elem_of_cons; right. }
  assert (exists q, k_procs k !! j = Some q) as [q Hq].
  { apply lookup_lt_is_Some_2. rewrite (pt_len k); [|apply H]. apply Hj. apply elem_of_cons. by left. }
  assert (getp j k = Ok q k) as G by (unfold getp; by rewrite (nth_lookup_Some _ _ _ _ Hq)).
  unfold swp, sbind at 1. rewrite G. case_bool_decide as B.
  - destruct (wakeup (ch_proc (k_initproc k)) (set_procs (alter (p_set_parent (k_initproc k)) j) k)) as [[] k'| | |] eqn:W; try done.
    assert (O' : orphaned i js k') by (by apply (reparent_step i j js k k' q)).
    unfold sbind, sget, modp, smodify. rewrite W. done.
  - cbn. split; [done|]. destruct H as (G' & C & N & H). split; [done|]. split; [done|]. split; [done|]. intros l r Hl Hr.
    destruct (decide (l = j)) as [->|Ne]; [congruence|]. apply (H l); [|done]. rewrite not_elem_of_cons. done.
Qed.

Lemma getp_at k i p : k_procs k !! i = Some p -> getp i k = Ok p k.
Proof. intros H. unfold getp. by rewrite (nth_lookup_Some _ _ _ _ H). Qed.

(** The last step of exit: the parent is awake, the process is a zombie. *)
Lemma zombie_good i status p k k1 : orphaned i [] k -> k_procs k !! i = Some p -> wakeup (ch_proc (p_parent p)) k = Ok tt k1 ->
  good false (set_procs (alter (p_set_state ZOMBIE ∘ p_set_xstate status) i) k1).
Proof.
  intros H Hp W. destruct (wakeup_at _ _ _ W) as [K Wk]. destruct (orphaned_stable i [] k k1 H K) as ((O & NL & Ru) & C & N & L).
  set (g := p_set_state ZOMBIE ∘ p_set_xstate status). set (k2 := set_procs (alter g i) k1).
  destruct (proj1 (pkeep_at k k1 i K) p Hp) as (p1 & Hp1 & [_ V2 _ _]).
  assert (Rp : p_state p1 = RUNNING) by (destruct Ru as (r & Hr & Er); congruence).
  pose proof (alter_at _ i g p1 Hp1) as At.
  assert (Lo : loose k2 i).
  { split; [done|]. intros j q Hq. destruct (At j q Hq) as [[-> ->]|[_ Hq1]]; [apply (L i p1); [apply not_elem_of_nil|done]|].
    apply (L j q); [apply not_elem_of_nil|done]. }
  split; [|split].
  - apply (slot_ok k1 k2 i g p1 O Hp1 eq_refl); try done.
    + intros _. apply (pt_pid k1 O i p1 Hp1). by rewrite Rp.
    + intros l r Nl Hr Nz Er. apply Nl. by apply (pt_inj k1 O l i r p1 Hr Hp1); [|rewrite Er].
    + by right.
    + intros j Hj. by right.
  - intros w q z r Hq Hs Hc Hr Hz Ep. destruct (At w q Hq) as [[-> ->]|[Nw Hq1]]; [done|].
    destruct (At z r Hr) as [[-> ->]|[Nz Hr1]]; [|by apply (NL w q z r)].
    cbn in Ep. rewrite V2 in Ep. rewrite Ep in Wk. apply Nw. destruct K as (K1 & _). rewrite <- C, K1. by apply (Wk w q).
  - intros j q Hq. destruct (At j q Hq) as [[-> ->]|[Nj Hq1]]; [done|]. intros R. apply Nj. rewrite <- C. by apply (pt_running k1 O j q).
Qed.

Lemma exit_finish_good status k : good true k -> k_initproc k <> Some (k_cur k) ->
  swp (fun o k' => o <> None /\ good false k') (exit_finish status) k.
Proof.
  intros G N. unfold exit_finish. rewrite swp_get. cbv zeta. set (i := k_cur k) in *. unfold reparent. apply swp_bind.
  assert (H : orphaned i (seq 0 NPROC) k).
  { split; [done|]. split; [done|]. split; [done|]. intros j q Hj Hq. exfalso. apply Hj, elem_of_seq.
    apply lookup_lt_Some in Hq. rewrite (pt_len k) in Hq by apply G. lia. }
  apply (swp_mono _ _ _ _) with (2 := reparent_good i _ k H (fun j Hj => proj2 (proj1 (elem_of_seq 0 NPROC j) Hj))).
  intros [u|] k1 [? H1]; [|done]. cbn [sthen]. destruct (proj2 (proj2 (proj1 H1))) as (p & Hp & _).
  rewrite (proj1 (proj2 H1)) in Hp. destruct (wakeup (ch_proc (p_parent p)) k1) as [[] k2| | |] eqn:W; try done.
  assert (Z : good false (set_procs (alter (p_set_state ZOMBIE ∘ p_set_xstate status) i) k2)) by (by apply (zombie_good i status p k1)).
  unfold swp, sbind at 1. rewrite (getp_at k1 i p Hp). unfold sbind at 1. rewrite W. unfold sbind, modp, smodify. by rewrite modp_modp.
Qed.

(** exit sleeps on the way, or ends with no process on the CPU. *)
Lemma exit_good status k : good true k -> kwp (fun o => good (match o with Some _ => false | None => true end)) (exit status) k.
Proof.
  intros G. unfold exit. apply kwp_bind. cbn [kwp P.get trigger kthen]. case_bool_decide as B; [done|].
  set (P := fun k => good true k /\ k_initproc k <> Some (k_cur k)).
  assert (S : stable P) by (intros k1 k2 [G1 N1] K; pose proof K as (K1 & K2 & _); split; [by apply (good_stable true k1)|congruence]).
  assert (W : forall k, P k -> good true k) by (by intros ? []).
  assert (H : P k) by (by split; [|intros E; apply B]).
  apply (kwp_seq P); [done|kept|done|done|]. intros _ k1 H1.
  apply (kwp_seq P); [done|kept|done|done|]. intros _ k2 H2.
  apply (kwp_seq P); [done|kept|done|done|]. intros p k3 H3.
  apply (kwp_seq P); [done|kept|done|done|]. intros _ k4 H4.
  apply (kwp_seq P); [done|kept|done|done|]. intros _ k5 H5.
  apply (kwp_seq P); [done|kept|done|done|]. intros _ k6 [H6 N6].
  apply kwp_liftK. apply (swp_mono _ _ _ _) with (2 := exit_finish_good status k6 H6 N6). intros [u|] k7 [? G7]; done.
Qed.

(** ** Lemmas: switching *)

(** The process on the CPU leaves it as [g p], still alive. *)
Lemma leave_good k g : good true k -> (forall p, p_pid (g p) = p_pid p /\ p_parent (g p) = p_parent p) ->
  (forall p, alive (p_state (g p)) = true /\ p_state (g p) <> RUNNING) ->
  (forall p z q, k_procs k !! k_cur k = Some p -> p_state (g p) = SLEEPING -> p_chan (g p) = ch_proc (Some (k_cur k)) ->
     k_procs k !! z = Some q -> p_state q = ZOMBIE -> p_parent q <> Some (k_cur k)) ->
  good false (set_procs (alter g (k_cur k)) k).
Proof.
  intros (O & NL & (p & Hp & Hs)) Hg Ha Hz. set (i := k_cur k) in *. set (k' := set_procs (alter g i) k). destruct (Hg p) as [G1 G2]. destruct (Ha p) as [A1 A2].
  pose proof (alter_at _ i g p Hp) as At.
  split; [|split].
  - apply (slot_ok k k' i g p O Hp eq_refl); try done.
    + intros U. rewrite U in A1. done.
    + intros _. rewrite G1. apply (pt_pid k O i p Hp). by rewrite Hs.
    + intros l r Nl Hr. rewrite G1. intros Nz Er. apply Nl. by apply (pt_inj k O l i r p Hr Hp); [|rewrite Er].
    + by left.
    + intros j. rewrite G2. by right.
  - intros w q z r Hq Hws Hc Hr Hrz. destruct (At z r Hr) as [[-> ->]|[Nz Hr1]]; [rewrite Hrz in A1; done|].
    destruct (At w q Hq) as [[-> ->]|[Nw Hq1]]; [by apply (Hz p z r)|by apply (NL w q z r)].
  - intros j q Hq. destruct (At j q Hq) as [[-> ->]|[Nj Hq1]]; [done|]. intros R. apply Nj. by apply (pt_running k O j q).
Qed.

Lemma yield_good k : good true k -> swp (fun o k' => o <> None /\ good false k') yield k.
Proof. intros G. split; [done|]. by apply leave_good. Qed.

Definition nochild (k : kst) : Prop := forall z q, k_procs k !! z = Some q -> p_state q = ZOMBIE -> p_parent q <> Some (k_cur k).

Lemma sleep_good chan k : good true k -> (chan = ch_proc (Some (k_cur k)) -> nochild k) -> swp (fun o k' => o <> None /\ good false k') (sleep chan) k.
Proof.
  intros G H. split; [done|]. rewrite modp_modp. apply leave_good; try done. intros p z q Hp _ Hc. cbn in Hc. by apply H.
Qed.

(** The scheduler gives the CPU to [i]. *)
Lemma sched_good i k k' : good false k -> sched_proc i k = Ok true k' -> good true k'.
Proof.
  intros (O & NL & Id) E. unfold sched_proc, sbind, getp in E. case_bool_decide as B; [|done]. injection E as <-.
  destruct (k_procs k !! i) as [p|] eqn:Hp; [rewrite (nth_lookup_Some _ _ _ _ Hp) in B|by rewrite nth_overflow in B by (by apply lookup_ge_None)].
  set (g := p_set_state RUNNING). set (k0 := set_cur i k).
  assert (O0 : ptable_ok k0) by (destruct O; split; try done; intros j q Hq Hs; by destruct (Id j q)).
  change (set_cur i (set_procs (alter g i) k)) with (set_procs (alter g i) k0).
  pose proof (alter_at _ i g p Hp) as At.
  split; [|split].
  - apply (slot_ok k0 (set_procs (alter g i) k0) i g p O0 Hp eq_refl); try done.
    + intros _. cbn. apply (pt_pid k O i p Hp). by rewrite B.
    + intros l r Nl Hr Nz Er. apply Nl. by apply (pt_inj k O l i r p Hr Hp); [|rewrite Er].
    + by left.
    + intros j Hj. by right.
  - intros w q z r Hq Hs Hc Hr Hz. destruct (At w q Hq) as [[-> ->]|[_ Hq1]]; [done|]. destruct (At z r Hr) as [[-> ->]|[_ Hr1]]; [done|].
    by apply (NL w q z r).
  - exists (g p). split; [|done]. cbn. by rewrite list_lookup_alter_eq, Hp.
Qed.

Lemma sched_return_good k : good false k -> good false (set_cur NPROC k).
Proof. intros ([] & NL & Id). split; [|done]. split; try done. intros j q Hq Hs. by destruct (Id j q). Qed.

(** ** Lemmas: wait *)

(** After the scan: the table is right; if nothing was found, nothing was
    changed and no entry of [js] is a dead child. *)
Definition after_scan (i : nat) (js : list nat) (k : kst) (o : option wres) (k' : kst) : Prop :=
  good true k' /\ forall h, o = Some (WNone h) -> k' = k /\
    forall j q, j ∈ js -> k_procs k !! j = Some q -> p_state q = ZOMBIE -> p_parent q <> Some i.

Lemma wait_collect_good i j (m : stM kst Z) pid js k k0 : skept pkeep m -> slot true ZOMBIE j k ->
  swp (after_scan i js k0) (r <- m; if r <? 0 then sret (WDone (-1)) else freeproc j;; sret (WDone pid))%st k.
Proof.
  intros Hm H. apply (swp_seq (slot true ZOMBIE j)); [by apply slot_stable|done|done|by intros ? []|]. intros r k1 H1.
  destruct (r <? 0); [split; [apply H1|done]|]. apply swp_bind.
  apply (swp_mono (fun _ => good true)); [|by apply (freeproc_good true j ZOMBIE); [right|]]. intros [a|] k2 G2; by split.
Qed.

Lemma wait_scan_good js i addr h k : good true k -> k_cur k = i -> swp (after_scan i js k) (wait_scan js i addr h) k.
Proof.
  revert h. induction js as [|j js IH]; intros h G C; cbn [wait_scan].
  { split; [done|]. intros h' [= <-]. split; [done|]. intros j q Hj. by apply not_elem_of_nil in Hj. }
  set (np := nth j (k_procs k) proc0). unfold swp, sbind at 1, getp at 1. fold np.
  assert (Next : forall h, (p_parent np = Some i -> p_state np <> ZOMBIE) -> swp (after_scan i (j :: js) k) (wait_scan js i addr h) k).
  { intros h1 Hn. apply (swp_mono _ _ _ _) with (2 := IH h1 G C). intros o k' (G' & H). split; [done|]. intros h' Eo.
    destruct (H h' Eo) as [-> Hj]. split; [done|]. intros l q [->|Hl]%elem_of_cons Hq Hz; [|by apply (Hj l q)].
    intros Ep. assert (np = q) by (apply (nth_lookup_Some _ _ _ _ Hq)). subst q. by apply Hn. }
  case_bool_decide as B1; [|by apply Next]. case_bool_decide as B2; [|by apply Next].
  assert (Hj : k_procs k !! j = Some np).
  { destruct (k_procs k !! j) as [q|] eqn:Hq; [f_equal; symmetry; apply (nth_lookup_Some _ _ _ _ Hq)|].
    unfold np in B2. by rewrite nth_overflow in B2 by (by apply lookup_ge_None). }
  apply (wait_collect_good i j); [kept|]. split; [done|by exists np].
Qed.

Definition after_wait (o : option (option Z)) : kst -> Prop := good (match o with Some None => false | _ => true end).

Lemma wait_good addr k : good true k -> swp after_wait (wait addr) k.
Proof.
  intros G. unfold wait. rewrite swp_get. cbv zeta. set (i := k_cur k). apply swp_bind.
  apply (swp_mono _ _ _ _) with (2 := wait_scan_good (seq 0 NPROC) i addr false k G eq_refl).
  intros [[r|h]|] k1 [G1 H1]; [exact G1| |exact G1]. destruct (H1 h eq_refl) as [-> Hz]. cbn [sthen].
  unfold swp, sbind at 1, getp at 1. destruct (_ || _); [exact G|].
  assert (Nc : nochild k).
  { intros z q Hq. apply (Hz z q); [|done]. apply elem_of_seq. apply lookup_lt_Some in Hq. rewrite (pt_len k) in Hq by apply G. lia. }
  assert (S : swp after_wait (sbind (sleep (ch_proc (Some i))) (fun _ => sret None)) k); [|exact S].
  apply swp_bind. apply (swp_mono _ _ _ _) with (2 := sleep_good _ k G (fun _ => Nc)). intros [u|] k2 [? G2]; done.
Qed.

(** ** Lemmas: system calls *)

(** A call that returns leaves the process on the CPU; one that waits leaves
    it there (before sleep) or has taken it off (wait, exit). *)
Definition after_call {A} (o : option A) (k : kst) : Prop :=
  match o with Some _ => good true k | None => good true k \/ good false k end.

Lemma kept_after_call {A} (p : prog kst A) k : kept pkeep p -> good true k -> kwp after_call p k.
Proof.
  intros H G. apply (kwp_mono (fun _ => good true)); [|by apply (kwp_stable (good true)); [apply good_stable| |]].
  intros [a|] k' G'; [exact G'|by left].
Qed.

Lemma sys_exit_good k : good true k -> kwp after_call sys_exit k.
Proof.
  intros G. unfold sys_exit. apply (kwp_seq (good true)); [apply good_stable|kept|done|by left|]. intros n k1 G1.
  apply kwp_bind. apply (kwp_mono _ _ _ _) with (2 := exit_good n k1 G1). intros [u|] k2 G2; cbn; [by right|by left].
Qed.

Lemma sys_wait_good k : good true k -> kwp after_call sys_wait k.
Proof.
  intros G. unfold sys_wait. apply (kwp_seq (good true)); [apply good_stable|kept|done|by left|]. intros a k1 G1.
  apply kwp_bind, kwp_liftK. apply (swp_mono _ _ _ _) with (2 := wait_good a k1 G1). intros [[r|]|] k2 G2; cbn; [exact G2|by right|by left].
Qed.

Lemma syscalls_good e num f k : syscalls e num = Some f -> good true k -> pids_left k -> kwp after_call f k.
Proof.
  intros E G N. destruct (is_proc_call num) eqn:B; [|by apply kept_after_call; [apply (kept_syscalls pkeep e num)|]].
  unfold is_proc_call in B. cbn [existsb] in B. rewrite !orb_true_iff, !Z.eqb_eq in B.
  destruct B as [->|[->|[->|[->|[->|[->|]]]]]]; [..|done]; injection E as <-.
  - apply (kwp_mono (fun _ => good true)); [|by apply fork_good]. intros [a|] k' G'; [exact G'|by left].
  - by apply sys_exit_good.
  - by apply sys_wait_good.
  - apply kept_after_call; [kept|done].
  - apply kept_after_call; [kept|done].
  - apply kept_after_call; [kept|done].
Qed.

Lemma syscall_good e k : good true k -> pids_left k -> kwp after_call (syscall e) k.
Proof.
  intros G N. unfold syscall. set (P := fun k => good true k /\ pids_left k).
  assert (S : stable P).
  { intros k1 k2 [G1 N1] K. split; [by apply (good_stable true k1)|]. unfold pids_left. destruct K as (_ & _ & -> & _). exact N1. }
  assert (W : forall k, P k -> after_call (A := unit) None k) by (intros ? []; by left).
  apply (kwp_seq P); [done|kept|done|done|]. intros p k1 H1.
  apply (kwp_seq P); [done|kept|done|done|]. intros a7 k2 [G2 N2].
  destruct (syscalls e (s32 a7)) as [f|] eqn:E; [|apply kept_after_call; [kept|done]].
  apply kwp_bind. apply (kwp_mono _ _ _ _) with (2 := syscalls_good e _ f k2 E G2 N2). intros [r|] k3 G3; cbn [kthen]; [|exact G3].
  apply kept_after_call; [kept|done].
Qed.

(** ** The system as a step relation *)

(** One CPU: a process in user mode changes its registers and memory ([f]) and makes a system call, which returns, goes
    to sleep, or has taken the process off the CPU itself (exit and wait); an
    interrupt makes it yield, or wakes a channel; the scheduler takes the CPU
    back and gives it to a runnable process.  A call that slept is made again
    when the process runs. *)
Inductive kstep : kst * bstate -> kst * bstate -> Prop :=
| step_boot t k s k' s' : k_initproc k = None -> pids_left k -> idle k -> run hC (userinit t) (k, s) = Ok tt (k', s') -> kstep (k, s) (k', s')
| step_user f k s : running k -> kstep (k, s) (set_mem f k, s)
| step_call e k s k' s' : running k -> pids_left k -> run hC (syscall e) (k, s) = Ok tt (k', s') -> kstep (k, s) (k', s')
| step_sleep e c chan k s k1 s' k' : running k -> pids_left k -> run hC (syscall e) (k, s) = Sleep c (k1, s') -> running k1 ->
    chan <> ch_proc (Some (k_cur k1)) -> sleep chan k1 = Ok tt k' -> kstep (k, s) (k', s')
| step_off e c k s k' s' : running k -> pids_left k -> run hC (syscall e) (k, s) = Sleep c (k', s') -> idle k' -> kstep (k, s) (k', s')
| step_yield k s k' : running k -> yield k = Ok tt k' -> kstep (k, s) (k', s)
| step_resume k s k' : running k -> sleep_return k = Ok tt k' -> kstep (k, s) (k', s)
| step_wakeup chan k s k' : wakeup chan k = Ok tt k' -> kstep (k, s) (k', s)
| step_return k s k' : idle k -> sched_return k = Ok tt k' -> kstep (k, s) (k', s)
| step_sched i k s k' : idle k -> sched_proc i k = Ok true k' -> kstep (k, s) (k', s).

Definition inv (k : kst) : Prop := good true k \/ good false k.

Lemma running_idle k : running k -> idle k -> False.
Proof. intros (p & Hp & Hs) I. by apply (I _ p Hp). Qed.
Lemma inv_running k : inv k -> running k -> good true k.
Proof. intros [G|(? & ? & I)] R; [done|]. by destruct (running_idle k). Qed.
Lemma inv_idle k : inv k -> idle k -> good false k.
Proof. intros [(? & ? & R)|G] I; [|done]. by destruct (running_idle k). Qed.

Lemma run_call e k s : good true k -> pids_left k ->
  match run hC (syscall e) (k, s) with Ok _ (k', _) => good true k' | Sleep _ (k', _) => inv k' | _ => True end.
Proof. intros G N. apply (kwp_run (@hC kst) after_call (syscall e) k s khandler_C). by apply syscall_good. Qed.

Lemma kstep_inv σ σ' : kstep σ σ' -> inv (fst σ) -> inv (fst σ').
Proof.
  intros [t k s k' s' E0 N I E|f k s R|e k s k' s' R N E|e c chan k s k1 s' k' R N E R1 Hc E1|e c k s k' s' R N E I|k s k' R E|k s k' R E|chan k s k' E|k s k' I E|i k s k' I E] H; cbn [fst] in *.
  - right. apply (inv_idle k) in H; [|done]. pose proof (kwp_run (@hC kst) _ (userinit t) k s khandler_C (userinit_good t k H N E0)) as Q.
    rewrite E in Q. by apply Q.
  - destruct H as [H|H]; [left|right]; apply (good_stable _ k); try done; apply kf_mem.
  - left. pose proof (run_call e k s (inv_running k H R) N) as Q. by rewrite E in Q.
  - right. pose proof (run_call e k s (inv_running k H R) N) as Q. rewrite E in Q. pose proof (sleep_good chan k1 (inv_running k1 Q R1)) as S.
    unfold swp in S. rewrite E1 in S. by apply S.
  - pose proof (run_call e k s (inv_running k H R) N) as Q. by rewrite E in Q.
  - right. pose proof (yield_good k (inv_running k H R)) as S. unfold swp in S. rewrite E in S. apply S.
  - left. injection E as <-. apply (good_stable true k); [by apply inv_running|]. apply pkeep_at_slot. intros p Hp. split; try done; [by left|].
    destruct R as (q & Hq & Hs). cbn. congruence.
  - destruct (wakeup_at _ _ _ E) as [K _]. destruct H as [H|H]; [left|right]; by apply (good_stable _ k).
  - right. injection E as <-. by apply sched_return_good, inv_idle.
  - left. by apply (sched_good i k); [apply inv_idle|].
Qed.

Lemma pboot_inv k : k_procs k = replicate NPROC proc0 -> k_nextpid k = 1 -> k_initproc k = None -> inv k.
Proof.
  intros E1 E2 E3. assert (At : forall i p, k_procs k !! i = Some p -> p = proc0).
  { intros i p. rewrite E1. by intros [-> _]%lookup_replicate. }
  right. split; [split|split].
  - by rewrite E1, length_replicate.
  - lia.
  - by intros i p ->%At.
  - by intros i p ->%At.
  - intros i j p q ->%At ->%At. done.
  - by intros i p j ->%At.
  - rewrite E3. done.
  - by intros i p ->%At.
  - by intros j p z q ->%At.
  - by intros i p ->%At.
Qed.

Lemma reach_inv σ σ' : rtc kstep σ σ' -> inv (fst σ) -> inv (fst σ').
Proof. induction 1 as [|σ σ1 σ' St _ IH]; [done|]. intros H. apply IH. by apply (kstep_inv σ). Qed.

(** C3. In every state that can be reached from a boot with an empty process
    table, by system calls (each run against the buffer cache, the log and the
    disk), sleeps, wakeups, yields and switches: process ids are unique, positive
    and below the counter, unused entries are cleared, parents and init can
    still run, at most one process is RUNNING, and no wakeup of wait is lost: a
    process sleeping in wait has no zombie child. *)
Theorem procs_invariant k0 s0 k s :
  k_procs k0 = replicate NPROC proc0 -> k_nextpid k0 = 1 -> k_initproc k0 = None ->
  rtc kstep (k0, s0) (k, s) -> ptable_ok k /\ nolost k /\ (running k \/ idle k).
Proof.
  intros E1 E2 E3 H. destruct (reach_inv _ _ H (pboot_inv k0 E1 E2 E3)) as [(? & ? & ?)|(? & ? & ?)]; auto.
Qed.
