(* ===== verification/ProcFun.v ===== *)
(** * Exit, wait and kill (kernel/proc.c): what they compute

    exit and wait are loops over the process table that change it and wake
    processes as they go; here they are shown equal to one map over the table
    and one search in it.  kill finds the process with the id, and for id 0 an
    entry that is no process. *)
From S2P Require Import Prelude Str Bio Log Crash Machine Types Vm Codec Ld Balloc Inode Dir Pipe File Sysfile Proc Exec Syscall Frame ProcSpec.

(** ** Reference definitions *)

Definition is_child (i : nat) (q : proc) : bool := bool_decide (p_parent q = Some i).
Definition is_waiting (c : Z) (q : proc) : bool := bool_decide (p_state q = SLEEPING) && (p_chan q =? c).

(** An entry after the children of [i] have moved to [init]; [any]: there was
    one. *)
Definition rep_entry (i cur : nat) (init : option nat) (any : bool) (j : nat) (q : proc) : proc :=
  let q1 := if is_child i q then p_set_parent init q else q in
  if any && negb (Nat.eqb j cur) && is_waiting (ch_proc init) q then p_set_state RUNNABLE q1 else q1.

(** An entry after process [i] has exited. *)
Definition exit_entry (status : Z) (i : nat) (init par : option nat) (any : bool) (j : nat) (q : proc) : proc :=
  let q1 := rep_entry i i init any j q in
  if Nat.eqb j i then p_set_state ZOMBIE (p_set_xstate status q1)
  else if is_waiting (ch_proc par) q1 then p_set_state RUNNABLE q1 else q1.

(** ** Lemmas *)

Lemma set_procs_eq (f g : list proc -> list proc) k : f (k_procs k) = g (k_procs k) -> set_procs f k = set_procs g k.
Proof. intros E. destruct k. unfold set_procs. cbn in *. by rewrite E. Qed.

Lemma wakeup_eq c k : wakeup c k = Ok tt (set_procs (imap (fun j q => if negb (Nat.eqb j (k_cur k)) && is_waiting c q then p_set_state RUNNABLE q else q)) k).
Proof.
  unfold wakeup, is_waiting. f_equal. apply set_procs_eq, list_eq. intros j. rewrite !list_lookup_imap. destruct (_ !! j); [|done]. cbn.
  by rewrite andb_assoc.
Qed.

Definition rep_body (i j : nat) : stM kst unit :=
  (q <- getp j;
   if bool_decide (p_parent q = Some i) then
     k <- sget;
     modp j (p_set_parent (k_initproc k));;
     wakeup (ch_proc (k_initproc k))
   else sret tt)%st.

(** The entries in [js] have been treated. *)
Definition rep_some (i : nat) (js : list nat) (k : kst) (l : list proc) : list proc :=
  let any := existsb (fun j => is_child i (nth j (k_procs k) proc0)) js in
  imap (fun j q => let q1 := if is_child i q && bool_decide (j ∈ js) then p_set_parent (k_initproc k) q else q in
    if any && negb (Nat.eqb j (k_cur k)) && is_waiting (ch_proc (k_initproc k)) q then p_set_state RUNNABLE q1 else q1) l.

Lemma rep_body_eq i j k : (j < length (k_procs k))%nat -> rep_body i j k = Ok tt (set_procs (rep_some i [j] k) k).
Proof.
  intros Hj. unfold rep_body, sbind, getp, sget, modp, smodify. set (q := nth j (k_procs k) proc0).
  assert (Hq : k_procs k !! j = Some q) by (unfold q; destruct (nth_lookup_or_length (k_procs k) j proc0); [done|lia]).
  assert (An : forall b, existsb (fun j => is_child i (nth j (k_procs k) proc0)) [j] = b -> is_child i q = b) by (intros b <-; cbn; by rewrite orb_false_r).
  specialize (An _ eq_refl). unfold is_child in An at 1. case_bool_decide as B.
  - rewrite wakeup_eq. f_equal. change (set_procs (rep_some i [j] k) k) with (set_procs (rep_some i [j] k) k).
    transitivity (set_procs (fun l => imap (fun l q => if negb (Nat.eqb l (k_cur k)) && is_waiting (ch_proc (k_initproc k)) q then p_set_state RUNNABLE q else q) (alter (p_set_parent (k_initproc k)) j l)) k); [done|].
    apply set_procs_eq, list_eq. intros l. unfold rep_some. rewrite <- An, !list_lookup_imap. destruct (decide (l = j)) as [->|Ne].
    + rewrite list_lookup_alter_eq, Hq. cbn. unfold is_child. rewrite (bool_decide_eq_true_2 _ B), (bool_decide_eq_true_2 (j ∈ [j])) by (by apply list_elem_of_singleton). done.
    + rewrite list_lookup_alter_ne by done. destruct (k_procs k !! l) as [r|]; [|done]. cbn.
      rewrite (bool_decide_eq_false_2 (l ∈ [j])) by (by rewrite list_elem_of_singleton). by rewrite andb_false_r.
  - unfold sret. f_equal. transitivity (set_procs id k); [by destruct k|]. apply set_procs_eq, list_eq. intros l. unfold rep_some. rewrite <- An, list_lookup_imap.
    cbn. destruct (k_procs k !! l) as [r|] eqn:Hr; [|done]. cbn. destruct (decide (l = j)) as [->|Ne].
    + assert (r = q) as -> by congruence. unfold is_child. by rewrite (bool_decide_eq_false_2 _ B).
    + rewrite (bool_decide_eq_false_2 (l ∈ [j])) by (by rewrite list_elem_of_singleton). by rewrite andb_false_r.
Qed.

(** What the first step does to the test for children in the rest. *)
Lemma rep_some_nth i j k l : (l < length (k_procs k))%nat -> l <> j ->
  is_child i (nth l (rep_some i [j] k (k_procs k)) proc0) = is_child i (nth l (k_procs k) proc0).
Proof.
  intros Hl Ne. destruct (lookup_lt_is_Some_2 (k_procs k) l Hl) as [q Hq]. unfold rep_some. rewrite !nth_lookup, list_lookup_imap, Hq. cbn.
  rewrite (bool_decide_eq_false_2 (l ∈ [j])) by (by rewrite list_elem_of_singleton). rewrite andb_false_r. by destruct (_ && _).
Qed.

Lemma rep_some_compose i j js k : j ∉ js -> (forall l, l ∈ js -> (l < length (k_procs k))%nat) -> let k1 := set_procs (rep_some i [j] k) k in
  rep_some i js k1 (k_procs k1) = rep_some i (j :: js) k (k_procs k).
Proof.
  intros Nj Hl k1. set (b := is_child i (nth j (k_procs k) proc0)). set (any := existsb (fun l => is_child i (nth l (k_procs k) proc0)) js).
  assert (An : existsb (fun l => is_child i (nth l (k_procs k1) proc0)) js = any).
  { unfold any, k1. cbn [k_procs set_procs]. clear any k1 b. induction js as [|l js IH]; [done|]. cbn [existsb]. rewrite IH.
    - rewrite rep_some_nth; [done|apply Hl, elem_of_cons; by left|]. intros ->. apply Nj, elem_of_cons. by left.
    - intros H. apply Nj, elem_of_cons. by right.
    - intros m Hm. apply Hl, elem_of_cons. by right. }
  apply list_eq. intros l. unfold rep_some at 1 2. rewrite An. cbn [existsb]. fold b any. rewrite !list_lookup_imap. cbn [k_procs set_procs k1].
  unfold rep_some. rewrite list_lookup_imap. cbn [existsb]. fold b. rewrite orb_false_r. destruct (k_procs k !! l) as [q|]; [|done]. cbn.
  f_equal. destruct (decide (l = j)) as [->|Ne].
  - rewrite (bool_decide_eq_true_2 (j ∈ [j])) by (by apply list_elem_of_singleton). rewrite (bool_decide_eq_true_2 (j ∈ j :: js)) by (apply elem_of_cons; by left).
    rewrite (bool_decide_eq_false_2 (j ∈ js)) by done. rewrite !andb_true_r, !andb_false_r.
    unfold is_waiting.
    destruct b, any, (negb (Nat.eqb j (k_cur k))), (is_child i q), (bool_decide (p_state q = SLEEPING)) eqn:Hs, (p_chan q =? ch_proc (k_initproc k)) eqn:Hc; cbn; rewrite ?Hs, ?Hc; cbn; try done.
  - rewrite (bool_decide_eq_false_2 (l ∈ [j])) by (by rewrite list_elem_of_singleton). rewrite andb_false_r.
    replace (bool_decide (l ∈ j :: js)) with (bool_decide (l ∈ js)) by (apply bool_decide_ext; rewrite elem_of_cons; naive_solver).
    unfold is_waiting.
    destruct b, any, (negb (Nat.eqb l (k_cur k))), (bool_decide (p_state q = SLEEPING)) eqn:Hs, (p_chan q =? ch_proc (k_initproc k)) eqn:Hc; cbn; rewrite ?Hs, ?Hc; cbn; try done;
      change (is_child i (p_set_state RUNNABLE q)) with (is_child i q); by destruct (is_child i q && _).
Qed.

Lemma rep_loop_eq i js k : NoDup js -> (forall j, j ∈ js -> (j < length (k_procs k))%nat) ->
  sfor js (rep_body i) k = Ok tt (set_procs (rep_some i js k) k).
Proof.
  revert k. induction js as [|j js IH]; intros k Nd Hj.
  - cbn. f_equal. destruct k. unfold set_procs. cbn. f_equal. apply list_eq. intros l. unfold rep_some. rewrite list_lookup_imap. destruct (_ !! l); [|done].
    cbn. by rewrite andb_false_r.
  - inversion Nd; subst. cbn [sfor]. unfold sbind. rewrite rep_body_eq by (apply Hj, elem_of_cons; by left). rewrite IH; [|done|].
    + f_equal. change (set_procs (rep_some i (j :: js) k) k) with (set_procs (fun _ => rep_some i (j :: js) k (k_procs k)) k).
      rewrite <- rep_some_compose; [done|done|]. intros l Hl. apply Hj, elem_of_cons. by right.
    + intros l Hl. cbn. unfold rep_some. rewrite length_imap. apply Hj, elem_of_cons. by right.
Qed.

(** reparent is one map over the table. *)
Definition has_child (i : nat) (k : kst) : bool := existsb (is_child i) (k_procs k).

Lemma existsb_nth {A} (f : A -> bool) d l : existsb (fun j => f (nth j l d)) (seq 0 (length l)) = existsb f l.
Proof.
  apply eq_true_iff_eq. rewrite !existsb_exists. split.
  - intros (j & Hj & E). apply in_seq in Hj. exists (nth j l d). split; [apply nth_In; lia|done].
  - intros (x & Hx & E). destruct (In_nth l x d Hx) as (j & Hj & Ej). exists j. split; [apply in_seq; lia|by rewrite Ej].
Qed.

Lemma reparent_eq i k : length (k_procs k) = NPROC ->
  reparent i k = Ok tt (set_procs (imap (rep_entry i (k_cur k) (k_initproc k) (has_child i k))) k).
Proof.
  intros L. unfold reparent. change (fun j : nat => _) with (rep_body i). rewrite rep_loop_eq.
  - f_equal. apply set_procs_eq. unfold rep_some, has_child. rewrite <- L, existsb_nth. apply list_eq. intros j. rewrite !list_lookup_imap.
    destruct (k_procs k !! j) as [q|] eqn:Hq; [|done]. cbn. unfold rep_entry.
    rewrite (bool_decide_eq_true_2 (j ∈ _)) by (apply elem_of_seq; apply lookup_lt_Some in Hq; lia). by rewrite andb_true_r.
  - apply NoDup_seq.
  - intros j Hj. apply elem_of_seq in Hj. lia.
Qed.

(** C26. What exit does to the process table, whatever is in it: the process is
    a zombie with its status, its children belong to init, and exactly the
    processes that sleep on the entry of its parent, or (if there were children)
    of init, are woken. *)
Theorem exit_finish_correct status k p : length (k_procs k) = NPROC -> k_procs k !! k_cur k = Some p -> p_parent p <> Some (k_cur k) ->
  exit_finish status k = Ok tt (set_procs (imap (exit_entry status (k_cur k) (k_initproc k) (p_parent p) (has_child (k_cur k) k))) k).
Proof.
  intros L Hp Np. unfold exit_finish, sbind at 1, sget. cbv zeta. unfold sbind at 1. rewrite (reparent_eq _ _ L).
  set (i := k_cur k) in *. set (any := has_child i k). set (k1 := set_procs _ k).
  assert (Hp1 : k_procs k1 !! i = Some (rep_entry i i (k_initproc k) any i p)) by (cbn; by rewrite list_lookup_imap, Hp).
  unfold sbind at 1. rewrite (getp_at k1 i _ Hp1). unfold sbind at 1. rewrite wakeup_eq. unfold sbind, modp, smodify. rewrite modp_modp. f_equal.
  assert (Ep : p_parent (rep_entry i i (k_initproc k) any i p) = p_parent p).
  { unfold rep_entry, is_child. rewrite (bool_decide_eq_false_2 _ Np). by destruct (_ && _). }
  rewrite Ep. unfold k1. change (k_cur _) with i.
  transitivity (set_procs (fun l => alter (p_set_state ZOMBIE ∘ p_set_xstate status) i (imap (fun j q => if negb (Nat.eqb j i) && is_waiting (ch_proc (p_parent p)) q then p_set_state RUNNABLE q else q) (imap (rep_entry i i (k_initproc k) any) l))) k); [done|].
  apply set_procs_eq, list_eq. intros j. rewrite list_lookup_imap. destruct (decide (j = i)) as [->|Ne].
  - rewrite list_lookup_alter_eq, !list_lookup_imap. destruct (_ !! i) as [q|]; [|done]. cbn. unfold exit_entry. by rewrite Nat.eqb_refl.
  - rewrite list_lookup_alter_ne, !list_lookup_imap by done. destruct (_ !! j) as [q|]; [|done]. cbn. unfold exit_entry.
    apply Nat.eqb_neq in Ne. by rewrite Ne.
Qed.

(** ** wait *)

Definition dead_child (i : nat) (q : proc) : bool := is_child i q && bool_decide (p_state q = ZOMBIE).

Fixpoint find_dead (i j : nat) (l : list proc) : option (nat * proc) :=
  match l with [] => None | q :: l => if dead_child i q then Some (j, q) else find_dead i (S j) l end.

(** Collecting child [j], in state [np]. *)
Definition collect (i j : nat) (np : proc) (addr : Z) : stM kst wres :=
  (p <- getp i;
   r <- (if addr =? 0 then sret 0 else copyout (p_pagetable p) addr (le_enc 4 (p_xstate np)));
   if r <? 0 then sret (WDone (-1)) else freeproc j;; sret (WDone (p_pid np)))%st.

Lemma wait_scan_eq i addr h k l j : (forall n, nth (j + n) (k_procs k) proc0 = nth n l proc0) ->
  wait_scan (seq j (length l)) i addr h k =
    match find_dead i j l with
    | Some (z, q) => collect i z q addr k
    | None => Ok (WNone (h || existsb (is_child i) l)) k
    end.
Proof.
  revert j h. induction l as [|q l IH]; intros j h H; cbn [length seq wait_scan find_dead existsb]; [unfold sret; by rewrite orb_false_r|].
  unfold sbind at 1, getp at 1. assert (nth j (k_procs k) proc0 = q) as -> by (specialize (H 0%nat); by rewrite Nat.add_0_r in H). unfold dead_child.
  assert (H' : forall n, nth (S j + n) (k_procs k) proc0 = nth n l proc0) by (intros n; specialize (H (S n)); by rewrite Nat.add_succ_r in H).
  change (bool_decide (p_parent q = Some i)) with (is_child i q).
  destruct (is_child i q) eqn:B; [destruct (bool_decide (p_state q = ZOMBIE)) eqn:Z; cbn|].
  - done.
  - rewrite IH by done. destruct (find_dead _ _ _) as [[? ?]|]; [done|]. by rewrite orb_true_r.
  - cbn. rewrite IH by done. done.
Qed.

Lemma find_dead_spec i j l z q : find_dead i j l = Some (z, q) -> exists n, z = (j + n)%nat /\ l !! n = Some q /\ dead_child i q = true /\
  forall m r, (m < n)%nat -> l !! m = Some r -> dead_child i r = false.
Proof.
  revert j. induction l as [|p l IH]; intros j; cbn [find_dead]; [done|]. destruct (dead_child i p) eqn:B.
  - intros [= <- <-]. exists 0%nat. rewrite Nat.add_0_r. by split; [|split; [|split; [|lia]]].
  - intros H. destruct (IH _ H) as (n & -> & Hn & D & Hm). exists (S n). split; [lia|]. split; [done|]. split; [done|].
    intros [|m] r Hr; cbn; [by intros [= <-]|]. apply Hm. lia.
Qed.

(** C27. wait collects the first zombie child in the table: its status goes to
    [addr], its entry is freed and its id returned; without one, wait returns -1
    if there are no children or the process is killed, and else the process sleeps
    on its own entry, and nothing else changes. *)
Theorem wait_correct addr k p : length (k_procs k) = NPROC -> k_procs k !! k_cur k = Some p ->
  wait addr k =
    match find_dead (k_cur k) 0 (k_procs k) with
    | Some (z, q) => (r <- collect (k_cur k) z q addr; sret (match r with WDone r => Some r | WNone _ => None end))%st k
    | None =>
        if has_child (k_cur k) k && negb (p_killed p)
        then Ok None (set_procs (alter (fun p => p_set_state SLEEPING (p_set_chan (ch_proc (Some (k_cur k))) p)) (k_cur k)) k)
        else Ok (Some (-1)) k
    end.
Proof.
  intros L Hp. unfold wait, sbind at 1, sget. cbv zeta. unfold sbind at 1. rewrite <- L, wait_scan_eq by done.
  destruct (find_dead _ _ _) as [[z q]|].
  - unfold collect, sbind, getp, sret. destruct (if addr =? 0 then _ else _) as [r k1| | |]; try done. destruct (r <? 0); [done|]. by destruct (freeproc z k1).
  - unfold sbind at 1. rewrite (getp_at k _ p Hp). cbn [orb]. fold (has_child (k_cur k) k).
    destruct (has_child (k_cur k) k), (p_killed p); cbn [negb orb andb]; try done. unfold sleep, sbind, sget, modp, smodify, sret. by rewrite modp_modp.
Qed.

(** ** kill *)

Lemma kill_scan_spec l j pid : match kill_scan l j pid with
  | Some i => exists n p, i = (j + n)%nat /\ l !! n = Some p /\ p_pid p = pid /\ forall m r, (m < n)%nat -> l !! m = Some r -> p_pid r <> pid
  | None => forall m r, l !! m = Some r -> p_pid r <> pid
  end.
Proof.
  revert j. induction l as [|p l IH]; intros j; cbn [kill_scan]; [done|]. destruct (Z.eqb_spec (p_pid p) pid) as [E|E].
  - exists 0%nat, p. rewrite Nat.add_0_r. by split; [|split; [|split; [|lia]]].
  - specialize (IH (S j)). destruct (kill_scan l (S j) pid) as [i|].
    + destruct IH as (n & r & -> & Hr & Er & Hm). exists (S n), r. split; [lia|]. split; [done|]. split; [done|].
      intros [|m] s Hs; cbn; [by intros [= <-]|]. apply Hm. lia.
    + intros [|m] r; cbn; [by intros [= <-]|]. apply IH.
Qed.

Definition killed_entry (p : proc) : proc :=
  let p := p_set_killed true p in if bool_decide (p_state p = SLEEPING) then p_set_state RUNNABLE p else p.

Lemma kill_eq pid k : kill pid k = match kill_scan (k_procs k) 0 pid with Some i => Ok 0 (set_procs (alter killed_entry i) k) | None => Ok (-1) k end.
Proof. unfold kill, sbind, sget, modp, smodify, sret. destruct (kill_scan _ _ _); [|done]. by rewrite modp_modp. Qed.

(** kill with a positive id: the one process with that id, if it exists, is
    marked killed and made runnable if it sleeps, and 0 is returned; else nothing
    changes and -1 is returned. *)
Theorem kill_correct pid k : ptable_ok k -> 0 < pid ->
  (exists i p, k_procs k !! i = Some p /\ p_pid p = pid /\ p_state p <> UNUSED /\ (forall j q, k_procs k !! j = Some q -> p_pid q = pid -> j = i) /\
     kill pid k = Ok 0 (set_procs (alter killed_entry i) k)) \/
  (forall j q, k_procs k !! j = Some q -> p_pid q <> pid) /\ kill pid k = Ok (-1) k.
Proof.
  intros O Hpid. rewrite kill_eq. pose proof (kill_scan_spec (k_procs k) 0 pid) as H. destruct (kill_scan _ _ _) as [i|]; [left|right; by split].
  destruct H as (n & p & -> & Hp & E & _). cbn [Nat.add]. exists n, p. split; [done|]. split; [done|]. split; [|split; [|done]].
  - intros U. destruct (pt_unused k O n p Hp U) as [? _]. lia.
  - intros j q Hq Eq. apply (pt_inj k O j n q p Hq Hp); [congruence|lia].
Qed.

(** ** kill(0) and the next fork *)

(** Steps after which entry [i] is killed if it was before. *)
Definition dkeep (i : nat) (k k' : kst) : Prop :=
  forall p, k_procs k !! i = Some p -> p_killed p = true -> exists p', k_procs k' !! i = Some p' /\ p_killed p' = true.

#[export] Instance dkeep_frame i : KFrame (dkeep i).
Proof.
  assert (Mo : forall g j k, (forall p, p_killed (g p) = p_killed p) -> dkeep i k (set_procs (alter g j) k)).
  { intros g j k H p Hp E. cbn. destruct (decide (i = j)) as [->|Ne].
    - rewrite list_lookup_alter_eq, Hp. exists (g p). by rewrite H.
    - rewrite list_lookup_alter_ne by done. by exists p. }
  split; try (intros; intros p Hp E; by exists p).
  - intros k1 k2 k3 H1 H2 p Hp E. destruct (H1 p Hp E) as (p2 & Hp2 & E2). by apply (H2 p2).
  - intros c k p Hp E. unfold wakeup. cbn. rewrite list_lookup_imap, Hp. cbn. eexists. split; [done|]. by destruct (_ && _).
  - intros g j k _. by apply Mo.
  - intros c j k. by apply Mo.
Qed.

Lemma skept_modp_killed i j g : (forall p, p_killed (g p) = p_killed p) -> skept (dkeep i) (modp j g).
Proof.
  intros H. apply skept_modify. intros k p Hp E. cbn. destruct (decide (i = j)) as [->|Ne].
  - rewrite list_lookup_alter_eq, Hp. exists (g p). by rewrite H.
  - rewrite list_lookup_alter_ne by done. by exists p.
Qed.
#[local] Hint Extern 1 (skept (dkeep _) (modp _ _)) => (apply skept_modp_killed; intros ?; reflexivity) : kept.

(** The same for runs that return an entry. *)
Definition skept_some (i : nat) (m : stM kst (option nat)) : Prop :=
  forall k, match m k with Ok (Some np) k' => np = i /\ dkeep i k k' | _ => True end.

Lemma skept_some_bind {A} i (m : stM kst A) (f : A -> stM kst (option nat)) : skept (dkeep i) m -> (forall a, skept_some i (f a)) -> skept_some i (sbind m f).
Proof.
  intros Hm Hf k. unfold sbind. specialize (Hm k). destruct (m k) as [a k1| | |]; try done. specialize (Hf a k1). destruct (f a k1) as [[np|] k2| | |]; try done.
  destruct Hf as [-> H]. split; [done|]. exact (kf_trans _ _ _ Hm H).
Qed.
Lemma skept_some_none {A} i (m : stM kst A) : skept_some i (sbind m (fun _ => sret None)).
Proof. intros k. unfold sbind. by destruct (m k). Qed.

Lemma find_unused_first l j i : find_unused l j = Some i -> exists n p, i = (j + n)%nat /\ l !! n = Some p /\ p_state p = UNUSED /\
  forall m r, (m < n)%nat -> l !! m = Some r -> p_state r <> UNUSED.
Proof.
  revert j. induction l as [|p l IH]; intros j; cbn [find_unused]; [done|]. case_bool_decide as B.
  - intros [= <-]. exists 0%nat, p. rewrite Nat.add_0_r. by split; [|split; [|split; [|lia]]].
  - intros H. destruct (IH _ H) as (n & q & -> & Hn & U & Hm). exists (S n), q. split; [lia|]. split; [done|]. split; [done|].
    intros [|m] r Hr; cbn; [by intros [= <-]|]. apply Hm. lia.
Qed.

Lemma find_unused_alter l j n g p : l !! n = Some p -> p_state (g p) = p_state p -> find_unused (alter g n l) j = find_unused l j.
Proof.
  revert j n. induction l as [|q l IH]; intros j [|n]; cbn; try done; [by intros [= ->] ->|]. intros Hn E. case_bool_decide; [done|]. by apply IH.
Qed.

Lemma kill_scan_zero k i : ptable_ok k -> find_unused (k_procs k) 0 = Some i -> kill_scan (k_procs k) 0 0 = Some i.
Proof.
  intros O F. destruct (find_unused_first _ _ _ F) as (n & p & -> & Hp & U & Hn). pose proof (kill_scan_spec (k_procs k) 0 0) as S. cbn [Nat.add].
  destruct (pt_unused k O n p Hp U) as [E0 _]. destruct (kill_scan _ _ _) as [z|]; [|by destruct (S n p)].
  destruct S as (m & r & -> & Hr & Er & Hm). cbn [Nat.add]. f_equal. destruct (Nat.lt_trichotomy m n) as [L|[->|L]]; [|done|by destruct (Hm n p)].
  exfalso. pose proof (pt_pid k O m r Hr (Hn m r L Hr)). lia.
Qed.

(** kill(0) does not fail while the table has an unused entry: it marks the
    first unused entry as killed and returns 0; and allocproc does not clear the
    mark, so the next process made in that entry is born killed. *)
Theorem kill_zero_marks_unused k i : ptable_ok k -> find_unused (k_procs k) 0 = Some i ->
  exists k', kill 0 k = Ok 0 k' /\ st_of k' i = UNUSED /\
    forall t np k'', allocproc t k' = Ok (Some np) k'' -> np = i /\ exists p, k_procs k'' !! i = Some p /\ p_killed p = true.
Proof.
  intros O F. rewrite kill_eq, (kill_scan_zero k i O F). destruct (find_unused_first _ _ _ F) as (n & p & -> & Hp & U & _). cbn [Nat.add] in *.
  set (k' := set_procs (alter killed_entry n) k). exists k'. split; [done|].
  assert (Eg : killed_entry p = p_set_killed true p) by (unfold killed_entry; cbn; by rewrite U).
  assert (Hp' : k_procs k' !! n = Some (p_set_killed true p)) by (cbn; by rewrite list_lookup_alter_eq, Hp, <- Eg).
  split; [unfold st_of; by rewrite (nth_lookup_Some _ _ _ _ Hp')|]. intros t np k'' A.
  assert (F' : find_unused (k_procs k') 0 = Some n) by (cbn; rewrite (find_unused_alter _ _ _ _ p Hp); [done|by rewrite Eg]).
  unfold allocproc, sbind at 1, sget in A. rewrite F' in A.
  match type of A with ?m k' = _ => assert (K : skept_some n m) end.
  { apply skept_some_bind; [unfold allocpid; kept; apply skept_modify; intros ? q Hq E; by exists q|]. intros pid. do 2 (apply skept_some_bind; [kept|intros _]).
    apply skept_some_bind; [kept|]. intros tf. apply skept_some_bind; [kept|]. intros _. destruct (tf =? 0); [apply skept_some_none|].
    apply skept_some_bind; [kept|]. intros pt. apply skept_some_bind; [kept|]. intros _. destruct (pt =? 0); [apply skept_some_none|].
    intros ?. split; [done|]. apply kf_refl. }
  specialize (K k'). rewrite A in K. destruct K as [-> K]. split; [done|]. by apply (K _ Hp').
Qed.
