(* ===== verification/ProcDemo.v ===== *)
(** * A life of two processes

    The machine of the file system's demonstration with 32 free pages: init is
    made by userinit, forks, waits, its child exits, and init collects it.  The
    witnesses of the theorems about processes are states of this run. *)
From S2P Require Import Prelude Str Bio Log Crash Machine Types Vm Codec Kmem Ld Balloc Inode Dir Demo Pipe File Sysfile Proc Exec Syscall Frame ProcSpec ProcFun.

Definition pd_k : kst :=
  let m := mkK demo_sb (replicate NINODE inode0) (replicate NFILE file0) ∅ ∅ 0 0x80021000 (replicate NPROC proc0) NPROC None 1 [] in
  match freerange 0x80022000 0x80042000 m with Ok _ k => k | _ => m end.
Definition pd_s : bstate := match Log.initlog ROOTDEV 2 45 (boot demo_disk 1) with Ok _ s => s | _ => boot demo_disk 1 end.
Definition pd_env : env := mkEnv 0x80020000 0 0 [] [].

Definition out {A} (σ : kst * bstate) (r : outcome (kst * bstate) A) : kst * bstate := match r with Ok _ σ' => σ' | Sleep _ σ' => σ' | _ => σ end.
Definition kdo {A} (m : stM kst A) (σ : kst * bstate) : kst * bstate := match m (fst σ) with Ok _ k => (k, snd σ) | _ => σ end.
(** User code of the process on the CPU puts a system call number in a7 and 0 in a0. *)
Definition user_call (num : Z) (k : kst) : pmem -> pmem :=
  let tf := p_trapframe (nth (k_cur k) (k_procs k) proc0) in fun m => pm_write (tf + 168) (le_enc 8 num) (pm_write (tf + 112) (le_enc 8 0) m).
Definition user (num : Z) (σ : kst * bstate) : kst * bstate := (set_mem (user_call num (fst σ)) (fst σ), snd σ).

Definition pd0 : kst * bstate := (pd_k, pd_s).
Definition pd1 := out pd0 (run hC (userinit 0x80020000) pd0).
Definition pd2 := kdo (sched_proc 0) (kdo sched_return pd1).
Definition pd3 := user 1 pd2.
Definition pd4 := out pd3 (run hC (syscall pd_env) pd3).
Definition pd5 := user 3 pd4.
Definition pd6 := out pd5 (run hC (syscall pd_env) pd5).
Definition pd7 := kdo (sched_proc 1) (kdo sched_return pd6).
Definition pd8 := user 2 pd7.
Definition pd9 := out pd8 (run hC (syscall pd_env) pd8).
Definition pd10 := kdo (sched_proc 0) (kdo sched_return pd9).
Definition pd11 := out pd10 (run hC (syscall pd_env) pd10).

(** ** Lemmas *)

Definition on_cpu (k : kst) : bool := bool_decide (p_state <$> k_procs k !! k_cur k = Some RUNNING).
Definition off_cpu (k : kst) : bool := forallb (fun p => negb (bool_decide (p_state p = RUNNING))) (k_procs k).

Lemma on_cpu_ok k : on_cpu k = true -> running k.
Proof.
  unfold on_cpu. rewrite bool_decide_eq_true. destruct (k_procs k !! k_cur k) as [p|] eqn:E; [|done]. cbn. intros [= H]. by exists p.
Qed.
Lemma off_cpu_ok k : off_cpu k = true -> idle k.
Proof.
  unfold off_cpu. rewrite forallb_forall. intros H i p Hp. apply list_elem_of_lookup_2, list_elem_of_In, H in Hp.
  by rewrite negb_true_iff, bool_decide_eq_false in Hp.
Qed.

Ltac compute_it := vm_compute; reflexivity.

(** Steps between named states, with conditions that evaluate. *)
Definition returned {A} (r : outcome (kst * bstate) A) : bool := match r with Ok _ _ => true | _ => false end.
Definition slept {A} (r : outcome (kst * bstate) A) : bool := match r with Sleep _ _ => true | _ => false end.
Definition pids_okb (k : kst) : bool := k_nextpid k <? 2 ^ 31 - 1.
Lemma pids_ok k : pids_okb k = true -> pids_left k.
Proof. unfold pids_okb, pids_left. lia. Qed.

Lemma boot_step t σ : bool_decide (k_initproc (fst σ) = None) && off_cpu (fst σ) && pids_okb (fst σ) && returned (run hC (userinit t) σ) = true ->
  kstep σ (out σ (run hC (userinit t) σ)).
Proof.
  rewrite !andb_true_iff, bool_decide_eq_true. intros (((E & I) & N) & R). destruct σ as [k s]. destruct (run hC (userinit t) (k, s)) as [[] [k' s']| | |] eqn:Er; try done.
  by apply (step_boot t); [|apply pids_ok|apply off_cpu_ok|].
Qed.

Lemma call_step e σ : on_cpu (fst σ) && pids_okb (fst σ) && returned (run hC (syscall e) σ) = true -> kstep σ (out σ (run hC (syscall e) σ)).
Proof.
  rewrite !andb_true_iff. intros ((I & N) & R). destruct σ as [k s]. destruct (run hC (syscall e) (k, s)) as [[] [k' s']| | |] eqn:Er; try done.
  by apply (step_call e); [apply on_cpu_ok|apply pids_ok|].
Qed.

Lemma off_step e σ : on_cpu (fst σ) && pids_okb (fst σ) && slept (run hC (syscall e) σ) && off_cpu (fst (out σ (run hC (syscall e) σ))) = true ->
  kstep σ (out σ (run hC (syscall e) σ)).
Proof.
  rewrite !andb_true_iff. intros (((I & N) & R) & F). destruct σ as [k s]. destruct (run hC (syscall e) (k, s)) as [|  |c [k' s']|] eqn:Er; try done.
  by apply (step_off e c); [apply on_cpu_ok|apply pids_ok| |apply off_cpu_ok].
Qed.

Lemma user_step n σ : on_cpu (fst σ) = true -> kstep σ (user n σ).
Proof. intros I. destruct σ as [k s]. by apply step_user, on_cpu_ok. Qed.

Lemma switch_step i σ : off_cpu (fst σ) && (match sched_proc i (set_cur NPROC (fst σ)) with Ok true _ => true | _ => false end) = true ->
  rtc kstep σ (kdo (sched_proc i) (kdo sched_return σ)).
Proof.
  rewrite andb_true_iff. intros [I E]. destruct σ as [k s]. change (kdo sched_return (k, s)) with (set_cur NPROC k, s). apply off_cpu_ok in I.
  apply (rtc_l _ _ (set_cur NPROC k, s)); [by apply step_return|]. apply rtc_once. unfold kdo. cbn [fst snd] in *.
  destruct (sched_proc i (set_cur NPROC k)) as [[] k'| | |] eqn:Ek; try done. by apply (step_sched i).
Qed.

Lemma pd_life : rtc kstep pd0 pd10.
Proof.
  apply (rtc_l _ _ pd1); [apply boot_step; compute_it|].
  transitivity pd2; [apply switch_step; compute_it|].
  apply (rtc_l _ _ pd3); [apply user_step; compute_it|].
  apply (rtc_l _ _ pd4); [apply call_step; compute_it|].
  apply (rtc_l _ _ pd5); [apply user_step; compute_it|].
  apply (rtc_l _ _ pd6); [apply off_step; compute_it|].
  transitivity pd7; [apply switch_step; compute_it|].
  apply (rtc_l _ _ pd8); [apply user_step; compute_it|].
  apply (rtc_l _ _ pd9); [apply off_step; compute_it|].
  apply switch_step; compute_it.
Qed.

Lemma pd_ok : ptable_ok (fst pd10).
Proof.
  assert (I : inv (fst pd0)) by (apply pboot_inv; compute_it). destruct (reach_inv _ _ pd_life I) as [(H & _)|(H & _)]; exact H.
Qed.

(** ** Witnesses *)

Lemma procs_invariant_witness : ptable_ok (fst pd10) /\ nolost (fst pd10) /\ (running (fst pd10) \/ idle (fst pd10)).
Proof.
  apply (procs_invariant (fst pd0) (snd pd0) (fst pd10) (snd pd10)); [vm_compute; reflexivity..|]. rewrite <- !surjective_pairing. exact pd_life.
Defined.

Lemma exit_finish_correct_witness : exists k', exit_finish 7 (fst pd8) = Ok tt k' /\ map p_state (take 2 (k_procs k')) = [RUNNABLE; ZOMBIE].
Proof.
  eexists. split; [apply (exit_finish_correct 7 (fst pd8) (nth 1 (k_procs (fst pd8)) proc0)); [vm_compute; reflexivity..|vm_compute; discriminate]|].
  vm_compute. reflexivity.
Defined.

Lemma wait_correct_witness : exists k', wait 0 (fst pd10) = Ok (Some 2) k' /\ st_of k' 1 = UNUSED.
Proof.
  rewrite (wait_correct 0 (fst pd10) (nth 0 (k_procs (fst pd10)) proc0)) by (vm_compute; reflexivity).
  eexists. split; vm_compute; reflexivity.
Defined.

Lemma kill_correct_witness : ptable_ok (fst pd10) /\ exists k', kill 1 (fst pd10) = Ok 0 k'.
Proof.
  split; [exact pd_ok|]. destruct (kill_correct 1 (fst pd10) pd_ok ltac:(lia)) as [(i & p & _ & _ & _ & _ & E)|[_ E]]; [eexists; exact E|].
  vm_compute in E. discriminate E.
Defined.

Lemma kill_zero_marks_unused_witness : exists k', kill 0 (fst pd10) = Ok 0 k' /\ st_of k' 2 = UNUSED.
Proof.
  destruct (kill_zero_marks_unused (fst pd10) 2 pd_ok ltac:(vm_compute; reflexivity)) as (k' & E & U & _). exists k'. split; [exact E|exact U].
Defined.
