(* ===== verification/Shape.v ===== *)
(** * The types of the kernel's tables (kernel/param.h, kernel/proc.h, kernel/file.h)

    C's arrays have their size in their type; here they are lists.  [shaped]
    is the missing part of those types: the tables of inodes, of files and of
    processes have the lengths of param.h, and so have a process's file
    descriptors and its name, which is moreover a C string (fork, exec and
    userinit write it with safestrcpy, freeproc clears its first byte).  Every
    system call, sleep, wakeup and switch preserves it. *)
From S2P Require Import Prelude Str Bio Log Crash Machine Types Vm Codec Ld Balloc Inode Dir Pipe File Sysfile Proc Exec Syscall Frame ProcSpec ProcDemo.

(** ** Definitions *)

Definition proc_shaped (p : proc) : Prop :=
  length (p_ofile p) = NOFILE /\ length (p_name p) = 16%nat /\ In 0 (p_name p).

Record shaped (k : kst) : Prop := {
  sh_itable : length (k_itable k) = NINODE;
  sh_ftable : length (k_ftable k) = NFILE;
  sh_procs : length (k_procs k) = NPROC;
  sh_proc : Forall proc_shaped (k_procs k)
}.

Definition sized (k k' : kst) : Prop := shaped k -> shaped k'.

(** ** Lemmas: names *)

Lemma safestrcpy_fits n t : (length (safestrcpy_loop n t) <= S n)%nat /\ In 0 (safestrcpy_loop n t).
Proof.
  revert t. induction n as [|n IH]; intros t; cbn [safestrcpy_loop]; [split; [done|by left]|].
  destruct (_ =? _); [split; [cbn; lia|by left]|]. destruct (IH (tail t)). split; [cbn; lia|by right].
Qed.

Lemma name_shaped t p : proc_shaped p -> proc_shaped (p_set_name (splice 0 (safestrcpy t 16) (p_name p)) p).
Proof.
  intros (Ho & Hn & _). destruct (safestrcpy_fits 15 t) as [Hl Hz]. split; [exact Ho|]. cbn [p_name p_set_name].
  change (safestrcpy t 16) with (safestrcpy_loop 15 t). split.
  - rewrite length_splice; unfold zlen; lia.
  - unfold splice. rewrite in_app_iff, in_app_iff. auto.
Qed.

Lemma cleared_shaped p : proc_shaped p -> proc_shaped (p_set_name (setb 0 0 (p_name p)) p).
Proof.
  intros (Ho & Hn & _). split; [exact Ho|]. cbn [p_name p_set_name]. destruct (p_name p) as [|b l]; [done|]. split; [exact Hn|by left].
Qed.

(** ** Lemmas: updates *)

Lemma shaped_procs f k : (forall l, length (f l) = length l) -> (forall l, Forall proc_shaped l -> Forall proc_shaped (f l)) -> sized k (set_procs f k).
Proof. intros L F [H1 H2 H3 H4]. split; [exact H1|exact H2| |apply F, H4]. cbn [k_procs set_procs]. by rewrite L. Qed.

Lemma shaped_alter g i k : (forall p, proc_shaped p -> proc_shaped (g p)) -> sized k (set_procs (alter g i) k).
Proof.
  intros H. apply shaped_procs; [intros; apply length_alter|]. intros l F. apply Forall_alter; [exact F|]. intros p Hp Q. by apply H.
Qed.

Lemma shaped_wakeup c : skept sized (wakeup c).
Proof.
  intros k. cbn. apply shaped_procs; [intros; apply length_imap|]. intros l F. apply Forall_lookup. intros i p E.
  rewrite list_lookup_imap in E. destruct (l !! i) as [q|] eqn:Q; [|done]. cbn in E. apply (Forall_lookup_1 _ _ _ _ F) in Q.
  injection E as <-. by destruct (_ && _ && _).
Qed.

#[export] Instance sized_frame : KFrame sized.
Proof.
  split; try (intros; intros []; split; assumption).
  - intros k1 k2 k3 H1 H2 H. auto.
  - intros f k L [H1 H2 H3 H4]. split; try assumption. cbn [k_itable set_itable]. by rewrite L.
  - intros f k L [H1 H2 H3 H4]. split; try assumption. cbn [k_ftable set_ftable]. by rewrite L.
  - apply shaped_wakeup.
  - intros g i k L. apply shaped_alter. intros p (H1 & H2 & H3). split; [|by split]. cbn [p_ofile p_set_ofile]. by rewrite L.
  - intros c i k. apply shaped_alter. intros p H. exact H.
Qed.

Lemma sized_modp i g : (forall p, proc_shaped p -> proc_shaped (g p)) -> skept sized (modp i g).
Proof. intros H. apply skept_modify. intros k. by apply shaped_alter. Qed.
Lemma sized_modproc g : (forall p, proc_shaped p -> proc_shaped (g p)) -> kept sized (modproc g).
Proof. intros H. unfold modproc. kept. by apply shaped_alter. Qed.

Ltac field_kept := intros ? H; first [exact H|by apply name_shaped|by apply cleared_shaped].
#[export] Hint Extern 1 (skept sized (modp _ _)) => (apply sized_modp; field_kept) : kept.
#[export] Hint Extern 1 (kept sized (modproc _)) => (apply sized_modproc; field_kept) : kept.

(** ** Lemmas: processes *)

Lemma sized_cpu f : (forall k, k_itable (f k) = k_itable k /\ k_ftable (f k) = k_ftable k /\ k_procs (f k) = k_procs k) -> skept sized (smodify f).
Proof. intros H. apply skept_modify. intros k [H1 H2 H3 H4]. destruct (H k) as (E1 & E2 & E3). split; rewrite ?E1, ?E2, ?E3; assumption. Qed.

Lemma sized_freeproc i : skept sized (freeproc i).
Proof. unfold freeproc. kept. Qed.
Lemma sized_allocpid : skept sized allocpid.
Proof. unfold allocpid. kept. intros []; split; assumption. Qed.
#[export] Hint Resolve sized_freeproc sized_allocpid : kept.
Lemma sized_allocproc t : skept sized (allocproc t).
Proof. unfold allocproc. kept. Qed.
Lemma sized_copy_trapframe d s : skept sized (copy_trapframe d s).
Proof.
  intros k. unfold copy_trapframe. exact (skept_bind sized (smodify _) _ (fun k' => kf_mem _ k') (fun _ => skept_stm64 sized (d + 112) 0) k).
Qed.
#[export] Hint Resolve sized_allocproc sized_copy_trapframe : kept.

Lemma sized_growproc n : skept sized (growproc n).
Proof. unfold growproc. kept. Qed.
Lemma sized_kill pid : skept sized (kill pid).
Proof. unfold kill. kept. apply sized_modp. intros p H. by case_bool_decide. Qed.
#[export] Hint Resolve sized_growproc sized_kill : kept.
Lemma sized_fork t : kept sized (fork t).
Proof. unfold fork. kept; unfold modp; kept. Qed.
Lemma sized_reparent i : skept sized (reparent i).
Proof. unfold reparent. kept. Qed.
#[export] Hint Resolve sized_reparent : kept.
Lemma sized_exit status : kept sized (exit status).
Proof. unfold exit, exit_finish. kept. Qed.
Lemma sized_wait addr : skept sized (wait addr).
Proof.
  assert (W : forall js i h, skept sized (wait_scan js i addr h)) by (induction js as [|j js IH]; intros; cbn [wait_scan]; kept).
  unfold wait, sleep. kept.
Qed.
Lemma sized_exec t path argv : kept sized (exec t path argv).
Proof. unfold exec, exec_commit. kept. Qed.
#[export] Hint Resolve sized_fork sized_exit sized_wait sized_exec : kept.
Lemma sized_userinit t : kept sized (userinit t).
Proof. unfold userinit. kept. intros []; split; assumption. Qed.

Lemma sized_syscalls e num f : syscalls e num = Some f -> kept sized f.
Proof.
  intros E. destruct (is_proc_call num) eqn:B; [|by apply (kept_syscalls sized e num)].
  unfold is_proc_call in B. cbn [existsb] in B. rewrite !orb_true_iff, !Z.eqb_eq in B.
  destruct B as [->|[->|[->|[->|[->|[->|]]]]]]; [..|done]; injection E as <-.
  - apply sized_fork.
  - unfold sys_exit. kept.
  - unfold sys_wait. kept.
  - unfold sys_kill. kept.
  - unfold sys_exec. kept.
  - unfold sys_sbrk. kept.
Qed.

Lemma sized_syscall e : kept sized (syscall e).
Proof.
  unfold syscall. do 2 (apply kept_bind; [exact _|kept|intro]).
  destruct (syscalls e (s32 _)) as [f|] eqn:E; [|kept]. pose proof (sized_syscalls _ _ _ E). kept.
Qed.

(** ** Lemmas: steps *)

Lemma run_sized {A} (p : prog kst A) k s : kept sized p ->
  match run hC p (k, s) with Ok _ (k', _) | Sleep _ (k', _) => sized k k' | _ => True end.
Proof. intros H. pose proof (kwp_run (@hC kst) _ p k s khandler_C (H k)) as Q. by destruct (run hC p (k, s)) as [? []| |? []|]. Qed.

Lemma step_sized {A} (m : stM kst A) a k k' : skept sized m -> m k = Ok a k' -> sized k k'.
Proof. intros H E. specialize (H k). by rewrite E in H. Qed.

Lemma kstep_sized σ σ' : kstep σ σ' -> sized (fst σ) (fst σ').
Proof.
  intros [t k s k' s' _ _ _ E|f k s _|e k s k' s' _ _ E|e c chan k s k1 s' k' _ _ E _ _ E1|e c k s k' s' _ _ E _|k s k' _ E|k s k' _ E|chan k s k' E|k s k' _ E|i k s k' _ E]; cbn [fst].
  - pose proof (run_sized _ k s (sized_userinit t)) as Q. by rewrite E in Q.
  - apply kf_mem.
  - pose proof (run_sized _ k s (sized_syscall e)) as Q. by rewrite E in Q.
  - pose proof (run_sized _ k s (sized_syscall e)) as Q. rewrite E in Q. apply (kf_trans _ k1); [exact Q|].
    apply (step_sized (sleep chan) tt); [unfold sleep; kept|done].
  - pose proof (run_sized _ k s (sized_syscall e)) as Q. by rewrite E in Q.
  - apply (step_sized yield tt); [unfold yield; kept|done].
  - apply (step_sized sleep_return tt); [unfold sleep_return; kept|done].
  - apply (step_sized (wakeup chan) tt); [apply shaped_wakeup|done].
  - apply (step_sized sched_return tt); [by apply sized_cpu|done].
  - apply (step_sized (sched_proc i) true); [|done]. unfold sched_proc. kept. intros []; split; assumption.
Qed.

(** ** Theorem *)


