(* ===== verification/Ulib.v ===== *)
(** * The user library (user/ulib.c)

    Strings are byte lists whose end reads as NUL, as in Str.v; [char] is
    unsigned on RISC-V.  [gets] reads from a terminal that holds [input] and
    then reports the end of the file. *)
From S2P Require Import Prelude Str.

(** The bytes strcpy stores, with the NUL. *)
Fixpoint strcpy (t : bytes) : bytes :=
  match t with
  | [] => [0]
  | c :: t => if c =? 0 then [0] else c :: strcpy t
  end.

Fixpoint strcmp (p q : bytes) : Z :=
  match p with
  | [] => 0 - getb 0 q
  | c :: p => if negb (c =? 0) && (c =? getb 0 q) then strcmp p (tail q) else c - getb 0 q
  end.

(** What precedes the character and what starts at it. *)
Fixpoint strchr (s : bytes) (c : Z) : option (bytes * bytes) :=
  match s with
  | [] => None
  | x :: s' =>
      if x =? 0 then None
      else if x =? c then Some ([], s)
      else match strchr s' c with Some (a, b) => Some (x :: a, b) | None => None end
  end.

(** The buffer up to the NUL, and the input that is left. *)
Fixpoint gets_loop (n : nat) (input : bytes) : bytes * bytes :=
  match n, input with
  | O, _ | _, [] => ([], input)
  | S n, c :: input =>
      if (c =? 10) || (c =? 13) then ([c], input)
      else let '(l, rest) := gets_loop n input in (c :: l, rest)
  end.
Definition gets (max : Z) (input : bytes) : bytes * bytes :=
  let '(l, rest) := gets_loop (Z.to_nat (max - 1)) input in (l ++ [0], rest).

(** [int n], so the value wraps. *)
Fixpoint atoi_loop (n : Z) (s : bytes) : Z :=
  match s with
  | [] => n
  | c :: s => if (48 <=? c) && (c <=? 57) then atoi_loop (s32 (n * 10 + c - 48)) s else n
  end.
Definition atoi (s : bytes) : Z := atoi_loop 0 s.

(** memmove inside one array, with the test of this library. *)
Definition umemmove (mem : bytes) (vdst vsrc n : Z) : bytes :=
  if vdst <? vsrc then move_up mem vdst vsrc (Z.to_nat n) else move_down mem (vdst + n) (vsrc + n) (Z.to_nat n).

(** ** Lemmas *)

Lemma strchr_some s c a b : strchr s c = Some (a, b) -> s = a ++ b /\ c ∉ a /\ 0 ∉ a /\ exists b', b = c :: b'.
Proof.
  revert a b. induction s as [|x s IH]; intros a b; cbn [strchr]; [done|]. destruct (Z.eqb_spec x 0) as [|N]; [done|].
  destruct (Z.eqb_spec x c) as [->|Nc].
  - intros [= <- <-]. split; [done|]. split; [apply not_elem_of_nil|]. split; [apply not_elem_of_nil|]. by exists s.
  - destruct (strchr s c) as [[a' b']|]; [|done]. intros [= <- <-]. destruct (IH a' b' eq_refl) as (-> & H1 & H2 & H3).
    rewrite !not_elem_of_cons. auto.
Qed.

Lemma strchr_app a c b : c <> 0 -> c ∉ a -> 0 ∉ a -> strchr (a ++ c :: b) c = Some (a, c :: b).
Proof.
  intros Nc. induction a as [|x a IH]; intros H1 H2; cbn [strchr app].
  - destruct (Z.eqb_spec c 0); [done|]. by rewrite Z.eqb_refl.
  - rewrite not_elem_of_cons in H1, H2. destruct (Z.eqb_spec x 0); [naive_solver|]. destruct (Z.eqb_spec x c); [naive_solver|].
    rewrite IH by naive_solver. done.
Qed.

Lemma strchr_none s c : c ∉ s -> strchr s c = None.
Proof.
  induction s as [|x s IH]; cbn [strchr]; [done|]. rewrite not_elem_of_cons. intros [H1 H2]. destruct (x =? 0); [done|].
  destruct (Z.eqb_spec x c); [done|]. by rewrite IH.
Qed.

(** Moving a block inside an array, whichever way the loop runs. *)
Lemma umemmove_eq mem d s n : 0 <= d -> 0 <= s -> 0 <= n -> d + n <= zlen mem -> s + n <= zlen mem ->
  umemmove mem d s n = splice d (sub s n mem) mem.
Proof.
  intros Hd Hs Hn H1 H2. assert (Hl : zlen (sub s n mem) = n) by (unfold zlen; rewrite length_sub; lia).
  apply list_eq_nth.
  - rewrite length_splice by lia. unfold umemmove. destruct (d <? s); [apply length_move_up|apply length_move_down].
  - intros j. rewrite nth_splice by lia. unfold umemmove. destruct (Z.ltb_spec d s).
    + rewrite nth_move_up by lia. replace (length (sub s n mem)) with (Z.to_nat n) by (unfold zlen in Hl; lia). case_decide; [|done].
      rewrite nth_sub by lia. done.
    + rewrite nth_move_down by lia. replace (length (sub s n mem)) with (Z.to_nat n) by (unfold zlen in Hl; lia).
      destruct (decide (Z.to_nat (d + n) - Z.to_nat n <= j < Z.to_nat (d + n))%nat), (decide (Z.to_nat d <= j < Z.to_nat d + Z.to_nat n)%nat); try lia.
      rewrite nth_sub by lia. f_equal. lia.
Qed.
