(* ===== verification/Grep.v ===== *)
(** * grep (user/grep.c)

    Patterns and texts are C strings: the bytes before the NUL.  The matcher
    of the source is compared with the language a pattern denotes, and the
    loop that reads a file in pieces with the lines of the file. *)
From S2P Require Import Prelude Str Ulib.

Notation CARET := 94 (only parsing).
Notation DOT := 46 (only parsing).
Notation STAR := 42 (only parsing).
Notation DOLLAR := 36 (only parsing).
Notation NL := 10 (only parsing).

(** matchstar calls matchhere on a shorter pattern for each suffix of the text. *)
Section Matchstar.
  Context (matchhere : bytes -> bool).
Fixpoint matchstar (c : Z) (text : bytes) : bool :=
  matchhere text ||
  match text with
  | [] => false
  | t :: text => if (t =? c) || (c =? DOT) then matchstar c text else false
  end.
End Matchstar.

Fixpoint matchhere (re text : bytes) : bool :=
  match re with
  | [] => true
  | c :: re1 =>
      match re1 with
      | d :: re2 =>
          if d =? STAR then matchstar (matchhere re2) c text
          else match text with
               | t :: text => if (c =? DOT) || (c =? t) then matchhere re1 text else false
               | [] => false
               end
      | [] =>
          if c =? DOLLAR then match text with [] => true | _ => false end
          else match text with
               | t :: text => if (c =? DOT) || (c =? t) then matchhere re1 text else false
               | [] => false
               end
      end
  end.

(** The do-while over the suffixes of the text. *)
Fixpoint match_any (re text : bytes) : bool :=
  matchhere re text || match text with [] => false | _ :: text => match_any re text end.
Definition match_ (re text : bytes) : bool :=
  match re with
  | c :: re' => if c =? CARET then matchhere re' text else match_any re text
  | [] => match_any re text
  end.

(** The inner loop of grep on [p], the part of the buffer from [p] on: the
    lines written, and the rest. *)
Fixpoint grep_lines (fuel : nat) (pattern p : bytes) : bytes * bytes :=
  match fuel with
  | O => ([], p)
  | S fuel =>
      match strchr p NL with
      | None => ([], p)
      | Some (line, q) =>
          let '(out, rest) := grep_lines fuel pattern (tail q) in
          ((if match_ pattern line then line ++ [NL] else []) ++ out, rest)
      end
  end.

(** grep on a file that holds [input].  [sizes] are the numbers of bytes the
    successive reads return, as far as the buffer and the file allow: a file
    gives all it can, a pipe or a terminal may give less.  [m] bytes are in the
    buffer.  The result is what is written and the input that was not read. *)
Fixpoint grep (sizes : list nat) (pattern buf input : bytes) : bytes * bytes :=
  match sizes with
  | [] => ([], input)
  | n :: sizes =>
      let n := Nat.min (Nat.min n (1023 - length buf)) (length input) in
      if Nat.eqb n 0 then ([], input)
      else
        let buf := buf ++ take n input in
        let '(out, rest) := grep_lines (length buf) pattern buf in
        let '(out', unread) := grep sizes pattern rest (drop n input) in
        (out ++ out', unread)
  end.

(** ** The language of a pattern *)

Inductive item := One (c : Z) | Many (c : Z) | AtEnd.

Fixpoint items (re : bytes) : list item :=
  match re with
  | [] => []
  | c :: re1 =>
      match re1 with
      | d :: re2 => if d =? STAR then Many c :: items re2 else One c :: items re1
      | [] => if c =? DOLLAR then [AtEnd] else [One c]
      end
  end.

(** A character of the pattern allows a character of the text. *)
Definition allows (c t : Z) : Prop := c = DOT \/ c = t.

(** [denotes p s rest]: the items match [s] when [rest] follows. *)
Inductive denotes : list item -> bytes -> bytes -> Prop :=
| den_nil rest : denotes [] [] rest
| den_one c t p s rest : allows c t -> denotes p s rest -> denotes (One c :: p) (t :: s) rest
| den_many c ts p s rest : Forall (allows c) ts -> denotes p s rest -> denotes (Many c :: p) (ts ++ s) rest
| den_end : denotes [AtEnd] [] [].

(** The lines of a file, without their newlines; a last piece without a
    newline is not one. *)
Fixpoint lines (l : bytes) : list bytes :=
  match l with
  | [] => []
  | c :: l => if c =? NL then [] :: lines l else match lines l with [] => [] | x :: xs => (c :: x) :: xs end
  end.

(** ** Lemmas *)

Lemma allows_test c t : (c =? DOT) || (c =? t) = true <-> allows c t.
Proof. unfold allows. rewrite orb_true_iff, !Z.eqb_eq. done. Qed.

(** matchstar: some number of allowed characters, then the rest of the pattern. *)
Lemma matchstar_spec (f : bytes -> bool) c text :
  matchstar f c text = true <-> exists ts rest, text = ts ++ rest /\ Forall (allows c) ts /\ f rest = true.
Proof.
  induction text as [|t text IH]; cbn [matchstar]; rewrite orb_true_iff.
  - split; [intros [H|H]; [by exists [], []|done]|]. intros (ts & rest & E & _ & H). destruct ts, rest; try done. by left.
  - replace ((t =? c) || (c =? DOT)) with ((c =? DOT) || (c =? t)) by (rewrite orb_comm, (Z.eqb_sym t c); done). split.
    + intros [H|H]; [by exists [], (t :: text)|]. destruct (_ || _) eqn:A; [|done]. apply allows_test in A. apply IH in H as (ts & rest & -> & F & H).
      exists (t :: ts), rest. split; [done|]. split; [by constructor|done].
    + intros (ts & rest & E & F & H). destruct ts as [|t' ts]; [left; by rewrite E|]. injection E as <- ->. inversion F; subst. right.
      apply allows_test in H2. rewrite H2. apply IH. by exists ts, rest.
Qed.

Lemma denotes_many c p s rest : denotes (Many c :: p) s rest <-> exists ts s', s = ts ++ s' /\ Forall (allows c) ts /\ denotes p s' rest.
Proof. split; [intros H; inversion H; subst; eauto|]. intros (ts & s' & -> & F & H). by constructor. Qed.
Lemma denotes_one c p s rest : denotes (One c :: p) s rest <-> exists t s', s = t :: s' /\ allows c t /\ denotes p s' rest.
Proof. split; [intros H; inversion H; subst; eauto|]. intros (t & s' & -> & A & H). by constructor. Qed.

(** A text that starts with what the items match. *)
Definition begins (p : list item) (text : bytes) : Prop := exists s rest, text = s ++ rest /\ denotes p s rest.

Lemma begins_one c p text : begins (One c :: p) text <-> exists t text', text = t :: text' /\ allows c t /\ begins p text'.
Proof.
  split.
  - intros (s & rest & -> & (t & s' & -> & A & H)%denotes_one). exists t, (s' ++ rest). split; [done|]. split; [done|]. by exists s', rest.
  - intros (t & text' & -> & A & s & rest & -> & H). exists (t :: s), rest. split; [done|]. by constructor.
Qed.
Lemma begins_many c p text : begins (Many c :: p) text <-> exists ts rest, text = ts ++ rest /\ Forall (allows c) ts /\ begins p rest.
Proof.
  split.
  - intros (s & rest & -> & (ts & s' & -> & F & H)%denotes_many). exists ts, (s' ++ rest). rewrite app_assoc. split; [done|]. split; [done|]. by exists s', rest.
  - intros (ts & r & -> & F & s & rest & -> & H). exists (ts ++ s), rest. rewrite app_assoc. split; [done|]. by constructor.
Qed.

(** One pattern character against the text. *)
Lemma one_spec c p text (f : bytes -> bool) : (forall t, f t = true <-> begins p t) ->
  match text with t :: text => if (c =? DOT) || (c =? t) then f text else false | [] => false end = true <-> begins (One c :: p) text.
Proof.
  intros Hf. rewrite begins_one. destruct text as [|t text].
  - split; [done|]. by intros (? & ? & ? & _).
  - destruct (_ || _) eqn:A.
    + apply allows_test in A. rewrite Hf. split; [eauto|]. by intros (? & ? & [= <- <-] & _ & H).
    + split; [done|]. intros (? & ? & [= <- <-] & H & _). apply allows_test in H. congruence.
Qed.

Lemma matchhere_spec re text : matchhere re text = true <-> begins (items re) text.
Proof.
  revert text. induction re as [re IH] using (well_founded_induction (well_founded_ltof _ (@length Z))). unfold ltof in IH. intros text.
  destruct re as [|c [|d re2]]; cbn [matchhere items].
  - split; [|done]. exists [], text. by split; [|constructor].
  - destruct (c =? DOLLAR).
    + destruct text; split; try done; [exists [], []; by split; [|constructor]|]. intros (s & rest & E & H). inversion H; subst. done.
    + apply (one_spec c [] text (fun _ => true)). intros t. split; [|done]. exists [], t. by split; [|constructor].
  - destruct (d =? STAR).
    + rewrite matchstar_spec, begins_many. by setoid_rewrite (IH re2 ltac:(cbn; lia)).
    + apply (one_spec c (items (d :: re2)) text (matchhere (d :: re2))). apply IH. cbn. lia.
Qed.

Lemma match_any_spec re text : match_any re text = true <-> exists pre t, text = pre ++ t /\ matchhere re t = true.
Proof.
  induction text as [|c text IH]; cbn [match_any]; rewrite orb_true_iff.
  - split; [intros [H|H]; [by exists [], []|done]|]. intros (pre & t & E & H). destruct pre, t; try done. by left.
  - rewrite IH. split.
    + intros [H|(pre & t & -> & H)]; [by exists [], (c :: text)|by exists (c :: pre), t].
    + intros (pre & t & E & H). destruct pre as [|x pre]; [left; by rewrite E|]. injection E as <- ->. right. eauto.
Qed.

(** The matcher decides the language of the pattern: match returns true
    exactly if some stretch of the text (for a pattern that starts with a caret:
    a beginning of the text) is a word of the pattern, in which a dot allows
    every character, a star repeats the character before it, and a final dollar
    needs the end of the text. *)
Theorem match_correct re text :
  match_ re text = true <->
  match re with
  | 94 :: re' => exists s rest, text = s ++ rest /\ denotes (items re') s rest
  | _ => exists pre s rest, text = pre ++ s ++ rest /\ denotes (items re) s rest
  end.
Proof.
  assert (A : forall re, match_any re text = true <-> exists pre s rest, text = pre ++ s ++ rest /\ denotes (items re) s rest).
  { intros r. rewrite match_any_spec. split.
    - intros (pre & t & -> & (s & rest & -> & H)%matchhere_spec). eauto 10.
    - intros (pre & s & rest & -> & H). exists pre, (s ++ rest). split; [done|]. apply matchhere_spec. by exists s, rest. }
  unfold match_. destruct re as [|c re']; [apply A|]. destruct (Z.eqb_spec c CARET) as [->|N]; [apply matchhere_spec|].
  rewrite A. destruct c as [|q|q]; try done. repeat (destruct q as [q|q|]; try done).
Qed.

(** ** The loop over the file *)

(** The matching lines, as written. *)
Definition select (pattern : bytes) (ls : list bytes) : bytes := concat (map (fun l => l ++ [NL]) (filter (fun l => match_ pattern l = true) ls)).

Lemma select_app pat l1 l2 : select pat (l1 ++ l2) = select pat l1 ++ select pat l2.
Proof. unfold select. by rewrite filter_app, map_app, concat_app. Qed.
Lemma select_cons pat l ls : select pat (l :: ls) = (if match_ pat l then l ++ [NL] else []) ++ select pat ls.
Proof. unfold select. rewrite filter_cons. destruct (match_ pat l); done. Qed.

Lemma lines_none l : NL ∉ l -> lines l = [].
Proof.
  induction l as [|c l IH]; cbn [lines]; [done|]. rewrite not_elem_of_cons. intros [H1 H2]. destruct (Z.eqb_spec c NL); [done|]. by rewrite IH.
Qed.
Lemma lines_line a l : NL ∉ a -> lines (a ++ NL :: l) = a :: lines l.
Proof.
  induction a as [|c a IH]; cbn [lines app]; [done|]. rewrite not_elem_of_cons. intros [H1 H2]. destruct (Z.eqb_spec c NL); [done|]. by rewrite IH.
Qed.

(** The inner loop takes the complete lines off the buffer. *)
Lemma grep_lines_spec fuel pat p : 0 ∉ p -> (length p <= fuel)%nat ->
  exists rest, grep_lines fuel pat p = (select pat (lines p), rest) /\ NL ∉ rest /\ (exists pre, p = pre ++ rest) /\
    forall x, lines (p ++ x) = lines p ++ lines (rest ++ x).
Proof.
  revert p. induction fuel as [|fuel IH]; intros p Hz Hf.
  { destruct p; [|cbn in Hf; lia]. exists []. split; [done|]. split; [apply not_elem_of_nil|]. split; [by exists []|done]. }
  cbn [grep_lines]. destruct (strchr p NL) as [[a q]|] eqn:E.
  - destruct (strchr_some _ _ _ _ E) as (-> & H1 & _ & q' & ->). cbn [tail].
    destruct (IH q') as (rest & -> & Hr & (pre & Hp) & Hl).
    + intros H. apply Hz. rewrite !elem_of_app, elem_of_cons. auto.
    + rewrite length_app in Hf. cbn in Hf. lia.
    + exists rest. rewrite lines_line, select_cons by done. split; [done|]. split; [done|]. split; [exists (a ++ NL :: pre); by rewrite <- app_assoc, Hp|].
      intros x. rewrite <- app_assoc. cbn. rewrite lines_line by done. by rewrite Hl.
  - exists p. assert (N : NL ∉ p).
    { intros (a & b & -> & Ha)%list_elem_of_split_l. rewrite strchr_app in E; [done|done|done|]. intros H. apply Hz. rewrite elem_of_app. by left. }
    rewrite lines_none by done. split; [done|]. split; [done|]. split; [by exists []|done].
Qed.

(** Every stretch without a newline fits in the buffer. *)
Definition short_lines (l : bytes) : Prop := forall a s b, l = a ++ s ++ b -> NL ∉ s -> (length s <= 1022)%nat.

Lemma short_suffix a l : short_lines (a ++ l) -> short_lines l.
Proof. intros H x s b -> Hs. apply (H (a ++ x) s b); [by rewrite !app_assoc|done]. Qed.

Lemma grep_run pat sizes buf input : NL ∉ buf -> 0 ∉ buf ++ input -> short_lines (buf ++ input) ->
  Forall (fun n => 1 <= n)%nat sizes -> (length input < length sizes)%nat ->
  grep sizes pat buf input = (select pat (lines (buf ++ input)), []).
Proof.
  revert buf input. induction sizes as [|n sizes IH]; intros buf input Hb Hz Hs F Hl; [cbn in Hl; lia|]. inversion F as [|? ? Hn F']; subst.
  cbn [grep]. assert (Lb : (length buf <= 1022)%nat) by (by apply (Hs [] buf input)).
  set (m := Nat.min (Nat.min n (1023 - length buf)) (length input)). destruct (Nat.eqb_spec m 0) as [E|E].
  - assert (input = []) as -> by (destruct input; [done|exfalso; unfold m in E; cbn in E; lia]). by rewrite app_nil_r, lines_none.
  - assert (Ei : buf ++ input = (buf ++ take m input) ++ drop m input) by (by rewrite <- app_assoc, take_drop).
    destruct (grep_lines_spec (length (buf ++ take m input)) pat (buf ++ take m input)) as (rest & -> & Hr & (pre & Hp) & Hx); [|done|].
    { intros H. apply Hz. rewrite Ei, elem_of_app. by left. }
    rewrite IH; [|done| | |done|].
    + by rewrite Ei, Hx, select_app.
    + intros H. apply Hz. rewrite Ei, Hp, <- app_assoc, elem_of_app. by right.
    + apply (short_suffix pre). by rewrite app_assoc, <- Hp, <- Ei.
    + rewrite length_drop. cbn in Hl. unfold m in *. lia.
Qed.


(** A longer line ends the run: grep fills the buffer, asks for 0 bytes and
    takes the answer for the end of the file; the rest is never read. *)
Theorem grep_long_line_stops pattern sizes line rest :
  length line = 1023%nat -> NL ∉ line ->
  grep (1023%nat :: sizes) pattern [] (line ++ rest) = ([], rest).
Proof.
  intros Hl Hn. cbn [grep]. change (length (@nil Z)) with 0%nat.
  replace (Nat.min (Nat.min 1023 (1023 - 0)) (length (line ++ rest))) with 1023%nat by (rewrite length_app; lia). cbn [Nat.eqb app].
  rewrite take_app_length', drop_app_length' by done.
  assert (E : forall fuel, grep_lines fuel pattern line = ([], line)) by (intros [|f]; cbn [grep_lines]; [done|by rewrite strchr_none]).
  rewrite E. destruct sizes as [|n sizes]; cbn [grep]; [done|]. rewrite Hl. replace (Nat.min (Nat.min n (1023 - 1023)) (length rest)) with 0%nat by lia. done.
Qed.

