(* ===== verification/Sh.v ===== *)
(** * The shell's parser (user/sh.c)

    The command line is a buffer; parsed commands point into it, and
    nulterminate then cuts the strings out by writing NULs.  The parser's
    state is the text from [*ps] to [es]; a pointer is a position in the
    buffer, [es] minus the length of the text from it on.  malloc is taken to
    succeed.  The recursive descent has fuel; four calls can happen per
    character. *)
From S2P Require Import Prelude Str Ulib.
Local Open Scope st_scope.

Notation MAXARGS := 10%nat (only parsing).
(** O_RDONLY, O_WRONLY | O_CREATE | O_TRUNC and O_WRONLY | O_CREATE | O_APPEND
    of fcntl.h. *)
Notation MODE_IN := 0 (only parsing).
Notation MODE_OUT := 0x601 (only parsing).
Notation MODE_APP := 0x1201 (only parsing).

(** struct execcmd .. backcmd.  A string is the pair of its start and its end;
    execcmd's array ends at the null pointer. *)
Notation span := (nat * nat)%type (only parsing).
Inductive cmd :=
| EXEC (argv : list span)
| REDIR (c : cmd) (file : span) (mode fd : Z)
| PIPE (l r : cmd)
| LIST (l r : cmd)
| BACK (c : cmd).

Definition whitespace : bytes := [32; 9; 13; 10; 11].
Definition symbols : bytes := [60; 124; 62; 38; 59; 40; 41].
(** [strchr(set, c)] as a condition. *)
Definition among (set : bytes) (c : Z) : bool := match strchr set c with Some _ => true | None => false end.

Fixpoint skip_ws (s : bytes) : bytes :=
  match s with c :: t => if among whitespace c then skip_ws t else s | [] => [] end.
Fixpoint skip_word (s : bytes) : bytes :=
  match s with c :: t => if negb (among whitespace c) && negb (among symbols c) then skip_word t else s | [] => [] end.

Section Parser.
  Context (es : nat).
Definition pos (s : bytes) : nat := (es - length s)%nat.

Definition gettoken : stM bytes (Z * span) := fun s =>
  let q := skip_ws s in
  let '(ret, e) :=
    match q with
    | [] => (0, q)
    | c :: t =>
        if among [124; 40; 41; 59; 38; 60] c then (c, t)
        else if c =? 62 then match t with d :: t' => if d =? 62 then (43, t') else (62, t) | [] => (62, t) end
        else (97, skip_word q)
    end in
  Ok (ret, (pos q, pos e)) (skip_ws e).

Definition peek (toks : bytes) : stM bytes bool := fun s =>
  let s := skip_ws s in
  Ok (match s with c :: _ => among toks c | [] => false end) s.

(** parseredirs wraps [cmd]; here it collects the wrappers, innermost first. *)
Definition redir := (span * (Z * Z))%type.
Definition wrap (c : cmd) (l : list redir) : cmd := fold_left (fun c '(f, (m, d)) => REDIR c f m d) l c.

Fixpoint parseredirs_loop (n : nat) (acc : list redir) : stM bytes (list redir) :=
  match n with
  | O => fun _ => Wrong "parseredirs: fuel"
  | S n =>
      b <- peek [60; 62];
      if b then
        '(tok, _) <- gettoken;
        '(t, f) <- gettoken;
        if negb (t =? 97) then spanic "missing file for redirection"
        else parseredirs_loop n (acc ++ [(f, if tok =? 60 then (MODE_IN, 0) else if tok =? 62 then (MODE_OUT, 1) else (MODE_APP, 1))])
      else sret acc
  end.
Definition parseredirs (acc : list redir) : stM bytes (list redir) := fun s => parseredirs_loop (S (length s)) acc s.

(** The loop of parseexec, with room for [n] more arguments. *)
Fixpoint parseargs (n : nat) (argv : list span) (acc : list redir) : stM bytes (list span * list redir) :=
  match n with
  | O => spanic "too many args"
  | S n =>
      b <- peek [124; 41; 38; 59];
      if b then sret (argv, acc)
      else
        '(tok, a) <- gettoken;
        if tok =? 0 then sret (argv, acc)
        else if negb (tok =? 97) then spanic "syntax"
        else match n with
             | O => spanic "too many args"
             | S _ => acc <- parseredirs acc; parseargs n (argv ++ [a]) acc
             end
  end.

(** The loop over [&] in parseline. *)
Fixpoint parsebacks_loop (n : nat) (c : cmd) : stM bytes cmd :=
  match n with
  | O => fun _ => Wrong "parseline: fuel"
  | S n => b <- peek [38]; if b then gettoken;; parsebacks_loop n (BACK c) else sret c
  end.
Definition parsebacks (c : cmd) : stM bytes cmd := fun s => parsebacks_loop (S (length s)) c s.

Fixpoint parseline (fuel : nat) : stM bytes cmd :=
  match fuel with
  | O => fun _ => Wrong "parser: fuel"
  | S fuel =>
      c <- parsepipe fuel;
      c <- parsebacks c;
      b <- peek [59];
      if b then gettoken;; r <- parseline fuel; sret (LIST c r) else sret c
  end
with parsepipe (fuel : nat) : stM bytes cmd :=
  match fuel with
  | O => fun _ => Wrong "parser: fuel"
  | S fuel =>
      c <- parseexec fuel;
      b <- peek [124];
      if b then gettoken;; r <- parsepipe fuel; sret (PIPE c r) else sret c
  end
with parseexec (fuel : nat) : stM bytes cmd :=
  match fuel with
  | O => fun _ => Wrong "parser: fuel"
  | S fuel =>
      b <- peek [40];
      if b then parseblock fuel
      else
        acc <- parseredirs [];
        '(argv, acc) <- parseargs MAXARGS [] acc;
        sret (wrap (EXEC argv) acc)
  end
with parseblock (fuel : nat) : stM bytes cmd :=
  match fuel with
  | O => fun _ => Wrong "parser: fuel"
  | S fuel =>
      b <- peek [40];
      if negb b then spanic "parseblock"
      else
        gettoken;;
        c <- parseline fuel;
        b <- peek [41];
        if negb b then spanic "syntax - missing )"
        else gettoken;; acc <- parseredirs []; sret (wrap c acc)
  end.
End Parser.

(** The buffer with its terminating NUL after the writes. *)
Fixpoint nulterminate (c : cmd) (buf : bytes) : bytes :=
  match c with
  | EXEC argv => fold_left (fun buf '(_, e) => <[e := 0]> buf) argv buf
  | REDIR c (_, e) _ _ => <[e := 0]> (nulterminate c buf)
  | PIPE l r | LIST l r => nulterminate r (nulterminate l buf)
  | BACK c => nulterminate c buf
  end.

(** parsecmd: the command and the buffer. *)
Definition parsecmd (s : bytes) : outcome bytes cmd :=
  let es := length s in
  match parseline es (4 * es + 4) s with
  | Ok c rest => match skip_ws rest with [] => Ok c (nulterminate c (s ++ [0])) | _ => Panic "syntax" end
  | Panic m => Panic m
  | Sleep c s => Sleep c s
  | Wrong w => Wrong w
  end.
