(* ===== verification/ShPrint.v ===== *)
(** * Printing and parsing shell commands

    [print] writes a command as a line, with parentheses where the grammar of
    sh.c needs them; the parser gives the command back. *)
From S2P Require Import Prelude Str Ulib Sh ShSpec.
Local Open Scope st_scope.

(** Words, and the commands that can be typed. *)
Definition word_ok (w : bytes) : Prop := w <> [] /\ Forall (fun c => is_word c = true /\ c <> 0) w.

Definition redir_sym (m : Z) : bytes := if m =? MODE_IN then [60] else if m =? MODE_OUT then [62] else [62; 62].
Definition redir_ok (m d : Z) : Prop := (m, d) ∈ [(MODE_IN, 0); (MODE_OUT, 1); (MODE_APP, 1)].

Fixpoint ucmd_ok (u : ucmd) : Prop :=
  match u with
  | UEXEC argv => Forall word_ok argv /\ (length argv < MAXARGS)%nat
  | UREDIR u f m d => ucmd_ok u /\ word_ok f /\ redir_ok m d
  | UPIPE l r | ULIST l r => ucmd_ok l /\ ucmd_ok r
  | UBACK u => ucmd_ok u
  end.

(** The levels of the grammar: 0 parseexec, 1 parsepipe, 2 before the [&]s of
    parseline, 3 parseline. *)
Definition paren (b : bool) (s : bytes) : bytes := if b then [40] ++ s ++ [41] else s.
Fixpoint print (lvl : nat) (u : ucmd) : bytes :=
  match u with
  | UEXEC argv => concat (map (fun w => w ++ [32]) argv)
  | UREDIR u f m _ => print 0 u ++ redir_sym m ++ f ++ [32]
  | UPIPE l r => paren (lvl <? 1)%nat (print 0 l ++ [124] ++ print 1 r)
  | UBACK u => paren (lvl <? 2)%nat (print 2 u ++ [38])
  | ULIST l r => paren (lvl <? 3)%nat (print 2 l ++ [59] ++ print 3 r)
  end.

Fixpoint usize (u : ucmd) : nat :=
  match u with
  | UEXEC _ => 1
  | UREDIR u _ _ _ | UBACK u => S (usize u)
  | UPIPE l r | ULIST l r => S (usize l + usize r)
  end.

(** ** Lemmas: scanning printed text *)

(** [k] is empty or starts with one of [set], symbols all. *)
Definition stops (set k : bytes) : Prop := k = [] \/ exists c t, k = c :: t /\ c ∈ set.
Notation stop0 := [124; 41; 38; 59].
Notation stop1 := [41; 38; 59].

Lemma stops_sub s1 s2 k : (forall c, c ∈ s1 -> c ∈ s2) -> stops s1 k -> stops s2 k.
Proof. intros H [->|(c & t & -> & Hc)]; [by left|]. right. eauto. Qed.

Lemma stop0_ws c : c ∈ stop0 -> among whitespace c = false /\ is_word c = false /\ among [40] c = false /\ among [60; 62] c = false.
Proof. rewrite !elem_of_cons, elem_of_nil. intros [->|[->|[->|[->|[]]]]]; done. Qed.
Lemma stops_skip k : stops stop0 k -> skip_ws k = k.
Proof. intros [->|(c & t & -> & H)]; [done|]. cbn [skip_ws]. by rewrite (proj1 (stop0_ws c H)). Qed.
Lemma stops_word k : stops stop0 k -> forall c t, k = c :: t -> is_word c = false.
Proof. intros [->|(d & t & -> & H)] c t'; [done|]. intros [= <- <-]. apply (stop0_ws d H). Qed.

Lemma word_not_ws c : is_word c = true -> among whitespace c = false /\ among symbols c = false.
Proof. unfold is_word. rewrite andb_true_iff, !negb_true_iff. done. Qed.

Lemma among_sub set1 set2 c : (forall x, x ∈ set1 -> x ∈ set2) -> 0 ∉ set2 -> among set2 c = false -> among set1 c = false.
Proof.
  intros H Hz. unfold among. destruct (strchr set1 c) as [[a t]|] eqn:E; [|done]. destruct (strchr_some _ _ _ _ E) as (-> & _ & _ & t' & ->).
  assert (Hc : c ∈ set2) by (apply H, elem_of_app; right; apply elem_of_cons; by left).
  apply list_elem_of_split_l in Hc as (x & y & -> & Hx). rewrite strchr_app; [done| |done|].
  - intros ->. apply Hz, elem_of_app. right. apply elem_of_cons. by left.
  - intros Hz'. apply Hz, elem_of_app. by left.
Qed.

Ltac in_set := rewrite !elem_of_cons; auto 10.
Ltac in_list := intros ?; unfold symbols; rewrite !elem_of_cons, !elem_of_nil; tauto.
Lemma word_among set c : is_word c = true -> (forall x, x ∈ set -> x ∈ symbols) -> among set c = false.
Proof.
  intros W H. apply (among_sub set symbols c H); [|by apply word_not_ws]. unfold symbols. rewrite !not_elem_of_cons. repeat split; try done. apply not_elem_of_nil.
Qed.

Lemma skip_word_app w k : Forall (fun c => is_word c = true /\ c <> 0) w -> (forall c t, k = c :: t -> is_word c = false) -> skip_word (w ++ k) = k.
Proof.
  intros F Hk. induction F as [|c w [Hc _] F IH]; cbn [app skip_word].
  - destruct k as [|c t]; [done|]. cbn [skip_word]. fold (is_word c). by rewrite (Hk c t eq_refl).
  - fold (is_word c). by rewrite Hc.
Qed.

Lemma word_head w k : word_ok w -> exists c t, w ++ k = c :: t /\ is_word c = true.
Proof. intros [N F]. destruct w as [|c w]; [done|]. inversion F as [|? ? [Hc _] _]; subst. exists c, (w ++ k). by split. Qed.
Lemma skip_ws_word w k : word_ok w -> skip_ws (w ++ k) = w ++ k.
Proof. intros H. destruct (word_head w k H) as (c & t & -> & W). cbn [skip_ws]. by rewrite (proj1 (word_not_ws c W)). Qed.

Section Line.
  Context (b : bytes).
Notation es := (length b).

Lemma gettoken_word w k : word_ok w -> (forall c t, k = c :: t -> is_word c = false) ->
  gettoken es (w ++ k) = Ok (97, (pos es (w ++ k), pos es k)) (skip_ws k).
Proof.
  intros H Hk. unfold gettoken. rewrite skip_ws_word by done. destruct (word_head w k H) as (c & t & E & W). rewrite E.
  rewrite (word_among _ c W) by in_list. destruct (Z.eqb_spec c 62) as [->|N]; [done|]. rewrite <- E, skip_word_app; [done|apply H|done].
Qed.

Lemma span_text_word w k : (w ++ k) `suffix_of` b -> span_text b (pos es (w ++ k), pos es k) = w.
Proof.
  intros [pre E]. unfold span_text, pos. cbn [fst snd]. rewrite E, !length_app, drop_app_length' by lia. apply take_app_length'. lia.
Qed.

Lemma gettoken_sym c k : c ∈ [124; 40; 41; 59; 38; 60] -> exists p, gettoken es (c :: k) = Ok (c, p) (skip_ws k).
Proof. rewrite !elem_of_cons, elem_of_nil. intros [->|[->|[->|[->|[->|[->|[]]]]]]]; eexists; reflexivity. Qed.

Lemma peek_stops toks k : stops stop0 k -> peek toks k = Ok (match k with c :: _ => among toks c | [] => false end) k.
Proof. intros H. unfold peek. by rewrite (stops_skip k H). Qed.
Lemma peek_word toks w k : word_ok w -> (forall x, x ∈ toks -> x ∈ symbols) -> peek toks (w ++ k) = Ok false (w ++ k).
Proof.
  intros H Ht. unfold peek. rewrite skip_ws_word by done. destruct (word_head w k H) as (c & t & E & W). rewrite E. by rewrite (word_among _ c W).
Qed.

Lemma suffix_tail (w : bytes) c k : (w ++ c :: k) `suffix_of` b -> k `suffix_of` b.
Proof. intros H. etrans; [|exact H]. exists (w ++ [c]). by rewrite <- app_assoc. Qed.
Lemma suffix_rest (w k : bytes) : (w ++ k) `suffix_of` b -> k `suffix_of` b.
Proof. intros H. etrans; [|exact H]. by exists w. Qed.

(** Redirections with their file names. *)
Notation uredir := (bytes * (Z * Z))%type (only parsing).
Definition rprint (r : uredir) : bytes := redir_sym r.2.1 ++ r.1 ++ [32].
Definition rprints (rs : list uredir) : bytes := concat (map rprint rs).
Definition uredir_ok (r : uredir) : Prop := word_ok r.1 /\ redir_ok r.2.1 r.2.2.
Definition uwrap (u : ucmd) (rs : list uredir) : ucmd := fold_left (fun u '(f, (m, d)) => UREDIR u f m d) rs u.
Definition rview (r : redir) : uredir := (span_text b r.1, r.2).

Lemma print_uwrap u rs : print 0 (uwrap u rs) = print 0 u ++ rprints rs.
Proof.
  revert u. induction rs as [|[f [m d]] rs IH]; intros u; cbn [uwrap fold_left]; [by rewrite app_nil_r|]. fold (uwrap (UREDIR u f m d) rs). rewrite IH.
  cbn [print]. unfold rprints. cbn [map concat]. unfold rprint. cbn [fst snd]. by rewrite <- !app_assoc.
Qed.
Lemma view_wrap c l : view (span_text b) (wrap c l) = uwrap (view (span_text b) c) (map rview l).
Proof. revert c. induction l as [|[p [m d]] l IH]; intros c; [done|]. apply IH. Qed.

(** What may follow a list of redirections. *)
Definition after_redirs (k : bytes) : Prop := skip_ws k = k /\ match k with c :: _ => among [60; 62] c = false | [] => True end.
Lemma after_stops k : stops stop0 k -> after_redirs k.
Proof. intros H. split; [by apply stops_skip|]. destruct H as [->|(c & t & -> & H)]; [done|]. apply (stop0_ws c H). Qed.
Lemma after_word w k : word_ok w -> after_redirs (w ++ k).
Proof.
  intros H. split; [by apply skip_ws_word|]. destruct (word_head w k H) as (c & t & -> & W). apply (word_among _ c W). in_list.
Qed.
Lemma skip_rprints rs k : after_redirs k -> skip_ws (rprints rs ++ k) = rprints rs ++ k.
Proof.
  intros [H _]. destruct rs as [|r rs]; [done|]. unfold rprints. cbn [map concat]. unfold rprint, redir_sym.
  destruct (r.2.1 =? MODE_IN); [done|]. by destruct (r.2.1 =? MODE_OUT).
Qed.

Lemma gettoken_redir m d w k : redir_ok m d -> word_ok w -> exists p tok, gettoken es (redir_sym m ++ w ++ k) = Ok (tok, p) (w ++ k) /\
  (if tok =? 60 then (MODE_IN, 0) else if tok =? 62 then (MODE_OUT, 1) else (MODE_APP, 1)) = (m, d).
Proof.
  intros Hm Hw. assert (Ew : skip_ws (w ++ k) = w ++ k) by (by apply skip_ws_word). destruct (word_head w k Hw) as (c & t & E & W).
  unfold redir_ok in Hm. rewrite !elem_of_cons, elem_of_nil in Hm. destruct Hm as [[= -> ->]|[[= -> ->]|[[= -> ->]|[]]]]; cbn [redir_sym Z.eqb Pos.eqb].
  - eexists _, 60. split; [|done]. unfold gettoken. cbn. by rewrite Ew.
  - eexists _, 62. split; [|done]. unfold gettoken. rewrite E in *. change (skip_ws ([62] ++ c :: t)) with (62 :: c :: t). cbv beta iota zeta.
    change (among [124; 40; 41; 59; 38; 60] 62) with false. change (62 =? 62) with true. cbv iota. destruct (Z.eqb_spec c 62) as [->|N]; [discriminate W|].
    by rewrite Ew.
  - eexists _, 43. split; [|done]. unfold gettoken. cbn. by rewrite Ew.
Qed.

Lemma peek_redir m rest : peek [60; 62] (redir_sym m ++ rest) = Ok true (redir_sym m ++ rest).
Proof. unfold redir_sym. destruct (m =? MODE_IN); [done|]. by destruct (m =? MODE_OUT). Qed.
Lemma peek_after k : after_redirs k -> peek [60; 62] k = Ok false k.
Proof. intros [H1 H2]. unfold peek. rewrite H1. destruct k; [done|]. by rewrite H2. Qed.

Lemma redirs_run rs k n acc : Forall uredir_ok rs -> after_redirs k -> (rprints rs ++ k) `suffix_of` b -> (length (rprints rs ++ k) < n)%nat ->
  exists l, parseredirs_loop es n acc (rprints rs ++ k) = Ok (acc ++ l) k /\ map rview l = rs.
Proof.
  revert n acc. induction rs as [|r rs IH]; intros n acc F Hk Hs Hn; (destruct n as [|n]; [lia|]); cbn [parseredirs_loop].
  - exists []. cbn [rprints map concat app]. unfold sbind. rewrite peek_after by done. by rewrite app_nil_r.
  - inversion F as [|? ? [Hw Hm] F']; subst. destruct r as [f [m d]]. cbn [fst snd] in *.
    assert (Et : rprints ((f, (m, d)) :: rs) ++ k = redir_sym m ++ f ++ 32 :: rprints rs ++ k).
    { unfold rprints. cbn [map concat]. unfold rprint at 1. cbn [fst snd]. by rewrite <- !app_assoc. }
    rewrite Et in Hs, Hn |- *. unfold sbind at 1. rewrite peek_redir. destruct (gettoken_redir m d f (32 :: rprints rs ++ k) Hm Hw) as (p & tok & E & Em).
    unfold sbind at 1. rewrite E. unfold sbind at 1. rewrite gettoken_word by (done || by intros c t [= <- <-]).
    change (skip_ws (32 :: rprints rs ++ k)) with (skip_ws (rprints rs ++ k)). rewrite skip_rprints by done. cbn [negb Z.eqb Pos.eqb]. rewrite Em.
    assert (Sf : (f ++ 32 :: rprints rs ++ k) `suffix_of` b) by (by apply (suffix_rest (redir_sym m))).
    destruct (IH n (acc ++ [((pos es (f ++ 32 :: rprints rs ++ k), pos es (32 :: rprints rs ++ k)), (m, d))]) F' Hk) as (l & El & Ml).
    + by apply (suffix_tail f 32).
    + rewrite !length_app in *. cbn [length] in *. rewrite length_app in Hn. lia.
    + eexists (_ :: l). rewrite El, <- app_assoc. split; [done|]. cbn [map]. rewrite Ml. unfold rview at 1. cbn [fst snd]. by rewrite span_text_word.
Qed.

Definition words (ws : list bytes) : bytes := concat (map (fun w => w ++ [32]) ws).

Lemma words_cons w ws k : words (w :: ws) ++ k = w ++ 32 :: words ws ++ k.
Proof. unfold words. cbn [map concat]. by rewrite <- !app_assoc. Qed.

(** The end of the loop of parseexec: no argument follows. *)
Lemma parseargs_end n argv acc k : stops stop0 k -> parseargs es (S n) argv acc k = Ok (argv, acc) k.
Proof.
  intros Hk. cbn [parseargs]. unfold sbind at 1. rewrite peek_stops by done. destruct Hk as [->|(c & t & -> & H)]; [done|].
  assert (among [124; 41; 38; 59] c = true) as ->; [|done]. revert H. rewrite !elem_of_cons, elem_of_nil. by intros [->|[->|[->|[->|[]]]]].
Qed.

Lemma parseargs_step n argv acc : parseargs es (S (S n)) argv acc =
  (r <- peek [124; 41; 38; 59];
   if r then sret (argv, acc)
   else
     '(tok, a) <- gettoken es;
     if tok =? 0 then sret (argv, acc)
     else if negb (tok =? 97) then spanic "syntax"
     else acc <- parseredirs es acc; parseargs es (S n) (argv ++ [a]) acc).
Proof. reflexivity. Qed.

Lemma parseargs_run ws rs k n argv : ws <> [] -> Forall word_ok ws -> Forall uredir_ok rs -> stops stop0 k -> (length ws < n)%nat ->
  (words ws ++ rprints rs ++ k) `suffix_of` b ->
  exists l acc, parseargs es n argv [] (words ws ++ rprints rs ++ k) = Ok (argv ++ l, acc) k /\ map (span_text b) l = ws /\ map rview acc = rs.
Proof.
  revert n argv. induction ws as [|w ws IH]; intros n argv N F Fr Hk Hn Hs; [done|]. inversion F as [|? ? Hw F']; subst.
  cbn [length] in Hn. destruct n as [|[|n]]; [lia|lia|]. rewrite words_cons in *. rewrite parseargs_step. set (rest := words ws ++ rprints rs ++ k) in *.
  unfold sbind at 1. rewrite peek_word by (done || in_list). unfold sbind at 1. rewrite gettoken_word by (done || by intros c t [= <- <-]).
  cbn [Z.eqb Pos.eqb negb]. change (skip_ws (32 :: rest)) with (skip_ws rest).
  assert (Sr : rest `suffix_of` b) by (by apply (suffix_tail w 32)).
  destruct ws as [|w' ws].
  - cbn [words map concat app] in rest. unfold rest in *. rewrite skip_rprints by (by apply after_stops). unfold sbind at 1, parseredirs.
    destruct (redirs_run rs k (S (length (rprints rs ++ k))) [] Fr (after_stops k Hk) Sr ltac:(lia)) as (acc & E & Ma). cbn [app] in E. rewrite E.
    eexists [_], acc. rewrite parseargs_end by done. split; [done|]. split; [|done]. cbn [map]. by rewrite span_text_word.
  - inversion F' as [|? ? Hw' _]; subst. unfold rest in *. rewrite words_cons in *. rewrite skip_ws_word by done. unfold sbind at 1, parseredirs.
    set (rest' := w' ++ 32 :: words ws ++ rprints rs ++ k) in *. destruct (redirs_run [] rest' (S (length rest')) [] ltac:(constructor) (after_word w' _ Hw') Sr ltac:(cbn; lia)) as (acc & E & Ma).
    apply map_eq_nil in Ma as ->. cbn [rprints map concat app] in E. rewrite E.
    destruct (IH (S n) (argv ++ [(pos es (w ++ 32 :: rest'), pos es (32 :: rest'))])) as (l & acc & E' & Ml & Ma); try done; [cbn in *; lia|].
    eexists (_ :: l), acc. rewrite E', <- app_assoc. split; [done|]. split; [|done]. cbn [map]. rewrite Ml. by rewrite span_text_word.
Qed.

(** [p] parses [s], leaves [k] and gives [u]. *)
Definition gives (p : stM bytes cmd) (s k : bytes) (u : ucmd) : Prop := exists c, p s = Ok c k /\ view (span_text b) c = u.

Lemma exec_gives argv rs k f : Forall word_ok argv -> (length argv < MAXARGS)%nat -> Forall uredir_ok rs -> stops stop0 k ->
  (words argv ++ rprints rs ++ k) `suffix_of` b -> gives (parseexec es (S f)) (words argv ++ rprints rs ++ k) k (uwrap (UEXEC argv) rs).
Proof.
  intros F Ln Fr Hk Hs. unfold gives. cbn [parseexec].
  assert (Pk : peek [40] (words argv ++ rprints rs ++ k) = Ok false (words argv ++ rprints rs ++ k)).
  { destruct argv as [|w argv]; [|inversion F; subst; rewrite words_cons; apply peek_word; [done|in_list]]. destruct rs as [|r rs].
    - cbn [words rprints map concat app]. rewrite peek_stops by done. destruct Hk as [->|(c & t & -> & H)]; [done|]. by rewrite (proj1 (proj2 (proj2 (stop0_ws c H)))).
    - unfold peek. cbn [words map concat app]. rewrite skip_rprints by (by apply after_stops). unfold rprints. cbn [map concat]. unfold rprint, redir_sym.
      destruct (r.2.1 =? MODE_IN); [done|]. by destruct (r.2.1 =? MODE_OUT). }
  unfold sbind at 1. rewrite Pk. unfold sbind at 1, parseredirs. destruct argv as [|w argv].
  - cbn [words map concat app]. destruct (redirs_run rs k (S (length (rprints rs ++ k))) [] Fr (after_stops k Hk) Hs ltac:(lia)) as (acc & E & Ma). cbn [app] in E.
    rewrite E. unfold sbind. rewrite parseargs_end by done. eexists. split; [done|]. rewrite view_wrap, Ma. done.
  - set (s := words (w :: argv) ++ rprints rs ++ k) in *. inversion F as [|? ? Hw _]; subst.
    assert (As : after_redirs s) by (unfold s; rewrite words_cons; by apply after_word).
    destruct (redirs_run [] s (S (length s)) [] ltac:(constructor) As Hs ltac:(cbn; lia)) as (acc & E & Ma). apply map_eq_nil in Ma as ->. cbn [rprints map concat app] in E.
    rewrite E. unfold sbind. destruct (parseargs_run (w :: argv) rs k 10 [] ltac:(done) F Fr Hk Ln Hs) as (l & acc & E' & Ml & Ma). fold s in E'. rewrite E'.
    eexists. split; [done|]. rewrite view_wrap, Ma. cbn [view app]. by rewrite Ml.
Qed.

Lemma block_gives u rs k f : gives (parseline es f) (print 3 u ++ 41 :: rprints rs ++ k) (41 :: rprints rs ++ k) u -> Forall uredir_ok rs -> stops stop0 k ->
  (rprints rs ++ k) `suffix_of` b -> skip_ws (print 3 u ++ 41 :: rprints rs ++ k) = print 3 u ++ 41 :: rprints rs ++ k ->
  gives (parseexec es (S (S f))) (40 :: print 3 u ++ 41 :: rprints rs ++ k) k (uwrap u rs).
Proof.
  intros (c & E & V) Fr Hk Hs Sk. unfold gives. cbn [parseexec]. set (t := print 3 u ++ 41 :: rprints rs ++ k) in *.
  unfold sbind at 1. change (peek [40] (40 :: t)) with (Ok true (40 :: t) : outcome bytes bool). cbv iota. cbn [parseblock].
  unfold sbind at 1. change (peek [40] (40 :: t)) with (Ok true (40 :: t) : outcome bytes bool). cbn [negb].
  destruct (gettoken_sym 40 t ltac:(in_set)) as [p Ep]. unfold sbind at 1. rewrite Ep, Sk. unfold sbind at 1. rewrite E.
  unfold sbind at 1. change (peek [41] (41 :: rprints rs ++ k)) with (Ok true (41 :: rprints rs ++ k) : outcome bytes bool). cbn [negb].
  destruct (gettoken_sym 41 (rprints rs ++ k) ltac:(in_set)) as [p' Ep']. unfold sbind at 1. rewrite Ep', skip_rprints by (by apply after_stops).
  unfold sbind, parseredirs. destruct (redirs_run rs k (S (length (rprints rs ++ k))) [] Fr (after_stops k Hk) Hs ltac:(lia)) as (acc & Ea & Ma). cbn [app] in Ea.
  rewrite Ea. eexists. split; [done|]. by rewrite view_wrap, Ma, V.
Qed.

(** ** Lemmas: the levels of the grammar *)

Lemma skip_paren p s k : skip_ws (s ++ k) = s ++ k -> skip_ws (paren p s ++ k) = paren p s ++ k.
Proof. unfold paren. by destruct p. Qed.

Lemma print_skip u l k : ucmd_ok u -> skip_ws k = k -> skip_ws (print l u ++ k) = print l u ++ k.
Proof.
  revert l k. induction u as [argv|u IH f m d|x IHx y IHy|x IHx y IHy|u IH]; intros l k H Hk; cbn [print ucmd_ok] in *.
  - destruct H as [F _]. fold (words argv). destruct argv as [|w argv]; [done|]. inversion F; subst. rewrite words_cons. by apply skip_ws_word.
  - rewrite <- app_assoc. apply IH; [apply H|]. rewrite <- app_assoc. unfold redir_sym. destruct (m =? MODE_IN); [done|]. by destruct (m =? MODE_OUT).
  - apply skip_paren. rewrite <- app_assoc. apply IHx; [apply H|done].
  - apply skip_paren. rewrite <- app_assoc. apply IHx; [apply H|done].
  - apply skip_paren. rewrite <- app_assoc. apply IH; [apply H|done].
Qed.

Fixpoint backs (n : nat) (u : ucmd) : ucmd := match n with O => u | S n => UBACK (backs n u) end.

Definition G0 (u : ucmd) : Prop := forall f k, stops stop0 k -> (print 0 u ++ k) `suffix_of` b -> (4 * length (print 0 u ++ k) + 2 <= f)%nat ->
  gives (parseexec es f) (print 0 u ++ k) k u.
Definition G1 (u : ucmd) : Prop := forall f k, stops stop1 k -> (print 1 u ++ k) `suffix_of` b -> (4 * length (print 1 u ++ k) + 3 <= f)%nat ->
  gives (parsepipe es f) (print 1 u ++ k) k u.
Definition G2 (u : ucmd) : Prop := forall f k, stops stop1 k -> (print 2 u ++ k) `suffix_of` b -> (4 * length (print 2 u ++ k) + 3 <= f)%nat ->
  exists n u0, u = backs n u0 /\ gives (parsepipe es f) (print 2 u ++ k) (replicate n 38 ++ k) u0.
Definition G3 (u : ucmd) : Prop := forall f k, stops [41] k -> (print 3 u ++ k) `suffix_of` b -> (4 * length (print 3 u ++ k) + 4 <= f)%nat ->
  gives (parseline es f) (print 3 u ++ k) k u.

Ltac sub_set := apply stops_sub; in_list.

Lemma stops_cons set c k : c ∈ set -> stops set (c :: k).
Proof. right. eauto. Qed.

Lemma G1_pipe l r : ucmd_ok r -> G0 l -> G1 r -> G1 (UPIPE l r).
Proof.
  intros Or Hl Hr f k Hk Hs Hf. cbn [print paren Nat.ltb Nat.leb] in *. rewrite <- !app_assoc in *. cbn [app] in *. set (rest := print 1 r ++ k) in *.
  destruct f as [|f]; [lia|]. rewrite length_app in Hf. cbn [length] in Hf.
  destruct (Hl f (124 :: rest)) as (c & E & V); [apply stops_cons; in_set|done|rewrite length_app; cbn [length]; lia|].
  destruct (Hr f k Hk) as (d & E' & V'); [by apply (suffix_tail (print 0 l) 124)|fold rest; lia|]. fold rest in E'.
  unfold gives. cbn [parsepipe]. unfold sbind at 1. rewrite E. unfold sbind at 1. change (peek [124] (124 :: rest)) with (Ok true (124 :: rest) : outcome bytes bool). cbv iota.
  destruct (gettoken_sym 124 rest ltac:(in_set)) as [p Ep]. unfold sbind at 1. rewrite Ep. unfold rest at 1.
  rewrite print_skip by (done || by apply stops_skip; revert Hk; sub_set). fold rest. unfold sbind. rewrite E'. eexists. split; [done|]. cbn [view]. by rewrite V, V'.
Qed.

Lemma G1_of_G0 u : print 1 u = print 0 u -> G0 u -> G1 u.
Proof.
  intros Ep H f k Hk Hs Hf. rewrite Ep in *. destruct f as [|f]; [lia|]. destruct (H f k) as (c & E & V); [revert Hk; sub_set|done|lia|].
  unfold gives. cbn [parsepipe]. unfold sbind at 1. rewrite E. unfold sbind. rewrite peek_stops by (revert Hk; sub_set). exists c. split; [|done].
  destruct Hk as [->|(x & t & -> & Hx)]; [done|]. revert Hx. rewrite !elem_of_cons, elem_of_nil. by intros [->|[->|[->|[]]]].
Qed.

Lemma G2_of_G1 u : print 2 u = print 1 u -> G1 u -> G2 u.
Proof. intros Ep H f k Hk Hs Hf. rewrite Ep in *. exists 0%nat, u. split; [done|]. by apply H. Qed.

Lemma G2_back u : G2 u -> G2 (UBACK u).
Proof.
  intros H f k Hk Hs Hf. cbn [print paren Nat.ltb Nat.leb] in *. rewrite <- !app_assoc in *. cbn [app] in *.
  destruct (H f (38 :: k)) as (n & u0 & -> & c & E & V); [apply stops_cons; in_set|done|done|]. exists (S n), u0. split; [done|].
  exists c. split; [|done]. rewrite E. f_equal. rewrite replicate_S_end, <- app_assoc. done.
Qed.

Lemma backs_run n m c k : stops [41; 59] k -> (n < m)%nat ->
  exists c', parsebacks_loop es m c (replicate n 38 ++ k) = Ok c' k /\ view (span_text b) c' = backs n (view (span_text b) c).
Proof.
  revert m c. induction n as [|n IH]; intros m c Hk Hm; (destruct m as [|m]; [lia|]); cbn [parsebacks_loop replicate app].
  - exists c. unfold sbind. rewrite peek_stops by (revert Hk; sub_set). split; [|done].
    destruct Hk as [->|(x & t & -> & Hx)]; [done|]. revert Hx. rewrite !elem_of_cons, elem_of_nil. by intros [->|[->|[]]].
  - unfold sbind at 1. change (peek [38] (38 :: replicate n 38 ++ k)) with (Ok true (38 :: replicate n 38 ++ k) : outcome bytes bool). cbv iota.
    destruct (gettoken_sym 38 (replicate n 38 ++ k) ltac:(in_set)) as [p Ep]. unfold sbind. rewrite Ep.
    assert (skip_ws (replicate n 38 ++ k) = replicate n 38 ++ k) as -> by (destruct n; [apply stops_skip; revert Hk; sub_set|done]).
    destruct (IH m (BACK c) Hk ltac:(lia)) as (c' & E & V). exists c'. split; [done|]. rewrite V. cbn [view backs].
    clear. induction n as [|n IH]; cbn [backs]; [done|]. by rewrite IH.
Qed.

(** The part of parseline before the semicolon. *)
Lemma line_front u f k : G2 u -> stops [41; 59] k -> (print 2 u ++ k) `suffix_of` b -> (4 * length (print 2 u ++ k) + 3 <= f)%nat ->
  gives (c <- parsepipe es f; parsebacks es c) (print 2 u ++ k) k u.
Proof.
  intros H Hk Hs Hf. destruct (H f k) as (n & u0 & -> & c & E & V); [revert Hk; sub_set|done|done|]. unfold gives, sbind. rewrite E. unfold parsebacks.
  destruct (backs_run n (S (length (replicate n 38 ++ k))) c k Hk) as (c' & E' & V'); [rewrite length_app, length_replicate; lia|]. exists c'. split; [done|]. by rewrite V', V.
Qed.

(** parseline, split after its loop. *)
Lemma parseline_front f s c k : (c <- parsepipe es f; parsebacks es c) s = Ok c k ->
  parseline es (S f) s = (r <- peek [59]; if r then gettoken es;; d <- parseline es f; sret (LIST c d) else sret c) k.
Proof. intros E. cbn [parseline]. unfold sbind at 1 in E. unfold sbind at 1. destruct (parsepipe es f s) as [c0 s0| | |]; try done. unfold sbind at 1. by rewrite E. Qed.

Lemma G3_of_G2 u : print 3 u = print 2 u -> G2 u -> G3 u.
Proof.
  intros Ep H f k Hk Hs Hf. rewrite Ep in *. destruct f as [|f]; [lia|]. destruct (line_front u f k H) as (c & E & V); [revert Hk; sub_set|done|lia|].
  exists c. split; [|done]. rewrite (parseline_front f _ c k E). unfold sbind. rewrite peek_stops by (revert Hk; sub_set).
  destruct Hk as [->|(x & t & -> & Hx)]; [done|]. revert Hx. rewrite list_elem_of_singleton. by intros ->.
Qed.

Lemma G3_list l r : ucmd_ok r -> G2 l -> G3 r -> G3 (ULIST l r).
Proof.
  intros Or Hl Hr f k Hk Hs Hf. cbn [print paren Nat.ltb Nat.leb] in *. rewrite <- !app_assoc in *. cbn [app] in *. set (rest := print 3 r ++ k) in *.
  destruct f as [|f]; [lia|]. rewrite length_app in Hf. cbn [length] in Hf.
  destruct (line_front l f (59 :: rest) Hl) as (c & E & V); [apply stops_cons; in_set|done|rewrite length_app; cbn [length]; lia|].
  destruct (Hr f k Hk) as (d & E' & V'); [by apply (suffix_tail (print 2 l) 59)|fold rest; lia|]. fold rest in E'.
  unfold gives. rewrite (parseline_front f _ c _ E). unfold sbind at 1. change (peek [59] (59 :: rest)) with (Ok true (59 :: rest) : outcome bytes bool). cbv iota.
  destruct (gettoken_sym 59 rest ltac:(in_set)) as [p Ep]. unfold sbind at 1. rewrite Ep. unfold rest at 1.
  rewrite print_skip by (done || by apply stops_skip; revert Hk; sub_set). fold rest. unfold sbind. rewrite E'. eexists. split; [done|]. cbn [view]. by rewrite V, V'.
Qed.

(** A command in parentheses with redirections. *)
Lemma G0_block u rs : ucmd_ok u -> Forall uredir_ok rs -> print 0 u = 40 :: print 3 u ++ [41] -> G3 u -> G0 (uwrap u rs).
Proof.
  intros Ou Fr Ep H f k Hk. rewrite print_uwrap, Ep, <- app_assoc. cbn [app]. rewrite <- app_assoc. cbn [app]. intros Hs Hf.
  destruct f as [|[|f]]; [cbn in Hf; lia|cbn in Hf; lia|]. cbn [length] in Hf. apply block_gives; try done.
  - apply H; [apply stops_cons, list_elem_of_singleton; done|by apply (suffix_tail [] 40)|lia].
  - apply (suffix_tail (40 :: print 3 u) 41). exact Hs.
  - by apply print_skip.
Qed.

Lemma G0_exec argv rs : Forall word_ok argv -> (length argv < MAXARGS)%nat -> Forall uredir_ok rs -> G0 (uwrap (UEXEC argv) rs).
Proof.
  intros F L Fr f k Hk. rewrite print_uwrap. change (print 0 (UEXEC argv)) with (words argv). rewrite <- app_assoc. intros Hs Hf.
  destruct f as [|f]; [lia|]. by apply exec_gives.
Qed.

(** A command without its outermost redirections. *)
Lemma uwrap_split u : exists core rs, u = uwrap core rs /\ (forall v f m d, core <> UREDIR v f m d) /\
  (ucmd_ok u -> ucmd_ok core /\ Forall uredir_ok rs) /\ (rs = [] /\ core = u \/ (usize core < usize u)%nat).
Proof.
  induction u as [argv|u (core & rs & -> & N & H & S) f m d|x IHx y IHy|x IHx y IHy|u IH];
    try (eexists _, []; split; [reflexivity|]; split; [done|]; split; [by split|by left]).
  exists core, (rs ++ [(f, (m, d))]). split; [unfold uwrap; by rewrite fold_left_app|]. split; [done|]. split.
  - intros (O1 & O2 & O3). destruct (H O1) as [H1 H2]. split; [done|]. apply Forall_app. split; [done|]. constructor; [by split|constructor].
  - right. cbn [usize]. destruct S as [[-> ->]|S]; cbn; lia.
Qed.

(** All levels, for every command. *)
Lemma all_levels u : ucmd_ok u -> G0 u /\ G1 u /\ G2 u /\ G3 u.
Proof.
  induction u as [u IH] using (well_founded_induction (well_founded_ltof _ usize)). unfold ltof in IH. intros O.
  destruct u as [argv|u f m d|l r|l r|u].
  - assert (A : G0 (UEXEC argv)) by (apply (G0_exec argv []); [apply O..|constructor]).
    assert (B : G1 (UEXEC argv)) by (by apply G1_of_G0). assert (C : G2 (UEXEC argv)) by (by apply G2_of_G1). auto using G3_of_G2.
  - destruct (uwrap_split (UREDIR u f m d)) as (core & rs & E & N & Hok & S). destruct (Hok O) as [Oc Fr].
    assert (A : G0 (UREDIR u f m d)).
    { rewrite E. destruct S as [[-> ->]|S]; [by destruct (N u f m d)|]. destruct core as [argv|v f' m' d'|l r|l r|v].
      - apply G0_exec; [apply Oc..|done].
      - by destruct (N v f' m' d').
      - apply G0_block; [done..|]. by apply (IH _ S).
      - apply G0_block; [done..|]. by apply (IH _ S).
      - apply G0_block; [done..|]. by apply (IH _ S). }
    assert (B : G1 (UREDIR u f m d)) by (by apply G1_of_G0). assert (C : G2 (UREDIR u f m d)) by (by apply G2_of_G1). auto using G3_of_G2.
  - destruct O as [O1 O2]. destruct (IH l ltac:(cbn; lia) O1) as (A1 & _). destruct (IH r ltac:(cbn; lia) O2) as (_ & B2 & _).
    assert (B : G1 (UPIPE l r)) by (by apply G1_pipe). assert (C : G2 (UPIPE l r)) by (by apply G2_of_G1). assert (D : G3 (UPIPE l r)) by (by apply G3_of_G2).
    split; [by apply (G0_block (UPIPE l r) [])|auto].
  - destruct O as [O1 O2]. destruct (IH l ltac:(cbn; lia) O1) as (_ & _ & C1 & _). destruct (IH r ltac:(cbn; lia) O2) as (_ & _ & _ & D2).
    assert (D : G3 (ULIST l r)) by (by apply G3_list). assert (A : G0 (ULIST l r)) by (by apply (G0_block (ULIST l r) [])).
    assert (B : G1 (ULIST l r)) by (by apply G1_of_G0). auto using G2_of_G1.
  - destruct (IH u ltac:(cbn; lia) O) as (_ & _ & C1 & _). assert (C : G2 (UBACK u)) by (by apply G2_back). assert (D : G3 (UBACK u)) by (by apply G3_of_G2).
    assert (A : G0 (UBACK u)) by (by apply (G0_block (UBACK u) [])). auto using G1_of_G0.
Qed.
End Line.

(** Printed lines have no NUL. *)
Lemma word_no_nul w : word_ok w -> 0 ∉ w.
Proof. intros [_ F] H. rewrite Forall_forall in F. by destruct (F 0 H). Qed.
Lemma paren_no_nul p s : 0 ∉ s -> 0 ∉ paren p s.
Proof. unfold paren. destruct p; [|done]. intros H. rewrite !elem_of_app, !list_elem_of_singleton. naive_solver. Qed.
Lemma print_no_nul l u : ucmd_ok u -> 0 ∉ print l u.
Proof.
  revert l. induction u as [argv|u IH f m d|x IHx y IHy|x IHx y IHy|u IH]; intros l H; cbn [print ucmd_ok] in *; try apply paren_no_nul;
    rewrite ?elem_of_app, ?list_elem_of_singleton.
  - destruct H as [F _]. induction F as [|w argv Hw F IH]; cbn; [apply not_elem_of_nil|]. rewrite !elem_of_app, list_elem_of_singleton.
    intros [[H|H]|H]; [by apply (word_no_nul w)|done|done].
  - destruct H as (O & Hf & _). intros [H|[H|[H|H]]]; [by apply (IH 0%nat)| |by apply (word_no_nul f)|done].
    unfold redir_sym in H. destruct (m =? MODE_IN); [|destruct (m =? MODE_OUT)]; rewrite !elem_of_cons, elem_of_nil in H; naive_solver.
  - destruct H as [H1 H2]. intros [H|[H|H]]; [by apply (IHx 0%nat)|done|by apply (IHy 1%nat)].
  - destruct H as [H1 H2]. intros [H|[H|H]]; [by apply (IHx 2%nat)|done|by apply (IHy 3%nat)].
  - intros [H'|H']; [by apply (IH 2%nat)|done].
Qed.

Lemma parse_print_run u : ucmd_ok u -> exists c buf, parsecmd (print 3 u) = Ok c buf /\ view (string_at buf) c = u.
Proof.
  intros O. set (b := print 3 u). assert (Hb : 0 ∉ b) by (by apply print_no_nul).
  destruct (proj2 (proj2 (proj2 (all_levels b u O))) (4 * length b + 4)%nat []) as (c & E & V); rewrite ?app_nil_r; fold b; try done; [by left|].
  rewrite app_nil_r in E. fold b in E. exists c, (nulterminate c (b ++ [0])). unfold parsecmd. rewrite E. split; [done|].
  pose proof (parseline_spec b Hb (length b) (4 * length b + 4)%nat b ltac:(done) ltac:(done) ltac:(lia)) as H. rewrite E in H.
  rewrite nulterminate_view by apply H. exact V.
Qed.

(** Parsing inverts printing: for every command with proper words and at
    most nine arguments per program, the parser accepts the printed line and
    returns the command, strings, structure and redirection modes included. *)
Theorem parse_print u : ucmd_ok u -> exists c buf, parsecmd (print 3 u) = Ok c buf /\ view (string_at buf) c = u.
Proof. apply parse_print_run. Qed.

(** [(ls -l;cat >a&)|wc] *)
Lemma parse_print_witness : exists c buf,
  parsecmd (print 3 (UPIPE (ULIST (UEXEC [[108; 115]; [45; 108]]) (UBACK (UREDIR (UEXEC [[99; 97; 116]]) [97] 0x601 1))) (UEXEC [[119; 99]]))) = Ok c buf.
Proof.
  destruct (parse_print (UPIPE (ULIST (UEXEC [[108; 115]; [45; 108]]) (UBACK (UREDIR (UEXEC [[99; 97; 116]]) [97] 0x601 1))) (UEXEC [[119; 99]]))) as (c & buf & E & _).
  - cbn. unfold word_ok, redir_ok. repeat split; try lia; repeat constructor; try discriminate; try reflexivity.
  - exists c, buf. exact E.
Defined.
