(* ===== verification/Umalloc.v ===== *)
(** * malloc and free (user/umalloc.c)

    The heap is the map from addresses to headers; [freep] points into a
    circular list of free blocks, ordered by address, that starts at [base].
    Addresses count headers (16 bytes), so [p + 1] is the next header.  [brk]
    is the end of the process's memory in the same unit; memory runs out at
    [limit].  The argument of sbrk is an [int]: the number of bytes wraps. *)
From S2P Require Import Prelude.
Local Open Scope st_scope.

(** union header. *)
Record header := mkH { h_ptr : Z; h_size : Z }.
Record heap := mkHeap { hp_mem : gmap Z header; hp_freep : Z; hp_brk : Z; hp_limit : Z }.

(** The address of the static [base], below the heap. *)
Notation base := 1 (only parsing).

Definition hdr (h : heap) (p : Z) : header := default (mkH 0 0) (hp_mem h !! p).
Definition set_hdr (p : Z) (x : header) (h : heap) : heap := mkHeap (<[p := x]> (hp_mem h)) (hp_freep h) (hp_brk h) (hp_limit h).
Definition set_freep (p : Z) (h : heap) : heap := mkHeap (hp_mem h) p (hp_brk h) (hp_limit h).
Definition set_ptr (p x : Z) (h : heap) : heap := set_hdr p (mkH x (h_size (hdr h p))) h.
Definition set_size (p x : Z) (h : heap) : heap := set_hdr p (mkH (h_ptr (hdr h p)) x) h.

(** The loop of free: the place where the block belongs. *)
Fixpoint free_find (fuel : nat) (bp p : Z) (h : heap) : option Z :=
  match fuel with
  | O => None
  | S fuel =>
      let next := h_ptr (hdr h p) in
      if (p <? bp) && (bp <? next) then Some p
      else if (next <=? p) && ((p <? bp) || (bp <? next)) then Some p
      else free_find fuel bp next h
  end.

(** free on the block at [bp]; [fuel] bounds the walk round the list. *)
Definition free_at (fuel : nat) (bp : Z) : stM heap unit := fun h =>
  match free_find fuel bp (hp_freep h) h with
  | None => Wrong "free: fuel"
  | Some p =>
      let next := h_ptr (hdr h p) in
      let h := if bp + h_size (hdr h bp) =? next
               then set_ptr bp (h_ptr (hdr h next)) (set_size bp (u32 (h_size (hdr h bp) + h_size (hdr h next))) h)
               else set_ptr bp next h in
      let h := if p + h_size (hdr h p) =? bp
               then set_ptr p (h_ptr (hdr h bp)) (set_size p (u32 (h_size (hdr h p) + h_size (hdr h bp))) h)
               else set_ptr p bp h in
      Ok tt (set_freep p h)
  end.
Definition free (fuel : nat) (ap : Z) : stM heap unit := free_at fuel (ap - 1).

(** sbrk (sys_sbrk and growproc of the kernel, in bytes): the old end or -1.
    The new size is an unsigned int; when it wraps, uvmalloc and uvmdealloc see
    nothing to do and the call succeeds without a change. *)
Definition sbrk (n : Z) : stM heap Z := fun h =>
  let sz := 16 * hp_brk h in
  let newsz := u32 (sz + n) in
  if (0 <? n) && (sz <=? newsz) then
    if 16 * hp_limit h <? newsz then Ok (-1) h
    else Ok (hp_brk h) (mkHeap (hp_mem h) (hp_freep h) (newsz / 16) (hp_limit h))
  else if (n <? 0) && (newsz <? sz) then Ok (hp_brk h) (mkHeap (hp_mem h) (hp_freep h) (newsz / 16) (hp_limit h))
  else Ok (hp_brk h) h.

Definition morecore (fuel : nat) (nu : Z) : stM heap Z :=
  let nu := if nu <? 4096 then 4096 else nu in
  p <- sbrk (s32 (nu * 16));
  if p =? -1 then sret 0
  else
    smodify (set_size p nu);;
    free fuel (p + 1);;
    h <- sget;
    sret (hp_freep h).

(** The loop of malloc. *)
Fixpoint malloc_loop (n fuel : nat) (nunits prevp p : Z) : stM heap Z :=
  match n with
  | O => fun _ => Wrong "malloc: fuel"
  | S n =>
      h <- sget;
      let size := h_size (hdr h p) in
      if nunits <=? size then
        if size =? nunits then
          smodify (set_ptr prevp (h_ptr (hdr h p)));;
          smodify (set_freep prevp);;
          sret (p + 1)
        else
          smodify (set_size p (size - nunits));;
          smodify (set_size (p + (size - nunits)) nunits);;
          smodify (set_freep prevp);;
          sret (p + (size - nunits) + 1)
      else if p =? hp_freep h then
        p <- morecore fuel nunits;
        if p =? 0 then sret 0
        else h <- sget; malloc_loop n fuel nunits p (h_ptr (hdr h p))
      else malloc_loop n fuel nunits p (h_ptr (hdr h p))
  end.

Definition malloc_units (nbytes : Z) : Z := u32 ((nbytes + 16 - 1) / 16 + 1).
Definition malloc (n fuel : nat) (nbytes : Z) : stM heap Z :=
  let nunits := malloc_units nbytes in
  h <- sget;
  (if hp_freep h =? 0 then smodify (set_size base 0);; smodify (set_ptr base base);; smodify (set_freep base) else sret tt);;
  h <- sget;
  malloc_loop n fuel nunits (hp_freep h) (h_ptr (hdr h (hp_freep h))).
