(* ===== verification/UmallocSpec.v ===== *)
(** * The heap of malloc as a set of free blocks

    [heap_ok h l] says that the circular list of the heap is [l]: the static
    base and then the free blocks, ordered by address, apart from each other
    and merged where they touch.  free adds a block to the set of free units,
    malloc takes one out, and neither touches the headers of blocks in use. *)
From S2P Require Import Prelude Umalloc.
From stdpp Require Import sorting.
Local Open Scope Z_scope.

Notation block := (Z * Z)%type (only parsing).

Definition before (p q : block) : Prop := p.1 + p.2 < q.1.
Definition hd_addr (l : list block) (e : Z) : Z := match l with [] => e | q :: _ => q.1 end.

(** The headers of the cells of [l], the last one pointing to [e]. *)
Fixpoint linked (m : gmap Z header) (l : list block) (e : Z) : Prop :=
  match l with
  | [] => True
  | (a, s) :: l => m !! a = Some (mkH (hd_addr l e) s) /\ linked m l e
  end.

Record heap_ok (h : heap) (l : list block) : Prop := {
  ho_list : exists F, l = (base, 0) :: F /\ Forall (fun q => 0 < q.2 /\ q.1 + q.2 <= hp_brk h) F;
  ho_sorted : StronglySorted before l;
  ho_linked : linked (hp_mem h) l base;
  ho_freep : hp_freep h ∈ map fst l;
  ho_bounds : base < hp_brk h <= hp_limit h /\ hp_limit h < 2 ^ 27
}.

(** A unit of memory is free. *)
Definition covered (l : list block) (x : Z) : Prop := exists q, q ∈ l /\ q.1 <= x < q.1 + q.2.

(** ** Lemmas: lists of blocks *)

Lemma hd_addr_app l1 l2 e : hd_addr (l1 ++ l2) e = hd_addr l1 (hd_addr l2 e).
Proof. by destruct l1. Qed.
Lemma linked_app m l1 l2 e : linked m (l1 ++ l2) e <-> linked m l1 (hd_addr l2 e) /\ linked m l2 e.
Proof.
  induction l1 as [|[a s] l1 IH]; cbn [linked app]; [tauto|]. rewrite IH, hd_addr_app. tauto.
Qed.
Lemma linked_frame m m' l e : (forall q, q ∈ l -> m' !! q.1 = m !! q.1) -> linked m l e -> linked m' l e.
Proof.
  induction l as [|[a s] l IH]; cbn [linked]; [done|]. intros H [E L]. split.
  - rewrite <- E. apply (H (a, s)). apply elem_of_cons. by left.
  - apply IH; [|done]. intros q Hq. apply H, elem_of_cons. by right.
Qed.
Lemma covered_app l1 l2 x : covered (l1 ++ l2) x <-> covered l1 x \/ covered l2 x.
Proof. unfold covered. setoid_rewrite elem_of_app. naive_solver. Qed.
Lemma covered_cons q l x : covered (q :: l) x <-> q.1 <= x < q.1 + q.2 \/ covered l x.
Proof. unfold covered. setoid_rewrite elem_of_cons. naive_solver. Qed.
Lemma covered_nil x : covered [] x <-> False.
Proof. unfold covered. split; [|done]. intros (q & H & _). by apply not_elem_of_nil in H. Qed.

Lemma hdr_at h l1 a s l2 e : linked (hp_mem h) (l1 ++ (a, s) :: l2) e -> hdr h a = mkH (hd_addr l2 e) s.
Proof. intros [_ [E _]]%linked_app. unfold hdr. by rewrite E. Qed.

(** Every address of the list, and what is before and after it. *)
Lemma cell_split (l : list block) a : a ∈ map fst l -> exists l1 s l2, l = l1 ++ (a, s) :: l2.
Proof.
  intros ((a' & s) & -> & H)%list_elem_of_fmap. apply list_elem_of_split in H as (l1 & l2 & ->). cbn. eauto.
Qed.

(** ** Lemmas: the walk of free *)

Section Free.
  Context (h : heap) (l1 l2 : list block) (p sp bp : Z).
  Context (Hl : linked (hp_mem h) (l1 ++ (p, sp) :: l2) base).
  Context (H1 : forall q, q ∈ l1 -> q.1 < p) (Hp : base <= p < bp) (H2 : forall q, q ∈ l2 -> bp < q.1).
  Context (Hs : StronglySorted (fun q r : block => q.1 < r.1) (l1 ++ (p, sp) :: l2)).
  Context (Hb : hd_addr (l1 ++ (p, sp) :: l2) base = base).

Lemma find_here fuel : free_find (S fuel) bp p h = Some p.
Proof.
  cbn [free_find]. rewrite (hdr_at h l1 p sp l2 base Hl). cbn [h_ptr]. destruct l2 as [|[a s] l]; cbn [hd_addr fst].
  - destruct (Z.ltb_spec p bp); [|lia]. destruct (bp <? base); [done|]. cbn [andb orb]. by rewrite andb_true_r, (proj2 (Z.leb_le base p)) by lia.
  - specialize (H2 (a, s) ltac:(apply elem_of_cons; by left)). cbn in H2. by rewrite (proj2 (Z.ltb_lt p bp)), (proj2 (Z.ltb_lt bp a)) by lia.
Qed.

(** From a cell before the place, the walk gets there. *)
Lemma find_before la a s lb fuel : l1 = la ++ (a, s) :: lb -> (length lb + 1 < fuel)%nat -> free_find fuel bp a h = Some p.
Proof.
  revert la a s fuel. induction lb as [|[c t] lb IH]; intros la a s fuel E Hf; (destruct fuel as [|fuel]; [lia|]); cbn [free_find].
  - assert (Ha : hdr h a = mkH p s) by (apply (hdr_at h la a s ((p, sp) :: l2) base); rewrite E, <- app_assoc in Hl; exact Hl).
    rewrite Ha. cbn [h_ptr]. assert (a < p) by (apply (H1 (a, s)); rewrite E, elem_of_app, list_elem_of_singleton; by right).
    destruct (Z.ltb_spec a bp); [|lia]. destruct (Z.ltb_spec bp p); [lia|]. destruct (Z.leb_spec p a); [lia|]. cbn [andb].
    destruct fuel; [cbn in Hf; lia|]. apply find_here.
  - assert (Ha : hdr h a = mkH c s) by (apply (hdr_at h la a s ((c, t) :: lb ++ (p, sp) :: l2) base); rewrite E, <- app_assoc in Hl; exact Hl).
    rewrite Ha. cbn [h_ptr]. assert (c < p) by (apply (H1 (c, t)); rewrite E, elem_of_app, !elem_of_cons; tauto).
    assert (a < c).
    { rewrite E, <- app_assoc in Hs. apply StronglySorted_app_1_r in Hs. cbn in Hs. apply StronglySorted_cons in Hs as [F _]. rewrite Forall_forall in F.
      apply (F (c, t)). apply elem_of_cons. by left. }
    destruct (Z.ltb_spec a bp); [|lia]. destruct (Z.ltb_spec bp c); [lia|]. destruct (Z.leb_spec c a); [lia|]. cbn [andb].
    apply (IH (la ++ [(a, s)]) c t); [by rewrite <- app_assoc|cbn in Hf; lia].
Qed.

Lemma find_base fuel : (length l1 + 1 < fuel)%nat -> free_find fuel bp base h = Some p.
Proof.
  intros Hf. assert (C : p = base \/ exists s l, l1 = (base, s) :: l).
  { generalize Hb. destruct l1 as [|[a s] l]; cbn; [by left|]. intros ->. right. eauto. }
  destruct C as [<-|(s & l & E)]; [destruct fuel; [lia|]; apply find_here|]. apply (find_before [] base s l); [done|]. rewrite E in Hf. cbn in Hf. lia.
Qed.

(** From a cell after the place, the walk goes round. *)
Lemma find_after la a s lb fuel : l2 = la ++ (a, s) :: lb -> (length lb + length l1 + 2 < fuel)%nat -> free_find fuel bp a h = Some p.
Proof.
  revert la a s fuel. induction lb as [|[c t] lb IH]; intros la a s fuel E Hf; (destruct fuel as [|fuel]; [lia|]); cbn [free_find].
  all: assert (bp < a) by (apply (H2 (a, s)); rewrite E, elem_of_app, elem_of_cons; tauto).
  - assert (Ha : hdr h a = mkH base s) by (apply (hdr_at h (l1 ++ (p, sp) :: la) a s [] base); rewrite <- app_assoc; cbn; rewrite <- E; exact Hl).
    rewrite Ha. cbn [h_ptr]. destruct (Z.ltb_spec a bp); [lia|]. destruct (Z.ltb_spec bp base); [lia|]. cbn [andb orb]. rewrite andb_false_r.
    apply find_base. cbn in Hf. lia.
  - assert (Ha : hdr h a = mkH c s) by (apply (hdr_at h (l1 ++ (p, sp) :: la) a s ((c, t) :: lb) base); rewrite <- app_assoc; cbn; rewrite <- E; exact Hl).
    rewrite Ha. cbn [h_ptr]. assert (a < c).
    { rewrite E in Hs. apply StronglySorted_app_1_r in Hs. apply StronglySorted_cons in Hs as [_ Hs]. apply StronglySorted_app_1_r in Hs.
      apply StronglySorted_cons in Hs as [F _]. rewrite Forall_forall in F. apply (F (c, t)). apply elem_of_cons. by left. }
    destruct (Z.ltb_spec a bp); [lia|]. destruct (Z.leb_spec c a); [lia|]. cbn [andb].
    apply (IH (la ++ [(a, s)]) c t); [by rewrite <- app_assoc|cbn in Hf; lia].
Qed.

Lemma find_from a fuel : a ∈ map fst (l1 ++ (p, sp) :: l2) -> (length l1 + length l2 + 3 < fuel)%nat -> free_find fuel bp a h = Some p.
Proof.
  rewrite map_app, elem_of_app. cbn [map]. rewrite elem_of_cons. intros [H|[->|H]] Hf.
  - apply cell_split in H as (la & s & lb & E). apply (find_before la a s lb); [done|]. rewrite E, length_app in Hf. cbn in Hf. lia.
  - destruct fuel; [lia|]. apply find_here.
  - apply cell_split in H as (la & s & lb & E). apply (find_after la a s lb); [done|]. rewrite E, length_app in Hf. cbn in Hf. lia.
Qed.
End Free.

(** ** Lemmas: free *)

(** The block joined with its successor, and the list with the block added. *)
Definition join_next (bp n : Z) (l2 : list block) : Z * list block :=
  match l2 with (a, s) :: l2' => if bp + n =? a then (n + s, l2') else (n, l2) | [] => (n, []) end.
Definition add_block (l1 : list block) (p sp bp n : Z) (l2 : list block) : list block :=
  let '(n1, r2) := join_next bp n l2 in if p + sp =? bp then l1 ++ (p, sp + n1) :: r2 else l1 ++ (p, sp) :: (bp, n1) :: r2.

(** Where a block belongs in an ordered list that starts below it. *)
Lemma place (l : list block) bp : StronglySorted before l -> Forall (fun q => 0 <= q.2 /\ q.1 <> bp) l -> (exists q l', l = q :: l' /\ q.1 < bp) ->
  exists l1 p sp l2, l = l1 ++ (p, sp) :: l2 /\ p < bp /\ (forall q, q ∈ l1 -> q.1 + q.2 < p) /\ (forall q, q ∈ l2 -> bp < q.1).
Proof.
  intros S F (q & l' & -> & Hq). revert q S F Hq. induction l' as [|r l' IH]; intros q S F Hq.
  - exists [], q.1, q.2, []. split; [by destruct q|]. split; [done|]. split; intros x Hx; by apply not_elem_of_nil in Hx.
  - apply StronglySorted_cons in S as [Sq S]. inversion F as [|? ? [Fq _] F']; subst. inversion F' as [|? ? [Fr Nr] _]; subst.
    destruct (Z.lt_ge_cases r.1 bp) as [Hr|Hr].
    + destruct (IH r S F' Hr) as (l1 & p & sp & l2 & E & H1 & H2 & H3). exists (q :: l1), p, sp, l2. split; [by rewrite E|]. split; [done|]. split; [|done].
      intros x [->|Hx]%elem_of_cons; [|by apply H2]. rewrite Forall_forall, E in Sq. apply (Sq (p, sp)). rewrite elem_of_app, elem_of_cons. tauto.
    + exists [], q.1, q.2, (r :: l'). split; [by destruct q|]. split; [done|]. split; [intros x Hx; by apply not_elem_of_nil in Hx|].
      intros x [->|Hx]%elem_of_cons; [lia|]. apply StronglySorted_cons in S as [Sr _]. rewrite Forall_forall in Sr. specialize (Sr x Hx). unfold before in Sr. lia.
Qed.

Section Add.
  Context (l1 l2 : list block) (p sp bp n : Z).
  Context (Hs : StronglySorted before (l1 ++ (p, sp) :: l2)) (Hpos : Forall (fun q => 0 < q.2) l2) (Hsp : 0 <= sp) (Hn : 0 < n).
  Context (Hp : p + sp <= bp) (Hd : forall q, q ∈ l2 -> bp + n <= q.1).

Lemma join_next_spec n1 r2 : join_next bp n l2 = (n1, r2) -> n <= n1 /\ StronglySorted before ((bp, n1) :: r2) /\ (forall q, q ∈ r2 -> q ∈ l2) /\
  (forall q, q ∈ r2 -> p + sp < q.1) /\ forall x, bp <= x < bp + n1 \/ covered r2 x <-> bp <= x < bp + n \/ covered l2 x.
Proof.
  apply StronglySorted_app in Hs as (_ & _ & [F S]%StronglySorted_cons). rewrite Forall_forall in F. unfold join_next. destruct l2 as [|[a s] l].
  - intros [= <- <-]. split; [lia|]. split; [by repeat constructor|]. split; [done|]. split; [intros q Hq; by apply not_elem_of_nil in Hq|done].
  - apply StronglySorted_cons in S as [Fa S]. inversion Hpos as [|? ? Ps _]; subst. cbn in Ps.
    specialize (Hd (a, s) ltac:(apply elem_of_cons; by left)). cbn in Hd. rewrite Forall_forall in Fa. destruct (Z.eqb_spec (bp + n) a) as [E|E]; intros [= <- <-].
    + split; [lia|]. split; [apply StronglySorted_cons; split; [|done]; apply Forall_forall; intros q Hq; specialize (Fa q Hq); unfold before in *; cbn in *; lia|].
      split; [intros q Hq; apply elem_of_cons; by right|]. split; [intros q Hq; apply (F q), elem_of_cons; by right|].
      intros x. rewrite covered_cons. cbn [fst snd]. split.
      * intros [H|H]; [|tauto]. destruct (Z.lt_ge_cases x a); [left; lia|right; left; lia].
      * intros [H|[H|H]]; [left; lia|left; lia|tauto].
    + split; [lia|]. split.
      * apply StronglySorted_cons. split; [|apply StronglySorted_cons; split; [by apply Forall_forall|done]]. apply Forall_forall.
        intros q [->|Hq]%elem_of_cons; [unfold before; cbn; lia|]. specialize (Fa q Hq). unfold before in *; cbn in *; lia.
      * split; [done|]. split; [|done]. intros q Hq. by apply (F q).
Qed.

Lemma add_block_sorted : StronglySorted before (add_block l1 p sp bp n l2).
Proof.
  unfold add_block. destruct (join_next bp n l2) as [n1 r2] eqn:E. destruct (join_next_spec n1 r2 E) as (L & S & Sub & Gap & _).
  apply StronglySorted_app in Hs as (X & S1 & [F _]%StronglySorted_cons). rewrite Forall_forall in F. pose proof (proj1 (StronglySorted_cons _ _ _) S) as [Fb S2].
  rewrite Forall_forall in Fb. assert (Xp : forall q, q ∈ l1 -> q.1 + q.2 < p) by (intros q Hq; apply (X q (p, sp) Hq), elem_of_cons; by left).
  destruct (Z.eqb_spec (p + sp) bp) as [Ep|Ep]; apply StronglySorted_app; (split; [|split; [done|]]).
  - intros q r Hq [->|Hr]%elem_of_cons; [by apply Xp|]. unfold before. specialize (Gap r Hr). specialize (Xp q Hq). lia.
  - apply StronglySorted_cons. split; [|done]. apply Forall_forall. intros r Hr. specialize (Fb r Hr). unfold before in *. cbn in *. lia.
  - intros q r Hq. unfold before. specialize (Xp q Hq). intros [->|[->|Hr]%elem_of_cons]%elem_of_cons; [done|cbn; lia|]. specialize (Gap r Hr). lia.
  - apply StronglySorted_cons. split; [|done]. apply Forall_forall. intros r [->|Hr]%elem_of_cons; [unfold before; cbn; lia|]. specialize (Gap r Hr). unfold before. cbn. lia.
Qed.

Lemma add_block_covered x : covered (add_block l1 p sp bp n l2) x <-> covered (l1 ++ (p, sp) :: l2) x \/ bp <= x < bp + n.
Proof.
  unfold add_block. destruct (join_next bp n l2) as [n1 r2] eqn:E. destruct (join_next_spec n1 r2 E) as (L & _ & _ & _ & Cv). specialize (Cv x).
  destruct (Z.eqb_spec (p + sp) bp) as [Ep|Ep]; rewrite !covered_app, !covered_cons; cbn [fst snd] in *; [|tauto].
  split.
  - intros [H|[H|H]]; [tauto| |tauto]. destruct (Z.lt_ge_cases x bp); [left; right; left; lia|]. assert (bp <= x < bp + n1) by lia. tauto.
  - intros [[H|[H|H]]|H]; [tauto|right; left; lia| |]; assert (bp <= x < bp + n1 \/ covered r2 x) as [?|?] by tauto; try tauto; right; left; lia.
Qed.
End Add.

Lemma hdr_set a x h b : hdr (set_hdr a x h) b = if decide (a = b) then x else hdr h b.
Proof. unfold hdr. cbn. destruct (decide (a = b)) as [->|N]; [by rewrite lookup_insert_eq|by rewrite lookup_insert_ne]. Qed.

(** What the two joining steps of free leave in memory. *)
Section Join.
  Context (h : heap) (l1 l2 : list block) (p sp bp n : Z).
  Context (Hl : linked (hp_mem h) (l1 ++ (p, sp) :: l2) base) (Hbp : h_size (hdr h bp) = n).
  Context (N1 : p <> bp) (N2 : forall q, q ∈ l2 -> q.1 <> bp /\ q.1 <> p) (Nb : bp + n <> base) (Nl : forall q, q ∈ l1 -> q.1 <> p /\ q.1 <> bp).
  Context (Hov : 0 <= n /\ 0 <= sp /\ Forall (fun q => 0 <= q.2) l2 /\ forall n1 r2, join_next bp n l2 = (n1, r2) -> 0 <= n1 /\ sp + n1 < 2 ^ 32).

Definition next_step : heap :=
  let next := h_ptr (hdr h p) in
  if bp + h_size (hdr h bp) =? next then set_ptr bp (h_ptr (hdr h next)) (set_size bp (u32 (h_size (hdr h bp) + h_size (hdr h next))) h) else set_ptr bp next h.

Lemma next_step_eq n1 r2 : join_next bp n l2 = (n1, r2) -> hp_mem next_step = <[bp := mkH (hd_addr r2 base) n1]> (hp_mem h).
Proof.
  intros E. destruct Hov as (H0 & H1 & H2 & H3). destruct (H3 n1 r2 E) as [H4 H5]. unfold next_step. rewrite (hdr_at h l1 p sp l2 base Hl), Hbp. cbn [h_ptr].
  unfold join_next in E. destruct l2 as [|[a s] l]; cbn [hd_addr fst] in *.
  - injection E as <- <-. destruct (Z.eqb_spec (bp + n) base); [done|]. unfold set_ptr. cbn. by rewrite Hbp.
  - assert (Ha : hdr h a = mkH (hd_addr l base) s) by (apply (hdr_at h (l1 ++ [(p, sp)]) a s l base); by rewrite <- app_assoc).
    destruct (Z.eqb_spec (bp + n) a) as [Ea|Ea]; injection E as <- <-; [|unfold set_ptr; cbn; by rewrite Hbp].
    rewrite Ha. cbn [h_size h_ptr]. unfold set_ptr, set_size. rewrite hdr_set, decide_True by done. cbn [set_hdr hp_mem h_size]. rewrite insert_insert_eq.
    unfold u32. rewrite Z.mod_small by lia. done.
Qed.

Lemma free_join fuel : free_find fuel bp (hp_freep h) h = Some p ->
  exists h', free_at fuel bp h = Ok tt h' /\ linked (hp_mem h') (add_block l1 p sp bp n l2) base /\ hp_freep h' = p /\ hp_brk h' = hp_brk h /\ hp_limit h' = hp_limit h /\
    forall x, x <> p -> x <> bp -> hp_mem h' !! x = hp_mem h !! x.
Proof.
  intros Ef. unfold free_at. rewrite Ef. change (if bp + h_size (hdr h bp) =? h_ptr (hdr h p) then _ else _) with next_step.
  assert (exists n1 r2, join_next bp n l2 = (n1, r2)) as (n1 & r2 & E) by (destruct (join_next bp n l2); eauto). pose proof (next_step_eq n1 r2 E) as Em. destruct Hov as (H0 & H1 & H2 & H3). destruct (H3 n1 r2 E) as [H4 H5].
  assert (Br : hp_freep next_step = hp_freep h /\ hp_brk next_step = hp_brk h /\ hp_limit next_step = hp_limit h) by (unfold next_step; by destruct (_ =? _)).
  set (h1 := next_step) in *. clearbody h1.
  assert (E1 : hdr h1 p = hdr h p) by (unfold hdr; rewrite Em, lookup_insert_ne by congruence; done).
  assert (E2 : hdr h1 bp = mkH (hd_addr r2 base) n1) by (unfold hdr; by rewrite Em, lookup_insert_eq).
  assert (Hr : forall q, q ∈ r2 -> q ∈ l2).
  { clear -E. unfold join_next in E. destruct l2 as [|[a s] l]; [injection E as <- <-; done|]. destruct (_ =? _); injection E as <- <-; [|done]. intros q Hq. apply elem_of_cons. by right. }
  assert (Lr : linked (hp_mem h) r2 base /\ linked (hp_mem h) l1 p).
  { clear -E Hl. apply linked_app in Hl as [Hl1 [_ Hl2]]. split; [|exact Hl1]. unfold join_next in E. destruct l2 as [|[a s] l]; [injection E as <- <-; done|].
    destruct (_ =? _); injection E as <- <-; [apply Hl2|exact Hl2]. }
  destruct Lr as [Lr Ll].
  assert (Fr : forall m x y, linked m l1 p -> linked m r2 base -> linked (<[p := x]> (<[bp := y]> m)) l1 p /\ linked (<[p := x]> (<[bp := y]> m)) r2 base).
  { intros m x y A B. split.
    - apply (linked_frame m); [|done]. intros q Hq. destruct (Nl q Hq). by rewrite !lookup_insert_ne.
    - apply (linked_frame m); [|done]. intros q Hq. destruct (N2 q (Hr q Hq)). by rewrite !lookup_insert_ne. }
  rewrite E1, (hdr_at h l1 p sp l2 base Hl). cbn [h_size]. unfold add_block. rewrite E. destruct (Z.eqb_spec (p + sp) bp) as [Ep|Ep].
  - eexists. split; [reflexivity|]. rewrite E2. unfold set_ptr, set_size. rewrite !hdr_set, decide_True by done. cbn [h_size h_ptr].
    cbn [set_freep set_hdr hp_mem hp_freep hp_brk hp_limit h_ptr h_size]. rewrite insert_insert_eq, Em.
    unfold u32. rewrite Z.mod_small by lia. destruct (Fr (hp_mem h) (mkH (hd_addr r2 base) (sp + n1)) (mkH (hd_addr r2 base) n1) Ll Lr) as [A B].
    split; [|split; [done|split; [apply Br|split; [apply Br|intros x X1 X2; by rewrite !lookup_insert_ne by congruence]]]].
    apply linked_app. cbn [hd_addr fst linked]. split; [exact A|]. split; [by rewrite lookup_insert_eq|exact B].
  - eexists. split; [reflexivity|]. unfold set_ptr. cbn [set_freep set_hdr hp_mem hp_freep hp_brk hp_limit]. rewrite E1, (hdr_at h l1 p sp l2 base Hl), Em. cbn [h_size].
    destruct (Fr (hp_mem h) (mkH bp sp) (mkH (hd_addr r2 base) n1) Ll Lr) as [A B].
    split; [|split; [done|split; [apply Br|split; [apply Br|intros x X1 X2; by rewrite !lookup_insert_ne by congruence]]]].
    apply linked_app. cbn [hd_addr fst linked]. split; [exact A|]. split; [by rewrite lookup_insert_eq|]. split; [rewrite lookup_insert_ne, lookup_insert_eq by done; done|exact B].
Qed.
End Join.

Lemma heap_cells h l : heap_ok h l -> Forall (fun q => 0 <= q.2 /\ base <= q.1 /\ (q = (base, 0) \/ 0 < q.2 /\ base < q.1 /\ q.1 + q.2 <= hp_brk h)) l.
Proof.
  intros O. destruct (ho_list h l O) as (F & -> & HF). pose proof (ho_sorted h _ O) as [S _]%StronglySorted_cons. constructor; [cbn; split; [lia|split; [lia|by left]]|].
  rewrite Forall_forall in HF, S |- *. intros q Hq. destruct (HF q Hq). specialize (S q Hq). unfold before in S. cbn in S. split; [lia|]. split; [lia|]. right. lia.
Qed.

Lemma sorted_addr (l : list block) : Forall (fun q => 0 <= q.2) l -> StronglySorted before l -> StronglySorted (fun q r : block => q.1 < r.1) l.
Proof.
  induction l as [|q l IH]; [constructor|]. intros F S. apply StronglySorted_cons in S as [Sq S]. inversion F; subst. apply StronglySorted_cons. split; [|by apply IH].
  eapply Forall_impl; [exact Sq|]. unfold before. cbn. intros r Hr. lia.
Qed.

(** A block that is not free lies beside every free block. *)
Lemma apart h l bp n q : heap_ok h l -> base < bp -> 0 < n -> (forall x, bp <= x < bp + n -> ~ covered l x) -> q ∈ l -> q.1 + q.2 <= bp \/ bp + n <= q.1.
Proof.
  intros O Hb Hn Hc Hq. pose proof (heap_cells h l O) as F. rewrite Forall_forall in F. destruct (F q Hq) as (H1 & H2 & [->|(H3 & H4 & H5)]); [left; cbn; lia|].
  destruct (Z.le_gt_cases (q.1 + q.2) bp); [by left|]. destruct (Z.le_gt_cases (bp + n) q.1); [by right|]. exfalso.
  apply (Hc (Z.max bp q.1)); [lia|]. exists q. split; [done|lia].
Qed.

Record freed (h : heap) (l : list block) (bp n : Z) (h' : heap) (l' : list block) : Prop := {
  fd_ok : heap_ok h' l';
  fd_covered : forall x, covered l' x <-> covered l x \/ bp <= x < bp + n;
  fd_frame : forall x, x <> base -> ~ covered l x -> ~ bp <= x < bp + n -> hp_mem h' !! x = hp_mem h !! x;
  fd_brk : hp_brk h' = hp_brk h;
  fd_limit : hp_limit h' = hp_limit h;
  fd_len : (length l' <= length l + 1)%nat
}.

(** The place of a block that is not free. *)
Record placed (h : heap) (l : list block) (bp n : Z) (l1 : list block) (p sp : Z) (l2 : list block) : Prop := {
  pl_split : l = l1 ++ (p, sp) :: l2;
  pl_cell : 0 <= sp /\ base <= p /\ p < bp /\ p + sp <= bp;
  pl_front : forall q, q ∈ l1 -> q.1 < p;
  pl_back : forall q, q ∈ l2 -> 0 < q.2 /\ bp + n <= q.1 /\ q.1 + q.2 <= hp_brk h;
  pl_join : forall n1 r2, join_next bp n l2 = (n1, r2) -> 0 < n1 /\ bp + n1 <= hp_brk h /\ (length r2 <= length l2)%nat /\ forall q, q ∈ r2 -> q ∈ l2
}.

Lemma free_placed h l bp n : heap_ok h l -> 0 < n -> base < bp -> bp + n <= hp_brk h -> (forall x, bp <= x < bp + n -> ~ covered l x) ->
  exists l1 p sp l2, placed h l bp n l1 p sp l2.
Proof.
  intros O Hn Hb Hbrk Hc. pose proof (heap_cells h l O) as F. rewrite Forall_forall in F.
  assert (Ap : forall q, q ∈ l -> q.1 + q.2 <= bp \/ bp + n <= q.1) by (intros q Hq; by apply (apart h l bp n q)).
  destruct (place l bp (ho_sorted h l O)) as (l1 & p & sp & l2 & E & Hp & H1 & H2).
  { apply Forall_forall. intros q Hq. destruct (F q Hq) as (P1 & P2 & [->|(P3 & _)]); [cbn; lia|]. destruct (Ap q Hq); lia. }
  { destruct (ho_list h l O) as (F' & -> & _). eauto. }
  assert (C2 : forall q, q ∈ l2 -> 0 < q.2 /\ bp + n <= q.1 /\ q.1 + q.2 <= hp_brk h).
  { intros q Hq. assert (Hl : q ∈ l) by (rewrite E, elem_of_app, elem_of_cons; tauto). specialize (H2 q Hq).
    destruct (F q Hl) as (P1 & P2 & [->|(P3 & _ & P5)]); [cbn in H2; lia|]. destruct (Ap q Hl); lia. }
  assert (Hl : (p, sp) ∈ l) by (rewrite E, elem_of_app, elem_of_cons; tauto).
  exists l1, p, sp, l2. split; [done| | |done|].
  - destruct (F _ Hl) as (P1 & P2 & _). destruct (Ap _ Hl); cbn in *; lia.
  - intros q Hq. specialize (H1 q Hq). destruct (F q) as (? & _); [rewrite E, elem_of_app; tauto|]. lia.
  - unfold join_next. intros n1 r2. destruct l2 as [|[a s] l2']; [intros [= <- <-]; by repeat split|].
    destruct (C2 (a, s)) as (? & ? & ?); [apply elem_of_cons; by left|]. cbn in *.
    destruct (Z.eqb_spec (bp + n) a); intros [= <- <-]; (split; [lia|]; split; [lia|]; split; [cbn; lia|]); [intros q Hq; apply elem_of_cons; by right|done].
Qed.

Lemma add_block_list h l bp n l1 p sp l2 : heap_ok h l -> placed h l bp n l1 p sp l2 ->
  exists F, add_block l1 p sp bp n l2 = (base, 0) :: F /\ Forall (fun q => 0 < q.2 /\ q.1 + q.2 <= hp_brk h) F.
Proof.
  intros O [E (C1 & C2 & C3 & C4) H1 H2 H3]. destruct (ho_list h l O) as (F & El & HF). unfold add_block.
  destruct (join_next bp n l2) as [n1 r2]. destruct (H3 n1 r2 eq_refl) as (J1 & J2 & _ & J3).
  assert (Fr : Forall (fun q => 0 < q.2 /\ q.1 + q.2 <= hp_brk h) r2) by (apply Forall_forall; intros q Hq; destruct (H2 q (J3 q Hq)); lia).
  rewrite E in El. destruct l1 as [|q l1].
  - injection El as -> -> <-. destruct (Z.eqb_spec (base + 0) bp); [lia|]. eexists. split; [reflexivity|]. constructor; [cbn; lia|done].
  - injection El as -> <-. apply Forall_app in HF as [HF1 [HFp _]%Forall_cons]. cbn in HFp.
    destruct (Z.eqb_spec (p + sp) bp); (eexists; split; [reflexivity|]); apply Forall_app; (split; [done|]); repeat (constructor; [cbn; lia|]); done.
Qed.

Lemma add_block_in l1 p sp bp n l2 : p ∈ map fst (add_block l1 p sp bp n l2) /\ (length (add_block l1 p sp bp n l2) <= length (l1 ++ (p, sp) :: l2) + 1)%nat.
Proof.
  unfold add_block. assert (forall n1 r2, join_next bp n l2 = (n1, r2) -> (length r2 <= length l2)%nat).
  { unfold join_next. intros n1 r2. destruct l2 as [|[a s] l2']; [intros [= <- <-]; done|]. destruct (_ =? _); intros [= <- <-]; cbn; lia. }
  destruct (join_next bp n l2) as [n1 r2]. specialize (H n1 r2 eq_refl).
  destruct (_ =? _); rewrite map_app, elem_of_app, !length_app; cbn [map length]; rewrite elem_of_cons; (split; [tauto|lia]).
Qed.

Lemma free_run h l bp n fuel : heap_ok h l -> h_size (hdr h bp) = n -> 0 < n -> base < bp -> bp + n <= hp_brk h ->
  (forall x, bp <= x < bp + n -> ~ covered l x) -> (length l + 3 < fuel)%nat ->
  exists h' l', free_at fuel bp h = Ok tt h' /\ freed h l bp n h' l'.
Proof.
  intros O En Hn Hb Hbrk Hc Hf. destruct (free_placed h l bp n O Hn Hb Hbrk Hc) as (l1 & p & sp & l2 & Pl). pose proof Pl as [E (C1 & C2 & C3 & C4) H1 H2 H3].
  pose proof (ho_sorted h l O) as S. pose proof (ho_linked h l O) as L. rewrite E in S, L. pose proof (ho_bounds h l O) as [Hbb Hlim].
  assert (Pos : Forall (fun q => 0 < q.2) l2) by (apply Forall_forall; intros q Hq; by apply H2).
  assert (Hd : forall q, q ∈ l2 -> bp + n <= q.1) by (intros q Hq; by apply H2).
  assert (Ef : free_find fuel bp (hp_freep h) h = Some p).
  { apply (find_from h l1 l2 p sp bp L); [done|lia|intros q Hq; specialize (Hd q Hq); lia|..]; rewrite <- ?E.
    - apply sorted_addr; [|apply O]. eapply Forall_impl; [apply (heap_cells h l O)|]. cbn. tauto.
    - by destruct (ho_list h l O) as (F' & -> & _).
    - apply O.
    - rewrite E, length_app in Hf. cbn in Hf. lia. }
  destruct (free_join h l1 l2 p sp bp n L En) with (fuel := fuel) as (h' & Eh & Lk & Efp & Ebr & Eli & Fr).
  - lia.
  - intros q Hq. specialize (Hd q Hq). lia.
  - lia.
  - intros q Hq. specialize (H1 q Hq). lia.
  - split; [lia|]. split; [lia|]. split; [eapply Forall_impl; [exact Pos|]; cbn; lia|]. intros n1 r2 Ej. destruct (H3 n1 r2 Ej) as (? & ? & _). lia.
  - exact Ef.
  - exists h', (add_block l1 p sp bp n l2). destruct (add_block_in l1 p sp bp n l2) as [In Ln]. split; [done|]. split; [split|..].
    + rewrite Ebr. by apply (add_block_list h l).
    + by apply add_block_sorted.
    + done.
    + by rewrite Efp.
    + by rewrite Ebr, Eli.
    + intros x. rewrite E. by apply add_block_covered.
    + intros x N1 N2 N3. apply Fr; [|lia]. intros ->. destruct (Z.eq_dec sp 0) as [->|]; [|apply N2; exists (p, sp); rewrite E, elem_of_app, elem_of_cons; cbn; split; [tauto|lia]].
      pose proof (heap_cells h l O) as F. rewrite Forall_forall in F. destruct (F (p, 0)) as (_ & _ & [[= ->]|(? & _)]); [rewrite E, elem_of_app, elem_of_cons; tauto|done|cbn in *; lia].
    + done.
    + done.
    + rewrite E. exact Ln.
Qed.

(** ** Lemmas: malloc *)

(** What malloc does when it has found the cell [p] after [prevp]. *)
Definition take_units (nunits prevp p : Z) : stM heap Z := (
  h <- sget;
  let size := h_size (hdr h p) in
  if size =? nunits then
    smodify (set_ptr prevp (h_ptr (hdr h p)));;
    smodify (set_freep prevp);;
    sret (p + 1)
  else
    smodify (set_size p (size - nunits));;
    smodify (set_size (p + (size - nunits)) nunits);;
    smodify (set_freep prevp);;
    sret (p + (size - nunits) + 1))%st.

Record taken (h : heap) (l : list block) (nunits q : Z) (h' : heap) (l' : list block) : Prop := {
  tk_ok : heap_ok h' l';
  tk_was : base < q /\ q + nunits <= hp_brk h /\ forall x, q <= x < q + nunits -> covered l x;
  tk_size : h_size (hdr h' q) = nunits;
  tk_covered : forall x, covered l' x <-> covered l x /\ ~ q <= x < q + nunits;
  tk_frame : forall x, x <> base -> ~ covered l x -> hp_mem h' !! x = hp_mem h !! x;
  tk_brk : hp_brk h' = hp_brk h;
  tk_limit : hp_limit h' = hp_limit h
}.

Lemma cells_neq (l1 : list block) p s l2 : Forall (fun q => 0 <= q.2) (l1 ++ (p, s) :: l2) -> StronglySorted before (l1 ++ (p, s) :: l2) ->
  (forall q, q ∈ l1 -> q.1 + q.2 < p) /\ (forall q, q ∈ l2 -> p + s < q.1).
Proof.
  intros F (X & _ & [Y _]%StronglySorted_cons)%StronglySorted_app. rewrite Forall_forall in Y. split.
  - intros q Hq. apply (X q (p, s) Hq). apply elem_of_cons. by left.
  - intros q Hq. exact (Y q Hq).
Qed.

(** The head of the list keeps its place when cells behind it change. *)
Lemma list_shape h la a sa l2 l2' : (exists F, la ++ (a, sa) :: l2 = (base, 0) :: F /\ Forall (fun q => 0 < q.2 /\ q.1 + q.2 <= hp_brk h) F) ->
  Forall (fun q => 0 < q.2 /\ q.1 + q.2 <= hp_brk h) l2' ->
  exists F, la ++ (a, sa) :: l2' = (base, 0) :: F /\ Forall (fun q => 0 < q.2 /\ q.1 + q.2 <= hp_brk h) F.
Proof.
  intros (F & E & HF) H2. destruct la as [|q la]; injection E as -> E.
  - intros. subst. eexists. split; [done|done].
  - subst F. apply Forall_app in HF as [HF1 [HFa _]%Forall_cons]. eexists. split; [reflexivity|]. apply Forall_app. split; [done|]. by constructor.
Qed.

Section Take.
  Context (h : heap) (la lb : list block) (a sa p s nunits : Z).
  Context (O : heap_ok h (la ++ (a, sa) :: (p, s) :: lb)) (Hn : 0 < nunits <= s).

Lemma take_facts : base < p /\ a + sa < p /\ 0 <= sa /\ p + s <= hp_brk h /\ (forall q, q ∈ la -> q.1 + q.2 < a) /\ (forall q, q ∈ lb -> p + s < q.1) /\
  Forall (fun q => 0 < q.2 /\ q.1 + q.2 <= hp_brk h) lb /\ linked (hp_mem h) la a /\ linked (hp_mem h) lb base /\
  hdr h p = mkH (hd_addr lb base) s /\ hdr h a = mkH p sa.
Proof.
  pose proof (heap_cells h _ O) as F. assert (Fn : Forall (fun q => 0 <= q.2) (la ++ (a, sa) :: (p, s) :: lb)) by (eapply Forall_impl; [exact F|]; cbn; tauto).
  pose proof (ho_linked h _ O) as L. pose proof (ho_sorted h _ O) as S. destruct (cells_neq la a sa ((p, s) :: lb) Fn S) as [A1 A2].
  assert (A3 : a + sa < p) by (apply (A2 (p, s)), elem_of_cons; by left).
  assert (E : la ++ (a, sa) :: (p, s) :: lb = (la ++ [(a, sa)]) ++ (p, s) :: lb) by (by rewrite <- app_assoc).
  rewrite E in S, Fn. destruct (cells_neq (la ++ [(a, sa)]) p s lb Fn S) as [_ B2].
  rewrite Forall_app, !Forall_cons in F. destruct F as (_ & (Fa & Fa2 & _) & (Fp & Fp2 & Fp3) & Fb). cbn in *.
  apply linked_app in L as [L1 [La [Lp Lb]]]. cbn in La, Lp, L1.
  assert (base < p) by lia.
  assert (Pp : p + s <= hp_brk h) by (destruct Fp3 as [[= -> ->]|?]; lia). repeat (split; [done || lia|]). split.
  - apply Forall_forall. intros q Hq. rewrite Forall_forall in Fb. specialize (B2 q Hq). destruct (Fb q Hq) as (? & ? & [->|?]); cbn in *; lia.
  - repeat (split; [done|]). unfold hdr. by rewrite La, Lp.
Qed.

Lemma take_exact : s = nunits -> taken h (la ++ (a, sa) :: (p, s) :: lb) nunits p (set_freep a (set_ptr a (hd_addr lb base) h)) (la ++ (a, sa) :: lb).
Proof.
  intros Es. destruct take_facts as (T1 & T2 & T3 & T4 & T5 & T6 & T7 & T8 & T9 & T10 & T11). pose proof (ho_sorted h _ O) as S.
  unfold set_ptr. rewrite T11. cbn [h_size]. split; cbn [set_freep set_hdr hp_mem hp_freep hp_brk hp_limit].
  - split; cbn [set_freep set_hdr hp_mem hp_freep hp_brk hp_limit].
    + apply (list_shape h la a sa ((p, s) :: lb)); [apply O|done].
    + apply StronglySorted_app in S as (X & S1 & [Y [_ S2]%StronglySorted_cons]%StronglySorted_cons). apply StronglySorted_app. split; [|split; [done|]].
      * intros q r Hq Hr. apply (X q r Hq). rewrite !elem_of_cons in *. tauto.
      * apply StronglySorted_cons. apply Forall_cons in Y as [_ Y]. by split.
    + apply linked_app. cbn [hd_addr fst linked]. rewrite lookup_insert_eq. split; [|split; [done|]].
      * apply (linked_frame (hp_mem h)); [|done]. intros q Hq. rewrite lookup_insert_ne; [done|]. intros E. apply T5 in Hq as Hq'. pose proof (heap_cells h _ O) as F.
        rewrite Forall_app, Forall_forall in F. destruct (proj1 F q Hq). lia.
      * apply (linked_frame (hp_mem h)); [|done]. intros q Hq. rewrite lookup_insert_ne; [done|]. specialize (T6 q Hq). lia.
    + rewrite map_app, elem_of_app. cbn. rewrite elem_of_cons. tauto.
    + apply O.
  - split; [done|]. split; [lia|]. intros x Hx. exists (p, s). rewrite elem_of_app, !elem_of_cons. cbn. split; [tauto|lia].
  - unfold hdr. cbn. rewrite lookup_insert_ne by lia. fold (hdr h p). by rewrite T10.
  - intros x. rewrite !covered_app, !covered_cons. cbn [fst snd].
    assert (N1 : covered la x -> ~ p <= x < p + nunits) by (intros (q & Hq & ?); specialize (T5 q Hq); lia).
    assert (N2 : covered lb x -> ~ p <= x < p + nunits) by (intros (q & Hq & ?); specialize (T6 q Hq); lia).
    assert (N3 : a <= x < a + sa -> ~ p <= x < p + nunits) by lia. rewrite Es. tauto.
  - intros x N1 N2. rewrite lookup_insert_ne; [done|]. intros <-. destruct (Z.eq_dec sa 0) as [E|E]; [|apply N2; exists (a, sa); rewrite elem_of_app, elem_of_cons; cbn; split; [tauto|lia]].
    pose proof (heap_cells h _ O) as F. rewrite Forall_app, Forall_cons in F. destruct (proj1 (proj2 F)) as (_ & _ & [[= -> _]|?]); [done|cbn in *; lia].
  - done.
  - done.
Qed.

Lemma take_split : s <> nunits -> let q := p + (s - nunits) in
  taken h (la ++ (a, sa) :: (p, s) :: lb) nunits q (set_freep a (set_size q nunits (set_size p (s - nunits) h))) (la ++ (a, sa) :: (p, s - nunits) :: lb).
Proof.
  intros Es q. destruct take_facts as (T1 & T2 & T3 & T4 & T5 & T6 & T7 & T8 & T9 & T10 & T11). pose proof (ho_sorted h _ O) as S.
  unfold set_size. rewrite T10. cbn [h_ptr]. split; cbn [set_freep set_hdr hp_mem hp_freep hp_brk hp_limit].
  - split; cbn [set_freep set_hdr hp_mem hp_freep hp_brk hp_limit].
    + apply (list_shape h la a sa ((p, s) :: lb)); [apply O|]. constructor; [cbn; lia|done].
    + apply StronglySorted_app in S as (X & S1 & [Y [Y2 S2]%StronglySorted_cons]%StronglySorted_cons). apply StronglySorted_app. split; [|split; [done|]].
      * intros x r Hx. rewrite !elem_of_cons. intros [->|[->|Hr]]; [apply (X x); [done|]; rewrite !elem_of_cons; tauto| |apply (X x); [done|]; rewrite !elem_of_cons; tauto].
        apply (X x (p, s) Hx). rewrite !elem_of_cons. tauto.
      * apply StronglySorted_cons. apply Forall_cons in Y as [Y0 Y]. split; [by constructor|]. apply StronglySorted_cons. split; [|done].
        apply Forall_forall. intros r Hr. specialize (T6 r Hr). unfold before. cbn. lia.
    + set (m := <[q := _]> _). assert (Em : forall x, x <> q -> x <> p -> m !! x = hp_mem h !! x) by (intros x X1 X2; unfold m; by rewrite !lookup_insert_ne by congruence).
      assert (Ep : m !! p = Some (mkH (hd_addr lb base) (s - nunits))) by (unfold m; rewrite lookup_insert_ne, lookup_insert_eq by lia; done).
      apply linked_app. cbn [hd_addr fst linked]. rewrite Ep, Em by lia. split; [|split; [|split; [done|]]].
      * apply (linked_frame (hp_mem h)); [|done]. intros x Hx. pose proof (T5 x Hx). pose proof (heap_cells h _ O) as F. rewrite Forall_app, Forall_forall in F.
        destruct (proj1 F x Hx). apply Em; lia.
      * pose proof (ho_linked h _ O) as L. apply linked_app in L as [_ [La _]]. exact La.
      * apply (linked_frame (hp_mem h)); [|done]. intros x Hx. specialize (T6 x Hx). apply Em; lia.
    + rewrite map_app, elem_of_app. cbn. rewrite elem_of_cons. tauto.
    + apply O.
  - split; [lia|]. split; [lia|]. intros x Hx. exists (p, s). rewrite elem_of_app, !elem_of_cons. cbn. split; [tauto|lia].
  - unfold hdr. cbn. by rewrite lookup_insert_eq.
  - intros x. rewrite !covered_app, !covered_cons. cbn [fst snd].
    assert (N1 : covered la x -> ~ q <= x < q + nunits) by (intros (r & Hq & ?); specialize (T5 r Hq); lia).
    assert (N2 : covered lb x -> ~ q <= x < q + nunits) by (intros (r & Hq & ?); specialize (T6 r Hq); lia).
    assert (N3 : a <= x < a + sa -> ~ q <= x < q + nunits) by lia.
    assert (N4 : p <= x < p + (s - nunits) <-> p <= x < p + s /\ ~ q <= x < q + nunits) by lia. tauto.
  - intros x N1 N2. assert (~ p <= x < p + s) by (intros ?; apply N2; exists (p, s); rewrite elem_of_app, !elem_of_cons; cbn; split; [tauto|lia]).
    rewrite !lookup_insert_ne by lia. done.
  - done.
  - done.
Qed.

Lemma take_run : exists h' l' q, take_units nunits a p h = Ok (q + 1) h' /\ taken h (la ++ (a, sa) :: (p, s) :: lb) nunits q h' l'.
Proof.
  pose proof take_exact as H1. pose proof take_split as H2. destruct take_facts as (_ & _ & _ & _ & _ & _ & _ & _ & _ & T10 & _).
  unfold take_units, sbind, sget, smodify, sret. rewrite T10. cbn [h_size h_ptr]. destruct (Z.eqb_spec s nunits) as [E|E]; eexists _, _, _; (split; [reflexivity|]); [by apply H1|by apply H2].
Qed.
End Take.

(** ** Lemmas: the loop of malloc *)

Definition after_core (n fuel : nat) (nunits : Z) : stM heap Z :=
  (p <- morecore fuel nunits; if p =? 0 then sret 0 else h <- sget; malloc_loop n fuel nunits p (h_ptr (hdr h p)))%st.

Lemma loop_step n fuel nunits prevp p h : malloc_loop (S n) fuel nunits prevp p h =
  if nunits <=? h_size (hdr h p) then take_units nunits prevp p h
  else if p =? hp_freep h then after_core n fuel nunits h else malloc_loop n fuel nunits p (h_ptr (hdr h p)) h.
Proof.
  cbn [malloc_loop]. unfold take_units, after_core, sbind, sget, smodify, sret. destruct (nunits <=? _); [by destruct (_ =? nunits)|by destruct (p =? _)].
Qed.

Fixpoint last_addr (w : list block) (a : Z) : Z := match w with [] => a | q :: w => last_addr w q.1 end.

(** Walking over the cells [w] that come after [a]; [f] is freep. *)
Lemma loop_walk w : forall n fuel nunits a s e h, linked (hp_mem h) ((a, s) :: w) e -> (forall q, q ∈ w -> q.2 < nunits /\ q.1 <> hp_freep h) ->
  malloc_loop (length w + n) fuel nunits a (hd_addr w e) h = malloc_loop n fuel nunits (last_addr w a) e h.
Proof.
  induction w as [|[c t] w IH]; intros n fuel nunits a s e h L Hw; [done|]. destruct L as [La [Lc Lw]]. cbn [length Nat.add hd_addr fst]. rewrite loop_step.
  destruct (Hw (c, t)) as [H1 H2]; [apply elem_of_cons; by left|]. cbn in H1, H2.
  assert (Ec : hdr h c = mkH (hd_addr w e) t) by (unfold hdr; by rewrite Lc). rewrite Ec. cbn [h_size h_ptr].
  destruct (Z.leb_spec nunits t); [lia|]. destruct (Z.eqb_spec c (hp_freep h)); [done|]. rewrite (IH n fuel nunits c t e h); [|by split|intros q Hq; apply Hw, elem_of_cons; by right].
  done.
Qed.

(** The list of the heap read from freep on, all the way round. *)
Lemma rotate h l : heap_ok h l -> exists l1 s l2, l = l1 ++ (hp_freep h, s) :: l2 /\ hdr h (hp_freep h) = mkH (hd_addr (l2 ++ l1) (hp_freep h)) s /\
  linked (hp_mem h) ((hp_freep h, s) :: l2 ++ l1) (hp_freep h) /\ forall q, q ∈ l2 ++ l1 -> q.1 <> hp_freep h.
Proof.
  intros O. destruct (cell_split l _ (ho_freep h l O)) as (l1 & s & l2 & E). pose proof (ho_linked h l O) as L. pose proof (ho_sorted h l O) as S.
  assert (Fn : Forall (fun q => 0 <= q.2) l) by (eapply Forall_impl; [apply (heap_cells h l O)|]; cbn; tauto). rewrite E in L, S, Fn.
  destruct (cells_neq l1 _ s l2 Fn S) as [A B]. assert (Hb : hd_addr l1 (hp_freep h) = base).
  { destruct (ho_list h l O) as (F & El & _). rewrite E in El. destruct l1 as [|q l1]; injection El; [by intros|]. by intros _ ->. }
  apply linked_app in L as [L1 L2]. cbn [hd_addr fst] in L1. assert (Lr : linked (hp_mem h) ((hp_freep h, s) :: l2 ++ l1) (hp_freep h)).
  { change ((hp_freep h, s) :: l2 ++ l1) with (((hp_freep h, s) :: l2) ++ l1). apply linked_app. by rewrite Hb. }
  exists l1, s, l2. split; [done|]. split; [unfold hdr; by rewrite (proj1 Lr)|]. split; [done|]. rewrite Forall_app, Forall_cons, !Forall_forall in Fn.
  intros q [Hq|Hq]%elem_of_app; [specialize (B q Hq); cbn in Fn; destruct Fn as (_ & ? & _); lia|]. specialize (A q Hq). destruct Fn as (Fn & _). specialize (Fn q Hq). cbn in Fn. lia.
Qed.


Lemma linked_last m w a s e : linked m ((a, s) :: w) e -> exists t, m !! last_addr w a = Some (mkH e t).
Proof. revert a s. induction w as [|[c t] w IH]; intros a s [L1 L2]; [eauto|]. by apply (IH c t). Qed.
Lemma last_in (w : list block) a : last_addr w a = a \/ last_addr w a ∈ map fst w.
Proof.
  revert a. induction w as [|q w IH]; intros a; [by left|]. right. cbn. rewrite elem_of_cons. destruct (IH q.1) as [->|]; tauto.
Qed.

(** The cell before a non-empty one. *)
Lemma pred_cell h l a p s : heap_ok h l -> a ∈ map fst l -> h_ptr (hdr h a) = p -> (p, s) ∈ l -> 0 < s -> exists la sa lb, l = la ++ (a, sa) :: (p, s) :: lb.
Proof.
  intros O Ha Ep Hp Hs. destruct (cell_split l a Ha) as (la & sa & lb & E). pose proof (ho_linked h l O) as L. rewrite E in L.
  rewrite (hdr_at h la a sa lb base L) in Ep. cbn [h_ptr] in Ep. pose proof (heap_cells h l O) as F. rewrite Forall_forall in F.
  destruct (F _ Hp) as (_ & _ & [[= -> ->]|(_ & Hb & _)]); [lia|]. cbn in Hb. destruct lb as [|[c t] lb]; cbn in Ep; [lia|]. subst c.
  assert (Ht : hdr h p = mkH (hd_addr lb base) t) by (apply (hdr_at h (la ++ [(a, sa)]) p t lb base); by rewrite <- app_assoc).
  apply list_elem_of_split in Hp as (l1 & l2 & El). pose proof (ho_linked h l O) as L'. rewrite El in L'. rewrite (hdr_at h l1 p s l2 base L') in Ht. injection Ht as _ ->.
  exists la, sa, lb. done.
Qed.

Lemma phase_none h l n fuel nunits : heap_ok h l -> (forall q, q ∈ l -> q.2 < nunits) ->
  malloc_loop (length l + n) fuel nunits (hp_freep h) (h_ptr (hdr h (hp_freep h))) h = after_core n fuel nunits h.
Proof.
  intros O Hw. destruct (rotate h l O) as (l1 & s & l2 & E & Eh & L & N). rewrite Eh at 1. cbn [h_ptr].
  assert (Ln : (length l + n)%nat = (length (l2 ++ l1) + S n)%nat) by (rewrite E, !length_app; cbn; lia). rewrite Ln, (loop_walk _ _ _ _ _ s).
  - rewrite loop_step, Eh. cbn [h_size]. assert (s < nunits) by (apply (Hw (hp_freep h, s)); rewrite E, elem_of_app, elem_of_cons; tauto).
    destruct (Z.leb_spec nunits s); [lia|]. by rewrite Z.eqb_refl.
  - done.
  - intros q Hq. split; [|by apply N]. apply Hw. rewrite E, elem_of_app, elem_of_cons. apply elem_of_app in Hq. tauto.
Qed.

(** The first cell that fits. *)
Lemma first_fit (w : list block) nunits : (exists q, q ∈ w /\ nunits <= q.2) -> exists w1 c w2, w = w1 ++ c :: w2 /\ nunits <= c.2 /\ forall q, q ∈ w1 -> q.2 < nunits.
Proof.
  induction w as [|r w IH]; intros (q & Hq & H); [by apply not_elem_of_nil in Hq|]. destruct (Z.le_gt_cases nunits r.2) as [Hr|Hr].
  - exists [], r, w. split; [done|]. split; [done|]. intros x Hx. by apply not_elem_of_nil in Hx.
  - destruct IH as (w1 & c & w2 & -> & Hc & Hw); [apply elem_of_cons in Hq as [->|Hq]; [lia|eauto]|]. exists (r :: w1), c, w2. split; [done|]. split; [done|].
    intros x [->|Hx]%elem_of_cons; auto.
Qed.

Lemma phase_found h l n fuel nunits : heap_ok h l -> 0 < nunits -> (exists q, q ∈ l /\ nunits <= q.2) -> (length l <= n)%nat ->
  exists la a sa p s lb, l = la ++ (a, sa) :: (p, s) :: lb /\ nunits <= s /\
    malloc_loop n fuel nunits (hp_freep h) (h_ptr (hdr h (hp_freep h))) h = take_units nunits a p h.
Proof.
  intros O Hn (q & Hq & Hs) Hl. destruct (rotate h l O) as (l1 & s & l2 & E & Eh & L & N). set (f := hp_freep h) in *.
  destruct (first_fit ((l2 ++ l1) ++ [(f, s)]) nunits) as (w1 & [p t] & w2 & Ew & Hc & Hw).
  { exists q. split; [|done]. rewrite E in Hq. rewrite !elem_of_app, elem_of_cons in *. rewrite elem_of_nil. tauto. }
  cbn in Hc. assert (Lw : linked (hp_mem h) ((f, s) :: w1) p /\ (forall r, r ∈ w1 -> r ∈ l2 ++ l1) /\ (p, t) ∈ l /\ (length w1 < length l)%nat).
  { apply app_eq_app in Ew as (k & [[E1 E2]|[E1 E2]]).
    - destruct k as [|c k]; cbn in E2.
      + injection E2 as <- <- _. rewrite app_nil_r in E1. subst w1. split; [done|]. split; [done|]. rewrite E, elem_of_app, elem_of_cons, !length_app. cbn. split; [tauto|]. rewrite ?length_app. lia.
      + injection E2 as <- ->. rewrite E1 in L. change ((f, s) :: w1 ++ (p, t) :: k) with (((f, s) :: w1) ++ (p, t) :: k) in L. apply linked_app in L as [L _].
        split; [exact L|]. assert (Hin : (p, t) ∈ l2 ++ l1) by (rewrite E1, elem_of_app, elem_of_cons; tauto). assert (Hk : (length (l2 ++ l1) = length w1 + S (length k))%nat) by (rewrite E1, length_app; done).
        split; [intros r Hr; rewrite E1, elem_of_app; tauto|]. rewrite E, !length_app in *. cbn. rewrite elem_of_app in *. rewrite elem_of_cons. split; [tauto|]. rewrite ?length_app in Hk. lia.
    - destruct k as [|c k]; cbn in E2.
      + injection E2 as -> -> _. rewrite app_nil_r in E1. subst w1. split; [done|]. split; [done|]. rewrite E, elem_of_app, elem_of_cons, !length_app. cbn. split; [tauto|]. rewrite ?length_app. lia.
      + injection E2 as _ E2. by destruct k. }
  destruct Lw as (Lw & Sub & Hin & Len). assert (Hp : hdr h p = mkH (h_ptr (hdr h p)) t).
  { apply list_elem_of_split in Hin as (x & y & El). pose proof (ho_linked h l O) as L'. rewrite El in L'. by rewrite (hdr_at h x p t y base L'). }
  assert (Ea : last_addr w1 f ∈ map fst l).
  { destruct (last_in w1 f) as [->|H]; [apply O|]. apply list_elem_of_fmap in H as (r & -> & Hr). apply list_elem_of_fmap. exists r. split; [done|].
    specialize (Sub r Hr). rewrite E, elem_of_app, elem_of_cons. apply elem_of_app in Sub. tauto. }
  destruct (linked_last _ _ _ _ _ Lw) as [u Hu]. destruct (pred_cell h l (last_addr w1 f) p t O Ea) as (la & sa & lb & El); [unfold hdr; by rewrite Hu|done|lia|].
  exists la, (last_addr w1 f), sa, p, t, lb. split; [done|]. split; [done|].
  replace n with (length w1 + S (n - length w1 - 1))%nat by lia. rewrite Eh. cbn [h_ptr].
  assert (Hd : hd_addr (l2 ++ l1) f = hd_addr w1 p).
  { destruct Lw as [Lw _]. destruct L as [L _]. rewrite L in Lw. by injection Lw. }
  rewrite Hd, (loop_walk w1 _ _ _ f s p h Lw), loop_step, Hp; [cbn [h_size]; by destruct (Z.leb_spec nunits t); [|lia]|].
  intros r Hr. split; [by apply Hw|]. by apply N, Sub.
Qed.

(** ** Lemmas: more memory *)

Lemma covering_cell (l : list block) b e : StronglySorted before l -> b < e -> (forall x, b <= x < e -> covered l x) -> exists q, q ∈ l /\ q.1 <= b /\ e <= q.1 + q.2.
Proof.
  intros S Hbe Hc. destruct (Hc b ltac:(lia)) as (q & Hq & H). exists q. split; [done|]. split; [lia|]. destruct (Z.le_gt_cases e (q.1 + q.2)) as [|He]; [done|exfalso].
  destruct (Hc (q.1 + q.2) ltac:(lia)) as (r & Hr & H'). apply list_elem_of_split in Hq as (l1 & l2 & ->).
  apply StronglySorted_app in S as (X & _ & [Y _]%StronglySorted_cons). rewrite Forall_forall in Y.
  apply elem_of_app in Hr as [Hr|[->|Hr]%elem_of_cons]; [|lia|].
  - specialize (X r q Hr ltac:(apply elem_of_cons; by left)). unfold before in X. lia.
  - specialize (Y r Hr). unfold before in Y. lia.
Qed.

(** The heap after sbrk and the header of the new block. *)
Lemma grow_ok h l nu : heap_ok h l -> 0 < nu -> hp_brk h + nu <= hp_limit h ->
  let h1 := set_size (hp_brk h) nu (mkHeap (hp_mem h) (hp_freep h) (hp_brk h + nu) (hp_limit h)) in
  heap_ok h1 l /\ h_size (hdr h1 (hp_brk h)) = nu /\ forall x, x <> hp_brk h -> hp_mem h1 !! x = hp_mem h !! x.
Proof.
  intros O Hn Hl h1. pose proof (heap_cells h l O) as F. rewrite Forall_forall in F. pose proof (ho_bounds h l O).
  split; [split|split].
  - destruct (ho_list h l O) as (F' & -> & HF). exists F'. split; [done|]. eapply Forall_impl; [exact HF|]. cbn. lia.
  - apply O.
  - apply (linked_frame (hp_mem h)); [|apply O]. intros q Hq. cbn. rewrite lookup_insert_ne; [done|]. destruct (F q Hq) as (? & ? & [->|?]); cbn; lia.
  - apply O.
  - cbn. lia.
  - unfold hdr. cbn. by rewrite lookup_insert_eq.
  - intros x Hx. cbn. by rewrite lookup_insert_ne.
Qed.

Record cored (h : heap) (l : list block) (nunits : Z) (h' : heap) (l' : list block) : Prop := {
  co_ok : heap_ok h' l';
  co_brk : hp_brk h + nunits <= hp_brk h' <= hp_limit h';
  co_limit : hp_limit h' = hp_limit h;
  co_covered : forall x, covered l' x <-> covered l x \/ hp_brk h <= x < hp_brk h';
  co_frame : forall x, x <> base -> x < hp_brk h -> ~ covered l x -> hp_mem h' !! x = hp_mem h !! x;
  co_len : (length l' <= length l + 1)%nat
}.

Lemma morecore_run h l nunits fuel : heap_ok h l -> 0 < nunits -> nunits * 16 < 2 ^ 31 -> (length l + 3 < fuel)%nat ->
  morecore fuel nunits h = Ok 0 h \/ exists h' l', morecore fuel nunits h = Ok (hp_freep h') h' /\ cored h l nunits h' l'.
Proof.
  intros O Hn Hov Hf. pose proof (ho_bounds h l O) as [Hb Hlim]. unfold morecore. set (nu := if nunits <? 4096 then 4096 else nunits).
  assert (Hnu : nunits <= nu /\ 0 < nu /\ nu * 16 < 2 ^ 31) by (unfold nu; destruct (Z.ltb_spec nunits 4096); lia).
  assert (Es : s32 (nu * 16) = nu * 16) by (unfold s32, sint; rewrite Z.mod_small by lia; destruct (Z.ltb_spec (nu * 16) (2 ^ (32 - 1))); lia).
  assert (Eu : u32 (16 * hp_brk h + nu * 16) = 16 * (hp_brk h + nu)) by (unfold u32; rewrite Z.mod_small by lia; lia).
  assert (Em : sbrk (s32 (nu * 16)) h = if hp_limit h <? hp_brk h + nu then Ok (-1) h else Ok (hp_brk h) (mkHeap (hp_mem h) (hp_freep h) (hp_brk h + nu) (hp_limit h))).
  { unfold sbrk. rewrite Es, Eu. destruct (Z.ltb_spec 0 (nu * 16)); [|lia]. destruct (Z.leb_spec (16 * hp_brk h) (16 * (hp_brk h + nu))); [|lia]. cbn [andb].
    destruct (Z.ltb_spec (16 * hp_limit h) (16 * (hp_brk h + nu))), (Z.ltb_spec (hp_limit h) (hp_brk h + nu)); try lia; [done|].
    by replace (16 * (hp_brk h + nu) / 16) with (hp_brk h + nu) by (rewrite Z.mul_comm, Z.div_mul; lia). }
  unfold sbind. rewrite Em. destruct (Z.ltb_spec (hp_limit h) (hp_brk h + nu)); [by left|right]. destruct (Z.eqb_spec (hp_brk h) (-1)); [lia|].
  destruct (grow_ok h l nu O) as (O1 & E1 & Fr1); [lia|lia|]. set (h1 := set_size _ _ _) in *.
  assert (Hc : forall x, hp_brk h <= x < hp_brk h + nu -> ~ covered l x).
  { intros x Hx (q & Hq & ?). pose proof (heap_cells h l O) as F. rewrite Forall_forall in F. destruct (F q Hq) as (? & ? & [->|?]); cbn in *; lia. }
  destruct (free_run h1 l (hp_brk h) nu fuel O1 E1) as (h' & l' & Ef & [D1 D2 D3 D4 D5 D6]); [lia|lia|cbn; lia|done|done|]. change (hp_brk h1) with (hp_brk h + nu) in D4. change (hp_limit h1) with (hp_limit h) in D5.
  exists h', l'. split.
  - unfold smodify, free. fold h1. replace (hp_brk h + 1 - 1) with (hp_brk h) by lia. by rewrite Ef.
  - split; [done|lia|done| |intros x X1 X2 X3; rewrite D3, Fr1; [done|lia|done|done|lia]|done]. intros x. rewrite D2, D4. done.
Qed.

(** ** Theorems *)

(** Either the heap is in use, or malloc has not been called yet. *)
Definition heap_state (h : heap) (l : list block) : Prop :=
  heap_ok h l \/ hp_freep h = 0 /\ l = [(base, 0)] /\ base < hp_brk h <= hp_limit h /\ hp_limit h < 2 ^ 27.

Lemma malloc_start n fuel nbytes h l : heap_state h l -> exists h0, heap_ok h0 l /\ hp_brk h0 = hp_brk h /\ hp_limit h0 = hp_limit h /\
  (forall x, x <> base -> hp_mem h0 !! x = hp_mem h !! x) /\
  malloc n fuel nbytes h = malloc_loop n fuel (malloc_units nbytes) (hp_freep h0) (h_ptr (hdr h0 (hp_freep h0))) h0.
Proof.
  intros [O|(E & -> & B)]; unfold malloc, sbind, sget.
  - exists h. do 4 (split; [done|]). pose proof (heap_cells h l O) as F. rewrite Forall_forall in F. pose proof (ho_freep h l O) as (q & Eq & Hq)%list_elem_of_fmap.
    destruct (F q Hq) as (_ & ? & _). destruct (Z.eqb_spec (hp_freep h) 0); [lia|]. done.
  - rewrite E. cbn [Z.eqb]. unfold smodify, sret. set (h0 := set_freep _ _). exists h0. split; [split|].
    + by exists [].
    + repeat constructor.
    + cbn. unfold set_ptr, set_size, hdr. cbn. rewrite insert_insert_eq, lookup_insert_eq. cbn. by rewrite lookup_insert_eq.
    + cbn. apply elem_of_cons. by left.
    + done.
    + do 2 (split; [done|]). split; [|done]. intros x Hx. cbn. by rewrite !lookup_insert_ne by congruence.
Qed.

Lemma units_bounds nbytes : 0 <= nbytes <= 2 ^ 31 - 32 -> 0 < malloc_units nbytes /\ malloc_units nbytes * 16 < 2 ^ 31 /\ nbytes <= 16 * (malloc_units nbytes - 1).
Proof.
  intros H. unfold malloc_units, u32. pose proof (Z.div_mod (nbytes + 16 - 1) 16 ltac:(lia)). pose proof (Z.mod_pos_bound (nbytes + 16 - 1) 16 ltac:(lia)).
  rewrite Z.mod_small by lia. lia.
Qed.

(** The result of malloc. *)
Record malloced (h : heap) (l : list block) (nbytes q : Z) (h' : heap) (l' : list block) : Prop := {
  ma_ok : heap_ok h' l';
  ma_size : nbytes <= 16 * (malloc_units nbytes - 1) /\ h_size (hdr h' q) = malloc_units nbytes;
  ma_brk : hp_brk h <= hp_brk h' /\ base < q /\ q + malloc_units nbytes <= hp_brk h';
  ma_was : forall x, q <= x < q + malloc_units nbytes -> covered l x \/ hp_brk h <= x < hp_brk h';
  ma_covered : forall x, covered l' x <-> (covered l x \/ hp_brk h <= x < hp_brk h') /\ ~ q <= x < q + malloc_units nbytes;
  ma_frame : forall x, x <> base -> x < hp_brk h -> ~ covered l x -> hp_mem h' !! x = hp_mem h !! x
}.

Lemma malloc_found h l n fuel nunits : heap_ok h l -> 0 < nunits -> (exists q, q ∈ l /\ nunits <= q.2) -> (length l <= n)%nat ->
  exists h' l' q, malloc_loop n fuel nunits (hp_freep h) (h_ptr (hdr h (hp_freep h))) h = Ok (q + 1) h' /\ taken h l nunits q h' l'.
Proof.
  intros O Hn Hq Hl. destruct (phase_found h l n fuel nunits O Hn Hq Hl) as (la & a & sa & p & s & lb & -> & Hs & ->). by apply take_run.
Qed.


(** C40. free of a block in use (of the size its header says, inside the memory
    and apart from the free blocks) ends for every position of freep, adds
    exactly the block to the free memory, merges it with its neighbours, and
    changes no header outside the free memory and the block. *)
Theorem free_correct fuel ap h l :
  heap_ok h l -> base < ap - 1 -> 0 < h_size (hdr h (ap - 1)) -> ap - 1 + h_size (hdr h (ap - 1)) <= hp_brk h ->
  (forall x, ap - 1 <= x < ap - 1 + h_size (hdr h (ap - 1)) -> ~ covered l x) -> (length l + 3 < fuel)%nat ->
  exists h' l', free fuel ap h = Ok tt h' /\ freed h l (ap - 1) (h_size (hdr h (ap - 1))) h' l'.
Proof. intros O Hb Hn Hbrk Hc Hf. by apply free_run. Qed.

(** A request of 2 GB: the byte count passed to sbrk is negative as an int,
    sbrk succeeds without giving memory, and malloc returns a block that ends
    far beyond the end of the process. *)
Theorem malloc_overflow :
  exists h', malloc 10 10 0x80000000 (mkHeap ∅ 0 1000 2048) = Ok 1001 h' /\ hp_brk h' = 1000 /\ h_size (hdr h' 1000) = 2 ^ 27 + 1.
Proof. eexists. split; [vm_compute; reflexivity|]. split; vm_compute; reflexivity. Qed.

Definition demo_heap : heap := mkHeap ∅ 0 1024 16384.
Definition demo_heap1 : heap := match malloc 20 20 100 demo_heap with Ok _ h => h | _ => demo_heap end.


Lemma free_correct_witness : exists h' l', free 20 5113 demo_heap1 = Ok tt h' /\ freed demo_heap1 [(base, 0); (1024, 4088)] 5112 8 h' l'.
Proof.
  apply (free_correct 20 5113 demo_heap1 [(base, 0); (1024, 4088)]).
  - split.
    + eexists. split; [reflexivity|]. constructor; [split; [reflexivity|vm_compute; discriminate]|constructor].
    + repeat constructor.
    + vm_compute. auto.
    + vm_compute. by left.
    + vm_compute. repeat split; discriminate.
  - done.
  - vm_compute. reflexivity.
  - vm_compute. discriminate.
  - intros x Hx. change (h_size (hdr demo_heap1 (5113 - 1))) with 8 in Hx. rewrite !covered_cons, covered_nil. cbn. lia.
  - cbn. lia.
Defined.
