(* ===== verification/Mkfs.v ===== *)
(** * The builder of the initial disk image (mkfs/mkfs.c)

    mkfs runs on the host: it writes the image sector by sector, counting up
    the next free inode and the next free block.  The state is the image, the
    superblock under construction and the two counters.  [die] and a failed
    assert end the program ([Panic]); an access outside an array is [Wrong].
    The host is little-endian and its [char] is signed. *)
From S2P Require Import Prelude Str Bio Log Machine Types Vm Codec Balloc Inode Dir.
Local Open Scope st_scope.

Notation NINODES := 12000 (only parsing).
Notation FSSIZE := 300000 (only parsing).

Definition nibitmap : Z := NINODES / (BSIZE * 8) + 1.
Definition nbitmap : Z := FSSIZE / (BSIZE * 8) + 1.
Definition ninodeblocks : Z := NINODES / IPB + 1.
Definition nlog : Z := LOGSIZE.
Definition nmeta : Z := 2 + nlog + ninodeblocks + nbitmap + nibitmap.
Definition nblocks : Z := FSSIZE - nmeta.

Record mkst := mkMk { mk_img : gmap Z bytes; mk_sb : superblock; mk_freeinode : Z; mk_freeblock : Z }.

Definition set_img (f : gmap Z bytes -> gmap Z bytes) (s : mkst) : mkst := mkMk (f (mk_img s)) (mk_sb s) (mk_freeinode s) (mk_freeblock s).
Definition set_mksb (f : superblock -> superblock) (s : mkst) : mkst := mkMk (mk_img s) (f (mk_sb s)) (mk_freeinode s) (mk_freeblock s).

(** freeblock++ and freeinode++ *)
Definition next_block : stM mkst Z := fun s => Ok (mk_freeblock s) (mkMk (mk_img s) (mk_sb s) (mk_freeinode s) (u32 (mk_freeblock s + 1))).
Definition next_inode : stM mkst Z := fun s => Ok (mk_freeinode s) (mkMk (mk_img s) (mk_sb s) (u32 (mk_freeinode s + 1)) (mk_freeblock s)).

Definition die {A} (msg : string) : stM mkst A := spanic msg.
Definition assert (b : bool) : stM mkst unit := if b then sret tt else spanic "assert".
Definition wrong {A} (msg : string) : stM mkst A := fun _ => Wrong msg.

(** The bytes of [x] in little-endian order, read back as a host integer. *)
Definition xshort (x : Z) : Z := le_dec [u8 x; u8 (Z.shiftr x 8)].
Definition xint (x : Z) : Z := le_dec [u8 x; u8 (Z.shiftr x 8); u8 (Z.shiftr x 16); u8 (Z.shiftr x 24)].

(** The position in the image file is [sec * BSIZE] as an unsigned int. *)
Definition sector (sec : Z) : Z := u32 (sec * BSIZE) / BSIZE.
Definition wsect (sec : Z) (buf : bytes) : stM mkst unit := smodify (set_img (fun m => <[sector sec := buf]> m)).
(** A sector that was never written lies past the end of the image file. *)
Definition rsect (sec : Z) : stM mkst bytes :=
  s <- sget;
  match mk_img s !! sector sec with
  | Some d => sret d
  | None => die "read"
  end.

(** The whole struct is copied; its unused bytes are zero in the image and in
    every inode mkfs builds, so the fields are what changes. *)
Definition winode (inum : Z) (ip : dinode) : stM mkst unit :=
  s <- sget;
  let bn := u32 (IBLOCK inum (mk_sb s)) in
  buf <- rsect bn;
  wsect bn (put_dinode (dioff inum) ip buf).
Definition rinode (inum : Z) : stM mkst dinode :=
  s <- sget;
  let bn := u32 (IBLOCK inum (mk_sb s)) in
  buf <- rsect bn;
  sret (get_dinode (dioff inum) buf).

Definition ialloc (type : Z) : stM mkst Z :=
  inum <- next_inode;
  winode inum (mkDi (s16 (xshort type)) 0 0 (s16 (xshort 1)) (xint 0) 3 0 (replicate 15 0) 1);;
  sret inum.

(** The first [used] bits set, in one block: of balloc and setibmap. *)
Definition used_bits (used : Z) : bytes := fold_left (fun buf i => set_bit i buf) (seqZ 0 used) (zeros BSIZE).
Definition balloc (used : Z) : stM mkst unit :=
  assert (used <? BSIZE * 8);;
  s <- sget;
  wsect (sb_bmapstart (mk_sb s)) (used_bits used).
Definition setibmap (used : Z) : stM mkst unit :=
  assert (used <? BSIZE * 8);;
  s <- sget;
  wsect (sb_ibmapstart (mk_sb s)) (used_bits used).

(** ** Files *)

Definition daddr (di : dinode) (i : Z) : Z := nth (Z.to_nat i) (d_addrs di) 0.
Definition set_daddr (i x : Z) (di : dinode) : dinode :=
  mkDi (d_type di) (d_major di) (d_minor di) (d_nlink di) (d_size di) (d_rwmode di) (d_supermode di)
    (<[Z.to_nat i := x]> (d_addrs di)) (d_showmode di).
Definition set_dsize (x : Z) (di : dinode) : dinode :=
  mkDi (d_type di) (d_major di) (d_minor di) (d_nlink di) x (d_rwmode di) (d_supermode di) (d_addrs di) (d_showmode di).

Definition MAXFILE : Z := NDIRECT + NINDIRECT + NINDIRECT * NINDIRECT + NINDIRECT * NINDIRECT * NINDIRECT.

(** Entry [b] of the indirect block at [addr], allocated if missing. *)
Definition ind_entry (addr b : Z) (indirect : bytes) : stM mkst bytes :=
  if ld32 (4 * b) indirect =? 0 then
    x <- next_block;
    let indirect := st32 (4 * b) (xint x) indirect in
    wsect (xint addr) indirect;;
    sret indirect
  else sret indirect.

(** The block of file block [fbn], allocated if missing. *)
Definition iappend_block (fbn : Z) (din : dinode) : stM mkst (Z * dinode) :=
  if fbn <? NDIRECT then
    din <- (if xint (daddr din fbn) =? 0 then x <- next_block; sret (set_daddr fbn (xint x) din) else sret din);
    sret (xint (daddr din fbn), din)
  else
    din <- (if xint (daddr din NDIRECT) =? 0 then x <- next_block; sret (set_daddr NDIRECT (xint x) din) else sret din);
    indirect <- rsect (xint (daddr din NDIRECT));
    if NINDIRECT <=? fbn - NDIRECT then wrong "indirect[] out of bounds"
    else
      indirect <- ind_entry (daddr din NDIRECT) (fbn - NDIRECT) indirect;
      sret (xint (ld32 (4 * (fbn - NDIRECT)) indirect), din).

Fixpoint iappend_loop (fuel : nat) (p : bytes) (off : Z) (din : dinode) : stM mkst (Z * dinode) :=
  if zlen p <=? 0 then sret (off, din)
  else
    match fuel with
    | O => wrong "iappend: fuel"
    | S fuel =>
        let fbn := off / BSIZE in
        assert (fbn <? MAXFILE);;
        '(x, din) <- iappend_block fbn din;
        let n1 := Z.min (zlen p) (u32 ((fbn + 1) * BSIZE - off)) in
        buf <- rsect x;
        wsect x (splice (off - fbn * BSIZE) (take (Z.to_nat n1) p) buf);;
        iappend_loop fuel (drop (Z.to_nat n1) p) (u32 (off + n1)) din
    end.
Definition iappend (inum : Z) (xp : bytes) : stM mkst unit :=
  din <- rinode inum;
  '(off, din) <- iappend_loop (length xp) xp (xint (d_size din)) din;
  winode inum (set_dsize (xint off) din).

(** ** The root directory *)

Definition cal_block_index_for_dinode (bn : Z) : stM mkst Z :=
  if bn <? 1 then die "bn=0 should be given to . and .."
  else if bn <? 112 + 1 then sret bn
  else die "cal_block_index: out of range".

Fixpoint direct_alloc (l : list Z) (dp : dinode) : stM mkst dinode :=
  match l with
  | [] => sret dp
  | b :: l =>
      dp <- (if daddr dp b =? 0 then x <- next_block; sret (set_daddr b (xint x) dp) else sret dp);
      direct_alloc l dp
  end.
Fixpoint indirect_alloc (addr : Z) (l : list Z) (indirect : bytes) : stM mkst bytes :=
  match l with
  | [] => sret indirect
  | b :: l =>
      if NINDIRECT <=? b then wrong "indirect[] out of bounds"
      else
        indirect <- ind_entry addr b indirect;
        indirect_alloc addr l indirect
  end.

(** All file blocks up to [block] allocated; the address of that block. *)
Definition dir_block_allocation_continuation (dp : dinode) (block : Z) : stM mkst (Z * dinode) :=
  let bn := u32 (block + 1) in
  dp <- direct_alloc (seqZ 0 (Z.min bn NDIRECT)) dp;
  '(baddr, dp) <-
    (if bn <=? NDIRECT then sret (xint (daddr dp (bn - 1)), dp)
     else
       let ibn := bn - NDIRECT in
       dp <- (if daddr dp NDIRECT =? 0 then x <- next_block; sret (set_daddr NDIRECT (xint x) dp) else sret dp);
       let addr := daddr dp NDIRECT in
       indirect <- rsect (xint addr);
       indirect <- indirect_alloc addr (seqZ 0 ibn) indirect;
       sret (xint (ld32 (4 * (ibn - 1)) indirect), dp));
  sret (baddr, set_dsize (if d_size dp <? u32 (bn * BSIZE) then u32 (bn * BSIZE) else d_size dp) dp).

(** The same code with the block of a byte offset. *)
Definition overflow_block_allocation_continuation (dp : dinode) (off : Z) : stM mkst (Z * dinode) :=
  dir_block_allocation_continuation dp (off / BSIZE).

Definition schar (c : Z) : Z := if c <? 128 then c else c - 256.
Fixpoint BKDR_mkfs_loop (str : bytes) (hash : Z) : option Z :=
  match str with
  | [] => None
  | c :: str => if c =? 0 then Some hash else BKDR_mkfs_loop str (u32 (hash * 131 + schar c))
  end.
Definition BKDRHash_mkfs (str : bytes) : option Z :=
  match BKDR_mkfs_loop str 0 with
  | Some hash => Some (hash mod HASHRANGE + 16)
  | None => None
  end.

(** One of the two loops of iappend_init_dir: the entry is stored in the
    first free slot from [off] on; true when it was. *)
Fixpoint init_dir_loop (fuel : nat) (inum : Z) (de : dirent) (tree_node_block off next : Z) (di : dinode) : stM mkst (bool * dinode) :=
  if negb (off <? next) then sret (false, di)
  else
    match fuel with
    | O => wrong "iappend_init_dir: fuel"
    | S fuel =>
        '(addr_of_block, di) <-
          (if 113 * BSIZE <=? off then overflow_block_allocation_continuation di off else sret (tree_node_block, di));
        buf <- rsect addr_of_block;
        if ld16 (off mod BSIZE) buf =? 0 then
          wsect addr_of_block (splice (off mod BSIZE) (enc_dirent de) buf);;
          winode inum di;;
          assert (off mod 16 =? 0);;
          sret (true, di)
        else init_dir_loop fuel inum de tree_node_block (off + 16) next di
    end.

Definition iappend_init_dir (inum : Z) (de : dirent) : stM mkst unit :=
  di <- rinode inum;
  match BKDRHash_mkfs (de_name de) with
  | None => wrong "unterminated name"
  | Some hash_value =>
      let tree_node_off := u32 (hash_value * 16 * 16) in
      let tree_next_node_off := u32 ((hash_value + 1) * 16 * 16) in
      '(tree_node_block, di) <- dir_block_allocation_continuation di (tree_node_off / BSIZE);
      '(found, di) <- init_dir_loop 16 inum de tree_node_block tree_node_off tree_next_node_off di;
      if found then sret tt
      else
        '(found, di) <- init_dir_loop 128 inum de tree_node_block (113 * BSIZE) (115 * BSIZE) di;
        sret tt
  end.

Definition updatesb : stM mkst unit :=
  s <- sget;
  smodify (set_mksb (fun sb => set_freeblocks (xint (FSSIZE - mk_freeblock s)) (set_freeinodes (xint (NINODES - mk_freeinode s)) sb)));;
  s <- sget;
  wsect 1 (splice 0 (enc_sb (mk_sb s)) (zeros BSIZE)).

(** ** main *)

Definition sb_init : superblock :=
  mkSb FSMAGIC (xint FSSIZE) (xint nblocks) (xint NINODES) (xint nlog) (xint 2) (xint (2 + nlog + nibitmap))
    (xint (2 + nlog + nibitmap + ninodeblocks)) (xint (2 + nlog)) 0 0.

Definition str_user : bytes := [117; 115; 101; 114; 47].

(** The name in the image of the host file [path]. *)
Definition short_name (path : bytes) : bytes := if strncmp path (str_user ++ [0]) 5 =? 0 then drop 5 path else path.
Definition strip (name : bytes) : bytes := match name with c :: rest => if c =? 95 then rest else name | [] => [] end.

(** A host file: its path, and what the reads of it return; [None] when it
    cannot be opened. *)
Definition hfile : Type := bytes * option (list bytes).

Definition add_entry_name (inum : Z) (name : bytes) : dirent := mkDe (xshort inum) (strncpy name DIRSIZ).

Definition add_file (rootino : Z) (f : hfile) : stM mkst unit :=
  let '(path, content) := f in
  let shortname := short_name (cstr path) in
  assert (negb (existsb (Z.eqb 47) shortname));;
  match content with
  | None => die "open"
  | Some reads =>
      inum <- ialloc T_FILE;
      iappend_init_dir rootino (add_entry_name inum (strip shortname ++ [0]));;
      sfor reads (iappend inum)
  end.

(** The image filled with zeroes. *)
Fixpoint zero_sectors (n : nat) (i : Z) : stM mkst unit :=
  match n with
  | O => sret tt
  | S n => wsect i (zeros BSIZE);; zero_sectors n (i + 1)
  end.

Definition main (files : list hfile) : stM mkst unit :=
  smodify (fun s => mkMk (mk_img s) sb_init (mk_freeinode s) nmeta);;
  zero_sectors (Z.to_nat FSSIZE) 0;;
  s <- sget;
  wsect 1 (splice 0 (enc_sb (mk_sb s)) (zeros BSIZE));;
  rootino <- ialloc T_DIR;
  assert (rootino =? ROOTINO);;
  iappend rootino (enc_dirent (add_entry_name rootino str_dot));;
  iappend rootino (enc_dirent (add_entry_name rootino str_dotdot));;
  sfor files (add_file rootino);;
  s <- sget;
  balloc (mk_freeblock s);;
  setibmap (mk_freeinode s);;
  updatesb.

(** The program's initial state, with an empty image file. *)
Definition mk0 : mkst := mkMk ∅ (mkSb 0 0 0 0 0 0 0 0 0 0 0) 1 0.
