(* ===== verification/MkfsSpec.v ===== *)
(** * What mkfs writes: files and blocks

    An image under construction is described by one [frep] per inode: the
    inode, its data blocks in file order and its indirect block.  The
    invariant [minv] says that the blocks of all files are distinct, fill the
    disk from the end of the metadata to the next free block, and that
    everything else is zero.  The lemmas follow the allocation loops of mkfs
    and show that iappend appends to exactly one file. *)
From S2P Require Import Prelude Str Bio Log Crash Machine Types Vm Codec Ld Balloc Inode Bmap Dir Mkfs.
Local Open Scope st_scope.

Record frep := mkFr { fr_di : dinode; fr_bs : list Z; fr_ia : Z }.

Definition pad (n : nat) (l : list Z) : list Z := l ++ replicate (n - length l) 0.

Definition blocks (f : frep) : list Z := fr_bs f ++ (if fr_ia f =? 0 then [] else [fr_ia f]).

(** The inode and the indirect block list the data blocks. *)
Record frep_ok (d : gmap Z bytes) (f : frep) : Prop := {
  fr_fits : di_fits (fr_di f);
  fr_len : (length (fr_bs f) <= 268)%nat;
  fr_addrs : d_addrs (fr_di f) = pad 12 (take 12 (fr_bs f)) ++ [fr_ia f; 0; 0];
  fr_noind : fr_ia f = 0 -> (length (fr_bs f) <= 12)%nat;
  fr_ind : fr_ia f <> 0 -> (12 <= length (fr_bs f))%nat /\ dec32s 0 NINDIRECT (dblk d (fr_ia f)) = pad 256 (drop 12 (fr_bs f))
}.

(** All data blocks of a file. *)
Definition fdata (d : gmap Z bytes) (f : frep) : bytes := flat_map (dblk d) (fr_bs f).

(** The inode of number [ex + 1] may be out of date on the image. *)
Record minv (ex : option nat) (s : mkst) (fl : list frep) : Prop := {
  mi_sb : mk_sb s = sb_init;
  mi_img : forall b x, mk_img s !! b = Some x -> length x = Z.to_nat BSIZE;
  mi_all : forall b, 0 <= b < FSSIZE -> is_Some (mk_img s !! b);
  mi_fi : mk_freeinode s = 1 + zlen fl /\ zlen fl < NINODES - 1;
  mi_fb : mk_freeblock s = nmeta + zlen (flat_map blocks fl) /\ mk_freeblock s <= FSSIZE;
  mi_rep : forall i f, fl !! i = Some f -> frep_ok (mk_img s) f;
  mi_ino : forall i f, fl !! i = Some f -> Some i <> ex ->
    get_dinode (dioff (1 + Z.of_nat i)) (dblk (mk_img s) ((1 + Z.of_nat i) / IPB + 49)) = fr_di f;
  mi_nodup : NoDup (flat_map blocks fl);
  mi_range : forall b, b ∈ flat_map blocks fl -> nmeta <= b < mk_freeblock s;
  mi_free : forall b, mk_freeblock s <= b -> dblk (mk_img s) b = zeros BSIZE;
  mi_meta : forall b, b <> 1 -> 0 <= b < 49 \/ 1550 <= b < nmeta -> dblk (mk_img s) b = zeros BSIZE
}.

Definition set_addrs (l : list Z) (di : dinode) : dinode :=
  mkDi (d_type di) (d_major di) (d_minor di) (d_nlink di) (d_size di) (d_rwmode di) (d_supermode di) l (d_showmode di).

(** File [i] grew from [f] to [f'] by zeroed blocks; no data changed. *)
Record grown (i : nat) (s : mkst) (fl : list frep) (f : frep) (s' : mkst) (f' : frep) : Prop := {
  gr_inv : minv (Some i) s' (<[i := f']> fl);
  gr_bs : exists new, fr_bs f' = fr_bs f ++ new /\ (forall b, b ∈ new -> dblk (mk_img s') b = zeros BSIZE);
  gr_same : forall j g b, fl !! j = Some g -> b ∈ fr_bs g -> dblk (mk_img s') b = dblk (mk_img s) b;
  gr_di : fr_di f' = set_addrs (d_addrs (fr_di f')) (fr_di f)
}.

(** ** Lemmas: integers and sectors *)

Lemma sbind_ok {S A B} (m : stM S A) (g : A -> stM S B) s a s' : m s = Ok a s' -> sbind m g s = g a s'.
Proof. intros E. unfold sbind. by rewrite E. Qed.

Ltac mstep E := rewrite (sbind_ok _ _ _ _ _ E); cbv beta.

Lemma nmeta_eq : nmeta = 1587.
Proof. reflexivity. Qed.

Lemma le_dec_bytes x n : le_dec (le_enc n x) = x mod 256 ^ Z.of_nat n.
Proof. apply le_dec_enc. Qed.

Lemma xint_id x : 0 <= x < 2 ^ 32 -> xint x = x.
Proof.
  intros H. unfold xint, u8. cbn [le_dec]. rewrite !Z.shiftr_div_pow2 by lia.
  change (2 ^ 16) with (2 ^ 8 * 2 ^ 8). change (2 ^ 24) with (2 ^ 8 * 2 ^ 8 * 2 ^ 8). rewrite <- !Z.div_div by lia.
  pose proof (Z.div_mod x (2 ^ 8)). pose proof (Z.div_mod (x / 2 ^ 8) (2 ^ 8)). pose proof (Z.div_mod (x / 2 ^ 8 / 2 ^ 8) (2 ^ 8)).
  rewrite (Z.mod_small (x / 2 ^ 8 / 2 ^ 8 / 2 ^ 8)) by (rewrite !Z.div_div by lia; split; [apply Z.div_pos; lia|apply Z.div_lt_upper_bound; lia]). lia.
Qed.

Lemma xshort_id x : 0 <= x < 2 ^ 16 -> xshort x = x.
Proof.
  intros H. unfold xshort, u8. cbn [le_dec]. rewrite Z.shiftr_div_pow2 by lia. pose proof (Z.div_mod x (2 ^ 8)).
  rewrite (Z.mod_small (x / 2 ^ 8)) by (split; [apply Z.div_pos; lia|apply Z.div_lt_upper_bound; lia]). lia.
Qed.

Lemma sector_id b : 0 <= b < FSSIZE -> sector b = b.
Proof. intros H. unfold sector, u32. rewrite Z.mod_small by lia. by rewrite Z.div_mul. Qed.

Lemma wsect_run b d s : 0 <= b < FSSIZE -> wsect b d s = Ok tt (set_img (fun m => <[b := d]> m) s).
Proof. intros H. unfold wsect. by rewrite sector_id. Qed.

Lemma rsect_run b s : 0 <= b < FSSIZE -> is_Some (mk_img s !! b) -> rsect b s = Ok (dblk (mk_img s) b) s.
Proof. intros H [x E]. unfold rsect, sbind, sget, dblk. rewrite sector_id by done. by rewrite E. Qed.

Lemma next_block_run s : 0 <= mk_freeblock s < FSSIZE ->
  next_block s = Ok (mk_freeblock s) (mkMk (mk_img s) (mk_sb s) (mk_freeinode s) (mk_freeblock s + 1)).
Proof. intros H. unfold next_block, u32. by rewrite Z.mod_small by lia. Qed.

(** ** Lemmas: padded lists *)

Lemma length_pad n l : (length l <= n)%nat -> length (pad n l) = n.
Proof. intros H. unfold pad. rewrite length_app, length_replicate. lia. Qed.

Lemma pad_nth n l i : nth i (pad n l) 0 = nth i l 0.
Proof.
  unfold pad. destruct (decide (i < length l)%nat); [by rewrite app_nth1|]. rewrite app_nth2 by lia.
  rewrite (nth_overflow l) by lia. rewrite nth_lookup.
  destruct (replicate (n - length l) 0 !! (i - length l)%nat) eqn:E; [|done]. by apply lookup_replicate in E as [-> _].
Qed.

Lemma pad_insert n l x : (length l < n)%nat -> <[length l := x]> (pad n l) = pad n (l ++ [x]).
Proof.
  intros H. unfold pad. rewrite insert_app_r_alt, Nat.sub_diag by lia. destruct (n - length l)%nat as [|m] eqn:E; [lia|].
  cbn. rewrite <- app_assoc. cbn. do 2 f_equal. rewrite length_app. cbn. f_equal. lia.
Qed.

Lemma pad_nil n : pad n [] = replicate n 0.
Proof. unfold pad. cbn. by rewrite Nat.sub_0_r. Qed.

(** ** Lemmas: one inode *)

Lemma daddr_direct d f b : frep_ok d f -> 0 <= b < 12 -> daddr (fr_di f) b = nth (Z.to_nat b) (fr_bs f) 0.
Proof.
  intros F Hb. unfold daddr. rewrite (fr_addrs d f F), app_nth1 by (rewrite length_pad by (rewrite length_take; lia); lia). rewrite pad_nth.
  destruct (decide (Z.to_nat b < length (fr_bs f))%nat) as [H|H].
  - rewrite !nth_lookup. by rewrite lookup_take_lt by lia.
  - rewrite !nth_overflow; [done|lia|rewrite length_take; lia].
Qed.

Lemma daddr_ind d f : frep_ok d f -> daddr (fr_di f) 12 = fr_ia f.
Proof.
  intros F. unfold daddr. rewrite (fr_addrs d f F), app_nth2; rewrite length_pad by (rewrite length_take; lia); [|lia]. done.
Qed.

Lemma ld32_entries d n i : 0 <= i < n -> ld32 (4 * i) d = nth (Z.to_nat i) (dec32s 0 n d) 0.
Proof.
  intros Hi. symmetry. apply nth_lookup_Some. unfold dec32s. rewrite list_lookup_fmap, lookup_seqZ_lt by lia. cbn. do 2 f_equal. lia.
Qed.

Lemma ld32_ind d f i : frep_ok d f -> fr_ia f <> 0 -> 0 <= i < 256 -> ld32 (4 * i) (dblk d (fr_ia f)) = nth (12 + Z.to_nat i) (fr_bs f) 0.
Proof.
  intros F H Hi. destruct (fr_ind d f F H) as [_ E]. rewrite (ld32_entries _ 256) by done. rewrite E, pad_nth, !nth_lookup, lookup_drop. done.
Qed.

Lemma set_daddr_addrs i x di : set_daddr i x di = set_addrs (<[Z.to_nat i := x]> (d_addrs di)) di.
Proof. done. Qed.

Lemma fits_addr i x di : di_fits di -> 0 <= x < 2 ^ 32 -> di_fits (set_daddr i x di).
Proof. intros [] H. split; cbn; try done; [by apply Forall_insert|by rewrite length_insert]. Qed.

Lemma take_snoc_short {A} n (l : list A) x : (length l < n)%nat -> take n (l ++ [x]) = take n l ++ [x].
Proof. intros H. rewrite !take_ge; [done|lia|rewrite length_app; cbn; lia]. Qed.

(** The three ways a file grows. *)
Lemma rep_direct d f x : frep_ok d f -> (length (fr_bs f) < 12)%nat -> 0 <= x < 2 ^ 32 ->
  frep_ok d (mkFr (set_daddr (zlen (fr_bs f)) x (fr_di f)) (fr_bs f ++ [x]) (fr_ia f)).
Proof.
  intros F Hl Hx. pose proof (fr_addrs d f F) as E. split; cbn [fr_di fr_bs fr_ia].
  - apply fits_addr; [apply F|done].
  - rewrite length_app. cbn. lia.
  - rewrite set_daddr_addrs. cbn [set_addrs d_addrs]. unfold zlen. rewrite Nat2Z.id, E, take_snoc_short by done.
    rewrite insert_app_l by (rewrite length_pad by (rewrite length_take; lia); lia). f_equal.
    rewrite take_ge by lia. by rewrite pad_insert.
  - rewrite length_app. cbn. lia.
  - intros H. destruct (fr_ind d f F H). lia.
Qed.

Lemma dec32s_zeros : dec32s 0 256 (zeros BSIZE) = replicate 256 0.
Proof.
  unfold dec32s. apply list_eq. intros i. rewrite list_lookup_fmap. destruct (decide (i < 256)%nat).
  - rewrite lookup_seqZ_lt, lookup_replicate_2 by lia. cbn. f_equal. apply ld32_zeros; lia.
  - rewrite lookup_seqZ_ge by lia. by rewrite lookup_ge_None_2 by (rewrite length_replicate; lia).
Qed.

Lemma rep_ind d f x : frep_ok d f -> length (fr_bs f) = 12%nat -> fr_ia f = 0 -> 0 < x < 2 ^ 32 -> dblk d x = zeros BSIZE ->
  frep_ok d (mkFr (set_daddr 12 x (fr_di f)) (fr_bs f) x).
Proof.
  intros F Hl Hi Hx Hz. pose proof (fr_addrs d f F) as E. split; cbn [fr_di fr_bs fr_ia].
  - apply fits_addr; [apply F|lia].
  - lia.
  - rewrite set_daddr_addrs. cbn [set_addrs d_addrs]. rewrite E.
    assert (length (pad 12 (take 12 (fr_bs f))) = 12%nat) as L by (apply length_pad; rewrite length_take; lia).
    rewrite insert_app_r_alt by lia. rewrite L. done.
  - lia.
  - intros _. split; [lia|]. rewrite Hz, drop_ge by lia. rewrite pad_nil. apply dec32s_zeros.
Qed.

Lemma dec32s_st32 d n i x : 0 <= i < n -> 4 * n <= zlen d -> 0 <= x < 2 ^ 32 -> dec32s 0 n (st32 (4 * i) x d) = <[Z.to_nat i := x]> (dec32s 0 n d).
Proof.
  intros Hi Hd Hx. apply list_eq. intros j. unfold dec32s. rewrite list_lookup_fmap. destruct (decide (j < Z.to_nat n)%nat) as [Hj|Hj].
  - rewrite lookup_seqZ_lt by lia. cbn [fmap option_fmap option_map]. destruct (decide (j = Z.to_nat i)) as [->|N].
    + rewrite list_lookup_insert_eq by (rewrite length_map, length_seqZ; lia). f_equal.
      replace (0 + 4 * (0 + Z.of_nat (Z.to_nat i))) with (4 * i) by lia. rewrite ld32_st32_eq by lia. by apply u32_id.
    + rewrite list_lookup_insert_ne, list_lookup_fmap, lookup_seqZ_lt by lia. cbn [fmap option_fmap option_map]. f_equal. apply ld32_st32_ne; lia.
  - rewrite lookup_seqZ_ge by lia. rewrite lookup_ge_None_2; [done|]. rewrite length_insert, length_map, length_seqZ. lia.
Qed.

Lemma rep_entry d d' f i x : frep_ok d f -> fr_ia f <> 0 -> length (fr_bs f) = (12 + Z.to_nat i)%nat -> 0 <= i < 256 -> 0 <= x < 2 ^ 32 ->
  zlen (dblk d (fr_ia f)) = BSIZE -> dblk d' (fr_ia f) = st32 (4 * i) x (dblk d (fr_ia f)) ->
  frep_ok d' (mkFr (fr_di f) (fr_bs f ++ [x]) (fr_ia f)).
Proof.
  intros F Ha Hl Hi Hx Hz Hd. split; cbn [fr_di fr_bs fr_ia].
  - apply F.
  - rewrite length_app. cbn. lia.
  - rewrite (fr_addrs d f F), take_app_le by lia. done.
  - done.
  - intros _. split; [rewrite length_app; lia|]. rewrite Hd, dec32s_st32 by lia. destruct (fr_ind d f F Ha) as [_ ->].
    rewrite drop_app_le by lia. rewrite <- pad_insert by (rewrite length_drop; lia). f_equal. rewrite length_drop. lia.
Qed.

(** ** Lemmas: the invariant *)

Lemma blocks_in f x : x ∈ blocks f <-> x ∈ fr_bs f \/ fr_ia f <> 0 /\ x = fr_ia f.
Proof.
  unfold blocks. rewrite elem_of_app. destruct (Z.eqb_spec (fr_ia f) 0) as [->|H].
  - split; [intros [?|[]%not_elem_of_nil]; by left|intros [?|[? _]]; by left || done].
  - rewrite list_elem_of_singleton. intuition.
Qed.

Lemma file_blocks fl i f b : fl !! i = Some f -> b ∈ blocks f -> b ∈ flat_map blocks fl.
Proof. intros H Hb. apply elem_flat_map. exists f. split; [by eapply list_elem_of_lookup_2|done]. Qed.

Lemma rep_ext d d' f : (fr_ia f <> 0 -> dblk d' (fr_ia f) = dblk d (fr_ia f)) -> frep_ok d f -> frep_ok d' f.
Proof. intros E [H1 H2 H3 H4 H5]. split; try done. intros Ha. rewrite E by done. by apply H5. Qed.

Lemma minv_len ex s fl b : minv ex s fl -> length (dblk (mk_img s) b) = Z.to_nat BSIZE.
Proof. intros I. unfold dblk. destruct (mk_img s !! b) as [x|] eqn:E; [by apply (mi_img _ _ _ I b)|done]. Qed.

Lemma minv_zlen ex s fl b : minv ex s fl -> zlen (dblk (mk_img s) b) = BSIZE.
Proof. intros I. unfold zlen. by rewrite (minv_len ex s fl b I). Qed.

Lemma minv_block ex s fl i f b : minv ex s fl -> fl !! i = Some f -> b ∈ blocks f -> nmeta <= b < mk_freeblock s /\ b < FSSIZE.
Proof. intros I Hf Hb. pose proof (mi_range _ _ _ I b (file_blocks fl i f b Hf Hb)). pose proof (mi_fb _ _ _ I). lia. Qed.

Lemma minv_rsect ex s fl b : minv ex s fl -> 0 <= b < FSSIZE -> rsect b s = Ok (dblk (mk_img s) b) s.
Proof. intros I Hb. apply rsect_run; [done|]. by apply (mi_all _ _ _ I). Qed.

(** A data block or an indirect block of a file is no block of another. *)
Lemma block_apart ex s fl i j f g b : minv ex s fl -> fl !! i = Some f -> fl !! j = Some g -> b ∈ blocks f -> b ∈ blocks g -> i = j.
Proof.
  intros I Hf Hg Hb Hc. destruct (decide (i = j)); [done|]. exfalso. by eapply (flat_map_disjoint blocks fl i j f g b); [apply I|..].
Qed.

Lemma data_not_ind ex s fl i j f g b : minv ex s fl -> fl !! i = Some f -> fl !! j = Some g -> b ∈ fr_bs f -> fr_ia g <> 0 -> b <> fr_ia g.
Proof.
  intros I Hf Hg Hb Hn ->. assert (i = j) as <- by (eapply (block_apart ex s fl i j f g); [done|done|done|apply blocks_in; by left|apply blocks_in; by right]).
  assert (f = g) as <- by congruence. pose proof (NoDup_flat_map_elem blocks fl f (mi_nodup _ _ _ I) ltac:(by eapply list_elem_of_lookup_2)) as N.
  unfold blocks in N. destruct (Z.eqb_spec (fr_ia f) 0); [done|]. apply NoDup_app in N as (_ & N & _). apply (N (fr_ia f) Hb). by apply list_elem_of_singleton.
Qed.

Lemma inode_sector (i : nat) : Z.of_nat i < NINODES - 1 -> 49 <= (1 + Z.of_nat i) / IPB + 49 < 1550.
Proof. intros H. pose proof (Z.div_mod (1 + Z.of_nat i) 8 ltac:(lia)). pose proof (Z.mod_pos_bound (1 + Z.of_nat i) 8). lia. Qed.

(** A data block is overwritten. *)
Lemma minv_write ex s fl i f b d : minv ex s fl -> fl !! i = Some f -> b ∈ fr_bs f -> length d = Z.to_nat BSIZE ->
  minv ex (set_img (fun m => <[b := d]> m) s) fl.
Proof.
  intros I Hf Hb Hd. assert (Hr : nmeta <= b < mk_freeblock s /\ b < FSSIZE) by (eapply minv_block; [done|done|apply blocks_in; by left]). rewrite nmeta_eq in Hr.
  destruct I as [] eqn:EI. split; cbn [set_img mk_img mk_sb mk_freeinode mk_freeblock]; try done.
  - intros c x H. destruct (decide (c = b)) as [->|N]; [rewrite lookup_insert_eq in H; congruence|]. rewrite lookup_insert_ne in H by done. eauto.
  - intros c Hc. destruct (decide (c = b)) as [->|N]; [rewrite lookup_insert_eq; eauto|]. rewrite lookup_insert_ne by done. eauto.
  - intros j g Hg. apply (rep_ext (mk_img s)); [|by eapply mi_rep0]. intros Hn. rewrite dblk_insert, decide_False; [done|].
    intros E. by eapply (data_not_ind ex s fl i j f g b).
  - intros j g Hg Hj. rewrite dblk_insert, decide_False; [by apply mi_ino0|]. pose proof (lookup_lt_Some _ _ _ Hg). pose proof (inode_sector j). unfold zlen in mi_fi0. lia.
  - intros c Hc. rewrite dblk_insert, decide_False by lia. by apply mi_free0.
  - intros c H1 Hc. rewrite nmeta_eq in Hc. rewrite dblk_insert, decide_False by lia. apply mi_meta0; [done|]. by rewrite nmeta_eq.
Qed.

(** File [i] takes the next free block. *)
Lemma minv_grow i s fl f f' m : minv (Some i) s fl -> fl !! i = Some f -> mk_freeblock s < FSSIZE ->
  blocks f' ≡ₚ mk_freeblock s :: blocks f -> frep_ok m f' ->
  (forall b, b <> fr_ia f \/ fr_ia f = 0 -> m !! b = mk_img s !! b) ->
  (fr_ia f <> 0 -> exists x, m !! fr_ia f = Some x /\ length x = Z.to_nat BSIZE) ->
  minv (Some i) (mkMk m (mk_sb s) (mk_freeinode s) (mk_freeblock s + 1)) (<[i := f']> fl).
Proof.
  intros I Hf Hx P F Hm Ha. pose proof (lookup_lt_Some _ _ _ Hf) as Hi.
  assert (Hia : fr_ia f <> 0 -> nmeta <= fr_ia f < mk_freeblock s /\ fr_ia f < FSSIZE) by (intros H; eapply minv_block; [done|done|apply blocks_in; by right]).
  assert (Ed : forall b, b <> fr_ia f \/ fr_ia f = 0 -> dblk m b = dblk (mk_img s) b) by (intros b H; unfold dblk; by rewrite Hm).
  assert (El : forall j g, fl !! j = Some g -> j <> i -> fr_ia g <> 0 -> fr_ia g <> fr_ia f \/ fr_ia f = 0).
  { intros j g Hg Hj Hn. destruct (decide (fr_ia f = 0)); [by right|]. left. intros E. apply Hj.
    eapply (block_apart (Some i) s fl j i g f (fr_ia g)); [done..|apply blocks_in; by right|apply blocks_in; rewrite E; by right]. }
  assert (In : forall b, b ∈ flat_map blocks (<[i := f']> fl) -> b = mk_freeblock s \/ b ∈ flat_map blocks fl).
  { intros b (g & Hg & Hb)%elem_flat_map. apply list_elem_of_lookup in Hg as [j Hj]. destruct (decide (j = i)) as [->|N].
    - rewrite list_lookup_insert_eq in Hj by done. injection Hj as <-. rewrite P in Hb. apply elem_of_cons in Hb as [?|?]; [by left|right; by eapply file_blocks].
    - rewrite list_lookup_insert_ne in Hj by done. right. by eapply file_blocks. }
  destruct I as [S1 S2 S3 S4 S5 S6 S7 S8 S9 S10 S11]. rewrite nmeta_eq in *.
  assert (Hlo : 1587 <= mk_freeblock s) by (destruct S5 as [-> _]; unfold zlen; lia). split; cbn [mk_img mk_sb mk_freeinode mk_freeblock]; rewrite ?nmeta_eq; try done.
  - intros b x H. destruct (decide (b = fr_ia f /\ fr_ia f <> 0)) as [[-> H0]|N].
    + destruct (Ha H0) as (y & E & Hy). congruence.
    + rewrite Hm in H by lia. by apply (S2 b).
  - intros b H. destruct (decide (b = fr_ia f /\ fr_ia f <> 0)) as [[-> H0]|N].
    + destruct (Ha H0) as (y & E & Hy). by exists y.
    + rewrite Hm by lia. by apply S3.
  - unfold zlen. rewrite length_insert. done.
  - split; [|lia]. unfold zlen. rewrite (flat_map_insert blocks (<[i := f']> fl) i f') by (by apply list_lookup_insert_eq).
    rewrite take_insert_ge, drop_insert_lt, !length_app, (Permutation_length P) by lia. destruct S5 as [-> _]. unfold zlen.
    rewrite (flat_map_insert blocks fl i f Hf), !length_app. cbn. lia.
  - intros j g Hg. destruct (decide (j = i)) as [->|N]; [rewrite list_lookup_insert_eq in Hg by done; congruence|].
    rewrite list_lookup_insert_ne in Hg by done. apply (rep_ext (mk_img s)); [|by eapply S6]. intros Hn. apply Ed. by eapply El.
  - intros j g Hg Hj. assert (j <> i) by congruence. rewrite list_lookup_insert_ne in Hg by done. rewrite Ed; [by apply S7|].
    pose proof (lookup_lt_Some _ _ _ Hg). pose proof (inode_sector j). unfold zlen in S4. destruct (decide (fr_ia f = 0)) as [|Z0]; [by right|]. specialize (Hia Z0). lia.
  - apply (NoDup_flat_map_update blocks blocks fl i f f'); try done.
    + rewrite P. apply NoDup_cons. split; [|by eapply NoDup_flat_map_elem; [|eapply list_elem_of_lookup_2]].
      intros H. pose proof (S9 _ (file_blocks fl i f _ Hf H)). lia.
    + intros z Hz. rewrite P in Hz. apply elem_of_cons in Hz as [->|?]; [|by left]. right. intros H. pose proof (S9 _ H). lia.
  - intros b [->|H]%In; [lia|]. specialize (S9 b H). lia.
  - intros b Hb. rewrite Ed; [apply S10; lia|]. destruct (decide (fr_ia f = 0)) as [|Z0]; [by right|]. specialize (Hia Z0). lia.
  - intros b H1 Hb. rewrite Ed; [by apply S11|]. destruct (decide (fr_ia f = 0)) as [|Z0]; [by right|]. specialize (Hia Z0). lia.
Qed.

(** ** Lemmas: growth *)

(** Enough free blocks for the largest file. *)
Definition roomy (s : mkst) (f : frep) : Prop := mk_freeblock s - zlen (blocks f) + 270 <= FSSIZE.

Section Grow.
  Context (i : nat).

Lemma frep_grown_refl s fl f : minv (Some i) s fl -> fl !! i = Some f -> grown i s fl f s f.
Proof.
  intros I Hf. split; [by rewrite list_insert_id|exists []; rewrite app_nil_r; split; [done|intros b []%not_elem_of_nil]|done|by destruct f as [[] ? ?]].
Qed.

Lemma frep_grown_trans s fl f s1 f1 s2 f2 : fl !! i = Some f ->
  grown i s fl f s1 f1 -> grown i s1 (<[i := f1]> fl) f1 s2 f2 -> grown i s fl f s2 f2.
Proof.
  intros Hf [I1 (n1 & B1 & Z1) S1 D1] [I2 (n2 & B2 & Z2) S2 D2]. pose proof (lookup_lt_Some _ _ _ Hf) as Hi.
  assert (L1 : (<[i := f1]> fl) !! i = Some f1) by (by apply list_lookup_insert_eq). split.
  - by rewrite list_insert_insert_eq in I2.
  - exists (n1 ++ n2). split; [by rewrite B2, B1, app_assoc|]. intros b [Hb|Hb]%elem_of_app; [|by apply Z2].
    rewrite (S2 i f1 b L1) by (rewrite B1, elem_of_app; by right). by apply Z1.
  - intros j g b Hg Hb. destruct (decide (j = i)) as [->|N].
    + assert (g = f) as -> by congruence. rewrite (S2 i f1 b L1) by (rewrite B1, elem_of_app; by left). by apply (S1 i f).
    + rewrite (S2 j g b) by (done || by rewrite list_lookup_insert_ne). by apply (S1 j g).
  - rewrite D2. cbn. rewrite D1. done.
Qed.

Lemma grown_self s fl f s' f' : fl !! i = Some f -> grown i s fl f s' f' -> (<[i := f']> fl) !! i = Some f'.
Proof. intros Hf _. apply list_lookup_insert_eq. by eapply lookup_lt_Some. Qed.

Lemma grown_room s fl f s' f' : minv (Some i) s fl -> fl !! i = Some f -> grown i s fl f s' f' -> roomy s f -> roomy s' f'.
Proof.
  intros I Hf G R. pose proof (lookup_lt_Some _ _ _ Hf) as Hi. unfold roomy in *. destruct (mi_fb _ _ _ I) as [E _]. destruct (mi_fb _ _ _ (gr_inv _ _ _ _ _ _ G)) as [E' _].
  rewrite (flat_map_insert blocks fl i f Hf) in E. rewrite (flat_map_insert blocks (<[i := f']> fl) i f') in E' by (by apply list_lookup_insert_eq).
  rewrite take_insert_ge, drop_insert_lt in E' by lia. unfold zlen in *. rewrite !length_app in *. lia.
Qed.

Lemma roomy_next ex s fl f : minv ex s fl -> fl !! i = Some f -> roomy s f -> 0 <= mk_freeblock s < FSSIZE /\ 0 < mk_freeblock s < 2 ^ 32.
Proof.
  intros I Hf R. destruct (mi_fb _ _ _ I) as [E H]. rewrite nmeta_eq in E. pose proof (fr_len _ _ (mi_rep _ _ _ I i f Hf)). unfold roomy, blocks, zlen in *.
  rewrite length_app in R. destruct (fr_ia f =? 0); cbn [length] in R; lia.
Qed.

Lemma bs_nonzero ex s fl f b : minv ex s fl -> fl !! i = Some f -> (b < length (fr_bs f))%nat -> nth b (fr_bs f) 0 <> 0 /\ nmeta <= nth b (fr_bs f) 0 < FSSIZE.
Proof.
  intros I Hf Hb. assert (H : nth b (fr_bs f) 0 ∈ fr_bs f) by (eapply list_elem_of_lookup_2, (lookup_nth _ _ 0), Hb).
  pose proof (minv_block ex s fl i f _ I Hf ltac:(apply blocks_in; by left)) as R. rewrite nmeta_eq in *. lia.
Qed.

Lemma same_img s fl f f' fb : minv (Some i) (mkMk (mk_img s) (mk_sb s) (mk_freeinode s) fb) (<[i := f']> fl) ->
  (exists new, fr_bs f' = fr_bs f ++ new /\ (forall b, b ∈ new -> dblk (mk_img s) b = zeros BSIZE)) ->
  fr_di f' = set_addrs (d_addrs (fr_di f')) (fr_di f) ->
  grown i s fl f (mkMk (mk_img s) (mk_sb s) (mk_freeinode s) fb) f'.
Proof. intros I B D. by split. Qed.

Lemma direct_step s fl f b : minv (Some i) s fl -> fl !! i = Some f -> 0 <= b < 12 -> b <= zlen (fr_bs f) -> roomy s f ->
  exists s' f', (if daddr (fr_di f) b =? 0 then x <- next_block; sret (set_daddr b (xint x) (fr_di f)) else sret (fr_di f)) s = Ok (fr_di f') s' /\
    grown i s fl f s' f' /\ zlen (fr_bs f') = Z.max (zlen (fr_bs f)) (b + 1).
Proof.
  intros I Hf Hb Hl R. pose proof (mi_rep _ _ _ I i f Hf) as F. rewrite (daddr_direct _ f b F Hb). destruct (decide (b < zlen (fr_bs f))) as [H|H].
  - destruct (bs_nonzero _ s fl f (Z.to_nat b) I Hf) as [N _]; [unfold zlen in H; lia|]. destruct (Z.eqb_spec (nth (Z.to_nat b) (fr_bs f) 0) 0); [done|].
    exists s, f. split; [done|]. split; [by apply frep_grown_refl|lia].
  - assert (b = zlen (fr_bs f)) as -> by lia. rewrite nth_overflow by (unfold zlen; lia). cbn [Z.eqb].
    destruct (roomy_next _ s fl f I Hf R) as [R1 R2]. rewrite (sbind_ok _ _ _ _ _ (next_block_run s R1)). rewrite xint_id by lia.
    set (f' := mkFr (set_daddr (zlen (fr_bs f)) (mk_freeblock s) (fr_di f)) (fr_bs f ++ [mk_freeblock s]) (fr_ia f)).
    exists (mkMk (mk_img s) (mk_sb s) (mk_freeinode s) (mk_freeblock s + 1)), f'. split; [done|]. split.
    + apply same_img; [|exists [mk_freeblock s]; split; [done|intros c ->%list_elem_of_singleton; apply (mi_free _ _ _ I); lia]|done].
      apply (minv_grow i s fl f f'); try done; [lia| | |].
      * unfold blocks, f'. cbn [fr_bs fr_ia]. rewrite <- app_assoc. apply Permutation_sym, Permutation_cons_app. done.
      * apply rep_direct; [done|unfold zlen in Hb; lia|lia].
      * intros Ha. destruct (mi_all _ _ _ I (fr_ia f)) as [x E]; [pose proof (minv_block _ s fl i f (fr_ia f) I Hf ltac:(apply blocks_in; by right)); rewrite nmeta_eq in *; lia|].
        exists x. split; [done|]. by apply (mi_img _ _ _ I (fr_ia f)).
    + unfold f', zlen. cbn [fr_bs]. rewrite length_app. cbn [length]. lia.
Qed.

Lemma ind_step s fl f : minv (Some i) s fl -> fl !! i = Some f -> (12 <= length (fr_bs f))%nat -> roomy s f ->
  exists s' f', (if daddr (fr_di f) 12 =? 0 then x <- next_block; sret (set_daddr 12 (xint x) (fr_di f)) else sret (fr_di f)) s = Ok (fr_di f') s' /\
    grown i s fl f s' f' /\ fr_bs f' = fr_bs f /\ fr_ia f' <> 0 /\ daddr (fr_di f') 12 = fr_ia f'.
Proof.
  intros I Hf Hl R. pose proof (mi_rep _ _ _ I i f Hf) as F. pose proof (daddr_ind _ f F) as E. rewrite E. destruct (Z.eqb_spec (fr_ia f) 0) as [E0|N].
  - destruct (roomy_next _ s fl f I Hf R) as [R1 R2]. rewrite (sbind_ok _ _ _ _ _ (next_block_run s R1)). rewrite xint_id by lia.
    pose proof (fr_noind _ f F E0) as Hl2. set (f' := mkFr (set_daddr 12 (mk_freeblock s) (fr_di f)) (fr_bs f) (mk_freeblock s)).
    assert (F' : frep_ok (mk_img s) f') by (apply rep_ind; [done|lia|done|lia|apply (mi_free _ _ _ I); lia]).
    exists (mkMk (mk_img s) (mk_sb s) (mk_freeinode s) (mk_freeblock s + 1)), f'. split; [done|]. split; [|split; [done|split; [cbn; lia|by apply (daddr_ind (mk_img s))]]].
    apply same_img; [|exists []; rewrite app_nil_r; split; [done|intros c []%not_elem_of_nil]|done]. apply (minv_grow i s fl f f'); try done; [lia|].
    unfold blocks, f'. cbn [fr_bs fr_ia]. rewrite E0. destruct (Z.eqb_spec (mk_freeblock s) 0); [lia|]. cbn [Z.eqb]. rewrite app_nil_r. apply Permutation_app_comm.
  - exists s, f. split; [done|]. split; [by apply frep_grown_refl|]. done.
Qed.

Lemma entry_step s fl f b : minv (Some i) s fl -> fl !! i = Some f -> fr_ia f <> 0 -> 0 <= b < 256 -> 12 + b <= zlen (fr_bs f) -> roomy s f ->
  exists s' f', ind_entry (fr_ia f) b (dblk (mk_img s) (fr_ia f)) s = Ok (dblk (mk_img s') (fr_ia f)) s' /\ grown i s fl f s' f' /\ zlen (fr_bs f') = Z.max (zlen (fr_bs f)) (12 + b + 1) /\ fr_ia f' = fr_ia f /\ fr_di f' = fr_di f.
Proof.
  intros I Hf Ha Hb Hl R. pose proof (mi_rep _ _ _ I i f Hf) as F. unfold ind_entry. rewrite (ld32_ind _ f b F Ha Hb). destruct (decide (12 + b < zlen (fr_bs f))) as [H|H].
  - destruct (bs_nonzero _ s fl f (12 + Z.to_nat b) I Hf) as [N _]; [unfold zlen in H; lia|]. destruct (Z.eqb_spec (nth (12 + Z.to_nat b) (fr_bs f) 0) 0); [done|].
    exists s, f. split; [done|]. split; [by apply frep_grown_refl|]. split; [lia|done].
  - assert (Eb : length (fr_bs f) = (12 + Z.to_nat b)%nat) by (unfold zlen in *; lia). rewrite nth_overflow by lia. cbn [Z.eqb].
    destruct (roomy_next _ s fl f I Hf R) as [R1 R2]. rewrite (sbind_ok _ _ _ _ _ (next_block_run s R1)). rewrite (xint_id (mk_freeblock s)) by lia. cbv zeta.
    pose proof (minv_block _ s fl i f (fr_ia f) I Hf ltac:(apply blocks_in; by right)) as Hia. rewrite nmeta_eq in Hia. rewrite xint_id by lia.
    set (d := st32 (4 * b) (mk_freeblock s) (dblk (mk_img s) (fr_ia f))). rewrite (sbind_ok _ _ _ _ _ (wsect_run (fr_ia f) d _ ltac:(lia))). cbv [set_img sret]. cbn [mk_img mk_sb mk_freeinode mk_freeblock].
    set (f' := mkFr (fr_di f) (fr_bs f ++ [mk_freeblock s]) (fr_ia f)). pose proof (minv_zlen _ s fl (fr_ia f) I) as Hz.
    assert (Hd : length d = Z.to_nat BSIZE) by (unfold d; rewrite length_st32 by lia; by eapply minv_len).
    assert (Ed : forall c, c <> fr_ia f -> dblk (<[fr_ia f := d]> (mk_img s)) c = dblk (mk_img s) c) by (intros c Hc; by rewrite dblk_insert, decide_False).
    exists (mkMk (<[fr_ia f := d]> (mk_img s)) (mk_sb s) (mk_freeinode s) (mk_freeblock s + 1)), f'. cbn [mk_img].
    split; [by rewrite dblk_insert, decide_True|]. split; [|split; [unfold f', zlen; cbn [fr_bs]; rewrite length_app; cbn [length]; lia|done]]. split; cbn [mk_img].
    + apply (minv_grow i s fl f f'); try done; [lia| | | |].
      * unfold blocks, f'. cbn [fr_bs fr_ia]. rewrite <- app_assoc. apply Permutation_sym, Permutation_cons_app. done.
      * apply (rep_entry (mk_img s) _ f b); try done; [lia|]. by rewrite dblk_insert, decide_True.
      * intros c Hc. apply lookup_insert_ne. intros <-. lia.
      * intros _. exists d. split; [apply lookup_insert_eq|done].
    + exists [mk_freeblock s]. split; [done|]. intros c ->%list_elem_of_singleton. rewrite Ed by lia. apply (mi_free _ _ _ I). lia.
    + intros j g c Hg Hc. apply Ed. by eapply (data_not_ind (Some i) s fl j i g f c).
    + cbn. by destruct (fr_di f).
Qed.

Lemma direct_alloc_run n b s fl f : minv (Some i) s fl -> fl !! i = Some f -> 0 <= b -> b + Z.of_nat n <= 12 -> b <= zlen (fr_bs f) -> roomy s f ->
  exists s' f', direct_alloc (seqZ b (Z.of_nat n)) (fr_di f) s = Ok (fr_di f') s' /\ grown i s fl f s' f' /\ zlen (fr_bs f') = Z.max (zlen (fr_bs f)) (b + Z.of_nat n).
Proof.
  revert b s fl f. induction n as [|n IH]; intros b s fl f I Hf Hb Hn Hl R.
  - exists s, f. split; [done|]. split; [by apply frep_grown_refl|lia].
  - rewrite seqZ_cons by lia. cbn [direct_alloc]. replace (Z.pred (Z.of_nat (S n))) with (Z.of_nat n) by lia.
    destruct (direct_step s fl f b I Hf ltac:(lia) Hl R) as (s1 & f1 & E1 & G1 & L1). rewrite (sbind_ok _ _ _ _ _ E1).
    destruct (IH (Z.succ b) s1 (<[i := f1]> fl) f1) as (s2 & f2 & E2 & G2 & L2); [apply G1|by eapply grown_self|lia|lia|lia|by eapply grown_room|].
    exists s2, f2. split; [done|]. split; [by eapply frep_grown_trans|lia].
Qed.

Lemma indirect_alloc_run n b s fl f : minv (Some i) s fl -> fl !! i = Some f -> fr_ia f <> 0 -> 0 <= b -> b + Z.of_nat n <= 256 -> 12 + b <= zlen (fr_bs f) -> roomy s f ->
  exists s' f', indirect_alloc (fr_ia f) (seqZ b (Z.of_nat n)) (dblk (mk_img s) (fr_ia f)) s = Ok (dblk (mk_img s') (fr_ia f)) s' /\ grown i s fl f s' f' /\ zlen (fr_bs f') = Z.max (zlen (fr_bs f)) (12 + b + Z.of_nat n) /\ fr_ia f' = fr_ia f /\ fr_di f' = fr_di f.
Proof.
  revert b s fl f. induction n as [|n IH]; intros b s fl f I Hf Ha Hb Hn Hl R.
  - exists s, f. split; [done|]. split; [by apply frep_grown_refl|]. split; [lia|done].
  - rewrite seqZ_cons by lia. cbn [indirect_alloc]. replace (Z.pred (Z.of_nat (S n))) with (Z.of_nat n) by lia. destruct (Z.leb_spec 256 b); [lia|].
    destruct (entry_step s fl f b I Hf Ha ltac:(lia) Hl R) as (s1 & f1 & E1 & G1 & L1 & A1 & D1). rewrite (sbind_ok _ _ _ _ _ E1).
    destruct (IH (Z.succ b) s1 (<[i := f1]> fl) f1) as (s2 & f2 & E2 & G2 & L2 & A2 & D2); [apply G1|by eapply grown_self|congruence|lia|lia|lia|by eapply grown_room|].
    rewrite A1 in *. exists s2, f2. split; [done|]. split; [by eapply frep_grown_trans|]. split; [lia|]. split; congruence.
Qed.
End Grow.

(** The address a lookup through the inode gives. *)
Lemma bs_lookup_nth f b x : nth b (fr_bs f) 0 = x -> (b < length (fr_bs f))%nat -> fr_bs f !! b = Some x.
Proof. intros <- H. by apply lookup_nth. Qed.

Lemma xint_daddr di b : di_fits di -> xint (daddr di b) = daddr di b.
Proof.
  intros F. apply xint_id. unfold daddr. destruct (decide (Z.to_nat b < length (d_addrs di))%nat) as [H|H]; [|rewrite nth_overflow by lia; lia].
  apply (Forall_lookup_1 is_u32 (d_addrs di) (Z.to_nat b)); [apply F|by apply lookup_nth].
Qed.

(** The requested file block exists after an allocation. *)
Lemma grown_direct i s fl f s' f' b : fl !! i = Some f -> grown i s fl f s' f' -> 0 <= b < 12 -> b < zlen (fr_bs f') ->
  fr_bs f' !! Z.to_nat b = Some (xint (daddr (fr_di f') b)).
Proof.
  intros Hf G Hb Hl. pose proof (mi_rep _ _ _ (gr_inv _ _ _ _ _ _ G) i f' (grown_self i s fl f s' f' Hf G)) as F.
  rewrite xint_daddr by apply F. rewrite (daddr_direct _ f' b F Hb). apply bs_lookup_nth; [done|unfold zlen in Hl; lia].
Qed.

Lemma grown_indirect i s fl f s' f' b : fl !! i = Some f -> grown i s fl f s' f' -> fr_ia f' <> 0 -> 0 <= b < 256 -> 12 + b < zlen (fr_bs f') ->
  fr_bs f' !! Z.to_nat (12 + b) = Some (xint (ld32 (4 * b) (dblk (mk_img s') (fr_ia f')))).
Proof.
  intros Hf G Ha Hb Hl. pose proof (gr_inv _ _ _ _ _ _ G) as I. pose proof (grown_self i s fl f s' f' Hf G) as Hf'. pose proof (mi_rep _ _ _ I i f' Hf') as F.
  rewrite (ld32_ind _ f' b F Ha Hb). assert (Hn : (12 + Z.to_nat b < length (fr_bs f'))%nat) by (unfold zlen in Hl; lia).
  destruct (bs_nonzero i _ s' _ f' _ I Hf' Hn) as [_ R]. rewrite nmeta_eq in R. rewrite xint_id by lia. replace (Z.to_nat (12 + b)) with (12 + Z.to_nat b)%nat by lia. by apply bs_lookup_nth.
Qed.

Lemma iappend_block_run i s fl f fbn : minv (Some i) s fl -> fl !! i = Some f -> 0 <= fbn < 268 -> fbn <= zlen (fr_bs f) -> roomy s f ->
  exists x s' f', iappend_block fbn (fr_di f) s = Ok (x, fr_di f') s' /\ grown i s fl f s' f' /\
    zlen (fr_bs f') = Z.max (zlen (fr_bs f)) (fbn + 1) /\ fr_bs f' !! Z.to_nat fbn = Some x.
Proof.
  intros I Hf Hb Hl R. unfold iappend_block. pose proof (mi_rep _ _ _ I i f Hf) as F. destruct (Z.ltb_spec fbn 12) as [H|H].
  - rewrite xint_daddr by apply F. destruct (direct_step i s fl f fbn I Hf ltac:(lia) Hl R) as (s1 & f1 & E1 & G1 & L1). rewrite (sbind_ok _ _ _ _ _ E1).
    exists (xint (daddr (fr_di f1) fbn)), s1, f1. split; [done|]. split; [done|]. split; [done|]. apply (grown_direct i s fl f s1 f1); [done|done|lia|lia].
  - rewrite xint_daddr by apply F. destruct (ind_step i s fl f I Hf ltac:(unfold zlen in Hl; lia) R) as (s1 & f1 & E1 & G1 & B1 & A1 & D1). rewrite (sbind_ok _ _ _ _ _ E1), D1.
    pose proof (gr_inv _ _ _ _ _ _ G1) as I1. pose proof (grown_self i s fl f s1 f1 Hf G1) as Hf1.
    pose proof (minv_block _ s1 _ i f1 (fr_ia f1) I1 Hf1 ltac:(apply blocks_in; by right)) as Hia. rewrite nmeta_eq in Hia. rewrite (xint_id (fr_ia f1)) by lia.
    rewrite (sbind_ok _ _ _ _ _ (minv_rsect _ s1 _ (fr_ia f1) I1 ltac:(lia))). destruct (Z.leb_spec 256 (fbn - 12)); [lia|].
    destruct (entry_step i s1 _ f1 (fbn - 12) I1 Hf1 A1 ltac:(lia) ltac:(rewrite B1; lia) (grown_room i s fl f s1 f1 I Hf G1 R)) as (s2 & f2 & E2 & G2 & L2 & A2 & D2).
    rewrite (sbind_ok _ _ _ _ _ E2). pose proof (frep_grown_trans i s fl f s1 f1 s2 f2 Hf G1 G2) as G. rewrite B1 in L2. rewrite <- D2, <- A2.
    exists (xint (ld32 (4 * (fbn - 12)) (dblk (mk_img s2) (fr_ia f2)))), s2, f2. split; [done|]. split; [done|]. split; [lia|].
    rewrite <- (grown_indirect i s fl f s2 f2 (fbn - 12) Hf G) by (congruence || lia). f_equal. lia.
Qed.

Lemma dir_block_run i s fl f block : minv (Some i) s fl -> fl !! i = Some f -> 0 <= block < 268 -> roomy s f ->
  exists x s' f', dir_block_allocation_continuation (fr_di f) block s = Ok (x, set_dsize (Z.max (d_size (fr_di f)) ((block + 1) * BSIZE)) (fr_di f')) s' /\
    grown i s fl f s' f' /\ zlen (fr_bs f') = Z.max (zlen (fr_bs f)) (block + 1) /\ fr_bs f' !! Z.to_nat block = Some x.
Proof.
  intros I Hf Hb R. unfold dir_block_allocation_continuation. cbv zeta. rewrite (u32_id (block + 1)) by (unfold is_u32; lia).
  assert (Fin : forall s' f', grown i s fl f s' f' -> (if d_size (fr_di f') <? u32 ((block + 1) * BSIZE) then u32 ((block + 1) * BSIZE) else d_size (fr_di f'))
    = Z.max (d_size (fr_di f)) ((block + 1) * BSIZE)).
  { intros s' f' G. rewrite (gr_di _ _ _ _ _ _ G). cbn [set_addrs d_size]. unfold u32. rewrite Z.mod_small by lia. destruct (Z.ltb_spec (d_size (fr_di f)) ((block + 1) * 1024)); lia. }
  destruct (direct_alloc_run i (Z.to_nat (Z.min (block + 1) 12)) 0 s fl f I Hf) as (s1 & f1 & E1 & G1 & L1); [lia|lia|unfold zlen; lia|done|].
  rewrite Z2Nat.id in E1, L1 by lia. rewrite (sbind_ok _ _ _ _ _ E1). pose proof (gr_inv _ _ _ _ _ _ G1) as I1. pose proof (grown_self i s fl f s1 f1 Hf G1) as Hf1.
  destruct (Z.leb_spec (block + 1) 12) as [H|H].
  - exists (xint (daddr (fr_di f1) (block + 1 - 1))), s1, f1. unfold sbind at 1, sret at 1. rewrite (Fin s1 f1 G1). split; [done|]. split; [done|]. split; [lia|].
    replace (block + 1 - 1) with block by lia. apply (grown_direct i s fl f s1 f1); [done|done|lia|lia].
  - destruct (ind_step i s1 _ f1 I1 Hf1 ltac:(unfold zlen in L1; lia) (grown_room i s fl f s1 f1 I Hf G1 R)) as (s2 & f2 & E2 & G2 & B2 & A2 & D2).
    pose proof (frep_grown_trans i s fl f s1 f1 s2 f2 Hf G1 G2) as G'. pose proof (gr_inv _ _ _ _ _ _ G') as I2. pose proof (grown_self i s fl f s2 f2 Hf G') as Hf2.
    pose proof (minv_block _ s2 _ i f2 (fr_ia f2) I2 Hf2 ltac:(apply blocks_in; by right)) as Hia. rewrite nmeta_eq in Hia.
    destruct (indirect_alloc_run i (Z.to_nat (block + 1 - 12)) 0 s2 _ f2 I2 Hf2 A2) as (s3 & f3 & E3 & G3 & L3 & A3 & D3); [lia|lia|rewrite B2; lia|exact (grown_room i s fl f s2 f2 I Hf G' R)|].
    rewrite Z2Nat.id in E3, L3 by lia. pose proof (frep_grown_trans i s fl f s2 f2 s3 f3 Hf G' G3) as G. rewrite B2 in L3.
    exists (xint (ld32 (4 * (block + 1 - 12 - 1)) (dblk (mk_img s3) (fr_ia f3)))), s3, f3. split; [|split; [done|split; [lia|]]].
    + unfold sbind at 1. rewrite (sbind_ok _ _ _ _ _ E2). cbv beta zeta. rewrite D2, (xint_id (fr_ia f2)) by lia.
      rewrite (sbind_ok _ _ _ _ _ (minv_rsect _ s2 _ (fr_ia f2) I2 ltac:(lia))). rewrite (sbind_ok _ _ _ _ _ E3). unfold sret. rewrite <- D3, <- A3, (Fin s3 f3 G). done.
    + rewrite <- (grown_indirect i s fl f s3 f3 (block + 1 - 12 - 1) Hf G) by (congruence || lia). f_equal. lia.
Qed.

(** ** Lemmas: the bytes of a file *)

Definition byte (s : mkst) (f : frep) (o : Z) : Z := getb o (fdata (mk_img s) f).

(** What a reader of the inode sees. *)
Definition fcont (s : mkst) (f : frep) : bytes := map (byte s f) (seqZ 0 (d_size (fr_di f))).

Definition sized (f : frep) (size : Z) : Prop := BSIZE * (zlen (fr_bs f) - 1) < size <= BSIZE * zlen (fr_bs f).

Lemma flat_blocks_len (d : gmap Z bytes) l : (forall b, length (dblk d b) = Z.to_nat BSIZE) -> zlen (flat_map (dblk d) l) = BSIZE * zlen l.
Proof.
  intros H. unfold zlen. induction l as [|b l IH]; [done|]. cbn [flat_map length]. rewrite length_app, H. lia.
Qed.

Lemma flat_blocks_getb (d : gmap Z bytes) l o : (forall b, length (dblk d b) = Z.to_nat BSIZE) -> 0 <= o < BSIZE * zlen l ->
  getb o (flat_map (dblk d) l) = getb (o mod BSIZE) (dblk d (nth (Z.to_nat (o / BSIZE)) l 0)).
Proof.
  intros H. revert o. induction l as [|b l IH]; intros o Ho; unfold zlen in *; cbn [length] in Ho; [lia|]. cbn [flat_map]. rewrite getb_app by lia. unfold zlen. rewrite H.
  pose proof (Z.div_mod o 1024 ltac:(lia)). pose proof (Z.mod_pos_bound o 1024 ltac:(lia)). destruct (decide (o < Z.of_nat (Z.to_nat 1024))) as [Hs|Hs].
  - rewrite Z.div_small, Z.mod_small by lia. done.
  - rewrite IH by lia. assert (E1 : (o - Z.of_nat (Z.to_nat 1024)) / 1024 = o / 1024 - 1) by (symmetry; apply (Z.div_unique_pos _ _ _ (o mod 1024)); lia).
    rewrite E1. f_equal; [symmetry; apply (Z.mod_unique_pos _ _ (o / 1024 - 1)); lia|]. f_equal.
    replace (Z.to_nat (o / 1024)) with (S (Z.to_nat (o / 1024 - 1))) by lia. done.
Qed.

Lemma byte_in ex s fl f o : minv ex s fl -> 0 <= o < BSIZE * zlen (fr_bs f) ->
  byte s f o = getb (o mod BSIZE) (dblk (mk_img s) (nth (Z.to_nat (o / BSIZE)) (fr_bs f) 0)).
Proof. intros I H. apply flat_blocks_getb; [|done]. intros b. by eapply minv_len. Qed.

Lemma byte_out ex s fl f o : minv ex s fl -> BSIZE * zlen (fr_bs f) <= o -> byte s f o = 0.
Proof.
  intros I H. unfold byte, getb. apply nth_overflow. pose proof (flat_blocks_len (mk_img s) (fr_bs f) (fun b => minv_len ex s fl b I)) as L.
  unfold fdata, zlen in *. lia.
Qed.

Lemma fdata_ext d d' f : (forall b, b ∈ fr_bs f -> dblk d' b = dblk d b) -> fdata d' f = fdata d f.
Proof. intros H. apply flat_map_ext_elem. done. Qed.

Lemma nth_in_bs f n : (n < length (fr_bs f))%nat -> nth n (fr_bs f) 0 ∈ fr_bs f.
Proof. intros H. by eapply list_elem_of_lookup_2, (lookup_nth _ _ 0). Qed.

Lemma getb_zeros n i : getb i (zeros n) = 0.
Proof. unfold getb, zeros. rewrite nth_lookup. destruct (replicate _ _ !! _) eqn:E; [|done]. by apply lookup_replicate in E as [-> _]. Qed.

Lemma grown_byte i s fl f s' f' o : minv (Some i) s fl -> fl !! i = Some f -> grown i s fl f s' f' -> 0 <= o -> byte s' f' o = byte s f o.
Proof.
  intros I Hf G Ho. pose proof (gr_inv _ _ _ _ _ _ G) as I'. destruct (gr_bs _ _ _ _ _ _ G) as (new & E & Z). unfold zlen in *.
  pose proof (Z.div_mod o 1024 ltac:(lia)). pose proof (Z.mod_pos_bound o 1024 ltac:(lia)). destruct (decide (o < BSIZE * zlen (fr_bs f))) as [H1|H1].
  - unfold zlen in H1. rewrite (byte_in _ s' _ f' o I'), (byte_in _ s _ f o I) by (unfold zlen; rewrite ?E, ?length_app; lia).
    rewrite E, app_nth1 by lia. rewrite (gr_same _ _ _ _ _ _ G i f) by (done || (apply nth_in_bs; lia)). done.
  - rewrite (byte_out _ s _ f o I) by lia. destruct (decide (o < BSIZE * zlen (fr_bs f'))) as [H2|H2]; [|apply (byte_out _ s' _ f' o I'); lia].
    unfold zlen in *. rewrite E, length_app in H2. rewrite (byte_in _ s' _ f' o I') by (unfold zlen; rewrite E, length_app; lia).
    rewrite E, app_nth2 by lia. rewrite Z; [|eapply list_elem_of_lookup_2, (lookup_nth _ _ 0); lia].
    apply getb_zeros.
Qed.

Lemma grown_other i s fl f s' f' j g : grown i s fl f s' f' -> fl !! j = Some g -> fdata (mk_img s') g = fdata (mk_img s) g.
Proof. intros G Hg. apply fdata_ext. intros b Hb. by eapply (gr_same _ _ _ _ _ _ G). Qed.

(** A piece of one block is overwritten. *)
Lemma write_byte ex s fl i f k b o new p : minv ex s fl -> fl !! i = Some f -> fr_bs f !! k = Some b -> 0 <= o -> o + zlen new <= BSIZE -> 0 <= p ->
  byte (set_img (fun m => <[b := splice o new (dblk (mk_img s) b)]> m) s) f p =
  if decide (BSIZE * Z.of_nat k + o <= p < BSIZE * Z.of_nat k + o + zlen new) then getb (p - (BSIZE * Z.of_nat k + o)) new else byte s f p.
Proof.
  intros I Hf Hk Ho Hn Hp. set (d := splice o new (dblk (mk_img s) b)). pose proof (minv_zlen ex s fl b I) as Lb.
  assert (Hd : length d = Z.to_nat BSIZE) by (unfold d; rewrite length_splice by lia; by eapply minv_len).
  assert (Hb : b ∈ fr_bs f) by (by eapply list_elem_of_lookup_2). pose proof (minv_write ex s fl i f b d I Hf Hb Hd) as I'. pose proof (lookup_lt_Some _ _ _ Hk) as Hlt.
  pose proof (Z.div_mod p 1024 ltac:(lia)). pose proof (Z.mod_pos_bound p 1024 ltac:(lia)). assert (0 <= zlen new) by (unfold zlen; lia).
  destruct (decide (p < BSIZE * zlen (fr_bs f))) as [Hq|Hq].
  - rewrite (byte_in _ _ _ f p I'), (byte_in _ s _ f p I) by lia. cbn [set_img mk_img]. rewrite dblk_insert. destruct (decide (nth (Z.to_nat (p / BSIZE)) (fr_bs f) 0 = b)) as [E|E].
    + assert (Z.to_nat (p / BSIZE) = k) as Ek.
      { assert (Hj : fr_bs f !! Z.to_nat (p / BSIZE) = Some b) by (rewrite <- E; apply lookup_nth; unfold zlen in Hq; lia).
        pose proof (NoDup_flat_map_elem blocks fl f (mi_nodup _ _ _ I) ltac:(by eapply list_elem_of_lookup_2)) as N. unfold blocks in N.
        apply NoDup_app in N as (N & _). by eapply NoDup_lookup. }
      rewrite E. unfold d. rewrite getb_splice by lia. destruct (decide (o <= p mod BSIZE < o + zlen new)); [rewrite decide_True by lia; f_equal; lia|by rewrite decide_False by lia].
    + rewrite decide_False; [done|]. intros C. apply E. assert (p / BSIZE = Z.of_nat k) as -> by lia. rewrite Nat2Z.id. by apply nth_lookup_Some.
  - rewrite (byte_out _ _ _ f p I'), (byte_out _ s _ f p I) by lia. rewrite decide_False; [done|]. unfold zlen in Hq. lia.
Qed.

Lemma write_other ex s fl i f b d j g : minv ex s fl -> fl !! i = Some f -> b ∈ fr_bs f -> j <> i -> fl !! j = Some g ->
  fdata (<[b := d]> (mk_img s)) g = fdata (mk_img s) g.
Proof.
  intros I Hf Hb N Hg. apply fdata_ext. intros c Hc. rewrite dblk_insert, decide_False; [done|]. intros ->. apply N.
  eapply (block_apart ex s fl j i g f b); [done|done|done|apply blocks_in; by left|apply blocks_in; by left].
Qed.

(** ** Lemmas: inodes *)

Definition isec (i : nat) : Z := (1 + Z.of_nat i) / IPB + 49.
Definition ino_img (i : nat) (di : dinode) (s : mkst) : mkst :=
  set_img (fun m => <[isec i := put_dinode (dioff (1 + Z.of_nat i)) di (dblk (mk_img s) (isec i))]> m) s.

Lemma iblock_run (i : nat) : Z.of_nat i < NINODES - 1 -> u32 (IBLOCK (1 + Z.of_nat i) sb_init) = isec i /\ 49 <= isec i < 1550.
Proof.
  intros H. pose proof (inode_sector i H). split; [|done]. unfold IBLOCK. change (sb_inodestart sb_init) with 49. apply u32_id. unfold is_u32, isec. lia.
Qed.

Lemma rinode_run ex s fl i f : minv ex s fl -> fl !! i = Some f -> Some i <> ex -> rinode (1 + Z.of_nat i) s = Ok (fr_di f) s.
Proof.
  intros I Hf Hx. destruct (mi_fi _ _ _ I) as [_ Hn]. pose proof (lookup_lt_Some _ _ _ Hf). unfold zlen in Hn. destruct (iblock_run i ltac:(lia)) as [E R].
  unfold rinode. rewrite (sbind_ok sget _ s s s eq_refl), (mi_sb _ _ _ I), E. rewrite (sbind_ok _ _ _ _ _ (minv_rsect _ s fl (isec i) I ltac:(lia))).
  unfold sret. by rewrite <- (mi_ino _ _ _ I i f Hf Hx).
Qed.

Lemma winode_raw ex s fl i di : minv ex s fl -> Z.of_nat i < NINODES - 1 -> winode (1 + Z.of_nat i) di s = Ok tt (ino_img i di s).
Proof.
  intros I Hi. destruct (iblock_run i Hi) as [E R]. unfold winode. rewrite (sbind_ok sget _ s s s eq_refl), (mi_sb _ _ _ I), E.
  rewrite (sbind_ok _ _ _ _ _ (minv_rsect _ s fl (isec i) I ltac:(lia))). apply wsect_run. lia.
Qed.

Lemma ino_img_blk i di s b : b <> isec i -> dblk (mk_img (ino_img i di s)) b = dblk (mk_img s) b.
Proof. intros H. cbn [ino_img set_img mk_img]. by rewrite dblk_insert, decide_False. Qed.

Lemma ino_img_get ex s fl i j di : minv ex s fl -> di_fits di ->
  get_dinode (dioff (1 + Z.of_nat j)) (dblk (mk_img (ino_img i di s)) (isec j)) =
  if decide (j = i) then di else get_dinode (dioff (1 + Z.of_nat j)) (dblk (mk_img s) (isec j)).
Proof.
  intros I F. destruct (decide (isec j = isec i)) as [Es|Ns]; [|rewrite ino_img_blk by done; rewrite decide_False by congruence; done].
  rewrite Es. cbn [ino_img set_img mk_img]. rewrite dblk_insert, decide_True by done. pose proof (minv_zlen ex s fl (isec i) I) as L.
  pose proof (dioff_bound (1 + Z.of_nat i)). pose proof (dioff_bound (1 + Z.of_nat j)). destruct (decide (j = i)) as [->|N]; [apply get_put_dinode; [lia|lia|done]|].
  apply get_put_dinode_ne; try lia; [apply F|]. unfold isec, dioff in *. pose proof (Z.div_mod (1 + Z.of_nat i) 8). pose proof (Z.div_mod (1 + Z.of_nat j) 8). lia.
Qed.

(** The stores of an inode keep everything but that inode. *)
Lemma ino_img_inv ex s fl i di : minv ex s fl -> Z.of_nat i < NINODES - 1 -> di_fits di -> (forall f, fl !! i = Some f -> fr_di f = di) ->
  ex = None \/ ex = Some i -> minv None (ino_img i di s) fl.
Proof.
  intros I Hi F Hd Hx. destruct (iblock_run i Hi) as [_ R]. assert (Lb : length (put_dinode (dioff (1 + Z.of_nat i)) di (dblk (mk_img s) (isec i))) = Z.to_nat BSIZE).
  { pose proof (zlen_put_dinode (dioff (1 + Z.of_nat i)) di (dblk (mk_img s) (isec i))) as H. pose proof (minv_zlen ex s fl (isec i) I) as L. pose proof (dioff_bound (1 + Z.of_nat i)).
    specialize (H ltac:(lia) ltac:(lia) ltac:(apply F)). unfold zlen in *. lia. }
  assert (Hb : forall b, b ∈ flat_map blocks fl -> b <> isec i) by (intros b Hb; pose proof (mi_range _ _ _ I b Hb) as Q; rewrite nmeta_eq in Q; lia).
  pose proof (mi_fb _ _ _ I) as [Hfb _]. rewrite nmeta_eq in Hfb. assert (0 <= zlen (flat_map blocks fl)) by (unfold zlen; lia).
  split; try apply I.
  - intros b x E. cbn [ino_img set_img mk_img] in E. destruct (decide (b = isec i)) as [->|N]; [rewrite lookup_insert_eq in E; congruence|].
    rewrite lookup_insert_ne in E by done. by apply (mi_img _ _ _ I b).
  - intros b Hb'. cbn [ino_img set_img mk_img]. destruct (decide (b = isec i)) as [->|N]; [rewrite lookup_insert_eq; eauto|]. rewrite lookup_insert_ne by done. by apply (mi_all _ _ _ I).
  - intros j g Hg. apply (rep_ext (mk_img s)); [|by eapply (mi_rep _ _ _ I)]. intros Hn. apply ino_img_blk. apply Hb. eapply file_blocks; [done|]. apply blocks_in. by right.
  - intros j g Hg _. fold (isec j). rewrite (ino_img_get ex s fl i j di I F). destruct (decide (j = i)) as [->|N]; [by rewrite (Hd g Hg)|].
    apply (mi_ino _ _ _ I j g Hg). destruct Hx; congruence.
  - intros b Hb'. cbn [ino_img set_img mk_freeblock] in Hb'. rewrite ino_img_blk by lia. by apply (mi_free _ _ _ I).
  - intros b H1 Hb'. rewrite nmeta_eq in Hb'. rewrite ino_img_blk by lia. apply (mi_meta _ _ _ I); [done|]. by rewrite nmeta_eq.
Qed.

Definition with_di (di : dinode) (f : frep) : frep := mkFr di (fr_bs f) (fr_ia f).

Lemma minv_di i s fl f di : minv (Some i) s fl -> fl !! i = Some f -> di_fits di -> d_addrs di = d_addrs (fr_di f) -> minv (Some i) s (<[i := with_di di f]> fl).
Proof.
  intros I Hf F Ha. pose proof (lookup_lt_Some _ _ _ Hf) as Hi.
  assert (E : flat_map blocks (<[i := with_di di f]> fl) = flat_map blocks fl).
  { rewrite (flat_map_insert blocks fl i f Hf), (flat_map_insert blocks (<[i := with_di di f]> fl) i (with_di di f)) by (by apply list_lookup_insert_eq).
    by rewrite take_insert_ge, drop_insert_lt by lia. }
  assert (L : zlen (<[i := with_di di f]> fl) = zlen fl) by (unfold zlen; by rewrite length_insert).
  assert (O : forall j g, <[i := with_di di f]> fl !! j = Some g -> Some j <> Some i -> fl !! j = Some g) by (intros j g H N; rewrite list_lookup_insert_ne in H; congruence).
  destruct I as [S1 S2 S3 S4 S5 S6 S7 S8 S9 S10 S11]. split; rewrite ?E, ?L; try done.
  - intros j g Hg. destruct (decide (j = i)) as [->|N]; [|eapply S6, O; [done|congruence]]. rewrite list_lookup_insert_eq in Hg by done. injection Hg as <-.
    destruct (S6 i f Hf) as [R1 R2 R3 R4 R5]. split; try done. cbn. by rewrite Ha.
  - intros j g Hg N. by apply S7, N; apply O.
Qed.

(** What an operation leaves of the files other than [i]. *)
Definition others (i : nat) (fl : list frep) (s s' : mkst) : Prop :=
  forall j g, j <> i -> fl !! j = Some g -> fdata (mk_img s') g = fdata (mk_img s) g.

Lemma winode_run i s fl f di : minv (Some i) s fl -> fl !! i = Some f -> di_fits di -> d_addrs di = d_addrs (fr_di f) ->
  exists s', winode (1 + Z.of_nat i) di s = Ok tt s' /\ minv None s' (<[i := with_di di f]> fl) /\ mk_freeblock s' = mk_freeblock s /\
    (forall j g, fl !! j = Some g -> fdata (mk_img s') g = fdata (mk_img s) g).
Proof.
  intros I Hf F Ha. pose proof (lookup_lt_Some _ _ _ Hf) as Hi. assert (Hn : Z.of_nat i < NINODES - 1) by (destruct (mi_fi _ _ _ I); unfold zlen in *; lia).
  exists (ino_img i di s). split; [by eapply winode_raw|]. split; [|split; [done|]].
  - apply (ino_img_inv (Some i)); [by apply minv_di|done|done| |by right]. intros g Hg. rewrite list_lookup_insert_eq in Hg by done. by injection Hg as <-.
  - intros j g Hg. apply fdata_ext. intros b Hb. apply ino_img_blk. destruct (iblock_run i Hn) as [_ R].
    pose proof (minv_block _ s fl j g b I Hg ltac:(apply blocks_in; by left)) as Q. rewrite nmeta_eq in Q. lia.
Qed.

Definition new_inode (type : Z) : dinode := mkDi type 0 0 1 0 3 0 (replicate 15 0) 1.

Lemma new_fits type : is_s16 type -> di_fits (new_inode type).
Proof. intros H. split; cbn; try done; try (unfold is_s16, is_u32; lia). apply (Forall_replicate is_u32 15 0). unfold is_u32. lia. Qed.

Lemma ialloc_run s fl type : minv None s fl -> zlen fl < NINODES - 2 -> 0 <= type < 2 ^ 15 ->
  exists s', Mkfs.ialloc type s = Ok (1 + zlen fl) s' /\ minv None s' (fl ++ [mkFr (new_inode type) [] 0]) /\ mk_freeblock s' = mk_freeblock s /\
    (forall j g, fl !! j = Some g -> fdata (mk_img s') g = fdata (mk_img s) g).
Proof.
  intros I Hn Ht. destruct (mi_fi _ _ _ I) as [Hfi _]. unfold zlen in *. set (s1 := mkMk (mk_img s) (mk_sb s) (1 + Z.of_nat (S (length fl))) (mk_freeblock s)).
  set (f := mkFr (new_inode type) [] 0).
  assert (E : next_inode s = Ok (1 + Z.of_nat (length fl)) s1).
  { unfold next_inode, s1, u32. rewrite Hfi, Z.mod_small by lia. do 2 f_equal. lia. }
  assert (Fm : flat_map blocks (fl ++ [f]) = flat_map blocks fl) by (rewrite flat_map_app; apply app_nil_r).
  assert (I1 : minv (Some (length fl)) s1 (fl ++ [f])).
  { destruct I as [S1 S2 S3 S4 S5 S6 S7 S8 S9 S10 S11]. split; rewrite ?Fm; cbn [s1 mk_img mk_sb mk_freeinode mk_freeblock]; try done.
    - unfold zlen. rewrite length_app. cbn [length]. lia.
    - intros j g Hg. apply lookup_app_Some in Hg as [Hg|[Hj Hg]]; [by eapply S6|]. apply list_lookup_singleton_Some in Hg as [_ <-].
      split; cbn; try done; [apply new_fits; unfold is_s16; lia|lia|lia].
    - intros j g Hg Nj. apply lookup_app_Some in Hg as [Hg|[Hj Hg]]; [by apply S7|]. apply list_lookup_singleton_Some in Hg as [H0 _]. exfalso. apply Nj. f_equal. lia. }
  assert (Hf : (fl ++ [f]) !! length fl = Some f) by (rewrite lookup_app_r, Nat.sub_diag by lia; done).
  destruct (winode_run (length fl) s1 _ f (new_inode type) I1 Hf ltac:(apply new_fits; unfold is_s16; lia) eq_refl) as (s2 & E2 & I2 & B2 & D2).
  exists s2. split; [|split; [|split; [done|]]].
  - unfold Mkfs.ialloc. rewrite (sbind_ok _ _ _ _ _ E). rewrite !xshort_id, xint_id by lia.
    assert (Es : s16 type = type) by (rewrite <- (sint_u16 type) at 2 by (unfold is_s16; lia); rewrite Z.mod_small by lia; done).
    rewrite Es. change (s16 1) with 1. by rewrite (sbind_ok _ _ _ _ _ E2).
  - rewrite list_insert_id in I2; [done|]. by rewrite Hf.
  - intros j g Hg. apply (D2 j). by apply lookup_app_l_Some.
Qed.

(** ** Lemmas: iappend *)

(** File [i] went from [f] to [f'] with the bytes [p] stored at [off]. *)
Record stored (i : nat) (s : mkst) (fl : list frep) (f : frep) (off : Z) (p : bytes) (s' : mkst) (f' : frep) : Prop := {
  so_inv : minv (Some i) s' (<[i := f']> fl);
  so_byte : forall o, 0 <= o -> byte s' f' o = if decide (off <= o < off + zlen p) then getb (o - off) p else byte s f o;
  so_others : others i fl s s';
  so_di : fr_di f' = set_addrs (d_addrs (fr_di f')) (fr_di f);
  so_roomy : roomy s' f'
}.

Lemma getb_take_drop o n (p : bytes) : 0 <= n -> 0 <= o < zlen p -> (if decide (o < n) then getb o (take (Z.to_nat n) p) else getb (o - n) (drop (Z.to_nat n) p)) = getb o p.
Proof.
  intros Hn Ho. unfold getb, zlen in *. destruct (decide (o < n)).
  - rewrite !nth_lookup. by rewrite lookup_take_lt by lia.
  - rewrite !nth_lookup, lookup_drop. do 2 f_equal. lia.
Qed.

(** One turn of the loop: the piece [q] that fits in the block of [off]. *)
Lemma append_piece i s fl f off q : minv (Some i) s fl -> fl !! i = Some f -> 0 <= off -> 0 < zlen q -> off + zlen q <= BSIZE * (off / BSIZE + 1) -> off + zlen q <= 268 * BSIZE ->
  sized f off -> roomy s f ->
  exists x s1 f' s', iappend_block (off / BSIZE) (fr_di f) s = Ok (x, fr_di f') s1 /\ rsect x s1 = Ok (dblk (mk_img s1) x) s1 /\
    wsect x (splice (off - off / BSIZE * BSIZE) q (dblk (mk_img s1) x)) s1 = Ok tt s' /\
    stored i s fl f off q s' f' /\ sized f' (off + zlen q).
Proof.
  intros I Hf Ho Hq Hb Hm Hs R. pose proof (Z.div_mod off 1024 ltac:(lia)) as Ed. pose proof (Z.mod_pos_bound off 1024 ltac:(lia)) as Em. unfold sized in *.
  assert (Hd : 0 <= off / 1024) by (apply Z.div_pos; lia). destruct (iappend_block_run i s fl f (off / BSIZE) I Hf ltac:(lia) ltac:(lia) R) as (x & s1 & f1 & E1 & G1 & L1 & X1).
  pose proof (gr_inv _ _ _ _ _ _ G1) as I1. pose proof (grown_self i s fl f s1 f1 Hf G1) as Hf1. assert (Hx : x ∈ fr_bs f1) by (by eapply list_elem_of_lookup_2).
  pose proof (minv_block _ s1 _ i f1 x I1 Hf1 ltac:(apply blocks_in; by left)) as Rx. rewrite nmeta_eq in Rx. pose proof (minv_zlen _ s1 _ x I1) as Lx.
  set (o := off - off / BSIZE * BSIZE). assert (0 <= o /\ o + zlen q <= 1024) as [O1 O2] by (unfold o; lia).
  exists x, s1, f1, (set_img (fun m => <[x := splice o q (dblk (mk_img s1) x)]> m) s1). split; [done|]. split; [apply (minv_rsect _ _ _ _ I1); lia|]. split; [apply wsect_run; lia|].
  split; [|lia]. assert (Ho2 : BSIZE * Z.of_nat (Z.to_nat (off / BSIZE)) + o = off) by (unfold o; lia). split.
  - apply (minv_write _ _ _ i f1 x _ I1 Hf1 Hx). rewrite length_splice by lia. by eapply minv_len.
  - intros p Hp. rewrite (write_byte _ s1 _ i f1 (Z.to_nat (off / BSIZE)) x o q p I1 Hf1 X1) by lia. rewrite Ho2.
    destruct (decide (off <= p < off + zlen q)); [done|]. by apply (grown_byte i s fl f s1 f1).
  - intros j g Nj Hg. transitivity (fdata (mk_img s1) g); [|by eapply grown_other]. apply (write_other _ s1 _ i f1 x _ j g I1 Hf1 Hx Nj). by rewrite list_lookup_insert_ne.
  - apply (gr_di _ _ _ _ _ _ G1).
  - by apply (grown_room i s fl f s1 f1).
Qed.

Lemma stored_trans i s fl f off p q s1 f1 s2 f2 : fl !! i = Some f -> stored i s fl f off p s1 f1 -> stored i s1 (<[i := f1]> fl) f1 (off + zlen p) q s2 f2 -> 0 <= off ->
  stored i s fl f off (p ++ q) s2 f2.
Proof.
  intros Hf [I1 B1 O1 D1 R1] [I2 B2 O2 D2 R2] Ho. assert (zlen (p ++ q) = zlen p + zlen q) as L by (unfold zlen; rewrite length_app; lia). split.
  - by rewrite list_insert_insert_eq in I2.
  - intros o Hp. rewrite B2, B1, L by done. unfold zlen in *. destruct (decide (off + Z.of_nat (length p) <= o < off + Z.of_nat (length p) + Z.of_nat (length q))).
    + rewrite decide_True by lia. rewrite getb_app, decide_False by (unfold zlen; lia). f_equal. unfold zlen. lia.
    + destruct (decide (off <= o < off + Z.of_nat (length p))); [rewrite decide_True by lia; by rewrite getb_app, decide_True by (unfold zlen; lia)|by rewrite decide_False by lia].
  - intros j g Nj Hg. rewrite (O2 j g Nj) by (by rewrite list_lookup_insert_ne). by apply (O1 j g).
  - rewrite D2. cbn. by rewrite D1.
  - done.
Qed.

Lemma stored_nil i s fl f off : minv (Some i) s fl -> fl !! i = Some f -> roomy s f -> stored i s fl f off [] s f.
Proof.
  intros I Hf R. split; [by rewrite list_insert_id| |done|by destruct f as [[] ? ?]|done]. intros o Ho. unfold zlen. cbn. by rewrite decide_False by lia.
Qed.

Lemma iappend_loop_run fuel i p off s fl f : minv (Some i) s fl -> fl !! i = Some f -> (length p <= fuel)%nat -> 0 <= off -> off + zlen p <= 268 * BSIZE -> sized f off -> roomy s f ->
  exists s' f', iappend_loop fuel p off (fr_di f) s = Ok (off + zlen p, fr_di f') s' /\ stored i s fl f off p s' f' /\ sized f' (off + zlen p).
Proof.
  revert p off s fl f. induction fuel as [|fuel IH]; intros p off s fl f I Hf Hp Ho Hm Hs R.
  { destruct p; [|cbn in Hp; lia]. exists s, f. change (zlen []) with 0. rewrite Z.add_0_r. split; [done|]. split; [by apply stored_nil|done]. }
  cbn [iappend_loop]. destruct (Z.leb_spec (zlen p) 0) as [H|H].
  { assert (p = []) as -> by (destruct p; [done|]; unfold zlen in H; cbn in H; lia). exists s, f. change (zlen []) with 0. rewrite Z.add_0_r. split; [done|]. split; [by apply stored_nil|done]. }
  pose proof (Z.div_mod off 1024 ltac:(lia)) as Ed. pose proof (Z.mod_pos_bound off 1024 ltac:(lia)) as Em.
  assert (Hd : 0 <= off / 1024 < 268) by lia. cbv zeta. destruct (Z.ltb_spec (off / BSIZE) MAXFILE) as [_|Hx]; [|unfold MAXFILE in Hx; lia].
  rewrite (sbind_ok (assert true) _ s tt s eq_refl). rewrite (u32_id ((off / BSIZE + 1) * BSIZE - off)) by (unfold is_u32; lia).
  set (n1 := Z.min (zlen p) ((off / BSIZE + 1) * BSIZE - off)) in *. set (q := take (Z.to_nat n1) p). set (p' := drop (Z.to_nat n1) p).
  assert (Lq : zlen q = n1) by (unfold q, zlen in *; rewrite length_take; lia). assert (Lp : zlen p' = zlen p - n1) by (unfold p', zlen in *; rewrite length_drop; lia).
  destruct (append_piece i s fl f off q I Hf Ho ltac:(lia) ltac:(lia) ltac:(lia) Hs R) as (x & s1 & f1 & s2 & E1 & E2 & E3 & S1 & Z1).
  rewrite (sbind_ok _ _ _ _ _ E1), (sbind_ok _ _ _ _ _ E2), (sbind_ok _ _ _ _ _ E3). rewrite (u32_id (off + n1)) by (unfold is_u32; lia). rewrite Lq in *.
  destruct (IH p' (off + n1) s2 (<[i := f1]> fl) f1) as (s3 & f3 & E4 & S3 & Z3); [apply S1|apply list_lookup_insert_eq; by eapply lookup_lt_Some|unfold p', zlen in *; rewrite length_drop; lia|lia|lia|done|apply S1|].
  exists s3, f3. replace (off + n1 + zlen p') with (off + zlen p) in * by lia. split; [exact E4|]. split; [|done].
  rewrite <- (take_drop (Z.to_nat n1) p). fold q p'. eapply stored_trans; [done|done| |done]. by rewrite Lq.
Qed.

Lemma minv_weaken ex s fl : minv None s fl -> minv ex s fl.
Proof. intros []. split; try done. intros i f Hf _. by apply mi_ino0. Qed.

Lemma fcont_stored s f s' f' off (p : bytes) : 0 <= off ->
  (forall o, 0 <= o -> byte s' f' o = if decide (off <= o < off + zlen p) then getb (o - off) p else byte s f o) ->
  map (byte s' f') (seqZ 0 (off + zlen p)) = map (byte s f) (seqZ 0 off) ++ p.
Proof.
  intros Ho B. assert (0 <= zlen p) by (unfold zlen; lia). rewrite seqZ_app, map_app by lia. f_equal.
  - apply map_ext_in. intros o Hin. apply list_elem_of_In, elem_of_seqZ in Hin. rewrite B by lia. by rewrite decide_False by lia.
  - apply list_eq. intros k. rewrite list_lookup_fmap. destruct (decide (Z.of_nat k < zlen p)).
    + rewrite lookup_seqZ_lt by lia. cbn [fmap option_fmap option_map]. rewrite B by lia. rewrite decide_True by lia. rewrite (lookup_nth p k 0) by (unfold zlen in *; lia). unfold getb. do 2 f_equal. lia.
    + rewrite lookup_seqZ_ge by lia. by rewrite lookup_ge_None_2 by (unfold zlen in *; lia).
Qed.

Lemma fits_size x di : di_fits di -> 0 <= x < 2 ^ 32 -> di_fits (set_dsize x di).
Proof. intros [] H. by split. Qed.

(** The result of an append. *)
Record appended (i : nat) (s : mkst) (fl : list frep) (f : frep) (p : bytes) (s' : mkst) (f' : frep) : Prop := {
  ap_inv : minv None s' (<[i := f']> fl);
  ap_di : fr_di f' = set_dsize (d_size (fr_di f) + zlen p) (set_addrs (d_addrs (fr_di f')) (fr_di f));
  ap_sized : sized f' (d_size (fr_di f'));
  ap_byte : forall o, 0 <= o -> byte s' f' o = if decide (d_size (fr_di f) <= o < d_size (fr_di f) + zlen p) then getb (o - d_size (fr_di f)) p else byte s f o;
  ap_cont : fcont s' f' = fcont s f ++ p;
  ap_others : others i fl s s';
  ap_roomy : roomy s' f'
}.

Lemma iappend_run i s fl f p : minv None s fl -> fl !! i = Some f -> sized f (d_size (fr_di f)) -> d_size (fr_di f) + zlen p <= 268 * BSIZE -> roomy s f ->
  exists s' f', iappend (1 + Z.of_nat i) p s = Ok tt s' /\ appended i s fl f p s' f'.
Proof.
  intros I Hf Hs Hm R. pose proof (mi_rep _ _ _ I i f Hf) as F. pose proof (df_size _ (fr_fits _ f F)) as Hz. unfold is_u32 in Hz. pose proof (lookup_lt_Some _ _ _ Hf) as Hi.
  unfold iappend. rewrite (sbind_ok _ _ _ _ _ (rinode_run None s fl i f I Hf ltac:(done))). rewrite (xint_id (d_size (fr_di f))) by lia.
  destruct (iappend_loop_run (length p) i p (d_size (fr_di f)) s fl f (minv_weaken _ s fl I) Hf ltac:(lia) ltac:(lia) Hm Hs R) as (s1 & f1 & E1 & [I1 B1 O1 D1 R1] & Z1).
  rewrite (sbind_ok _ _ _ _ _ E1). assert (0 <= zlen p) by (unfold zlen; lia). rewrite xint_id by lia. set (n := d_size (fr_di f) + zlen p) in *.
  assert (Hf1 : (<[i := f1]> fl) !! i = Some f1) by (by apply list_lookup_insert_eq). pose proof (fits_size n _ (fr_fits _ f1 (mi_rep _ _ _ I1 i f1 Hf1)) ltac:(lia)) as F1.
  destruct (winode_run i s1 _ f1 (set_dsize n (fr_di f1)) I1 Hf1 F1 eq_refl) as (s2 & E2 & I2 & B2 & X2).
  assert (Eb : forall o, byte s2 (with_di (set_dsize n (fr_di f1)) f1) o = byte s1 f1 o) by (intros o; unfold byte; by rewrite <- (X2 i f1 Hf1)).
  exists s2, (with_di (set_dsize n (fr_di f1)) f1). split; [exact E2|]. split.
  - by rewrite list_insert_insert_eq in I2.
  - cbn [with_di fr_di set_dsize d_addrs]. rewrite D1. done.
  - done.
  - intros o Ho. rewrite Eb. by apply B1.
  - unfold fcont. cbn [with_di fr_di set_dsize d_size]. apply fcont_stored; [lia|]. intros o Ho. rewrite Eb. by apply B1.
  - intros j g Nj Hg. rewrite (X2 j g) by (by rewrite list_lookup_insert_ne). by apply (O1 j g).
  - unfold roomy in *. rewrite B2. exact R1.
Qed.
