(* ===== verification/MkfsDir.v ===== *)
(** * What mkfs writes: the root directory and the whole image

    The directory of the image is a hash table like the kernel's: the entries
    of one hash value fill the slots of its bucket in the order of insertion.
    The last part follows main from the empty image file to the finished
    one. *)
From S2P Require Import Prelude Str Bio Log Crash Machine Types Vm Codec Ld Balloc Inode Bmap Dir Mkfs MkfsSpec.
Local Open Scope st_scope.

(** The sixteen bytes at [o]. *)
Definition slot (g : Z -> Z) (o : Z) : bytes := map (fun j => g (o + j)) (seqZ 0 16).

(** The inode number in a slot. *)
Definition slot_inum (g : Z -> Z) (o : Z) : Z := le_dec [g o; g (o + 1)].

Definition hash_is (h : Z) (e : dirent) : Prop := BKDRHash_mkfs (de_name e) = Some h.
#[export] Instance hash_is_dec h e : Decision (hash_is h e) := decide (BKDRHash_mkfs (de_name e) = Some h).

(** The entries with hash value [h], in the order of insertion. *)
Definition bucket (h : Z) (es : list dirent) : list dirent := filter (hash_is h) es.

Definition entry_ok (e : dirent) : Prop := 0 < de_inum e < 2 ^ 16 /\ length (de_name e) = 14%nat.

(** A directory of [size] bytes holds the entries [es]. *)
Record dir_rep (g : Z -> Z) (size : Z) (es : list dirent) : Prop := {
  dr_entries : Forall entry_ok es;
  dr_inside : forall h, bucket h es <> [] -> 256 * h + 256 <= size;
  dr_slots : forall h (k : nat), 16 <= h <= 458 -> (k < 16)%nat ->
    slot g (256 * h + 16 * Z.of_nat k) = match bucket h es !! k with Some e => enc_dirent e | None => zeros 16 end
}.

(** ** Lemmas: slots *)

Lemma length_slot g o : length (slot g o) = 16%nat.
Proof. unfold slot. by rewrite length_map, length_seqZ. Qed.

Lemma slot_lookup_byte g o j : 0 <= j < 16 -> getb j (slot g o) = g (o + j).
Proof.
  intros Hj. unfold getb, slot. apply nth_lookup_Some. rewrite list_lookup_fmap, lookup_seqZ_lt by lia. cbn [fmap option_fmap option_map]. do 2 f_equal. lia.
Qed.

Lemma slot_ext g g' o : (forall j, 0 <= j < 16 -> g' (o + j) = g (o + j)) -> slot g' o = slot g o.
Proof. intros H. apply map_ext_in. intros j Hj. apply list_elem_of_In, elem_of_seqZ in Hj. apply H. lia. Qed.

Lemma dir_slot_eq g o (l : bytes) : length l = 16%nat -> (forall j, 0 <= j < 16 -> g (o + j) = getb j l) -> slot g o = l.
Proof.
  intros Hl H. apply list_eq. intros i. destruct (decide (i < 16)%nat).
  - unfold slot. rewrite list_lookup_fmap, lookup_seqZ_lt by lia. cbn [fmap option_fmap option_map]. rewrite (lookup_nth l i 0) by lia. f_equal.
    rewrite H by lia. unfold getb. f_equal. lia.
  - rewrite !lookup_ge_None_2; [done|lia|rewrite length_slot; lia].
Qed.

Lemma slot_inum_eq g o l : slot g o = l -> slot_inum g o = le_dec [getb 0 l; getb 1 l].
Proof. intros <-. rewrite !slot_lookup_byte by lia. unfold slot_inum. by rewrite Z.add_0_r. Qed.

Lemma length_enc_dirent e : entry_ok e -> length (enc_dirent e) = 16%nat.
Proof. intros [_ H]. unfold enc_dirent. rewrite length_app, length_le_enc. lia. Qed.

Lemma enc_inum e : entry_ok e -> le_dec [getb 0 (enc_dirent e); getb 1 (enc_dirent e)] = de_inum e.
Proof.
  intros [H _]. unfold enc_dirent. cbn [le_enc app getb]. change (le_dec (le_enc 2 (de_inum e)) = de_inum e). rewrite le_dec_enc. apply Z.mod_small. lia.
Qed.

Lemma ld16_getb o d : 0 <= o -> o + 2 <= zlen d -> ld16 o d = le_dec [getb o d; getb (o + 1) d].
Proof.
  intros Ho Hd. unfold ld16. f_equal. unfold sub. change (Z.to_nat 2) with 2%nat. apply list_eq. intros [|[|i]].
  - rewrite lookup_take_lt, lookup_drop, (lookup_nth d _ 0) by (unfold zlen in Hd; lia). cbn. unfold getb. do 2 f_equal. lia.
  - rewrite lookup_take_lt, lookup_drop, (lookup_nth d _ 0) by (unfold zlen in Hd; lia). cbn. unfold getb. do 2 f_equal. lia.
  - rewrite lookup_ge_None_2; [done|]. rewrite length_take. lia.
Qed.

(** ** Lemmas: the search for a free slot *)

Lemma slot_div h k : 16 <= h <= 458 -> 0 <= k < 16 -> (256 * h + 16 * k) / BSIZE = 256 * h / BSIZE /\ (256 * h + 16 * k) mod BSIZE = 256 * (h mod 4) + 16 * k.
Proof.
  intros Hh Hk. pose proof (Z.div_mod h 4 ltac:(lia)). pose proof (Z.mod_pos_bound h 4 ltac:(lia)).
  assert (E : 256 * h / 1024 = h / 4) by (symmetry; apply (Z.div_unique_pos _ _ _ (256 * (h mod 4))); lia). rewrite E. split.
  - symmetry. apply (Z.div_unique_pos _ _ _ (256 * (h mod 4) + 16 * k)); lia.
  - symmetry. apply (Z.mod_unique_pos _ _ (h / 4)); lia.
Qed.

(** The block of bucket [h] is allocated at [tb] and inside the size. *)
Record at_bucket (i : nat) (s : mkst) (fl : list frep) (f : frep) (h tb : Z) : Prop := {
  ab_inv : minv (Some i) s fl;
  ab_file : fl !! i = Some f;
  ab_roomy : roomy s f;
  ab_block : fr_bs f !! Z.to_nat (256 * h / BSIZE) = Some tb;
  ab_size : (256 * h / BSIZE + 1) * BSIZE <= d_size (fr_di f)
}.

Lemma bucket_block h : 16 <= h <= 458 -> 4 <= 256 * h / BSIZE <= 114.
Proof. intros H. pose proof (Z.div_mod (256 * h) 1024 ltac:(lia)). pose proof (Z.mod_pos_bound (256 * h) 1024 ltac:(lia)). lia. Qed.

Lemma same_dsize i s fl f s' f' : grown i s fl f s' f' -> d_size (fr_di f') = d_size (fr_di f).
Proof. intros G. by rewrite (gr_di _ _ _ _ _ _ G). Qed.

Lemma set_dsize_id di : set_dsize (d_size di) di = di.
Proof. by destruct di. Qed.

(** Finding the block of a slot allocates nothing. *)
Lemma addr_step i s fl f h tb k : at_bucket i s fl f h tb -> 16 <= h <= 458 -> 0 <= k < 16 ->
  exists s' f', (if 113 * BSIZE <=? 256 * h + 16 * k then overflow_block_allocation_continuation (fr_di f) (256 * h + 16 * k) else sret (tb, fr_di f)) s
      = Ok (tb, fr_di f') s' /\ grown i s fl f s' f' /\ fr_bs f' = fr_bs f /\ at_bucket i s' (<[i := f']> fl) f' h tb.
Proof.
  intros [I Hf R Hb Hs] Hh Hk. destruct (Z.leb_spec (113 * 1024) (256 * h + 16 * k)).
  - destruct (slot_div h k Hh Hk) as [Ed _]. unfold overflow_block_allocation_continuation. rewrite Ed. pose proof (bucket_block h Hh) as Hr.
    destruct (dir_block_run i s fl f (256 * h / BSIZE) I Hf ltac:(lia) R) as (x & s1 & f1 & E & G & L & X). pose proof (same_dsize _ _ _ _ _ _ G) as Ez.
    destruct (gr_bs _ _ _ _ _ _ G) as (new & En & _). pose proof (lookup_lt_Some _ _ _ Hb) as Hlt.
    assert (new = []) as -> by (apply length_zero_iff_nil; unfold zlen in L; rewrite En, length_app in L; lia). rewrite app_nil_r in En.
    assert (x = tb) as -> by (rewrite En in X; congruence). exists s1, f1. split; [|split; [done|split; [done|]]].
    + rewrite E. do 2 f_equal. rewrite Z.max_l by lia. rewrite <- Ez. apply set_dsize_id.
    + split; [apply G|by eapply grown_self|by eapply grown_room|by rewrite En|lia].
  - exists s, f. split; [done|]. split; [by apply frep_grown_refl|]. split; [done|]. by rewrite list_insert_id.
Qed.

(** The entry [de] is stored at offset [o] of file [i]. *)
Record placed (i : nat) (s : mkst) (fl : list frep) (f : frep) (o : Z) (de : dirent) (s' : mkst) (f' : frep) : Prop := {
  pl_inv : minv None s' (<[i := f']> fl);
  pl_byte : forall p, 0 <= p -> byte s' f' p = if decide (o <= p < o + 16) then getb (p - o) (enc_dirent de) else byte s f p;
  pl_others : others i fl s s';
  pl_bs : fr_bs f' = fr_bs f;
  pl_di : fr_di f' = set_addrs (d_addrs (fr_di f')) (fr_di f);
  pl_roomy : roomy s' f'
}.

Lemma place_here i s fl f h tb k de : at_bucket i s fl f h tb -> 16 <= h <= 458 -> 0 <= k < 16 -> entry_ok de ->
  exists s1 s', wsect tb (splice ((256 * h + 16 * k) mod BSIZE) (enc_dirent de) (dblk (mk_img s) tb)) s = Ok tt s1 /\
    winode (1 + Z.of_nat i) (fr_di f) s1 = Ok tt s' /\ placed i s fl f (256 * h + 16 * k) de s' f.
Proof.
  intros [I Hf R Hb Hs] Hh Hk He. destruct (slot_div h k Hh Hk) as [Ed Em]. pose proof (bucket_block h Hh) as Hr. set (o := (256 * h + 16 * k) mod BSIZE) in *.
  pose proof (Z.div_mod (256 * h + 16 * k) BSIZE ltac:(lia)) as Dm. fold o in Dm. rewrite Ed in Dm. pose proof (Z.mod_pos_bound h 4 ltac:(lia)) as Hm.
  assert (Lz : zlen (enc_dirent de) = 16) by (unfold zlen; by rewrite length_enc_dirent). assert (Hx : tb ∈ fr_bs f) by (by eapply list_elem_of_lookup_2).
  pose proof (minv_block _ s _ i f tb I Hf ltac:(apply blocks_in; by left)) as Rx. rewrite nmeta_eq in Rx. pose proof (minv_zlen _ s _ tb I) as Lx.
  set (d := splice o (enc_dirent de) (dblk (mk_img s) tb)). assert (Ld : length d = Z.to_nat BSIZE) by (unfold d; rewrite length_splice by lia; by eapply minv_len).
  set (s1 := set_img (fun m => <[tb := d]> m) s). pose proof (minv_write _ s fl i f tb d I Hf Hx Ld) as I1. fold s1 in I1.
  destruct (winode_run i s1 fl f (fr_di f) I1 Hf (fr_fits _ f (mi_rep _ _ _ I i f Hf)) eq_refl) as (s2 & E2 & I2 & B2 & X2).
  assert (with_di (fr_di f) f = f) as Ew by (by destruct f). rewrite Ew in I2. exists s1, s2. split; [apply wsect_run; lia|]. split; [done|]. split.
  - done.
  - intros p Hp. assert (byte s2 f p = byte s1 f p) as -> by (unfold byte; by rewrite (X2 i f Hf)). unfold s1, d.
    rewrite (write_byte _ s fl i f (Z.to_nat (256 * h / BSIZE)) tb o (enc_dirent de) p I Hf Hb) by lia. rewrite Lz.
    replace (BSIZE * Z.of_nat (Z.to_nat (256 * h / BSIZE)) + o) with (256 * h + 16 * k) by lia. done.
  - intros j g Nj Hg. rewrite (X2 j g Hg). by apply (write_other _ s fl i f tb d j g I Hf Hx).
  - done.
  - by destruct (fr_di f).
  - unfold roomy in *. rewrite B2. exact R.
Qed.

Lemma bucket_inum i s fl f h tb k : at_bucket i s fl f h tb -> 16 <= h <= 458 -> 0 <= k < 16 ->
  rsect tb s = Ok (dblk (mk_img s) tb) s /\ ld16 ((256 * h + 16 * k) mod BSIZE) (dblk (mk_img s) tb) = slot_inum (byte s f) (256 * h + 16 * k).
Proof.
  intros [I Hf R Hb Hs] Hh Hk. destruct (slot_div h k Hh Hk) as [Ed Em]. pose proof (bucket_block h Hh) as Hr. pose proof (minv_zlen _ s _ tb I) as Lx.
  pose proof (minv_block _ s _ i f tb I Hf ltac:(apply blocks_in; left; by eapply list_elem_of_lookup_2)) as Rx. rewrite nmeta_eq in Rx. split; [apply (minv_rsect _ _ _ _ I); lia|].
  pose proof (Z.mod_pos_bound h 4 ltac:(lia)) as Hm. pose proof (lookup_lt_Some _ _ _ Hb) as Hlt. pose proof (Z.div_mod (256 * h + 16 * k) BSIZE ltac:(lia)) as Dm. rewrite Ed, Em in Dm.
  rewrite Em, ld16_getb by lia. unfold slot_inum.
  assert (B : forall j, 0 <= j < 16 -> byte s f (256 * h + 16 * k + j) = getb (256 * (h mod 4) + 16 * k + j) (dblk (mk_img s) tb)).
  { intros j Hj. rewrite (byte_in _ s fl f _ I) by (unfold zlen; lia). f_equal.
    - symmetry. apply (Z.mod_unique_pos _ _ (256 * h / BSIZE)); lia.
    - f_equal. apply nth_lookup_Some. rewrite <- Hb. do 2 f_equal. symmetry. apply (Z.div_unique_pos _ _ _ (256 * (h mod 4) + 16 * k + j)); lia. }
  rewrite <- (B 1) by lia. rewrite <- (Z.add_0_r (256 * (h mod 4) + 16 * k)) at 1. rewrite <- (B 0) by lia. by rewrite Z.add_0_r.
Qed.

(** The loop passes the used slots before slot [m] and stores the entry there. *)
Lemma init_dir_loop_run n i de h tb (k : nat) s fl f : at_bucket i s fl f h tb -> 16 <= h <= 458 -> entry_ok de -> (k + n < 16)%nat ->
  (forall j, (k <= j < k + n)%nat -> slot_inum (byte s f) (256 * h + 16 * Z.of_nat j) <> 0) ->
  slot_inum (byte s f) (256 * h + 16 * Z.of_nat (k + n)) = 0 ->
  exists s' f', init_dir_loop (16 - k) (1 + Z.of_nat i) de tb (256 * h + 16 * Z.of_nat k) (256 * h + 256) (fr_di f) s = Ok (true, fr_di f') s' /\
    placed i s fl f (256 * h + 16 * Z.of_nat (k + n)) de s' f'.
Proof.
  revert k s fl f. induction n as [|n IH]; intros k s fl f A Hh He Hk Hu Hz; replace (16 - k)%nat with (S (15 - k)) by lia; cbn [init_dir_loop];
    (destruct (Z.ltb_spec (256 * h + 16 * Z.of_nat k) (256 * h + 256)); [cbn [negb]|lia]);
    destruct (addr_step i s fl f h tb (Z.of_nat k) A Hh ltac:(lia)) as (s1 & f1 & E1 & G1 & B1 & A1); rewrite (sbind_ok _ _ _ _ _ E1);
    pose proof (ab_inv _ _ _ _ _ _ A) as I; pose proof (ab_file _ _ _ _ _ _ A) as Hf;
    assert (Eb : forall p, 0 <= p -> byte s1 f1 p = byte s f p) by (intros p Hp; by apply (grown_byte i s fl f s1 f1));
    assert (Es : forall j : nat, slot_inum (byte s1 f1) (256 * h + 16 * Z.of_nat j) = slot_inum (byte s f) (256 * h + 16 * Z.of_nat j)) by (intros j; unfold slot_inum; by rewrite !Eb by lia);
    destruct (bucket_inum i s1 _ f1 h tb (Z.of_nat k) A1 Hh ltac:(lia)) as [E2 E3]; rewrite (sbind_ok _ _ _ _ _ E2), E3, Es.
  - replace (k + 0)%nat with k in * by lia. rewrite Hz. cbn [Z.eqb].
    destruct (place_here i s1 _ f1 h tb (Z.of_nat k) de A1 Hh ltac:(lia) He) as (s2 & s3 & E4 & E5 & [P1 P2 P3 P4 P5 P6]).
    rewrite (sbind_ok _ _ _ _ _ E4), (sbind_ok _ _ _ _ _ E5). destruct (Z.eqb_spec ((256 * h + 16 * Z.of_nat k) mod 16) 0) as [_|Hm].
    2:{ exfalso. apply Hm. replace (256 * h + 16 * Z.of_nat k) with ((16 * h + Z.of_nat k) * 16) by lia. by apply Z.mod_mul. }
    rewrite (sbind_ok (assert true) _ s3 tt s3 eq_refl). exists s3, f1. split; [done|]. split.
    + by rewrite list_insert_insert_eq in P1.
    + intros p Hp. rewrite P2 by done. destruct (decide _); [done|]. by apply Eb.
    + intros j g Nj Hg. rewrite (P3 j g Nj) by (by rewrite list_lookup_insert_ne). by eapply (grown_other i s fl f s1 f1).
    + done.
    + apply (gr_di _ _ _ _ _ _ G1).
    + done.
  - destruct (Z.eqb_spec (slot_inum (byte s f) (256 * h + 16 * Z.of_nat k)) 0) as [C|_]; [exfalso; by apply (Hu k ltac:(lia))|].
    replace (256 * h + 16 * Z.of_nat k + 16) with (256 * h + 16 * Z.of_nat (S k)) by lia. replace (15 - k)%nat with (16 - S k)%nat by lia.
    destruct (IH (S k) s1 _ f1 A1 Hh He ltac:(lia)) as (s2 & f2 & E4 & [P1 P2 P3 P4 P5 P6]).
    { intros j Hj. rewrite Es. apply Hu. lia. }
    { rewrite Es. by replace (S k + n)%nat with (k + S n)%nat by lia. }
    replace (S k + n)%nat with (k + S n)%nat in * by lia. exists s2, f2. split; [exact E4|]. split.
    + by rewrite list_insert_insert_eq in P1.
    + intros p Hp. rewrite P2 by done. destruct (decide _); [done|]. by apply Eb.
    + intros j g Nj Hg. rewrite (P3 j g Nj) by (by rewrite list_lookup_insert_ne). by eapply (grown_other i s fl f s1 f1).
    + congruence.
    + rewrite P5. cbn. by rewrite (gr_di _ _ _ _ _ _ G1).
    + done.
Qed.

(** The directory [i] got the entry [de]. *)
Record entered (i : nat) (s : mkst) (fl : list frep) (f : frep) (es : list dirent) (de : dirent) (s' : mkst) (f' : frep) : Prop := {
  en_inv : minv None s' (<[i := f']> fl);
  en_rep : dir_rep (byte s' f') (d_size (fr_di f')) (es ++ [de]);
  en_low : forall p, 0 <= p < 4096 -> byte s' f' p = byte s f p;
  en_others : others i fl s s';
  en_di : fr_di f' = set_dsize (d_size (fr_di f')) (set_addrs (d_addrs (fr_di f')) (fr_di f));
  en_size : sized f' (d_size (fr_di f')) /\ (length (fr_bs f') <= 115)%nat /\ (d_size (fr_di f) mod 16 = 0 -> d_size (fr_di f') mod 16 = 0);
  en_roomy : roomy s' f'
}.

Lemma hash_range str h : BKDRHash_mkfs str = Some h -> 16 <= h <= 458.
Proof. unfold BKDRHash_mkfs. destruct (BKDR_mkfs_loop str 0); [|done]. intros [= <-]. pose proof (Z.mod_pos_bound z 443). lia. Qed.

Lemma bucket_app h es de : bucket h (es ++ [de]) = bucket h es ++ (if decide (hash_is h de) then [de] else []).
Proof. unfold bucket. by rewrite filter_app. Qed.

Lemma dir_rep_grow g g' size size' es : (forall p, 0 <= p -> g' p = g p) -> size <= size' -> dir_rep g size es -> dir_rep g' size' es.
Proof.
  intros Eg Hs [R1 R2 R3]. split; [done|intros h H; specialize (R2 h H); lia|]. intros h k Hh Hk. rewrite <- R3 by done. apply slot_ext. intros j Hj. apply Eg. lia.
Qed.

Lemma bucket_entry_ok es h k e : Forall entry_ok es -> bucket h es !! k = Some e -> entry_ok e.
Proof.
  intros F H. apply list_elem_of_lookup_2 in H. unfold bucket in H. apply list_elem_of_filter in H as [_ H]. rewrite Forall_forall in F. by apply F.
Qed.

(** The slots of a bucket are used from the front. *)
Lemma bucket_slots g size es h (k : nat) : dir_rep g size es -> 16 <= h <= 458 -> (k < 16)%nat ->
  (slot_inum g (256 * h + 16 * Z.of_nat k) = 0 <-> (length (bucket h es) <= k)%nat).
Proof.
  intros [R1 R2 R3] Hh Hk. rewrite (slot_inum_eq g _ _ (R3 h k Hh Hk)). destruct (bucket h es !! k) as [e|] eqn:E.
  - pose proof (bucket_entry_ok es h k e R1 E) as He. rewrite enc_inum by done. apply lookup_lt_Some in E. destruct He. lia.
  - apply lookup_ge_None in E. split; [done|]. intros _. done.
Qed.

Lemma dir_rep_insert g g' size es de h : dir_rep g size es -> hash_is h de -> entry_ok de -> 16 <= h <= 458 -> (length (bucket h es) < 16)%nat -> 256 * h + 256 <= size ->
  (forall p, 0 <= p -> g' p = if decide (256 * h + 16 * Z.of_nat (length (bucket h es)) <= p < 256 * h + 16 * Z.of_nat (length (bucket h es)) + 16)
     then getb (p - (256 * h + 16 * Z.of_nat (length (bucket h es)))) (enc_dirent de) else g p) ->
  dir_rep g' size (es ++ [de]).
Proof.
  intros [R1 R2 R3] Hd He Hh Hl Hs Hg. split.
  - apply Forall_app. split; [done|]. by constructor.
  - intros h' Hb. rewrite bucket_app in Hb. destruct (decide (hash_is h' de)) as [E|E]; [unfold hash_is in *; assert (h' = h) as -> by congruence; done|].
    apply R2. by rewrite app_nil_r in Hb.
  - intros h' k Hh' Hk. rewrite bucket_app. destruct (decide (h' = h /\ k = length (bucket h es))) as [[-> ->]|N].
    + rewrite decide_True by done. rewrite lookup_app_r, Nat.sub_diag by lia. cbn. apply dir_slot_eq; [by apply length_enc_dirent|]. intros j Hj. rewrite Hg by lia.
      rewrite decide_True by lia. f_equal. lia.
    + rewrite (slot_ext g); [rewrite R3 by done|intros j Hj; rewrite Hg by lia; rewrite decide_False by lia; done].
      destruct (decide (hash_is h' de)) as [E|E]; [|by rewrite app_nil_r]. assert (h' = h) as -> by (unfold hash_is in *; congruence).
      destruct (decide (k < length (bucket h es))%nat); [by rewrite lookup_app_l|]. rewrite !lookup_ge_None_2; [done|rewrite length_app; cbn; lia|lia].
Qed.

Lemma iappend_init_dir_run i s fl f es de h : minv None s fl -> fl !! i = Some f -> roomy s f -> sized f (d_size (fr_di f)) -> (length (fr_bs f) <= 115)%nat ->
  dir_rep (byte s f) (d_size (fr_di f)) es -> entry_ok de -> hash_is h de -> (length (bucket h es) < 16)%nat ->
  exists s' f', iappend_init_dir (1 + Z.of_nat i) de s = Ok tt s' /\ entered i s fl f es de s' f'.
Proof.
  intros I Hf R Hs Hb D He Hh Hl. pose proof (hash_range _ _ Hh) as Hr. pose proof (bucket_block h Hr) as Hbb. pose proof (lookup_lt_Some _ _ _ Hf) as Hi.
  unfold iappend_init_dir. rewrite (sbind_ok _ _ _ _ _ (rinode_run None s fl i f I Hf ltac:(done))). rewrite Hh. cbv zeta. rewrite !u32_id by (unfold is_u32; lia).
  replace (h * 16 * 16) with (256 * h + 16 * Z.of_nat 0) by lia. replace ((h + 1) * 16 * 16) with (256 * h + 256) by lia. pose proof (slot_div h 0 Hr ltac:(lia)) as [Ed _]. change (Z.of_nat 0) with 0. rewrite Ed.
  destruct (dir_block_run i s fl f (256 * h / BSIZE) (minv_weaken _ s fl I) Hf ltac:(lia) R) as (tb & s1 & f1 & E1 & G1 & L1 & X1). rewrite (sbind_ok _ _ _ _ _ E1).
  set (size := Z.max (d_size (fr_di f)) ((256 * h / BSIZE + 1) * BSIZE)) in *. set (f2 := with_di (set_dsize size (fr_di f1)) f1).
  pose proof (gr_inv _ _ _ _ _ _ G1) as I1. pose proof (grown_self i s fl f s1 f1 Hf G1) as Hf1. pose proof (mi_rep _ _ _ I i f Hf) as F. pose proof (df_size _ (fr_fits _ f F)) as Hz. unfold is_u32 in Hz.
  assert (F2 : di_fits (set_dsize size (fr_di f1))) by (apply fits_size; [apply (mi_rep _ _ _ I1 i f1 Hf1)|lia]).
  pose proof (minv_di i s1 _ f1 _ I1 Hf1 F2 eq_refl) as I2. fold f2 in I2. rewrite list_insert_insert_eq in I2.
  assert (A : at_bucket i s1 (<[i := f2]> fl) f2 h tb).
  { split; [done|by apply list_lookup_insert_eq|exact (grown_room i s fl f s1 f1 (minv_weaken _ s fl I) Hf G1 R)|done|cbn; lia]. }
  assert (Eb : forall p, 0 <= p -> byte s1 f2 p = byte s f p) by (intros p Hp; exact (grown_byte i s fl f s1 f1 p (minv_weaken _ s fl I) Hf G1 Hp)).
  pose proof (dir_rep_grow (byte s f) (byte s1 f2) (d_size (fr_di f)) size es Eb ltac:(lia) D) as D2. change (fr_di f2) with (set_dsize size (fr_di f1)) in *.
  destruct (init_dir_loop_run (length (bucket h es)) i de h tb 0 s1 _ f2 A Hr He ltac:(lia)) as (s3 & f3 & E3 & [P1 P2 P3 P4 P5 P6]).
  { intros j Hj C. apply (bucket_slots _ _ es h j D2 Hr) in C; lia. }
  { apply (bucket_slots _ _ es h _ D2 Hr); lia. }
  change (set_dsize size (fr_di f1)) with (fr_di f2). rewrite (sbind_ok _ _ _ _ _ E3). cbn [Nat.add] in P2. assert (Sz : d_size (fr_di f3) = size) by (by rewrite P5).
  exists s3, f3. split; [done|]. pose proof (Z.div_mod (256 * h) 1024 ltac:(lia)) as Q1. pose proof (Z.mod_pos_bound h 4 ltac:(lia)) as Q2. destruct (slot_div h 15 Hr ltac:(lia)) as [Q3 Q4].
  pose proof (Z.div_mod (256 * h + 16 * 15) 1024 ltac:(lia)) as Q5. split.
  - by rewrite list_insert_insert_eq in P1.
  - rewrite Sz. apply (dir_rep_insert (byte s1 f2) _ _ es de h); try done; lia.
  - intros p Hp. rewrite P2 by lia. rewrite decide_False by lia. apply Eb. lia.
  - intros j g Nj Hg. rewrite (P3 j g Nj) by (by rewrite list_lookup_insert_ne). by eapply (grown_other i s fl f s1 f1).
  - rewrite P5. cbn. by rewrite (gr_di _ _ _ _ _ _ G1).
  - rewrite Sz. unfold sized, zlen in *. rewrite P4. cbn [f2 with_di fr_bs]. split; [lia|]. split; [lia|]. intros Hm. unfold size.
    destruct (Z.max_spec (d_size (fr_di f)) ((256 * h / BSIZE + 1) * BSIZE)) as [[_ ->]|[_ ->]]; [|done].
    replace ((256 * h / BSIZE + 1) * BSIZE) with ((256 * h / BSIZE + 1) * 64 * 16) by lia. by apply Z.mod_mul.
  - done.
Qed.
