(* ===== verification/MkfsMain.v ===== *)
(** * What mkfs writes: main

    From the empty image file to the finished image: one inode and one
    directory entry per host file, its contents in its own blocks, the
    bitmaps and the superblock last. *)
From S2P Require Import Prelude Str Bio Log Crash Machine Types Vm Codec Ld Balloc Inode Bmap Dir Mkfs MkfsSpec MkfsDir.
Local Open Scope st_scope.

(** ** Host files and their entries *)

(** The name a host path gets in the image, and its contents. *)
Definition image_file (f : hfile) : bytes * bytes := (strip (short_name (cstr (fst f))), concat (default [] (snd f))).

Definition entries_of (fs : list (bytes * bytes)) : list dirent := imap (fun k nc => add_entry_name (2 + Z.of_nat k) (fst nc ++ [0])) fs.

(** Blocks a file may take. *)
Definition weight (c : bytes) : Z := zlen c / BSIZE + 2.
Definition total (fs : list (bytes * bytes)) : Z := fold_right Z.add 0 (map (fun nc => weight (snd nc)) fs).

(** Files that fit: readable, at most 268 blocks each, short names without a
    slash, at most sixteen names per hash value, and everything within the
    first block of the bitmap. *)
Record files_fit (files : list hfile) : Prop := {
  ff_read : Forall (fun f => exists reads, snd f = Some reads) files;
  ff_size : Forall (fun f => zlen (snd (image_file f)) <= 268 * BSIZE) files;
  ff_slash : Forall (fun f => 47 ∉ short_name (cstr (fst f))) files;
  ff_name : Forall (fun f => 0 < zlen (fst (image_file f)) <= 13) files;
  ff_bucket : forall h, (length (bucket h (entries_of (map image_file files))) <= 16)%nat;
  ff_count : zlen files < 8190;
  ff_total : nmeta + 116 + total (map image_file files) < 8192
}.

(** ** The state between two files *)

Definition file_rep (s : mkst) (f : frep) (c : bytes) : Prop :=
  fr_di f = set_dsize (zlen c) (set_addrs (d_addrs (fr_di f)) (new_inode T_FILE)) /\ sized f (zlen c) /\ fcont s f = c.

Definition dot_slots : bytes := enc_dirent (add_entry_name 1 str_dot) ++ enc_dirent (add_entry_name 1 str_dotdot).

Record root_rep (s : mkst) (f : frep) (es : list dirent) : Prop := {
  rr_di : fr_di f = set_dsize (d_size (fr_di f)) (set_addrs (d_addrs (fr_di f)) (new_inode T_DIR));
  rr_sized : sized f (d_size (fr_di f)) /\ (length (fr_bs f) <= 115)%nat /\ d_size (fr_di f) mod 16 = 0;
  rr_dots : forall o, 0 <= o < 32 -> byte s f o = getb o dot_slots;
  rr_rep : dir_rep (byte s f) (d_size (fr_di f)) es
}.

Record built (s : mkst) (fl : list frep) (fs : list (bytes * bytes)) : Prop := {
  bu_inv : minv None s fl;
  bu_len : length fl = S (length fs);
  bu_root : exists root, fl !! 0%nat = Some root /\ root_rep s root (entries_of fs);
  bu_files : forall k g nc, fl !! S k = Some g -> fs !! k = Some nc -> file_rep s g (snd nc)
}.

(** ** Lemmas *)

Lemma zlen_div (x : Z) : 0 <= x -> 0 <= x / BSIZE /\ BSIZE * (x / BSIZE) <= x < BSIZE * (x / BSIZE + 1).
Proof. intros H. pose proof (Z.div_mod x 1024 ltac:(lia)). pose proof (Z.mod_pos_bound x 1024 ltac:(lia)). lia. Qed.

Lemma blocks_len f : zlen (fr_bs f) <= zlen (blocks f) <= zlen (fr_bs f) + 1.
Proof. unfold blocks, zlen. rewrite length_app. destruct (fr_ia f =? 0); cbn [length]; lia. Qed.

Lemma blocks_bound fl w : length fl = length w -> (forall k f x, fl !! k = Some f -> w !! k = Some x -> zlen (blocks f) <= x) -> zlen (flat_map blocks fl) <= fold_right Z.add 0 w.
Proof.
  revert w. induction fl as [|f fl IH]; intros [|x w] Hl H; try done. cbn [flat_map fold_right]. unfold zlen in *. rewrite length_app.
  pose proof (H 0%nat f x eq_refl eq_refl). specialize (IH w ltac:(by injection Hl) (fun k => H (S k))). lia.
Qed.

Lemma built_total s fl fs : built s fl fs -> mk_freeblock s <= nmeta + 116 + total fs.
Proof.
  intros [I L (root & Hr & [_ (_ & Hl & _) _ _]) F]. destruct (mi_fb _ _ _ I) as [-> _].
  pose proof (blocks_bound fl (116 :: map (fun nc => weight (snd nc)) fs)) as B. cbn [fold_right] in B. fold (total fs) in B.
  rewrite <- Z.add_assoc. apply Z.add_le_mono_l, B; [cbn [length]; by rewrite length_map|]. intros [|k] f x Hf Hx.
  - cbn in Hx. injection Hx as <-. assert (f = root) as -> by congruence. pose proof (blocks_len root). unfold zlen in *. lia.
  - cbn in Hx. apply list_lookup_fmap_Some in Hx as (nc & -> & Hn). destruct (F k f nc Hf Hn) as (_ & Hs & _). unfold sized in Hs. pose proof (blocks_len f). unfold weight.
    pose proof (zlen_div (zlen (snd nc)) ltac:(unfold zlen; lia)). lia.
Qed.

Lemma roomy_small s f : mk_freeblock s <= 8192 -> roomy s f.
Proof. intros H. unfold roomy, zlen. lia. Qed.

Lemma file_rep_ext s s' f c : fdata (mk_img s') f = fdata (mk_img s) f -> file_rep s f c -> file_rep s' f c.
Proof. intros E (H1 & H2 & H3). split; [done|]. split; [done|]. rewrite <- H3. unfold fcont, byte. by rewrite E. Qed.

Lemma root_rep_ext s s' f es : fdata (mk_img s') f = fdata (mk_img s) f -> root_rep s f es -> root_rep s' f es.
Proof.
  intros E [H1 H2 H3 H4]. assert (Eb : forall o, byte s' f o = byte s f o) by (intros o; unfold byte; by rewrite E). split; try done.
  - intros o Ho. rewrite Eb. by apply H3.
  - apply (dir_rep_grow (byte s f) _ (d_size (fr_di f))); [intros p _; apply Eb|lia|done].
Qed.

Lemma entries_snoc fs nc : entries_of (fs ++ [nc]) = entries_of fs ++ [add_entry_name (2 + zlen fs) (fst nc ++ [0])].
Proof. unfold entries_of. rewrite imap_app. cbn. do 3 f_equal. unfold zlen. lia. Qed.

Lemma length_entries_of fs : length (entries_of fs) = length fs.
Proof. apply length_imap. Qed.

Lemma length_cstr_le l : (length (cstr l) <= length l)%nat.
Proof. induction l as [|c l IH]; [done|]. cbn [cstr]. destruct (c =? 0); cbn [length]; lia. Qed.

Lemma cstr_app0 (l : bytes) : (length (cstr (l ++ [0%Z])) <= length l)%nat.
Proof. induction l as [|c l IH]; [cbn; lia|]. cbn [app cstr]. destruct (c =? 0); cbn [length]; lia. Qed.

Lemma strncpy_zero n t : (length (cstr t) < n)%nat -> 0 ∈ strncpy_loop n t.
Proof.
  revert t. induction n as [|n IH]; intros t H; [lia|]. cbn [strncpy_loop]. destruct (Z.eqb_spec (getb 0 t) 0) as [E|E]; [cbn; by left|].
  destruct t as [|c t]; [done|]. change (getb 0 (c :: t)) with c in *. cbn [cstr] in H. destruct (Z.eqb_spec c 0); [done|]. cbn [length tail] in *. right. apply IH. lia.
Qed.

Lemma mkfs_hash_some str : 0 ∈ str -> exists h, BKDRHash_mkfs str = Some h.
Proof.
  intros H. unfold BKDRHash_mkfs. assert (E : forall x, exists y, BKDR_mkfs_loop str x = Some y); [|destruct (E 0) as [y ->]; eauto].
  induction str as [|c str IH]; intros x; [by apply not_elem_of_nil in H|]. cbn [BKDR_mkfs_loop]. destruct (Z.eqb_spec c 0); [eauto|]. apply IH. by apply elem_of_cons in H as [?|?].
Qed.

Lemma entry_name_ok n nm : 0 < n < 2 ^ 16 -> zlen nm <= 13 -> entry_ok (add_entry_name n (nm ++ [0])) /\ exists h, hash_is h (add_entry_name n (nm ++ [0])).
Proof.
  intros Hn Hl. unfold entry_ok, hash_is, add_entry_name. cbn [de_inum de_name]. rewrite xshort_id by lia. split; [split; [done|apply length_strncpy_loop]|].
  apply mkfs_hash_some, strncpy_zero. pose proof (cstr_app0 nm). unfold zlen in Hl. change (Z.to_nat 14) with 14%nat. lia.
Qed.

(** The reads of one file, appended one after the other. *)
Lemma append_reads reads i s fl f c : minv None s fl -> fl !! i = Some f -> file_rep s f c -> zlen c + zlen (concat reads) <= 268 * BSIZE ->
  mk_freeblock s - zlen (blocks f) <= 290000 ->
  exists s' f', sfor reads (iappend (1 + Z.of_nat i)) s = Ok tt s' /\ minv None s' (<[i := f']> fl) /\ file_rep s' f' (c ++ concat reads) /\ others i fl s s'.
Proof.
  revert s fl f c. induction reads as [|p reads IH]; intros s fl f c I Hf F Hm Hb.
  { exists s, f. split; [done|]. split; [by rewrite list_insert_id|]. cbn [concat]. by rewrite app_nil_r. }
  destruct F as (F1 & F2 & F3). assert (Ez : d_size (fr_di f) = zlen c) by (by rewrite F1). cbn [concat] in Hm |- *. unfold zlen in Hm. rewrite length_app in Hm.
  assert (R : roomy s f) by (unfold roomy; lia).
  destruct (iappend_run i s fl f p I Hf ltac:(by rewrite Ez) ltac:(rewrite Ez; unfold zlen; lia) R) as (s1 & f1 & E1 & [A1 A2 A3 A4 A5 A6 A7]).
  assert (Z1 : d_size (fr_di f1) = zlen (c ++ p)) by (rewrite A2; cbn [set_dsize d_size]; rewrite Ez; unfold zlen; rewrite length_app; lia).
  pose proof (lookup_lt_Some _ _ _ Hf) as Hi. assert (Hf1 : (<[i := f1]> fl) !! i = Some f1) by (by apply list_lookup_insert_eq).
  destruct (IH s1 (<[i := f1]> fl) f1 (c ++ p) A1 Hf1) as (s2 & f2 & E2 & I2 & F2' & O2).
  - split; [|split; [by rewrite <- Z1|by rewrite A5, F3]]. replace (zlen (c ++ p)) with (zlen c + zlen p) by (unfold zlen; rewrite length_app; lia).
    rewrite A2 at 1. by rewrite F1.
  - unfold zlen. rewrite length_app. lia.
  - pose proof (mi_fb _ _ _ I) as [B0 _]. pose proof (mi_fb _ _ _ A1) as [B1 _]. rewrite (flat_map_insert blocks fl i f Hf) in B0.
    rewrite (flat_map_insert blocks (<[i := f1]> fl) i f1 Hf1), take_insert_ge, drop_insert_lt in B1 by lia. unfold zlen in *. rewrite !length_app in *. lia.
  - exists s2, f2. cbn [sfor]. rewrite (sbind_ok _ _ _ _ _ E1). split; [exact E2|]. split; [by rewrite list_insert_insert_eq in I2|]. split; [by rewrite <- app_assoc in F2'|].
    intros j g Nj Hg. rewrite (O2 j g Nj) by (by rewrite list_lookup_insert_ne). by apply (A6 j g).
Qed.

Lemma no_slash l : 47 ∉ l -> existsb (Z.eqb 47) l = false.
Proof.
  intros H. induction l as [|c l IH]; [done|]. cbn [existsb]. apply not_elem_of_cons in H as [H1 H2]. destruct (Z.eqb_spec 47 c); [done|]. by apply IH.
Qed.

Lemma new_file_rep s : file_rep s (mkFr (new_inode T_FILE) [] 0) [].
Proof. split; [done|]. split; [|done]. unfold sized, zlen. cbn. lia. Qed.

Lemma add_file_run s fl fs path reads h : built s fl fs -> 47 ∉ short_name (cstr path) ->
  let nc := image_file (path, Some reads) in
  zlen (fst nc) <= 13 -> zlen (snd nc) <= 268 * BSIZE -> zlen fs < 8190 -> nmeta + 116 + total (fs ++ [nc]) < 8192 ->
  hash_is h (add_entry_name (2 + zlen fs) (fst nc ++ [0])) -> (length (bucket h (entries_of fs)) < 16)%nat ->
  exists s' fl', add_file 1 (path, Some reads) s = Ok tt s' /\ built s' fl' (fs ++ [nc]).
Proof.
  intros B Hsl nc Hn Hz Hc Ht Hh Hl. pose proof (built_total s fl fs B) as Tb. destruct B as [I L (root & Hr & RR) F]. unfold add_file. rewrite no_slash by done. cbn [negb].
  rewrite (sbind_ok (assert true) _ s tt s eq_refl). assert (Lz : zlen fl = 1 + zlen fs) by (unfold zlen; lia).
  assert (Tt : total (fs ++ [nc]) = total fs + weight (snd nc)) by (unfold total; rewrite map_app, fold_right_app; cbn [map fold_right]; clear; induction (map _ fs); cbn [fold_right]; lia).
  assert (Hw : 2 <= weight (snd nc)) by (unfold weight; pose proof (zlen_div (zlen (snd nc)) ltac:(unfold zlen; lia)); lia).
  destruct (ialloc_run s fl T_FILE I ltac:(lia) ltac:(lia)) as (s1 & E1 & I1 & B1 & D1). rewrite (sbind_ok _ _ _ _ _ E1). set (f0 := mkFr (new_inode T_FILE) [] 0) in *.
  replace (1 + zlen fl) with (2 + zlen fs) by lia. set (de := add_entry_name (2 + zlen fs) (strip (short_name (cstr path)) ++ [0])).
  assert (He : entry_ok de) by (apply entry_name_ok; [unfold zlen in *; lia|done]).
  pose proof (root_rep_ext s s1 root _ (D1 0%nat root Hr) RR) as [R1 (R2 & R3 & R4) R5 R6]. assert (Hr1 : (fl ++ [f0]) !! 0%nat = Some root) by (by apply lookup_app_l_Some).
  destruct (iappend_init_dir_run 0 s1 _ root (entries_of fs) de h I1 Hr1 (roomy_small s1 root ltac:(lia)) R2 R3 R6 He Hh Hl) as (s2 & root' & E2 & [N1 N2 N3 N4 N5 (N6 & N7 & N8) N9]).
  change (1 + Z.of_nat 0) with 1 in E2. rewrite (sbind_ok _ _ _ _ _ E2).
  assert (Hk : (<[0%nat := root']> (fl ++ [f0])) !! length fl = Some f0) by (rewrite list_lookup_insert_ne by lia; rewrite lookup_app_r, Nat.sub_diag by lia; done).
  assert (Hl0 : (0 < length (fl ++ [f0]))%nat) by (rewrite length_app; lia).
  assert (Hfb : mk_freeblock s2 - zlen (blocks f0) <= 290000).
  { pose proof (mi_fb _ _ _ N1) as [C1 _]. pose proof (mi_fb _ _ _ I1) as [C2 _]. rewrite (flat_map_insert blocks _ 0 root Hr1) in C2.
    rewrite (flat_map_insert blocks _ 0 root') in C1 by (by apply list_lookup_insert_eq). rewrite take_insert_ge, drop_insert_lt in C1 by lia. pose proof (blocks_len root'). unfold zlen in *.
    rewrite !length_app in *. lia. }
  destruct (append_reads reads (length fl) s2 _ f0 [] N1 Hk) as (s3 & f3 & E3 & I3 & F3 & O3).
  { apply (file_rep_ext s1); [|apply new_file_rep]. apply (N4 (length fl) f0); [lia|]. by rewrite lookup_app_r, Nat.sub_diag by lia. }
  { exact Hz. }
  { done. }
  exists s3, (<[length fl := f3]> (<[0%nat := root']> (fl ++ [f0]))). replace (2 + zlen fs) with (1 + Z.of_nat (length fl)) by (unfold zlen; lia). split; [exact E3|].
  assert (Hkeep : forall k g, fl !! S k = Some g -> fdata (mk_img s3) g = fdata (mk_img s) g).
  { intros k g Hg. pose proof (lookup_lt_Some _ _ _ Hg). rewrite (O3 (S k) g) by (lia || (rewrite list_lookup_insert_ne by lia; by apply lookup_app_l_Some)).
    rewrite (N4 (S k) g) by (lia || by apply lookup_app_l_Some). by apply (D1 (S k)). }
  split.
  - done.
  - rewrite !length_insert, !length_app. cbn [length]. lia.
  - exists root'. split; [rewrite list_lookup_insert_ne by lia; by apply list_lookup_insert_eq|]. apply (root_rep_ext s2); [apply (O3 0%nat root'); [lia|by apply list_lookup_insert_eq]|].
    rewrite entries_snoc. split; [|by auto|intros o Ho; rewrite N3 by lia; by apply R5|exact N2]. rewrite N5 at 1. by rewrite R1.
  - intros k g x Hg Hx. destruct (decide (S k = length fl)) as [Ek|Nk].
    + rewrite Ek, list_lookup_insert_eq in Hg by (rewrite length_insert, length_app; cbn [length]; lia). injection Hg as <-.
      rewrite lookup_app_r in Hx by lia. replace (k - length fs)%nat with 0%nat in Hx by lia. injection Hx as <-. exact F3.
    + rewrite !list_lookup_insert_ne in Hg by lia. apply lookup_app_Some in Hg as [Hg|[H1 Hg]]; [|apply list_lookup_singleton_Some in Hg as [H0 _]; lia].
      pose proof (lookup_lt_Some _ _ _ Hg). rewrite lookup_app_l in Hx by lia. apply (file_rep_ext s); [by apply (Hkeep k)|by apply (F k)].
Qed.

Lemma total_app a b : total (a ++ b) = total a + total b.
Proof. unfold total. rewrite map_app, fold_right_app. induction (map _ a) as [|x l IH]; cbn [fold_right]; [lia|]. rewrite IH. lia. Qed.

Lemma total_nonneg fs : 0 <= total fs.
Proof.
  unfold total. induction fs as [|nc fs IH]; cbn [map fold_right]; [lia|].
  assert (0 <= weight (snd nc)) by (unfold weight; pose proof (zlen_div (zlen (snd nc)) ltac:(unfold zlen; lia)); lia). lia.
Qed.

Lemma bucket_prefix h a b : (length (bucket h (entries_of a)) <= length (bucket h (entries_of (a ++ b))))%nat.
Proof. unfold entries_of. rewrite imap_app. unfold bucket. rewrite filter_app, length_app. lia. Qed.

Lemma add_files_run rest dn s fl : files_fit (dn ++ rest) -> built s fl (map image_file dn) ->
  exists s' fl', sfor rest (add_file 1) s = Ok tt s' /\ built s' fl' (map image_file (dn ++ rest)).
Proof.
  revert dn s fl. induction rest as [|f rest IH]; intros dn s fl Fit B; [exists s, fl; rewrite app_nil_r; done|].
  pose proof Fit as [F1 F2 F3 F4 F5 F6 F7]. rewrite Forall_app, Forall_cons in F1, F2, F3, F4. destruct F1 as (_ & (reads & Hr) & _), F2 as (_ & G2 & _), F3 as (_ & G3 & _), F4 as (_ & G4 & _).
  destruct f as [path content]. cbn [snd fst] in Hr, G3. subst content. set (nc := image_file (path, Some reads)) in *. rewrite map_app, map_cons in F5, F7. fold nc in F5, F7.
  unfold zlen in F6. rewrite length_app in F6. cbn [length] in F6. assert (Ls : zlen (map image_file dn) = zlen dn) by (unfold zlen; by rewrite length_map).
  destruct (entry_name_ok (2 + zlen (map image_file dn)) (fst nc)) as [_ [h Hh]]; [rewrite Ls; unfold zlen; lia|lia|].
  assert (Eq : map image_file dn ++ nc :: map image_file rest = (map image_file dn ++ [nc]) ++ map image_file rest) by (by rewrite <- app_assoc). rewrite Eq in F5, F7.
  rewrite total_app in F7. pose proof (total_nonneg (map image_file rest)). pose proof (F5 h) as Fb. pose proof (bucket_prefix h (map image_file dn ++ [nc]) (map image_file rest)) as Fp.
  rewrite entries_snoc, bucket_app, decide_True, length_app in Fp by done. cbn [length] in Fp.
  destruct (add_file_run s fl (map image_file dn) path reads h B G3) as (s1 & fl1 & E1 & B1); try done; fold nc; [lia|rewrite Ls; unfold zlen; lia|lia|lia|].
  destruct (IH (dn ++ [(path, Some reads)]) s1 fl1) as (s2 & fl2 & E2 & B2); [by rewrite <- app_assoc|by rewrite map_app|].
  exists s2, fl2. cbn [sfor]. rewrite (sbind_ok _ _ _ _ _ E1). split; [exact E2|]. by rewrite <- app_assoc in B2.
Qed.

Lemma zero_sectors_run n i s : 0 <= i -> i + Z.of_nat n <= FSSIZE ->
  exists m, zero_sectors n i s = Ok tt (set_img (fun _ => m) s) /\ forall b, m !! b = if decide (i <= b < i + Z.of_nat n) then Some (zeros BSIZE) else mk_img s !! b.
Proof.
  revert i s. induction n as [|n IH]; intros i s Hi Hn.
  { exists (mk_img s). split; [by destruct s|]. intros b. by rewrite decide_False by lia. }
  cbn [zero_sectors]. rewrite (sbind_ok _ _ _ _ _ (wsect_run i (zeros BSIZE) s ltac:(lia))). destruct (IH (i + 1) (set_img (fun m => <[i := zeros BSIZE]> m) s)) as (m & E & Hm); [lia|lia|].
  exists m. split; [exact E|]. intros b. rewrite Hm. cbn [set_img mk_img]. destruct (decide (b = i)) as [->|N].
  - rewrite decide_False, decide_True by lia. apply lookup_insert_eq.
  - rewrite lookup_insert_ne by done. destruct (decide (i + 1 <= b < i + 1 + Z.of_nat n)); [by rewrite decide_True by lia|by rewrite decide_False by lia].
Qed.

(** The zeroed image with the first superblock. *)
Lemma start_inv m : (forall b, m !! b = if decide (0 <= b < FSSIZE) then Some (zeros BSIZE) else None) ->
  minv None (mkMk (<[1 := splice 0 (enc_sb sb_init) (zeros BSIZE)]> m) sb_init 1 nmeta) [].
Proof.
  intros Hm. assert (Dm : forall b, b <> 1 -> dblk (<[1 := splice 0 (enc_sb sb_init) (zeros BSIZE)]> m) b = zeros BSIZE).
  { intros b Hb. rewrite dblk_insert, decide_False by done. unfold dblk. rewrite Hm. by destruct (decide _). }
  split; cbn [mk_img mk_sb mk_freeinode mk_freeblock]; try done.
  - intros b x H. destruct (decide (b = 1)) as [->|N]; [rewrite lookup_insert_eq in H; injection H as <-; by vm_compute|].
    rewrite lookup_insert_ne, Hm in H by done. destruct (decide _); [|done]. by injection H as <-.
  - intros b Hb. destruct (decide (b = 1)) as [->|N]; [rewrite lookup_insert_eq; eauto|]. rewrite lookup_insert_ne, Hm, decide_True by done. eauto.
  - constructor.
  - intros b []%not_elem_of_nil.
  - intros b Hb. rewrite nmeta_eq in Hb. apply Dm. lia.
  - intros b H1 _. by apply Dm.
Qed.

Lemma length_dot nm n : length (enc_dirent (add_entry_name n nm)) = 16%nat.
Proof. unfold enc_dirent, add_entry_name. cbn [de_inum de_name]. rewrite length_app, length_le_enc. unfold strncpy. by rewrite length_strncpy_loop. Qed.

(** The root directory with its first two entries. *)
Lemma root_start s0 : minv None s0 [] -> mk_freeblock s0 = nmeta ->
  exists s1 s2 s3 fl, Mkfs.ialloc T_DIR s0 = Ok 1 s1 /\ iappend 1 (enc_dirent (add_entry_name 1 str_dot)) s1 = Ok tt s2 /\
    iappend 1 (enc_dirent (add_entry_name 1 str_dotdot)) s2 = Ok tt s3 /\ built s3 fl [].
Proof.
  intros I0 Hb. destruct (ialloc_run s0 [] T_DIR I0 ltac:(unfold zlen; cbn; lia) ltac:(lia)) as (s1 & E1 & I1 & B1 & _). cbn [app] in I1.
  set (f0 := mkFr (new_inode T_DIR) [] 0) in *. rewrite nmeta_eq in Hb. set (d1 := enc_dirent (add_entry_name 1 str_dot)) in *. set (d2 := enc_dirent (add_entry_name 1 str_dotdot)) in *.
  assert (L1 : zlen d1 = 16) by (unfold zlen, d1; by rewrite length_dot). assert (L2 : zlen d2 = 16) by (unfold zlen, d2; by rewrite length_dot).
  destruct (iappend_run 0 s1 [f0] f0 d1 I1 eq_refl) as (s2 & f2 & E2 & [A1 A2 A3 A4 A5 A6 A7]); [unfold sized, zlen; cbn; lia|rewrite L1; cbn; lia|apply roomy_small; lia|].
  cbn in A1. assert (Z2 : d_size (fr_di f2) = 16) by (rewrite A2; cbn [set_dsize d_size]; rewrite L1; done).
  destruct (iappend_run 0 s2 [f2] f2 d2 A1 eq_refl) as (s3 & f3 & E3 & [C1 C2 C3 C4 C5 C6 C7]); [done|rewrite Z2, L2; lia|done|].
  cbn in C1. assert (Z3 : d_size (fr_di f3) = 32) by (rewrite C2; cbn [set_dsize d_size]; rewrite Z2, L2; done).
  assert (B0 : forall o, byte s1 f0 o = 0) by (intros o; unfold byte, fdata, getb; cbn; by destruct (Z.to_nat o)).
  assert (Bt : forall o, 0 <= o -> byte s3 f3 o = if decide (o < 32) then getb o dot_slots else 0).
  { intros o Ho. rewrite C4, A4, B0, Z2, L1, L2 by done. change (d_size (fr_di f0)) with 0. unfold dot_slots. fold d1 d2. rewrite getb_app, L1 by done.
    destruct (decide (16 <= o < 16 + 16)); [rewrite decide_True, decide_False by lia; done|]. destruct (decide (0 <= o < 0 + 16)); [rewrite !decide_True by lia; f_equal; lia|by rewrite decide_False by lia]. }
  exists s1, s2, s3, [f3]. split; [exact E1|]. split; [exact E2|]. split; [exact E3|]. split; [done|done| |done]. exists f3. split; [done|].
  unfold sized, zlen in C3. rewrite Z3 in C3. split.
  - rewrite C2 at 1. rewrite A2. rewrite Z3. cbn [set_dsize set_addrs d_size f0 fr_di]. by rewrite L1, L2.
  - rewrite Z3. unfold sized, zlen. split; [lia|]. split; [lia|done].
  - intros o Ho. rewrite Bt, decide_True by lia. done.
  - split; [constructor|done|]. intros h k Hh Hk. cbn. rewrite (dir_slot_eq _ _ (zeros 16)); [done|done|]. intros j Hj. rewrite Bt, decide_False by lia. by rewrite getb_zeros.
Qed.

Definition final_sb (s : mkst) : superblock := set_freeblocks (FSSIZE - mk_freeblock s) (set_freeinodes (NINODES - mk_freeinode s) sb_init).

(** The image after the bitmaps and the superblock are written. *)
Definition final_img (s : mkst) : gmap Z bytes :=
  <[1 := splice 0 (enc_sb (final_sb s)) (zeros BSIZE)]> (<[47 := used_bits (mk_freeinode s)]> (<[1550 := used_bits (mk_freeblock s)]> (mk_img s))).

Lemma finish_run s fl fs : built s fl fs -> mk_freeblock s < 8192 -> mk_freeinode s < 8192 ->
  exists s', (balloc (mk_freeblock s);; setibmap (mk_freeinode s);; Mkfs.updatesb) s = Ok tt s' /\ mk_img s' = final_img s.
Proof.
  intros [I L _ _] Hb Hi. pose proof (mi_sb _ _ _ I) as Es. pose proof (mi_fi _ _ _ I) as [Hfi _]. pose proof (mi_fb _ _ _ I) as [Hfb _]. rewrite nmeta_eq in Hfb. unfold zlen in *.
  set (fb := mk_freeblock s) in *. set (fi := mk_freeinode s) in *.
  set (s1 := set_img (fun m => <[1550 := used_bits fb]> m) s). set (s2 := set_img (fun m => <[47 := used_bits fi]> m) s1).
  assert (E1 : balloc fb s = Ok tt s1).
  { unfold balloc. destruct (Z.ltb_spec fb (1024 * 8)); [|lia]. rewrite (sbind_ok (assert true) _ s tt s eq_refl), (sbind_ok sget _ s s s eq_refl), Es. apply (wsect_run 1550). lia. }
  assert (E2 : setibmap fi s1 = Ok tt s2).
  { unfold setibmap. destruct (Z.ltb_spec fi (1024 * 8)); [|lia]. rewrite (sbind_ok (assert true) _ s1 tt s1 eq_refl), (sbind_ok sget _ s1 s1 s1 eq_refl). change (mk_sb s1) with (mk_sb s). rewrite Es. apply (wsect_run 47). lia. }
  rewrite (sbind_ok _ _ _ _ _ E1), (sbind_ok _ _ _ _ _ E2). unfold Mkfs.updatesb. rewrite (sbind_ok sget _ s2 s2 s2 eq_refl).
  change (mk_freeblock s2) with fb. change (mk_freeinode s2) with fi. rewrite !xint_id by lia.
  set (s3 := set_mksb (fun sb => set_freeblocks (FSSIZE - fb) (set_freeinodes (NINODES - fi) sb)) s2).
  rewrite (sbind_ok (smodify _) _ s2 tt s3 eq_refl), (sbind_ok sget _ s3 s3 s3 eq_refl). rewrite (wsect_run 1) by lia. eexists. split; [done|]. unfold final_img, final_sb. fold fb fi. by rewrite <- Es.
Qed.

(** main succeeds on files that fit. *)
Lemma main_run files : files_fit files -> exists s fl s', main files mk0 = Ok tt s' /\ built s fl (map image_file files) /\ mk_img s' = final_img s /\
  mk_freeblock s < 8192 /\ mk_freeinode s = 2 + zlen files.
Proof.
  intros Fit. unfold main. rewrite (sbind_ok (smodify _) _ mk0 tt (mkMk ∅ sb_init 1 nmeta) eq_refl).
  destruct (zero_sectors_run (Z.to_nat FSSIZE) 0 (mkMk ∅ sb_init 1 nmeta)) as (m & E0 & Hm); [lia|lia|]. rewrite (sbind_ok _ _ _ _ _ E0). set (s0 := set_img (fun _ => m) (mkMk ∅ sb_init 1 nmeta)).
  rewrite (sbind_ok sget _ s0 s0 s0 eq_refl). rewrite (sbind_ok _ _ _ _ _ (wsect_run 1 _ s0 ltac:(lia))).
  assert (I0 : minv None (mkMk (<[1 := splice 0 (enc_sb sb_init) (zeros BSIZE)]> m) sb_init 1 nmeta) []).
  { apply start_inv. intros b. rewrite Hm. rewrite Z2Nat.id by lia. cbn [mk_img]. rewrite lookup_empty. replace (0 + 300000) with 300000 by lia. done. }
  destruct (root_start _ I0 eq_refl) as (s1 & s2 & s3 & fl & E1 & E2 & E3 & B). change (set_img _ s0) with (mkMk (<[1 := splice 0 (enc_sb sb_init) (zeros BSIZE)]> m) sb_init 1 nmeta).
  rewrite (sbind_ok _ _ _ _ _ E1). change (1 =? 1) with true. rewrite (sbind_ok (assert true) _ s1 tt s1 eq_refl), (sbind_ok _ _ _ _ _ E2), (sbind_ok _ _ _ _ _ E3).
  destruct (add_files_run files [] s3 fl Fit B) as (s4 & fl4 & E4 & B4). cbn [app] in B4. rewrite (sbind_ok _ _ _ _ _ E4), (sbind_ok sget _ s4 s4 s4 eq_refl).
  pose proof (built_total s4 fl4 _ B4) as Tb. pose proof (ff_total _ Fit). pose proof (ff_count _ Fit).
  assert (Hfi : mk_freeinode s4 = 2 + zlen files) by (destruct (mi_fi _ _ _ (bu_inv _ _ _ B4)) as [-> _]; unfold zlen; rewrite (bu_len _ _ _ B4), length_map; lia).
  destruct (finish_run s4 fl4 _ B4 ltac:(lia) ltac:(lia)) as (s5 & E5 & Ei). exists s4, fl4, s5. split; [exact E5|]. split; [done|]. split; [done|]. split; [lia|done].
Qed.
