(* ===== verification/MkfsBoot.v ===== *)
(** * Booting from the image mkfs made

    The finished image is a disk the kernel can mount: fsinit accepts it, the
    allocators' invariant holds, every host file is a file of the kernel with
    the same bytes, and its name leads to it through the root directory. *)
From S2P Require Import Prelude Str Bio Log Crash Machine Types Vm Codec Ld Balloc Inode Bmap Imap Rw FileSpec Dir DirSpec Mkfs MkfsSpec MkfsDir MkfsMain.
Local Open Scope prog_scope.

(** ** Lemmas: mounting *)

Lemma idle_free s : bio_inv s -> (forall b, ref s b = 0) -> has_free s.
Proof.
  intros I R. apply (has_free_count s []); [done|constructor| |simpl; lia]. intros b. rewrite R. split; [set_solver|lia].
Qed.

(** Reading a block into an idle cache. *)
Lemma readsb_boot (k : kst) s : bio_inv s -> (forall b, ref s b = 0) -> (forall b, lkd s b = false) ->
  exists s', run hC (readsb ROOTDEV) (k, s) = Ok (dec_sb (dblk (bs_disk s) 1)) (k, s') /\
    bio_inv s' /\ (forall b, ref s' b = 0) /\ (forall b, lkd s' b = false) /\ bs_disk s' = bs_disk s /\ bs_log s' = bs_log s.
Proof.
  intros I R L. destruct (bread_step s 1 I (L 1)) as (i & s1 & E1 & C1); [rewrite R; lia|right; by apply idle_free|].
  assert (El : lblk s1 1 = dblk (bs_disk s) 1) by (cview; by apply ref0_clean).
  destruct (brelse_step s1 1 i) as (s2 & E2 & C2); [apply C1|apply C1|by cview|intros _; crest; exact El|].
  exists s2. split; [|split; [apply C2|split; [|split; [|split]]]].
  - unfold readsb, P.bread, P.bdata, P.brelse, trigger, pbind. cbn [pbind_ run hC]. unfold on_snd, sbind at 1. rewrite E1. cbn [sret].
    unfold at_buf. rewrite (cs_bidx _ _ _ _ _ _ _ C1). rewrite (bdata_step s1 1 i) by (apply C1 || (cview; rewrite R; lia)). rewrite El.
    rewrite (cs_bidx _ _ _ _ _ _ _ C1), E2. done.
  - intros b. cview. destruct (decide (b = 1)); [rewrite !R; lia|apply R].
  - intros b. cview. destruct (decide (b = 1)); [done|apply L].
  - by crest.
  - by crest.
Qed.

Lemma fsinit_run (k : kst) d pid : good_disk d -> let sb := dec_sb (dblk d 1) in
  sb_magic sb = FSMAGIC -> 0 <= sb_logstart sb /\ 1 <= sb_nlog sb <= LOGSIZE /\ sb_logstart sb + sb_nlog sb < 2 ^ 31 ->
  head_ok (sb_logstart sb) (sb_nlog sb) (dblk d (sb_logstart sb)) ->
  exists s, fsinit ROOTDEV (k, boot d pid) = Ok tt (set_sb (fun _ => sb) k, s) /\ Rel s (boot_ld d (sb_logstart sb) (sb_nlog sb)).
Proof.
  intros Hd sb Hm Hg Hh. destruct (readsb_boot k (boot d pid)) as (s1 & E1 & I1 & R1 & L1 & D1 & G1); [by apply boot_inv|done|done|].
  change (bs_disk (boot d pid)) with d in *. unfold fsinit. rewrite E1. fold sb. rewrite Hm. cbn [Z.eqb Pos.eqb negb].
  destruct (initlog_Rel s1 (sb_logstart sb) (sb_nlog sb) I1 R1 L1) as (s & E & R); [by rewrite G1|done|by rewrite D1|].
  exists s. unfold on_snd. rewrite E. rewrite D1 in R. done.
Qed.

(** ** Lemmas: bitmaps *)

Lemma length_used_bits n : length (used_bits n) = Z.to_nat BSIZE.
Proof.
  unfold used_bits. assert (H : forall l d, length (fold_left (fun buf i => set_bit i buf) l d) = length d); [|by rewrite H].
  induction l as [|i l IH]; intros d; [done|]. cbn [fold_left]. by rewrite IH, length_set_bit.
Qed.

Lemma set_bits_test l (d : bytes) j : Forall (fun i => 0 <= i < 8 * zlen d) l -> 0 <= j ->
  Z.testbit (getb (j / 8) (fold_left (fun buf i => set_bit i buf) l d)) (j mod 8) = bool_decide (j ∈ l) || Z.testbit (getb (j / 8) d) (j mod 8).
Proof.
  revert d. induction l as [|i l IH]; intros d F Hj; [done|]. cbn [fold_left]. apply Forall_cons in F as [Fi F].
  rewrite IH; [|eapply Forall_impl; [exact F|]; intros x; unfold zlen; by rewrite length_set_bit|done]. rewrite testbit_set_bit by done.
  destruct (decide (j = i)) as [->|N]; [rewrite orb_true_r; rewrite bool_decide_true by (by left); done|]. f_equal. apply bool_decide_ext. rewrite elem_of_cons. naive_solver.
Qed.

Lemma used_bits_test n j : 0 <= n <= 8192 -> 0 <= j -> Z.testbit (getb (j / 8) (used_bits n)) (j mod 8) = (j <? n).
Proof.
  intros Hn Hj. unfold used_bits. rewrite set_bits_test; [|apply Forall_forall; intros i Hi%elem_of_seqZ; change (zlen (zeros BSIZE)) with 1024; lia|done].
  rewrite getb_zeros, Z.bits_0, orb_false_r. destruct (Z.ltb_spec j n); [apply bool_decide_true, elem_of_seqZ; lia|apply bool_decide_false; rewrite elem_of_seqZ; lia].
Qed.

Lemma filter_none {A} (P : A -> Prop) `{!forall x, Decision (P x)} l : Forall (fun x => ~ P x) l -> filter P l = [].
Proof. induction 1 as [|x l Hx _ IH]; [done|]. by rewrite filter_cons_False. Qed.

(** A bitmap whose first block has [n] bits set and whose others are zero. *)
Lemma bitmap_first v start n limit : 0 <= n <= 8192 -> blk v start = used_bits n ->
  (forall b, start < b <= start + (limit - 1) / BPB -> blk v b = zeros BSIZE) ->
  (forall j, 0 <= j < limit -> bitof v start j = (j <? n)) /\ (n <= limit -> nfree v start limit = limit - n).
Proof.
  intros Hn Hb Hz. assert (H : forall j, 0 <= j < limit -> bitof v start j = (j <? n)).
  { intros j Hj. unfold bitof. pose proof (Z.mod_pos_bound j 8192 ltac:(lia)). pose proof (Z.div_mod j 8192 ltac:(lia)) as Dj.
    assert (0 <= j / 8192) by (apply Z.div_pos; lia). destruct (decide (j / 8192 = 0)) as [E|E].
    - rewrite E, Z.add_0_l, Hb. assert (j mod 8192 = j) as -> by lia. apply used_bits_test; lia.
    - rewrite Hz; [|assert (j / 8192 <= (limit - 1) / 8192) by (apply Z.div_le_mono; lia); lia]. rewrite getb_zeros, Z.bits_0. symmetry. apply Z.ltb_ge. lia. }
  split; [done|]. intros Hl. unfold nfree. replace limit with (n + (limit - n)) at 1 by lia. rewrite seqZ_app by lia. rewrite filter_app.
  rewrite (filter_none (fun j => bitof v start j = false) (seqZ 0 n)), (filter_all (fun j => bitof v start j = false) (seqZ (0 + n) (limit - n))).
  - cbn [app]. unfold zlen. rewrite length_seqZ. lia.
  - apply Forall_forall. intros j Hj%elem_of_seqZ. rewrite H by lia. apply Z.ltb_ge. lia.
  - apply Forall_forall. intros j Hj%elem_of_seqZ. rewrite H by lia. rewrite (proj2 (Z.ltb_lt j n)) by lia. done.
Qed.

(** ** The finished image as the kernel's disk *)

Definition image_ld (s : mkst) : ldisk := boot_ld (final_img s) 2 45.

Lemma final_sb_eq s : final_sb s = mkSb FSMAGIC 300000 298413 12000 45 2 49 1550 47 (12000 - mk_freeinode s) (300000 - mk_freeblock s).
Proof. reflexivity. Qed.

Section Image.
  Context (s : mkst) (fl : list frep) (I : minv None s fl) (Hfb : mk_freeblock s < 8192) (Hfi : mk_freeinode s < 8192).

Lemma counters : 1587 <= mk_freeblock s /\ 1 <= mk_freeinode s.
Proof. pose proof (mi_fb _ _ _ I) as [E _]. pose proof (mi_fi _ _ _ I) as [E2 _]. rewrite nmeta_eq in E. unfold zlen in *. lia. Qed.

Lemma final_blk b : dblk (final_img s) b =
  if decide (b = 1) then splice 0 (enc_sb (final_sb s)) (zeros BSIZE)
  else if decide (b = 47) then used_bits (mk_freeinode s)
  else if decide (b = 1550) then used_bits (mk_freeblock s)
  else dblk (mk_img s) b.
Proof. unfold final_img. by rewrite !dblk_insert. Qed.

Lemma final_good : good_disk (final_img s).
Proof.
  intros b. rewrite final_blk. destruct (decide (b = 1)); [rewrite length_splice; [done|done|vm_compute; discriminate]|].
  destruct (decide (b = 47)); [apply length_used_bits|]. destruct (decide (b = 1550)); [apply length_used_bits|]. by eapply minv_len.
Qed.

Lemma final_head : hd_n (dblk (final_img s) 2) = 0.
Proof. rewrite final_blk. cbn. rewrite (mi_meta _ _ _ I) by lia. reflexivity. Qed.

Lemma image_blk b : b <> 2 -> blk (image_ld s) b = dblk (final_img s) b.
Proof. intros H. unfold image_ld, boot_ld, blk. cbn [ld_blk]. apply rec_disk_zero; [apply final_head|done]. Qed.

Lemma image_len b : length (blk (image_ld s) b) = Z.to_nat BSIZE.
Proof.
  destruct (decide (b = 2)) as [->|N]; [|rewrite image_blk by done; apply final_good]. unfold image_ld, boot_ld, blk. cbn [ld_blk].
  unfold rec_disk, rec_writes, rec_install. rewrite (hd_list_zero _ final_head). simpl.
  rewrite dblk_insert, decide_True by done. rewrite length_st32; [apply final_good|lia|]. unfold zlen. rewrite final_good. lia.
Qed.

Lemma image_data b : nmeta <= b -> blk (image_ld s) b = dblk (mk_img s) b.
Proof. intros H. rewrite nmeta_eq in H. rewrite image_blk by lia. by rewrite final_blk, !decide_False by lia. Qed.

Lemma sb_image : dec_sb (dblk (final_img s) 1) = final_sb s.
Proof.
  rewrite final_blk, decide_True by done. apply dec_enc_sb; [vm_compute; discriminate|]. rewrite final_sb_eq. pose proof counters.
  split; cbn; unfold is_u32; lia.
Qed.

Lemma image_bits : (forall b, 0 <= b < FSSIZE -> bitof (image_ld s) 1550 b = (b <? mk_freeblock s)) /\
  nfree (image_ld s) 1550 FSSIZE = FSSIZE - mk_freeblock s /\ nfree (image_ld s) 47 NINODES = NINODES - mk_freeinode s.
Proof.
  pose proof counters as [C1 C2]. destruct (bitmap_first (image_ld s) 1550 (mk_freeblock s) FSSIZE) as [H1 H2]; [lia|by rewrite image_blk, final_blk|..].
  { intros b Hb. change ((FSSIZE - 1) / BPB) with 36 in Hb. rewrite image_blk by lia. rewrite final_blk, !decide_False by lia. apply (mi_meta _ _ _ I); [lia|]. rewrite nmeta_eq. lia. }
  destruct (bitmap_first (image_ld s) 47 (mk_freeinode s) NINODES) as [H3 H4]; [lia|by rewrite image_blk, final_blk|..].
  { intros b Hb. change ((NINODES - 1) / BPB) with 1 in Hb. rewrite image_blk by lia. rewrite final_blk, !decide_False by lia. apply (mi_meta _ _ _ I); lia. }
  split; [done|]. split; [apply H2; lia|apply H4; lia].
Qed.

(** The metadata is what lies below [nmeta]. *)
Lemma image_meta b : is_meta (final_sb s) b <-> 0 <= b < 1587.
Proof.
  rewrite final_sb_eq. unfold is_meta, in_log, in_inodes, in_bmap, in_ibmap, in_range. cbn [sb_logstart sb_nlog sb_inodestart sb_bmapstart sb_ibmapstart sb_ninodes sb_size].
  change (12000 / IPB) with 1500. change (300000 / BPB) with 36. change (12000 / BPB) with 1. lia.
Qed.

Lemma image_alloc (k : kst) : k_sb k = final_sb s -> alloc_inv k (image_ld s).
Proof.
  intros Ek. pose proof counters as [C1 C2]. destruct image_bits as (B1 & B2 & B3). pose proof (final_sb_eq s) as Es. split; rewrite ?Ek.
  - rewrite Es. split; cbn [sb_logstart sb_nlog sb_inodestart sb_bmapstart sb_ibmapstart sb_ninodes sb_size];
      change (12000 / IPB) with 1500; change (300000 / BPB) with 36; change (12000 / BPB) with 1; lia.
  - rewrite Es. split; cbn; unfold is_u32; lia.
  - done.
  - done.
  - rewrite image_blk by lia. apply sb_image.
  - rewrite Es. cbn [sb_freeblocks sb_bmapstart sb_size]. by rewrite B2.
  - rewrite Es. cbn [sb_freeinodes sb_ibmapstart sb_ninodes]. by rewrite B3.
  - intros b Hb%image_meta. change (sb_bmapstart (final_sb s)) with 1550. rewrite B1 by lia. apply Z.ltb_lt. lia.
  - intros b []%not_elem_of_nil.
Qed.

Lemma image_rd (k : kst) : k_sb k = final_sb s -> rd_ok k (image_ld s).
Proof. intros Ek. split; [by apply image_alloc|done|done|]. unfold zlen. cbn. lia. Qed.

(** ** Lemmas: the files *)

Lemma tree0 v l : (forall a, a ∈ l -> a <> 0) -> forall n, flat_map (tree 0 v) (pad n l) = l.
Proof.
  intros H n. unfold pad. rewrite flat_map_app. assert (E : forall m, flat_map (tree 0 v) (replicate m 0) = []) by (induction m; [done|]; cbn; done).
  rewrite E, app_nil_r. clear E. induction l as [|a l IH]; [done|]. cbn [flat_map]. rewrite IH by (intros b Hb; apply H; by right).
  assert (tree 0 v a = [a]) as ->; [|done]. cbn [tree]. destruct (Z.eqb_spec a 0) as [->|N]; [exfalso; by apply (H 0); [left|]|done].
Qed.

Lemma zip_deps (l : list Z) (a b c : Z) : length l = 12%nat -> zip deps (l ++ [a; b; c]) = map (pair 0%nat) l ++ [(1%nat, a); (2%nat, b); (3%nat, c)].
Proof. intros H. do 12 (destruct l as [|? l]; [done|]). destruct l; [done|cbn in H; lia]. Qed.

Section File.
  Context (i : nat) (f : frep) (Hf : fl !! i = Some f).

Lemma bs_range a : a ∈ fr_bs f -> a <> 0 /\ 1587 <= a < mk_freeblock s.
Proof. intros Ha. pose proof (minv_block _ s fl i f a I Hf ltac:(apply blocks_in; by left)) as R. rewrite nmeta_eq in R. lia. Qed.

Lemma ia_range : fr_ia f <> 0 -> 1587 <= fr_ia f < mk_freeblock s.
Proof. intros Ha. pose proof (minv_block _ s fl i f (fr_ia f) I Hf ltac:(apply blocks_in; by right)) as R. rewrite nmeta_eq in R. lia. Qed.

Lemma ia_entries : fr_ia f <> 0 -> entries (image_ld s) (fr_ia f) = pad 256 (drop 12 (fr_bs f)).
Proof.
  intros Ha. pose proof (ia_range Ha). unfold entries. rewrite image_data by (rewrite nmeta_eq; lia). apply (fr_ind _ f (mi_rep _ _ _ I i f Hf) Ha).
Qed.

Lemma image_itree : itree (image_ld s) (d_addrs (fr_di f)) = take 12 (fr_bs f) ++ (if fr_ia f =? 0 then [] else fr_ia f :: drop 12 (fr_bs f)).
Proof.
  pose proof (mi_rep _ _ _ I i f Hf) as F. unfold itree. rewrite (fr_addrs _ f F), zip_deps by (apply length_pad; rewrite length_take; lia). rewrite flat_map_app. f_equal.
  - transitivity (flat_map (tree 0 (image_ld s)) (pad 12 (take 12 (fr_bs f)))); [|apply tree0; intros a Ha%subseteq_take; by apply bs_range].
    generalize (pad 12 (take 12 (fr_bs f))). clear. induction l as [|a l IH]; [done|]. cbn [map flat_map fst snd]. by rewrite IH.
  - cbn [flat_map fst snd]. change (tree 2 (image_ld s) 0) with (@nil Z). change (tree 3 (image_ld s) 0) with (@nil Z). cbn [app]. rewrite app_nil_r.
    change (tree 1 (image_ld s) (fr_ia f)) with (if fr_ia f =? 0 then [] else fr_ia f :: flat_map (tree 0 (image_ld s)) (entries (image_ld s) (fr_ia f))). destruct (Z.eqb_spec (fr_ia f) 0); [done|].
    rewrite ia_entries by done. rewrite tree0; [done|]. intros a Ha. apply bs_range. rewrite <- (take_drop 12 (fr_bs f)). apply elem_of_app. by right.
Qed.

Lemma itree_blocks : itree (image_ld s) (d_addrs (fr_di f)) ≡ₚ blocks f.
Proof.
  rewrite image_itree. unfold blocks. destruct (Z.eqb_spec (fr_ia f) 0) as [E|E].
  - rewrite !app_nil_r. by rewrite take_ge by (apply (fr_noind _ f (mi_rep _ _ _ I i f Hf)); done).
  - rewrite <- (take_drop 12 (fr_bs f)) at 3. rewrite <- app_assoc. apply Permutation_app_head. apply Permutation_cons_append.
Qed.

Lemma image_ilook bn : 0 <= bn < 268 -> ilook (image_ld s) (d_addrs (fr_di f)) bn = nth (Z.to_nat bn) (fr_bs f) 0.
Proof.
  intros Hb. pose proof (mi_rep _ _ _ I i f Hf) as F. unfold ilook, slot_of. destruct (Z.ltb_spec bn 12).
  - rewrite dep_direct by lia. cbn [tlook]. exact (daddr_direct _ f bn F ltac:(lia)).
  - destruct (Z.ltb_spec bn (12 + 256)); [|lia]. change (dep 12) with 1%nat. cbn [tlook]. change (addr_of (d_addrs (fr_di f)) 12) with (daddr (fr_di f) 12). rewrite (daddr_ind _ f F).
    destruct (Z.eqb_spec (fr_ia f) 0) as [E|E]; [rewrite nth_overflow; [done|]; pose proof (fr_noind _ f F E); lia|].
    pose proof (ia_range E). rewrite image_data by (rewrite nmeta_eq; lia). change (256 ^ Z.of_nat 0) with 1. rewrite Z.div_1_r, (ld32_ind _ f (bn - 12) F E) by lia. f_equal. lia.
Qed.

Lemma bs_short : (length (fr_bs f) <= 268)%nat.
Proof. apply (fr_len _ f (mi_rep _ _ _ I i f Hf)). Qed.

Lemma image_byte o : 0 <= o < BSIZE * zlen (fr_bs f) -> fbyte (image_ld s) (d_addrs (fr_di f)) o = byte s f o.
Proof.
  intros Ho. pose proof bs_short. unfold zlen in Ho. pose proof (Z.div_mod o 1024 ltac:(lia)). pose proof (Z.mod_pos_bound o 1024 ltac:(lia)). unfold fbyte.
  rewrite image_ilook by lia. rewrite (byte_in _ s fl f o I) by (unfold zlen; lia). destruct (bs_nonzero i _ s fl f (Z.to_nat (o / 1024)) I Hf ltac:(lia)) as [_ R].
  by rewrite image_data by lia.
Qed.

Lemma image_fsub off n : 0 <= off -> off + n <= BSIZE * zlen (fr_bs f) -> fsub (image_ld s) (d_addrs (fr_di f)) off n = map (byte s f) (seqZ off n).
Proof. intros Ho Hn. unfold fsub. apply map_ext_in. intros o Hin. apply list_elem_of_In, elem_of_seqZ in Hin. apply image_byte. lia. Qed.

Lemma image_dblock (k : kst) a : k_sb k = final_sb s -> a ∈ blocks f -> dblock k (image_ld s) a.
Proof.
  intros Ek Ha. pose proof (minv_block _ s fl i f a I Hf Ha) as R. rewrite nmeta_eq in R. unfold dblock. rewrite Ek. split; [change (sb_size (final_sb s)) with 300000; lia|].
  split; [rewrite image_meta; lia|]. destruct image_bits as [B _]. change (sb_bmapstart (final_sb s)) with 1550. rewrite B by lia. apply Z.ltb_lt. lia.
Qed.

Lemma image_imap (k : kst) : k_sb k = final_sb s -> imap_ok k (image_ld s) (d_addrs (fr_di f)).
Proof.
  intros Ek. pose proof (mi_rep _ _ _ I i f Hf) as F. split; [apply (fr_fits _ f F)|]. rewrite itree_blocks. split.
  - eapply NoDup_flat_map_elem; [apply I|]. by eapply list_elem_of_lookup_2.
  - apply Forall_forall. intros a Ha. by apply image_dblock.
Qed.

Lemma image_mapped size : size <= BSIZE * zlen (fr_bs f) -> mapped (image_ld s) (d_addrs (fr_di f)) size.
Proof. intros Hs bn Hb Hlt. pose proof bs_short. unfold zlen in Hs. rewrite image_ilook by lia. apply (bs_nonzero i _ s fl f _ I Hf). lia. Qed.
End File.
End Image.
