(* ===== verification/MkfsRead.v ===== *)
(** * From mkfs to read

    The host files are what a program on the booted kernel reads under their
    names: namei finds the inode through the hashed root directory and readi
    returns the bytes mkfs was given. *)
From S2P Require Import Prelude Str Bio Log Crash Machine Types Vm Codec Ld Balloc Inode Bmap Imap Rw FileSpec Dir DirSpec Mkfs MkfsSpec MkfsDir MkfsMain MkfsBoot.
Local Open Scope prog_scope.

(** Open by name and read, as sys_open and sys_read do below the file table. *)
Definition read_path (path : bytes) (off n : Z) : M (option (Z * bytes)) :=
  o <- namei path;
  match o with
  | None => Ret None
  | Some ip => ilock (Some ip);; r <- readi ip KernDst off n; Ret (Some r)
  end.

(** Distinct names of seven-bit characters other than the two dots. *)
Record names_ok (names : list bytes) : Prop := {
  na_chars : Forall (Forall (fun c => 1 <= c < 128)) names;
  na_dots : Forall (fun nm => nm <> [46] /\ nm <> [46; 46]) names;
  na_apart : NoDup names
}.

(** ** Lemmas: names *)

Lemma seqZ_sub off m n : 0 <= off -> 0 <= m -> off + m <= n -> seqZ off m = take (Z.to_nat m) (drop (Z.to_nat off) (seqZ 0 n)).
Proof.
  intros Ho Hm Hn. replace n with (off + (m + (n - off - m))) by lia. rewrite !seqZ_app by lia.
  rewrite drop_app_length' by (rewrite length_seqZ; lia). rewrite take_app_length' by (rewrite length_seqZ; lia). done.
Qed.

Lemma cstr_chars (nm : bytes) : Forall (fun c => 1 <= c < 128) nm -> cstr (nm ++ [0]) = nm.
Proof. induction 1 as [|c nm Hc _ IH]; [done|]. cbn [app cstr]. destruct (Z.eqb_spec c 0); [lia|]. by rewrite IH. Qed.

(** The host's hash of an entry is the kernel's hash of its name. *)
Lemma hash_loops str h : Forall (fun c => 0 <= c < 128) str -> BKDR_mkfs_loop str h = BKDR_loop str h.
Proof.
  intros F. revert h. induction F as [|c str Hc _ IH]; intros h; [done|]. cbn [BKDR_mkfs_loop BKDR_loop]. destruct (c =? 0); [done|]. unfold schar.
  destruct (Z.ltb_spec c 128); [apply IH|lia].
Qed.

Lemma strncpy_chars n (nm : bytes) : Forall (fun c => 1 <= c < 128) nm -> Forall (fun c => 0 <= c < 128) (strncpy_loop n (nm ++ [0])).
Proof.
  revert nm. induction n as [|n IH]; intros nm F; [constructor|]. cbn [strncpy_loop]. destruct nm as [|c nm].
  - change (getb 0 ([] ++ [0])) with 0. cbn [Z.eqb]. apply Forall_replicate. lia.
  - apply Forall_cons in F as [Fc F]. change (getb 0 ((c :: nm) ++ [0])) with c. destruct (Z.eqb_spec c 0); [lia|]. constructor; [lia|]. by apply IH.
Qed.

Lemma kernel_hash n nm h : Forall (fun c => 1 <= c < 128) nm -> zlen nm <= 13 -> hash_is h (add_entry_name n (nm ++ [0])) -> BKDRHash (nm ++ [0]) = Some h.
Proof.
  intros F Hl H. unfold hash_is, BKDRHash_mkfs in H. cbn [add_entry_name de_name] in H. unfold strncpy in H. rewrite hash_loops in H by (by apply strncpy_chars).
  rewrite BKDR_loop_cstr in H by (apply strncpy_zero; rewrite cstr_chars by done; unfold zlen in Hl; change (Z.to_nat 14) with 14%nat; lia).
  rewrite cstr_strncpy, cstr_chars, take_ge in H by (done || (unfold zlen in Hl; lia)). exact H.
Qed.

(** Entries match exactly their own names. *)
Lemma entry_matches n nm nm' : Forall (fun c => 1 <= c < 128) nm -> Forall (fun c => 1 <= c < 128) nm' -> zlen nm <= 13 -> zlen nm' <= 13 ->
  matches (add_entry_name n (nm ++ [0])) (nm' ++ [0]) = true <-> nm = nm'.
Proof.
  intros F F' L L'. unfold add_entry_name. rewrite matches_linked, !cstr_chars by done. rewrite !take_ge by (unfold zlen in *; lia). done.
Qed.

Lemma name_proper nm : Forall (fun c => 1 <= c < 128) nm -> zlen nm <= 13 -> nm <> [46] -> nm <> [46; 46] -> proper_name (nm ++ [0]).
Proof.
  intros F L N1 N2. assert (E : forall x, Forall (fun c => 1 <= c < 128) x -> zlen x <= 13 -> namecmp (nm ++ [0]) (x ++ [0]) = 0 -> nm = x).
  { intros x Fx Lx H. unfold namecmp, strncmp in H. apply strncmp_loop_eq in H. rewrite !cstr_chars in H by done. by rewrite !take_ge in H by (unfold zlen in *; lia). }
  split; intros H; [apply N1, E|apply N2, E]; try done; try (repeat constructor; lia); unfold zlen; cbn; lia.
Qed.

Lemma take_elem_name nm : 47 ∉ nm -> Forall (fun c => 1 <= c < 128) nm -> take_elem (nm ++ [0]) = (nm, [0]).
Proof.
  intros H F. induction F as [|c nm Hc _ IH]; [done|]. apply not_elem_of_cons in H as [H1 H2]. cbn [app take_elem].
  destruct (Z.eqb_spec c 47); [congruence|]. destruct (Z.eqb_spec c 0); [lia|]. cbn [orb]. by rewrite IH.
Qed.

Lemma skipelem_name nm : 47 ∉ nm -> Forall (fun c => 1 <= c < 128) nm -> 0 < zlen nm <= 13 -> skipelem (47 :: nm ++ [0]) = Some ([0], nm ++ [0]).
Proof.
  intros H F L. unfold skipelem. assert (E : skip_slashes (47 :: nm ++ [0]) = nm ++ [0]).
  { cbn [skip_slashes]. change (47 =? 47) with true. cbv iota. destruct nm as [|c nm]; [unfold zlen in L; cbn in L; lia|]. cbn [app skip_slashes]. destruct (Z.eqb_spec c 47) as [->|]; [|done]. by apply not_elem_of_cons in H as [? _]. }
  rewrite E. assert (G : getb 0 (nm ++ [0]) =? 0 = false).
  { destruct nm as [|c nm]; [unfold zlen in L; cbn in L; lia|]. apply Forall_cons in F as [Fc _]. change (getb 0 ((c :: nm) ++ [0])) with c. apply Z.eqb_neq. lia. }
  rewrite G, take_elem_name by done. destruct (Z.leb_spec 14 (zlen nm)); [lia|]. done.
Qed.

(** ** Lemmas: the inode table *)

Definition lock_load (pid : Z) (di : dinode) (i : inode) : inode := i_set_valid true (i_load di (i_set_lock true pid i)).
Definition curpid (k : kst) : Z := p_pid (nth (k_cur k) (k_procs k) proc0).

Lemma alter_twice f g ip k : set_itable (alter f ip) (set_itable (alter g ip) k) = set_itable (alter (fun i => f (g i)) ip) k.
Proof. unfold set_itable. cbn. f_equal. apply list_alter_alter_eq. Qed.

Lemma run_modi ip f (k : kst) v : run hA (modi ip f) (k, v) = Ok tt (set_itable (alter f ip) k, v).
Proof. done. Qed.

Lemma rd_ext k k' v : k_sb k' = k_sb k -> rd_ok k v -> rd_ok k' v.
Proof. intros E [[] ? ? ?]. split; try done. by split; rewrite ?E. Qed.

(** Locking an inode that is not in memory reads it from its block. *)
Lemma ilock_run k v ip n : rd_ok k v -> (ip < length (k_itable k))%nat -> 1 <= i_ref (inode_at k ip) -> i_locked (inode_at k ip) = false ->
  i_valid (inode_at k ip) = false -> i_dev (inode_at k ip) = ROOTDEV -> i_inum (inode_at k ip) = n -> 0 <= n < sb_ninodes (k_sb k) ->
  let di := get_dinode (dioff n) (blk v (IBLOCK n (k_sb k))) in d_type di <> 0 ->
  run hA (ilock (Some ip)) (k, v) = Ok tt (set_itable (alter (lock_load (curpid k) di) ip) k, v).
Proof.
  intros R Hip Hr Hl Hv Hd Hn Hi di Ht. unfold ilock. rewrite run_bind, run_geti. destruct (Z.ltb_spec (i_ref (inode_at k ip)) 1); [lia|].
  rewrite run_bind. unfold acquiresleep. rewrite run_bind, run_geti, Hl. rewrite run_bind. change (run hA myproc (k, v)) with (Ok (nth (k_cur k) (k_procs k) proc0) (k, v)). cbv beta iota.
  rewrite run_modi. set (k1 := set_itable (alter (i_set_lock true (p_pid (nth (k_cur k) (k_procs k) proc0))) ip) k). rewrite run_bind, run_geti.
  assert (E1 : inode_at k1 ip = i_set_lock true (curpid k) (inode_at k ip)) by (by apply inode_at_modi). rewrite E1. cbn [i_set_lock i_valid i_dev i_inum]. rewrite Hv, Hd, Hn. cbn [negb].
  rewrite run_bind. change (run hA getsb (k1, v)) with (Ok (k_sb k) (k1, v)). cbv beta iota. rewrite run_bind.
  destruct (ai_inode k v (rd_inv _ _ R) n Hi) as [Hvb _]. pose proof (rd_ext k k1 v eq_refl R) as Rk.
  rewrite (run_bread k1 v) by (done || (rewrite (rd_held _ _ R); apply not_elem_of_nil) || (rewrite (rd_held _ _ R); pose proof (rd_space _ _ R); unfold zlen in *; cbn; lia)).
  rewrite run_bind, run_bdata by (apply elem_of_cons; by left). change (blk (hold _ v) ?b) with (blk v b). fold (IBLOCK n (k_sb k)). fold di.
  rewrite run_bind, run_modi. set (k2 := set_itable (alter (i_load di) ip) k1). rewrite run_bind, (rd_brelse k2 v) by (by apply (rd_ext k)). rewrite run_bind, run_modi.
  set (k3 := set_itable (alter (i_set_valid true) ip) k2). assert (E3 : k3 = set_itable (alter (lock_load (curpid k) di) ip) k) by (unfold k3, k2, k1; by rewrite !alter_twice).
  rewrite run_bind, run_geti, E3, inode_at_modi by done. cbn [lock_load i_set_valid i_load i_type]. by rewrite (proj2 (Z.eqb_neq _ 0) Ht).
Qed.

(** Giving back a locked inode that other links keep alive. *)
Lemma iunlockput_run (k : kst) (v : ldisk) ip : (ip < length (k_itable k))%nat -> 1 <= i_ref (inode_at k ip) -> i_locked (inode_at k ip) = true -> i_lpid (inode_at k ip) = curpid k ->
  i_nlink (inode_at k ip) <> 0 ->
  run hA (iunlockput ip) (k, v) = Ok tt (set_itable (alter (fun i => i_set_ref (i_ref i - 1) (i_set_lock false 0 i)) ip) k, v).
Proof.
  intros Hip Hr Hl Hp Hn. unfold iunlockput. rewrite run_bind. unfold iunlock. rewrite run_bind. unfold holdingsleep. rewrite run_bind, run_geti. rewrite run_bind.
  change (run hA myproc (k, v)) with (Ok (nth (k_cur k) (k_procs k) proc0) (k, v)). cbv beta iota. cbn [run]. rewrite run_bind, run_geti.
  rewrite Hl, Hp. fold (curpid k). rewrite Z.eqb_refl. cbn [andb negb orb]. destruct (Z.ltb_spec (i_ref (inode_at k ip)) 1); [lia|]. unfold releasesleep. rewrite run_modi.
  set (k1 := set_itable (alter (i_set_lock false 0) ip) k). unfold iput. rewrite run_bind, run_geti. assert (E1 : inode_at k1 ip = i_set_lock false 0 (inode_at k ip)) by (by apply inode_at_modi).
  rewrite E1. cbn [i_set_lock i_ref i_valid i_nlink]. rewrite (proj2 (Z.eqb_neq _ 0) Hn), andb_false_r. rewrite run_bind. cbn [run]. rewrite run_modi. unfold k1. by rewrite alter_twice.
Qed.

(** ** Lemmas: the walk from the root *)

Section Walk.
  Context (s : mkst) (fl : list frep) (fs : list (bytes * bytes)) (B : built s fl fs).
  Context (Hfb : mk_freeblock s < 8192) (Hfi : mk_freeinode s < 8192).
  Context (Hnames : names_ok (map fst fs)) (Hlen : Forall (fun nc => 0 < zlen (fst nc) <= 13) fs) (Hbk : forall h, (length (bucket h (entries_of fs)) <= 16)%nat).

Lemma name_at j nc : fs !! j = Some nc -> Forall (fun c => 1 <= c < 128) (fst nc) /\ 0 < zlen (fst nc) <= 13 /\ fst nc <> [46] /\ fst nc <> [46; 46].
Proof.
  intros H. assert (Hm : map fst fs !! j = Some (fst nc)) by (by rewrite list_lookup_fmap, H). destruct Hnames as [N1 N2 _].
  pose proof (Forall_lookup_1 _ _ _ _ N1 Hm). pose proof (Forall_lookup_1 _ _ _ _ N2 Hm). pose proof (Forall_lookup_1 _ _ _ _ Hlen H). naive_solver.
Qed.

Lemma entry_at j nc : fs !! j = Some nc -> entries_of fs !! j = Some (add_entry_name (2 + Z.of_nat j) (fst nc ++ [0])).
Proof. intros H. unfold entries_of. rewrite list_lookup_imap, H. done. Qed.

(** An entry of the root directory as the kernel reads it. *)
Lemma image_dent root h (j : nat) : fl !! 0%nat = Some root -> root_rep s root (entries_of fs) -> 16 <= h <= 458 -> (j < 16)%nat -> 256 * h + 256 <= d_size (fr_di root) ->
  dent (image_ld s) (d_addrs (fr_di root)) (256 * h + 16 * Z.of_nat j) = match bucket h (entries_of fs) !! j with Some e => e | None => dec_dirent (zeros 16) end.
Proof.
  intros Hr RR Hh Hj Hs. pose proof (bu_inv _ _ _ B) as I. destruct RR as [R1 (R2 & R3 & R4) R5 R6]. unfold sized in R2. unfold dent.
  rewrite (image_fsub s fl I 0 root Hr) by lia. assert (E : map (byte s root) (seqZ (256 * h + 16 * Z.of_nat j) 16) = slot (byte s root) (256 * h + 16 * Z.of_nat j)).
  { unfold slot. rewrite <- (Z.add_0_r (256 * h + 16 * Z.of_nat j)) at 1. rewrite <- fmap_add_seqZ. change (fmap ?f ?l) with (map f l). by rewrite map_map. }
  rewrite E, (dr_slots _ _ _ R6) by done. destruct (bucket h (entries_of fs) !! j) as [e|] eqn:Eb; [|done].
  pose proof (bucket_entry_ok _ h j e (dr_entries _ _ _ R6) Eb) as [H1 H2]. apply dec_enc_dirent; [lia|done].
Qed.

Lemma image_search root j nc : fl !! 0%nat = Some root -> root_rep s root (entries_of fs) -> fs !! j = Some nc ->
  exists h off, BKDRHash (fst nc ++ [0]) = Some h /\
    search (dent (image_ld s) (d_addrs (fr_di root))) (d_size (fr_di root)) (fst nc ++ [0]) false h = (Some off, 2 + Z.of_nat j).
Proof.
  intros Hr RR Hj. destruct (name_at j nc Hj) as (F & L & _). pose proof (entry_at j nc Hj) as He. set (e := add_entry_name (2 + Z.of_nat j) (fst nc ++ [0])) in *.
  assert (Hin : e ∈ entries_of fs) by (by eapply list_elem_of_lookup_2). pose proof (dr_entries _ _ _ (rr_rep _ _ _ RR)) as Fe. rewrite Forall_forall in Fe.
  destruct (Fe e Hin) as [Hi He14]. assert (Hj16 : 2 + Z.of_nat j < 2 ^ 16).
  { pose proof (lookup_lt_Some _ _ _ Hj). pose proof (mi_fi _ _ _ (bu_inv _ _ _ B)) as [Q _]. unfold zlen in Q. rewrite (bu_len _ _ _ B) in Q. lia. }
  destruct (entry_name_ok (2 + Z.of_nat j) (fst nc) ltac:(lia) ltac:(lia)) as [_ [h Hh]]. fold e in Hh. pose proof (hash_range _ _ Hh) as Hr2.
  assert (Hb : e ∈ bucket h (entries_of fs)) by (unfold bucket; apply list_elem_of_filter; done). apply list_elem_of_lookup in Hb as [m Hm]. pose proof (lookup_lt_Some _ _ _ Hm) as Hlt. specialize (Hbk h).
  pose proof (dr_inside _ _ _ (rr_rep _ _ _ RR) h ltac:(intros E; by rewrite E in Hm)) as Hin2. exists h, (256 * h + 16 * Z.of_nat m). split; [by apply (kernel_hash (2 + Z.of_nat j)); [|lia|]|].
  unfold search, two_passes. rewrite (pass_find_hit _ _ _ 16 (256 * h) m).
  - rewrite (image_dent root h m Hr RR Hr2 ltac:(lia) Hin2), Hm. unfold e, add_entry_name. cbn [de_inum]. by rewrite xshort_id by lia.
  - lia.
  - lia.
  - rewrite (image_dent root h m Hr RR Hr2 ltac:(lia) Hin2), Hm. apply entry_matches; done || lia.
  - intros i Hi'. rewrite (image_dent root h i Hr RR Hr2 ltac:(lia) Hin2). destruct (lookup_lt_is_Some_2 (bucket h (entries_of fs)) i ltac:(lia)) as [e' He']. rewrite He'.
    destruct (matches e' (fst nc ++ [0])) eqn:Em; [|done]. exfalso.
    assert (Hin' : e' ∈ entries_of fs) by (apply list_elem_of_lookup_2 in He'; unfold bucket in He'; by apply list_elem_of_filter in He' as [_ ?]).
    apply list_elem_of_lookup in Hin' as [j' Hj']. unfold entries_of in Hj'. rewrite list_lookup_imap in Hj'. destruct (fs !! j') as [nc'|] eqn:En; [|done]. cbn in Hj'. injection Hj' as <-.
    destruct (name_at j' nc' En) as (F' & L' & _). apply entry_matches in Em; [|done|done|lia|lia].
    assert (j' = j) as -> by (eapply (NoDup_lookup (map fst fs)); [apply Hnames|rewrite list_lookup_fmap, En; done|rewrite list_lookup_fmap, Hj; cbn; by rewrite Em]).
    assert (nc' = nc) as -> by congruence. fold e in He'.
    assert (i = m); [|lia]. eapply (NoDup_lookup (bucket h (entries_of fs))); [|exact He'|exact Hm]. unfold bucket. apply NoDup_filter.
    apply NoDup_alt. intros a b x Ha Hb. unfold entries_of in Ha, Hb. rewrite list_lookup_imap in Ha, Hb. destruct (fs !! a) as [x1|] eqn:Ea; [|done]. destruct (fs !! b) as [x2|] eqn:Eb; [|done].
    cbn in Ha, Hb. pose proof (lookup_lt_Some _ _ _ Ea). pose proof (lookup_lt_Some _ _ _ Eb). pose proof (mi_fi _ _ _ (bu_inv _ _ _ B)) as [Q _]. unfold zlen in Q. rewrite (bu_len _ _ _ B) in Q.
    assert (de_inum x = 2 + Z.of_nat a) by (injection Ha as <-; apply xshort_id; lia). assert (de_inum x = 2 + Z.of_nat b) by (injection Hb as <-; apply xshort_id; lia). lia.
Qed.

Lemma image_inode (i : nat) f : fl !! i = Some f -> get_dinode (dioff (1 + Z.of_nat i)) (blk (image_ld s) (IBLOCK (1 + Z.of_nat i) (final_sb s))) = fr_di f /\ 1 + Z.of_nat i < NINODES.
Proof.
  intros Hf. pose proof (bu_inv _ _ _ B) as I. pose proof (mi_fi _ _ _ I) as [_ Hn]. pose proof (lookup_lt_Some _ _ _ Hf). unfold zlen in Hn. pose proof (inode_sector i ltac:(lia)) as R.
  unfold IBLOCK. change (sb_inodestart (final_sb s)) with 49. rewrite (image_blk s fl I), final_blk, !decide_False by lia. split; [by apply (mi_ino _ _ _ I i f)|lia].
Qed.

Lemma image_file_ok k ip i f : fl !! i = Some f -> sized f (d_size (fr_di f)) -> k_sb k = final_sb s -> (ip < length (k_itable k))%nat ->
  i_dev (inode_at k ip) = ROOTDEV -> i_type (inode_at k ip) <> T_EXTENT -> i_addrs (inode_at k ip) = d_addrs (fr_di f) -> i_size (inode_at k ip) = d_size (fr_di f) ->
  file_ok k (image_ld s) ip.
Proof.
  intros Hf Hs Ek Hip Hd Ht Ha Hz. pose proof (bu_inv _ _ _ B) as I. unfold sized, zlen in Hs. pose proof (bs_short s fl I i f Hf) as Hl. split; try done; rewrite ?Ha, ?Hz.
  - by eapply image_imap.
  - pose proof (df_size _ (fr_fits _ f (mi_rep _ _ _ I i f Hf))) as Hu. unfold is_u32 in Hu. lia.
  - eapply image_mapped; [done|done|]. unfold zlen. lia.
Qed.

(** The kernel after iinit: an inode table with nothing in it. *)
Context (k : kst) (Hit : k_itable k = replicate NINODE inode0) (Hsb : k_sb k = final_sb s).

Lemma iget_first n : run hA (iget ROOTDEV n) (k, image_ld s) = Ok 0%nat (set_itable (alter (i_set_id ROOTDEV n) 0%nat) k, image_ld s).
Proof.
  unfold iget. rewrite run_bind. change (run hA P.get (k, image_ld s)) with (Ok (A := kst) k (k, image_ld s)). cbv beta iota. rewrite Hit. reflexivity.
Qed.

Lemma iget_scan_free m idx dev n x : iget_scan (replicate m inode0) idx dev n (Some x) = inr (Some x).
Proof. revert idx. induction m as [|m IH]; intros idx; [done|]. cbn [replicate iget_scan]. apply IH. Qed.

Lemma iget_scan_second m i0 n : i_ref i0 = 1 -> i_inum i0 <> n -> iget_scan (i0 :: replicate (S m) inode0) 0 ROOTDEV n None = inr (Some 1%nat).
Proof.
  intros Hr Hn. cbn [replicate iget_scan]. rewrite Hr, (proj2 (Z.eqb_neq _ _) Hn), andb_false_r. apply iget_scan_free.
Qed.

Lemma iget_fresh k1 n ip : iget_scan (k_itable k1) 0 ROOTDEV n None = inr (Some ip) ->
  run hA (iget ROOTDEV n) (k1, image_ld s) = Ok ip (set_itable (alter (i_set_id ROOTDEV n) ip) k1, image_ld s).
Proof.
  intros E. unfold iget. rewrite run_bind. change (run hA P.get (k1, image_ld s)) with (Ok (A := kst) k1 (k1, image_ld s)). cbv beta iota. rewrite E. reflexivity.
Qed.

(** The second inode goes to the second slot while the first is in use. *)
Lemma iget_second k1 i0 n : k_itable k1 = <[0%nat := i0]> (k_itable k) -> i_ref i0 = 1 -> i_inum i0 <> n ->
  run hA (iget ROOTDEV n) (k1, image_ld s) = Ok 1%nat (set_itable (alter (i_set_id ROOTDEV n) 1%nat) k1, image_ld s).
Proof. intros E Hr Hn. apply iget_fresh. rewrite E, Hit. exact (iget_scan_second 48 i0 n Hr Hn). Qed.

(** The root inode, locked and read in. *)
Definition root_in (root : frep) : inode := lock_load (curpid k) (fr_di root) (i_set_id ROOTDEV ROOTINO inode0).
Definition k_root (root : frep) : kst := set_itable (alter (lock_load (curpid k) (fr_di root)) 0%nat) (set_itable (alter (i_set_id ROOTDEV ROOTINO) 0%nat) k).

Lemma k_root_facts root : k_itable (k_root root) = <[0%nat := root_in root]> (k_itable k) /\ inode_at (k_root root) 0 = root_in root /\ length (k_itable (k_root root)) = NINODE /\
  k_sb (k_root root) = final_sb s /\ curpid (k_root root) = curpid k.
Proof.
  assert (E : k_itable (k_root root) = <[0%nat := root_in root]> (k_itable k)) by (unfold k_root; cbn [set_itable k_itable]; by rewrite Hit).
  split; [done|]. unfold inode_at. rewrite E, Hit. done.
Qed.

Lemma root_dir root : fl !! 0%nat = Some root -> root_rep s root (entries_of fs) ->
  run hA (ilock (Some 0%nat)) (set_itable (alter (i_set_id ROOTDEV ROOTINO) 0%nat) k, image_ld s) = Ok tt (k_root root, image_ld s) /\ dir_ok (k_root root) (image_ld s) 0.
Proof.
  intros Hr [R1 (R2 & R3 & R4) _ _]. pose proof (bu_inv _ _ _ B) as I. destruct (k_root_facts root) as (E1 & E2 & E3 & E4 & _).
  set (k1 := set_itable (alter (i_set_id ROOTDEV ROOTINO) 0%nat) k). assert (Ei : inode_at k1 0 = i_set_id ROOTDEV ROOTINO inode0) by (unfold inode_at, k1; cbn [set_itable k_itable]; by rewrite Hit).
  destruct (image_inode 0 root Hr) as [Ed _]. change (1 + Z.of_nat 0) with 1 in Ed. split.
  - pose proof (ilock_run k1 (image_ld s) 0 1) as L. rewrite Ei in L. change (k_sb k1) with (k_sb k) in L. rewrite Hsb, Ed in L. apply L; try done; try lia.
    + by apply (image_rd s fl I Hfb Hfi).
    + unfold k1. cbn [set_itable k_itable]. rewrite length_alter, Hit. cbn. lia.
    + by rewrite R1.
  - assert (H : file_ok (k_root root) (image_ld s) 0).
    { apply (image_file_ok _ 0 0 root); try done; rewrite ?E2, ?E3; try done; [lia|]. unfold root_in. cbn [lock_load i_set_valid i_load i_type]. by rewrite R1. }
    split; [done|rewrite E2|rewrite E2]; unfold root_in; cbn [lock_load i_set_valid i_load i_type i_size]; [by rewrite R1|done].
Qed.

Lemma namei_run j nc : fs !! j = Some nc -> 47 ∉ fst nc ->
  exists k', run hA (namei (47 :: fst nc ++ [0])) (k, image_ld s) = Ok (Some 1%nat) (k', image_ld s) /\
    inode_at k' 1 = i_set_id ROOTDEV (2 + Z.of_nat j) inode0 /\ length (k_itable k') = NINODE /\ k_sb k' = final_sb s.
Proof.
  intros Hj Hs. destruct (name_at j nc Hj) as (F & L & D1 & D2). pose proof (bu_inv _ _ _ B) as I. destruct (bu_root _ _ _ B) as (root & Hr & RR).
  destruct (root_dir root Hr RR) as [El Dok]. destruct (k_root_facts root) as (E1 & E2 & E3 & E4 & E5). destruct (image_search root j nc Hr RR Hj) as (h & off & Hh & Hse).
  unfold namei, namex. change (getb 0 (47 :: fst nc ++ [0]) =? 47) with true. cbv iota. rewrite run_bind, run_bind, iget_first. cbn [length namex_loop]. rewrite skipelem_name by done.
  rewrite run_bind, El. rewrite run_bind, run_geti, E2. assert (Et : i_type (root_in root) = 1) by (unfold root_in; cbn [lock_load i_set_valid i_load i_type]; by rewrite (rr_di _ _ _ RR)).
  rewrite Et. change (1 =? 1) with true. cbn [negb andb]. rewrite run_bind.
  rewrite (dirlookup_run (k_root root) (image_ld s) 0 (fst nc ++ [0]) h); [|by apply (image_rd s fl I Hfb Hfi)|by apply (image_len s fl I)|done|done|apply name_proper; done || lia].
  unfold dents, dsize. rewrite E2. change (i_addrs (root_in root)) with (d_addrs (fr_di root)). change (i_size (root_in root)) with (d_size (fr_di root)). rewrite Hse.
  destruct (Z.eqb_spec (2 + Z.of_nat j) 0); [lia|]. cbn [negb]. change (i_dev (root_in root)) with ROOTDEV. rewrite run_bind, (iget_second (k_root root) (root_in root)) by (done || (cbn; lia)). cbn [run].
  set (k3 := set_itable (alter (i_set_id ROOTDEV (2 + Z.of_nat j)) 1%nat) (k_root root)). assert (E6 : inode_at k3 0 = root_in root) by (unfold k3; by rewrite inode_at_modi_ne).
  rewrite run_bind, (iunlockput_run k3 (image_ld s) 0); rewrite ?E6; try done; try (cbn; lia).
  - assert (Ek : skipelem [0] = None) by done. set (k4 := set_itable _ k3). exists k4. rewrite Ek. cbn [run]. split; [done|]. split; [|split; [|done]].
    + unfold k4. rewrite inode_at_modi_ne by done. unfold k3. rewrite inode_at_modi by (rewrite E3; lia). f_equal. unfold inode_at. rewrite E1, Hit. done.
    + unfold k4, k3. cbn [set_itable k_itable]. by rewrite !length_alter.
  - unfold k3. cbn [set_itable k_itable]. rewrite length_alter, E3. lia.
  - unfold root_in. cbn [lock_load i_set_valid i_load i_nlink]. by rewrite (rr_di _ _ _ RR).
Qed.

Lemma read_path_run j nc off n : fs !! j = Some nc -> 47 ∉ fst nc -> 0 <= off <= zlen (snd nc) -> 0 <= n -> off + n < 2 ^ 32 ->
  exists k', run hA (read_path (47 :: fst nc ++ [0]) off n) (k, image_ld s) = Ok (Some (spec_read (snd nc) off n)) (k', image_ld s).
Proof.
  intros Hj Hs Ho Hn Hb. destruct (namei_run j nc Hj Hs) as (k1 & E1 & Ei & Hl & Ek). pose proof (bu_inv _ _ _ B) as I.
  destruct (lookup_lt_is_Some_2 fl (S j)) as [f Hf]; [rewrite (bu_len _ _ _ B); pose proof (lookup_lt_Some _ _ _ Hj); lia|].
  destruct (bu_files _ _ _ B j f nc Hf Hj) as (F1 & F2 & F3). destruct (image_inode (S j) f Hf) as [Ed Hin]. replace (1 + Z.of_nat (S j)) with (2 + Z.of_nat j) in * by lia.
  assert (Ez : d_size (fr_di f) = zlen (snd nc)) by (by rewrite F1). unfold read_path. rewrite run_bind, E1. rewrite run_bind.
  pose proof (ilock_run k1 (image_ld s) 1 (2 + Z.of_nat j)) as L. rewrite Ei, Ek, Ed, Hl in L. rewrite L; clear L; try done; try lia; [|by apply (image_rd s fl I Hfb Hfi)|change (sb_ninodes (final_sb s)) with 12000; lia|by rewrite F1].
  set (k2 := set_itable (alter (lock_load (curpid k1) (fr_di f)) 1%nat) k1). assert (E2 : inode_at k2 1 = lock_load (curpid k1) (fr_di f) (i_set_id ROOTDEV (2 + Z.of_nat j) inode0)) by (unfold k2; rewrite inode_at_modi by lia; by rewrite Ei).
  assert (Fk : file_ok k2 (image_ld s) 1).
  { apply (image_file_ok k2 1 (S j) f); try done; rewrite ?E2; try done; [by rewrite Ez|unfold k2; cbn [set_itable k_itable]; rewrite length_alter; lia|]. cbn [lock_load i_set_valid i_load i_type]. by rewrite F1. }
  rewrite run_bind, (readi_run k2 (image_ld s) 1 off n); [|by apply (image_rd s fl I Hfb Hfi)|by apply (image_len s fl I)|done|rewrite E2; cbn [lock_load i_set_valid i_load i_size]; lia|done|done].
  exists k2. cbn [run]. rewrite E2. cbn [lock_load i_set_valid i_load i_size i_addrs]. rewrite Ez. unfold spec_read. do 4 f_equal. unfold sized, zlen in F2.
  rewrite (image_fsub s fl I (S j) f Hf) by (unfold zlen in *; lia). 
  rewrite (seqZ_sub off (Z.min n (zlen (snd nc) - off)) (zlen (snd nc))) by lia. set (m := Z.min n (zlen (snd nc) - off)). assert (Ec : map (byte s f) (seqZ 0 (zlen (snd nc))) = snd nc) by (rewrite <- F3 at 2; unfold fcont; by rewrite Ez).
  unfold sub. by rewrite <- firstn_map, <- skipn_map, Ec.
Qed.
End Walk.

Lemma fit_lens files : files_fit files -> Forall (fun nc => 0 < zlen (fst nc) <= 13) (map image_file files).
Proof. intros Fit. apply Forall_map. exact (ff_name _ Fit). Qed.

Lemma fit_no_slash files j nc : files_fit files -> map image_file files !! j = Some nc -> 47 ∉ fst nc.
Proof.
  intros Fit H. apply list_lookup_fmap_Some in H as (f & -> & Hf). pose proof (Forall_lookup_1 _ _ _ _ (ff_slash _ Fit) Hf) as Hs. cbv beta in Hs. unfold image_file. cbn [fst].
  destruct (short_name (cstr (fst f))) as [|c l]; [apply not_elem_of_nil|]. cbn [strip]. destruct (c =? 95); [|done]. by apply not_elem_of_cons in Hs as [_ ?].
Qed.

(** The kernel mounts the image, whatever its other state. *)
Lemma mount_run s fl fs (k : kst) pid : built s fl fs -> mk_freeblock s < 8192 -> mk_freeinode s < 8192 ->
  exists st, fsinit ROOTDEV (k, boot (final_img s) pid) = Ok tt (set_sb (fun _ => final_sb s) k, st) /\ Rel st (image_ld s).
Proof.
  intros B Hfb Hfi. pose proof (bu_inv _ _ _ B) as I. pose proof (fsinit_run k (final_img s) pid (final_good s fl I)) as H. cbv zeta in H. rewrite (sb_image s fl I Hfb Hfi) in H.
  apply H; [done|rewrite final_sb_eq; cbn [sb_logstart sb_nlog]; lia|]. apply head_ok_zero; [rewrite final_sb_eq; cbn [sb_nlog]; lia|exact (final_head s fl I)].
Qed.

(** ** Theorems *)

(** C36. mkfs and the kernel agree: from any files that fit, mkfs finishes and
    the kernel mounts its image; the state then satisfies the allocators'
    invariant (bitmaps, counters and metadata are consistent), and the
    counters say exactly how many inodes and blocks are left. *)
Theorem mkfs_boots files : files_fit files ->
  exists s', main files mk0 = Ok tt s' /\
  forall (k : kst) pid, exists sb st v,
    fsinit ROOTDEV (k, boot (mk_img s') pid) = Ok tt (set_sb (fun _ => sb) k, st) /\ Rel st v /\
    alloc_inv (set_sb (fun _ => sb) k) v /\
    sb_freeinodes sb = NINODES - (2 + zlen files) /\ FSSIZE - 8192 < sb_freeblocks sb <= FSSIZE - nmeta.
Proof.
  intros Fit. destruct (main_run files Fit) as (s & fl & s' & E & B & Ei & Hfb & Hfi). exists s'. split; [done|]. intros k pid. pose proof (ff_count _ Fit). pose proof (bu_inv _ _ _ B) as I.
  destruct (mount_run s fl _ k pid B Hfb ltac:(lia)) as (st & Em & R). exists (final_sb s), st, (image_ld s). rewrite Ei. split; [done|]. split; [done|].
  split; [by apply (image_alloc s fl I Hfb ltac:(lia))|]. rewrite final_sb_eq. cbn [sb_freeinodes sb_freeblocks]. rewrite Hfi, nmeta_eq. destruct (counters s fl I). lia.
Qed.

(** C17. Every host file given to mkfs is what the booted kernel reads under
    its name: after fsinit with an empty inode table, namei, ilock and readi
    of the path "/name" return exactly the requested bytes of the file. *)
Theorem mkfs_read files j nc off n :
  files_fit files -> names_ok (map (fun f => fst (image_file f)) files) -> map image_file files !! j = Some nc ->
  0 <= off <= zlen (snd nc) -> 0 <= n -> off + n < 2 ^ 32 ->
  exists s', main files mk0 = Ok tt s' /\
  forall (k : kst) pid, k_itable k = replicate NINODE inode0 -> exists k1 st k2 st',
    fsinit ROOTDEV (k, boot (mk_img s') pid) = Ok tt (k1, st) /\
    run hC (read_path (47 :: fst nc ++ [0]) off n) (k1, st) = Ok (Some (spec_read (snd nc) off n)) (k2, st').
Proof.
  intros Fit Nm Hj Ho Hn Hb. destruct (main_run files Fit) as (s & fl & s' & E & B & Ei & Hfb & Hfi). exists s'. split; [done|]. intros k pid Hit. pose proof (ff_count _ Fit).
  destruct (mount_run s fl _ k pid B Hfb ltac:(lia)) as (st & Em & R). set (k1 := set_sb (fun _ => final_sb s) k) in *.
  destruct (read_path_run s fl _ B Hfb ltac:(lia) ltac:(by rewrite map_map) (fit_lens files Fit) (ff_bucket _ Fit) k1 Hit eq_refl j nc off n Hj (fit_no_slash files j nc Fit Hj) Ho Hn Hb) as (k2 & Er).
  pose proof (refine_run (read_path (47 :: fst nc ++ [0]) off n) k1 st (image_ld s) R) as HR. rewrite Er in HR. destruct HR as (st' & Ec & _).
  exists k1, st, k2, st'. rewrite Ei. split; [done|]. exact Ec.
Qed.

(** A file of more than 268 blocks makes iappend write past [indirect]. *)
Theorem iappend_overflow (s : mkst) (fl : list frep) (f : frep) (x : Z) :
  minv (Some 1%nat) s fl -> fl !! 1%nat = Some f -> (12 <= length (fr_bs f))%nat -> roomy s f -> 268 <= x -> exists w, iappend_block x (fr_di f) s = Wrong w.
Proof.
  intros I Hf Hl R Hx. unfold iappend_block. destruct (Z.ltb_spec x 12); [lia|]. rewrite xint_daddr by apply (mi_rep _ _ _ I _ _ Hf).
  destruct (ind_step 1 s fl f I Hf Hl R) as (s1 & f1 & E1 & G1 & B1 & A1 & D1). rewrite (sbind_ok _ _ _ _ _ E1), D1.
  pose proof (gr_inv _ _ _ _ _ _ G1) as I1. pose proof (minv_block _ s1 _ 1 f1 (fr_ia f1) I1 (grown_self 1 s fl f s1 f1 Hf G1) ltac:(apply blocks_in; by right)) as Hia. rewrite nmeta_eq in Hia.
  rewrite (xint_id (fr_ia f1)) by lia. rewrite (sbind_ok _ _ _ _ _ (minv_rsect _ s1 _ (fr_ia f1) I1 ltac:(lia))). destruct (Z.leb_spec 256 (x - 12)); [|lia]. by eexists.
Qed.

(** ** Witnesses *)

(** Two host files, "user/_cat" and "README". *)
Definition demo_files : list hfile :=
  [([117; 115; 101; 114; 47; 95; 99; 97; 116], Some [replicate 1024 7; [1; 2; 3]]); ([82; 69; 65; 68; 77; 69], Some [[104; 105; 10]])].

Lemma demo_fit : files_fit demo_files.
Proof.
  split.
  - repeat constructor; eexists; reflexivity.
  - repeat constructor; vm_compute; discriminate.
  - apply (bool_decide_unpack _). vm_compute. exact Logic.I.
  - repeat constructor; vm_compute; discriminate.
  - intros h. unfold bucket. etransitivity; [apply length_filter|]. vm_compute. lia.
  - vm_compute. reflexivity.
  - vm_compute. reflexivity.
Qed.

Lemma demo_names : names_ok (map (fun f => fst (image_file f)) demo_files).
Proof. split; apply (bool_decide_unpack _); vm_compute; exact Logic.I. Qed.

Lemma mkfs_boots_witness : exists s', main demo_files mk0 = Ok tt s' /\
  forall (k : kst) pid, exists sb st, fsinit ROOTDEV (k, boot (mk_img s') pid) = Ok tt (set_sb (fun _ => sb) k, st) /\ sb_freeinodes sb = 11996.
Proof.
  destruct (mkfs_boots demo_files demo_fit) as (s' & E & H). exists s'. split; [exact E|]. intros k pid. destruct (H k pid) as (sb & st & v & Hm & _ & _ & Hi & _).
  exists sb, st. split; [exact Hm|exact Hi].
Defined.

Lemma mkfs_read_witness : exists s', main demo_files mk0 = Ok tt s' /\
  forall (k : kst) pid, k_itable k = replicate NINODE inode0 -> exists k1 st k2 st',
    fsinit ROOTDEV (k, boot (mk_img s') pid) = Ok tt (k1, st) /\ run hC (read_path [47; 99; 97; 116; 0] 1023 100) (k1, st) = Ok (Some (4, [7; 1; 2; 3])) (k2, st').
Proof.
  destruct (mkfs_read demo_files 0 (image_file ([117; 115; 101; 114; 47; 95; 99; 97; 116], Some [replicate 1024 7; [1; 2; 3]])) 1023 100) as (s' & E & H).
  - exact demo_fit.
  - exact demo_names.
  - reflexivity.
  - vm_compute. split; discriminate.
  - discriminate.
  - reflexivity.
  - exists s'. split; [exact E|exact H].
Defined.
