(* ===== verification/ShRun.v ===== *)
(** * Running a command (user/sh.c: runcmd, main)

    The shell forks, opens, duplicates and closes until each program of the
    command is executed in a process of its own.  A run is a tree of processes;
    what matters of a process is its table of open files.  The outcomes of
    fork, pipe and open are an environment, so every failure is covered. *)
From S2P Require Import Prelude Str Ulib Sh ShSpec ShPrint.

(** What a file descriptor stands for: something inherited, an opened file, or
    an end of the pipe that the process of path [p] made. *)
Inductive chan := CInherited (n : Z) | CFile (name : bytes) (mode : Z) | CRead (p : positive) | CWrite (p : positive).
Definition table : Type := list (option chan).

(** The kernel's part: the lowest free descriptor. *)
Fixpoint fd_alloc (x : chan) (t : table) : option (nat * table) :=
  match t with
  | [] => None
  | None :: t => Some (0%nat, Some x :: t)
  | Some y :: t => match fd_alloc x t with Some (n, t) => Some (S n, Some y :: t) | None => None end
  end.
Definition close (fd : nat) (t : table) : table := <[fd := None]> t.
Definition dup (fd : nat) (t : table) : table :=
  match t !! fd with
  | Some (Some x) => match fd_alloc x t with Some (_, t) => t | None => t end
  | _ => t
  end.

(** Which calls succeed, by the path of the process in the tree. *)
Record env := mkEnv { e_open : positive -> bytes -> Z -> bool; e_pipe : positive -> bool; e_fork : positive -> bool -> bool }.

(** A process forks a child and goes on, waits for a child, executes a program
    (when that fails, the process prints a message and exits), or exits. *)
Inductive ptree :=
| PExec (argv : list bytes) (t : table)
| PExit (status : Z)
| PFork (child rest : ptree)
| PWait (p : positive) (t : table) (rest : ptree).

Section Run.
  Context (e : env) (buf : bytes).

Definition open (p : positive) (file : bytes) (mode : Z) (t : table) : option table :=
  if e_open e p file mode then match fd_alloc (CFile file mode) t with Some (_, t) => Some t | None => None end else None.

Definition pipe (p : positive) (t : table) : option (nat * nat * table) :=
  if e_pipe e p then
    match fd_alloc (CRead p) t with
    | Some (r, t) => match fd_alloc (CWrite p) t with Some (w, t) => Some (r, w, t) | None => None end
    | None => None
    end
  else None.

(** [runcmd c] in the process of path [p] with open files [t]; panic and a
    failed fork1 are exit(1). *)
Fixpoint runcmd (c : cmd) (p : positive) (t : table) : ptree :=
  match c with
  | EXEC argv => match argv with [] => PExit 1 | _ => PExec (map (string_at buf) argv) t end
  | REDIR c file mode fd =>
      match open p (string_at buf file) mode (close (Z.to_nat fd) t) with
      | None => PExit 1
      | Some t => runcmd c p t
      end
  | LIST l r =>
      if e_fork e p false then PFork (runcmd l p~0 t) (PWait p t (runcmd r p~1 t)) else PExit 1
  | PIPE l r =>
      match pipe p t with
      | None => PExit 1
      | Some (p0, p1, t) =>
          if e_fork e p false then
            PFork (runcmd l p~0 (close p1 (close p0 (dup p1 (close 1 t)))))
              (if e_fork e p true then
                 PFork (runcmd r p~1 (close p1 (close p0 (dup p0 (close 0 t)))))
                   (let t := close p1 (close p0 t) in PWait p t (PWait p t (PExit 0)))
               else PExit 1)
          else PExit 1
      end
  | BACK c => if e_fork e p false then PFork (runcmd c p~0 t) (PExit 0) else PExit 1
  end.
End Run.

(** The loop of main that makes sure that three descriptors are open. *)
Fixpoint open_console (fuel : nat) (console : chan) (t : table) : table :=
  match fuel with
  | O => t
  | S fuel =>
      match fd_alloc console t with
      | None => t
      | Some (fd, t') => if (3 <=? fd)%nat then close fd t' else open_console fuel console t'
      end
  end.

(** One line of input: a change of directory by the shell itself, or a command
    for a child. *)
Inductive action := AChdir (dir : bytes) | ARun (r : outcome bytes cmd).
Definition main_line (buf : bytes) : action :=
  if (getb 0 buf =? 99) && (getb 1 buf =? 100) && (getb 2 buf =? 32) then AChdir (drop 3 (take (length buf - 1) buf))
  else ARun (parsecmd buf).

(** ** What a command means *)

(** The programs of a command, each with its standard input, output and error. *)
Section Wire.
  Context (e : env).
Fixpoint wire (u : ucmd) (p : positive) (i o r : chan) : list (list bytes * (chan * chan * chan)) :=
  match u with
  | UEXEC argv => match argv with [] => [] | _ => [(argv, (i, o, r))] end
  | UREDIR u file mode fd =>
      if e_open e p file mode then
        if fd =? 0 then wire u p (CFile file mode) o r else wire u p i (CFile file mode) r
      else []
  | UPIPE a b =>
      if e_pipe e p && e_fork e p false then
        wire a p~0 i (CWrite p) r ++ (if e_fork e p true then wire b p~1 (CRead p) o r else [])
      else []
  | ULIST a b => if e_fork e p false then wire a p~0 i o r ++ wire b p~1 i o r else []
  | UBACK u => if e_fork e p false then wire u p~0 i o r else []
  end.
End Wire.

(** Exactly three open files. *)
Definition std (i o r : chan) : table := Some i :: Some o :: Some r :: replicate 13 None.

Fixpoint execs (x : ptree) : list (list bytes * table) :=
  match x with
  | PExec argv t => [(argv, t)]
  | PExit _ => []
  | PFork a b => execs a ++ execs b
  | PWait _ _ x => execs x
  end.
Fixpoint waits (x : ptree) : list (positive * table) :=
  match x with
  | PFork a b => waits a ++ waits b
  | PWait p t x => (p, t) :: waits x
  | _ => []
  end.

Definition chan_pipe (x : chan) : option positive := match x with CRead p | CWrite p => Some p | _ => None end.

(** Redirections the parser makes concern descriptors 0 and 1. *)
Fixpoint fds_ok (c : cmd) : Prop :=
  match c with
  | EXEC _ => True
  | REDIR c _ _ fd => fds_ok c /\ (fd = 0 \/ fd = 1)
  | PIPE l r | LIST l r => fds_ok l /\ fds_ok r
  | BACK c => fds_ok c
  end.

(** Pipes named in a table were made by earlier processes. *)
Definition before (p : positive) (x : chan) : Prop := forall q, chan_pipe x = Some q -> (q < p)%positive.

(** ** Lemmas *)

Lemma redirect0 x i o r : fd_alloc x (close 0 (std i o r)) = Some (0%nat, std x o r).
Proof. done. Qed.
Lemma redirect1 x i o r : fd_alloc x (close 1 (std i o r)) = Some (1%nat, std i x r).
Proof. done. Qed.

Lemma pipe_std e p i o r : pipe e p (std i o r) =
  if e_pipe e p then Some (3%nat, 4%nat, Some i :: Some o :: Some r :: Some (CRead p) :: Some (CWrite p) :: replicate 11 None) else None.
Proof. unfold pipe. by destruct (e_pipe e p). Qed.

Lemma before_mono p q x : (p <= q)%positive -> before p x -> before q x.
Proof. intros H B y Hy. specialize (B y Hy). lia. Qed.

(** The shape of a run below a process with three open files. *)
Definition wired (e : env) (buf : bytes) (c : cmd) (p : positive) (i o r : chan) : Prop :=
  let x := runcmd e buf c p (std i o r) in
  execs x = map (fun '(argv, (i, o, r)) => (argv, std i o r)) (wire e (view (string_at buf) c) p i o r) /\
  Forall (fun '(q, t) => exists i o r, t = std i o r /\ before q i /\ before q o /\ before q r) (waits x).

Lemma runcmd_wired e buf c p i o r : fds_ok c -> before p i -> before p o -> before p r -> wired e buf c p i o r.
Proof.
  revert p i o r. induction c as [argv|c IH f m fd|a IHa b IHb|a IHa b IHb|c IH]; intros p i o r Hc Bi Bo Br; unfold wired; cbn [runcmd view wire fds_ok] in *.
  - destruct argv; split; try done; constructor.
  - destruct Hc as [Hc Hfd]. unfold open. destruct (e_open e p (string_at buf f) m); [|split; [done|constructor]].
    destruct Hfd as [-> | ->]; [change (Z.to_nat 0) with 0%nat; rewrite redirect0|change (Z.to_nat 1) with 1%nat; rewrite redirect1]; by apply IH.
  - rewrite pipe_std. destruct Hc as [Ha Hb]. destruct (e_pipe e p); [|split; [done|constructor]]. cbn [andb]. destruct (e_fork e p false); [|split; [done|constructor]].
    change (close 4 (close 3 (dup 4 (close 1 _)))) with (std i (CWrite p) r). change (close 4 (close 3 (dup 3 (close 0 _)))) with (std (CRead p) o r). change (close 4 (close 3 _)) with (std i o r).
    destruct (IHa p~0%positive i (CWrite p) r Ha) as [Ea Wa]; try (eapply before_mono; [|done]; lia); [intros q [= <-]; lia|].
    destruct (IHb p~1%positive (CRead p) o r Hb) as [Eb Wb]; try (eapply before_mono; [|done]; lia); [intros q [= <-]; lia|].
    destruct (e_fork e p true); cbn [execs waits].
    + rewrite Ea, Eb, app_nil_r, map_app. split; [done|]. apply Forall_app. split; [done|]. apply Forall_app. split; [done|]. repeat constructor; by exists i, o, r.
    + rewrite Ea, !app_nil_r. done.
  - destruct Hc as [Ha Hb]. destruct (e_fork e p false); [|split; [done|constructor]]. cbn [execs waits].
    destruct (IHa p~0%positive i o r Ha) as [Ea Wa]; try (eapply before_mono; [|done]; lia). destruct (IHb p~1%positive i o r Hb) as [Eb Wb]; try (eapply before_mono; [|done]; lia).
    rewrite Ea, Eb, map_app. split; [done|]. apply Forall_app. split; [done|]. constructor; [by exists i, o, r|done].
  - destruct (e_fork e p false); [|split; [done|constructor]]. cbn [execs waits]. rewrite !app_nil_r. apply IH; try done; (eapply before_mono; [|done]; lia).
Qed.

Lemma ok_fds f c : ucmd_ok (view f c) -> fds_ok c.
Proof.
  induction c as [argv|c IH g m fd|a IHa b IHb|a IHa b IHb|c IH]; cbn [view ucmd_ok fds_ok]; [done| |naive_solver|naive_solver|done].
  intros (H1 & _ & H3). split; [by apply IH|]. unfold redir_ok in H3. rewrite !elem_of_cons, elem_of_nil in H3. naive_solver.
Qed.

(** ** Theorems *)

(** C20. A command line does what it says: for every command [u], the shell
    accepts its text, and the processes it starts execute exactly the programs
    of [u], each with exactly its three standard files open, connected by
    pipes and redirections as the command says.  A process that waits holds no
    end of a pipe of its own, so the programs it waits for see the end of
    their input.  This holds for every pattern of failing forks, pipes and
    opens. *)
Theorem shell_runs e u i o r : ucmd_ok u -> chan_pipe i = None -> chan_pipe o = None -> chan_pipe r = None ->
  exists c buf, parsecmd (print 3 u) = Ok c buf /\
    execs (runcmd e buf c 1 (std i o r)) = map (fun '(argv, (i, o, r)) => (argv, std i o r)) (wire e u 1 i o r) /\
    forall q t x, (q, t) ∈ waits (runcmd e buf c 1 (std i o r)) -> Some x ∈ t -> chan_pipe x <> Some q.
Proof.
  intros O Hi Ho Hr. destruct (parse_print_run u O) as (c & buf & E & V). exists c, buf. split; [done|].
  assert (B : forall x, chan_pipe x = None -> before 1 x) by (intros x H q Hq; congruence). rewrite <- V in O.
  destruct (runcmd_wired e buf c 1 i o r (ok_fds _ _ O)) as [Ex Wa]; [by apply B..|]. rewrite V in Ex. split; [done|]. intros q t x Hq Hx C.
  rewrite Forall_forall in Wa. destruct (Wa _ Hq) as (i' & o' & r' & -> & Bi & Bo & Br). unfold std in Hx. rewrite !elem_of_cons in Hx.
  destruct Hx as [[= ->]|[[= ->]|[[= ->]|Hx]]]; [specialize (Bi q C)|specialize (Bo q C)|specialize (Br q C)|]; try lia. by apply elem_of_replicate in Hx as [? _].
Qed.

(** Started with its three descriptors, the shell keeps exactly these. *)
Lemma console_ready fuel x i o r : (0 < fuel)%nat -> open_console fuel x (std i o r) = std i o r.
Proof. by destruct fuel; [lia|]. Qed.

(** [cat <a|wc >b], with nothing failing. *)
Lemma shell_runs_witness : exists c buf,
  parsecmd (print 3 (UPIPE (UREDIR (UEXEC [[99; 97; 116]]) [97] 0 0) (UREDIR (UEXEC [[119; 99]]) [98] 0x601 1))) = Ok c buf /\
  execs (runcmd (mkEnv (fun _ _ _ => true) (fun _ => true) (fun _ _ => true)) buf c 1 (std (CInherited 0) (CInherited 1) (CInherited 2))) =
    [([[99; 97; 116]], std (CFile [97] 0) (CWrite 1) (CInherited 2)); ([[119; 99]], std (CRead 1) (CFile [98] 0x601) (CInherited 2))].
Proof.
  destruct (shell_runs (mkEnv (fun _ _ _ => true) (fun _ => true) (fun _ _ => true))
    (UPIPE (UREDIR (UEXEC [[99; 97; 116]]) [97] 0 0) (UREDIR (UEXEC [[119; 99]]) [98] 0x601 1)) (CInherited 0) (CInherited 1) (CInherited 2)) as (c & buf & E & H & _).
  - cbn. unfold word_ok, redir_ok. repeat split; try lia; repeat constructor; try discriminate; try reflexivity.
  - reflexivity.
  - reflexivity.
  - reflexivity.
  - exists c, buf. split; [exact E|exact H].
Defined.
