(* ===== verification/Hart.v ===== *)
(** * A RISC-V hart (kernel/riscv.h)

    The registers, the control and status registers (CSRs) and the privilege
    mode of one hart, the accessors of riscv.h, and the instructions that the
    assembly files of the kernel use, on the physical memory of the kernel
    model.  Addresses are translated by the page table in satp, as Sv39 does.
    The supervisor views of machine registers (sstatus of mstatus, sip and sie
    of mip and mie) are registers of their own: the kernel never reads through
    one what it wrote through the other.  A store to a device register is a
    store to memory. *)
From S2P Require Import Prelude Types Vm Kmem Pgtbl.

Inductive reg :=
| zero | ra | sp | gp | tp | t0 | t1 | t2 | s0 | s1 | a0 | a1 | a2 | a3 | a4 | a5 | a6 | a7
| s2 | s3 | s4 | s5 | s6 | s7 | s8 | s9 | s10 | s11 | t3 | t4 | t5 | t6.
#[export] Instance reg_eq : EqDecision reg.
Proof. solve_decision. Defined.

Inductive csr :=
| mhartid | mstatus | mepc | sstatus | sip | sie | mie | sepc | medeleg | mideleg | stvec | mtvec | pmpcfg0 | pmpaddr0
| satp | sscratch | mscratch | scause | stval | mcounteren | time.
#[export] Instance csr_eq : EqDecision csr.
Proof. solve_decision. Defined.

Inductive priv := User | Supervisor | Machine.
#[export] Instance priv_eq : EqDecision priv.
Proof. solve_decision. Defined.

Record hart := mkHart { h_regs : reg -> Z; h_csrs : csr -> Z; h_pc : Z; h_priv : priv }.

Definition upd {K V} `{EqDecision K} (k : K) (v : V) (f : K -> V) (x : K) : V := if decide (x = k) then v else f x.

(** Register zero reads as 0. *)
Definition rget (r : reg) (h : hart) : Z := match r with zero => 0 | _ => h_regs h r end.
Definition rset (r : reg) (x : Z) (h : hart) : hart := mkHart (upd r x (h_regs h)) (h_csrs h) (h_pc h) (h_priv h).
Definition cset (c : csr) (x : Z) (h : hart) : hart := mkHart (h_regs h) (upd c x (h_csrs h)) (h_pc h) (h_priv h).
Definition pcset (x : Z) (h : hart) : hart := mkHart (h_regs h) (h_csrs h) x (h_priv h).
Definition pset (p : priv) (h : hart) : hart := mkHart (h_regs h) (h_csrs h) (h_pc h) p.

(** ** riscv.h *)

Definition r_mhartid (h : hart) : Z := h_csrs h mhartid.

Definition MSTATUS_MPP_MASK : Z := Z.shiftl 3 11.
Definition MSTATUS_MPP_S : Z := Z.shiftl 1 11.
Definition MSTATUS_MIE : Z := Z.shiftl 1 3.
Definition r_mstatus (h : hart) : Z := h_csrs h mstatus.
Definition w_mstatus (x : Z) : hart -> hart := cset mstatus x.
Definition w_mepc (x : Z) : hart -> hart := cset mepc x.

Definition SSTATUS_SPP : Z := Z.shiftl 1 8.
Definition SSTATUS_SPIE : Z := Z.shiftl 1 5.
Definition SSTATUS_SIE : Z := Z.shiftl 1 1.
Definition r_sstatus (h : hart) : Z := h_csrs h sstatus.
Definition w_sstatus (x : Z) : hart -> hart := cset sstatus x.
Definition r_sip (h : hart) : Z := h_csrs h sip.
Definition w_sip (x : Z) : hart -> hart := cset sip x.

Definition SIE_SEIE : Z := Z.shiftl 1 9.
Definition SIE_STIE : Z := Z.shiftl 1 5.
Definition SIE_SSIE : Z := Z.shiftl 1 1.
Definition r_sie (h : hart) : Z := h_csrs h sie.
Definition w_sie (x : Z) : hart -> hart := cset sie x.
Definition MIE_MTIE : Z := Z.shiftl 1 7.
Definition r_mie (h : hart) : Z := h_csrs h mie.
Definition w_mie (x : Z) : hart -> hart := cset mie x.
Definition w_sepc (x : Z) : hart -> hart := cset sepc x.
Definition r_sepc (h : hart) : Z := h_csrs h sepc.
Definition r_medeleg (h : hart) : Z := h_csrs h medeleg.
Definition w_medeleg (x : Z) : hart -> hart := cset medeleg x.
Definition r_mideleg (h : hart) : Z := h_csrs h mideleg.
Definition w_mideleg (x : Z) : hart -> hart := cset mideleg x.
Definition w_stvec (x : Z) : hart -> hart := cset stvec x.
Definition r_stvec (h : hart) : Z := h_csrs h stvec.
Definition w_mtvec (x : Z) : hart -> hart := cset mtvec x.
Definition w_pmpcfg0 (x : Z) : hart -> hart := cset pmpcfg0 x.
Definition w_pmpaddr0 (x : Z) : hart -> hart := cset pmpaddr0 x.

Definition SATP_SV39 : Z := Z.shiftl 8 60.
Definition MAKE_SATP (pagetable : Z) : Z := Z.lor SATP_SV39 (Z.shiftr pagetable 12).
Definition w_satp (x : Z) : hart -> hart := cset satp x.
Definition r_satp (h : hart) : Z := h_csrs h satp.
Definition w_sscratch (x : Z) : hart -> hart := cset sscratch x.
Definition w_mscratch (x : Z) : hart -> hart := cset mscratch x.
Definition r_scause (h : hart) : Z := h_csrs h scause.
Definition r_stval (h : hart) : Z := h_csrs h stval.
Definition w_mcounteren (x : Z) : hart -> hart := cset mcounteren x.
Definition r_mcounteren (h : hart) : Z := h_csrs h mcounteren.
Definition r_time (h : hart) : Z := h_csrs h time.

Definition intr_on (h : hart) : hart := w_sstatus (Z.lor (r_sstatus h) SSTATUS_SIE) h.
Definition intr_off (h : hart) : hart := w_sstatus (Z.land (r_sstatus h) (Z.lnot SSTATUS_SIE)) h.
Definition intr_get (h : hart) : bool := negb (Z.land (r_sstatus h) SSTATUS_SIE =? 0).

Definition r_sp (h : hart) : Z := rget sp h.
Definition r_tp (h : hart) : Z := rget tp h.
Definition w_tp (x : Z) : hart -> hart := rset tp x.
Definition r_ra (h : hart) : Z := rget ra h.

(** ** Memory accesses *)

(** The physical address of a virtual one: none in machine mode or with paging
    off, else by the page table of satp; supervisor code may not touch user
    pages. *)
Definition satp_table (x : Z) : Z := Z.shiftl (Z.land x (Z.ones 44)) 12.
Definition xlate (perm : Z) (h : hart) (m : pmem) (va : Z) : option Z :=
  if bool_decide (h_priv h = Machine) || (r_satp h =? 0) then Some va
  else if (va <? 0) || (MAXVA <=? va) then None
  else
    match trans m (satp_table (r_satp h)) va with
    | Some e =>
        if (Z.land e perm =? 0) || negb (Bool.eqb (Z.land e PTE_U =? 0) (bool_decide (h_priv h = Supervisor))) then None
        else Some (PTE2PA e + va mod PGSIZE)
    | None => None
    end.

Definition cell (m : pmem) (a : Z) : Z := le_dec (pm_read m a 8).
Definition put_cell (a x : Z) (m : pmem) : pmem := pm_write a (le_enc 8 x) m.

(** ** Instructions *)

(** [call], [ret] and the returns from traps end a sequence. *)
Inductive instr :=
| SD (r : reg) (off : Z) (base : reg)
| LD (r : reg) (off : Z) (base : reg)
| ADDI (rd rs : reg) (imm : Z)
| ADD (rd rs1 rs2 : reg)
| MUL (rd rs1 rs2 : reg)
| LI (rd : reg) (imm : Z)
| CSRRW (rd : reg) (c : csr) (rs : reg)
| CSRR (rd : reg) (c : csr)
| CSRW (c : csr) (rs : reg)
| SFENCE_VMA
| JR (r : reg)
| SRET
| MRET.

(** sret: to the mode in SPP, with interrupts as in SPIE. *)
Definition sret_status (s : Z) : Z :=
  Z.lor (Z.lor (Z.land s (Z.lnot (Z.lor (Z.lor SSTATUS_SPP SSTATUS_SPIE) SSTATUS_SIE)))
               (if Z.land s SSTATUS_SPIE =? 0 then 0 else SSTATUS_SIE)) SSTATUS_SPIE.
Definition sret_step (h : hart) : hart :=
  pset (if Z.land (r_sstatus h) SSTATUS_SPP =? 0 then User else Supervisor) (pcset (r_sepc h) (w_sstatus (sret_status (r_sstatus h)) h)).

(** mret to the mode in MPP, as far as the kernel uses it. *)
Definition mret_step (h : hart) : hart :=
  let p := Z.land (r_mstatus h) MSTATUS_MPP_MASK in
  pset (if p =? 0 then User else if p =? MSTATUS_MPP_S then Supervisor else Machine) (pcset (h_csrs h mepc) h).

Definition step (i : instr) (s : hart * pmem) : option (hart * pmem) :=
  let (h, m) := s in
  match i with
  | SD r off b => match xlate PTE_W h m (u64 (rget b h + off)) with Some a => Some (h, put_cell a (rget r h) m) | None => None end
  | LD r off b => match xlate PTE_R h m (u64 (rget b h + off)) with Some a => Some (rset r (cell m a) h, m) | None => None end
  | ADDI rd rs imm => Some (rset rd (u64 (rget rs h + imm)) h, m)
  | ADD rd rs1 rs2 => Some (rset rd (u64 (rget rs1 h + rget rs2 h)) h, m)
  | MUL rd rs1 rs2 => Some (rset rd (u64 (rget rs1 h * rget rs2 h)) h, m)
  | LI rd imm => Some (rset rd imm h, m)
  | CSRRW rd c rs => Some (rset rd (h_csrs h c) (cset c (rget rs h) h), m)
  | CSRR rd c => Some (rset rd (h_csrs h c) h, m)
  | CSRW c rs => Some (cset c (rget rs h) h, m)
  | SFENCE_VMA => Some (h, m)
  | JR r => Some (pcset (rget r h) h, m)
  | SRET => Some (sret_step h, m)
  | MRET => Some (mret_step h, m)
  end.

Fixpoint steps (l : list instr) (s : hart * pmem) : option (hart * pmem) :=
  match l with
  | [] => Some s
  | i :: l => match step i s with Some s => steps l s | None => None end
  end.

(** A trap taken to supervisor mode. *)
Definition trap_status (s : Z) (p : priv) : Z :=
  Z.lor (Z.lor (Z.land s (Z.lnot (Z.lor (Z.lor SSTATUS_SPP SSTATUS_SPIE) SSTATUS_SIE)))
               (if Z.land s SSTATUS_SIE =? 0 then 0 else SSTATUS_SPIE))
        (if bool_decide (p = Supervisor) then SSTATUS_SPP else 0).
Definition take_trap (cause val : Z) (h : hart) : hart :=
  pset Supervisor (pcset (r_stvec h) (cset stval val (cset scause cause (cset sepc (h_pc h) (w_sstatus (trap_status (r_sstatus h) (h_priv h)) h))))).

(** ** Lemmas *)

Lemma upd_eq {K V} `{EqDecision K} (k : K) (v : V) f : upd k v f k = v.
Proof. unfold upd. by rewrite decide_True. Qed.
Lemma upd_ne {K V} `{EqDecision K} (k x : K) (v : V) f : x <> k -> upd k v f x = f x.
Proof. intros. unfold upd. by rewrite decide_False. Qed.

Lemma cell_put a b x m : pages_ok m -> a mod 8 = 0 -> b mod 8 = 0 -> 0 <= x < 2 ^ 64 -> cell (put_cell a x m) b = if decide (b = a) then x else cell m b.
Proof.
  intros P Ha Hb Hx.
  assert (F : forall y, y mod 8 = 0 -> y = pg_of y + 8 * (y mod PGSIZE / 8) /\ 0 <= y mod PGSIZE / 8 < 512 /\ pg_of y mod PGSIZE = 0).
  { intros y Hy. unfold pg_of. pose proof (Z.div_mod y PGSIZE ltac:(done)) as D. pose proof (Z.mod_pos_bound y PGSIZE ltac:(done)). pose proof (Z.div_mod (y mod PGSIZE) 8 ltac:(done)) as D8.
    assert (E8 : y mod PGSIZE mod 8 = 0) by (rewrite Z.mod_mod_divide; [done|by exists 512]).
    split; [lia|]. split; [split; [lia|]; apply Z.div_lt_upper_bound; lia|]. replace (y - y mod PGSIZE) with (PGSIZE * (y / PGSIZE)) by lia. rewrite Z.mul_comm. by apply Z.mod_mul. }
  destruct (F a Ha) as (Ea & Ia & Pa), (F b Hb) as (Eb & Ib & Pb). set (i := a mod PGSIZE / 8) in *. set (j := b mod PGSIZE / 8) in *.
  assert (G : forall m' p n, p mod PGSIZE = 0 -> 0 <= n < 512 -> cell m' (p + 8 * n) = word m' p n).
  { intros m' p n Hp Hn. unfold cell, pm_read, word. destruct (pg_of_word p n Hp Hn) as [-> ->]. done. }
  assert (W : put_cell a x m = put_word (pg_of a) i x m) by (rewrite Ea at 1; unfold put_cell, pm_write, put_word; by destruct (pg_of_word (pg_of a) i Pa Ia) as [-> ->]).
  rewrite W, Eb, !G, word_put by done. destruct (decide (pg_of b + 8 * j = a)) as [E|N].
  - rewrite decide_True; [done|]. assert (b = a) by lia. subst b. done.
  - rewrite decide_False; [done|]. intros [E1 E2]. apply N. rewrite Ea, E1, E2. done.
Qed.
