(* ===== verification/Asm.v ===== *)
(** * Assembly code (kernel/entry.S, trampoline.S, kernelvec.S, swtch.S)

    The trap entries and exits, the machine-mode timer interrupt and the
    context switch, instruction by instruction, and what they do to the
    registers and the memory. *)
From S2P Require Import Prelude Types Vm Kmem Pgtbl Uvm Hart.

(** The first code of each hart: a stack for C. *)
Definition entry (stack0 : Z) : list instr :=
  [LI sp stack0; LI a0 (1024 * 4); CSRR a1 mhartid; ADDI a1 a1 1; MUL a0 a0 a1; ADD sp sp a0].

(** From user space, with the user page table; ends in the jump to usertrap. *)
Definition uservec : list instr :=
  [CSRRW a0 sscratch a0; SD ra 40 a0; SD sp 48 a0; SD gp 56 a0; SD tp 64 a0; SD t0 72 a0; SD t1 80 a0;
   SD t2 88 a0; SD s0 96 a0; SD s1 104 a0; SD a1 120 a0; SD a2 128 a0; SD a3 136 a0; SD a4 144 a0;
   SD a5 152 a0; SD a6 160 a0; SD a7 168 a0; SD s2 176 a0; SD s3 184 a0; SD s4 192 a0; SD s5 200 a0;
   SD s6 208 a0; SD s7 216 a0; SD s8 224 a0; SD s9 232 a0; SD s10 240 a0; SD s11 248 a0; SD t3 256 a0;
   SD t4 264 a0; SD t5 272 a0; SD t6 280 a0; CSRR t0 sscratch; SD t0 112 a0; LD sp 8 a0; LD tp 32 a0;
   LD t0 16 a0; LD t1 0 a0; CSRW satp t1; SFENCE_VMA; JR t0].

(** userret(TRAPFRAME, satp): back to user space. *)
Definition userret : list instr :=
  [CSRW satp a1; SFENCE_VMA; LD t0 112 a0; CSRW sscratch t0; LD ra 40 a0; LD sp 48 a0; LD gp 56 a0;
   LD tp 64 a0; LD t0 72 a0; LD t1 80 a0; LD t2 88 a0; LD s0 96 a0; LD s1 104 a0; LD a1 120 a0;
   LD a2 128 a0; LD a3 136 a0; LD a4 144 a0; LD a5 152 a0; LD a6 160 a0; LD a7 168 a0; LD s2 176 a0;
   LD s3 184 a0; LD s4 192 a0; LD s5 200 a0; LD s6 208 a0; LD s7 216 a0; LD s8 224 a0; LD s9 232 a0;
   LD s10 240 a0; LD s11 248 a0; LD t3 256 a0; LD t4 264 a0; LD t5 272 a0; LD t6 280 a0;
   CSRRW a0 sscratch a0; SRET].

(** Traps from the kernel, up to the call of kerneltrap. *)
Definition kernelvec_entry : list instr :=
  [ADDI sp sp (-256); SD ra 0 sp; SD sp 8 sp; SD gp 16 sp; SD tp 24 sp; SD t0 32 sp; SD t1 40 sp;
   SD t2 48 sp; SD s0 56 sp; SD s1 64 sp; SD a0 72 sp; SD a1 80 sp; SD a2 88 sp; SD a3 96 sp;
   SD a4 104 sp; SD a5 112 sp; SD a6 120 sp; SD a7 128 sp; SD s2 136 sp; SD s3 144 sp; SD s4 152 sp;
   SD s5 160 sp; SD s6 168 sp; SD s7 176 sp; SD s8 184 sp; SD s9 192 sp; SD s10 200 sp; SD s11 208 sp;
   SD t3 216 sp; SD t4 224 sp; SD t5 232 sp; SD t6 240 sp].

(** kernelvec after kerneltrap; tp is not restored, as the process may have moved. *)
Definition kernelvec_exit : list instr :=
  [LD ra 0 sp; LD sp 8 sp; LD gp 16 sp; LD t0 32 sp; LD t1 40 sp; LD t2 48 sp; LD s0 56 sp;
   LD s1 64 sp; LD a0 72 sp; LD a1 80 sp; LD a2 88 sp; LD a3 96 sp; LD a4 104 sp; LD a5 112 sp;
   LD a6 120 sp; LD a7 128 sp; LD s2 136 sp; LD s3 144 sp; LD s4 152 sp; LD s5 160 sp; LD s6 168 sp;
   LD s7 176 sp; LD s8 184 sp; LD s9 192 sp; LD s10 200 sp; LD s11 208 sp; LD t3 216 sp; LD t4 224 sp;
   LD t5 232 sp; LD t6 240 sp; ADDI sp sp 256; SRET].

(** The timer interrupt in machine mode. *)
Definition timervec : list instr :=
  [CSRRW a0 mscratch a0; SD a1 0 a0; SD a2 8 a0; SD a3 16 a0; LD a1 24 a0; LD a2 32 a0; LD a3 0 a1;
   ADD a3 a3 a2; SD a3 0 a1; LI a1 2; CSRW sip a1; LD a3 16 a0; LD a2 8 a0; LD a1 0 a0;
   CSRRW a0 mscratch a0; MRET].

(** swtch(old, new) *)
Definition swtch : list instr :=
  [SD ra 0 a0; SD sp 8 a0; SD s0 16 a0; SD s1 24 a0; SD s2 32 a0; SD s3 40 a0; SD s4 48 a0;
   SD s5 56 a0; SD s6 64 a0; SD s7 72 a0; SD s8 80 a0; SD s9 88 a0; SD s10 96 a0; SD s11 104 a0;
   LD ra 0 a1; LD sp 8 a1; LD s0 16 a1; LD s1 24 a1; LD s2 32 a1; LD s3 40 a1; LD s4 48 a1;
   LD s5 56 a1; LD s6 64 a1; LD s7 72 a1; LD s8 80 a1; LD s9 88 a1; LD s10 96 a1; LD s11 104 a1; JR ra].

(** ** Saving and restoring a frame *)

Definition saves (b : reg) (l : list (reg * Z)) : list instr := map (fun x => SD (fst x) (snd x) b) l.
Definition loads (b : reg) (l : list (reg * Z)) : list instr := map (fun x => LD (fst x) (snd x) b) l.

Definition regs_ok (h : hart) : Prop := forall r, 0 <= rget r h < 2 ^ 64.

(** [off]s from register [b] are the cells at [pa], in the pages [pgs], as long
    as only these pages change. *)
Definition framed (perm : Z) (h : hart) (m : pmem) (b : reg) (pa : Z) (pgs : list Z) (offs : list Z) : Prop :=
  Forall (fun off => (pa + off) mod 8 = 0 /\ pg_of (pa + off) ∈ pgs /\
    forall m', same_pages m m' pgs -> xlate perm h m' (u64 (rget b h + off)) = Some (pa + off)) offs.

Lemma steps_app l l' s : steps (l ++ l') s = match steps l s with Some s => steps l' s | None => None end.
Proof. revert s. induction l as [|i l IH]; intros s; [done|]. cbn [app steps]. destruct (step i s); [apply IH|done]. Qed.

Lemma steps_app_ok l l' s s' : steps l s = Some s' -> steps (l ++ l') s = steps l' s'.
Proof. intros E. by rewrite steps_app, E. Qed.

Lemma xlate_ext perm h h' m va : r_satp h' = r_satp h -> h_priv h' = h_priv h -> xlate perm h' m va = xlate perm h m va.
Proof. intros E1 E2. unfold xlate. by rewrite E1, E2. Qed.

Lemma same_pages_trans m1 m2 m3 l : same_pages m1 m2 l -> same_pages m2 m3 l -> same_pages m1 m3 l.
Proof. intros H1 H2 a Ha. by rewrite H2, H1. Qed.

Lemma framed_ext perm h h' m m' b pa pgs offs : framed perm h m b pa pgs offs -> same_pages m m' pgs ->
  r_satp h' = r_satp h -> h_priv h' = h_priv h -> rget b h' = rget b h -> framed perm h' m' b pa pgs offs.
Proof.
  intros F S E1 E2 E3. eapply Forall_impl; [exact F|]. intros off (H1 & H2 & H3). split; [done|]. split; [done|]. intros m2 S2.
  rewrite (xlate_ext _ h h'), E3 by done. apply H3. by eapply same_pages_trans.
Qed.

Lemma put_cell_same a x m pgs : pg_of a ∈ pgs -> same_pages m (put_cell a x m) pgs.
Proof. intros Ha y Hy. unfold put_cell, pm_write. rewrite page_insert, decide_False; [done|]. by intros ->. Qed.

Lemma put_cell_pages a x m : pages_ok m -> a mod 8 = 0 -> pages_ok (put_cell a x m).
Proof.
  intros P Ha. unfold put_cell, pm_write. apply pages_ok_insert; [done|]. pose proof (P (pg_of a)) as L.
  pose proof (Z.mod_pos_bound a PGSIZE ltac:(done)) as B. assert (E : a mod PGSIZE mod 8 = 0) by (rewrite Z.mod_mod_divide; [done|by exists 512]).
  pose proof (Z.div_mod (a mod PGSIZE) 8 ltac:(done)) as D. rewrite length_splice; [lia|lia|]. unfold zlen. rewrite length_le_enc, L. lia.
Qed.

Record saved (h : hart) (m m' : pmem) (pa : Z) (pgs : list Z) (l : list (reg * Z)) : Prop := {
  sv_pages : pages_ok m';
  sv_same : same_pages m m' pgs;
  sv_in : forall r off, (r, off) ∈ l -> cell m' (pa + off) = rget r h;
  sv_out : forall a, a mod 8 = 0 -> (forall r off, (r, off) ∈ l -> a <> pa + off) -> cell m' a = cell m a
}.

Lemma saves_run b pa pgs l h m : pages_ok m -> regs_ok h -> NoDup (map snd l) -> framed PTE_W h m b pa pgs (map snd l) ->
  exists m', steps (saves b l) (h, m) = Some (h, m') /\ saved h m m' pa pgs l.
Proof.
  revert m. induction l as [|[r off] l IH]; intros m P R N F.
  - exists m. split; [done|]. split; [done|done|set_solver|done].
  - cbn [map snd] in *. apply Forall_cons in F as [(H1 & H2 & H3) F]. apply NoDup_cons in N as [N1 N].
    set (m1 := put_cell (pa + off) (rget r h) m). assert (S1 : same_pages m m1 pgs) by (by apply put_cell_same).
    destruct (IH m1) as (m' & E & [P' S' I' O']); [by apply put_cell_pages|done|done|by eapply framed_ext|].
    exists m'. split; [cbn [saves map fst snd steps step]; rewrite H3 by done; exact E|].
    assert (Hoff : forall r' off', (r', off') ∈ l -> pa + off <> pa + off').
    { intros r' off' Hin ?. apply N1. replace off with off' by lia. change off' with (snd (r', off')). apply list_elem_of_In, in_map, list_elem_of_In. exact Hin. }
    split; [done|by eapply same_pages_trans| |].
    + intros r' off' Hin. apply elem_of_cons in Hin as [[= -> ->]|Hin]; [|by apply I'].
      rewrite O' by done. unfold m1. rewrite cell_put, decide_True by done. done.
    + intros a Ha Hn. rewrite O' by (try done; intros; apply (Hn r0); by apply elem_of_cons; right). unfold m1. rewrite cell_put by done. rewrite decide_False; [done|]. apply (Hn r). by apply elem_of_cons; left.
Qed.

Record loaded (h h' : hart) (m : pmem) (pa : Z) (l : list (reg * Z)) : Prop := {
  ld_csrs : h_csrs h' = h_csrs h;
  ld_pc : h_pc h' = h_pc h;
  ld_priv : h_priv h' = h_priv h;
  ld_in : forall r off, (r, off) ∈ l -> rget r h' = cell m (pa + off);
  ld_out : forall r, r ∉ map fst l -> rget r h' = rget r h
}.

Lemma rget_rset r x h q : r <> zero -> rget q (rset r x h) = if decide (q = r) then x else rget q h.
Proof.
  intros Hr. destruct (decide (q = r)) as [->|N].
  - destruct r; try done; cbn [rget rset h_regs]; by rewrite upd_eq.
  - destruct q; try done; cbn [rget rset h_regs]; by rewrite upd_ne.
Qed.

(** The base register may be restored to its own value. *)
Lemma loads_run b pa pgs l h m : NoDup (map fst l) -> zero ∉ map fst l -> framed PTE_R h m b pa pgs (map snd l) ->
  (forall off, (b, off) ∈ l -> cell m (pa + off) = rget b h) ->
  exists h', steps (loads b l) (h, m) = Some (h', m) /\ loaded h h' m pa l.
Proof.
  revert h. induction l as [|[r off] l IH]; intros h N Z0 F B.
  - exists h. split; [done|]. split; try done. set_solver.
  - cbn [map fst snd] in *. apply Forall_cons in F as [(H1 & H2 & H3) F]. apply NoDup_cons in N as [N1 N]. apply not_elem_of_cons in Z0 as [Z1 Z0].
    set (h1 := rset r (cell m (pa + off)) h).
    assert (Eb : rget b h1 = rget b h) by (unfold h1; rewrite rget_rset by done; destruct (decide (b = r)) as [->|]; [apply B; by apply elem_of_cons; left|done]).
    destruct (IH h1) as (h' & E & [C' PC' PR' I' O']); [done|done|by eapply framed_ext|intros off' Hin; rewrite Eb; apply B; by apply elem_of_cons; right|].
    exists h'. split; [cbn [loads map fst snd steps step]; rewrite H3 by done; exact E|]. split; [done|done|done| |].
    + intros r' off' Hin. apply elem_of_cons in Hin as [[= -> ->]|Hin]; [|by apply I']. rewrite O' by done. unfold h1. rewrite rget_rset, decide_True by done. done.
    + intros q Hq. apply not_elem_of_cons in Hq as [Hq1 Hq2]. rewrite O' by done. unfold h1. by rewrite rget_rset, decide_False by done.
Qed.

(** ** The trap frame in user space *)

(** The page table of satp value [x] maps TRAPFRAME to page [tf], readable and
    writable by the supervisor, and [tf] is not one of its tables. *)
Record tf_ok (x : Z) (m : pmem) (tf : Z) : Prop := {
  to_satp : x <> 0;
  to_aligned : tf mod PGSIZE = 0;
  to_inner : tf ∉ pinner 3 m (satp_table x);
  to_map : exists e, trans m (satp_table x) TRAPFRAME = Some e /\ PTE2PA e = tf /\ PTE_FLAGS e = Z.lor (Z.lor PTE_R PTE_W) PTE_V
}.

Lemma flag_land e p : 0 <= p < 1024 -> Z.land e p = Z.land (PTE_FLAGS e) p.
Proof.
  intros Hp. unfold PTE_FLAGS. rewrite <- Z.land_assoc. f_equal. change 0x3FF with (Z.ones 10). rewrite Z.land_comm, Z.land_ones by lia. symmetry. by apply Z.mod_small.
Qed.

Lemma tf_ok_same x m m' tf : tf_ok x m tf -> same_pages m m' [tf] -> tf_ok x m' tf.
Proof.
  intros [T1 T2 T3 T4] S. assert (F : forall c, c ∈ pinner 3 m (satp_table x) -> page m' c = page m c) by (intros c Hc; apply S; intros ->%list_elem_of_singleton; done).
  split; [done|done| |].
  - by rewrite (proj2 (pframe 3 m m' _ F)).
  - unfold trans. by rewrite (proj2 (tr_frame 2 m m' _ _ F)).
Qed.

Lemma tf_xlate x m tf h perm off : tf_ok x m tf -> r_satp h = x -> h_priv h = Supervisor -> perm = PTE_R \/ perm = PTE_W -> 0 <= off < PGSIZE ->
  xlate perm h m (u64 (TRAPFRAME + off)) = Some (tf + off).
Proof.
  intros [T1 T2 T3 (e & E & Ea & Ef)] Hx Hp Hperm Ho. unfold xlate. rewrite Hp, Hx, (proj2 (Z.eqb_neq _ _) T1). cbn [bool_decide orb].
  assert (Eu : u64 (TRAPFRAME + off) = TRAPFRAME + off) by (unfold u64; apply Z.mod_small; lia). rewrite Eu.
  destruct (Z.ltb_spec (TRAPFRAME + off) 0); [lia|]. destruct (Z.leb_spec MAXVA (TRAPFRAME + off)); [lia|]. cbn [orb].
  assert (Ed : PGROUNDDOWN (TRAPFRAME + off) = TRAPFRAME) by (apply page_down; [done|lia]). rewrite trans_down, Ed, E by lia.
  rewrite !(flag_land e), Ef by (destruct Hperm as [-> | ->]; done). rewrite Ea. replace ((TRAPFRAME + off) mod PGSIZE) with off; [by destruct Hperm as [-> | ->]|].
  rewrite Z.add_mod by done. change (TRAPFRAME mod PGSIZE) with 0. rewrite Z.add_0_l, Z.mod_mod by done. symmetry. by apply Z.mod_small.
Qed.

Lemma tf_mod8 x m tf off : tf_ok x m tf -> off mod 8 = 0 -> (tf + off) mod 8 = 0.
Proof.
  intros T Ho. pose proof (to_aligned _ _ _ T) as Ha. rewrite Z.add_mod, Ho, Z.add_0_r, Z.mod_mod by done. rewrite (Z.div_mod tf PGSIZE), Ha, Z.add_0_r by done. change PGSIZE with (512 * 8).
  by rewrite (Z.mul_comm (512 * 8)), Z.mul_assoc, Z.mod_mul.
Qed.

Lemma tf_framed x m tf h perm b offs : tf_ok x m tf -> r_satp h = x -> h_priv h = Supervisor -> rget b h = TRAPFRAME -> perm = PTE_R \/ perm = PTE_W ->
  Forall (fun off => 0 <= off < PGSIZE /\ off mod 8 = 0) offs -> framed perm h m b tf [tf] offs.
Proof.
  intros T Hx Hp Hb Hperm F. eapply Forall_impl; [exact F|]. intros off [Ho Hm]. pose proof (to_aligned _ _ _ T) as Ha. split; [|split].
  - by eapply tf_mod8.
  - apply list_elem_of_singleton. unfold pg_of. rewrite Z.add_mod, Ha, Z.add_0_l, Z.mod_mod, Z.mod_small by (done || lia). lia.
  - intros m' S. rewrite Hb. apply (tf_xlate x m'); try done. by eapply tf_ok_same.
Qed.

(** The slots of struct trapframe that hold user registers, without a0. *)
Definition tf_slots : list (reg * Z) :=
  [(ra, 40); (sp, 48); (gp, 56); (tp, 64); (t0, 72); (t1, 80); (t2, 88); (s0, 96); (s1, 104); (a1, 120); (a2, 128);
   (a3, 136); (a4, 144); (a5, 152); (a6, 160); (a7, 168); (s2, 176); (s3, 184); (s4, 192); (s5, 200); (s6, 208);
   (s7, 216); (s8, 224); (s9, 232); (s10, 240); (s11, 248); (t3, 256); (t4, 264); (t5, 272); (t6, 280)].

(** The frame at [tf] holds the user registers of [h]. *)
Definition tf_holds (m : pmem) (tf : Z) (h : hart) : Prop :=
  forall r off, (r, off) ∈ (a0, 112) :: tf_slots -> cell m (tf + off) = rget r h.

Ltac decided := apply (bool_decide_unpack _); vm_compute; exact Logic.I.

Lemma tf_slots_offs : NoDup (map snd ((a0, 112) :: tf_slots)) /\ Forall (fun off => 0 <= off < PGSIZE /\ off mod 8 = 0) (map snd ((a0, 112) :: tf_slots)).
Proof. split; decided. Qed.

Lemma tf_slots_regs : NoDup (map fst ((a0, 112) :: tf_slots)) /\ forall r, r <> zero -> r ∈ map fst ((a0, 112) :: tf_slots).
Proof. split; [decided|]. intros r Hr. destruct r; try done; decided. Qed.

Record entered (h h' : hart) (m m' : pmem) (tf : Z) : Prop := {
  en_holds : tf_holds m' tf h;
  en_pages : pages_ok m';
  en_same : same_pages m m' [tf];
  en_head : Forall (fun off => cell m' (tf + off) = cell m (tf + off)) [0; 8; 16; 24; 32];
  en_sp : rget sp h' = cell m (tf + 8);
  en_tp : rget tp h' = cell m (tf + 32);
  en_satp : r_satp h' = cell m tf;
  en_pc : h_pc h' = cell m (tf + 16);
  en_priv : h_priv h' = h_priv h;
  en_csrs : forall c, c <> satp -> c <> sscratch -> h_csrs h' c = h_csrs h c
}.

Lemma rset_ok r x h : r <> zero -> 0 <= x < 2 ^ 64 -> regs_ok h -> regs_ok (rset r x h).
Proof. intros Hr Hx R q. rewrite rget_rset by done. destruct (decide (q = r)); [done|apply R]. Qed.

Lemma head_apart tf a r off : a ∈ [0; 8; 16; 24; 32] -> (r, off) ∈ (a0, 112) :: tf_slots -> tf + a <> tf + off.
Proof.
  intros Ha Hin E. assert (a = off) by lia. subst off. assert (H : a ∈ map snd ((a0, 112) :: tf_slots)) by (change a with (snd (r, a)); apply list_elem_of_In, in_map, list_elem_of_In; exact Hin).
  revert a r E Ha Hin H. refine (fun a r _ Ha _ H => _). repeat (apply elem_of_cons in Ha as [->|Ha]; [apply (bool_decide_pack _) in H; vm_compute in H; done|]). by apply elem_of_nil in Ha.
Qed.

Lemma slot_facts r off : (r, off) ∈ tf_slots -> r <> a0 /\ off mod 8 = 0 /\ off <> 112.
Proof. assert (H : Forall (fun x => fst x <> a0 /\ snd x mod 8 = 0 /\ snd x <> 112) tf_slots) by decided. rewrite Forall_forall in H. apply (H (r, off)). Qed.

Lemma uservec_run h m tf : pages_ok m -> regs_ok h -> h_priv h = Supervisor -> h_csrs h sscratch = TRAPFRAME -> tf_ok (r_satp h) m tf ->
  exists h' m', steps uservec (h, m) = Some (h', m') /\ entered h h' m m' tf.
Proof.
  intros P R Hp Hs T. set (h1 := rset a0 TRAPFRAME (cset sscratch (rget a0 h) h)). set (h2 := rset t0 (rget a0 h) h1).
  assert (G1 : forall q, q <> a0 -> rget q h1 = rget q h) by (intros q Hq; unfold h1; by rewrite rget_rset, decide_False).
  assert (R1 : regs_ok h1) by (apply rset_ok; [done|lia|exact R]). assert (R2 : regs_ok h2) by (by apply rset_ok).
  destruct tf_slots_offs as [N F]. cbn [map snd] in N, F. apply NoDup_cons in N as [N1 N2]. apply Forall_cons in F as [F1 F2].
  destruct (saves_run a0 tf [tf] tf_slots h1 m P R1 N2) as (m1 & E1 & V1); [by eapply tf_framed; eauto; left|]. pose proof (tf_ok_same _ _ _ _ T (sv_same _ _ _ _ _ _ V1)) as T1.
  destruct (saves_run a0 tf [tf] [(t0, 112)] h2 m1 (sv_pages _ _ _ _ _ _ V1) R2) as (m2 & E2 & V2); [apply NoDup_singleton|apply (tf_framed (r_satp h)); try done; [by right|by constructor]|].
  pose proof (tf_ok_same _ _ _ _ T1 (sv_same _ _ _ _ _ _ V2)) as T2.
  destruct (loads_run a0 tf [tf] [(sp, 8); (tp, 32); (t0, 16); (t1, 0)] h2 m2) as (h3 & E3 & L); [decided|decided|apply (tf_framed (r_satp h)); try done; [by left|decided]|set_solver|].
  set (h4 := pcset (rget t0 h3) (cset satp (rget t1 h3) h3)). exists h4, m2. split.
  - change uservec with ([CSRRW a0 sscratch a0] ++ saves a0 tf_slots ++ [CSRR t0 sscratch] ++ saves a0 [(t0, 112)] ++ loads a0 [(sp, 8); (tp, 32); (t0, 16); (t1, 0)] ++ [CSRW satp t1; SFENCE_VMA; JR t0]).
    assert (E0 : steps [CSRRW a0 sscratch a0] (h, m) = Some (h1, m)) by (cbn [steps step]; by rewrite Hs).
    rewrite (steps_app_ok _ _ _ _ E0), (steps_app_ok _ _ _ _ E1), (steps_app_ok [CSRR t0 sscratch] _ (h1, m1) (h2, m1) eq_refl), (steps_app_ok _ _ _ _ E2), (steps_app_ok _ _ _ _ E3). done.
  - destruct V1 as [P1 S1 I1 O1], V2 as [P2 S2 I2 O2], L as [C PC PR I O]. pose proof (fun off => tf_mod8 (r_satp h) m tf off T) as M8.
    assert (Hd : forall a, a ∈ [0; 8; 16; 24; 32] -> cell m2 (tf + a) = cell m (tf + a)).
    { intros a Ha. assert (a mod 8 = 0) by (revert a Ha; apply Forall_forall; decided). rewrite O2, O1; try (by apply M8); [done| |].
      - intros r off Hin. apply (head_apart tf a r off Ha). by apply elem_of_cons; right.
      - intros r off Hin. apply list_elem_of_singleton in Hin as [= -> ->]. apply (head_apart tf a a0 112 Ha). by apply elem_of_cons; left. }
    split; try done.
    + intros r off Hin. apply elem_of_cons in Hin as [[= -> ->]|Hin].
      * rewrite (I2 t0 112) by (by apply elem_of_cons; left). unfold h2. by rewrite rget_rset.
      * destruct (slot_facts r off Hin) as (N0 & N8 & N112). rewrite O2, (I1 r off Hin); [by apply G1|by apply M8|]. intros r' off' [= -> ->]%list_elem_of_singleton. lia.
    + by eapply same_pages_trans.
    + apply Forall_forall. exact Hd.
    + rewrite <- Hd by decided. apply (I sp 8). decided.
    + rewrite <- Hd by decided. apply (I tp 32). decided.
    + rewrite <- (Z.add_0_r tf) at 1. rewrite <- Hd by decided. apply (I t1 0). decided.
    + rewrite <- Hd by decided. apply (I t0 16). decided.
    + intros c Hc1 Hc2. unfold h4. cbn [pcset cset h_csrs]. rewrite upd_ne, C by done. unfold h2, h1. cbn [rset cset h_csrs]. by rewrite upd_ne.
Qed.

Record returned (h h' : hart) (m : pmem) (x tf : Z) : Prop := {
  re_regs : forall r off, (r, off) ∈ (a0, 112) :: tf_slots -> rget r h' = cell m (tf + off);
  re_satp : r_satp h' = x;
  re_scratch : h_csrs h' sscratch = TRAPFRAME;
  re_pc : h_pc h' = r_sepc h;
  re_priv : h_priv h' = if Z.land (r_sstatus h) SSTATUS_SPP =? 0 then User else Supervisor;
  re_status : r_sstatus h' = sret_status (r_sstatus h);
  re_csrs : forall c, c <> satp -> c <> sscratch -> c <> sstatus -> h_csrs h' c = h_csrs h c
}.

Lemma userret_run h m x tf : h_priv h = Supervisor -> rget a0 h = TRAPFRAME -> rget a1 h = x -> tf_ok x m tf ->
  exists h', steps userret (h, m) = Some (h', m) /\ returned h h' m x tf.
Proof.
  intros Hp Ha0 Ha1 T. set (h1 := cset satp (rget a1 h) h). destruct tf_slots_offs as [_ F]. apply Forall_cons in F as [F1 F2]. destruct tf_slots_regs as [N _]. apply NoDup_cons in N as [_ N].
  destruct (loads_run a0 tf [tf] [(t0, 112)] h1 m) as (h2 & E2 & [C2 PC2 PR2 I2 O2]); [decided|decided|apply (tf_framed x); try done; [by left|decided]|set_solver|].
  set (h3 := cset sscratch (rget t0 h2) h2). assert (B3 : rget a0 h3 = TRAPFRAME) by (change (rget a0 h2 = TRAPFRAME); rewrite O2; [done|decided]).
  assert (X3 : r_satp h3 = x) by (unfold h3, r_satp; cbn [cset h_csrs]; rewrite upd_ne, C2 by done; unfold h1; cbn [cset h_csrs]; by rewrite upd_eq).
  destruct (loads_run a0 tf [tf] tf_slots h3 m) as (h4 & E4 & [C4 PC4 PR4 I4 O4]); [done|decided|apply (tf_framed x); try done; [change (h_priv h2 = Supervisor); by rewrite PR2|by left]| |].
  { intros off Hin. by destruct (slot_facts a0 off Hin) as [? _]. }
  assert (B4 : rget a0 h4 = TRAPFRAME) by (rewrite O4; [done|decided]). set (h5 := rset a0 (h_csrs h4 sscratch) (cset sscratch (rget a0 h4) h4)).
  assert (C5 : forall c, c <> satp -> c <> sscratch -> h_csrs h5 c = h_csrs h c).
  { intros c H1 H2. unfold h5. cbn [rset cset h_csrs]. rewrite upd_ne, C4 by done. unfold h3. cbn [cset h_csrs]. rewrite upd_ne, C2 by done. unfold h1. cbn [cset h_csrs]. by rewrite upd_ne. }
  exists (sret_step h5). split.
  - change userret with ([CSRW satp a1; SFENCE_VMA] ++ loads a0 [(t0, 112)] ++ [CSRW sscratch t0] ++ loads a0 tf_slots ++ [CSRRW a0 sscratch a0; SRET]).
    rewrite (steps_app_ok [CSRW satp a1; SFENCE_VMA] _ (h, m) (h1, m) eq_refl), (steps_app_ok _ _ _ _ E2), (steps_app_ok [CSRW sscratch t0] _ (h2, m) (h3, m) eq_refl), (steps_app_ok _ _ _ _ E4). done.
  - assert (Es : r_sstatus h5 = r_sstatus h) by (by apply C5). split.
    + intros r off Hin. change (rget r (sret_step h5)) with (rget r h5). unfold h5. rewrite rget_rset by done. apply elem_of_cons in Hin as [[= -> ->]|Hin].
      * rewrite decide_True, C4 by done. unfold h3. cbn [cset h_csrs]. rewrite upd_eq. apply I2. by apply elem_of_cons; left.
      * rewrite decide_False by apply (slot_facts r off Hin). by apply I4.
    + unfold r_satp, sret_step. cbn [pset pcset w_sstatus cset h_csrs]. rewrite upd_ne by done. unfold h5. cbn [rset cset h_csrs]. rewrite upd_ne, C4 by done. exact X3.
    + cbn [sret_step pset pcset w_sstatus cset h_csrs]. rewrite upd_ne by done. unfold h5. cbn [rset cset h_csrs]. by rewrite upd_eq.
    + cbn [sret_step pset pcset h_pc]. by apply C5.
    + cbn [sret_step pset h_priv]. by rewrite Es.
    + unfold sret_step, r_sstatus at 1. cbn [pset pcset w_sstatus cset h_csrs]. by rewrite upd_eq, Es.
    + intros c H1 H2 H3. cbn [sret_step pset pcset w_sstatus cset h_csrs]. rewrite upd_ne by done. by apply C5.
Qed.

(** ** Traps from the kernel *)

Definition kslots : list (reg * Z) :=
  [(ra, 0); (sp, 8); (gp, 16); (t0, 32); (t1, 40); (t2, 48); (s0, 56); (s1, 64); (a0, 72); (a1, 80); (a2, 88); (a3, 96);
   (a4, 104); (a5, 112); (a6, 120); (a7, 128); (s2, 136); (s3, 144); (s4, 152); (s5, 160); (s6, 168); (s7, 176); (s8, 184);
   (s9, 192); (s10, 200); (s11, 208); (t3, 216); (t4, 224); (t5, 232); (t6, 240)].
Definition kslots_tp : list (reg * Z) := take 3 kslots ++ [(tp, 24)] ++ drop 3 kslots.

Lemma kslots_in r : r <> zero -> r <> tp -> exists off, (r, off) ∈ kslots /\ (r, off) ∈ kslots_tp.
Proof.
  assert (H : Forall (fun x => x ∈ kslots_tp) kslots) by decided. rewrite Forall_forall in H. intros Hz Ht.
  assert (E : exists off, (r, off) ∈ kslots); [|destruct E as [off E]; exists off; split; [done|by apply H]].
  assert (Hr : r ∈ map fst kslots) by (destruct r; try done; decided). apply list_elem_of_In, in_map_iff in Hr as ([r' off] & <- & Hin). exists off. by apply list_elem_of_In.
Qed.

Lemma kernelvec_entry_run h m pa pgs : pages_ok m -> regs_ok h ->
  let h1 := rset sp (u64 (rget sp h - 256)) h in framed PTE_W h1 m sp pa pgs (map snd kslots_tp) ->
  exists m', steps kernelvec_entry (h, m) = Some (h1, m') /\ saved h1 m m' pa pgs kslots_tp.
Proof.
  intros P R h1 F. destruct (saves_run sp pa pgs kslots_tp h1 m P) as (m' & E & S); [apply rset_ok; [done|apply Z.mod_pos_bound; lia|done]|decided|done|].
  exists m'. split; [|done]. change kernelvec_entry with ([ADDI sp sp (-256)] ++ saves sp kslots_tp). rewrite (steps_app_ok [ADDI sp sp (-256)] _ (h, m) (h1, m) eq_refl). exact E.
Qed.

(** kernelvec is transparent around a handler that keeps the stack pointer and
    the frame: all registers but tp are what they were. *)
Lemma kernelvec_run h m pa pgs h2 m2 : pages_ok m -> regs_ok h ->
  let h1 := rset sp (u64 (rget sp h - 256)) h in framed PTE_W h1 m sp pa pgs (map snd kslots_tp) ->
  exists m1, steps kernelvec_entry (h, m) = Some (h1, m1) /\
  (rget sp h2 = rget sp h1 -> framed PTE_R h2 m2 sp pa pgs (map snd kslots) -> (forall off, off ∈ map snd kslots -> cell m2 (pa + off) = cell m1 (pa + off)) ->
   exists h', steps kernelvec_exit (h2, m2) = Some (h', m2) /\ (forall r, r <> tp -> rget r h' = rget r h) /\ rget tp h' = rget tp h2 /\ h_pc h' = r_sepc h2 /\
     h_priv h' = (if Z.land (r_sstatus h2) SSTATUS_SPP =? 0 then User else Supervisor) /\ r_sstatus h' = sret_status (r_sstatus h2)).
Proof.
  intros P R h1 F. destruct (kernelvec_entry_run h m pa pgs P R F) as (m1 & E1 & [_ _ I1 _]). exists m1. split; [done|]. intros Hsp F2 Hc.
  assert (Hk : forall r off, (r, off) ∈ kslots -> cell m2 (pa + off) = rget r h1).
  { intros r off Hin. rewrite Hc by (change off with (snd (r, off)); apply list_elem_of_In, in_map, list_elem_of_In; exact Hin). apply I1.
    assert (H : Forall (fun x => x ∈ kslots_tp) kslots) by decided. rewrite Forall_forall in H. by apply H. }
  destruct (loads_run sp pa pgs kslots h2 m2) as (h3 & E3 & [C PC PR I O]); [decided|decided|done|intros off Hin; rewrite Hsp; by apply Hk|].
  set (h4 := rset sp (u64 (rget sp h3 + 256)) h3). exists (sret_step h4). split; [|split; [|split; [|split; [|split]]]].
  - change kernelvec_exit with (loads sp kslots ++ [ADDI sp sp 256; SRET]). by rewrite (steps_app_ok _ _ _ _ E3).
  - intros r Hr. change (rget r (sret_step h4)) with (rget r h4). unfold h4. rewrite rget_rset by done. destruct (decide (r = sp)) as [->|N].
    + rewrite (I sp 8), (Hk sp 8) by decided. unfold h1. rewrite rget_rset, decide_True by done. pose proof (R sp). unfold u64. rewrite Zplus_mod_idemp_l. replace (rget sp h - 256 + 256) with (rget sp h) by lia. by apply Z.mod_small.
    + destruct (decide (r = zero)) as [->|Nz]; [done|]. destruct (kslots_in r Nz Hr) as (off & Hin & _). rewrite (I r off Hin), (Hk r off Hin). unfold h1. by rewrite rget_rset, decide_False.
  - change (rget tp (sret_step h4)) with (rget tp h4). unfold h4. rewrite rget_rset, decide_False by done. apply O. decided.
  - cbn [sret_step pset pcset h_pc]. unfold h4, r_sepc. cbn [rset h_csrs]. by rewrite C.
  - cbn [sret_step pset h_priv]. unfold h4, r_sstatus. cbn [rset h_csrs]. by rewrite C.
  - unfold sret_step, r_sstatus at 1. cbn [pset pcset w_sstatus cset h_csrs]. rewrite upd_eq. unfold h4, r_sstatus. cbn [rset h_csrs]. by rewrite C.
Qed.

(** ** Context switches *)

(** struct context *)
Definition ctx_slots : list (reg * Z) :=
  [(ra, 0); (sp, 8); (s0, 16); (s1, 24); (s2, 32); (s3, 40); (s4, 48); (s5, 56); (s6, 64); (s7, 72); (s8, 80); (s9, 88);
   (s10, 96); (s11, 104)].

(** The contexts at [old] and [new], in the kernel's memory. *)
Definition ctx_at (perm : Z) (h : hart) (m : pmem) (b : reg) (pa : Z) (pgs : list Z) : Prop := framed perm h m b pa pgs (map snd ctx_slots).

Record switched (h h' : hart) (m m' : pmem) (old new : Z) : Prop := {
  sw_saved : forall r off, (r, off) ∈ ctx_slots -> cell m' (old + off) = rget r h;
  sw_loaded : forall r off, (r, off) ∈ ctx_slots -> rget r h' = cell m (new + off);
  sw_pc : h_pc h' = cell m new;
  sw_other : forall r, r ∉ map fst ctx_slots -> rget r h' = rget r h;
  sw_csrs : h_csrs h' = h_csrs h;
  sw_cells : forall a, a mod 8 = 0 -> (forall r off, (r, off) ∈ ctx_slots -> a <> old + off) -> cell m' a = cell m a
}.

Lemma swtch_run h m old new pgs pgs' : pages_ok m -> regs_ok h -> ctx_at PTE_W h m a0 old pgs ->
  (forall m', same_pages m m' pgs -> ctx_at PTE_R h m' a1 new pgs') -> (forall off off', off ∈ map snd ctx_slots -> off' ∈ map snd ctx_slots -> old + off <> new + off') ->
  exists h' m', steps swtch (h, m) = Some (h', m') /\ switched h h' m m' old new.
Proof.
  intros P R F F2 D. destruct (saves_run a0 old pgs ctx_slots h m P R) as (m' & E & [P' S' I' O']); [decided|done|].
  assert (Hs : forall r off, (r, off) ∈ ctx_slots -> off ∈ map snd ctx_slots) by (intros r off Hin; change off with (snd (r, off)); apply list_elem_of_In, in_map, list_elem_of_In; exact Hin).
  destruct (loads_run a1 new pgs' ctx_slots h m') as (h1 & E1 & [C PC PR I O]); [decided|decided|by apply F2| |].
  { intros off Hin. apply Hs in Hin as Hin'. assert (H : a1 ∉ map fst ctx_slots) by decided. exfalso. apply H. change a1 with (fst (a1, off)). apply list_elem_of_In, in_map, list_elem_of_In. exact Hin. }
  assert (Hn : forall r off, (r, off) ∈ ctx_slots -> cell m' (new + off) = cell m (new + off)).
  { intros r off Hin. apply O'; [|intros r' off' Hin' Eq; by apply (D off' off); eauto].
    pose proof (F2 m' S') as F4. unfold ctx_at, framed in F4. rewrite Forall_forall in F4. by apply (F4 off), (Hs r). }
  exists (pcset (rget ra h1) h1), m'. split.
  - change swtch with (saves a0 ctx_slots ++ loads a1 ctx_slots ++ [JR ra]). by rewrite (steps_app_ok _ _ _ _ E), (steps_app_ok _ _ _ _ E1).
  - split; try done.
    + intros r off Hin. change (rget r (pcset (rget ra h1) h1)) with (rget r h1). by rewrite (I r off Hin), (Hn r off Hin).
    + cbn [pcset h_pc]. rewrite (I ra 0), (Hn ra 0) by decided. f_equal. lia.
Qed.

(** ** The timer interrupt *)

Lemma xlate_machine perm h m a : h_priv h = Machine -> xlate perm h m a = Some a.
Proof. intros E. unfold xlate. by rewrite E. Qed.

Lemma machine_framed perm h m b pa offs : h_priv h = Machine -> rget b h = pa -> Forall (fun off => (pa + off) mod 8 = 0 /\ 0 <= pa + off < 2 ^ 64) offs ->
  framed perm h m b pa (map (fun off => pg_of (pa + off)) offs) offs.
Proof.
  intros Hp Hb F. apply Forall_forall. intros off Hin. rewrite Forall_forall in F. destruct (F off Hin) as [H8 Hr]. split; [done|]. split.
  - apply list_elem_of_In, (in_map (fun off => pg_of (pa + off))), list_elem_of_In. exact Hin.
  - intros m' _. rewrite xlate_machine, Hb by done. unfold u64. by rewrite Z.mod_small.
Qed.

(** The scratch area at [s]: three cells to save registers in, the address of
    the comparator [t] and the interval. *)
Record scratch_ok (h : hart) (m : pmem) (s t interval : Z) : Prop := {
  sc_priv : h_priv h = Machine;
  sc_reg : h_csrs h mscratch = s;
  sc_al : s mod 8 = 0 /\ 0 <= s < 2 ^ 64 - 40;
  sc_t : t mod 8 = 0 /\ 0 <= t < 2 ^ 64 /\ t ∉ [s; s + 8; s + 16];
  sc_cmp : cell m (s + 24) = t;
  sc_int : cell m (s + 32) = interval
}.

Lemma off8 s off : s mod 8 = 0 -> off mod 8 = 0 -> (s + off) mod 8 = 0.
Proof. intros H1 H2. by rewrite Z.add_mod, H1, H2. Qed.

(** The timer interrupt is invisible to the interrupted code: it moves the
    comparator by the interval, raises a software interrupt and returns with
    every register unchanged. *)
Lemma timervec_run h m s t interval : pages_ok m -> regs_ok h -> scratch_ok h m s t interval ->
  exists h' m', steps timervec (h, m) = Some (h', m') /\ (forall r, rget r h' = rget r h) /\
    (forall c, c <> sip -> h_csrs h' c = h_csrs h c) /\ r_sip h' = 2 /\ h_pc h' = h_csrs h mepc /\ cell m' t = u64 (cell m t + interval) /\
    (forall a, a mod 8 = 0 -> a ∉ [s; s + 8; s + 16; t] -> cell m' a = cell m a).
Proof.
  intros P R [Hp Hs [Sa Sr] (Ta & Tr & Tn) Hc Hi]. set (h1 := rset a0 s (cset mscratch (rget a0 h) h)). assert (R1 : regs_ok h1) by (apply rset_ok; [done|lia|exact R]).
  assert (F : forall perm h' m' offs, h_priv h' = Machine -> rget a0 h' = s -> Forall (fun off => 0 <= off <= 32 /\ off mod 8 = 0) offs -> framed perm h' m' a0 s (map (fun off => pg_of (s + off)) offs) offs).
  { intros perm h' m' offs H1 H2 H3. apply machine_framed; [done|done|]. eapply Forall_impl; [exact H3|]. intros off [Hr Hm]. split; [by apply off8|lia]. }
  destruct (saves_run a0 s _ [(a1, 0); (a2, 8); (a3, 16)] h1 m P R1 ltac:(decided) (F PTE_W h1 m [0; 8; 16] Hp eq_refl ltac:(decided))) as (m1 & E1 & [P1 _ I1 O1]).
  destruct (loads_run a0 s _ [(a1, 24); (a2, 32)] h1 m1 ltac:(decided) ltac:(decided) (F PTE_R h1 m1 [24; 32] Hp eq_refl ltac:(decided)) ltac:(set_solver)) as (h2 & E2 & [C2 PC2 PR2 I2 O2]).
  assert (M1 : forall a, a mod 8 = 0 -> a ∉ [s; s + 8; s + 16] -> cell m1 a = cell m a).
  { intros a Ha Hn. apply O1; [done|]. intros r off Hin ->. apply Hn. rewrite !elem_of_cons in Hin. rewrite !elem_of_cons. destruct Hin as [[= -> ->]|[[= -> ->]|[[= -> ->]|Hin]]]; [left; lia|by right; left|by right; right; left|by apply elem_of_nil in Hin]. }
  assert (V1 : rget a1 h2 = t) by (rewrite (I2 a1 24), M1 by (decided || (apply off8; done) || (rewrite !elem_of_cons, elem_of_nil; lia)); done).
  assert (V2 : rget a2 h2 = interval) by (rewrite (I2 a2 32), M1 by (decided || (apply off8; done) || (rewrite !elem_of_cons, elem_of_nil; lia)); done).
  assert (Mt : cell m1 t = cell m t) by (by apply M1). set (v := u64 (cell m t + interval)). assert (Hv : 0 <= v < 2 ^ 64) by (apply Z.mod_pos_bound; lia).
  set (m2 := put_cell t v m1). set (h3 := cset sip 2 (rset a1 2 (rset a3 v (rset a3 (cell m t) h2)))).
  assert (E3 : steps [LD a3 0 a1; ADD a3 a3 a2; SD a3 0 a1; LI a1 2; CSRW sip a1] (h2, m1) = Some (h3, m2)).
  { assert (Eu : u64 (t + 0) = t) by (unfold u64; rewrite Z.add_0_r; by apply Z.mod_small). cbn [steps step]. rewrite xlate_machine, V1, Eu, Mt by (by rewrite PR2).
    cbn [step]. change (rget a3 (rset a3 (cell m t) h2)) with (cell m t). change (rget a2 (rset a3 (cell m t) h2)) with (rget a2 h2). rewrite V2. fold v.
    change (rget a1 (rset a3 v (rset a3 (cell m t) h2))) with (rget a1 h2). rewrite V1, xlate_machine, Eu by (cbn [rset h_priv]; by rewrite PR2). done. }
  assert (M2 : forall a, a mod 8 = 0 -> cell m2 a = if decide (a = t) then v else cell m1 a) by (intros a Ha; unfold m2; by rewrite cell_put).
  assert (A3 : rget a0 h3 = s) by (change (rget a0 h2 = s); rewrite O2 by decided; done).
  destruct (loads_run a0 s _ [(a3, 16); (a2, 8); (a1, 0)] h3 m2 ltac:(decided) ltac:(decided) (F PTE_R h3 m2 [16; 8; 0] ltac:(change (h_priv h2 = Machine); by rewrite PR2) A3 ltac:(decided)) ltac:(set_solver)) as (h4 & E4 & [C4 PC4 PR4 I4 O4]).
  assert (B4 : rget a0 h4 = s) by (rewrite O4 by decided; done). exists (mret_step (rset a0 (h_csrs h4 mscratch) (cset mscratch (rget a0 h4) h4))), m2. split; [|split; [|split; [|split; [|split; [|split]]]]].
  - assert (E0 : steps [CSRRW a0 mscratch a0] (h, m) = Some (h1, m)) by (cbn [steps step]; by rewrite Hs).
    change timervec with ([CSRRW a0 mscratch a0] ++ saves a0 [(a1, 0); (a2, 8); (a3, 16)] ++ loads a0 [(a1, 24); (a2, 32)] ++ [LD a3 0 a1; ADD a3 a3 a2; SD a3 0 a1; LI a1 2; CSRW sip a1] ++
      loads a0 [(a3, 16); (a2, 8); (a1, 0)] ++ [CSRRW a0 mscratch a0; MRET]). by rewrite (steps_app_ok _ _ _ _ E0), (steps_app_ok _ _ _ _ E1), (steps_app_ok _ _ _ _ E2), (steps_app_ok _ _ _ _ E3), (steps_app_ok _ _ _ _ E4).
  - intros r. change (rget r (rset a0 (h_csrs h4 mscratch) (cset mscratch (rget a0 h4) h4)) = rget r h). rewrite rget_rset by done. destruct (decide (r = a0)) as [->|N0].
    + rewrite C4. unfold h3. cbn [cset rset h_csrs]. rewrite upd_ne, C2 by done. unfold h1. cbn [rset cset h_csrs]. by rewrite upd_eq.
    + change (rget r (cset mscratch (rget a0 h4) h4)) with (rget r h4). destruct (decide (r ∈ [a1; a2; a3])) as [Hin|Hn].
      * assert (Hs3 : forall q off, (q, off) ∈ [(a3, 16); (a2, 8); (a1, 0)] -> rget q h4 = rget q h).
        { intros q off Hq. assert (Hq1 : (q, off) ∈ [(a1, 0); (a2, 8); (a3, 16)]) by (revert Hq; rewrite !elem_of_cons; tauto). assert (Hq2 : q <> a0 /\ off mod 8 = 0 /\ s + off ∈ [s; s + 8; s + 16]).
          { rewrite !elem_of_cons in Hq. rewrite !elem_of_cons. destruct Hq as [[= -> ->]|[[= -> ->]|[[= -> ->]|Hq]]]; [naive_solver|naive_solver| |by apply elem_of_nil in Hq]. split; [done|]. split; [done|]. left; lia. }
          rewrite (I4 q off Hq), M2, decide_False, (I1 q off Hq1); [|by intros <-; apply Tn, Hq2|by apply off8, Hq2]. unfold h1. by rewrite rget_rset, decide_False by (done || apply Hq2). }
        rewrite !elem_of_cons, elem_of_nil in Hin. destruct Hin as [->|[->|[->|[]]]]; [apply (Hs3 a1 0)|apply (Hs3 a2 8)|apply (Hs3 a3 16)]; decided.
      * rewrite !elem_of_cons, elem_of_nil in Hn. rewrite O4 by (cbn [map fst]; rewrite !elem_of_cons, elem_of_nil; tauto). unfold h3. change (rget r (cset sip 2 ?g)) with (rget r g).
        rewrite !rget_rset, !decide_False by (done || tauto). rewrite O2 by (cbn [map fst]; rewrite !elem_of_cons, elem_of_nil; tauto). unfold h1. by rewrite rget_rset, decide_False.
  - intros c Hc'. change (upd mscratch (rget a0 h4) (h_csrs h4) c = h_csrs h c). rewrite B4, C4. unfold h3, upd. cbn [cset rset h_csrs]. rewrite C2. unfold h1, upd. cbn [rset cset h_csrs].
    unfold upd. destruct (decide (c = mscratch)) as [->|]; [done|]. by rewrite decide_False.
  - change (upd mscratch (rget a0 h4) (h_csrs h4) sip = 2). by rewrite C4.
  - change (upd mscratch (rget a0 h4) (h_csrs h4) mepc = h_csrs h mepc). rewrite C4. unfold h3. cbn [cset rset h_csrs]. unfold upd. rewrite !decide_False by done. by rewrite C2.
  - rewrite M2, decide_True by done. done.
  - intros a Ha Hn. rewrite !elem_of_cons, elem_of_nil in Hn. rewrite M2, decide_False by (tauto || lia). apply M1; [done|]. rewrite !elem_of_cons, elem_of_nil. tauto.
Qed.

(** ** The first code of a hart *)

(** Every hart gets a page of [stack0] of its own. *)
Lemma entry_run stack0 h m : 0 <= stack0 -> 0 <= r_mhartid h < 8 -> stack0 + 0x8000 <= 2 ^ 64 - 1 ->
  exists h', steps (entry stack0) (h, m) = Some (h', m) /\ r_sp h' = stack0 + 4096 * (r_mhartid h + 1).
Proof.
  intros Hs Hi Hb. eexists. split; [reflexivity|]. unfold r_sp. rewrite rget_rset, decide_True by done.
  change (u64 (stack0 + u64 (4096 * u64 (r_mhartid h + 1))) = stack0 + 4096 * (r_mhartid h + 1)). unfold u64.
  rewrite (Z.mod_small (r_mhartid h + 1)) by lia. rewrite (Z.mod_small (4096 * (r_mhartid h + 1))) by lia. apply Z.mod_small. lia.
Qed.
