(* ===== verification/Spin.v ===== *)
(** * Spin-locks (kernel/spinlock.c)

    CPUs that take and release locks, in any interleaving.  A step is one
    access to shared memory; push_off and pop_off touch only the CPU's own
    state.  [c_held] and [c_base] are not in the code: the locks whose acquire
    has returned, and whether interrupts were on when no lock was held. *)
From S2P Require Import Prelude Hart.

Record lock := mkLock { lk_locked : bool; lk_cpu : option nat }.

(** Where a CPU is in acquire or release. *)
Inductive pc :=
| Idle
| AcquireCheck (lk : nat) | AcquireSpin (lk : nat) | AcquireOwn (lk : nat)
| ReleaseCheck (lk : nat) | ReleaseOwn (lk : nat) | ReleaseFree (lk : nat) | ReleasePop
| PanicAcquire (lk : nat) | PanicRelease (lk : nat) | PanicPop.

(** struct cpu: noff and intena, and the interrupt bit of sstatus. *)
Record cpu := mkCpu { c_noff : Z; c_intena : bool; c_sie : bool; c_pc : pc; c_held : list nat; c_base : bool }.
Record sys := mkSys { s_cpus : nat -> cpu; s_locks : nat -> lock }.

Definition initlock : lock := mkLock false None.
Definition holding (l : lock) (c : nat) : bool := lk_locked l && bool_decide (lk_cpu l = Some c).

Definition push_off (u : cpu) : cpu :=
  mkCpu (c_noff u + 1) (if c_noff u =? 0 then c_sie u else c_intena u) false (c_pc u) (c_held u) (c_base u).

(** [None]: panic. *)
Definition pop_off (u : cpu) : option cpu :=
  if c_sie u then None
  else if c_noff u <? 1 then None
  else
    let noff := c_noff u - 1 in
    Some (mkCpu noff (c_intena u) (if (noff =? 0) && c_intena u then true else c_sie u) (c_pc u) (c_held u) (c_base u)).

Definition at_pc (p : pc) (u : cpu) : cpu := mkCpu (c_noff u) (c_intena u) (c_sie u) p (c_held u) (c_base u).
Definition set_held (l : list nat) (u : cpu) : cpu := mkCpu (c_noff u) (c_intena u) (c_sie u) (c_pc u) l (c_base u).

Definition set_cpu (c : nat) (u : cpu) (s : sys) : sys := mkSys (upd c u (s_cpus s)) (s_locks s).
Definition set_lock (lk : nat) (l : lock) (s : sys) : sys := mkSys (s_cpus s) (upd lk l (s_locks s)).

(** An idle CPU calls acquire or release, or turns interrupts on or off while
    it holds no lock; the others go on with their call. *)
Inductive action := DoAcquire (lk : nat) | DoRelease (lk : nat) | DoIntr (on : bool) | Go.

Definition cpu_step (c : nat) (a : action) (s : sys) : option sys :=
  let u := s_cpus s c in
  match a, c_pc u with
  | DoAcquire lk, Idle => Some (set_cpu c (at_pc (AcquireCheck lk) (push_off u)) s)
  | DoRelease lk, Idle => Some (set_cpu c (at_pc (ReleaseCheck lk) u) s)
  | DoIntr on, Idle => if c_noff u =? 0 then Some (set_cpu c (mkCpu 0 (c_intena u) on Idle (c_held u) on) s) else None
  | Go, AcquireCheck lk =>
      Some (set_cpu c (at_pc (if holding (s_locks s lk) c then PanicAcquire lk else AcquireSpin lk) u) s)
  | Go, AcquireSpin lk =>
      let l := s_locks s lk in
      Some (set_lock lk (mkLock true (lk_cpu l)) (set_cpu c (at_pc (if lk_locked l then AcquireSpin lk else AcquireOwn lk) u) s))
  | Go, AcquireOwn lk =>
      Some (set_lock lk (mkLock (lk_locked (s_locks s lk)) (Some c)) (set_cpu c (at_pc Idle (set_held (lk :: c_held u) u)) s))
  | Go, ReleaseCheck lk =>
      Some (set_cpu c (at_pc (if holding (s_locks s lk) c then ReleaseOwn lk else PanicRelease lk) u) s)
  | Go, ReleaseOwn lk =>
      Some (set_lock lk (mkLock (lk_locked (s_locks s lk)) None) (set_cpu c (at_pc (ReleaseFree lk) (set_held (filter (fun x => x <> lk) (c_held u)) u)) s))
  | Go, ReleaseFree lk => Some (set_lock lk (mkLock false (lk_cpu (s_locks s lk))) (set_cpu c (at_pc ReleasePop u) s))
  | Go, ReleasePop => Some (set_cpu c (match pop_off u with Some u => at_pc Idle u | None => at_pc PanicPop u end) s)
  | _, _ => None
  end.

Inductive reachable : sys -> Prop :=
| reach_init ie : reachable (mkSys (fun c => mkCpu 0 false (ie c) Idle [] (ie c)) (fun _ => initlock))
| reach_step s c a s' : reachable s -> cpu_step c a s = Some s' -> reachable s'.

(** ** The invariant *)

(** The CPU is between the swap that took [lk] and the store that frees it. *)
Definition owns (u : cpu) (lk : nat) : Prop := lk ∈ c_held u \/ c_pc u = AcquireOwn lk \/ c_pc u = ReleaseFree lk.

(** push_offs of the call in progress. *)
Definition pending (p : pc) : Z :=
  match p with AcquireCheck _ | AcquireSpin _ | AcquireOwn _ | ReleaseFree _ | ReleasePop | PanicAcquire _ => 1 | _ => 0 end.

(** A spinning CPU does not hold the lock it waits for; the panics of acquire
    and release are the caller's fault, and pop_off never panics. *)
Definition pc_ok (p : pc) (held : list nat) : Prop :=
  match p with
  | AcquireSpin lk | AcquireOwn lk | ReleaseFree lk | PanicRelease lk => lk ∉ held
  | ReleaseOwn lk | PanicAcquire lk => lk ∈ held
  | PanicPop => False
  | _ => True
  end.

Record cpu_ok (u : cpu) : Prop := {
  co_nodup : NoDup (c_held u);
  co_noff : c_noff u = zlen (c_held u) + pending (c_pc u);
  co_off : 0 < c_noff u -> c_sie u = false /\ c_intena u = c_base u;
  co_on : c_noff u = 0 -> c_sie u = c_base u;
  co_pc : pc_ok (c_pc u) (c_held u)
}.

Record inv (s : sys) : Prop := {
  iv_cpu : forall c, cpu_ok (s_cpus s c);
  iv_locked : forall lk, lk_locked (s_locks s lk) = true <-> exists c, owns (s_cpus s c) lk;
  iv_unique : forall lk c c', owns (s_cpus s c) lk -> owns (s_cpus s c') lk -> c = c';
  iv_holder : forall lk c, lk_cpu (s_locks s lk) = Some c <-> lk ∈ c_held (s_cpus s c)
}.

Lemma holding_held s lk c : inv s -> holding (s_locks s lk) c = bool_decide (lk ∈ c_held (s_cpus s c)).
Proof.
  intros I. unfold holding. destruct (bool_decide_reflect (lk ∈ c_held (s_cpus s c))) as [H|H].
  - rewrite bool_decide_eq_true_2 by (by apply (iv_holder s I)). rewrite (proj2 (iv_locked s I lk)); [done|]. exists c. by left.
  - rewrite bool_decide_eq_false_2 by (by intros ?%(iv_holder s I)). apply andb_false_r.
Qed.

Lemma inv_local s c u : inv s -> cpu_ok u -> (forall lk, owns u lk <-> owns (s_cpus s c) lk) -> c_held u = c_held (s_cpus s c) -> inv (set_cpu c u s).
Proof.
  intros [I1 I2 I3 I4] U O H.
  assert (O' : forall x lk, owns (s_cpus (set_cpu c u s) x) lk <-> owns (s_cpus s x) lk) by (intros x lk; cbn [set_cpu s_cpus]; unfold upd; destruct (decide (x = c)) as [->|]; [apply O|done]).
  split.
  - intros x. cbn [set_cpu s_cpus]. unfold upd. by destruct (decide (x = c)).
  - intros lk. etransitivity; [apply (I2 lk)|]. split; intros [x Hx]; exists x; by apply O'.
  - intros lk x y Hx%O' Hy%O'. by apply (I3 lk).
  - intros lk x. etransitivity; [apply (I4 lk x)|]. cbn [set_cpu s_cpus]. unfold upd. destruct (decide (x = c)) as [->|]; [by rewrite H|done].
Qed.

(** A step of [c] that concerns lock [lk] only. *)
Lemma inv_lock s c u lk l : inv s -> cpu_ok u ->
  (forall lk', lk' <> lk -> (owns u lk' <-> owns (s_cpus s c) lk') /\ (lk' ∈ c_held u <-> lk' ∈ c_held (s_cpus s c))) ->
  (lk_locked l = true <-> owns u lk \/ exists x, x <> c /\ owns (s_cpus s x) lk) -> (owns u lk -> forall x, x <> c -> ~ owns (s_cpus s x) lk) ->
  (lk_cpu l = Some c <-> lk ∈ c_held u) -> (forall x, x <> c -> lk_cpu l = Some x <-> lk ∈ c_held (s_cpus s x)) ->
  inv (set_lock lk l (set_cpu c u s)).
Proof.
  intros [I1 I2 I3 I4] U O L1 L2 L3 L4. set (s' := set_lock lk l (set_cpu c u s)).
  assert (Ec : s_cpus s' c = u) by (cbn; by rewrite upd_eq). assert (Ex : forall x, x <> c -> s_cpus s' x = s_cpus s x) by (intros x Hx; cbn; by rewrite upd_ne).
  assert (El : s_locks s' lk = l) by (cbn; by rewrite upd_eq). assert (Ey : forall y, y <> lk -> s_locks s' y = s_locks s y) by (intros y Hy; cbn; by rewrite upd_ne).
  assert (O' : forall x lk', lk' <> lk -> owns (s_cpus s' x) lk' <-> owns (s_cpus s x) lk') by (intros x lk' N; destruct (decide (x = c)) as [->|Nx]; [rewrite Ec; by apply O|by rewrite Ex]).
  split.
  - intros x. destruct (decide (x = c)) as [->|Nx]; [by rewrite Ec|by rewrite Ex].
  - intros lk'. destruct (decide (lk' = lk)) as [->|N]; [|rewrite Ey, (I2 lk') by done; split; intros [x Hx]; exists x; by apply O'].
    rewrite El, L1. split; [intros [H|(x & Nx & H)]; [exists c; by rewrite Ec|exists x; by rewrite Ex]|].
    intros [x Hx]. destruct (decide (x = c)) as [->|Nx]; [left; by rewrite Ec in Hx|right; exists x; by rewrite Ex in Hx].
  - intros lk' x y Hx Hy. destruct (decide (lk' = lk)) as [->|N]; [|apply (I3 lk'); by apply O'].
    destruct (decide (x = c)) as [->|Nx], (decide (y = c)) as [->|Ny]; rewrite ?Ec, ?Ex in * by done; [done|by destruct (L2 Hx y Ny)|by destruct (L2 Hy x Nx)|by apply (I3 lk)].
  - intros lk' x. destruct (decide (lk' = lk)) as [->|N].
    + rewrite El. destruct (decide (x = c)) as [->|Nx]; [by rewrite Ec|rewrite Ex by done; by apply L4].
    + rewrite Ey, (I4 lk' x) by done. destruct (decide (x = c)) as [->|Nx]; [rewrite Ec; symmetry; by apply O|by rewrite Ex].
Qed.

Ltac pcs := intros; repeat match goal with H : _ \/ _ |- _ => destruct H | |- _ /\ _ => split end; try discriminate; simplify_eq; try done.

Lemma at_ok u p : cpu_ok u -> pending p = pending (c_pc u) -> pc_ok p (c_held u) -> cpu_ok (at_pc p u).
Proof. intros [U1 U2 U3 U4 U5] Hp Ho. split; try done. cbn. lia. Qed.

Lemma owns_at u p lk : (forall lk, p <> AcquireOwn lk /\ p <> ReleaseFree lk) -> owns (at_pc p u) lk <-> lk ∈ c_held u.
Proof. intros N. unfold owns. cbn. destruct (N lk). tauto. Qed.

Lemma push_off_ok u lk : cpu_ok u -> c_pc u = Idle -> cpu_ok (at_pc (AcquireCheck lk) (push_off u)).
Proof.
  intros [U1 U2 U3 U4 U5] E. assert (0 <= c_noff u) by (rewrite U2, E; unfold zlen; cbn; lia). rewrite E in U2. cbn [pending] in U2.
  split; cbn [at_pc push_off c_held c_noff c_sie c_intena c_base c_pc pending]; try done; try lia.
  intros _. split; [done|]. destruct (Z.eqb_spec (c_noff u) 0); [by apply U4|by apply U3; lia].
Qed.

Lemma pop_off_ok u : cpu_ok u -> c_pc u = ReleasePop -> exists u', pop_off u = Some u' /\ cpu_ok (at_pc Idle u') /\ c_held u' = c_held u.
Proof.
  intros [U1 U2 U3 U4 U5] E. rewrite E in U2. cbn [pending] in U2. unfold pop_off. unfold zlen in U2. destruct (U3 ltac:(lia)) as [Es Ei]. rewrite Es.
  destruct (Z.ltb_spec (c_noff u) 1); [lia|]. eexists. split; [done|]. split; [|done].
  split; cbn [at_pc c_held c_noff c_sie c_intena c_base c_pc pending]; try done; unfold zlen; try lia.
  - intros Hn. destruct (Z.eqb_spec (c_noff u - 1) 0); [lia|]. done.
  - intros Hn. rewrite Hn. cbn. rewrite Ei. by destruct (c_base u).
Qed.

(** The swap on a free lock makes the CPU its owner. *)
Lemma spin_inv s c lk : inv s -> c_pc (s_cpus s c) = AcquireSpin lk -> let l := s_locks s lk in
  inv (set_lock lk (mkLock true (lk_cpu l)) (set_cpu c (at_pc (if lk_locked l then AcquireSpin lk else AcquireOwn lk) (s_cpus s c)) s)).
Proof.
  intros I E l. pose proof (iv_cpu s I c) as U. pose proof (iv_locked s I lk) as Il. fold l in Il.
  assert (O0 : forall lk', owns (s_cpus s c) lk' <-> lk' ∈ c_held (s_cpus s c)) by (intros lk'; unfold owns; rewrite E; naive_solver).
  assert (Hc : forall x, lk_cpu l = Some x <-> lk ∈ c_held (s_cpus s x)) by (intros x; apply (iv_holder s I)).
  assert (F : lk_locked l = false -> forall x, ~ owns (s_cpus s x) lk) by (intros Ef x Hx; assert (lk_locked l = true) by (apply Il; by exists x); congruence).
  apply inv_lock; [done| | | | |apply Hc|intros x _; apply Hc].
  - destruct (lk_locked l) eqn:El; (apply at_ok; rewrite ?E; [done|done|]); cbn [pc_ok]; pose proof (co_pc _ U) as Hpc; by rewrite E in Hpc.
  - intros lk' N. split; [|done]. rewrite O0. unfold owns. cbn. destruct (lk_locked l); naive_solver.
  - cbn [lk_locked]. split; [intros _|done]. destruct (lk_locked l) eqn:El.
    + destruct (proj1 Il eq_refl) as [x Hx]. destruct (decide (x = c)) as [->|N]; [left; apply O0 in Hx; by left|right; by exists x].
    + left. right. left. done.
  - intros Hu x N Hx. destruct (lk_locked l) eqn:El; [|by apply (F eq_refl x)]. apply N, (iv_unique s I lk); [done|]. apply O0. apply owns_at in Hu; [done|pcs].
Qed.

(** Recording the owner ends acquire. *)
Lemma own_inv s c lk : inv s -> c_pc (s_cpus s c) = AcquireOwn lk ->
  inv (set_lock lk (mkLock (lk_locked (s_locks s lk)) (Some c)) (set_cpu c (at_pc Idle (set_held (lk :: c_held (s_cpus s c)) (s_cpus s c))) s)).
Proof.
  intros I E. pose proof (iv_cpu s I c) as [U1 U2 U3 U4 U5]. assert (Ho : owns (s_cpus s c) lk) by (by right; left). assert (Hn : lk ∉ c_held (s_cpus s c)) by (by rewrite E in U5).
  apply inv_lock; [done| | | | | |].
  - split; cbn [at_pc set_held c_held c_noff c_sie c_intena c_base c_pc pending]; try done; [by constructor|]. rewrite U2, E. unfold zlen. cbn. lia.
  - intros lk' N. unfold owns. cbn. rewrite E, elem_of_cons. naive_solver.
  - rewrite (iv_locked s I lk). split; [intros _; left; left; cbn; by left|intros _; by exists c].
  - intros _ x N Hx. by apply N, (iv_unique s I lk).
  - cbn. rewrite elem_of_cons. naive_solver.
  - intros x N. cbn. split; [congruence|]. intros Hx. destruct N. apply (iv_unique s I lk); [by left|done].
Qed.

Lemma filter_absent (lk : nat) (l : list nat) : lk ∉ l -> filter (fun x => x <> lk) l = l.
Proof. induction l as [|y l IH]; [done|]. intros [N H]%not_elem_of_cons. rewrite filter_cons_True by done. by rewrite IH. Qed.

(** release gives up the ownership, then the lock. *)
Lemma disown_inv s c lk : inv s -> c_pc (s_cpus s c) = ReleaseOwn lk ->
  inv (set_lock lk (mkLock (lk_locked (s_locks s lk)) None) (set_cpu c (at_pc (ReleaseFree lk) (set_held (filter (fun x => x <> lk) (c_held (s_cpus s c))) (s_cpus s c))) s)).
Proof.
  intros I E. pose proof (iv_cpu s I c) as [U1 U2 U3 U4 U5]. assert (Hin : lk ∈ c_held (s_cpus s c)) by (by rewrite E in U5). assert (Ho : owns (s_cpus s c) lk) by (by left).
  assert (Hl : zlen (filter (fun x => x <> lk) (c_held (s_cpus s c))) = zlen (c_held (s_cpus s c)) - 1).
  { clear - U1 Hin. unfold zlen. induction (c_held (s_cpus s c)) as [|y l IH]; [by apply elem_of_nil in Hin|]. apply NoDup_cons in U1 as [Ny Nl]. destruct (decide (y = lk)) as [->|N].
    - rewrite filter_cons_False by naive_solver. cbn [length]. rewrite filter_absent by done. lia.
    - rewrite filter_cons_True by done. cbn [length]. apply elem_of_cons in Hin as [->|Hin]; [done|]. specialize (IH Nl Hin). lia. }
  apply inv_lock; [done| | | | | |].
  - split; cbn [at_pc set_held c_held c_noff c_sie c_intena c_base c_pc pending]; try done; [by apply NoDup_filter| |].
    + rewrite U2, E, Hl. cbn. lia.
    + cbn. rewrite list_elem_of_filter. tauto.
  - intros lk' N. unfold owns. cbn. rewrite E, list_elem_of_filter. naive_solver.
  - rewrite (iv_locked s I lk). split; [intros _; left; by right; right|intros _; by exists c].
  - intros _ x N Hx. by apply N, (iv_unique s I lk).
  - cbn. rewrite list_elem_of_filter. naive_solver.
  - intros x N. cbn. split; [congruence|]. intros Hx. destruct N. apply (iv_unique s I lk); [by left|done].
Qed.

Lemma free_inv s c lk : inv s -> c_pc (s_cpus s c) = ReleaseFree lk ->
  inv (set_lock lk (mkLock false (lk_cpu (s_locks s lk))) (set_cpu c (at_pc ReleasePop (s_cpus s c)) s)).
Proof.
  intros I E. pose proof (iv_cpu s I c) as U. assert (Ho : owns (s_cpus s c) lk) by (by right; right). assert (Hn : lk ∉ c_held (s_cpus s c)) by (pose proof (co_pc _ U) as Hpc; by rewrite E in Hpc).
  apply inv_lock; [done| | | | |apply (iv_holder s I)|intros x _; apply (iv_holder s I)].
  - apply at_ok; rewrite ?E; pcs.
  - intros lk' N. unfold owns. cbn. rewrite E. naive_solver.
  - cbn. split; [done|]. intros [Hx|(x & N & Hx)]; [apply owns_at in Hx; [done|pcs]|]. destruct N. by apply (iv_unique s I lk).
  - intros Hx. apply owns_at in Hx; [done|pcs].
Qed.

Lemma step_inv s c a s' : inv s -> cpu_step c a s = Some s' -> inv s'.
Proof.
  intros I. pose proof (iv_cpu s I c) as U. unfold cpu_step. destruct (c_pc (s_cpus s c)) eqn:E; destruct a; try done.
  - intros [= <-]. apply inv_local; [done|by apply push_off_ok| |done]. intros lk'. rewrite owns_at by pcs. unfold owns. rewrite E. cbn. naive_solver.
  - intros [= <-]. apply inv_local; [done|apply at_ok; rewrite ?E; pcs| |done]. intros lk'. rewrite owns_at by pcs. unfold owns. rewrite E. naive_solver.
  - destruct (Z.eqb_spec (c_noff (s_cpus s c)) 0) as [Z0|]; [|done]. intros [= <-]. apply inv_local; [done| | |done].
    + destruct U as [U1 U2 U3 U4 U5]. rewrite E in U2. cbn [pending] in U2. split; cbn; try done; lia.
    + intros lk'. unfold owns. rewrite E. cbn. naive_solver.
  - intros [= <-]. apply inv_local; [done| | |done].
    + rewrite holding_held by done. destruct (bool_decide_reflect (lk ∈ c_held (s_cpus s c))); by apply at_ok; rewrite ?E.
    + intros lk'. rewrite owns_at by (destruct (holding _ _); pcs). unfold owns. rewrite E. naive_solver.
  - intros [= <-]. by apply spin_inv.
  - intros [= <-]. by apply own_inv.
  - intros [= <-]. rewrite holding_held by done. apply inv_local; [done| | |done].
    + destruct (bool_decide_reflect (lk ∈ c_held (s_cpus s c))); apply at_ok; rewrite ?E; pcs.
    + intros lk'. rewrite owns_at by (destruct (bool_decide _); pcs). unfold owns. rewrite E. naive_solver.
  - intros [= <-]. by apply disown_inv.
  - intros [= <-]. by apply free_inv.
  - intros [= <-]. destruct (pop_off_ok _ U E) as (u & -> & Hu & Hh). apply inv_local; [done|done| |done]. intros lk'. rewrite owns_at, Hh by pcs. unfold owns. rewrite E. naive_solver.
Qed.

Lemma reachable_inv s : reachable s -> inv s.
Proof.
  induction 1 as [ie|s c a s' _ IH E]; [|by eapply step_inv]. split; cbn.
  - intros c. split; cbn; try done. apply NoDup_nil_2.
  - intros lk. split; [done|]. intros [c [H|[H|H]]]; [by apply elem_of_nil in H|done|done].
  - intros lk c c' [H|[H|H]]; [by apply elem_of_nil in H|done|done].
  - intros lk c. split; [done|]. by intros H%elem_of_nil.
Qed.

(** ** Theorems *)

(** C18. Spin-locks exclude: in every reachable state of any number of CPUs, at
    most one CPU is between acquire and release of a lock; a CPU that holds a
    lock has interrupts off, and one that holds none has them as they were
    before; acquire panics only for a lock the CPU holds, release only for one
    it does not hold, and pop_off never; a CPU that waits does not wait for
    itself, and gets the lock with its next step once nobody has it. *)
Theorem spinlock_safe s : reachable s ->
  (forall lk c c', lk ∈ c_held (s_cpus s c) -> lk ∈ c_held (s_cpus s c') -> c = c') /\
  (forall c, c_held (s_cpus s c) <> [] -> c_sie (s_cpus s c) = false) /\
  (forall c, c_pc (s_cpus s c) = Idle -> c_held (s_cpus s c) = [] -> c_noff (s_cpus s c) = 0 /\ c_sie (s_cpus s c) = c_base (s_cpus s c)) /\
  (forall c lk, (c_pc (s_cpus s c) = PanicAcquire lk -> lk ∈ c_held (s_cpus s c)) /\ (c_pc (s_cpus s c) = PanicRelease lk -> lk ∉ c_held (s_cpus s c)) /\
    c_pc (s_cpus s c) <> PanicPop) /\
  (forall c lk, c_pc (s_cpus s c) = AcquireSpin lk -> lk ∉ c_held (s_cpus s c) /\
    ((forall x, ~ owns (s_cpus s x) lk) -> exists s', cpu_step c Go s = Some s' /\ c_pc (s_cpus s' c) = AcquireOwn lk)).
Proof.
  intros I%reachable_inv. split; [|split; [|split; [|split]]].
  - intros lk c c' H H'. apply (iv_unique s I lk); by left.
  - intros c Hh. destruct (iv_cpu s I c) as [_ U2 U3 _ _]. apply U3. rewrite U2. unfold zlen. destruct (c_held (s_cpus s c)); [done|]. destruct (c_pc (s_cpus s c)); cbn; lia.
  - intros c Hp Hh. destruct (iv_cpu s I c) as [_ U2 _ U4 _]. rewrite Hp, Hh in U2. split; [done|]. by apply U4.
  - intros c lk. pose proof (co_pc _ (iv_cpu s I c)) as Hpc. split; [intros E; by rewrite E in Hpc|]. split; intros E; by rewrite E in Hpc.
  - intros c lk E. pose proof (co_pc _ (iv_cpu s I c)) as Hpc. rewrite E in Hpc. split; [done|]. intros Hn. unfold cpu_step. rewrite E. eexists. split; [done|]. cbn. rewrite upd_eq. cbn.
    destruct (lk_locked (s_locks s lk)) eqn:El; [|done]. apply (iv_locked s I) in El as [x Hx]. by destruct (Hn x).
Qed.

(** Two CPUs race for lock 0: the second one spins. *)
Fixpoint schedule (l : list (nat * action)) (s : sys) : option sys :=
  match l with
  | [] => Some s
  | (c, a) :: l => match cpu_step c a s with Some s => schedule l s | None => None end
  end.
Definition demo_race : option sys :=
  schedule [(0%nat, DoAcquire 0); (1%nat, DoAcquire 0); (0%nat, Go); (1%nat, Go); (0%nat, Go); (1%nat, Go); (0%nat, Go)]
    (mkSys (fun c => mkCpu 0 false true Idle [] true) (fun _ => initlock)).

Lemma schedule_reachable l s s' : reachable s -> schedule l s = Some s' -> reachable s'.
Proof.
  revert s. induction l as [|[c a] l IH]; intros s R; cbn [schedule]; [by intros [= <-]|]. destruct (cpu_step c a s) as [s1|] eqn:E; [|done]. apply IH. by eapply reach_step.
Qed.

Lemma demo_race_ok s : demo_race = Some s -> reachable s.
Proof. apply schedule_reachable. apply (reach_init (fun _ => true)). Qed.

Lemma spinlock_safe_witness : exists s, demo_race = Some s /\ c_held (s_cpus s 0) = [0%nat] /\ c_pc (s_cpus s 1) = AcquireSpin 0 /\ c_sie (s_cpus s 0) = false.
Proof.
  destruct demo_race as [s|] eqn:E; [|discriminate E]. exists s. split; [reflexivity|]. destruct (spinlock_safe s (demo_race_ok s E)) as (_ & H & _).
  injection E as <-. split; [reflexivity|]. split; [reflexivity|]. apply H. discriminate.
Defined.
