(* ===== verification/Ring.v ===== *)
(** * Ring buffers with free-running counters

    The input buffer of the console, the transmit buffer of the UART and the
    rings of the disk are arrays of [N] entries used through counters that are
    never reduced, only taken modulo [N]; they wrap at a multiple of [N]. *)
From S2P Require Import Prelude Str.

(** The [n] entries from counter [a] on. *)
Definition ring (N : Z) (buf : bytes) (a n : Z) : bytes := map (fun j => getb ((a + j) mod N) buf) (seqZ 0 n).

(** The distance of two counters of modulus [M]. *)
Definition dist (M a b : Z) : Z := (b - a) mod M.

Section Ring.
  Context (N M : Z) (HN : 0 < N) (HM : 0 < M) (HD : (N | M)).

Lemma mod_ring x : (x mod M) mod N = x mod N.
Proof. by apply Z.mod_mod_divide. Qed.

Lemma ring_wrap buf a n : ring N buf (a mod M) n = ring N buf a n.
Proof. unfold ring. apply map_ext. intros j. f_equal. rewrite <- Zplus_mod_idemp_l, mod_ring, Zplus_mod_idemp_l. done. Qed.

Lemma ring_len buf a n : 0 <= n -> zlen (ring N buf a n) = n.
Proof. intros H. unfold zlen, ring. rewrite length_map, length_seqZ. lia. Qed.

Lemma ring_app buf a n m : 0 <= n -> 0 <= m -> ring N buf a (n + m) = ring N buf a n ++ ring N buf (a + n) m.
Proof.
  intros Hn Hm. unfold ring. rewrite seqZ_app, map_app by lia. f_equal. rewrite Z.add_0_l. replace (seqZ n m) with (map (Z.add n) (seqZ 0 m)) by (rewrite fmap_add_seqZ; f_equal; lia).
  rewrite map_map. apply map_ext. intros j. do 2 f_equal. lia.
Qed.

Lemma ring_0 buf a : ring N buf a 0 = [].
Proof. done. Qed.

Lemma ring_1 buf a : ring N buf a 1 = [getb (a mod N) buf].
Proof. unfold ring. change (seqZ 0 1) with [0]. cbn [map]. by rewrite Z.add_0_r. Qed.

Lemma ring_pop buf a n : 0 < n -> ring N buf a n = getb (a mod N) buf :: ring N buf (a + 1) (n - 1).
Proof. intros H. replace n with (1 + (n - 1)) at 1 by lia. rewrite ring_app, ring_1 by lia. done. Qed.

Lemma ring_distinct_mod a i j : 0 <= i < j -> j < N -> (a + i) mod N <> (a + j) mod N.
Proof.
  intros Hi Hj E. pose proof (Z.div_mod (a + i) N). pose proof (Z.div_mod (a + j) N). assert (Ej : j - i = N * ((a + j) / N - (a + i) / N)) by lia.
  assert (0 < (a + j) / N - (a + i) / N) by nia. nia.
Qed.

(** A store at an index outside the part does not change it. *)
Lemma ring_set buf a n x b : zlen buf = N -> 0 <= n -> n <= b < N -> ring N (setb ((a + b) mod N) x buf) a n = ring N buf a n.
Proof.
  intros Hl Hn Hb. unfold ring. apply map_ext_in. intros j Hj. apply list_elem_of_In, elem_of_seqZ in Hj.
  rewrite getb_setb by (rewrite ?Hl; apply Z.mod_pos_bound; lia). rewrite decide_False; [done|]. intros E. by apply (ring_distinct_mod a j b); [lia|lia|].
Qed.

Lemma ring_push buf a n x : zlen buf = N -> 0 <= n < N -> ring N (setb ((a + n) mod N) x buf) a (n + 1) = ring N buf a n ++ [x].
Proof.
  intros Hl Hn. rewrite ring_app, ring_set, ring_1 by lia. do 2 f_equal. rewrite getb_setb by (rewrite ?Hl; apply Z.mod_pos_bound; lia). by rewrite decide_True.
Qed.

(** Counters that were advanced. *)
Lemma dist_add a n : 0 <= n < M -> dist M a ((a + n) mod M) = n.
Proof. intros H. unfold dist. rewrite Zminus_mod_idemp_l. replace (a + n - a) with n by lia. by apply Z.mod_small. Qed.

Lemma dist_bound a b : 0 <= dist M a b < M.
Proof. apply Z.mod_pos_bound. lia. Qed.

Lemma dist_back a b : 0 <= b < M -> (a + dist M a b) mod M = b.
Proof. intros H. unfold dist. rewrite Zplus_mod_idemp_r. replace (a + (b - a)) with b by lia. by apply Z.mod_small. Qed.

Lemma dist_0 a b : 0 <= a < M -> 0 <= b < M -> dist M a b = 0 <-> a = b.
Proof.
  intros Ha Hb. split; [|intros ->; unfold dist; by rewrite Z.sub_diag]. intros E. rewrite <- (dist_back a b Hb), E, Z.add_0_r. symmetry. by apply Z.mod_small.
Qed.
End Ring.
