(* ===== verification/Printf.v ===== *)
(** * Formatted printing (kernel/printf.c, user/printf.c)

    Both printf's send characters to a routine [putc]; here it is any routine
    on any state.  The kernel instance is in Console.v; a user program writes
    to a file. *)
From S2P Require Import Prelude Str Ulib.
Local Open Scope st_scope.

(** The arguments of a call, as the format must fetch them. *)
Inductive arg := AInt (x : Z) | ALong (x : Z) | AStr (s : option bytes).

Section Printf.
  Context {T : Type} (putc : Z -> stM T unit) (digits : bytes).

(** The do loop of printint: the digits of [x], lowest first; [buf] has 16
    bytes. *)
Fixpoint printint_loop (fuel : nat) (x base : Z) (buf : bytes) : stM T bytes :=
  match fuel with
  | O => fun _ => Wrong "printint: buf overflow"
  | S fuel =>
      let buf := buf ++ [getb (x mod base) digits] in
      if x / base =? 0 then sret buf else printint_loop fuel (x / base) base buf
  end.

Definition printint (xx base : Z) (sign : bool) : stM T unit :=
  let neg := sign && (xx <? 0) in
  let x := if neg then u32 (- xx) else u32 xx in
  buf <- printint_loop 15 x base [];
  sfor (rev (if neg then buf ++ [45] else buf)) putc.

Definition printptr (x : Z) : stM T unit :=
  putc 48;; putc 120;;
  sfor (seqZ 0 16) (fun i => putc (getb (Z.shiftr (u64 (Z.shiftl x (4 * i))) 60) digits)).

Definition null_str : bytes := [40; 110; 117; 108; 108; 41].
Definition prints (s : option bytes) : stM T unit := sfor (cstr (default null_str s)) putc.

Definition bad_arg {A} : stM T A := fun _ => Wrong "printf: argument".
End Printf.

(** printf of the kernel, from [fmt] on; the bytes of [fmt] end with a 0. *)
Section Kernel.
  Context {T : Type} (putc : Z -> stM T unit).
Definition kdigits : bytes := [48; 49; 50; 51; 52; 53; 54; 55; 56; 57; 97; 98; 99; 100; 101; 102].
Fixpoint printf (fmt : bytes) (ap : list arg) : stM T unit :=
  match fmt with
  | [] => sret tt
  | c :: fmt =>
      if c =? 0 then sret tt
      else if negb (c =? 37) then putc c;; printf fmt ap
      else
        match fmt with
        | [] => sret tt
        | c :: fmt =>
            if c =? 0 then sret tt
            else if c =? 100 then
              match ap with AInt x :: ap => printint putc kdigits x 10 true;; printf fmt ap | _ => bad_arg end
            else if c =? 120 then
              match ap with AInt x :: ap => printint putc kdigits x 16 true;; printf fmt ap | _ => bad_arg end
            else if c =? 112 then
              match ap with ALong x :: ap => printptr putc kdigits x;; printf fmt ap | _ => bad_arg end
            else if c =? 115 then
              match ap with AStr s :: ap => prints putc s;; printf fmt ap | _ => bad_arg end
            else if c =? 37 then putc 37;; printf fmt ap
            else putc 37;; putc c;; printf fmt ap
        end
  end.
End Kernel.

(** vprintf of the user library; [state] is whether a percent sign was read. *)
Section User.
  Context {T : Type} (putc : Z -> stM T unit).
Definition udigits : bytes := [48; 49; 50; 51; 52; 53; 54; 55; 56; 57; 65; 66; 67; 68; 69; 70].
Fixpoint vprintf (fmt : bytes) (state : bool) (ap : list arg) : stM T unit :=
  match fmt with
  | [] => sret tt
  | c :: fmt =>
      if c =? 0 then sret tt
      else if negb state then
        if c =? 37 then vprintf fmt true ap else putc c;; vprintf fmt false ap
      else if c =? 100 then
        match ap with AInt x :: ap => printint putc udigits x 10 true;; vprintf fmt false ap | _ => bad_arg end
      else if c =? 108 then
        match ap with ALong x :: ap => printint putc udigits (s32 x) 10 false;; vprintf fmt false ap | _ => bad_arg end
      else if c =? 120 then
        match ap with AInt x :: ap => printint putc udigits x 16 false;; vprintf fmt false ap | _ => bad_arg end
      else if c =? 112 then
        match ap with ALong x :: ap => printptr putc udigits x;; vprintf fmt false ap | _ => bad_arg end
      else if c =? 115 then
        match ap with AStr s :: ap => prints putc s;; vprintf fmt false ap | _ => bad_arg end
      else if c =? 99 then
        match ap with AInt x :: ap => putc (u8 x);; vprintf fmt false ap | _ => bad_arg end
      else if c =? 37 then putc c;; vprintf fmt false ap
      else putc 37;; putc c;; vprintf fmt false ap
  end.
End User.

(** ** Lemmas *)

(** Decimal value of a string of digits. *)
Definition decimal (l : bytes) : Z := foldl (fun n c => n * 10 + (c - 48)) 0 l.

Definition horner (base : Z) (ds : list Z) : Z := foldr (fun d n => d + base * n) 0 ds.

Lemma printint_loop_run (T : Type) digits base n fuel x buf : 2 <= base -> 0 <= x < base ^ Z.of_nat n -> (0 < n <= fuel)%nat ->
  exists ds, (forall s : T, printint_loop digits fuel x base buf s = Ok (buf ++ map (fun d => getb d digits) ds) s) /\
    Forall (fun d => 0 <= d < base) ds /\ horner base ds = x /\ (0 < length ds <= n)%nat.
Proof.
  intros Hb. revert n x buf. induction fuel as [|fuel IH]; intros n x buf Hx Hf; [lia|]. destruct n as [|n]; [lia|].
  cbn [printint_loop]. pose proof (Z.mod_pos_bound x base ltac:(lia)) as B. pose proof (Z.div_mod x base ltac:(lia)) as D.
  destruct (Z.eqb_spec (x / base) 0) as [E|N].
  - exists [x mod base]. split; [done|]. split; [by constructor|]. rewrite E in D. unfold horner. cbn [foldr length]. split; lia.
  - assert (Hq : 0 <= x / base < base ^ Z.of_nat n).
    { split; [apply Z.div_pos; lia|]. apply Z.div_lt_upper_bound; [lia|]. rewrite Nat2Z.inj_succ, Z.pow_succ_r in Hx by lia. lia. }
    assert (Hn : (0 < n)%nat) by (destruct n; [cbn in Hq; lia|lia]). destruct (IH n (x / base) (buf ++ [getb (x mod base) digits]) Hq ltac:(lia)) as (ds & E & F & V & L).
    exists (x mod base :: ds). split; [intros s; by rewrite E, <- app_assoc|]. split; [by constructor|]. unfold horner in *. cbn [foldr length]. rewrite V. split; lia.
Qed.

Lemma decimal_horner ds : decimal (map (fun d => 48 + d) (rev ds)) = horner 10 ds.
Proof.
  unfold decimal. induction ds as [|d ds IH]; [done|]. cbn [rev]. rewrite map_app, foldl_app, IH. unfold horner. cbn [map foldl foldr]. lia.
Qed.

Lemma s32_ext x y : x mod 2 ^ 32 = y mod 2 ^ 32 -> s32 x = s32 y.
Proof. intros E. unfold s32, sint. by rewrite E. Qed.

Lemma s32_mod x : s32 x mod 2 ^ 32 = x mod 2 ^ 32.
Proof.
  unfold s32, sint. pose proof (Z.mod_pos_bound x (2 ^ 32) ltac:(lia)). destruct (_ <? _); [by rewrite Z.mod_mod by lia|].
  rewrite <- (Z_mod_plus_full _ 1). replace (x mod 2 ^ 32 - 2 ^ 32 + 1 * 2 ^ 32) with (x mod 2 ^ 32) by lia. by rewrite Z.mod_mod by lia.
Qed.

(** atoi reads what printint writes, up to the wrap-around of an int. *)
Lemma atoi_decimal l rest n : Forall (fun c => 48 <= c <= 57) l -> (forall c, head rest = Some c -> c < 48) ->
  atoi_loop (s32 n) (l ++ rest) = s32 (foldl (fun n c => n * 10 + (c - 48)) n l).
Proof.
  intros F R. revert n. induction l as [|c l IH]; intros n; cbn [app atoi_loop foldl].
  - destruct rest as [|c rest]; [done|]. cbn [atoi_loop]. specialize (R c eq_refl). destruct (Z.leb_spec 48 c); [lia|done].
  - apply Forall_cons in F as [Hc F]. destruct (Z.leb_spec 48 c); [|lia]. destruct (Z.leb_spec c 57); [|lia]. cbn [andb].
    rewrite <- IH by done. f_equal. apply s32_ext. replace (s32 n * 10 + c - 48) with (s32 n * 10 + (c - 48)) by lia. rewrite Zplus_mod, Zmult_mod, s32_mod, <- Zmult_mod, <- Zplus_mod. done.
Qed.

Lemma kdigits_dec d : 0 <= d < 10 -> getb d kdigits = 48 + d.
Proof. intros H. assert (Hd : d ∈ seqZ 0 10) by (apply elem_of_seqZ; lia). clear H. revert d Hd. apply Forall_forall. apply (bool_decide_unpack _). vm_compute. exact I. Qed.

(** ** Theorems *)

(** Numbers survive printing: printf's conversion of any int to decimal
    sends, to any output routine, a minus sign for a negative number and then
    at most ten digits whose value is the absolute value; [buf] never
    overflows, and atoi of the digits of a number that is not negative gives
    the number back. *)
Theorem printint_atoi {T} (putc : Z -> stM T unit) (s : T) x : - 2 ^ 31 <= x < 2 ^ 31 ->
  exists t, printint putc kdigits x 10 true s = sfor ((if x <? 0 then [45] else []) ++ t) putc s /\
    Forall (fun c => 48 <= c <= 57) t /\ (0 < length t <= 10)%nat /\ decimal t = Z.abs x /\ (0 <= x -> atoi (t ++ [0]) = x).
Proof.
  intros Hx. assert (Ha : u32 (if x <? 0 then - x else x) = Z.abs x) by (unfold u32; rewrite Z.mod_small; destruct (Z.ltb_spec x 0); lia).
  destruct (printint_loop_run T kdigits 10 10 15 (Z.abs x) [] ltac:(lia) ltac:(lia) ltac:(lia)) as (ds & E & F & V & L). exists (map (fun d => 48 + d) (rev ds)).
  assert (Et : map (fun d => getb d kdigits) ds = map (fun d => 48 + d) ds) by (apply map_ext_in; intros d Hd; apply list_elem_of_In in Hd; rewrite Forall_forall in F; specialize (F d Hd); by apply kdigits_dec).
  assert (Ft : Forall (fun c => 48 <= c <= 57) (map (fun d => 48 + d) (rev ds))) by (apply Forall_map, Forall_rev; eapply Forall_impl; [exact F|intros d Hd; cbn in *; lia]).
  split; [|split; [done|split; [rewrite length_map, length_rev; lia|split; [by rewrite decimal_horner|]]]].
  - unfold printint. cbn [andb]. replace (if x <? 0 then u32 (- x) else u32 x) with (Z.abs x) by (rewrite <- Ha; by destruct (x <? 0)). unfold sbind. rewrite E, Et. cbn [app].
    f_equal. destruct (x <? 0); [rewrite rev_app_distr|]; cbn [rev app]; by rewrite map_rev.
  - intros H0. unfold atoi. change 0 with (s32 0) at 1. rewrite atoi_decimal; [|done|by intros c [= <-]]. fold (decimal (map (fun d => 48 + d) (rev ds))). rewrite decimal_horner, V.
    unfold s32, sint. rewrite Z.mod_small by lia. destruct (Z.ltb_spec (Z.abs x) (2 ^ (32 - 1))); lia.
Qed.

Lemma printint_atoi_witness : exists t, printint (T := bytes) (fun c => smodify (fun o => o ++ [c])) kdigits (-2147483648) 10 true [] = Ok tt (45 :: t) /\ decimal t = 2147483648.
Proof.
  destruct (printint_atoi (T := bytes) (fun c => smodify (fun o => o ++ [c])) [] (-2147483648)) as (t & E & _ & _ & D & _); [lia|]. exists t. split; [|exact D].
  rewrite E. change (-2147483648 <? 0) with true. cbv iota. clear. assert (H : forall l o, sfor l (fun c => smodify (fun o : bytes => o ++ [c])) o = Ok tt (o ++ l)).
  { induction l as [|c l IH]; intros o; [by rewrite app_nil_r|]. cbn [sfor]. unfold sbind, smodify at 1. rewrite IH, <- app_assoc. reflexivity. }
  apply (H (45 :: t) []).
Defined.
