(* ===== verification/Console.v ===== *)
(** * The console (kernel/uart.c, console.c, printf.c, and procdump of proc.c)

    Input is edited and handed to readers a line at a time; output goes through
    a transmit buffer, or directly for kernel messages and echo.  The UART is a
    device: [Uart] is the access to its registers, and [UartLaws] what its data
    sheet promises.  Each definition is what its function does while it holds
    the locks it takes. *)
From S2P Require Import Prelude Str Ulib Bio Log Crash Machine Types Vm Pipe Proc Printf.
Local Open Scope st_scope.

(** ReadReg and WriteReg *)
Class Uart (D : Type) := { u_read : Z -> D -> Z * D; u_write : Z -> Z -> D -> D }.

Definition RHR : Z := 0.
Definition THR : Z := 0.
Definition IER : Z := 1.
Definition IER_RX_ENABLE : Z := 1.
Definition IER_TX_ENABLE : Z := 2.
Definition FCR : Z := 2.
Definition FCR_FIFO_ENABLE : Z := 1.
Definition FCR_FIFO_CLEAR : Z := 6.
Definition LCR : Z := 3.
Definition LCR_EIGHT_BITS : Z := 3.
Definition LCR_BAUD_LATCH : Z := 128.
Definition LSR : Z := 5.
Definition LSR_RX_READY : Z := 1.
Definition LSR_TX_IDLE : Z := 32.
Notation UART_TX_BUF_SIZE := 32 (only parsing).
Notation INPUT_BUF := 128 (only parsing).
Notation BACKSPACE := 0x100 (only parsing).

(** [cons], the transmit buffer, [panicked], [pr.locking], the device and the
    kernel. *)
Record con (D : Type) := mkCon {
  cn_buf : bytes; cn_r : Z; cn_w : Z; cn_e : Z;
  tx_buf : bytes; tx_w : Z; tx_r : Z;
  cn_panicked : bool; cn_locking : bool; cn_dev : D; cn_k : kst
}.
Arguments mkCon {D}.
Arguments cn_buf {D}. Arguments cn_r {D}. Arguments cn_w {D}. Arguments cn_e {D}. Arguments tx_buf {D}. Arguments tx_w {D}.
Arguments tx_r {D}. Arguments cn_panicked {D}. Arguments cn_locking {D}. Arguments cn_dev {D}. Arguments cn_k {D}.

Section Console.
  Context {D : Type} `{Uart D}.

Definition set_dev (d : D) (s : con D) : con D :=
  mkCon (cn_buf s) (cn_r s) (cn_w s) (cn_e s) (tx_buf s) (tx_w s) (tx_r s) (cn_panicked s) (cn_locking s) d (cn_k s).
Definition set_k (k : kst) (s : con D) : con D :=
  mkCon (cn_buf s) (cn_r s) (cn_w s) (cn_e s) (tx_buf s) (tx_w s) (tx_r s) (cn_panicked s) (cn_locking s) (cn_dev s) k.
Definition set_cons (b : bytes) (r w e : Z) (s : con D) : con D :=
  mkCon b r w e (tx_buf s) (tx_w s) (tx_r s) (cn_panicked s) (cn_locking s) (cn_dev s) (cn_k s).
Definition set_tx (b : bytes) (w r : Z) (s : con D) : con D :=
  mkCon (cn_buf s) (cn_r s) (cn_w s) (cn_e s) b w r (cn_panicked s) (cn_locking s) (cn_dev s) (cn_k s).
Definition set_flags (panicked locking : bool) (s : con D) : con D :=
  mkCon (cn_buf s) (cn_r s) (cn_w s) (cn_e s) (tx_buf s) (tx_w s) (tx_r s) panicked locking (cn_dev s) (cn_k s).

Definition ReadReg (reg : Z) : stM (con D) Z := fun s => let (v, d) := u_read reg (cn_dev s) in Ok v (set_dev d s).
Definition WriteReg (reg v : Z) : stM (con D) unit := fun s => Ok tt (set_dev (u_write reg (u8 v) (cn_dev s)) s).

Definition on_k {A} (m : stM kst A) : stM (con D) A := fun s =>
  match m (cn_k s) with
  | Ok a k => Ok a (set_k k s)
  | Panic msg => Panic msg
  | Sleep c k => Sleep c (set_k k s)
  | Wrong w => Wrong w
  end.

(** The channels [&cons.r] and [&uart_tx_r]: static addresses, apart from those
    of the process table. *)
Definition ch_cons : Z := 0x1001.
Definition ch_uart : Z := 0x1002.

(** ** uart.c *)

Definition uartinit : stM (con D) unit :=
  WriteReg IER 0;;
  WriteReg LCR LCR_BAUD_LATCH;;
  WriteReg 0 3;;
  WriteReg 1 0;;
  WriteReg LCR LCR_EIGHT_BITS;;
  WriteReg FCR (Z.lor FCR_FIFO_ENABLE FCR_FIFO_CLEAR);;
  WriteReg IER (Z.lor IER_TX_ENABLE IER_RX_ENABLE).

(** [polls] bounds the waiting for the transmitter. *)
Fixpoint tx_wait (polls : nat) : stM (con D) unit :=
  match polls with
  | O => fun _ => Wrong "uartputc_sync: transmitter stuck"
  | S polls => v <- ReadReg LSR; if Z.land v LSR_TX_IDLE =? 0 then tx_wait polls else sret tt
  end.

(** When a panic froze the output, the call never returns. *)
Definition uartputc_sync (polls : nat) (c : Z) : stM (con D) unit :=
  s <- sget;
  if cn_panicked s then fun s => Sleep "panicked" s
  else tx_wait polls;; WriteReg THR c.

(** The loop sends at most the [UART_TX_BUF_SIZE] buffered bytes. *)
Fixpoint uartstart_loop (fuel : nat) : stM (con D) unit :=
  match fuel with
  | O => fun _ => Wrong "uartstart: fuel"
  | S fuel =>
      s <- sget;
      if tx_w s =? tx_r s then sret tt
      else
        v <- ReadReg LSR;
        if Z.land v LSR_TX_IDLE =? 0 then sret tt
        else
          let c := getb (tx_r s mod UART_TX_BUF_SIZE) (tx_buf s) in
          smodify (fun s => set_tx (tx_buf s) (tx_w s) (u64 (tx_r s + 1)) s);;
          on_k (wakeup ch_uart);;
          WriteReg THR c;;
          uartstart_loop fuel
  end.
Definition uartstart : stM (con D) unit := uartstart_loop 33.

(** One pass of the loop of uartputc: false when the caller goes to sleep and
    tries again when it runs next. *)
Definition uartputc (c : Z) : stM (con D) bool :=
  s <- sget;
  if cn_panicked s then fun s => Sleep "panicked" s
  else if tx_w s =? u64 (tx_r s + UART_TX_BUF_SIZE) then on_k (sleep ch_uart);; sret false
  else
    smodify (set_tx (setb (tx_w s mod UART_TX_BUF_SIZE) (u8 c) (tx_buf s)) (u64 (tx_w s + 1)) (tx_r s));;
    uartstart;;
    sret true.

Definition uartgetc : stM (con D) Z :=
  v <- ReadReg LSR;
  if Z.land v 1 =? 0 then sret (-1) else ReadReg RHR.

(** ** console.c *)

Section Polls.
  Context (polls : nat).

Definition consputc (c : Z) : stM (con D) unit :=
  if c =? BACKSPACE then uartputc_sync polls 8;; uartputc_sync polls 32;; uartputc_sync polls 8
  else uartputc_sync polls c.

(** The names of procdump; USED has none. *)
Definition state_name (st : procstate) : bytes :=
  match st with
  | UNUSED => [117; 110; 117; 115; 101; 100; 0]
  | SLEEPING => [115; 108; 101; 101; 112; 32; 0]
  | RUNNABLE => [114; 117; 110; 98; 108; 101; 0]
  | RUNNING => [114; 117; 110; 32; 32; 32; 0]
  | ZOMBIE => [122; 111; 109; 98; 105; 101; 0]
  | USED => [63; 63; 63; 0]
  end.

Definition procdump : stM (con D) unit :=
  printf consputc [10; 0] [];;
  s <- sget;
  sfor (k_procs (cn_k s)) (fun p =>
    if bool_decide (p_state p = UNUSED) then sret tt
    else
      printf consputc [37; 100; 32; 37; 115; 32; 37; 115; 0] [AInt (p_pid p); AStr (Some (state_name (p_state p))); AStr (Some (p_name p))];;
      printf consputc [10; 0] []).

(** The loop of kill line; at most [INPUT_BUF] characters are erased. *)
Fixpoint kill_line (fuel : nat) : stM (con D) unit :=
  match fuel with
  | O => fun _ => Wrong "kill line: fuel"
  | S fuel =>
      s <- sget;
      if negb (cn_e s =? cn_w s) && negb (getb (u32 (cn_e s - 1) mod INPUT_BUF) (cn_buf s) =? 10) then
        smodify (fun s => set_cons (cn_buf s) (cn_r s) (cn_w s) (u32 (cn_e s - 1)) s);;
        consputc BACKSPACE;;
        kill_line fuel
      else sret tt
  end.

Definition consoleintr (c : Z) : stM (con D) unit :=
  if c =? 16 then procdump
  else if c =? 21 then kill_line 129
  else if (c =? 8) || (c =? 127) then
    s <- sget;
    if negb (cn_e s =? cn_w s) then
      smodify (fun s => set_cons (cn_buf s) (cn_r s) (cn_w s) (u32 (cn_e s - 1)) s);;
      consputc BACKSPACE
    else sret tt
  else
    s <- sget;
    if negb (c =? 0) && (u32 (cn_e s - cn_r s) <? INPUT_BUF) then
      let c := if c =? 13 then 10 else c in
      consputc c;;
      smodify (fun s => set_cons (setb (cn_e s mod INPUT_BUF) (u8 c) (cn_buf s)) (cn_r s) (cn_w s) (u32 (cn_e s + 1)) s);;
      s <- sget;
      if (c =? 10) || (c =? 4) || (cn_e s =? u32 (cn_r s + INPUT_BUF)) then
        smodify (fun s => set_cons (cn_buf s) (cn_r s) (cn_e s) (cn_e s) s);;
        on_k (wakeup ch_cons)
      else sret tt
    else sret tt.

(** The loop of uartintr over the waiting input; [fuel] bounds it. *)
Fixpoint uartintr_loop (fuel : nat) : stM (con D) unit :=
  match fuel with
  | O => fun _ => Wrong "uartintr: fuel"
  | S fuel => c <- uartgetc; if c =? -1 then sret tt else consoleintr c;; uartintr_loop fuel
  end.
Definition uartintr (fuel : nat) : stM (con D) unit := uartintr_loop fuel;; uartstart.
End Polls.

(** The result of a transfer: done, or asleep with the arguments to go on
    with. *)
Inductive xfer := XDone (r : Z) | XSleep (at_ n : Z).

(** [n] bytes from user address [src], from byte [i] on. *)
Fixpoint consolewrite_loop (fuel : nat) (src i n : Z) : stM (con D) xfer :=
  match fuel with
  | O => fun _ => Wrong "consolewrite: fuel"
  | S fuel =>
      if i <? n then
        s <- sget;
        r <- on_k (copyin (p_pagetable (nth (k_cur (cn_k s)) (k_procs (cn_k s)) proc0)) (u64 (src + i)) 1);
        if fst r =? -1 then sret (XDone i)
        else
          ok <- uartputc (getb 0 (snd r));
          if ok then consolewrite_loop fuel src (i + 1) n else sret (XSleep i n)
      else sret (XDone i)
  end.
Definition consolewrite (src n : Z) : stM (con D) xfer := consolewrite_loop (Z.to_nat n + 1) src 0 n.

(** [n] more bytes of [target] to user address [dst]. *)
Fixpoint consoleread_loop (fuel : nat) (dst n target : Z) : stM (con D) xfer :=
  match fuel with
  | O => fun _ => Wrong "consoleread: fuel"
  | S fuel =>
      if 0 <? n then
        s <- sget;
        let p := nth (k_cur (cn_k s)) (k_procs (cn_k s)) proc0 in
        if cn_r s =? cn_w s then
          if p_killed p then sret (XDone (-1))
          else on_k (sleep ch_cons);; sret (XSleep dst n)
        else
          let c := getb (cn_r s mod INPUT_BUF) (cn_buf s) in
          smodify (fun s => set_cons (cn_buf s) (u32 (cn_r s + 1)) (cn_w s) (cn_e s) s);;
          if c =? 4 then
            (if n <? target then smodify (fun s => set_cons (cn_buf s) (u32 (cn_r s - 1)) (cn_w s) (cn_e s) s) else sret tt);;
            sret (XDone (target - n))
          else
            r <- on_k (copyout (p_pagetable p) dst [c]);
            if r =? -1 then sret (XDone (target - n))
            else if c =? 10 then sret (XDone (target - (n - 1)))
            else consoleread_loop fuel (u64 (dst + 1)) (n - 1) target
      else sret (XDone (target - n))
  end.
Definition consoleread (dst n : Z) : stM (con D) xfer := consoleread_loop (Z.to_nat n + 1) dst n n.

(** consoleinit, without the two entries of devsw. *)
Definition consoleinit : stM (con D) unit := uartinit.

(** ** printf.c: panic *)

Definition printfinit : stM (con D) unit := smodify (fun s => set_flags (cn_panicked s) true s).

(** panic prints and stops; other output is frozen. *)
Definition panic_print (polls : nat) (msg : bytes) : stM (con D) unit :=
  smodify (fun s => set_flags (cn_panicked s) false s);;
  printf (consputc polls) [112; 97; 110; 105; 99; 58; 32; 0] [];;
  printf (consputc polls) msg [];;
  printf (consputc polls) [10; 0] [];;
  smodify (fun s => set_flags true (cn_locking s) s).
End Console.
