(* ===== verification/ConsoleSpec.v ===== *)
(** * What the console does

    The three counters of the input buffer stand for two sequences: the bytes
    that readers may take and the line that is being edited.  consoleintr and
    consoleread implement the line discipline [tty_key] and [tty_read] on them;
    the transmit buffer is a queue in front of the line. *)
From S2P Require Import Prelude Str Ulib Bio Log Crash Machine Types Vm Kmem Pgtbl Uvm VmDemo Pipe Proc Printf Ring Console.
Local Open Scope st_scope.

(** What the data sheet of the UART promises: [rx] is the input that waits,
    [tx] what was sent so far, [busy] how often the line status will still say
    that the transmitter is busy, [latch] that registers 0 and 1 give access to
    the baud rate instead. *)
Class UartLaws (D : Type) `{Uart D} := {
  rx : D -> bytes; tx : D -> bytes; busy : D -> nat; max_busy : nat; latch : D -> bool;
  ul_bytes : forall d, Forall (fun c => 0 <= c < 256) (rx d);
  ul_busy : forall d, (busy d <= max_busy)%nat;
  ul_ready : forall d, Z.land (fst (u_read LSR d)) LSR_RX_READY = 0 <-> rx d = [];
  ul_idle : forall d, Z.land (fst (u_read LSR d)) LSR_TX_IDLE = 0 <-> busy d <> 0%nat;
  ul_lsr : forall d, let d' := snd (u_read LSR d) in rx d' = rx d /\ tx d' = tx d /\ busy d' = Nat.pred (busy d) /\ latch d' = latch d;
  ul_rhr : forall d c l, latch d = false -> rx d = c :: l -> let d' := snd (u_read RHR d) in fst (u_read RHR d) = c /\ rx d' = l /\ tx d' = tx d /\ latch d' = false;
  ul_thr : forall d c, latch d = false -> busy d = 0%nat -> let d' := u_write THR c d in rx d' = rx d /\ tx d' = tx d ++ [c] /\ latch d' = false;
  ul_lcr : forall d v, latch (u_write LCR v d) = negb (Z.land v LCR_BAUD_LATCH =? 0);
  ul_ctl : forall d reg v, reg = IER \/ reg = FCR -> latch (u_write reg v d) = latch d
}.

(** ** The line discipline *)

(** [avail]: complete input; [line]: the line being typed. *)
Record tty := mkTty { avail : bytes; line : bytes }.

Definition tty_cr (c : Z) : Z := if c =? 13 then 10 else c.
Definition tty_room (t : tty) : bool := zlen (avail t) + zlen (line t) <? INPUT_BUF.

(** The line is complete: a newline, control-d, or the buffer is full. *)
Definition tty_ends (c : Z) (t : tty) : bool := (c =? 10) || (c =? 4) || (zlen (avail t) + zlen (line t) + 1 =? INPUT_BUF).

Definition tty_key (c : Z) (t : tty) : tty :=
  if c =? 16 then t
  else if c =? 21 then mkTty (avail t) []
  else if (c =? 8) || (c =? 127) then mkTty (avail t) (removelast (line t))
  else if negb (c =? 0) && tty_room t then
    let l := line t ++ [tty_cr c] in if tty_ends (tty_cr c) t then mkTty (avail t ++ l) [] else mkTty (avail t) l
  else t.

Definition erase : bytes := [8; 32; 8].
Definition tty_echo (c : Z) (t : tty) : bytes :=
  if c =? 21 then concat (replicate (length (line t)) erase)
  else if (c =? 8) || (c =? 127) then match line t with [] => [] | _ => erase end
  else if negb (c =? 0) && tty_room t then [tty_cr c] else [].

Definition tty_wakes (c : Z) (t : tty) : bool :=
  negb (c =? 16) && negb (c =? 21) && negb ((c =? 8) || (c =? 127)) && negb (c =? 0) && tty_room t && tty_ends (tty_cr c) t.

(** What a read of [n] bytes takes: the bytes delivered, what stays, and
    whether the read is over ([first]: nothing was delivered before). *)
Fixpoint tty_read (n : nat) (first : bool) (l : bytes) : bytes * bytes * bool :=
  match n, l with
  | O, _ => ([], l, true)
  | S _, [] => ([], [], false)
  | S n, c :: l =>
      if c =? 4 then ([], if first then l else c :: l, true)
      else if c =? 10 then ([c], l, true)
      else let '(d, r, b) := tty_read n false l in (c :: d, r, b)
  end.

(** ** The counters *)

Definition in_avail {D} (s : con D) : Z := dist (2 ^ 32) (cn_r s) (cn_w s).
Definition in_line {D} (s : con D) : Z := dist (2 ^ 32) (cn_w s) (cn_e s).
Definition tty_of {D} (s : con D) : tty :=
  mkTty (ring INPUT_BUF (cn_buf s) (cn_r s) (in_avail s)) (ring INPUT_BUF (cn_buf s) (cn_w s) (in_line s)).

Record cons_wf {D} (s : con D) : Prop := {
  ck_buf : zlen (cn_buf s) = INPUT_BUF;
  ck_r : 0 <= cn_r s < 2 ^ 32;
  ck_w : 0 <= cn_w s < 2 ^ 32;
  ck_e : 0 <= cn_e s < 2 ^ 32;
  ck_fill : in_avail s + in_line s <= INPUT_BUF
}.
Definition cons_ok {D} (s : con D) : Prop := cons_wf s /\ 10 ∉ line (tty_of s).

(** ** The counters: lemmas *)

Section Counters.
  Context {D : Type}.
  Implicit Types s : con D.

Definition s_edit (e : Z) (s : con D) : con D := set_cons (cn_buf s) (cn_r s) (cn_w s) e s.
Definition s_store (c : Z) (s : con D) : con D := set_cons (setb (cn_e s mod INPUT_BUF) (u8 c) (cn_buf s)) (cn_r s) (cn_w s) (u32 (cn_e s + 1)) s.
Definition s_commit (s : con D) : con D := set_cons (cn_buf s) (cn_r s) (cn_e s) (cn_e s) s.
Definition s_take (s : con D) : con D := set_cons (cn_buf s) (u32 (cn_r s + 1)) (cn_w s) (cn_e s) s.

Lemma counts s : cons_wf s -> 0 <= in_avail s /\ 0 <= in_line s /\ in_avail s + in_line s <= INPUT_BUF.
Proof. intros K. pose proof (dist_bound (2 ^ 32) ltac:(lia) (cn_r s) (cn_w s)). pose proof (dist_bound (2 ^ 32) ltac:(lia) (cn_w s) (cn_e s)). pose proof (ck_fill _ K). unfold in_avail, in_line in *. lia. Qed.

Lemma w_eq s : cons_wf s -> cn_w s = (cn_r s + in_avail s) mod 2 ^ 32.
Proof. intros K. symmetry. apply dist_back. apply (ck_w _ K). Qed.
Lemma e_eq s : cons_wf s -> cn_e s = (cn_w s + in_line s) mod 2 ^ 32.
Proof. intros K. symmetry. apply dist_back. apply (ck_e _ K). Qed.
Lemma e_eq_r s : cons_wf s -> cn_e s = (cn_r s + (in_avail s + in_line s)) mod 2 ^ 32.
Proof. intros K. rewrite (e_eq s K), (w_eq s K) at 1. rewrite Zplus_mod_idemp_l. f_equal. lia. Qed.

Lemma divides128 : (INPUT_BUF | 2 ^ 32).
Proof. by exists 33554432. Qed.

Lemma lens s : cons_wf s -> zlen (avail (tty_of s)) = in_avail s /\ zlen (line (tty_of s)) = in_line s.
Proof. intros K. destruct (counts s K) as (A & B & C). split; by apply ring_len. Qed.

Lemma edit_line s n : cons_wf s -> 0 <= n <= in_line s -> let s' := s_edit ((cn_w s + n) mod 2 ^ 32) s in
  cons_wf s' /\ tty_of s' = mkTty (avail (tty_of s)) (take (Z.to_nat n) (line (tty_of s))).
Proof.
  intros K Hn s'. destruct (counts s K) as (A & B & C). assert (El : in_line s' = n) by (unfold in_line, s'; cbn; apply dist_add; cbn in C; lia). assert (Ea : in_avail s' = in_avail s) by done.
  assert (Et : tty_of s' = mkTty (avail (tty_of s)) (take (Z.to_nat n) (line (tty_of s)))).
  { unfold tty_of. rewrite El. f_equal. cbn [line s' s_edit set_cons cn_buf cn_w]. replace (in_line s) with (n + (in_line s - n)) by lia. rewrite ring_app by lia.
    rewrite take_app_length'; [done|]. pose proof (ring_len INPUT_BUF (cn_buf s) (cn_w s) n ltac:(lia)) as L. unfold zlen in L. lia. }
  split; [|done]. destruct K as [K1 K2 K3 K4 K5]. split; try done; try (by apply Z.mod_pos_bound); lia.
Qed.

Lemma store_line s c : cons_wf s -> 0 <= c < 256 -> in_avail s + in_line s < INPUT_BUF ->
  cons_wf (s_store c s) /\ tty_of (s_store c s) = mkTty (avail (tty_of s)) (line (tty_of s) ++ [c]) /\ in_avail (s_store c s) = in_avail s /\ in_line (s_store c s) = in_line s + 1.
Proof.
  intros K Hc Hr. destruct (counts s K) as (A & B & C). pose proof K as [K1 K2 K3 K4 K5]. assert (Ea : in_avail (s_store c s) = in_avail s) by done.
  assert (El : in_line (s_store c s) = in_line s + 1).
  { unfold in_line at 1, s_store, u32. cbn [set_cons cn_w cn_e]. rewrite (e_eq s K) at 1. rewrite Zplus_mod_idemp_l, <- Z.add_assoc. apply dist_add; lia. }
  assert (E1 : cn_e s mod INPUT_BUF = (cn_w s + in_line s) mod INPUT_BUF) by (rewrite (e_eq s K) at 1; apply mod_ring, divides128).
  assert (E2 : cn_e s mod INPUT_BUF = (cn_r s + (in_avail s + in_line s)) mod INPUT_BUF) by (rewrite (e_eq_r s K) at 1; apply mod_ring, divides128).
  split; [|split; [|done]].
  - split; cbn [s_store set_cons cn_buf cn_r cn_w cn_e]; try done; try (by apply Z.mod_pos_bound); try lia. unfold zlen in *. by rewrite length_setb.
  - unfold tty_of. rewrite El, Ea. cbn [s_store set_cons cn_buf cn_r cn_w avail line]. assert (Eu : u8 c = c) by (unfold u8; by apply Z.mod_small). rewrite Eu. f_equal.
    + rewrite E2. apply ring_set; lia.
    + rewrite E1. apply ring_push; lia.
Qed.

Lemma commit_line s : cons_wf s -> cons_ok (s_commit s) /\ tty_of (s_commit s) = mkTty (avail (tty_of s) ++ line (tty_of s)) [].
Proof.
  intros K. destruct (counts s K) as (A & B & C). pose proof K as [K1 K2 K3 K4 K5].
  assert (Ea : in_avail (s_commit s) = in_avail s + in_line s) by (unfold in_avail at 1; cbn [s_commit set_cons cn_r cn_w]; rewrite (e_eq_r s K); apply dist_add; lia).
  assert (El : in_line (s_commit s) = 0) by (unfold in_line; cbn; unfold dist; by rewrite Z.sub_diag).
  assert (Et : tty_of (s_commit s) = mkTty (avail (tty_of s) ++ line (tty_of s)) []).
  { unfold tty_of. rewrite Ea, El. cbn [s_commit set_cons cn_buf cn_r cn_w avail line]. f_equal. rewrite ring_app by lia. f_equal.
    rewrite <- (ring_wrap INPUT_BUF (2 ^ 32)), <- (w_eq s K) by (lia || apply divides128). done. }
  split; [|done]. split; [split; try done; lia|]. rewrite Et. apply not_elem_of_nil.
Qed.

Lemma take_avail s : cons_wf s -> cn_r s <> cn_w s -> let c := getb (cn_r s mod INPUT_BUF) (cn_buf s) in
  cons_wf (s_take s) /\ avail (tty_of s) = c :: avail (tty_of (s_take s)) /\ line (tty_of (s_take s)) = line (tty_of s).
Proof.
  intros K N c. destruct (counts s K) as (A & B & C). pose proof K as [K1 K2 K3 K4 K5]. assert (P : 0 < in_avail s) by (assert (in_avail s <> 0); [intros E; apply N; by apply (dist_0 (2 ^ 32))|lia]).
  assert (Ea : in_avail (s_take s) = in_avail s - 1).
  { unfold in_avail, s_take, dist, u32. cbn [set_cons cn_r cn_w]. rewrite Zminus_mod_idemp_r. replace (cn_w s - (cn_r s + 1)) with (cn_w s - cn_r s - 1) by lia.
    rewrite <- Zminus_mod_idemp_l. fold (dist (2 ^ 32) (cn_r s) (cn_w s)). fold (in_avail s). apply Z.mod_small. lia. }
  assert (El : in_line (s_take s) = in_line s) by done. split; [split; try done; try (by apply Z.mod_pos_bound); lia|]. split; [|done].
  unfold tty_of. rewrite Ea. cbn [avail s_take set_cons cn_buf cn_r]. unfold u32. rewrite (ring_wrap INPUT_BUF (2 ^ 32)) by (lia || apply divides128). by apply ring_pop.
Qed.

(** Undoing the increment. *)
Lemma take_back s : cons_wf s -> set_cons (cn_buf s) (u32 (u32 (cn_r s + 1) - 1)) (cn_w s) (cn_e s) s = s.
Proof.
  intros [_ K _ _ _]. replace (u32 (u32 (cn_r s + 1) - 1)) with (cn_r s); [by destruct s|]. unfold u32. rewrite Zminus_mod_idemp_l. replace (cn_r s + 1 - 1) with (cn_r s) by lia. symmetry. by apply Z.mod_small.
Qed.

Lemma in_line_0 s : cons_wf s -> (cn_e s =? cn_w s) = (in_line s =? 0).
Proof.
  intros [K1 K2 K3 K4 K5]. apply eq_true_iff_eq. rewrite !Z.eqb_eq. unfold in_line. rewrite (dist_0 (2 ^ 32)) by lia. done.
Qed.

(** Erasing the last character of the line. *)
Lemma erase_line s : cons_ok s -> in_line s <> 0 -> let s' := s_edit (u32 (cn_e s - 1)) s in
  cons_ok s' /\ tty_of s' = mkTty (avail (tty_of s)) (removelast (line (tty_of s))) /\ in_line s' = in_line s - 1 /\
  getb (u32 (cn_e s - 1) mod INPUT_BUF) (cn_buf s) <> 10.
Proof.
  intros [K KL] N s'. destruct (counts s K) as (A & B & C). assert (E : u32 (cn_e s - 1) = (cn_w s + (in_line s - 1)) mod 2 ^ 32).
  { unfold u32. rewrite (e_eq s K) at 1. rewrite Zminus_mod_idemp_l. f_equal. lia. }
  destruct (edit_line s (in_line s - 1) K ltac:(lia)) as [K' T']. rewrite <- E in K', T'. fold s' in K', T'.
  assert (Er : line (tty_of s) = ring INPUT_BUF (cn_buf s) (cn_w s) (in_line s - 1) ++ [getb (u32 (cn_e s - 1) mod INPUT_BUF) (cn_buf s)]).
  { cbn [tty_of line]. replace (in_line s) with (in_line s - 1 + 1) at 1 by lia. rewrite ring_app, ring_1, E by lia. do 3 f_equal. symmetry. apply mod_ring, divides128. }
  assert (Et : tty_of s' = mkTty (avail (tty_of s)) (removelast (line (tty_of s)))).
  { rewrite T'. f_equal. rewrite Er, removelast_last. rewrite take_app_length'; [done|]. pose proof (ring_len INPUT_BUF (cn_buf s) (cn_w s) (in_line s - 1) ltac:(lia)) as L. unfold zlen in L. lia. }
  split; [|split; [done|split]].
  - split; [done|]. rewrite Et. cbn [line]. intros Hin. apply KL. rewrite Er in *. rewrite removelast_last in Hin. apply elem_of_app. by left.
  - unfold in_line at 1. cbn [s' s_edit set_cons cn_w cn_e]. rewrite E. apply dist_add; lia.
  - intros E10. apply KL. rewrite Er, E10. apply elem_of_app. right. by apply elem_of_cons; left.
Qed.

(** The counters do not depend on the device or the kernel. *)
Lemma ok_ext s s' : cn_buf s' = cn_buf s -> cn_r s' = cn_r s -> cn_w s' = cn_w s -> cn_e s' = cn_e s -> (cons_wf s -> cons_wf s') /\ tty_of s' = tty_of s /\ (cons_ok s -> cons_ok s').
Proof.
  intros E1 E2 E3 E4. assert (T : tty_of s' = tty_of s) by (unfold tty_of, in_avail, in_line; by rewrite E1, E2, E3, E4).
  assert (W : cons_wf s -> cons_wf s') by (intros [K1 K2 K3 K4 K5]; split; unfold in_avail, in_line; by rewrite ?E1, ?E2, ?E3, ?E4). split; [done|]. split; [done|]. intros [K KL]. split; [by apply W|]. by rewrite T.
Qed.
Lemma ok_dev s d : cons_ok s -> cons_ok (set_dev d s).
Proof. by apply ok_ext. Qed.
Lemma room_eq s : cons_wf s -> (u32 (cn_e s - cn_r s) <? INPUT_BUF) = tty_room (tty_of s).
Proof.
  intros K. destruct (counts s K) as (A & B & C). unfold tty_room. destruct (lens s K) as [-> ->]. f_equal. unfold u32. rewrite (e_eq_r s K), Zminus_mod_idemp_l.
  replace (cn_r s + (in_avail s + in_line s) - cn_r s) with (in_avail s + in_line s) by lia. apply Z.mod_small. lia.
Qed.

Lemma full_eq s : cons_wf s -> (cn_e s =? u32 (cn_r s + INPUT_BUF)) = (in_avail s + in_line s =? INPUT_BUF).
Proof.
  intros K. destruct (counts s K) as (A & B & C). pose proof (ck_r _ K) as Hr. apply eq_true_iff_eq. rewrite !Z.eqb_eq, (e_eq_r s K) at 1. unfold u32. split; [|by intros ->]. intros E.
  pose proof (dist_add (2 ^ 32) (cn_r s) (in_avail s + in_line s) ltac:(lia)) as D1. pose proof (dist_add (2 ^ 32) (cn_r s) INPUT_BUF ltac:(lia)) as D2. rewrite E, D2 in D1. done.
Qed.
End Counters.

(** ** Output *)

(** Output is not frozen by a panic, and the UART is set up. *)
Definition con_up {D} `{UartLaws D} (s : con D) : Prop := cn_panicked s = false /\ latch (cn_dev s) = false.

Section Spec.
  Context {D : Type} `{UD : Uart D} `{!UartLaws D}.
  Context (polls : nat) (Hpolls : (max_busy < polls)%nat).
  Implicit Types s : con D.

(** The step sends [out] and changes nothing else. *)
Definition emits (m : stM (con D) unit) (out : bytes) : Prop := forall s, con_up s ->
  exists d', m s = Ok tt (set_dev d' s) /\ rx d' = rx (cn_dev s) /\ tx d' = tx (cn_dev s) ++ out /\ con_up (set_dev d' s).

Lemma set_dev_id (s : con D) : set_dev (cn_dev s) s = s.
Proof. by destruct s. Qed.

Lemma emits_bind m n o o' : emits m o -> emits n o' -> emits (m;; n) (o ++ o').
Proof.
  intros Hm Hn s Hs. destruct (Hm s Hs) as (d1 & E1 & R1 & T1 & U1). destruct (Hn (set_dev d1 s) U1) as (d2 & E2 & R2 & T2 & U2). exists d2.
  unfold sbind. rewrite E1, E2. split; [done|]. cbn [set_dev cn_dev] in *. rewrite R2, T2, T1, <- app_assoc. done.
Qed.

Lemma emits_ret : emits (sret tt) [].
Proof. intros s Hs. exists (cn_dev s). rewrite set_dev_id, app_nil_r. done. Qed.

Lemma tx_wait_run n (s : con D) : (busy (cn_dev s) < n)%nat ->
  exists d', tx_wait n s = Ok tt (set_dev d' s) /\ rx d' = rx (cn_dev s) /\ tx d' = tx (cn_dev s) /\ busy d' = 0%nat /\ latch d' = latch (cn_dev s).
Proof.
  revert s. induction n as [|n IH]; intros s Hn; [lia|]. cbn [tx_wait]. unfold sbind, ReadReg. pose proof (ul_idle (cn_dev s)) as I. destruct (ul_lsr (cn_dev s)) as (L1 & L2 & L3 & L4).
  destruct (u_read LSR (cn_dev s)) as [v d1]. cbn [fst snd] in *. destruct (Z.eqb_spec (Z.land v LSR_TX_IDLE) 0) as [E|N].
  - destruct (IH (set_dev d1 s)) as (d2 & E2 & R2 & T2 & B2 & A2); [cbn; apply I in E; lia|]. exists d2. cbn [set_dev cn_dev] in *. rewrite E2, R2, T2, A2, L1, L2, L4. done.
  - exists d1. assert (busy (cn_dev s) = 0%nat) by (destruct (busy (cn_dev s)) eqn:Eb; [done|]; destruct N; apply I; lia). rewrite L1, L2, L3, L4. split; [done|]. split; [done|]. split; [done|]. split; [lia|done].
Qed.

Lemma emits_sync c : emits (uartputc_sync polls c) [u8 c].
Proof.
  intros s Hs. unfold uartputc_sync, sbind at 1, sget. rewrite (proj1 Hs). pose proof (ul_busy (cn_dev s)). destruct (tx_wait_run polls s) as (d1 & E1 & R1 & T1 & B1 & A1); [lia|]. rewrite (proj2 Hs) in A1.
  unfold sbind. rewrite E1. destruct (ul_thr d1 (u8 c) A1 B1) as (R2 & T2 & A2). exists (u_write THR (u8 c) d1). split; [done|]. rewrite R2, T2, R1, T1. split; [done|]. split; [done|]. split; [apply Hs|exact A2].
Qed.

Lemma emits_putc c : emits (consputc polls c) (if c =? BACKSPACE then erase else [u8 c]).
Proof. unfold consputc. destruct (c =? BACKSPACE); [|apply emits_sync]. apply (emits_bind _ _ [8] [32; 8]); [apply emits_sync|]. apply (emits_bind _ _ [32] [8]); apply emits_sync. Qed.

Lemma emits_sfor {I} (f : I -> stM (con D) unit) l : (forall x, x ∈ l -> exists o, emits (f x) o) -> exists o, emits (sfor l f) o.
Proof.
  induction l as [|x l IH]; intros F; [exists []; apply emits_ret|]. destruct (F x) as [o Ho]; [by apply elem_of_cons; left|].
  destruct IH as [o' Ho']; [intros y Hy; apply F; by apply elem_of_cons; right|]. exists (o ++ o'). by apply emits_bind.
Qed.

Lemma emits_chars (l : bytes) : exists o, emits (sfor l (consputc polls)) o.
Proof. apply emits_sfor. intros c _. eexists. apply emits_putc. Qed.

Lemma emits_printint x base : 2 <= base -> 2 ^ 32 <= base ^ 15 -> exists o, emits (printint (consputc polls) kdigits x base true) o.
Proof.
  intros Hb Hp. unfold printint. set (y := if true && (x <? 0) then u32 (- x) else u32 x). assert (Hy : 0 <= y < base ^ Z.of_nat 15).
  { assert (0 <= y < 2 ^ 32); [|lia]. unfold y. destruct (_ && _); apply Z.mod_pos_bound; lia. }
  destruct (printint_loop_run (con D) kdigits base 15 15 y [] Hb Hy ltac:(lia)) as (ds & E & _). destruct (emits_chars (rev (if true && (x <? 0) then ([] ++ map (fun d => getb d kdigits) ds) ++ [45] else [] ++ map (fun d => getb d kdigits) ds))) as [o Ho].
  exists o. intros s Hs. destruct (Ho s Hs) as (d' & H1 & H2). exists d'. split; [|done]. unfold sbind. rewrite E. exact H1.
Qed.

(** procdump prints, whatever the process table. *)
Lemma procdump_run (s : con D) : con_up s ->
  exists d' out, procdump polls s = Ok tt (set_dev d' s) /\ rx d' = rx (cn_dev s) /\ tx d' = tx (cn_dev s) ++ out /\ con_up (set_dev d' s).
Proof.
  intros Hs. assert (H1 : exists o, emits (printf (consputc polls) [10; 0] []) o) by (exists ([10] ++ []); apply (emits_bind (consputc polls 10) (sret tt)); [apply (emits_putc 10)|apply emits_ret]).
  destruct H1 as [o1 H1]. assert (H2 : exists o, emits (sfor (k_procs (cn_k s)) (fun p => if bool_decide (p_state p = UNUSED) then sret tt
      else printf (consputc polls) [37; 100; 32; 37; 115; 32; 37; 115; 0] [AInt (p_pid p); AStr (Some (state_name (p_state p))); AStr (Some (p_name p))];; printf (consputc polls) [10; 0] [])) o).
  { apply emits_sfor. intros p _. destruct (bool_decide _); [exists []; apply emits_ret|]. destruct (emits_printint (p_pid p) 10 ltac:(lia) ltac:(lia)) as [o2 H2].
    destruct (emits_chars (cstr (state_name (p_state p)))) as [o3 H3]. destruct (emits_chars (cstr (p_name p))) as [o4 H4].
    eexists. eapply emits_bind; [|exact H1]. cbn [printf Z.eqb Pos.eqb negb]. eapply emits_bind; [exact H2|]. eapply emits_bind; [apply emits_putc|]. eapply emits_bind; [exact H3|].
    eapply emits_bind; [apply emits_putc|]. eapply emits_bind; [exact H4|apply emits_ret]. }
  destruct H2 as [o2 H2]. destruct (H1 s Hs) as (d1 & E1 & R1 & T1 & U1). destruct (H2 (set_dev d1 s) U1) as (d2 & E2 & R2 & T2 & U2). exists d2, (o1 ++ o2). unfold procdump, sbind at 1. rewrite E1.
  unfold sbind at 1, sget. cbn [set_dev cn_k cn_dev] in *. rewrite E2, R2, T2, R1, T1, app_assoc. done.
Qed.

Definition woken (ch : Z) (k : kst) : kst := match wakeup ch k with Ok _ k' => k' | _ => k end.

Lemma erase_emits (s : con D) : con_up s -> exists d', consputc polls BACKSPACE s = Ok tt (set_dev d' s) /\ rx d' = rx (cn_dev s) /\ tx d' = tx (cn_dev s) ++ erase /\ con_up (set_dev d' s).
Proof. apply (emits_putc BACKSPACE). Qed.

Lemma kill_line_run fuel (s : con D) : cons_ok s -> con_up s -> in_line s < Z.of_nat fuel ->
  exists d', kill_line polls fuel s = Ok tt (set_dev d' (s_edit (cn_w s) s)) /\ rx d' = rx (cn_dev s) /\ tx d' = tx (cn_dev s) ++ concat (replicate (Z.to_nat (in_line s)) erase) /\ latch d' = false.
Proof.
  revert s. induction fuel as [|fuel IH]; intros s K Hp Hf; [destruct (counts s (proj1 K)); lia|]. cbn [kill_line]. unfold sbind at 1, sget. rewrite (in_line_0 s (proj1 K)).
  destruct (Z.eqb_spec (in_line s) 0) as [E0|N]; cbn [negb andb].
  - exists (cn_dev s). rewrite E0, app_nil_r. split; [|split; [done|split; [done|apply Hp]]]. unfold sret. f_equal. assert (cn_e s = cn_w s) by (apply Z.eqb_eq; rewrite (in_line_0 s (proj1 K)), E0; done). unfold s_edit, set_cons, set_dev. destruct s; cbn in *; by subst.
  - destruct (erase_line s K N) as (K1 & T1 & L1 & N10). rewrite (proj2 (Z.eqb_neq _ _) N10). cbn [negb]. set (s1 := s_edit (u32 (cn_e s - 1)) s) in *. unfold sbind at 1, smodify. fold (s_edit (u32 (cn_e s - 1)) s). fold s1.
    destruct (erase_emits s1 Hp) as (d1 & E1 & R1 & X1 & U1). unfold sbind at 1. rewrite E1. destruct (IH (set_dev d1 s1)) as (d2 & E2 & R2 & X2 & U2); [by apply ok_dev|exact U1|change (in_line s1 < Z.of_nat fuel); lia|].
    exists d2. rewrite E2. split; [done|]. cbn [set_dev cn_dev] in *. rewrite R2, X2, R1, X1. split; [done|]. split; [|done]. rewrite <- app_assoc. f_equal. change (in_line (set_dev d1 s1)) with (in_line s1). rewrite L1.
    destruct (counts s (proj1 K)). replace (Z.to_nat (in_line s)) with (S (Z.to_nat (in_line s - 1))) by lia. done.
Qed.

Record keyed (c : Z) (s s' : con D) : Prop := {
  ky_ok : cons_ok s';
  ky_tty : tty_of s' = tty_key c (tty_of s);
  ky_rx : rx (cn_dev s') = rx (cn_dev s);
  ky_tx : exists out, tx (cn_dev s') = tx (cn_dev s) ++ out /\ (c <> 16 -> out = tty_echo c (tty_of s));
  ky_out : tx_buf s' = tx_buf s /\ tx_w s' = tx_w s /\ tx_r s' = tx_r s /\ con_up s';
  ky_k : cn_k s' = if tty_wakes c (tty_of s) then woken ch_cons (cn_k s) else cn_k s
}.

Lemma key_dump s : cons_ok s -> con_up s -> exists s', consoleintr polls 16 s = Ok tt s' /\ keyed 16 s s'.
Proof.
  intros K Hp. destruct (procdump_run s Hp) as (d & out & E & R & T & U). exists (set_dev d s). split; [done|]. split; try done; [by apply ok_dev|]. exists out. split; [done|]. done.
Qed.

Lemma key_kill s : cons_ok s -> con_up s -> exists s', consoleintr polls 21 s = Ok tt s' /\ keyed 21 s s'.
Proof.
  intros K Hp. destruct (counts s (proj1 K)) as (A & B & C). destruct (kill_line_run 129 s K Hp ltac:(lia)) as (d & E & R & T & U). destruct (edit_line s 0 (proj1 K) ltac:(lia)) as [K1 T1].
  rewrite Z.add_0_r, (Z.mod_small (cn_w s)) in K1, T1 by apply (ck_w _ (proj1 K)). exists (set_dev d (s_edit (cn_w s) s)). split; [done|].
  split; try done; [apply ok_dev; split; [done|]; rewrite T1; apply not_elem_of_nil| |by repeat split; try apply Hp]. exists (tty_echo 21 (tty_of s)). split; [|done]. etransitivity; [exact T|]. f_equal. unfold tty_echo. cbn [Z.eqb Pos.eqb].
  destruct (lens s (proj1 K)) as [_ L]. unfold zlen in L. by rewrite <- L, Nat2Z.id.
Qed.

Lemma key_erase c s : c = 8 \/ c = 127 -> cons_ok s -> con_up s -> exists s', consoleintr polls c s = Ok tt s' /\ keyed c s s'.
Proof.
  intros Hc K Hp. destruct (lens s (proj1 K)) as [_ L]. assert (Hk : tty_key c (tty_of s) = mkTty (avail (tty_of s)) (removelast (line (tty_of s)))) by (by destruct Hc as [-> | ->]).
  assert (He : tty_echo c (tty_of s) = match line (tty_of s) with [] => [] | _ => erase end) by (by destruct Hc as [-> | ->]). assert (Hw : tty_wakes c (tty_of s) = false) by (by destruct Hc as [-> | ->]).
  assert (E0 : consoleintr polls c s = (if negb (cn_e s =? cn_w s) then (smodify (fun s => s_edit (u32 (cn_e s - 1)) s);; consputc polls BACKSPACE) s else Ok tt s)).
  { destruct Hc as [-> | ->]; unfold consoleintr; cbn [Z.eqb Pos.eqb orb]; unfold sbind at 1, sget; by destruct (negb _). }
  rewrite E0, (in_line_0 s (proj1 K)). destruct (Z.eqb_spec (in_line s) 0) as [Z0|N]; cbn [negb].
  - assert (El : line (tty_of s) = []) by (apply nil_length_inv; unfold zlen in L; lia). exists s. split; [done|]. split; rewrite ?Hk, ?Hw; try done; [by destruct (tty_of s); cbn in *; subst|]. exists []. rewrite app_nil_r, He, El. done.
  - destruct (erase_line s K N) as (K1 & T1 & _ & _). set (s1 := s_edit (u32 (cn_e s - 1)) s) in *. destruct (erase_emits s1 Hp) as (d1 & E1 & R1 & X1 & U1). exists (set_dev d1 s1). split; [unfold sbind, smodify; fold s1; exact E1|].
    split; rewrite ?Hk, ?Hw; try done; [by apply ok_dev|]. exists erase. split; [done|]. rewrite He. destruct (line (tty_of s)); [exfalso; apply N; by rewrite <- L|done].
Qed.

(** The part of consoleintr after the echo. *)
Definition key_rest (c : Z) (s : con D) : con D :=
  let s1 := s_store c s in
  if (c =? 10) || (c =? 4) || (cn_e s1 =? u32 (cn_r s1 + INPUT_BUF)) then set_k (woken ch_cons (cn_k s)) (s_commit s1) else s1.

Lemma key_rest_ok c s : 0 <= c < 256 -> cons_ok s -> tty_room (tty_of s) = true ->
  cons_ok (key_rest c s) /\
  tty_of (key_rest c s) = (if tty_ends c (tty_of s) then mkTty (avail (tty_of s) ++ line (tty_of s) ++ [c]) [] else mkTty (avail (tty_of s)) (line (tty_of s) ++ [c])) /\
  cn_k (key_rest c s) = if tty_ends c (tty_of s) then woken ch_cons (cn_k s) else cn_k s.
Proof.
  intros Hc [W KL] Hr. destruct (lens s W) as [LA LL]. unfold tty_room in Hr. rewrite LA, LL in Hr. apply Z.ltb_lt in Hr.
  destruct (store_line s c W Hc Hr) as (W1 & T1 & A1 & L1). unfold key_rest, tty_ends. cbv zeta. rewrite (full_eq _ W1), A1, L1, LA, LL, Z.add_assoc.
  destruct (c =? 10) eqn:E10; [|destruct (c =? 4) eqn:E4; [|destruct (_ =? INPUT_BUF) eqn:EF]]; cbn [orb].
  4: { split; [|done]. split; [done|]. rewrite T1. cbn [line]. rewrite elem_of_app, list_elem_of_singleton. apply Z.eqb_neq in E10. intros [H|H]; [by apply KL|congruence]. }
  all: destruct (commit_line (s_store c s) W1) as [K2 T2]; rewrite T1 in T2; (split; [by apply (ok_ext (s_commit (s_store c s)))|split; [|done]]); exact T2.
Qed.

Lemma key_rest_same c s : cn_dev (key_rest c s) = cn_dev s /\ tx_buf (key_rest c s) = tx_buf s /\ tx_w (key_rest c s) = tx_w s /\ tx_r (key_rest c s) = tx_r s /\ cn_panicked (key_rest c s) = cn_panicked s.
Proof. unfold key_rest. cbv zeta. by destruct (_ || _). Qed.

Lemma key_char c s : 0 <= c < 256 -> c ∉ [16; 21; 8; 127] -> cons_ok s -> con_up s -> exists s', consoleintr polls c s = Ok tt s' /\ keyed c s s'.
Proof.
  intros Hc Hn K Hp. rewrite !not_elem_of_cons in Hn. destruct Hn as (N1 & N2 & N3 & N4 & _). pose proof (proj1 K) as W.
  assert (F : (c =? 16) = false /\ (c =? 21) = false /\ (c =? 8) = false /\ (c =? 127) = false) by (rewrite !Z.eqb_neq; done). destruct F as (F1 & F2 & F3 & F4).
  assert (Hk : tty_key c (tty_of s) = if negb (c =? 0) && tty_room (tty_of s) then (if tty_ends (tty_cr c) (tty_of s) then mkTty (avail (tty_of s) ++ line (tty_of s) ++ [tty_cr c]) [] else mkTty (avail (tty_of s)) (line (tty_of s) ++ [tty_cr c])) else tty_of s)
    by (unfold tty_key; by rewrite F1, F2, F3, F4).
  assert (He : tty_echo c (tty_of s) = if negb (c =? 0) && tty_room (tty_of s) then [tty_cr c] else []) by (unfold tty_echo; by rewrite F2, F3, F4).
  assert (Hw : tty_wakes c (tty_of s) = negb (c =? 0) && tty_room (tty_of s) && tty_ends (tty_cr c) (tty_of s)) by (unfold tty_wakes; rewrite F1, F2, F3, F4; done).
  destruct (negb (c =? 0) && tty_room (tty_of s)) eqn:Er.
  - apply andb_true_iff in Er as [Er0 Er]. assert (Hc' : 0 <= tty_cr c < 256) by (unfold tty_cr; destruct (c =? 13); lia). destruct (emits_putc (tty_cr c) s Hp) as (d & E & R & T & U).
    destruct (key_rest_ok (tty_cr c) (set_dev d s) Hc' (ok_dev s d K) Er) as (K' & T' & W'). exists (key_rest (tty_cr c) (set_dev d s)). split.
    + unfold consoleintr. rewrite F1, F2, F3, F4. cbn [orb]. unfold sbind at 1, sget. rewrite (room_eq s W), Er0, Er. cbn [andb]. fold (tty_cr c). unfold sbind at 1. rewrite E. unfold sbind at 1, smodify. unfold sbind at 1.
      unfold key_rest. cbv zeta. fold (s_store (tty_cr c) (set_dev d s)). destruct (_ || _); done.
    + destruct (key_rest_same (tty_cr c) (set_dev d s)) as (S1 & S2 & S3 & S4 & S5). split; rewrite ?Hk, ?Hw, ?S1, ?S2, ?S3, ?S4; try done; [|by repeat split; unfold con_up in *; rewrite ?S5, ?S1; apply U]. exists [tty_cr c]. split; [|by rewrite He].
      cbn [set_dev cn_dev]. rewrite T. f_equal. unfold tty_cr in *. destruct (Z.eqb_spec (if c =? 13 then 10 else c) BACKSPACE); [destruct (c =? 13); lia|]. unfold u8. by rewrite Z.mod_small.
  - exists s. split; [unfold consoleintr; rewrite F1, F2, F3, F4; cbn [orb]; unfold sbind at 1, sget; rewrite (room_eq s W), Er; done|]. split; rewrite ?Hk, ?Hw, ?He; try done. exists []. by rewrite app_nil_r.
Qed.

Lemma key_run c s : 0 <= c < 256 -> cons_ok s -> con_up s -> exists s', consoleintr polls c s = Ok tt s' /\ keyed c s s'.
Proof.
  intros Hc K Hp. destruct (decide (c = 16)) as [->|N1]; [by apply key_dump|]. destruct (decide (c = 21)) as [->|N2]; [by apply key_kill|].
  destruct (decide (c = 8 \/ c = 127)) as [H|N3]; [by apply key_erase|]. apply key_char; try done. rewrite !not_elem_of_cons, elem_of_nil. tauto.
Qed.
End Spec.

(** ** Reading *)

Section Read.
  Context {D : Type} `{UD : Uart D}.
  Implicit Types s : con D.

Definition user_ok (k : kst) (pt a n : Z) : Prop := forall x, a <= x < a + n -> is_Some (ubyte (k_mem k) pt x).

Record read_ok (s : con D) (pt : Z) (fl : list Z) : Prop := {
  ro_cons : cons_ok s;
  ro_space : space_ok (cn_k s) pt fl;
  ro_pt : p_pagetable (nth (k_cur (cn_k s)) (k_procs (cn_k s)) proc0) = pt
}.

(** The reader goes to sleep. *)
Definition asleep (ch : Z) (k : kst) : kst := match sleep ch k with Ok _ k' => k' | _ => k end.

Record has_read (s s' : con D) (pt : Z) (fl : list Z) (dst : Z) (d rest : bytes) (k' : kst) : Prop := {
  hr_ok : cons_ok s';
  hr_tty : tty_of s' = mkTty rest (line (tty_of s));
  hr_dev : cn_dev s' = cn_dev s;
  hr_k : ustored (cn_k s) pt fl k';
  hr_mem : uwrote pt dst d (k_mem (cn_k s)) (k_mem k')
}.

Definition killed (k : kst) : bool := p_killed (nth (k_cur k) (k_procs k) proc0).

Lemma copy_char s pt fl dst n c : read_ok s pt fl -> 0 <= dst -> 0 < n -> user_ok (cn_k s) pt dst n ->
  exists k1, copyout pt dst [c] (cn_k s) = Ok 0 k1 /\ ustored (cn_k s) pt fl k1 /\ uwrote pt dst [c] (k_mem (cn_k s)) (k_mem k1) /\ user_ok k1 pt (dst + 1) (n - 1) /\
    k_procs k1 = k_procs (cn_k s) /\ k_cur k1 = k_cur (cn_k s).
Proof.
  intros [K Sp Hpt] Hd Hn U. destruct (copyout_run pt dst [c] (cn_k s) fl Sp Hd) as (r & k1 & d & E & St & W & [[-> ->]|(-> & L & _ & Hb)]).
  - exists k1. split; [done|]. split; [done|]. split; [done|]. split; [|split; by rewrite (us_mem _ _ _ _ St)]. intros x Hx. rewrite (W x ltac:(lia)). change (zlen [c]) with 1. rewrite decide_False by lia. apply U. lia.
  - exfalso. assert (zlen d = 0) by (change (zlen [c]) with 1 in L; unfold zlen in *; lia). rewrite H, Z.add_0_r in Hb. destruct (U dst ltac:(lia)) as [y Hy]. congruence.
Qed.

Lemma consoleread_loop_run fuel dst n target s pt fl : read_ok s pt fl -> 0 <= n < Z.of_nat fuel -> n <= target -> 0 <= dst -> dst + n < 2 ^ 64 -> user_ok (cn_k s) pt dst n ->
  let '(d, rest, fin) := tty_read (Z.to_nat n) (n =? target) (avail (tty_of s)) in
  exists s' k' r, consoleread_loop fuel dst n target s = Ok r s' /\ has_read s s' pt fl dst d rest k' /\
    if fin then r = XDone (target - n + zlen d) /\ cn_k s' = k'
    else if killed (cn_k s) then r = XDone (-1) /\ cn_k s' = k' else r = XSleep (dst + zlen d) (n - zlen d) /\ cn_k s' = asleep ch_cons k'.
Proof.
  revert dst n s. induction fuel as [|fuel IH]; intros dst n s R Hn Ht Hd Hb U; [lia|]. pose proof R as [K Sp Hpt]. cbn [consoleread_loop].
  assert (RF : forall k', k' = cn_k s -> ustored (cn_k s) pt fl k' /\ uwrote pt dst [] (k_mem (cn_k s)) (k_mem k')) by (intros k' ->; split; [by apply ustored_refl|apply uwrote_nil]).
  destruct (RF (cn_k s) eq_refl) as [RF1 RF2]. destruct (Z.ltb_spec 0 n) as [P|P].
  2: { replace n with 0 by lia. cbn [tty_read Z.to_nat]. exists s, (cn_k s), (XDone (target - 0)). split; [done|]. split; [split; try done; by destruct (tty_of s)|]. split; [f_equal; unfold zlen; cbn; lia|done]. }
  replace (Z.to_nat n) with (S (Z.to_nat (n - 1))) by lia. unfold sbind at 1, sget. destruct (Z.eqb_spec (cn_r s) (cn_w s)) as [E|N].
  { assert (Ea : avail (tty_of s) = []) by (cbn [tty_of avail]; unfold in_avail, dist; by rewrite E, Z.sub_diag). rewrite Ea. cbn [tty_read]. unfold killed. change (zlen []) with 0. rewrite Z.add_0_r, Z.sub_0_r.
    assert (ET : tty_of s = mkTty [] (line (tty_of s))) by (rewrite <- Ea; by destruct (tty_of s)). destruct (p_killed _) eqn:Ek.
    - exists s, (cn_k s), (XDone (-1)). done.
    - exists (set_k (asleep ch_cons (cn_k s)) s), (cn_k s), (XSleep dst n). split; [reflexivity|]. split; [|done]. split; try done. by apply (ok_ext s). }
  destruct (take_avail s (proj1 K) N) as (W1 & EA & EL). set (c := getb (cn_r s mod INPUT_BUF) (cn_buf s)) in *. rewrite EA. cbn [tty_read].
  assert (T1 : tty_of (s_take s) = mkTty (avail (tty_of (s_take s))) (line (tty_of s))) by (rewrite <- EL; by destruct (tty_of (s_take s))).
  assert (K1 : cons_ok (s_take s)) by (split; [done|rewrite EL; apply (proj2 K)]). unfold sbind at 1, smodify at 1. fold (s_take s).
  destruct (c =? 4) eqn:E4.
  { change (zlen []) with 0. rewrite Z.add_0_r. destruct (Z.eqb_spec n target) as [->|Nt].
    - rewrite Z.ltb_irrefl. exists (s_take s), (cn_k s), (XDone (target - target)). done.
    - destruct (Z.ltb_spec n target); [|lia]. pose proof (take_back s (proj1 K)) as E3. set (s3 := set_cons (cn_buf s) (u32 (u32 (cn_r s + 1) - 1)) (cn_w s) (cn_e s) s) in *.
      exists s3, (cn_k s), (XDone (target - n)). split; [done|]. rewrite E3. split; [|done]. split; try done. rewrite <- EA. by destruct (tty_of s). }
  destruct (copy_char s pt fl dst n c R Hd P U) as (k1 & E1 & St & Wr & U1 & Hp1 & Hc1). unfold sbind at 1, on_k at 1. cbn [s_take set_cons cn_k]. rewrite Hpt, E1. cbn [Z.eqb].
  set (s2 := set_k k1 (s_take s)). assert (X2 : cons_ok s2 /\ tty_of s2 = mkTty (avail (tty_of (s_take s))) (line (tty_of s))) by (split; [by apply (ok_ext (s_take s))|done]). destruct X2 as [K2 T2].
  destruct (c =? 10) eqn:E10.
  { exists s2, k1, (XDone (target - (n - 1))). split; [done|]. split; [done|]. split; [f_equal; change (zlen [c]) with 1; lia|done]. }
  assert (R2 : read_ok s2 pt fl) by (split; [done|apply (us_ok _ _ _ _ St)|cbn [s2 set_k cn_k]; by rewrite Hp1, Hc1]). assert (Eu : u64 (dst + 1) = dst + 1) by (unfold u64; apply Z.mod_small; lia). rewrite Eu.
  specialize (IH (dst + 1) (n - 1) s2 R2 ltac:(lia) ltac:(lia) ltac:(lia) ltac:(lia) U1). rewrite (proj2 (Z.eqb_neq (n - 1) target)) in IH by lia. rewrite T2 in IH. cbn [avail] in IH.
  destruct (tty_read (Z.to_nat (n - 1)) false (avail (tty_of (s_take s)))) as [[d rest] fin]. destruct IH as (s' & k' & r & E' & [H1 H2 H3 H4 H5] & HF). rewrite T2 in H2. cbn [s2 set_k cn_k cn_dev] in *.
  assert (Hz : zlen (c :: d) = 1 + zlen d) by (unfold zlen; cbn; lia). exists s', k', r. split; [exact E'|]. split.
  - split; [done|done|done|by eapply ustored_trans|]. apply (uwrote_app pt dst (dst + 1) [c] d _ (k_mem k1)); [done|done|]. by intros _.
  - unfold killed in *. rewrite Hp1, Hc1 in HF. rewrite Hz. replace (target - n + (1 + zlen d)) with (target - (n - 1) + zlen d) by lia. replace (dst + (1 + zlen d)) with (dst + 1 + zlen d) by lia. by replace (n - (1 + zlen d)) with (n - 1 - zlen d) by lia.
Qed.
End Read.

(** ** Transmission *)

Section Transmit.
  Context {D : Type} `{UD : Uart D} `{!UartLaws D}.
  Implicit Types s : con D.

Definition tx_fill (s : con D) : Z := dist (2 ^ 64) (tx_r s) (tx_w s).
Definition tx_queue (s : con D) : bytes := ring UART_TX_BUF_SIZE (tx_buf s) (tx_r s) (tx_fill s).

Record tx_ok (s : con D) : Prop := {
  tk_buf : zlen (tx_buf s) = UART_TX_BUF_SIZE;
  tk_bytes : Forall (fun c => 0 <= c < 256) (tx_buf s);
  tk_r : 0 <= tx_r s < 2 ^ 64;
  tk_w : 0 <= tx_w s < 2 ^ 64;
  tk_fill : tx_fill s <= UART_TX_BUF_SIZE
}.

Lemma divides32 : (UART_TX_BUF_SIZE | 2 ^ 64).
Proof. by exists 576460752303423488. Qed.

Lemma fill_nonneg_tx s : 0 <= tx_fill s.
Proof. apply dist_bound. lia. Qed.

Lemma tx_byte s j : tx_ok s -> 0 <= getb (j mod UART_TX_BUF_SIZE) (tx_buf s) < 256.
Proof.
  intros [K1 KB _ _ _]. rewrite Forall_forall in KB. apply KB, list_elem_of_In, nth_In. pose proof (Z.mod_pos_bound j UART_TX_BUF_SIZE ltac:(lia)). unfold zlen in K1. lia.
Qed.

Lemma tx_w_eq s : tx_ok s -> tx_w s = (tx_r s + tx_fill s) mod 2 ^ 64.
Proof. intros [_ _ _ K _]. symmetry. by apply dist_back. Qed.

Lemma tx_empty s : tx_ok s -> (tx_w s =? tx_r s) = (tx_fill s =? 0).
Proof. intros [_ _ K1 K2 _]. apply eq_true_iff_eq. rewrite !Z.eqb_eq. unfold tx_fill. rewrite (dist_0 (2 ^ 64)) by lia. done. Qed.

Lemma tx_full s : tx_ok s -> (tx_w s =? u64 (tx_r s + UART_TX_BUF_SIZE)) = (tx_fill s =? UART_TX_BUF_SIZE).
Proof.
  intros K. pose proof (fill_nonneg_tx s) as F. pose proof (tk_fill _ K). apply eq_true_iff_eq. rewrite !Z.eqb_eq, (tx_w_eq s K) at 1. unfold u64. split; [|by intros ->]. intros E.
  pose proof (dist_add (2 ^ 64) (tx_r s) (tx_fill s) ltac:(lia)) as D1. pose proof (dist_add (2 ^ 64) (tx_r s) UART_TX_BUF_SIZE ltac:(lia)) as D2. rewrite E, D2 in D1. done.
Qed.

Definition t_take (s : con D) : con D := set_tx (tx_buf s) (tx_w s) (u64 (tx_r s + 1)) s.

Lemma tx_take s : tx_ok s -> tx_fill s <> 0 -> tx_ok (t_take s) /\ tx_fill (t_take s) = tx_fill s - 1 /\
  tx_queue s = getb (tx_r s mod UART_TX_BUF_SIZE) (tx_buf s) :: tx_queue (t_take s).
Proof.
  intros K N. pose proof (fill_nonneg_tx s) as F. pose proof K as [K1 KB K2 K3 K4]. assert (Ef : tx_fill (t_take s) = tx_fill s - 1).
  { unfold tx_fill, t_take, dist, u64. cbn [set_tx tx_r tx_w]. rewrite Zminus_mod_idemp_r. replace (tx_w s - (tx_r s + 1)) with (tx_w s - tx_r s - 1) by lia.
    rewrite <- Zminus_mod_idemp_l. fold (dist (2 ^ 64) (tx_r s) (tx_w s)). fold (tx_fill s). apply Z.mod_small. lia. }
  split; [split; try done; try (by apply Z.mod_pos_bound); lia|]. split; [done|]. unfold tx_queue. rewrite Ef. cbn [t_take set_tx tx_buf tx_r]. unfold u64. rewrite (ring_wrap UART_TX_BUF_SIZE (2 ^ 64)) by (lia || apply divides32).
  apply ring_pop. lia.
Qed.

Definition t_put (c : Z) (s : con D) : con D := set_tx (setb (tx_w s mod UART_TX_BUF_SIZE) (u8 c) (tx_buf s)) (u64 (tx_w s + 1)) (tx_r s) s.

Lemma tx_put c s : tx_ok s -> tx_fill s <> UART_TX_BUF_SIZE -> tx_ok (t_put c s) /\ tx_queue (t_put c s) = tx_queue s ++ [u8 c].
Proof.
  intros K N. pose proof (fill_nonneg_tx s) as F. pose proof K as [K1 KB K2 K3 K4]. assert (Ef : tx_fill (t_put c s) = tx_fill s + 1).
  { unfold tx_fill at 1. cbn [t_put set_tx tx_r tx_w]. unfold u64. rewrite (tx_w_eq s K), Zplus_mod_idemp_l, <- Z.add_assoc. apply dist_add; lia. }
  split; [split; cbn [t_put set_tx tx_buf tx_r tx_w]; try done; try (by apply Z.mod_pos_bound); try lia; [unfold zlen in *; by rewrite length_setb|apply Forall_insert; [done|by apply Z.mod_pos_bound]]|].
  unfold tx_queue. rewrite Ef. cbn [t_put set_tx tx_buf tx_r]. assert (E : tx_w s mod UART_TX_BUF_SIZE = (tx_r s + tx_fill s) mod UART_TX_BUF_SIZE) by (rewrite (tx_w_eq s K) at 1; apply mod_ring, divides32).
  rewrite E. apply ring_push; lia.
Qed.

(** What was sent, followed by what waits. *)
Definition output (s : con D) : bytes := tx (cn_dev s) ++ tx_queue s.

Record started (s s' : con D) : Prop := {
  st_ok : tx_ok s';
  st_output : output s' = output s;
  st_rx : rx (cn_dev s') = rx (cn_dev s);
  st_cons : cn_buf s' = cn_buf s /\ cn_r s' = cn_r s /\ cn_w s' = cn_w s /\ cn_e s' = cn_e s;
  st_up : con_up s';
  st_k : exists j, cn_k s' = Nat.iter j (woken ch_uart) (cn_k s)
}.

Lemma tx_ok_ext s s' : tx_buf s' = tx_buf s -> tx_r s' = tx_r s -> tx_w s' = tx_w s -> tx_ok s -> tx_ok s' /\ tx_queue s' = tx_queue s.
Proof. intros E1 E2 E3 [K1 KB K2 K3 K4]. unfold tx_queue, tx_fill in *. rewrite E1, E2, E3. split; [|done]. split; unfold tx_fill; by rewrite ?E1, ?E2, ?E3. Qed.

Lemma started_refl s d : tx_ok s -> con_up (set_dev d s) -> rx d = rx (cn_dev s) -> tx d = tx (cn_dev s) -> started s (set_dev d s).
Proof.
  intros K U R T. destruct (tx_ok_ext s (set_dev d s) eq_refl eq_refl eq_refl K) as [K' Q]. split; try done; [|by exists 0%nat]. unfold output. rewrite Q. cbn [set_dev cn_dev]. by rewrite T.
Qed.

(** uartstart sends from the front of the queue, until it is empty or the
    transmitter is busy. *)
Lemma uartstart_loop_run fuel s : tx_ok s -> con_up s -> tx_fill s < Z.of_nat fuel -> exists s', uartstart_loop fuel s = Ok tt s' /\ started s s'.
Proof.
  revert s. induction fuel as [|fuel IH]; intros s K U Hf; [pose proof (fill_nonneg_tx s); lia|]. cbn [uartstart_loop]. unfold sbind at 1, sget. rewrite (tx_empty s K).
  destruct (Z.eqb_spec (tx_fill s) 0) as [E0|N]; [exists s; split; [done|]; pose proof (started_refl s (cn_dev s) K) as H; rewrite set_dev_id in H; by apply H|].
  unfold sbind at 1, ReadReg. pose proof (ul_idle (cn_dev s)) as I. destruct (ul_lsr (cn_dev s)) as (L1 & L2 & L3 & L4). destruct (u_read LSR (cn_dev s)) as [v d]. cbn [fst snd] in *. rewrite (proj2 U) in L4.
  destruct (Z.eqb_spec (Z.land v LSR_TX_IDLE) 0) as [Eb|Nb]; [exists (set_dev d s); split; [done|]; apply started_refl; try done; split; [apply U|exact L4]|].
  assert (B : busy d = 0%nat) by (destruct (busy (cn_dev s)) eqn:Eb; [done|]; destruct Nb; apply I; lia). set (c := getb (tx_r s mod UART_TX_BUF_SIZE) (tx_buf s)). destruct (tx_take s K N) as (K1 & F1 & Q1). fold c in Q1.
  assert (Ec : u8 c = c) by (apply Z.mod_small; by apply tx_byte). set (s1 := t_take (set_dev d s)).
  assert (X1 : tx_ok s1 /\ tx_queue s1 = tx_queue (t_take s)) by (apply (tx_ok_ext (t_take s)); done). destruct X1 as [K1' Q1'].
  set (s2 := set_dev (u_write THR (u8 c) d) (set_k (woken ch_uart (cn_k s)) s1)). assert (X2 : tx_ok s2 /\ tx_queue s2 = tx_queue s1) by (apply (tx_ok_ext s1); done). destruct X2 as [K2 Q2].
  destruct (ul_thr d (u8 c) L4 B) as (R2 & T2 & A2).
  destruct (IH s2 K2) as (s' & E' & [S1 S2 S3 S4 S5 S6]); [split; [apply U|exact A2]|change (tx_fill (t_take s) < Z.of_nat fuel); lia|]. exists s'. split; [exact E'|].
  split; [done| |by rewrite S3; cbn; rewrite R2, L1|done|done|].
  - rewrite S2. unfold output. rewrite Q2, Q1', Q1. cbn [s2 set_dev cn_dev]. rewrite T2, L2, Ec, <- app_assoc. done.
  - destruct S6 as [j ->]. exists (S j). cbn [s2 set_dev set_k cn_k]. by rewrite Nat.iter_succ_r.
Qed.

Lemma uartstart_run s : tx_ok s -> con_up s -> exists s', uartstart s = Ok tt s' /\ started s s'.
Proof. intros K U. apply uartstart_loop_run; [done|done|]. pose proof (tk_fill _ K). lia. Qed.

Lemma uartputc_run c s : tx_ok s -> con_up s ->
  (tx_fill s = UART_TX_BUF_SIZE /\ uartputc c s = Ok false (set_k (asleep ch_uart (cn_k s)) s)) \/
  (tx_fill s < UART_TX_BUF_SIZE /\ exists s', uartputc c s = Ok true s' /\ tx_ok s' /\ output s' = output s ++ [u8 c] /\ rx (cn_dev s') = rx (cn_dev s)).
Proof.
  intros K Hp. pose proof (tk_fill _ K) as F. assert (E0 : uartputc c s = if tx_fill s =? UART_TX_BUF_SIZE then (on_k (sleep ch_uart);; sret false) s else (uartstart;; sret true) (t_put c s)).
  { unfold uartputc, sbind at 1, sget. rewrite (proj1 Hp), (tx_full s K). by destruct (_ =? _). }
  rewrite E0. destruct (Z.eqb_spec (tx_fill s) UART_TX_BUF_SIZE) as [E|N]; [left; done|right]. split; [lia|].
  destruct (tx_put c s K N) as [K1 Q1]. destruct (uartstart_run (t_put c s) K1 Hp) as (s' & E' & [S1 S2 S3 _ _ _]). unfold sbind. rewrite E'. exists s'. split; [done|].
  split; [done|]. split; [|done]. rewrite S2. unfold output. rewrite Q1, app_assoc. done.
Qed.
End Transmit.

(** ** Interrupts *)

Section Interrupt.
  Context {D : Type} `{UD : Uart D} `{!UartLaws D}.
  Context (polls : nat) (Hpolls : (max_busy < polls)%nat).
  Implicit Types s : con D.

Lemma uartgetc_run s : con_up s -> exists d', tx d' = tx (cn_dev s) /\ latch d' = false /\
  match rx (cn_dev s) with
  | [] => uartgetc s = Ok (-1) (set_dev d' s) /\ rx d' = []
  | c :: l => uartgetc s = Ok c (set_dev d' s) /\ rx d' = l
  end.
Proof.
  intros U. unfold uartgetc, sbind, ReadReg. pose proof (ul_ready (cn_dev s)) as I. destruct (ul_lsr (cn_dev s)) as (L1 & L2 & _ & L4). destruct (u_read LSR (cn_dev s)) as [v d]. cbn [fst snd] in *. rewrite (proj2 U) in L4.
  change LSR_RX_READY with 1 in I. destruct (Z.eqb_spec (Z.land v 1) 0) as [E|N].
  - exists d. apply I in E. rewrite E in *. done.
  - destruct (rx (cn_dev s)) as [|c l] eqn:Er; [by destruct N; apply I|]. cbn [set_dev cn_dev]. destruct (ul_rhr d c l L4) as (R1 & R2 & R3 & R4); [by rewrite L1|].
    destruct (u_read RHR d) as [v' d']. cbn [fst snd] in *. subst v'. exists d'. rewrite R3, L2. done.
Qed.

(** All waiting input is typed, in order. *)
Lemma uartintr_loop_run fuel s : cons_ok s -> tx_ok s -> con_up s -> (length (rx (cn_dev s)) < fuel)%nat ->
  exists s', uartintr_loop polls fuel s = Ok tt s' /\ cons_ok s' /\ tx_ok s' /\ tty_of s' = fold_left (fun t c => tty_key c t) (rx (cn_dev s)) (tty_of s) /\
    rx (cn_dev s') = [] /\ con_up s'.
Proof.
  revert s. induction fuel as [|fuel IH]; intros s K X Hp Hf; [lia|]. cbn [uartintr_loop]. unfold sbind at 1. destruct (uartgetc_run s Hp) as (d & T & L & G). pose proof (conj (proj1 Hp) L : con_up (set_dev d s)) as Hd. pose proof (ul_bytes (cn_dev s)) as B.
  destruct (rx (cn_dev s)) as [|c l] eqn:Er; destruct G as [-> R].
  - cbn [Z.eqb]. exists (set_dev d s). split; [done|]. split; [by apply ok_dev|]. split; [by apply (tx_ok_ext s)|done].
  - apply Forall_cons in B as [Bc _]. destruct (Z.eqb_spec c (-1)); [lia|]. destruct (key_run polls Hpolls c (set_dev d s) Bc (ok_dev s d K) Hd) as (s1 & E1 & [K1 T1 R1 _ (O1 & O2 & O3 & O4) _]).
    unfold sbind. rewrite E1. cbn [set_dev cn_dev] in R1. destruct (IH s1 K1) as (s' & E' & K' & X' & T' & R' & P'); [by apply (tx_ok_ext (set_dev d s)), (tx_ok_ext s)|done|rewrite R1, R; cbn in Hf; lia|].
    exists s'. split; [done|]. split; [done|]. split; [done|]. split; [|done]. rewrite T', R1, R, T1. done.
Qed.

Lemma uartintr_run fuel s : cons_ok s -> tx_ok s -> con_up s -> (length (rx (cn_dev s)) < fuel)%nat ->
  exists s', uartintr polls fuel s = Ok tt s' /\ cons_ok s' /\ tx_ok s' /\ tty_of s' = fold_left (fun t c => tty_key c t) (rx (cn_dev s)) (tty_of s) /\
    rx (cn_dev s') = [] /\ con_up s'.
Proof.
  intros K X Hp Hf. destruct (uartintr_loop_run fuel s K X Hp Hf) as (s1 & E1 & K1 & X1 & T1 & R1 & P1). destruct (uartstart_run s1 X1 P1) as (s' & E' & [S1 S2 S3 (C1 & C2 & C3 & C4) S5 S6]).
  exists s'. unfold uartintr, sbind. rewrite E1. split; [done|]. destruct (ok_ext s1 s' C1 C2 C3 C4) as (_ & T2 & K2). split; [by apply K2|]. split; [done|]. split; [by rewrite T2|]. split; [by rewrite S3|exact S5].
Qed.

(** ** Theorems *)

(** C19. The console is a line discipline on a byte stream.  For every UART that
    keeps its data sheet's promises, an interrupt types all waiting input: the
    completed input and the line being edited become what [tty_key] says of
    each byte in order (erase, kill line, carriage return, full buffer), and
    the invariant of both buffers is kept.  A read delivers to the user exactly
    what [tty_read] takes from the completed input, also when the 32-bit
    counters wrap; it ends at a newline or at control-d, returns -1 to a
    killed process, and otherwise puts the reader to sleep. *)
Theorem console_refines s : cons_ok s -> tx_ok s -> con_up s ->
  (forall fuel, (length (rx (cn_dev s)) < fuel)%nat -> exists s', uartintr polls fuel s = Ok tt s' /\ cons_ok s' /\ tx_ok s' /\
    tty_of s' = fold_left (fun t c => tty_key c t) (rx (cn_dev s)) (tty_of s) /\ rx (cn_dev s') = []) /\
  (forall dst n pt fl, read_ok s pt fl -> 0 <= n -> 0 <= dst -> dst + n < 2 ^ 64 -> user_ok (cn_k s) pt dst n ->
    let '(d, rest, fin) := tty_read (Z.to_nat n) true (avail (tty_of s)) in
    exists s' k' r, consoleread dst n s = Ok r s' /\ has_read s s' pt fl dst d rest k' /\
      if fin then r = XDone (zlen d) /\ cn_k s' = k'
      else if killed (cn_k s) then r = XDone (-1) /\ cn_k s' = k' else r = XSleep (dst + zlen d) (n - zlen d) /\ cn_k s' = asleep ch_cons k').
Proof.
  intros K X Hp. split.
  - intros fuel Hf. destruct (uartintr_run fuel s K X Hp Hf) as (s' & E & K' & X' & T & R & _). by exists s'.
  - intros dst n pt fl R Hn Hd Hb U. pose proof (consoleread_loop_run (Z.to_nat n + 1) dst n n s pt fl R ltac:(lia) ltac:(lia) Hd Hb U) as H. rewrite Z.eqb_refl in H.
    destruct (tty_read (Z.to_nat n) true (avail (tty_of s))) as [[d rest] fin]. destruct H as (s' & k' & r & E & H1 & H2). exists s', k', r. split; [exact E|]. split; [done|]. by rewrite Z.sub_diag in H2.
Qed.

(** Output is a queue: uartputc appends a byte to what was sent and what
    waits, or puts the writer to sleep when 32 bytes wait; uartstart moves
    bytes from the front of the queue to the line and drops or reorders
    nothing, also when the counters wrap. *)
Theorem uart_fifo s : tx_ok s -> con_up s ->
  (exists s', uartstart s = Ok tt s' /\ tx_ok s' /\ output s' = output s) /\
  forall c, (zlen (tx_queue s) = UART_TX_BUF_SIZE /\ uartputc c s = Ok false (set_k (asleep ch_uart (cn_k s)) s)) \/
    (zlen (tx_queue s) < UART_TX_BUF_SIZE /\ exists s', uartputc c s = Ok true s' /\ tx_ok s' /\ output s' = output s ++ [u8 c]).
Proof.
  intros K Hp. split; [destruct (uartstart_run s K Hp) as (s' & E & [S1 S2 _ _ _ _]); by exists s'|]. intros c. unfold tx_queue. rewrite ring_len by apply fill_nonneg_tx.
  destruct (uartputc_run c s K Hp) as [H|(H & s' & E & K' & O' & _)]; [by left|right]. split; [done|]. by exists s'.
Qed.
End Interrupt.

(** ** A UART that is always ready, and a console in use *)

(** Input, output and the line control register. *)
Definition duart : Type := bytes * bytes * Z.
#[export] Instance demo_uart : Uart duart := {
  u_read reg d := let '(i, o, c) := d in
    if reg =? 5 then (Z.lor 32 (match i with [] => 0 | _ => 1 end), d)
    else if (reg =? 0) && (Z.land c 128 =? 0) then (match i with [] => (0, d) | x :: i => (u8 x, (i, o, c)) end)
    else (0, d);
  u_write reg v d := let '(i, o, c) := d in
    if (reg =? 0) && (Z.land c 128 =? 0) then (i, o ++ [v], c) else if reg =? 3 then (i, o, v) else d
}.

#[export] Instance demo_laws : UartLaws duart.
Proof.
  refine {| rx d := map u8 (fst (fst d)); tx d := snd (fst d); busy _ := 0%nat; max_busy := 0%nat; latch d := negb (Z.land (snd d) 128 =? 0) |}.
  - intros d. apply Forall_map, Forall_forall. intros c _. by apply Z.mod_pos_bound.
  - done.
  - intros [[[|c l] o] r]; cbn; done.
  - intros [[[|c l] o] r]; cbn; done.
  - by intros [[i o] r].
  - intros [[[|c' l'] o] r] c l; cbn [fst snd map]; [done|]. intros H. apply negb_false_iff in H. cbn. rewrite H. intros [= <- <-]. cbn. by rewrite H.
  - intros [[i o] r] c H _. apply negb_false_iff in H. cbn in *. rewrite H. cbn. by rewrite H.
  - by intros [[i o] r] v.
  - intros [[i o] r] reg v [-> | ->]; done.
Defined.

(** "hi" and a newline wait for a reader, across the wrap of the counters;
    "a", erase, "b" and a carriage return have arrived. *)
Definition with_proc (k : kst) (pt : Z) : kst := set_procs (fun _ => [mkP RUNNING 0 false 0 1 None 8192 pt 0 [] None []]) (set_cur 0 k).
Definition demo_k : kst := with_proc vm_k vm_old.
Definition demo_con : con duart :=
  mkCon (setb 126 104 (setb 127 105 (setb 0 10 (zeros 128)))) (2 ^ 32 - 2) 1 1 (zeros 32) 7 7 false true ([97; 8; 98; 13], [], 3) demo_k.

Lemma demo_cons_ok : cons_ok demo_con /\ tx_ok demo_con.
Proof.
  split.
  - split; [|apply not_elem_of_nil]. split; [reflexivity|cbn; lia|cbn; lia|cbn; lia|vm_compute; discriminate].
  - split; [reflexivity|apply (bool_decide_unpack _); vm_compute; exact Logic.I|cbn; lia|cbn; lia|vm_compute; discriminate].
Qed.

Lemma with_proc_ok k pt fl : space_ok k pt fl -> space_ok (with_proc k pt) pt fl /\ p_pagetable (nth (k_cur (with_proc k pt)) (k_procs (with_proc k pt)) proc0) = pt.
Proof. intros S. split; [by apply (space_ok_ext k)|done]. Qed.

Lemma demo_read_ok : read_ok demo_con vm_old vm_free /\ user_ok demo_k vm_old 100 10.
Proof.
  split; [split; [exact (proj1 demo_cons_ok)|exact (proj1 (with_proc_ok _ _ _ vm_old_ok))|exact (proj2 (with_proc_ok _ _ _ vm_old_ok))]|]. intros x Hx.
  assert (F : Forall (fun x => is_Some (ubyte (k_mem demo_k) vm_old x)) (seqZ 100 10)) by (apply (bool_decide_unpack _); vm_compute; exact Logic.I). rewrite Forall_forall in F. apply F, elem_of_seqZ. lia.
Qed.

Lemma console_refines_witness :
  (exists s', uartintr 1 5 demo_con = Ok tt s' /\ tty_of s' = mkTty [104; 105; 10; 98; 10] []) /\
  exists s', consoleread 100 10 demo_con = Ok (XDone 3) s' /\ avail (tty_of s') = [] /\ ubyte (k_mem (cn_k s')) vm_old 101 = Some 105.
Proof.
  destruct demo_cons_ok as [K X], demo_read_ok as [R U]. destruct (@console_refines _ demo_uart demo_laws 1 (le_n 1) demo_con K X (conj eq_refl eq_refl)) as [H1 H2]. split.
  - destruct (H1 5%nat) as (s' & E & _ & _ & T & _); [cbn; lia|]. exists s'. split; [exact E|]. rewrite T. reflexivity.
  - specialize (H2 100 10 vm_old vm_free R ltac:(lia) ltac:(lia) ltac:(lia) U). change (tty_read (Z.to_nat 10) true (avail (tty_of demo_con))) with ([104; 105; 10], @nil Z, true) in H2.
    destruct H2 as (s' & k' & r & E & [_ T _ _ W] & -> & Ek). exists s'. split; [exact E|]. rewrite T, Ek. split; [reflexivity|]. rewrite W by lia. reflexivity.
Defined.

Lemma uart_fifo_witness : exists s', uartputc 65 demo_con = Ok true s' /\ output s' = [65].
Proof.
  destruct (uart_fifo demo_con (proj2 demo_cons_ok) ltac:(split; reflexivity)) as [_ H]. destruct (H 65) as [[H1 _]|(_ & s' & E & _ & O)]; [discriminate H1|]. exists s'. split; [exact E|exact O].
Defined.
