(* ===== verification/Virtio.v ===== *)
(** * The disk driver (kernel/virtio_disk.c, virtio.h)

    The descriptors, the two rings and the book-keeping of the driver, and its
    routines.  virtio_disk_rw is in two parts, up to the wait for the interrupt
    and after it.  A pointer that the driver gives to the device is a [vaddr].
    The registers are read with [mmio] and every write to one is recorded.
    Each definition is what its function does while it holds vdisk_lock. *)
From S2P Require Import Prelude Str Bio Log Crash Machine Types Vm Pipe Proc.
Local Open Scope st_scope.

Notation NUM := 8%nat (only parsing).

Definition VRING_DESC_F_NEXT : Z := 1.
Definition VRING_DESC_F_WRITE : Z := 2.
Definition VIRTIO_BLK_T_IN : Z := 0.
Definition VIRTIO_BLK_T_OUT : Z := 1.

(** Null, [&ops[i]], [bufs[b].data], [&info[i].status] *)
Inductive vaddr := VNull | VOps (i : nat) | VData (b : nat) | VStatus (i : nat).
#[export] Instance vaddr_eq : EqDecision vaddr.
Proof. solve_decision. Defined.

(** struct virtq_desc, struct virtio_blk_req, and struct buf as the driver
    uses it. *)
Record virtq_desc := mkDesc { vd_addr : vaddr; vd_len : Z; vd_flags : Z; vd_next : nat }.
Record virtio_blk_req := mkReq { br_type : Z; br_sector : Z }.
Record dbuf := mkDbuf { db_blockno : Z; db_data : bytes; db_disk : bool }.

(** struct disk, with the rings; the buffers, the kernel, and the writes to
    registers. *)
Record disk := mkDisk {
  v_desc : list virtq_desc;
  v_avail : bytes; v_avail_idx : Z;
  v_used : bytes; v_used_idx : Z;
  v_free : list bool; v_seen : Z;
  v_info_b : list (option nat); v_status : bytes; v_ops : list virtio_blk_req;
  v_bufs : list dbuf; v_k : kst; v_regs : list (Z * Z)
}.

Definition set_desc (f : list virtq_desc -> list virtq_desc) (s : disk) : disk :=
  mkDisk (f (v_desc s)) (v_avail s) (v_avail_idx s) (v_used s) (v_used_idx s) (v_free s) (v_seen s) (v_info_b s) (v_status s) (v_ops s) (v_bufs s) (v_k s) (v_regs s).
Definition set_avail (a : bytes) (i : Z) (s : disk) : disk :=
  mkDisk (v_desc s) a i (v_used s) (v_used_idx s) (v_free s) (v_seen s) (v_info_b s) (v_status s) (v_ops s) (v_bufs s) (v_k s) (v_regs s).
Definition set_used (a : bytes) (i : Z) (s : disk) : disk :=
  mkDisk (v_desc s) (v_avail s) (v_avail_idx s) a i (v_free s) (v_seen s) (v_info_b s) (v_status s) (v_ops s) (v_bufs s) (v_k s) (v_regs s).
Definition set_free (f : list bool -> list bool) (s : disk) : disk :=
  mkDisk (v_desc s) (v_avail s) (v_avail_idx s) (v_used s) (v_used_idx s) (f (v_free s)) (v_seen s) (v_info_b s) (v_status s) (v_ops s) (v_bufs s) (v_k s) (v_regs s).
Definition set_seen (x : Z) (s : disk) : disk :=
  mkDisk (v_desc s) (v_avail s) (v_avail_idx s) (v_used s) (v_used_idx s) (v_free s) x (v_info_b s) (v_status s) (v_ops s) (v_bufs s) (v_k s) (v_regs s).
Definition set_info_b (f : list (option nat) -> list (option nat)) (s : disk) : disk :=
  mkDisk (v_desc s) (v_avail s) (v_avail_idx s) (v_used s) (v_used_idx s) (v_free s) (v_seen s) (f (v_info_b s)) (v_status s) (v_ops s) (v_bufs s) (v_k s) (v_regs s).
Definition set_status (f : bytes -> bytes) (s : disk) : disk :=
  mkDisk (v_desc s) (v_avail s) (v_avail_idx s) (v_used s) (v_used_idx s) (v_free s) (v_seen s) (v_info_b s) (f (v_status s)) (v_ops s) (v_bufs s) (v_k s) (v_regs s).
Definition set_ops (f : list virtio_blk_req -> list virtio_blk_req) (s : disk) : disk :=
  mkDisk (v_desc s) (v_avail s) (v_avail_idx s) (v_used s) (v_used_idx s) (v_free s) (v_seen s) (v_info_b s) (v_status s) (f (v_ops s)) (v_bufs s) (v_k s) (v_regs s).
Definition set_bufs (f : list dbuf -> list dbuf) (s : disk) : disk :=
  mkDisk (v_desc s) (v_avail s) (v_avail_idx s) (v_used s) (v_used_idx s) (v_free s) (v_seen s) (v_info_b s) (v_status s) (v_ops s) (f (v_bufs s)) (v_k s) (v_regs s).
Definition set_vk (k : kst) (s : disk) : disk :=
  mkDisk (v_desc s) (v_avail s) (v_avail_idx s) (v_used s) (v_used_idx s) (v_free s) (v_seen s) (v_info_b s) (v_status s) (v_ops s) (v_bufs s) k (v_regs s).
Definition wreg (r x : Z) : stM disk unit := smodify (fun s =>
  mkDisk (v_desc s) (v_avail s) (v_avail_idx s) (v_used s) (v_used_idx s) (v_free s) (v_seen s) (v_info_b s) (v_status s) (v_ops s) (v_bufs s) (v_k s) (v_regs s ++ [(r, x)])).

(** Channels: [&disk.free[0]] and the address of a buffer, apart from each
    other and from those of other tables. *)
Definition ch_free : Z := 0x1003.
Definition ch_buf (b : nat) : Z := 0x2000 + Z.of_nat b.
Definition wakeup_v (ch : Z) : stM disk unit := fun s =>
  match wakeup ch (v_k s) with
  | Ok _ k => Ok tt (set_vk k s)
  | Panic msg => Panic msg
  | Sleep c k => Sleep c (set_vk k s)
  | Wrong w => Wrong w
  end.

Definition disk_set (b : nat) (x : bool) (s : disk) : disk := set_bufs (alter (fun d => mkDbuf (db_blockno d) (db_data d) x) b) s.

(** ** Descriptors *)

Fixpoint first_free (l : list bool) (i : nat) : option nat :=
  match l with [] => None | true :: _ => Some i | false :: l => first_free l (S i) end.

Definition alloc_desc : stM disk (option nat) :=
  s <- sget;
  match first_free (v_free s) 0 with
  | Some i => smodify (set_free (<[i := false]>));; sret (Some i)
  | None => sret None
  end.

Definition free_desc (i : nat) : stM disk unit :=
  s <- sget;
  if (NUM <=? i)%nat then spanic "free_desc 1"
  else if nth i (v_free s) false then spanic "free_desc 2"
  else
    smodify (set_desc (<[i := mkDesc VNull 0 0 0]>));;
    smodify (set_free (<[i := true]>));;
    wakeup_v ch_free.

Fixpoint free_chain (fuel : nat) (i : nat) : stM disk unit :=
  match fuel with
  | O => fun _ => Wrong "free_chain: fuel"
  | S fuel =>
      s <- sget;
      let d := nth i (v_desc s) (mkDesc VNull 0 0 0) in
      free_desc i;;
      if negb (Z.land (vd_flags d) VRING_DESC_F_NEXT =? 0) then free_chain fuel (vd_next d) else sret tt
  end.

(** The loop of alloc3_desc: [got] are the descriptors so far. *)
Fixpoint alloc3_loop (n : nat) (got : list nat) : stM disk (option (list nat)) :=
  match n with
  | O => sret (Some got)
  | S n =>
      o <- alloc_desc;
      match o with
      | Some i => alloc3_loop n (got ++ [i])
      | None => sfor got free_desc;; sret None
      end
  end.
Definition alloc3_desc : stM disk (option (list nat)) := alloc3_loop 3 [].

(** ** Requests *)

(** virtio_disk_rw up to the notification: its [idx], or nothing when the
    caller sleeps on [&disk.free[0]] and tries again. *)
Definition rw_start (b : nat) (write : bool) : stM disk (option (list nat)) :=
  s <- sget;
  let sector := u32 (db_blockno (nth b (v_bufs s) (mkDbuf 0 [] false)) * 2) in
  idx <- alloc3_desc;
  match idx with
  | Some [i0; i1; i2] =>
      smodify (set_ops (<[i0 := mkReq (if write then VIRTIO_BLK_T_OUT else VIRTIO_BLK_T_IN) sector]>));;
      smodify (set_desc (<[i0 := mkDesc (VOps i0) 16 VRING_DESC_F_NEXT i1]>));;
      smodify (set_desc (<[i1 := mkDesc (VData b) BSIZE (Z.lor (if write then 0 else VRING_DESC_F_WRITE) VRING_DESC_F_NEXT) i2]>));;
      smodify (set_status (<[i0 := 0xff]>));;
      smodify (set_desc (<[i2 := mkDesc (VStatus i0) 1 VRING_DESC_F_WRITE 0]>));;
      smodify (disk_set b true);;
      smodify (set_info_b (<[i0 := Some b]>));;
      smodify (fun s => set_avail (setb (v_avail_idx s mod 8) (Z.of_nat i0) (v_avail s)) (v_avail_idx s) s);;
      smodify (fun s => set_avail (v_avail s) (u16 (v_avail_idx s + 1)) s);;
      wreg 0x050 0;;
      sret idx
  | _ => sret None
  end.

(** virtio_disk_rw after the wait. *)
Definition rw_finish (i0 : nat) : stM disk unit :=
  smodify (set_info_b (<[i0 := None]>));;
  free_chain 4 i0.

(** ** Interrupts *)

Fixpoint intr_loop (fuel : nat) : stM disk unit :=
  match fuel with
  | O => fun _ => Wrong "virtio_disk_intr: fuel"
  | S fuel =>
      s <- sget;
      if v_seen s =? v_used_idx s then sret tt
      else
        let id := Z.to_nat (getb (v_seen s mod 8) (v_used s)) in
        if negb (nth id (v_status s) 0xff =? 0) then spanic "virtio_disk_intr status"
        else
          match nth id (v_info_b s) None with
          | None => fun _ => Wrong "virtio_disk_intr: no buffer"
          | Some b =>
              smodify (disk_set b false);;
              wakeup_v (ch_buf b);;
              smodify (fun s => set_seen (u16 (v_seen s + 1)) s);;
              intr_loop fuel
          end
  end.

Section Registers.
  Context (mmio : Z -> Z).

Definition virtio_disk_intr : stM disk unit :=
  wreg 0x064 (Z.land (mmio 0x060) 3);;
  intr_loop 9.

Definition clear_bits (l : list Z) (x : Z) : Z := fold_left (fun x b => Z.land x (Z.lnot (Z.shiftl 1 b))) l x.

(** [pages] is the address of the rings. *)
Definition virtio_disk_init (pages : Z) : stM disk unit :=
  if negb (mmio 0x000 =? 0x74726976) || negb (mmio 0x004 =? 1) || negb (mmio 0x008 =? 2) || negb (mmio 0x00c =? 0x554d4551) then
    spanic "could not find virtio disk"
  else
    wreg 0x070 1;;
    wreg 0x070 3;;
    wreg 0x020 (u32 (clear_bits [5; 7; 11; 12; 27; 29; 28] (mmio 0x010)));;
    wreg 0x070 11;;
    wreg 0x070 15;;
    wreg 0x028 PGSIZE;;
    wreg 0x030 0;;
    if mmio 0x034 =? 0 then spanic "virtio disk has no queue 0"
    else if mmio 0x034 <? 8 then spanic "virtio disk max queue too short"
    else
      wreg 0x038 8;;
      smodify (fun s => set_used (zeros 8) 0 (set_avail (zeros 8) 0 (set_desc (fun _ => replicate NUM (mkDesc VNull 0 0 0)) s)));;
      wreg 0x040 (u32 (Z.shiftr pages 12));;
      smodify (set_free (fun _ => replicate NUM true)).
End Registers.
