(* ===== verification/VirtioSpec.v ===== *)
(** * The disk driver together with the device

    Any number of processes are inside virtio_disk_rw, each for a buffer of its
    own, while the device takes chains from the available ring and finishes
    them in any order.  The system is a step relation; the theorems say that it
    is a disk whose transfers are atomic, that the driver never panics, and
    that every request is finished. *)
From S2P Require Import Prelude Str Bio Log Crash Machine Types Vm Pipe Proc Kmem Ring Virtio.

(** ** The device, as the virtio specification has it

    How far it has read the available ring, the chains it works on, and its
    contents. *)
Record dev := mkVdev { d_seen : Z; d_work : list nat; d_image : bytes }.

(** It takes the next chain of the available ring. *)
Definition dev_fetch (y : disk * dev) : option (disk * dev) :=
  let '(s, d) := y in
  if d_seen d =? v_avail_idx s then None
  else Some (s, mkVdev (u16 (d_seen d + 1)) (d_work d ++ [Z.to_nat (getb (d_seen d mod 8) (v_avail s))]) (d_image d)).

Definition desc0 : virtq_desc := mkDesc VNull 0 0 0.
Definition has (f b : Z) : bool := negb (Z.land f b =? 0).
Definition buf_data (s : disk) (b : nat) : bytes := default [] (db_data <$> v_bufs s !! b).
Definition set_data (b : nat) (x : bytes) : disk -> disk := set_bufs (alter (fun d => mkDbuf (db_blockno d) x (db_disk d)) b).

(** It finishes the chain that starts at [h]: a request of type OUT stores the
    data at the sector, one of type IN fills the buffer from it; the status is
    0, or 1 when the sectors are not those of the disk; the head goes to the
    used ring.  Nothing is said of a chain that is not a request. *)
Definition dev_complete (h : nat) (y : disk * dev) : option (disk * dev) :=
  let '(s, d) := y in
  let d0 := nth h (v_desc s) desc0 in
  let d1 := nth (vd_next d0) (v_desc s) desc0 in
  let d2 := nth (vd_next d1) (v_desc s) desc0 in
  if negb (bool_decide (h ∈ d_work d)) || negb (has (vd_flags d0) VRING_DESC_F_NEXT && has (vd_flags d1) VRING_DESC_F_NEXT && has (vd_flags d2) VRING_DESC_F_WRITE) then None
  else
    match vd_addr d0, vd_addr d1, vd_addr d2 with
    | VOps j, VData b, VStatus t =>
        let r := nth j (v_ops s) (mkReq 0 0) in
        let off := 512 * br_sector r in
        let n := vd_len d1 in
        let fits := off + n <=? zlen (d_image d) in
        let out := br_type r =? VIRTIO_BLK_T_OUT in
        if negb (Bool.eqb (has (vd_flags d1) VRING_DESC_F_WRITE) (negb out)) then None
        else
          let image := if fits && out then splice off (sub 0 n (buf_data s b)) (d_image d) else d_image d in
          let s1 := if fits && negb out then set_data b (sub off n (d_image d)) s else s in
          let s2 := set_status (<[t := if fits then 0 else 1]>) s1 in
          Some (set_used (setb (v_used_idx s2 mod 8) (Z.of_nat h) (v_used s2)) (u16 (v_used_idx s2 + 1)) s2,
                mkVdev (d_seen d) (filter (fun x => x <> h) (d_work d)) image)
    | _, _, _ => None
    end.

(** ** The system *)

(** A process inside virtio_disk_rw: its arguments and [idx], and how far its
    request is: in the available ring, with the device, in the used ring, or
    seen by the interrupt handler. *)
Inductive stage := Queued | Taken | Finished | Acked.
#[export] Instance stage_eq : EqDecision stage.
Proof. solve_decision. Defined.
Record req := mkQ { q_buf : nat; q_write : bool; q_i0 : nat; q_i1 : nat; q_i2 : nat; q_st : stage }.
Definition q_set (x : stage) (q : req) : req := mkQ (q_buf q) (q_write q) (q_i0 q) (q_i1 q) (q_i2 q) x.
Definition q_ids (q : req) : list nat := [q_i0 q; q_i1 q; q_i2 q].
Definition ids (rs : list req) : list nat := concat (map q_ids rs).

Definition retag (work : list nat) (q : req) : req :=
  match q_st q with
  | Queued => if decide (q_i0 q ∈ work) then q_set Taken q else q
  | Taken => if decide (q_i0 q ∈ work) then q else q_set Finished q
  | _ => q
  end.
Definition ack (q : req) : req := match q_st q with Finished => q_set Acked q | _ => q end.

Record sys := mkSys { y_disk : disk; y_dev : dev; y_reqs : list req }.

(** A buffer of a block of the disk. *)
Definition buf_ok (image : bytes) (b : dbuf) : Prop :=
  0 <= db_blockno b < 2 ^ 31 /\ BSIZE * (db_blockno b + 1) <= zlen image /\ zlen (db_data b) = BSIZE.

Section System.
  Context (mmio : Z -> Z) (device : disk * dev -> disk * dev -> Prop).

Inductive vstep : sys -> sys -> Prop :=
| st_submit s d rs b w i0 i1 i2 s' : b ∉ map q_buf rs -> (b < length (v_bufs s))%nat -> rw_start b w s = Ok (Some [i0; i1; i2]) s' ->
    vstep (mkSys s d rs) (mkSys s' d (rs ++ [mkQ b w i0 i1 i2 Queued]))
| st_full s d rs b w s' : b ∉ map q_buf rs -> rw_start b w s = Ok None s' -> vstep (mkSys s d rs) (mkSys s' d rs)
| st_device s d rs s' d' : device (s, d) (s', d') -> vstep (mkSys s d rs) (mkSys s' d' (map (retag (d_work d')) rs))
| st_intr s d rs s' : virtio_disk_intr mmio s = Ok tt s' -> vstep (mkSys s d rs) (mkSys s' d (map ack rs))
| st_finish s d r1 q r2 s' : db_disk <$> v_bufs s !! q_buf q = Some false -> rw_finish (q_i0 q) s = Ok tt s' ->
    vstep (mkSys s d (r1 ++ q :: r2)) (mkSys s' d (r1 ++ r2))
| st_touch s d rs b bf x : b ∉ map q_buf rs -> v_bufs s !! b = Some bf -> buf_ok (d_image d) x -> db_disk x = db_disk bf ->
    vstep (mkSys s d rs) (mkSys (set_bufs (<[b := x]>) s) d rs).

(** Right after virtio_disk_init. *)
Definition booted (y : sys) : Prop :=
  exists s pages, v_seen s = 0 /\ length (v_info_b s) = NUM /\ length (v_status s) = NUM /\ length (v_ops s) = NUM /\
    virtio_disk_init mmio pages s = Ok tt (y_disk y) /\ d_seen (y_dev y) = 0 /\ d_work (y_dev y) = [] /\ y_reqs y = [] /\
    Forall (buf_ok (d_image (y_dev y))) (v_bufs (y_disk y)).

Inductive reach : sys -> Prop :=
| reach_boot y : booted y -> reach y
| reach_step y y' : reach y -> vstep y y' -> reach y'.
End System.

(** ** The abstract disk *)

(** Contents, buffers (block and data), and the calls under way, with whether
    their transfer has happened. *)
Record adisk := mkA { a_image : bytes; a_bufs : list (Z * bytes); a_calls : list (nat * bool * bool) }.

Inductive astep : adisk -> adisk -> Prop :=
| a_call im bs p b w : b ∉ map (fun c => c.1.1) p -> astep (mkA im bs p) (mkA im bs (p ++ [(b, w, false)]))
| a_write im bs p1 p2 b n x : bs !! b = Some (n, x) ->
    astep (mkA im bs (p1 ++ (b, true, false) :: p2)) (mkA (splice (BSIZE * n) x im) bs (p1 ++ (b, true, true) :: p2))
| a_read im bs p1 p2 b n x : bs !! b = Some (n, x) ->
    astep (mkA im bs (p1 ++ (b, false, false) :: p2)) (mkA im (<[b := (n, sub (BSIZE * n) BSIZE im)]> bs) (p1 ++ (b, false, true) :: p2))
| a_return im bs p1 p2 b w : astep (mkA im bs (p1 ++ (b, w, true) :: p2)) (mkA im bs (p1 ++ p2))
| a_own im bs p b x : b ∉ map (fun c => c.1.1) p -> astep (mkA im bs p) (mkA im (<[b := x]> bs) p)
| a_stay a : astep a a.

Definition performed (q : req) : bool := match q_st q with Queued | Taken => false | _ => true end.
Definition abs (y : sys) : adisk :=
  mkA (d_image (y_dev y)) (map (fun b => (db_blockno b, db_data b)) (v_bufs (y_disk y))) (map (fun q => (q_buf q, q_write q, performed q)) (y_reqs y)).

(** ** The invariant *)

Record q_ok (s : disk) (q : req) : Prop := {
  qo_d0 : v_desc s !! q_i0 q = Some (mkDesc (VOps (q_i0 q)) 16 1 (q_i1 q));
  qo_d1 : v_desc s !! q_i1 q = Some (mkDesc (VData (q_buf q)) BSIZE (if q_write q then 1 else 3) (q_i2 q));
  qo_d2 : v_desc s !! q_i2 q = Some (mkDesc (VStatus (q_i0 q)) 1 2 0);
  qo_info : v_info_b s !! q_i0 q = Some (Some (q_buf q));
  qo_status : performed q = true -> v_status s !! q_i0 q = Some 0;
  qo_buf : exists b, v_bufs s !! q_buf q = Some b /\ db_disk b = negb (bool_decide (q_st q = Acked)) /\
    v_ops s !! q_i0 q = Some (mkReq (if q_write q then 1 else 0) (2 * db_blockno b))
}.

Definition heads (x : stage) (rs : list req) : list nat := map q_i0 (filter (fun q => q_st q = x) rs).

Record vlens (s : disk) : Prop := {
  ln_desc : length (v_desc s) = NUM; ln_avail : length (v_avail s) = NUM; ln_used : length (v_used s) = NUM;
  ln_free : length (v_free s) = NUM; ln_info : length (v_info_b s) = NUM; ln_status : length (v_status s) = NUM; ln_ops : length (v_ops s) = NUM
}.
Definition idx_ok (x : Z) : Prop := 0 <= x < 65536.

Record inv (y : sys) : Prop := {
  iv_len : vlens (y_disk y);
  iv_ids : NoDup (ids (y_reqs y));
  iv_free : forall i, (i < NUM)%nat -> v_free (y_disk y) !! i = Some (bool_decide (i ∉ ids (y_reqs y)));
  iv_q : Forall (q_ok (y_disk y)) (y_reqs y);
  iv_bufs : NoDup (map q_buf (y_reqs y));
  iv_blk : Forall (buf_ok (d_image (y_dev y))) (v_bufs (y_disk y));
  iv_idx : idx_ok (d_seen (y_dev y)) /\ idx_ok (v_avail_idx (y_disk y)) /\ idx_ok (v_seen (y_disk y)) /\ idx_ok (v_used_idx (y_disk y));
  iv_avail : ring 8 (v_avail (y_disk y)) (d_seen (y_dev y)) (dist 65536 (d_seen (y_dev y)) (v_avail_idx (y_disk y))) = map Z.of_nat (heads Queued (y_reqs y));
  iv_work : d_work (y_dev y) ≡ₚ heads Taken (y_reqs y);
  iv_used : exists U, ring 8 (v_used (y_disk y)) (v_seen (y_disk y)) (dist 65536 (v_seen (y_disk y)) (v_used_idx (y_disk y))) = map Z.of_nat U /\ U ≡ₚ heads Finished (y_reqs y)
}.

(** ** Facts on requests *)

Lemma ids_app r1 r2 : ids (r1 ++ r2) = ids r1 ++ ids r2.
Proof. unfold ids. by rewrite map_app, concat_app. Qed.

Lemma ids_cons q rs : ids (q :: rs) = q_ids q ++ ids rs.
Proof. done. Qed.

Lemma ids_mid r1 q r2 : ids (r1 ++ q :: r2) ≡ₚ q_ids q ++ ids (r1 ++ r2).
Proof. rewrite !ids_app, ids_cons. by rewrite (Permutation_app_comm (ids r1)), <- app_assoc, (Permutation_app_comm (ids r2)). Qed.

Lemma elem_ids i q rs : q ∈ rs -> i ∈ q_ids q -> i ∈ ids rs.
Proof. intros H1 H2. unfold ids. apply list_elem_of_In, in_concat. exists (q_ids q). split; [apply in_map|]; by apply list_elem_of_In. Qed.

Ltac id_mem := unfold q_ids; first [by left | by right; left | by right; right; left].

Lemma head_ids q : q_i0 q ∈ q_ids q.
Proof. by left. Qed.

Lemma elem_mid {A} (x y : A) l1 l2 : x ∈ l1 ++ y :: l2 -> x = y \/ x ∈ l1 ++ l2.
Proof. rewrite !elem_of_app, elem_of_cons. tauto. Qed.

(** Distinct requests share no descriptor. *)
Lemma ids_disjoint r1 q r2 q' i : NoDup (ids (r1 ++ q :: r2)) -> q' ∈ r1 ++ r2 -> i ∈ q_ids q -> i ∈ q_ids q' -> False.
Proof. intros H Hq Hi Hj. rewrite ids_mid in H. apply NoDup_app in H as (_ & H & _). apply (H i Hi). by eapply elem_ids. Qed.

Lemma bufs_disjoint r1 q r2 q' : NoDup (map q_buf (r1 ++ q :: r2)) -> q' ∈ r1 ++ r2 -> q_buf q <> q_buf q'.
Proof.
  intros H Hq E. rewrite map_app in H. cbn [map] in H. rewrite <- Permutation_middle, <- map_app in H. apply NoDup_cons in H as [H _]. apply H. rewrite E. apply list_elem_of_In, in_map. by apply list_elem_of_In.
Qed.

Lemma heads_app x r1 r2 : heads x (r1 ++ r2) = heads x r1 ++ heads x r2.
Proof. unfold heads. by rewrite filter_app, map_app. Qed.

Lemma heads_cons x q rs : heads x (q :: rs) = (if decide (q_st q = x) then [q_i0 q] else []) ++ heads x rs.
Proof. unfold heads. rewrite filter_cons. by case_decide. Qed.

Lemma elem_heads h x rs : h ∈ heads x rs <-> exists q, q ∈ rs /\ q_st q = x /\ q_i0 q = h.
Proof.
  unfold heads. rewrite list_elem_of_In, in_map_iff. split.
  - intros (q & <- & Hq). apply list_elem_of_In, list_elem_of_filter in Hq as [E Hq]. eauto.
  - intros (q & Hq & E & <-). exists q. split; [done|]. apply list_elem_of_In, list_elem_of_filter. done.
Qed.

Lemma ids_length rs : length (ids rs) = (3 * length rs)%nat.
Proof. induction rs as [|q rs IH]; [done|]. rewrite ids_cons, length_app, IH. cbn. lia. Qed.

Lemma heads_length x rs : (length (heads x rs) <= length rs)%nat.
Proof. unfold heads. rewrite length_map. apply length_filter. Qed.

(** A request depends on its own entries only. *)
Lemma q_ok_frame s s' q : (forall i, i ∈ q_ids q -> v_desc s' !! i = v_desc s !! i) -> v_info_b s' !! q_i0 q = v_info_b s !! q_i0 q ->
  v_status s' !! q_i0 q = v_status s !! q_i0 q -> v_ops s' !! q_i0 q = v_ops s !! q_i0 q -> v_bufs s' !! q_buf q = v_bufs s !! q_buf q -> q_ok s q -> q_ok s' q.
Proof.
  intros Hd Hi Hs Ho Hb []. split; rewrite ?Hd by id_mem; rewrite ?Hi, ?Hs, ?Ho, ?Hb; done.
Qed.

Lemma q_ok_lt s q i : vlens s -> q_ok s q -> i ∈ q_ids q -> (i < NUM)%nat.
Proof.
  intros [] [] Hi. rewrite <- ln_desc0. unfold q_ids in Hi. rewrite !elem_of_cons in Hi. destruct Hi as [->|[->|[->|Hi]]]; [by eapply lookup_lt_Some..|by apply not_elem_of_nil in Hi].
Qed.

Section Inv.
  Context (s : disk) (d : dev) (rs : list req) (I : inv (mkSys s d rs)).

Lemma inv_lens : vlens s.
Proof. apply I. Qed.

Lemma inv_free i : (i < NUM)%nat -> v_free s !! i = Some (bool_decide (i ∉ ids rs)).
Proof. apply (iv_free _ I). Qed.

Lemma inv_q q : q ∈ rs -> q_ok s q.
Proof. intros H. destruct I as [_ _ _ Hq]. cbn in Hq. rewrite Forall_forall in Hq. by apply Hq. Qed.

Lemma inv_lt i : i ∈ ids rs -> (i < NUM)%nat.
Proof.
  intros H. unfold ids in H. apply list_elem_of_In, in_concat in H as (l & Hl & Hi). apply in_map_iff in Hl as (q & <- & Hq). apply list_elem_of_In in Hq. apply list_elem_of_In in Hi.
  eapply q_ok_lt; [apply inv_lens|by apply inv_q|done].
Qed.

(** At most two requests fit. *)
Lemma inv_two : (length rs <= 2)%nat.
Proof.
  assert (H : (length (ids rs) <= length (seq 0 NUM))%nat).
  { apply submseteq_length, NoDup_submseteq; [apply I|]. intros i Hi. apply elem_of_seq. pose proof (inv_lt i Hi). lia. }
  rewrite ids_length, length_seq in H. lia.
Qed.

(** The device holds the heads of the requests it has taken and of no other. *)
Lemma inv_work q : q ∈ rs -> q_i0 q ∈ d_work d <-> q_st q = Taken.
Proof.
  intros Hq. rewrite (iv_work _ I). cbn [y_reqs]. rewrite elem_heads. split; [|eauto]. intros (q' & Hq' & E & Eh).
  apply list_elem_of_split in Hq as (r1 & r2 & ->). apply elem_mid in Hq' as [->|Hq']; [done|].
  exfalso. eapply (ids_disjoint r1 q r2 q'); [apply I|done|apply head_ids|rewrite <- Eh; apply head_ids].
Qed.
End Inv.

(** Counters and lists, once. *)
Lemma dist_len a b (buf : bytes) (l : list Z) : ring 8 buf a (dist 65536 a b) = l -> dist 65536 a b = Z.of_nat (length l).
Proof. intros H. pose proof (ring_len 8 buf a (dist 65536 a b) ltac:(apply (dist_bound 65536); lia)) as E. rewrite H in E. unfold zlen in E. lia. Qed.

Lemma ring_grow a b (buf : bytes) l x : length buf = NUM -> idx_ok a -> idx_ok b -> (length l < 8)%nat -> ring 8 buf a (dist 65536 a b) = l ->
  ring 8 (setb (b mod 8) x buf) a (dist 65536 a (u16 (b + 1))) = l ++ [x].
Proof.
  intros Hb Ha Hb' Hl H. pose proof (dist_len _ _ _ _ H) as E. unfold idx_ok in *.
  assert (Eb : b mod 8 = (a + Z.of_nat (length l)) mod 8). { rewrite <- (dist_back 65536 a b Hb'). rewrite E. apply Z.mod_mod_divide. by exists 8192. }
  assert (Ed : dist 65536 a (u16 (b + 1)) = Z.of_nat (length l) + 1).
  { rewrite <- (dist_back 65536 a b Hb'). rewrite E. unfold u16. change (2 ^ 16) with 65536. rewrite Zplus_mod_idemp_l, <- Z.add_assoc. apply dist_add; lia. }
  rewrite Ed, Eb, (ring_push 8) by (unfold zlen; lia). by rewrite <- E, H.
Qed.

Lemma ring_drop a b (buf : bytes) x l : idx_ok a -> idx_ok b -> ring 8 buf a (dist 65536 a b) = x :: l ->
  a <> b /\ getb (a mod 8) buf = x /\ ring 8 buf (u16 (a + 1)) (dist 65536 (u16 (a + 1)) b) = l.
Proof.
  intros Ha Hb H. pose proof (dist_len _ _ _ _ H) as E. pose proof (dist_bound 65536 ltac:(lia) a b). cbn in E.
  assert (Ed : dist 65536 (u16 (a + 1)) b = dist 65536 a b - 1).
  { unfold dist, u16 in *. change (2 ^ 16) with 65536. rewrite Zminus_mod_idemp_r. replace (b - (a + 1)) with ((b - a) + (-1)) by lia. rewrite <- Zplus_mod_idemp_l. rewrite Z.mod_small; lia. }
  rewrite (ring_pop 8) in H by lia. injection H as H1 H2. split; [|split; [done|]].
  - intros ->. unfold dist in E. rewrite Z.sub_diag in E. change (0 mod 65536) with 0 in E. lia.
  - rewrite Ed. unfold u16. change (2 ^ 16) with 65536. rewrite ring_wrap by (try lia; by exists 8192). done.
Qed.

Lemma idx_u16 x : idx_ok (u16 x).
Proof. unfold idx_ok, u16. change (2 ^ 16) with 65536. apply Z.mod_pos_bound. lia. Qed.

(** ** Descriptors *)

Definition vwoken (ch : Z) (s : disk) : disk := match wakeup ch (v_k s) with Ok _ k => set_vk k s | _ => s end.

Lemma wakeup_v_run ch s : wakeup_v ch s = Ok tt (vwoken ch s).
Proof. done. Qed.

Definition freed (i : nat) (s : disk) : disk := vwoken ch_free (set_free (<[i := true]>) (set_desc (<[i := desc0]>) s)).

Lemma free_desc_run i s : (i < NUM)%nat -> v_free s !! i = Some false -> free_desc i s = Ok tt (freed i s).
Proof.
  intros Hi Hf. unfold free_desc, sbind, sget. destruct (Nat.leb_spec NUM i); [lia|]. by rewrite (nth_lookup_Some _ _ _ _ Hf).
Qed.

Lemma free_chain_step fuel i s x : v_desc s !! i = Some x -> (i < NUM)%nat -> v_free s !! i = Some false ->
  free_chain (S fuel) i s = if has (vd_flags x) VRING_DESC_F_NEXT then free_chain fuel (vd_next x) (freed i s) else Ok tt (freed i s).
Proof.
  intros Hx Hi Hf. cbn [free_chain]. unfold sbind, sget. rewrite free_desc_run, (nth_lookup_Some _ _ _ _ Hx) by done. unfold has. by destruct (negb _).
Qed.

Lemma first_free_some l : forall k i, first_free l k = Some i -> exists j, i = (k + j)%nat /\ l !! j = Some true.
Proof.
  induction l as [|[] l IH]; intros k i H; [done| |].
  - exists 0%nat. injection H as <-. split; [lia|done].
  - destruct (IH (S k) i H) as (j & -> & Hj). exists (S j). split; [lia|done].
Qed.

Lemma first_free_none l : forall k, first_free l k = None -> forall j, l !! j <> Some true.
Proof. induction l as [|[] l IH]; intros k H j; [done|done|]. destruct j as [|j]; [done|]. by apply (IH (S k)). Qed.

(** The state of the driver but for the descriptors that are free, the
    processes and the registers. *)
Record quiet (s s' : disk) : Prop := {
  qt_free : v_free s' = v_free s;
  qt_desc : forall i, v_free s !! i = Some false -> v_desc s' !! i = v_desc s !! i;
  qt_dlen : length (v_desc s') = length (v_desc s);
  qt_avail : v_avail s' = v_avail s; qt_aidx : v_avail_idx s' = v_avail_idx s;
  qt_used : v_used s' = v_used s; qt_uidx : v_used_idx s' = v_used_idx s; qt_seen : v_seen s' = v_seen s;
  qt_info : v_info_b s' = v_info_b s; qt_status : v_status s' = v_status s; qt_ops : v_ops s' = v_ops s; qt_bufs : v_bufs s' = v_bufs s
}.

Lemma quiet_refl s : quiet s s.
Proof. by split. Qed.

(** Taking descriptors and giving them back. *)
Lemma quiet_back i s s' : quiet (set_free (<[i := false]>) s) s' -> v_free s !! i = Some true -> quiet s (freed i s').
Proof.
  intros [Q1 Q2 Q3 Q4 Q5 Q6 Q7 Q8 Q9 Q10 Q11 Q12] Hi. cbn in *. split; cbn; try done.
  - rewrite Q1, list_insert_insert_eq. by apply list_insert_id.
  - intros j Hj. rewrite list_lookup_insert_ne by congruence. apply Q2. rewrite list_lookup_insert_ne by congruence. done.
  - by rewrite length_insert.
Qed.

Lemma quiet_back2 i j s : i <> j -> v_free s !! i = Some true -> v_free s !! j = Some true ->
  quiet s (freed j (freed i (set_free (<[j := false]>) (set_free (<[i := false]>) s)))).
Proof.
  intros Hn Hi Hj. split; cbn; try done.
  - rewrite (list_insert_insert_ne _ i j true false), !list_insert_insert_eq, (list_insert_id _ i), (list_insert_id _ j) by done. done.
  - intros x Hx. by rewrite !list_lookup_insert_ne by congruence.
  - by rewrite !length_insert.
Qed.

Lemma alloc_desc_bind {A} (f : option nat -> stM disk A) s :
  sbind alloc_desc f s = match first_free (v_free s) 0 with Some i => f (Some i) (set_free (<[i := false]>) s) | None => f None s end.
Proof. unfold alloc_desc, sbind, sget. by destruct first_free. Qed.

Lemma first_free_run s i : first_free (v_free s) 0 = Some i -> v_free s !! i = Some true.
Proof. intros H. by apply first_free_some in H as (j & -> & Hj). Qed.

Definition free_now (s : disk) : nat := length (filter (fun b => b = true) (v_free s)).

Lemma count_insert (l : list bool) : forall i, l !! i = Some true -> length (filter (fun b => b = true) l) = S (length (filter (fun b => b = true) (<[i := false]> l))).
Proof.
  induction l as [|b l IH]; intros [|i] H; [done..| |]; cbn in H.
  - injection H as ->. done.
  - change (<[S i := false]> (b :: l)) with (b :: <[i := false]> l). pose proof (IH i H). rewrite !filter_cons. case_decide; cbn [length]; lia.
Qed.

Lemma free_now_take s i : v_free s !! i = Some true -> free_now s = S (free_now (set_free (<[i := false]>) s)).
Proof.
  apply count_insert.
Qed.

Lemma free_now_none s : first_free (v_free s) 0 = None -> free_now s = 0%nat.
Proof.
  intros H. unfold free_now. pose proof (first_free_none _ _ H) as Hn. clear H. induction (v_free s) as [|b l IH]; [done|]. rewrite filter_cons. case_decide as E; [subst b; by destruct (Hn 0%nat)|].
  apply IH. intros j. apply (Hn (S j)).
Qed.

(** alloc3_desc takes three free descriptors, or leaves the free ones as they
    were when there are fewer. *)
Lemma alloc3_run s : length (v_free s) = NUM ->
  (exists i0 i1 i2, alloc3_desc s = Ok (Some [i0; i1; i2]) (set_free (<[i2 := false]>) (set_free (<[i1 := false]>) (set_free (<[i0 := false]>) s))) /\
     NoDup [i0; i1; i2] /\ (forall i, i ∈ [i0; i1; i2] -> v_free s !! i = Some true)) \/
  (exists s', alloc3_desc s = Ok None s' /\ quiet s s' /\ (free_now s < 3)%nat).
Proof.
  intros Hl. unfold alloc3_desc. cbn [alloc3_loop]. rewrite !alloc_desc_bind.
  destruct (first_free (v_free s) 0) as [i0|] eqn:E0; cycle 1.
  { right. exists s. rewrite (free_now_none _ E0). split; [done|]. split; [apply quiet_refl|lia]. }
  apply first_free_run in E0. pose proof (lookup_lt_Some _ _ _ E0) as L0. set (s1 := set_free (<[i0 := false]>) s). rewrite !alloc_desc_bind. rewrite (free_now_take _ _ E0). fold s1.
  destruct (first_free (v_free s1) 0) as [i1|] eqn:E1; cycle 1.
  { right. exists (freed i0 s1). rewrite (free_now_none _ E1). cbn [app sfor]. unfold sbind at 1 2. rewrite free_desc_run by (cbn; rewrite ?list_lookup_insert_eq; lia || done).
    split; [done|]. split; [|lia]. apply quiet_back; [apply quiet_refl|done]. }
  apply first_free_run in E1. assert (N1 : i1 <> i0). { intros ->. cbn in E1. by rewrite list_lookup_insert_eq in E1 by lia. }
  pose proof E1 as F1. cbn in F1. rewrite list_lookup_insert_ne in F1 by done. pose proof (lookup_lt_Some _ _ _ F1) as L1.
  set (s2 := set_free (<[i1 := false]>) s1). rewrite !alloc_desc_bind. rewrite (free_now_take _ _ E1). fold s2.
  destruct (first_free (v_free s2) 0) as [i2|] eqn:E2; cycle 1.
  { right. exists (freed i1 (freed i0 s2)). rewrite (free_now_none _ E2). cbn [app sfor]. unfold sbind.
    rewrite free_desc_run by (cbn; rewrite ?list_lookup_insert_ne, ?list_lookup_insert_eq by (done || lia); lia || done).
    rewrite free_desc_run by (cbn; rewrite ?list_lookup_insert_ne, ?list_lookup_insert_eq by (done || rewrite ?length_insert; lia); lia || done).
    split; [done|]. split; [|lia]. by apply quiet_back2. }
  apply first_free_run in E2. left. exists i0, i1, i2. split; [done|].
  assert (N2 : i2 <> i1). { intros ->. cbn in E2. by rewrite list_lookup_insert_eq in E2 by (rewrite length_insert; lia). }
  assert (N3 : i2 <> i0). { intros ->. cbn in E2. by rewrite list_lookup_insert_ne, list_lookup_insert_eq in E2 by (done || lia). }
  cbn in E2. rewrite !list_lookup_insert_ne in E2 by done. split.
  - repeat constructor; rewrite ?elem_of_cons, ?elem_of_nil; intuition congruence.
  - intros i Hi. rewrite !elem_of_cons, elem_of_nil in Hi. by destruct Hi as [->|[->|[->|[]]]].
Qed.

(** ** The steps keep the invariant *)

Lemma inv_quiet s s' d rs : inv (mkSys s d rs) -> quiet s s' -> inv (mkSys s' d rs).
Proof.
  intros I [Q1 Q2 Q3 Q4 Q5 Q6 Q7 Q8 Q9 Q10 Q11 Q12]. pose proof (inv_lens _ _ _ I) as []. destruct I as [I1 I2 I3 I4 I5 I6 I7 I8 I9 I10]. cbn in *. split; cbn; rewrite ?Q1, ?Q4, ?Q5, ?Q6, ?Q7, ?Q8, ?Q12; try done.
  - split; congruence.
  - rewrite Forall_forall in I4 |- *. intros q Hq. eapply q_ok_frame; [| | | | |by apply I4]; try congruence. intros i Hi. apply Q2.
    pose proof (elem_ids _ _ _ Hq Hi). rewrite I3 by (eapply q_ok_lt; [done|by apply I4|done]). by rewrite bool_decide_false by tauto.
Qed.

Lemma abs_quiet s s' d rs : quiet s s' -> abs (mkSys s' d rs) = abs (mkSys s d rs).
Proof. intros Q. unfold abs. cbn. by rewrite (qt_bufs _ _ Q). Qed.

Lemma alter_map_same (f : dbuf -> dbuf) b (l : list dbuf) : (forall x, db_blockno (f x) = db_blockno x /\ db_data (f x) = db_data x) ->
  map (fun b => (db_blockno b, db_data b)) (alter f b l) = map (fun b => (db_blockno b, db_data b)) l.
Proof. intros H. revert b. induction l as [|x l IH]; intros [|b]; [done..| |]; cbn. - by destruct (H x) as [-> ->]. - f_equal. apply IH. Qed.

Lemma buf_ok_alter image (f : dbuf -> dbuf) b l : (forall x, db_blockno (f x) = db_blockno x /\ db_data (f x) = db_data x) -> Forall (buf_ok image) l -> Forall (buf_ok image) (alter f b l).
Proof. intros H HF. apply Forall_alter; [done|]. intros x _ Hx. unfold buf_ok in *. by destruct (H x) as [-> ->]. Qed.

Lemma heads_other x q : q_st q <> x -> heads x [q] = [].
Proof. intros H. rewrite heads_cons. by rewrite decide_False. Qed.

(** The state in which virtio_disk_rw waits. *)
Definition submitted (b : nat) (w : bool) (n : Z) (i0 i1 i2 : nat) (s : disk) : disk :=
  mkDisk (<[i2 := mkDesc (VStatus i0) 1 2 0]> (<[i1 := mkDesc (VData b) BSIZE (if w then 1 else 3) i2]> (<[i0 := mkDesc (VOps i0) 16 1 i1]> (v_desc s))))
    (setb (v_avail_idx s mod 8) (Z.of_nat i0) (v_avail s)) (u16 (v_avail_idx s + 1)) (v_used s) (v_used_idx s)
    (<[i2 := false]> (<[i1 := false]> (<[i0 := false]> (v_free s)))) (v_seen s) (<[i0 := Some b]> (v_info_b s)) (<[i0 := 255]> (v_status s))
    (<[i0 := mkReq (if w then 1 else 0) (u32 (n * 2))]> (v_ops s)) (alter (fun d => mkDbuf (db_blockno d) (db_data d) true) b (v_bufs s)) (v_k s) (v_regs s ++ [(80, 0)]).

Lemma rw_start_run b w s bf : length (v_free s) = NUM -> v_bufs s !! b = Some bf ->
  (exists i0 i1 i2, rw_start b w s = Ok (Some [i0; i1; i2]) (submitted b w (db_blockno bf) i0 i1 i2 s) /\ NoDup [i0; i1; i2] /\ (forall i, i ∈ [i0; i1; i2] -> v_free s !! i = Some true)) \/
  (exists s', rw_start b w s = Ok None s' /\ quiet s s' /\ (free_now s < 3)%nat).
Proof.
  intros Hl Hb. unfold rw_start. destruct (alloc3_run s Hl) as [(i0 & i1 & i2 & E & H)|(s' & E & H)].
  - left. exists i0, i1, i2. split; [|done]. unfold sbind, sget. rewrite E. rewrite (nth_lookup_Some _ _ _ _ Hb). by destruct w.
  - right. exists s'. split; [|done]. unfold sbind, sget. by rewrite E.
Qed.

Section Submit.
  Context (s : disk) (d : dev) (rs : list req) (I : inv (mkSys s d rs)).
  Context (b : nat) (w : bool) (bf : dbuf) (i0 i1 i2 : nat).
  Context (Hb : v_bufs s !! b = Some bf) (Hnew : b ∉ map q_buf rs) (Hnd : NoDup [i0; i1; i2]) (Hfree : forall i, i ∈ [i0; i1; i2] -> v_free s !! i = Some true).

Let q := mkQ b w i0 i1 i2 Queued.
Let s' := submitted b w (db_blockno bf) i0 i1 i2 s.

Lemma sub_new i : i ∈ [i0; i1; i2] -> (i < NUM)%nat /\ i ∉ ids rs.
Proof.
  intros Hi. pose proof (Hfree i Hi) as F. pose proof (lookup_lt_Some _ _ _ F) as L. rewrite (ln_free _ (inv_lens _ _ _ I)) in L. split; [done|].
  rewrite (inv_free _ _ _ I i L) in F. injection F as F. by apply bool_decide_eq_true in F.
Qed.

Lemma sub_neq : i0 <> i1 /\ i0 <> i2 /\ i1 <> i2.
Proof. pose proof Hnd as H. rewrite !NoDup_cons, !not_elem_of_cons in H. tauto. Qed.

Lemma sub_lt : (i0 < NUM)%nat /\ (i1 < NUM)%nat /\ (i2 < NUM)%nat.
Proof. repeat split; apply sub_new; [by left|by right; left|by right; right; left]. Qed.

Lemma sub_q : q_ok s' q.
Proof.
  pose proof (inv_lens _ _ _ I) as []. destruct sub_neq as (N1 & N2 & N3), sub_lt as (L1 & L2 & L3).
  split; cbn; rewrite ?list_lookup_insert_ne, ?list_lookup_insert_eq by (done || rewrite ?length_insert; lia); try done.
  exists (mkDbuf (db_blockno bf) (db_data bf) true). split; [|split; [done|]].
  - by rewrite list_lookup_alter_eq, Hb.
  - pose proof (iv_blk _ I) as HB. rewrite Forall_lookup in HB. destruct (HB _ _ Hb) as (Hn & _). cbn. do 3 f_equal. unfold u32. rewrite Z.mod_small; lia.
Qed.

Lemma sub_others q' : q' ∈ rs -> q_ok s' q'.
Proof.
  intros Hq. assert (Hi : forall i, i ∈ q_ids q' -> i ∉ [i0; i1; i2]). { intros i Hi Hin. apply sub_new in Hin as [_ Hin]. apply Hin. by eapply elem_ids. }
  pose proof (Hi _ (head_ids q')) as H0. rewrite !not_elem_of_cons in H0. destruct H0 as (X0 & X1 & X2 & _).
  eapply q_ok_frame; [| | | | |by eapply inv_q]; cbn; rewrite ?list_lookup_insert_ne by congruence; try done.
  - intros i Hj. pose proof (Hi i Hj) as H1. rewrite !not_elem_of_cons in H1. destruct H1 as (Y0 & Y1 & Y2 & _). by rewrite !list_lookup_insert_ne by congruence.
  - rewrite list_lookup_alter_ne; [done|]. intros ->. apply Hnew, list_elem_of_In, in_map, list_elem_of_In, Hq.
Qed.

Lemma sub_inv : inv (mkSys s' d (rs ++ [q])).
Proof.
  pose proof (inv_lens _ _ _ I) as HL. pose proof (inv_two _ _ _ I) as H2. destruct sub_lt as (L1 & L2 & L3). destruct I as [I1 I2 I3 I4 I5 I6 I7 I8 I9 I10]. destruct HL. cbn in *.
  assert (Hx : forall x, x <> Queued -> heads x (rs ++ [q]) = heads x rs). { intros x Hx. rewrite heads_app, (heads_other x q), app_nil_r by done. done. }
  split; cbn -[heads ids setb]; rewrite ?Hx by done; try done.
  - split; cbn; unfold setb; rewrite ?length_insert; done.
  - rewrite ids_app. apply NoDup_app. split; [done|]. split; [|by cbn]. intros i Hi Hin. cbn in Hin. by apply sub_new in Hin as [_ Hin].
  - intros i Hi. rewrite ids_app. cbn. destruct (decide (i ∈ [i0; i1; i2])) as [Hin|Hin].
    + rewrite bool_decide_false by (rewrite elem_of_app; tauto). rewrite !elem_of_cons, elem_of_nil in Hin.
      destruct (decide (i = i2)) as [->|]; [by rewrite list_lookup_insert_eq by (rewrite !length_insert; lia)|]. destruct (decide (i = i1)) as [->|]; [by rewrite list_lookup_insert_ne, list_lookup_insert_eq by (done || rewrite !length_insert; lia)|].
      destruct Hin as [->|[|[|[]]]]; try done. by rewrite !list_lookup_insert_ne, list_lookup_insert_eq by (done || lia).
    + pose proof Hin as Hin'. rewrite !not_elem_of_cons in Hin'. destruct Hin' as (Y0 & Y1 & Y2 & _). rewrite !list_lookup_insert_ne, I3 by congruence. f_equal. apply bool_decide_ext. rewrite elem_of_app. tauto.
  - apply Forall_app. split; [|apply Forall_singleton, sub_q]. rewrite Forall_forall. apply sub_others.
  - rewrite map_app. apply NoDup_app. split; [done|]. split; [|by apply NoDup_singleton]. intros x Hx' Hin. cbn in Hin. apply list_elem_of_singleton in Hin. by subst x.
  - by apply buf_ok_alter.
  - destruct I7 as (A & B & C & D). repeat split; try apply A; try apply C; try apply D; apply idx_u16.
  - rewrite heads_app, heads_cons, decide_True, map_app by done. cbn -[heads setb]. apply ring_grow; try tauto. rewrite length_map. pose proof (heads_length Queued rs). lia.
Qed.
End Submit.

(** One request moves on; the others stay. *)
Lemma ids_set l1 q x l2 : ids (l1 ++ q_set x q :: l2) = ids (l1 ++ q :: l2).
Proof. by rewrite !ids_app, !ids_cons. Qed.

Lemma bufs_set l1 q x l2 : map q_buf (l1 ++ q_set x q :: l2) = map q_buf (l1 ++ q :: l2).
Proof. by rewrite !map_app. Qed.

Lemma heads_set y l1 q x l2 : heads y (l1 ++ q_set x q :: l2) = heads y l1 ++ (if decide (x = y) then [q_i0 q] else []) ++ heads y l2.
Proof. by rewrite heads_app, heads_cons. Qed.

Lemma heads_mid y l1 q l2 : heads y (l1 ++ q :: l2) = heads y l1 ++ (if decide (q_st q = y) then [q_i0 q] else []) ++ heads y l2.
Proof. by rewrite heads_app, heads_cons. Qed.

Lemma heads_first x rs h t : heads x rs = h :: t -> exists l1 q l2, rs = l1 ++ q :: l2 /\ heads x l1 = [] /\ q_st q = x /\ q_i0 q = h /\ heads x l2 = t.
Proof.
  induction rs as [|q rs IH]; [done|]. rewrite heads_cons. case_decide as E; cbn -[heads].
  - intros H. injection H as <- <-. by exists [], q, rs.
  - intros H. destruct (IH H) as (l1 & q' & l2 & -> & Hl & Hr). exists (q :: l1), q', l2. rewrite heads_cons, decide_False, Hl by done. done.
Qed.

Lemma q_set_frame s s' q x : (forall i, i ∈ q_ids q -> v_desc s' !! i = v_desc s !! i) -> v_info_b s' !! q_i0 q = v_info_b s !! q_i0 q -> v_ops s' !! q_i0 q = v_ops s !! q_i0 q ->
  (performed (q_set x q) = true -> v_status s' !! q_i0 q = Some 0) -> (exists b b', v_bufs s !! q_buf q = Some b /\ v_bufs s' !! q_buf q = Some b' /\ db_blockno b' = db_blockno b /\ db_disk b' = negb (bool_decide (x = Acked))) ->
  q_ok s q -> q_ok s' (q_set x q).
Proof.
  intros Hd Hi Ho Hs (b & b' & E & E' & En & Ed) [Q1 Q2 Q3 Q4 Q5 (b0 & E0 & _ & Q6)]. split; cbn; rewrite ?Hd by id_mem; rewrite ?Hi, ?Ho; try done.
  exists b'. rewrite Q6. rewrite E in E0. injection E0 as <-. by rewrite En.
Qed.

Section Mid.
  Context (s : disk) (d : dev) (l1 : list req) (q : req) (l2 : list req) (I : inv (mkSys s d (l1 ++ q :: l2))).

Lemma mid_in : q ∈ l1 ++ q :: l2.
Proof. apply elem_of_app. right. by left. Qed.

Lemma mid_other q' : q' ∈ l1 ++ l2 -> q' ∈ l1 ++ q :: l2.
Proof. rewrite !elem_of_app, elem_of_cons. tauto. Qed.

Lemma mid_ids q' i : q' ∈ l1 ++ l2 -> i ∈ q_ids q' -> i ∉ q_ids q.
Proof. intros H Hi Hj. eapply ids_disjoint; [apply I|done|done|done]. Qed.

Lemma mid_head q' : q' ∈ l1 ++ l2 -> q_i0 q' <> q_i0 q.
Proof. intros H E. apply (mid_ids q' (q_i0 q')); [done|apply head_ids|]. rewrite E. apply head_ids. Qed.

Lemma mid_buf q' : q' ∈ l1 ++ l2 -> q_buf q' <> q_buf q.
Proof. intros H E. by apply (bufs_disjoint l1 q l2 q' (iv_bufs _ I)). Qed.

Lemma mid_q : q_ok s q.
Proof. eapply inv_q; [apply I|apply mid_in]. Qed.

(** Only the stage of [q] follows a change of the work of the device that
    concerns [q] alone. *)
Lemma retag_mid work x : (forall h, h <> q_i0 q -> h ∈ work <-> h ∈ d_work d) -> retag work q = q_set x q -> map (retag work) (l1 ++ q :: l2) = l1 ++ q_set x q :: l2.
Proof.
  intros Hw Hq. assert (Ho : forall l, (forall q', q' ∈ l -> q' ∈ l1 ++ l2) -> map (retag work) l = l).
  { induction l as [|q' l IH]; [done|]. intros Hl. cbn. rewrite IH by (intros; apply Hl; by right). f_equal. pose proof (Hl q' ltac:(by left)) as Hin.
    unfold retag. pose proof (Hw (q_i0 q') (mid_head _ Hin)) as Hi. rewrite (inv_work _ _ _ I q' (mid_other _ Hin)) in Hi.
    destruct (q_st q') eqn:E; try done; [rewrite decide_False|rewrite decide_True]; try done; rewrite Hi; done. }
  rewrite map_app. cbn. rewrite Hq, !Ho; [done|..]; intros q' H; rewrite elem_of_app; tauto.
Qed.

(** The requests after [q] has moved on, in a state that differs at [q] only. *)
Lemma mid_all s' x : (forall i, i ∉ q_ids q -> v_desc s' !! i = v_desc s !! i) -> (forall i, i <> q_i0 q -> v_info_b s' !! i = v_info_b s !! i) ->
  (forall i, i <> q_i0 q -> v_status s' !! i = v_status s !! i) -> (forall i, i <> q_i0 q -> v_ops s' !! i = v_ops s !! i) -> (forall b, b <> q_buf q -> v_bufs s' !! b = v_bufs s !! b) ->
  q_ok s' (q_set x q) -> Forall (q_ok s') (l1 ++ q_set x q :: l2).
Proof.
  intros Hd Hi Hs Ho Hb Hq. assert (H : forall q', q' ∈ l1 ++ l2 -> q_ok s' q').
  { intros q' H. eapply q_ok_frame; [| | | | |eapply inv_q; [apply I|by apply mid_other]]; [intros i Hin; apply Hd; by eapply mid_ids|apply Hi|apply Hs|apply Ho|apply Hb]; by (apply mid_head || apply mid_buf). }
  rewrite Forall_forall. intros q' Hin. apply elem_mid in Hin as [->|Hin]; [done|by apply H].
Qed.
End Mid.

(** The device takes a chain. *)
Lemma fetch_inv s d rs s' d' : inv (mkSys s d rs) -> dev_fetch (s, d) = Some (s', d') -> inv (mkSys s' d' (map (retag (d_work d')) rs)) /\ abs (mkSys s' d' (map (retag (d_work d')) rs)) = abs (mkSys s d rs).
Proof.
  intros I H. unfold dev_fetch in H. destruct (Z.eqb_spec (d_seen d) (v_avail_idx s)) as [|Hne]; [done|]. injection H as <- <-.
  pose proof (iv_avail _ I) as Ha. destruct (iv_idx _ I) as (X1 & X2 & X3 & X4). cbn -[heads] in Ha, X1, X2.
  destruct (heads Queued rs) as [|h t] eqn:Eh.
  { apply dist_len in Ha. cbn in Ha. by apply dist_0 in Ha. }
  cbn in Ha. apply ring_drop in Ha as (_ & Eg & Ha); [|done..]. destruct (heads_first _ _ _ _ Eh) as (l1 & q & l2 & -> & Hl1 & Hst & Hh & Ht).
  rewrite Eg, Nat2Z.id. cbn [d_work]. assert (Eq : map (retag (d_work d ++ [h])) (l1 ++ q :: l2) = l1 ++ q_set Taken q :: l2).
  { apply (retag_mid s d l1 q l2 I); [intros x Hx; rewrite elem_of_app, elem_of_cons, elem_of_nil, Hh in *; tauto|]. unfold retag. rewrite Hst, decide_True; [done|]. rewrite Hh. apply elem_of_app. right. by left. }
  rewrite Eq. split; [|unfold abs; cbn; rewrite !map_app; cbn; unfold performed; cbn; by rewrite Hst].
  destruct I as [I1 I2 I3 I4 I5 I6 I7 I8 I9 I10]. cbn -[heads ids] in *. split; cbn -[heads ids]; rewrite ?ids_set, ?bufs_set; try done.
  - apply Forall_app in I4 as [F1 F2]. apply Forall_cons in F2 as [Fq F2]. apply Forall_app. split; [done|]. apply Forall_cons. split; [|done].
    pose proof Fq as []. destruct qo_buf0 as (b & B1 & B2 & B3). eapply q_set_frame; try done. exists b, b. rewrite Hst in B2. done.
  - repeat split; try apply idx_u16; try apply X2; try apply X3; apply X4.
  - rewrite heads_set, Hl1, Ht. done.
  - rewrite heads_set, I9, heads_mid, Hst, Hh. cbn -[heads]. solve_Permutation.
  - rewrite heads_set. rewrite heads_mid, Hst in I10. done.
Qed.

Lemma sub_whole (l : bytes) n : zlen l = n -> sub 0 n l = l.
Proof. intros <-. unfold sub, zlen. rewrite Nat2Z.id. cbn. apply firstn_all. Qed.

Lemma alter_is_insert {A} (f : A -> A) (i : nat) (l : list A) x : l !! i = Some x -> alter f i l = <[i := f x]> l.
Proof.
  intros H. apply list_eq. intros j. destruct (decide (i = j)) as [<-|Hn].
  - by rewrite list_lookup_alter_eq, list_lookup_insert_eq, H by (by eapply lookup_lt_Some).
  - by rewrite list_lookup_alter_ne, list_lookup_insert_ne.
Qed.

(** What the device does with the chain of a request. *)
Section Complete.
  Context (s : disk) (d : dev) (l1 : list req) (q : req) (l2 : list req) (I : inv (mkSys s d (l1 ++ q :: l2))) (Hst : q_st q = Taken).
  Context (bf : dbuf) (Hbf : v_bufs s !! q_buf q = Some bf).

Let off := BSIZE * db_blockno bf.
Let image' := if q_write q then splice off (db_data bf) (d_image d) else d_image d.
Let bf' := if q_write q then bf else mkDbuf (db_blockno bf) (sub off BSIZE (d_image d)) (db_disk bf).
Let s' := set_used (setb (v_used_idx s mod 8) (Z.of_nat (q_i0 q)) (v_used s)) (u16 (v_used_idx s + 1)) (set_status (<[q_i0 q := 0]>) (set_bufs (<[q_buf q := bf']>) s)).
Let d' := mkVdev (d_seen d) (filter (fun x => x <> q_i0 q) (d_work d)) image'.

Lemma comp_buf : buf_ok (d_image d) bf.
Proof. pose proof (iv_blk _ I) as H. rewrite Forall_lookup in H. by eapply H. Qed.

Lemma comp_run : dev_complete (q_i0 q) (s, d) = Some (s', d').
Proof.
  destruct comp_buf as (Hn & Him & Hlen). pose proof (mid_q _ _ _ _ _ I) as [Q1 Q2 Q3 Q4 Q5 (b & B1 & B2 & B3)]. rewrite Hbf in B1. injection B1 as <-.
  unfold dev_complete. rewrite bool_decide_true by (apply (inv_work _ _ _ I q (mid_in _ _ _)); done).
  rewrite (nth_lookup_Some _ _ _ _ Q1). cbn [vd_next vd_flags vd_addr]. rewrite (nth_lookup_Some _ _ _ _ Q2). cbn [vd_next vd_flags vd_addr vd_len]. rewrite (nth_lookup_Some _ _ _ _ Q3). cbn [vd_next vd_flags vd_addr].
  rewrite (nth_lookup_Some _ _ _ _ B3). cbn [br_type br_sector]. replace (512 * (2 * db_blockno bf)) with off by (unfold off; lia).
  assert (Hf : (off + BSIZE <=? zlen (d_image d)) = true) by (apply Z.leb_le; unfold off; lia). rewrite Hf. unfold s', d', bf', image'. unfold buf_data. rewrite Hbf. cbn [fmap option_fmap option_map default from_option id].
  destruct (q_write q); cbn -[setb sub splice u16 filter]; do 2 f_equal.
  - unfold set_used, set_status, set_bufs. cbn -[setb u16]. by rewrite (list_insert_id (v_bufs s)).
  - by rewrite sub_whole.
  - unfold set_used, set_status, set_bufs, set_data. cbn -[setb u16 sub]. f_equal. exact (alter_is_insert _ _ _ _ Hbf).
Qed.

Lemma comp_off : 0 <= off /\ off + BSIZE <= zlen (d_image d) /\ zlen (db_data bf) = BSIZE.
Proof. destruct comp_buf as (H1 & H2 & H3). unfold off. lia. Qed.

Lemma comp_image : zlen image' = zlen (d_image d).
Proof. destruct comp_off as (H1 & H2 & H3). unfold image'. destruct q_write; [|done]. apply zlen_splice; lia. Qed.

Lemma comp_bufs : Forall (buf_ok image') (<[q_buf q := bf']> (v_bufs s)).
Proof.
  assert (H : forall b, buf_ok (d_image d) b -> buf_ok image' b). { unfold buf_ok. rewrite comp_image. done. }
  apply Forall_insert; [eapply Forall_impl; [apply (iv_blk _ I)|exact H]|]. apply H. unfold bf'. destruct comp_buf as (H1 & H2 & H3), q_write; [done|]. split; [done|]. split; [done|].
  destruct comp_off as (H4 & H5 & _). unfold zlen. cbn [db_data]. rewrite length_sub; lia.
Qed.

Lemma comp_retag : map (retag (d_work d')) (l1 ++ q :: l2) = l1 ++ q_set Finished q :: l2.
Proof.
  apply (retag_mid s d l1 q l2 I).
  - intros h Hh. cbn. rewrite list_elem_of_filter. tauto.
  - unfold retag. rewrite Hst, decide_False; [done|]. cbn. rewrite list_elem_of_filter. tauto.
Qed.

Lemma comp_work : filter (fun x => x <> q_i0 q) (d_work d) ≡ₚ heads Taken (l1 ++ q_set Finished q :: l2).
Proof.
  rewrite heads_set, (decide_False (P := Finished = Taken)), (iv_work _ I) by done. cbn [y_reqs]. rewrite heads_mid, Hst, decide_True by done. cbn [app].
  assert (Hf : forall l, (forall q', q' ∈ l -> q' ∈ l1 ++ l2) -> filter (fun x => x <> q_i0 q) (heads Taken l) = heads Taken l).
  { intros l Hl. apply filter_all. rewrite Forall_forall. intros h Hh. apply elem_heads in Hh as (q' & Hq' & _ & <-). by apply (mid_head _ _ _ _ _ I), Hl. }
  rewrite filter_app, filter_cons, decide_False by tauto. rewrite !Hf; [done|..]; intros q' Hq'; rewrite elem_of_app; tauto.
Qed.

Lemma comp_inv : inv (mkSys s' d' (l1 ++ q_set Finished q :: l2)).
Proof.
  pose proof (mid_all _ _ _ _ _ I s' Finished) as HA. pose proof (mid_q _ _ _ _ _ I) as Hq. pose proof comp_work as HW. pose proof comp_bufs as HB. pose proof (inv_two _ _ _ I) as H2.
  pose proof (q_ok_lt _ _ _ (inv_lens _ _ _ I) Hq (head_ids q)) as L0. destruct I as [[] I2 I3 I4 I5 I6 I7 I8 I9 (U & U1 & U2)]. cbn -[heads ids] in *.
  split; cbn -[heads ids setb]; rewrite ?ids_set, ?bufs_set; try done.
  - split; cbn -[setb]; unfold setb; rewrite ?length_insert; done.
  - apply HA; cbn; try done.
    + intros i Hi. by rewrite list_lookup_insert_ne by congruence.
    + intros b Hb. by rewrite list_lookup_insert_ne by congruence.
    + destruct (qo_buf _ _ Hq) as (b & B1 & B2 & B3). rewrite Hbf in B1. injection B1 as <-. eapply q_set_frame; cbn; try done.
      * intros _. by rewrite list_lookup_insert_eq by lia.
      * exists bf, bf'. split; [done|]. split; [by rewrite list_lookup_insert_eq by (by eapply lookup_lt_Some)|]. rewrite Hst in B2. unfold bf'. by destruct q_write.
  - destruct I7 as (A & B & C & D). repeat split; try apply A; try apply B; try apply C; apply idx_u16.
  - rewrite heads_set. rewrite heads_mid, Hst in I8. done.
  - exists (U ++ [q_i0 q]). split; [|rewrite heads_set, U2, heads_mid, Hst; cbn -[heads]; solve_Permutation].
    rewrite map_app. apply ring_grow; try tauto. rewrite length_map, U2. pose proof (heads_length Finished (l1 ++ q :: l2)). lia.
Qed.

Lemma comp_abs : astep (abs (mkSys s d (l1 ++ q :: l2))) (abs (mkSys s' d' (l1 ++ q_set Finished q :: l2))).
Proof.
  unfold abs. cbn -[setb]. rewrite !map_app. cbn [map]. assert (Hp : performed q = false) by (unfold performed; by rewrite Hst). rewrite Hp. cbn.
  assert (Hl : map (fun b => (db_blockno b, db_data b)) (v_bufs s) !! q_buf q = Some (db_blockno bf, db_data bf)) by (change (map ?f ?l) with (f <$> l); by rewrite list_lookup_fmap, Hbf).
  change (map ?f (<[_ := _]> _)) with (f <$> <[q_buf q := bf']> (v_bufs s)). rewrite list_fmap_insert. unfold image', bf'. destruct (q_write q).
  - rewrite (list_insert_id (fmap _ _) (q_buf q)) by exact Hl. by eapply a_write.
  - cbn. by eapply a_read.
Qed.
End Complete.

(** The interrupt handler acknowledges one request. *)
Section Ack.
  Context (s : disk) (d : dev) (l1 : list req) (q : req) (l2 : list req) (I : inv (mkSys s d (l1 ++ q :: l2))) (Hst : q_st q = Finished).
  Context (U : list nat) (HU : ring 8 (v_used s) (v_seen s) (dist 65536 (v_seen s) (v_used_idx s)) = map Z.of_nat (q_i0 q :: U)) (HP : q_i0 q :: U ≡ₚ heads Finished (l1 ++ q :: l2)).

Definition acked (b : nat) (s : disk) : disk := set_seen (u16 (v_seen s + 1)) (vwoken (ch_buf b) (disk_set b false s)).

Lemma ack_run fuel : intr_loop (S fuel) s = intr_loop fuel (acked (q_buf q) s).
Proof.
  destruct (iv_idx _ I) as (_ & _ & X3 & X4). cbn -[idx_ok] in X3, X4. destruct (ring_drop _ _ _ _ _ X3 X4 HU) as (Hne & Hg & _). pose proof (mid_q _ _ _ _ _ I) as [Q1 Q2 Q3 Q4 Q5 _].
  cbn [intr_loop]. unfold sbind at 1, sget. destruct (Z.eqb_spec (v_seen s) (v_used_idx s)); [done|]. rewrite Hg, Nat2Z.id, (nth_lookup_Some _ _ _ _ (Q5 ltac:(unfold performed; by rewrite Hst))). cbn [Z.eqb negb].
  rewrite (nth_lookup_Some _ _ _ _ Q4). done.
Qed.

Lemma ack_bufs b : v_bufs (acked (q_buf q) s) !! b = if decide (b = q_buf q) then (fun x => mkDbuf (db_blockno x) (db_data x) false) <$> v_bufs s !! b else v_bufs s !! b.
Proof. cbn. case_decide as E; [subst b; apply list_lookup_alter_eq|apply list_lookup_alter_ne; congruence]. Qed.

Lemma ack_inv : inv (mkSys (acked (q_buf q) s) d (l1 ++ q_set Acked q :: l2)).
Proof.
  pose proof (mid_all _ _ _ _ _ I (acked (q_buf q) s) Acked) as HA. pose proof (mid_q _ _ _ _ _ I) as Hq. destruct (iv_idx _ I) as (X1 & X2 & X3 & X4). cbn -[idx_ok] in X3, X4.
  destruct (ring_drop _ _ _ _ _ X3 X4 HU) as (_ & _ & HU'). destruct I as [[] I2 I3 I4 I5 I6 I7 I8 I9 I10]. cbn -[heads ids acked] in *.
  split; cbn -[heads ids acked u16]; rewrite ?ids_set, ?bufs_set; try done.
  - apply HA; try done.
    + intros b Hb. by rewrite ack_bufs, decide_False.
    + destruct (qo_buf _ _ Hq) as (b & B1 & B2 & B3). apply (q_set_frame s); try done; [intros _; apply (qo_status _ _ Hq); unfold performed; by rewrite Hst|].
      exists b, (mkDbuf (db_blockno b) (db_data b) false). rewrite ack_bufs, decide_True, B1 by done. done.
  - by apply buf_ok_alter.
  - repeat split; try apply X1; try apply X2; try apply X4; apply idx_u16.
  - rewrite heads_set. rewrite heads_mid, Hst in I8. done.
  - rewrite heads_set. rewrite heads_mid, Hst in I9. done.
  - exists U. split; [done|]. rewrite heads_set. rewrite heads_mid, Hst, decide_True in HP by done. cbn [app] in HP. rewrite <- Permutation_middle in HP. by apply Permutation_cons_inv in HP.
Qed.

Lemma ack_abs : abs (mkSys (acked (q_buf q) s) d (l1 ++ q_set Acked q :: l2)) = abs (mkSys s d (l1 ++ q :: l2)).
Proof. unfold abs. cbn -[acked]. f_equal; [by apply alter_map_same|]. rewrite !map_app. cbn. unfold performed. cbn. by rewrite Hst. Qed.

Lemma ack_map : map ack (l1 ++ q_set Acked q :: l2) = map ack (l1 ++ q :: l2).
Proof. rewrite !map_app. cbn. do 2 f_equal. unfold ack. cbn. by rewrite Hst. Qed.
End Ack.

Lemma ack_none rs : heads Finished rs = [] -> map ack rs = rs.
Proof.
  induction rs as [|q rs IH]; [done|]. rewrite heads_cons. case_decide as E; [done|]. cbn -[heads]. intros H. rewrite (IH H). f_equal. unfold ack. by destruct (q_st q).
Qed.

Lemma intr_loop_run fuel : forall s d rs, inv (mkSys s d rs) -> (length (heads Finished rs) < fuel)%nat ->
  exists s', intr_loop fuel s = Ok tt s' /\ inv (mkSys s' d (map ack rs)) /\ abs (mkSys s' d (map ack rs)) = abs (mkSys s d rs).
Proof.
  induction fuel as [|fuel IH]; intros s d rs I Hf; [lia|]. destruct (iv_used _ I) as (U & HU & HP). cbn -[heads] in HU, HP. destruct U as [|h U].
  - apply Permutation_nil_l in HP. rewrite (ack_none rs) by done. exists s. split; [|done]. destruct (iv_idx _ I) as (_ & _ & X3 & X4). apply dist_len in HU. cbn in HU. apply dist_0 in HU; [|done..].
    cbn [intr_loop]. unfold sbind at 1, sget. cbn in HU. by rewrite HU, Z.eqb_refl.
  - assert (Hin : h ∈ heads Finished rs) by (rewrite <- HP; by left). apply elem_heads in Hin as (q & Hq & Hst & <-). apply list_elem_of_split in Hq as (l1 & l2 & ->).
    rewrite (ack_run s d l1 q l2 I Hst U HU). pose proof (ack_inv s d l1 q l2 I Hst U HU HP) as I'.
    destruct (IH _ _ _ I') as (s' & E & J & A). { rewrite heads_set, decide_False by done. rewrite heads_mid, Hst, decide_True in Hf by done. rewrite !length_app in *. cbn [length] in *. lia. }
    rewrite (ack_map l1 q l2 Hst) in J, A. exists s'. split; [done|]. split; [done|]. by rewrite A, (ack_abs s d l1 q l2 Hst).
Qed.

(** The process gives its descriptors back. *)
Section Finish.
  Context (s : disk) (d : dev) (l1 : list req) (q : req) (l2 : list req) (I : inv (mkSys s d (l1 ++ q :: l2))).

Let s' := freed (q_i2 q) (freed (q_i1 q) (freed (q_i0 q) (set_info_b (<[q_i0 q := None]>) s))).

Lemma fin_neq : q_i0 q <> q_i1 q /\ q_i0 q <> q_i2 q /\ q_i1 q <> q_i2 q.
Proof. pose proof (iv_ids _ I) as H. cbn [y_reqs] in H. rewrite ids_mid in H. apply NoDup_app in H as (H & _ & _). unfold q_ids in H. rewrite !NoDup_cons, !not_elem_of_cons in H. tauto. Qed.

Lemma fin_busy i : i ∈ q_ids q -> (i < NUM)%nat /\ v_free s !! i = Some false.
Proof.
  intros Hi. pose proof (elem_ids _ _ _ (mid_in l1 q l2) Hi) as Hin. pose proof (inv_lt _ _ _ I i Hin) as L. split; [done|]. rewrite (inv_free _ _ _ I i L), bool_decide_false by tauto. done.
Qed.

Lemma fin_run : rw_finish (q_i0 q) s = Ok tt s'.
Proof.
  pose proof (mid_q _ _ _ _ _ I) as [Q1 Q2 Q3 _ _ _]. destruct fin_neq as (N1 & N2 & N3). destruct (fin_busy (q_i0 q)) as [L0 F0]; [id_mem|]. destruct (fin_busy (q_i1 q)) as [L1 F1]; [id_mem|]. destruct (fin_busy (q_i2 q)) as [L2 F2]; [id_mem|].
  change (rw_finish (q_i0 q) s) with (free_chain 4 (q_i0 q) (set_info_b (<[q_i0 q := None]>) s)).
  rewrite (free_chain_step _ _ _ (mkDesc (VOps (q_i0 q)) 16 1 (q_i1 q))) by done. cbn [has vd_flags vd_next Z.land Pos.land VRING_DESC_F_NEXT Z.eqb negb].
  rewrite (free_chain_step _ _ _ (mkDesc (VData (q_buf q)) BSIZE (if q_write q then 1 else 3) (q_i2 q))) by (try done; cbn; by rewrite list_lookup_insert_ne by done).
  cbn [vd_flags vd_next]. replace (has (if q_write q then 1 else 3) VRING_DESC_F_NEXT) with true by (by destruct (q_write q)).
  rewrite (free_chain_step _ _ _ (mkDesc (VStatus (q_i0 q)) 1 2 0)) by (try done; cbn; by rewrite !list_lookup_insert_ne by done). done.
Qed.

Lemma fin_inv : q_st q = Acked -> inv (mkSys s' d (l1 ++ l2)).
Proof.
  intros Hst. pose proof (mid_ids _ _ _ _ _ I) as Hids. pose proof (mid_head _ _ _ _ _ I) as Hh. pose proof (inv_q _ _ _ I) as Hq. destruct fin_neq as (N1 & N2 & N3). pose proof fin_busy as HF.
  assert (Hx : forall x, x <> Acked -> heads x (l1 ++ l2) = heads x (l1 ++ q :: l2)). { intros x Hx. by rewrite heads_app, heads_mid, Hst, decide_False by congruence. }
  destruct I as [[] I2 I3 I4 I5 I6 I7 I8 I9 I10]. cbn -[heads ids] in *. pose proof I2 as I2'. rewrite ids_mid in I2'. apply NoDup_app in I2' as (_ & Hd & I2').
  split; cbn -[heads ids freed]; rewrite ?Hx by done; try done.
  - split; cbn; rewrite ?length_insert; done.
  - intros i Hi. cbn. destruct (decide (i ∈ q_ids q)) as [Hin|Hin].
    + rewrite bool_decide_true by (by apply Hd). unfold q_ids in Hin. rewrite !elem_of_cons, elem_of_nil in Hin.
      destruct (decide (i = q_i2 q)) as [->|]; [by rewrite list_lookup_insert_eq by (rewrite !length_insert; lia)|]. destruct (decide (i = q_i1 q)) as [->|]; [by rewrite list_lookup_insert_ne, list_lookup_insert_eq by (done || rewrite !length_insert; lia)|].
      destruct Hin as [->|[|[|[]]]]; try done. by rewrite !list_lookup_insert_ne, list_lookup_insert_eq by (done || lia).
    + pose proof Hin as Hin'. unfold q_ids in Hin'. rewrite !not_elem_of_cons in Hin'. destruct Hin' as (Y0 & Y1 & Y2 & _). rewrite !list_lookup_insert_ne, I3 by congruence. f_equal. apply bool_decide_ext. rewrite ids_mid, elem_of_app. tauto.
  - rewrite Forall_forall. intros q' Hq'. eapply q_ok_frame; [| | | | |apply Hq; by apply mid_other]; cbn; rewrite ?list_lookup_insert_ne by (apply not_eq_sym; by apply Hh); try done.
    intros i Hi. pose proof (Hids _ _ Hq' Hi) as Hin. unfold q_ids in Hin. rewrite !not_elem_of_cons in Hin. destruct Hin as (Y0 & Y1 & Y2 & _). by rewrite !list_lookup_insert_ne by congruence.
  - rewrite map_app in I5 |- *. cbn in I5. rewrite <- Permutation_middle in I5. by apply NoDup_cons in I5 as [_ I5].
Qed.

Lemma fin_abs : q_st q = Acked -> astep (abs (mkSys s d (l1 ++ q :: l2))) (abs (mkSys s' d (l1 ++ l2))).
Proof. intros Hst. unfold abs. cbn -[freed]. rewrite !map_app. cbn. assert (Hp : performed q = true) by (unfold performed; by rewrite Hst). rewrite Hp. apply a_return. Qed.

Lemma fin_stage : db_disk <$> v_bufs s !! q_buf q = Some false -> q_st q = Acked.
Proof.
  intros H. destruct (qo_buf _ _ (mid_q _ _ _ _ _ I)) as (b & B1 & B2 & _). rewrite B1 in H. cbn in H. injection H as H. rewrite H in B2. symmetry in B2. apply negb_false_iff in B2. by apply bool_decide_eq_true in B2.
Qed.
End Finish.

(** ** The system refines the abstract disk *)

Section Refine.
  Context (mmio : Z -> Z) (device : disk * dev -> disk * dev -> Prop).
  Context (device_spec : forall y y', device y y' -> dev_fetch y = Some y' \/ exists h, dev_complete h y = Some y').

Lemma disk_boot_inv y : booted mmio y -> inv y.
Proof.
  destruct y as [s' d rs]. intros (s & pages & H1 & H2 & H3 & H4 & H5 & H6 & H7 & H8 & H9). cbn in *. subst rs.
  assert (E : v_desc s' = replicate NUM desc0 /\ v_avail s' = zeros 8 /\ v_avail_idx s' = 0 /\ v_used s' = zeros 8 /\ v_used_idx s' = 0 /\ v_free s' = replicate NUM true /\
    v_seen s' = v_seen s /\ v_info_b s' = v_info_b s /\ v_status s' = v_status s /\ v_ops s' = v_ops s).
  { unfold virtio_disk_init in H5. destruct (_ || _) in H5; [done|]. cbn in H5. destruct (_ =? _) in H5; [done|]. destruct (_ <? _) in H5; [done|]. cbn in H5. injection H5 as <-. done. }
  destruct E as (E1 & E2 & E3 & E4 & E5 & E6 & E7 & E8 & E9 & E10). split; cbn; rewrite ?H6, ?H7, ?E3, ?E5, ?E7, ?H1; try done.
  - split; rewrite ?E1, ?E2, ?E4, ?E6, ?E8, ?E9, ?E10; done.
  - constructor.
  - intros i Hi. rewrite E6, bool_decide_true by (apply not_elem_of_nil). by rewrite lookup_replicate_2.
  - constructor.
  - by exists [].
Qed.

Lemma complete_split s d rs h y' : inv (mkSys s d rs) -> dev_complete h (s, d) = Some y' -> exists l1 q l2 bf, rs = l1 ++ q :: l2 /\ q_i0 q = h /\ q_st q = Taken /\ v_bufs s !! q_buf q = Some bf.
Proof.
  intros I H. assert (Hin : h ∈ d_work d). { unfold dev_complete in H. destruct (decide (h ∈ d_work d)); [done|]. by rewrite bool_decide_false in H. }
  rewrite (iv_work _ I) in Hin. cbn [y_reqs] in Hin. apply elem_heads in Hin as (q & Hq & Hst & <-). destruct (qo_buf _ _ (inv_q _ _ _ I q Hq)) as (bf & Hbf & _).
  apply list_elem_of_split in Hq as (l1 & l2 & ->). by exists l1, q, l2, bf.
Qed.

Lemma disk_step_inv y y' : inv y -> vstep mmio device y y' -> inv y' /\ astep (abs y) (abs y').
Proof.
  intros I H. destruct H as [s d rs b w i0 i1 i2 s' Hn Hb E|s d rs b w s' Hn E|s d rs s' d' E|s d rs s' E|s d r1 q r2 s' Hf E|s d rs b bf x Hn Hb Hx Hd].
  - destruct (lookup_lt_is_Some_2 _ _ Hb) as [bf Hbf]. destruct (rw_start_run b w s bf (ln_free _ (inv_lens _ _ _ I)) Hbf) as [(j0 & j1 & j2 & E' & Hnd & Hfr)|(s1 & E' & _)]; rewrite E in E'; [|done].
    injection E' as <- <- <- ->. split; [by apply sub_inv|]. unfold abs. cbn -[submitted]. rewrite map_app. cbn [v_bufs submitted]. rewrite alter_map_same by done. apply a_call. rewrite map_map. done.
  - assert (Q : quiet s s'). { unfold rw_start in E. unfold sbind at 1, sget in E. destruct (alloc3_run s (ln_free _ (inv_lens _ _ _ I))) as [(j0 & j1 & j2 & E' & _)|(s1 & E' & Q & _)]; unfold sbind at 1 in E; rewrite E' in E; [done|]. by injection E as <-. }
    split; [by eapply inv_quiet|]. rewrite (abs_quiet _ _ _ _ Q). apply a_stay.
  - destruct (device_spec _ _ E) as [F|[h F]]; [destruct (fetch_inv _ _ _ _ _ I F) as [J A]; split; [done|]; rewrite A; apply a_stay|].
    destruct (complete_split _ _ _ _ _ I F) as (l1 & q & l2 & bf & -> & <- & Hst & Hbf). rewrite (comp_run s d l1 q l2 I Hst bf Hbf) in F. injection F as <- <-.
    rewrite (comp_retag s d l1 q l2 I Hst bf). split; [by apply comp_inv|by apply comp_abs].
  - unfold virtio_disk_intr in E. unfold sbind at 1 in E. cbn [wreg smodify] in E. set (s1 := mkDisk _ _ _ _ _ _ _ _ _ _ _ _ _) in E.
    assert (Q : quiet s s1) by done. pose proof (inv_quiet _ _ _ _ I Q) as I1. pose proof (inv_two _ _ _ I1). pose proof (heads_length Finished rs).
    destruct (intr_loop_run 9 _ _ _ I1) as (s2 & E2 & J & A); [lia|]. rewrite E in E2. injection E2 as ->. split; [done|]. rewrite A, (abs_quiet _ _ _ _ Q). apply a_stay.
  - rewrite (fin_run s d r1 q r2 I) in E. injection E as <-. pose proof (fin_stage s d r1 q r2 I Hf) as Hst. split; [by apply fin_inv|by apply fin_abs].
  - split; [|unfold abs; cbn; change (map ?f (<[_ := _]> _)) with (f <$> <[b := x]> (v_bufs s)); rewrite list_fmap_insert; apply a_own; by rewrite map_map].
    destruct I as [[] I2 I3 I4 I5 I6 I7 I8 I9 I10]. cbn -[heads ids] in *. split; cbn -[heads ids]; try done.
    + rewrite Forall_forall in I4 |- *. intros q Hq. eapply q_ok_frame; [| | | | |by apply I4]; try done. cbn. rewrite list_lookup_insert_ne; [done|]. intros ->. apply Hn, list_elem_of_In, in_map, list_elem_of_In, Hq.
    + by apply Forall_insert.
Qed.

Lemma disk_reach_inv y : reach mmio device y -> inv y.
Proof. induction 1 as [y H|y y' _ IH H]; [by apply disk_boot_inv|]. by apply (disk_step_inv y y'). Qed.

(** What never goes wrong in a state of the system. *)
Record safe (y : sys) : Prop := {
  sf_start : forall b w, b ∉ map q_buf (y_reqs y) -> (b < length (v_bufs (y_disk y)))%nat -> exists r s', rw_start b w (y_disk y) = Ok r s' /\ (r = None -> (free_now (y_disk y) < 3)%nat);
  sf_intr : exists s', virtio_disk_intr mmio (y_disk y) = Ok tt s' /\ forall q, q ∈ y_reqs y -> performed q = true -> db_disk <$> v_bufs s' !! q_buf q = Some false;
  sf_finish : forall q, q ∈ y_reqs y -> db_disk <$> v_bufs (y_disk y) !! q_buf q = Some false -> performed q = true /\ exists s', rw_finish (q_i0 q) (y_disk y) = Ok tt s'
}.

Lemma intr_all s d rs : inv (mkSys s d rs) ->
  exists s', virtio_disk_intr mmio s = Ok tt s' /\ inv (mkSys s' d (map ack rs)).
Proof.
  intros I. unfold virtio_disk_intr, sbind, wreg, smodify. set (s1 := mkDisk _ _ _ _ _ _ _ _ _ _ _ _ _).
  assert (Q : quiet s s1) by done. pose proof (inv_quiet _ _ _ _ I Q) as I1. pose proof (inv_two _ _ _ I1). pose proof (heads_length Finished rs).
  destruct (intr_loop_run 9 _ _ _ I1) as (s2 & E2 & J & A); [lia|]. by exists s2.
Qed.

Lemma acked_released s d rs q : inv (mkSys s d (map ack rs)) -> q ∈ rs -> performed q = true -> db_disk <$> v_bufs s !! q_buf q = Some false.
Proof.
  intros I Hq Hp. assert (Hin : ack q ∈ map ack rs) by (apply list_elem_of_In, in_map, list_elem_of_In, Hq). destruct (qo_buf _ _ (inv_q _ _ _ I _ Hin)) as (b & B1 & B2 & _).
  assert (Hb : q_buf (ack q) = q_buf q /\ q_st (ack q) = Acked) by (unfold ack, performed in *; by destruct (q_st q) eqn:?). destruct Hb as [Hb Hs]. rewrite Hb in B1. rewrite B1. cbn. rewrite B2, Hs. done.
Qed.

Lemma inv_safe y : inv y -> safe y.
Proof.
  destruct y as [s d rs]. intros I. split; cbn.
  - intros b w _ Hb. destruct (lookup_lt_is_Some_2 _ _ Hb) as [bf Hbf].
    destruct (rw_start_run b w s bf (ln_free _ (inv_lens _ _ _ I)) Hbf) as [(j0 & j1 & j2 & E' & _)|(s1 & E' & _ & Hf)]; eauto. by exists (Some [j0; j1; j2]), (submitted b w (db_blockno bf) j0 j1 j2 s).
  - destruct (intr_all _ _ _ I) as (s' & E & J). exists s'. split; [done|]. intros q Hq Hp. by eapply acked_released.
  - intros q Hq Hf. apply list_elem_of_split in Hq as (l1 & l2 & ->). pose proof (fin_stage s d l1 q l2 I Hf) as Hst. split; [unfold performed; by rewrite Hst|]. eexists. exact (fin_run s d l1 q l2 I).
Qed.
End Refine.

(** C11. The disk driver and a virtio device together are a disk whose
    transfers are atomic: from virtio_disk_init on, with any number of
    processes in virtio_disk_rw, with the device finishing the requests in any
    order and with interrupts at any time, every step is one of the abstract
    disk (a transfer happens at once, between call and return of its process,
    and concerns its block and its buffer only) or no step of it; no routine of
    the driver panics, virtio_disk_rw sleeps for descriptors only when fewer
    than three are free, and a process that finds [b->disk] clear has had its
    transfer. *)
Theorem disk_refines (mmio : Z -> Z) (device : disk * dev -> disk * dev -> Prop)
  (device_spec : forall y y', device y y' -> dev_fetch y = Some y' \/ exists h, dev_complete h y = Some y') y :
  reach mmio device y -> safe mmio y /\ forall y', vstep mmio device y y' -> astep (abs y) (abs y').
Proof.
  intros H. pose proof (disk_reach_inv mmio device device_spec y H) as I. split; [by apply inv_safe|]. intros y' Hs. by eapply disk_step_inv.
Qed.

(** ** Every request is finished *)

(** Steps of the device alone. *)
Inductive dev_run (device : disk * dev -> disk * dev -> Prop) : nat -> sys -> sys -> Prop :=
| dr_0 y : dev_run device 0 y y
| dr_S n s d rs s' d' y : device (s, d) (s', d') -> dev_run device n (mkSys s' d' (map (retag (d_work d')) rs)) y -> dev_run device (S n) (mkSys s d rs) y.

Definition left_over (rs : list req) : nat := (2 * length (heads Queued rs) + length (heads Taken rs))%nat.

Lemma left_over_two rs : (left_over rs <= 2 * length rs)%nat.
Proof. unfold left_over. induction rs as [|q rs IH]; [done|]. rewrite !heads_cons, !length_app. cbn [length]. repeat case_decide; try congruence; cbn [length]; lia. Qed.

Lemma left_over_mid l1 q l2 x : left_over (l1 ++ q_set x q :: l2) = (left_over l1 + left_over l2 + match x with Queued => 2 | Taken => 1 | _ => 0 end)%nat.
Proof. unfold left_over. rewrite !heads_set, !length_app. destruct x; repeat case_decide; try congruence; cbn [length]; lia. Qed.

Lemma q_set_id q : q_set (q_st q) q = q.
Proof. by destruct q. Qed.

Section Live.
  Context (mmio : Z -> Z) (device : disk * dev -> disk * dev -> Prop).
  Context (device_spec : forall y y', device y y' -> dev_fetch y = Some y' \/ exists h, dev_complete h y = Some y').

Lemma dev_left s d rs s' d' : inv (mkSys s d rs) -> device (s, d) (s', d') -> S (left_over (map (retag (d_work d')) rs)) = left_over rs.
Proof.
  intros I E. destruct (device_spec _ _ E) as [F|[h F]].
  - pose proof F as F'. unfold dev_fetch in F'. destruct (Z.eqb_spec (d_seen d) (v_avail_idx s)) as [|Hne]; [done|]. injection F' as <- <-.
    pose proof (iv_avail _ I) as Ha. destruct (iv_idx _ I) as (X1 & X2 & X3 & X4). cbn -[heads] in Ha, X1, X2.
    destruct (heads Queued rs) as [|h t] eqn:Eh; [apply dist_len in Ha; cbn in Ha; by apply dist_0 in Ha|].
    cbn in Ha. apply ring_drop in Ha as (_ & Eg & Ha); [|done..]. destruct (heads_first _ _ _ _ Eh) as (l1 & q & l2 & -> & Hl1 & Hst & Hh & Ht). rewrite Eg, Nat2Z.id. cbn [d_work].
    rewrite (retag_mid s d l1 q l2 I _ Taken); [|intros x Hx; rewrite elem_of_app, elem_of_cons, elem_of_nil, Hh in *; tauto|unfold retag; rewrite Hst, decide_True; [done|rewrite Hh; apply elem_of_app; right; by left]].
    rewrite <- (q_set_id q) at 2. rewrite !left_over_mid, Hst. lia.
  - destruct (complete_split _ _ _ _ _ I F) as (l1 & q & l2 & bf & -> & <- & Hst & Hbf). rewrite (comp_run s d l1 q l2 I Hst bf Hbf) in F. injection F as <- <-.
    rewrite (comp_retag s d l1 q l2 I Hst bf). rewrite <- (q_set_id q) at 2. rewrite !left_over_mid, Hst. lia.
Qed.

Lemma retag_bufs w rs : map q_buf (map (retag w) rs) = map q_buf rs.
Proof. rewrite map_map. apply map_ext. intros q. unfold retag. destruct (q_st q); try done; by case_decide. Qed.

Lemma dev_run_inv n y y' : dev_run device n y y' -> inv y -> inv y' /\ (n + left_over (y_reqs y') = left_over (y_reqs y))%nat /\ map q_buf (y_reqs y') = map q_buf (y_reqs y).
Proof.
  induction 1 as [y|n s d rs s' d' y E H IH]; intros I; [done|]. destruct (disk_step_inv mmio device device_spec _ _ I (st_device mmio device s d rs s' d' E)) as [J _].
  destruct (IH J) as (K & HL & HM). split; [done|]. cbn [y_reqs] in *. pose proof (dev_left _ _ _ _ _ I E). rewrite HM, retag_bufs. split; [lia|done].
Qed.

Lemma idle_performed s d rs q : inv (mkSys s d rs) -> d_seen d = v_avail_idx s -> d_work d = [] -> q ∈ rs -> performed q = true.
Proof.
  intros I Hd Hw Hq. unfold performed. destruct (q_st q) eqn:E; try done; exfalso.
  - assert (Hin : q_i0 q ∈ heads Queued rs) by (apply elem_heads; eauto). pose proof (iv_avail _ I) as Ha. cbn -[heads] in Ha. rewrite Hd in Ha. unfold dist in Ha. rewrite Z.sub_diag in Ha. cbn -[heads] in Ha.
    symmetry in Ha. apply map_eq_nil in Ha. rewrite Ha in Hin. by apply not_elem_of_nil in Hin.
  - apply (inv_work _ _ _ I q Hq) in E. rewrite Hw in E. by apply not_elem_of_nil in E.
Qed.
End Live.

(** C23. No request is lost: a device that goes on while there is a chain for
    it comes to rest within two steps for each process in virtio_disk_rw, and
    when it has, one virtio_disk_intr clears [b->disk] for every one of these
    processes, so that each of them can return. *)
Theorem disk_progress (mmio : Z -> Z) (device : disk * dev -> disk * dev -> Prop)
  (device_spec : forall y y', device y y' -> dev_fetch y = Some y' \/ exists h, dev_complete h y = Some y')
  (device_goes_on : forall s d, d_seen d <> v_avail_idx s \/ d_work d <> [] -> (forall h, h ∈ d_work d -> is_Some (dev_complete h (s, d))) -> exists y', device (s, d) y') y n y' :
  reach mmio device y -> dev_run device n y y' ->
  (n <= 2 * length (y_reqs y))%nat /\ map q_buf (y_reqs y') = map q_buf (y_reqs y) /\
  ((forall z, ~ device (y_disk y', y_dev y') z) -> exists s', virtio_disk_intr mmio (y_disk y') = Ok tt s' /\ forall b, b ∈ map q_buf (y_reqs y) -> db_disk <$> v_bufs s' !! b = Some false).
Proof.
  intros H Hr. pose proof (disk_reach_inv mmio device device_spec y H) as I. destruct (dev_run_inv mmio device device_spec n y y' Hr I) as (J & HL & HM). pose proof (left_over_two (y_reqs y)). split; [lia|]. split; [done|].
  intros Hidle. destruct y' as [s d rs]. cbn [y_disk y_dev y_reqs] in *. assert (Hd : d_seen d = v_avail_idx s /\ d_work d = []).
  { destruct (decide (d_seen d = v_avail_idx s /\ d_work d = [])) as [|Hn]; [done|]. destruct (device_goes_on s d) as [z Hz]; [by apply not_and_l in Hn| |by apply Hidle in Hz].
    intros h Hh. rewrite (iv_work _ J) in Hh. apply elem_heads in Hh as (q & Hq & Hst & <-). destruct (qo_buf _ _ (inv_q _ _ _ J q Hq)) as (bf & Hbf & _). cbn [y_reqs] in Hq. apply list_elem_of_split in Hq as (l1 & l2 & ->). eexists. by apply (comp_run s d l1 q l2 J Hst bf). }
  destruct Hd as [Hd Hw]. destruct (intr_all mmio _ _ _ J) as (s' & E & K). exists s'. split; [done|]. intros b Hb. rewrite <- HM in Hb. apply list_elem_of_In, in_map_iff in Hb as (q & <- & Hq). apply list_elem_of_In in Hq.
  apply (acked_released s' d rs q K Hq). exact (idle_performed s d rs q J Hd Hw Hq).
Qed.

(** ** A device of two blocks, and a write under way *)

Definition demo_mmio (r : Z) : Z :=
  if r =? 0x000 then 0x74726976 else if r =? 0x004 then 1 else if r =? 0x008 then 2 else if r =? 0x00c then 0x554d4551 else if r =? 0x034 then 8 else 0.
Definition spec_device (y y' : disk * dev) : Prop := dev_fetch y = Some y' \/ exists h, dev_complete h y = Some y'.

Lemma spec_goes_on s d : d_seen d <> v_avail_idx s \/ d_work d <> [] -> (forall h, h ∈ d_work d -> is_Some (dev_complete h (s, d))) -> exists y', spec_device (s, d) y'.
Proof.
  intros H Hc. destruct (decide (d_seen d = v_avail_idx s)) as [E|E].
  - destruct H as [|H]; [done|]. destruct (d_work d) as [|h l]; [done|]. destruct (Hc h) as [y' Hy]; [by left|]. exists y'. right. by exists h.
  - eexists. left. unfold dev_fetch. apply Z.eqb_neq in E. rewrite E. reflexivity.
Qed.

Definition demo_disk : disk :=
  mkDisk [] [] 0 [] 0 [] 0 (replicate 8 None) (zeros 8) (replicate 8 (mkReq 0 0)) [mkDbuf 1 (replicate 1024 7) false; mkDbuf 0 (replicate 1024 9) false] demo_mem [].
Definition run_of {A} (s : disk) (o : outcome disk A) : disk := match o with Ok _ s' => s' | _ => s end.
Definition demo_boot : sys := mkSys (run_of demo_disk (virtio_disk_init demo_mmio 0x80020000 demo_disk)) (mkVdev 0 [] (zeros 2048)) [].
Definition demo_write : sys := mkSys (run_of demo_disk (rw_start 0 true (y_disk demo_boot))) (y_dev demo_boot) (y_reqs demo_boot ++ [mkQ 0 true 0 1 2 Queued]).
Definition demo_taken : disk * dev := default (y_disk demo_write, y_dev demo_write) (dev_fetch (y_disk demo_write, y_dev demo_write)).
Definition demo_mid : sys := mkSys demo_taken.1 demo_taken.2 (map (retag (d_work demo_taken.2)) (y_reqs demo_write)).
Definition demo_done : disk * dev := default demo_taken (dev_complete 0 (y_disk demo_mid, y_dev demo_mid)).
Definition demo_final : sys := mkSys demo_done.1 demo_done.2 (map (retag (d_work demo_done.2)) (y_reqs demo_mid)).

Lemma demo_bufs : Forall (buf_ok (zeros 2048)) (v_bufs demo_disk).
Proof. unfold buf_ok. apply (bool_decide_unpack _). vm_compute. exact Logic.I. Qed.

Lemma submit_step mmio device y b w i0 i1 i2 s' : b ∉ map q_buf (y_reqs y) -> (b < length (v_bufs (y_disk y)))%nat -> rw_start b w (y_disk y) = Ok (Some [i0; i1; i2]) s' ->
  vstep mmio device y (mkSys s' (y_dev y) (y_reqs y ++ [mkQ b w i0 i1 i2 Queued])).
Proof. destruct y as [s d rs]. apply st_submit. Qed.

Lemma demo_booted : booted demo_mmio demo_boot.
Proof.
  exists demo_disk, 0x80020000. do 4 (split; [reflexivity|]). split; [vm_compute; reflexivity|]. do 3 (split; [reflexivity|]). exact demo_bufs.
Qed.

Lemma demo_reach : reach demo_mmio spec_device demo_write.
Proof.
  apply (reach_step _ _ demo_boot); [apply reach_boot, demo_booted|]. apply (submit_step demo_mmio spec_device demo_boot 0 true 0 1 2); [apply not_elem_of_nil|vm_compute; lia|vm_compute; reflexivity].
Qed.

Lemma device_step mmio device y s' d' : device (y_disk y, y_dev y) (s', d') -> vstep mmio device y (mkSys s' d' (map (retag (d_work d')) (y_reqs y))).
Proof. destruct y as [s d rs]. apply st_device. Qed.

Lemma run_step device n y s' d' z : device (y_disk y, y_dev y) (s', d') -> dev_run device n (mkSys s' d' (map (retag (d_work d')) (y_reqs y))) z -> dev_run device (S n) y z.
Proof. destruct y as [s d rs]. apply dr_S. Qed.

Lemma demo_fetches : spec_device (y_disk demo_write, y_dev demo_write) (demo_taken.1, demo_taken.2).
Proof. left. vm_compute. reflexivity. Qed.

Lemma demo_completes : spec_device (y_disk demo_mid, y_dev demo_mid) (demo_done.1, demo_done.2).
Proof. right. exists 0%nat. vm_compute. reflexivity. Qed.

Lemma demo_run : dev_run spec_device 2 demo_write demo_final.
Proof. apply (run_step _ _ _ _ _ _ demo_fetches). apply (run_step _ _ demo_mid _ _ _ demo_completes). apply dr_0. Qed.

Lemma demo_idle z : ~ spec_device (y_disk demo_final, y_dev demo_final) z.
Proof. intros [Hz|[h Hz]]; vm_compute in Hz; discriminate Hz. Qed.

Lemma disk_refines_witness : reach demo_mmio spec_device demo_write /\ safe demo_mmio demo_write /\ astep (abs demo_write) (abs demo_mid).
Proof.
  split; [exact demo_reach|]. destruct (disk_refines demo_mmio spec_device (fun _ _ H => H) demo_write demo_reach) as [H1 H2]. split; [exact H1|]. apply H2. exact (device_step _ _ _ _ _ demo_fetches).
Defined.

Lemma disk_progress_witness : exists s', virtio_disk_intr demo_mmio (y_disk demo_final) = Ok tt s' /\ db_disk <$> v_bufs s' !! 0%nat = Some false /\ sub 1024 1024 (d_image (y_dev demo_final)) = replicate 1024 7.
Proof.
  destruct (disk_progress demo_mmio spec_device (fun _ _ H => H) spec_goes_on demo_write 2 demo_final demo_reach demo_run) as (_ & _ & H). destruct (H demo_idle) as (s' & E & Hb).
  exists s'. split; [exact E|]. split; [apply Hb, list_elem_of_In; vm_compute; left; reflexivity|]. vm_compute. reflexivity.
Defined.
