(* ===== verification/Trap.v ===== *)
(** * Traps and the start of the machine (kernel/trap.c, plic.c, start.c, and
    forkret of proc.c)

    What the C code does between the entry and the exit of a trap, on a hart,
    the kernel with its buffer cache, the console, the disk and the interrupt
    controller.  Addresses of kernel code are parameters, as the linker gives
    them.  While a process has given up the CPU the rest of the system runs:
    [others] is what it does until the process goes on. *)
From S2P Require Import Prelude Str Ulib Bio Log Crash Machine Types Vm Balloc Pipe Proc Syscall Printf Console Virtio Kmem Pgtbl Kvm Hart.
Local Open Scope st_scope.

Definition UART0_IRQ : Z := 10.
Definition VIRTIO0_IRQ : Z := 1.
Definition PLIC_SENABLE (hart : Z) : Z := PLIC + 0x2080 + hart * 0x100.
Definition PLIC_SPRIORITY (hart : Z) : Z := PLIC + 0x201000 + hart * 0x2000.
Definition PLIC_SCLAIM (hart : Z) : Z := PLIC + 0x201004 + hart * 0x2000.

(** The registers of the interrupt controller. *)
Class Plic (P : Type) := { pl_read : Z -> P -> Z * P; pl_write : Z -> Z -> P -> P }.

(** Addresses of code. *)
Record link := mkLink { l_kernelvec : Z; l_usertrap : Z; l_userret : Z; l_main : Z; l_timervec : Z; l_timer_scratch : Z }.

Record tst (D P : Type) := mkT { t_h : hart; t_kb : kst * bstate; t_con : con D; t_disk : disk; t_ticks : Z; t_plic : P }.
Arguments mkT {D P}. Arguments t_h {D P}. Arguments t_kb {D P}. Arguments t_con {D P}. Arguments t_disk {D P}. Arguments t_ticks {D P}. Arguments t_plic {D P}.

(** How usertrap ends: the process has exited, or the hart is at userret. *)
Inductive tres := Gone | Back.

Section Trap.
  Context {D P : Type} `{Uart D} `{Plic P}.
  Context (l : link) (mmio : Z -> Z) (polls fuel : nat) (e : Z -> env) (others : tst D P -> tst D P).

Definition t_mem (s : tst D P) : pmem := k_mem (fst (t_kb s)).
Definition t_proc (s : tst D P) : proc := nth (k_cur (fst (t_kb s))) (k_procs (fst (t_kb s))) proc0.

Definition set_h (h : hart) (s : tst D P) : tst D P := mkT h (t_kb s) (t_con s) (t_disk s) (t_ticks s) (t_plic s).
Definition set_kb (kb : kst * bstate) (s : tst D P) : tst D P := mkT (t_h s) kb (t_con s) (t_disk s) (t_ticks s) (t_plic s).
Definition set_con (c : con D) (s : tst D P) : tst D P := mkT (t_h s) (cn_k c, snd (t_kb s)) c (t_disk s) (t_ticks s) (t_plic s).
Definition set_disk (d : disk) (s : tst D P) : tst D P := mkT (t_h s) (v_k d, snd (t_kb s)) (t_con s) d (t_ticks s) (t_plic s).
Definition set_ticks (x : Z) (s : tst D P) : tst D P := mkT (t_h s) (t_kb s) (t_con s) (t_disk s) x (t_plic s).
Definition set_plic (p : P) (s : tst D P) : tst D P := mkT (t_h s) (t_kb s) (t_con s) (t_disk s) (t_ticks s) p.

(** A routine of one component, on its part of the state; the console and the
    disk see the kernel as it is now. *)
Definition zoom {S A} (get : tst D P -> S) (put : S -> tst D P -> tst D P) (m : stM S A) : stM (tst D P) A := fun s =>
  match m (get s) with
  | Ok a x => Ok a (put x s)
  | Panic msg => Panic msg
  | Sleep c x => Sleep c (put x s)
  | Wrong w => Wrong w
  end.
Definition on_h (f : hart -> hart) : stM (tst D P) unit := smodify (fun s => set_h (f (t_h s)) s).
Definition in_k {A} : stM kst A -> stM (tst D P) A := zoom (fun s => fst (t_kb s)) (fun k s => set_kb (k, snd (t_kb s)) s).
Definition in_kb {A} : stM (kst * bstate) A -> stM (tst D P) A := zoom t_kb set_kb.
Definition in_con {A} : stM (con D) A -> stM (tst D P) A := zoom (fun s => set_k (fst (t_kb s)) (t_con s)) set_con.
Definition in_disk {A} : stM disk A -> stM (tst D P) A := zoom (fun s => set_vk (fst (t_kb s)) (t_disk s)) set_disk.

Definition cpuid (s : tst D P) : Z := s32 (r_tp (t_h s)).

(** ** plic.c *)

Definition pl_w (a x : Z) : stM (tst D P) unit := smodify (fun s => set_plic (pl_write a x (t_plic s)) s).
Definition plicinit : stM (tst D P) unit := pl_w (PLIC + UART0_IRQ * 4) 1;; pl_w (PLIC + VIRTIO0_IRQ * 4) 1.
Definition plicinithart : stM (tst D P) unit :=
  s <- sget;
  pl_w (PLIC_SENABLE (cpuid s)) (Z.lor (Z.shiftl 1 UART0_IRQ) (Z.shiftl 1 VIRTIO0_IRQ));;
  pl_w (PLIC_SPRIORITY (cpuid s)) 0.
Definition plic_claim : stM (tst D P) Z := fun s =>
  let (x, p) := pl_read (PLIC_SCLAIM (cpuid s)) (t_plic s) in Ok (s32 x) (set_plic p s).
Definition plic_complete (irq : Z) : stM (tst D P) unit := s <- sget; pl_w (PLIC_SCLAIM (cpuid s)) (u32 irq).

(** ** trap.c *)

Definition trapinithart : stM (tst D P) unit := on_h (w_stvec (l_kernelvec l)).

(** The channel [&ticks]. *)
Definition ch_ticks : Z := 0x1004.
Definition clockintr : stM (tst D P) unit :=
  smodify (fun s => set_ticks (u32 (t_ticks s + 1)) s);;
  in_k (wakeup ch_ticks).

(** "unexpected interrupt irq=%d\n" *)
Definition msg_irq : bytes := [117; 110; 101; 120; 112; 101; 99; 116; 101; 100; 32; 105; 110; 116; 101; 114; 114; 117; 112; 116; 32; 105; 114; 113; 61; 37; 100; 10; 0].
(** "usertrap(): unexpected scause %p pid=%d\n" and "            sepc=%p stval=%p\n" *)
Definition msg_scause : bytes := [117; 115; 101; 114; 116; 114; 97; 112; 40; 41; 58; 32; 117; 110; 101; 120; 112; 101; 99; 116; 101; 100; 32; 115; 99; 97; 117; 115; 101; 32; 37; 112; 32; 112; 105; 100; 61; 37; 100; 10; 0].
Definition msg_sepc : bytes := [32; 32; 32; 32; 32; 32; 32; 32; 32; 32; 32; 32; 115; 101; 112; 99; 61; 37; 112; 32; 115; 116; 118; 97; 108; 61; 37; 112; 10; 0].
(** "scause %p\n" and "sepc=%p stval=%p\n" *)
Definition kmsg_scause : bytes := [115; 99; 97; 117; 115; 101; 32; 37; 112; 10; 0].
Definition kmsg_sepc : bytes := [115; 101; 112; 99; 61; 37; 112; 32; 115; 116; 118; 97; 108; 61; 37; 112; 10; 0].
Definition print (fmt : bytes) (ap : list arg) : stM (tst D P) unit := in_con (printf (consputc polls) fmt ap).

Definition devintr : stM (tst D P) Z :=
  s <- sget;
  let scause := r_scause (t_h s) in
  if negb (Z.land scause (2 ^ 63) =? 0) && (Z.land scause 0xff =? 9) then
    irq <- plic_claim;
    (if irq =? UART0_IRQ then in_con (uartintr polls fuel)
     else if irq =? VIRTIO0_IRQ then in_disk (virtio_disk_intr mmio)
     else if negb (irq =? 0) then print msg_irq [AInt irq]
     else sret tt);;
    (if negb (irq =? 0) then plic_complete irq else sret tt);;
    sret 1
  else if scause =? 2 ^ 63 + 1 then
    (if cpuid s =? 0 then clockintr else sret tt);;
    on_h (fun h => w_sip (Z.land (r_sip h) (Z.lnot 2)) h);;
    sret 2
  else sret 0.

(** The end of usertrapret is the jump to userret(TRAPFRAME, satp). *)
Definition usertrapret : stM (tst D P) tres :=
  s <- sget;
  let p := t_proc s in
  let tf := p_trapframe p in
  on_h intr_off;;
  on_h (w_stvec TRAMPOLINE);;
  s <- sget;
  in_k (stm64 tf (r_satp (t_h s)));;
  in_k (stm64 (tf + 8) (u64 (KSTACK (k_cur (fst (t_kb s))) + PGSIZE)));;
  in_k (stm64 (tf + 16) (l_usertrap l));;
  in_k (stm64 (tf + 32) (r_tp (t_h s)));;
  on_h (fun h => w_sstatus (Z.lor (Z.land (r_sstatus h) (Z.lnot SSTATUS_SPP)) SSTATUS_SPIE) h);;
  epc <- in_k (ldm64 (tf + 24));
  on_h (w_sepc epc);;
  on_h (fun h => pcset (TRAMPOLINE + l_userret l) (rset a1 (MAKE_SATP (p_pagetable p)) (rset a0 TRAPFRAME h)));;
  sret Back.

(** exit(-1) does not come back. *)
Definition exit_now : stM (tst D P) tres := in_kb (run hC (exit (-1)));; sret Gone.

(** usertrap from the last test of [p->killed] on. *)
Definition usertrap_end (which_dev : Z) : stM (tst D P) tres :=
  s <- sget;
  if p_killed (t_proc s) then exit_now
  else
    (if which_dev =? 2 then in_k yield;; smodify others else sret tt);;
    usertrapret.

Definition usertrap : stM (tst D P) tres :=
  s <- sget;
  let h := t_h s in
  let p := t_proc s in
  let tf := p_trapframe p in
  if negb (Z.land (r_sstatus h) SSTATUS_SPP =? 0) then spanic "usertrap: not from user mode"
  else
    on_h (w_stvec (l_kernelvec l));;
    in_k (stm64 (tf + 24) (r_sepc h));;
    if r_scause h =? 8 then
      if p_killed p then exit_now
      else
        epc <- in_k (ldm64 (tf + 24));
        in_k (stm64 (tf + 24) (u64 (epc + 4)));;
        on_h intr_on;;
        s <- sget;
        in_kb (run hC (syscall (e (t_ticks s))));;
        usertrap_end 0
    else
      which_dev <- devintr;
      if negb (which_dev =? 0) then usertrap_end which_dev
      else
        s <- sget;
        print msg_scause [ALong (r_scause (t_h s)); AInt (p_pid p)];;
        print msg_sepc [ALong (r_sepc (t_h s)); ALong (r_stval (t_h s))];;
        in_k (modp (k_cur (fst (t_kb s))) (p_set_killed true));;
        usertrap_end 0.

Definition kerneltrap : stM (tst D P) unit :=
  s <- sget;
  let h := t_h s in
  if Z.land (r_sstatus h) SSTATUS_SPP =? 0 then spanic "kerneltrap: not from supervisor mode"
  else if intr_get h then spanic "kerneltrap: interrupts enabled"
  else
    which_dev <- devintr;
    if which_dev =? 0 then
      s <- sget;
      print kmsg_scause [ALong (r_scause h)];;
      print kmsg_sepc [ALong (r_sepc (t_h s)); ALong (r_stval (t_h s))];;
      spanic "kerneltrap"
    else
      s <- sget;
      (if (which_dev =? 2) && (k_cur (fst (t_kb s)) <? NPROC)%nat && bool_decide (p_state (t_proc s) = RUNNING)
       then in_k yield;; smodify others else sret tt);;
      on_h (w_sepc (r_sepc h));;
      on_h (w_sstatus (r_sstatus h)).

(** forkret; [first] is its static variable. *)
Definition forkret (first : bool) : stM (tst D P) tres :=
  (if first then in_kb (fsinit 1) else sret tt);;
  usertrapret.

(** ** start.c *)

Definition CLINT_MTIMECMP (id : Z) : Z := 0x2000000 + 0x4000 + 8 * id.
Definition CLINT_MTIME : Z := 0x2000000 + 0xBFF8.

(** On a hart and the memory, in machine mode. *)
Definition timerinit (s : hart * pmem) : hart * pmem :=
  let (h, m) := s in
  let id := s32 (r_mhartid h) in
  let interval := 1000000 in
  let m := put_cell (CLINT_MTIMECMP id) (u64 (cell m CLINT_MTIME + interval)) m in
  let scratch := l_timer_scratch l + 40 * id in
  let m := put_cell (scratch + 24) (CLINT_MTIMECMP id) m in
  let m := put_cell (scratch + 32) interval m in
  let h := w_mtvec (l_timervec l) (w_mscratch scratch h) in
  let h := w_mstatus (Z.lor (r_mstatus h) MSTATUS_MIE) h in
  let h := w_mie (Z.lor (r_mie h) MIE_MTIE) h in
  (h, m).

Definition start (s : hart * pmem) : hart * pmem :=
  let (h, m) := s in
  let h := w_mstatus (Z.lor (Z.land (r_mstatus h) (Z.lnot MSTATUS_MPP_MASK)) MSTATUS_MPP_S) h in
  let h := w_mepc (l_main l) h in
  let h := w_satp 0 h in
  let h := w_medeleg 0xffff h in
  let h := w_mideleg 0xffff h in
  let h := w_sie (Z.lor (Z.lor (Z.lor (r_sie h) SIE_SEIE) SIE_STIE) SIE_SSIE) h in
  let h := w_pmpaddr0 0x3fffffffffffff h in
  let h := w_pmpcfg0 0xf h in
  let (h, m) := timerinit (h, m) in
  let h := w_tp (s32 (r_mhartid h)) h in
  (mret_step h, m).
End Trap.
