(* ===== verification/TrapSpec.v ===== *)
(** * Traps are transparent

    A device or timer interrupt leaves no trace in the code it interrupts, in
    user space or in the kernel, and a system call comes back behind its
    instruction with its result in a0: uservec, usertrap, usertrapret and
    userret are run one after the other, and so are kernelvec and kerneltrap. *)
From S2P Require Import Prelude Str Ulib Bio Log Crash Machine Types Vm Kmem Pgtbl Uvm Kvm Balloc Pipe Proc Syscall Ring Printf Console ConsoleSpec Virtio VirtioSpec Hart Asm Trap.

(** ** What a routine leaves alone *)

Definition spares {S A} (R : S -> S -> Prop) (m : stM S A) : Prop :=
  forall s, match m s with Ok _ s' => R s s' | Sleep _ s' => R s s' | _ => True end.

Section Spares.
  Context {S : Type} (R : S -> S -> Prop) `{!Reflexive R} `{!Transitive R}.

Lemma spares_ret {A} (a : A) : spares R (sret a).
Proof. intros s. cbn. reflexivity. Qed.

Lemma spares_bind {A B} (m : stM S A) (f : A -> stM S B) : spares R m -> (forall a, spares R (f a)) -> spares R (sbind m f).
Proof.
  intros Hm Hf s. unfold sbind. specialize (Hm s). destruct (m s) as [a s'| |c s'|]; try done. specialize (Hf a s'). destruct (f a s') as [b s2| |c s2|]; try done; by etransitivity.
Qed.

Lemma spares_get : spares R sget.
Proof. intros s. cbn. reflexivity. Qed.

Lemma spares_modify f : (forall s, R s (f s)) -> spares R (smodify f).
Proof. intros H s. apply H. Qed.

Lemma spares_wrong {A} w : spares R (fun _ : S => @Wrong S A w).
Proof. by intros s. Qed.

Lemma spares_for {I} (l : list I) (f : I -> stM S unit) : (forall i, spares R (f i)) -> spares R (sfor l f).
Proof. intros H. induction l as [|i l IH]; [apply spares_ret|]. cbn [sfor]. apply spares_bind; [apply H|intros _; exact IH]. Qed.
End Spares.

Ltac sp_auto := repeat first
  [ assumption
  | match goal with
    | |- spares _ (sret _) => apply spares_ret; apply _
    | |- spares _ sget => apply spares_get; apply _
    | |- spares _ (fun _ => Wrong _) => apply spares_wrong
    | |- spares _ (sfor _ _) => apply spares_for; [apply _|apply _|intros ?]
    | |- spares _ (sbind _ _) => apply spares_bind; [apply _| |intros ?]
    | |- spares _ (smodify _) => apply spares_modify; done
    | |- spares _ (if ?b then _ else _) => destruct b
    | |- spares _ (match ?o with Some _ => _ | None => _ end) => destruct o
    end ].

(** The kernel but for the states of processes that are not current. *)
Record kq (k k' : kst) : Prop := {
  kq_mem : k_mem k' = k_mem k;
  kq_cur : k_cur k' = k_cur k;
  kq_proc : nth (k_cur k) (k_procs k') proc0 = nth (k_cur k) (k_procs k) proc0
}.
#[export] Instance kq_refl : Reflexive kq.
Proof. by intros k. Qed.
#[export] Instance kq_trans : Transitive kq.
Proof. intros k1 k2 k3 [A1 A2 A3] [B1 B2 B3]. split; [congruence|congruence|]. rewrite A2 in B3. congruence. Qed.

Lemma kq_wakeup ch : spares kq (wakeup ch).
Proof.
  intros k. cbn. split; [done|done|]. cbn. rewrite !nth_lookup. rewrite list_lookup_imap. destruct (k_procs k !! k_cur k) as [p|]; [|done]. cbn. by rewrite Nat.eqb_refl.
Qed.

(** The same for the kernel inside a bigger state. *)
Definition on {S T} (f : S -> T) (R : T -> T -> Prop) (x y : S) : Prop := R (f x) (f y).
#[export] Instance on_refl {S T} (f : S -> T) R : Reflexive R -> Reflexive (on f R).
Proof. intros H x. apply H. Qed.
#[export] Instance on_trans {S T} (f : S -> T) R : Transitive R -> Transitive (on f R).
Proof. intros H x y z A B. exact (H _ _ _ A B). Qed.

Section Printing.
  Context {T : Type} (R : T -> T -> Prop) `{!Reflexive R} `{!Transitive R} (putc : Z -> stM T unit) (Hp : forall c, spares R (putc c)).

Lemma spares_printint_loop d fuel : forall x b buf, spares R (printint_loop d fuel x b buf).
Proof. induction fuel as [|fuel IH]; intros x b buf; cbn [printint_loop]; sp_auto. apply IH. Qed.

Lemma spares_printf fmt : forall ap, spares R (printf putc fmt ap).
Proof.
  remember (length fmt) as n eqn:E. revert fmt E. induction n as [n IH] using lt_wf_ind. intros fmt -> ap. destruct fmt as [|c fmt]; [sp_auto|]. cbn [printf].
  destruct (c =? 0); [sp_auto|]. destruct (negb (c =? 37)); [sp_auto; [apply Hp|apply (IH (length fmt)); cbn; lia]|]. destruct fmt as [|c' fmt]; [sp_auto|]. assert (J : forall ap, spares R (printf putc fmt ap)) by (apply (IH (length fmt)); cbn; lia).
  repeat match goal with |- spares _ (if ?b then _ else _) => destruct b end; sp_auto; auto.
  all: destruct ap as [|[]]; unfold printint, printptr, prints, bad_arg; sp_auto; auto; apply spares_printint_loop.
Qed.
End Printing.

Section ConsoleSpares.
  Context {D : Type} `{UD : Uart D} (polls : nat).

Let R : con D -> con D -> Prop := on cn_k kq.

Lemma spares_ReadReg r : spares R (ReadReg r).
Proof. intros s. unfold ReadReg. destruct (u_read r (cn_dev s)). by unfold R, on. Qed.

Lemma spares_on_k {A} (m : stM kst A) : spares kq m -> spares R (on_k m).
Proof. intros H s. unfold on_k. specialize (H (cn_k s)). by destruct (m (cn_k s)). Qed.

Lemma spares_tx_wait n : spares R (tx_wait n).
Proof. induction n as [|n IH]; cbn [tx_wait]; [sp_auto|]. apply spares_bind; [apply _|apply spares_ReadReg|]. intros v. sp_auto. Qed.

Lemma spares_putc_sync c : spares R (uartputc_sync polls c).
Proof. unfold uartputc_sync. apply spares_bind; [apply _|sp_auto|]. intros s. destruct (cn_panicked s); [by intros s'|]. apply spares_bind; [apply _|apply spares_tx_wait|]. intros _. by intros s'. Qed.

Lemma spares_consputc c : spares R (consputc polls c).
Proof. unfold consputc. sp_auto; apply spares_putc_sync. Qed.

Lemma spares_uartstart : spares R uartstart.
Proof.
  unfold uartstart. generalize 33%nat as n. induction n as [|n IH]; cbn [uartstart_loop]; [sp_auto|]. apply spares_bind; [apply _|sp_auto|]. intros s. destruct (_ =? _); [sp_auto|]. apply spares_bind; [apply _|apply spares_ReadReg|].
  intros v. destruct (_ =? _); [sp_auto|]. apply spares_bind; [apply _|by intros s'|]. intros _. apply spares_bind; [apply _|apply spares_on_k, kq_wakeup|]. intros _. apply spares_bind; [apply _|by intros s'|]. intros _. exact IH.
Qed.

Lemma spares_procdump : spares R (procdump polls).
Proof.
  unfold procdump. pose proof (spares_printf R (consputc polls) spares_consputc) as HP. apply spares_bind; [apply _|apply HP|]. intros _. apply spares_bind; [apply _|sp_auto|]. intros s. apply spares_for; [apply _|apply _|].
  intros p. destruct (bool_decide _); [sp_auto|]. apply spares_bind; [apply _|apply HP|]. intros _. apply HP.
Qed.

Lemma spares_kill_line n : spares R (kill_line polls n).
Proof.
  induction n as [|n IH]; cbn [kill_line]; [sp_auto|]. apply spares_bind; [apply _|sp_auto|]. intros s. destruct (_ && _); [|sp_auto]. apply spares_bind; [apply _|by intros s'|]. intros _. apply spares_bind; [apply _|apply spares_consputc|]. intros _. exact IH.
Qed.

Lemma spares_consoleintr c : spares R (consoleintr polls c).
Proof.
  unfold consoleintr. destruct (c =? 16); [apply spares_procdump|]. destruct (c =? 21); [apply spares_kill_line|]. destruct ((c =? 8) || (c =? 127)).
  - apply spares_bind; [apply _|sp_auto|]. intros s. destruct (negb _); [|sp_auto]. apply spares_bind; [apply _|by intros s'|]. intros _. apply spares_consputc.
  - apply spares_bind; [apply _|sp_auto|]. intros s. destruct (_ && _); [|sp_auto]. apply spares_bind; [apply _|apply spares_consputc|]. intros _. apply spares_bind; [apply _|by intros s'|]. intros _. apply spares_bind; [apply _|sp_auto|].
    intros s'. destruct (_ || _); [|sp_auto]. apply spares_bind; [apply _|by intros s2|]. intros _. apply spares_on_k, kq_wakeup.
Qed.

Lemma spares_uartintr n : spares R (uartintr polls n).
Proof.
  unfold uartintr. apply spares_bind; [apply _| |intros _; apply spares_uartstart]. induction n as [|n IH]; cbn [uartintr_loop]; [sp_auto|]. apply spares_bind; [apply _| |].
  - unfold uartgetc. apply spares_bind; [apply _|apply spares_ReadReg|]. intros v. destruct (_ =? _); [sp_auto|apply spares_ReadReg].
  - intros c. destruct (c =? -1); [sp_auto|]. apply spares_bind; [apply _|apply spares_consoleintr|]. intros _. exact IH.
Qed.
End ConsoleSpares.

Lemma spares_wakeup_v ch : spares (on v_k kq) (wakeup_v ch).
Proof. intros s. apply (kq_wakeup ch (v_k s)). Qed.

Lemma spares_disk_intr mmio : spares (on v_k kq) (virtio_disk_intr mmio).
Proof.
  unfold virtio_disk_intr. apply spares_bind; [apply _|by intros s|]. intros _. generalize 9%nat as n. induction n as [|n IH]; cbn [intr_loop]; [sp_auto|]. apply spares_bind; [apply _|sp_auto|]. intros s.
  destruct (_ =? _); [sp_auto|]. destruct (negb _); [by intros s'|]. destruct (nth _ _ _) as [b|]; [|sp_auto]. apply spares_bind; [apply _|by intros s'|]. intros _. apply spares_bind; [apply _|apply spares_wakeup_v|]. intros _.
  apply spares_bind; [apply _|by intros s'|]. intros _. exact IH.
Qed.

(** ** Devices *)

Section Devices.
  Context {D P : Type} `{UD : Uart D} `{!UartLaws D} `{PL : Plic P}.
  Context (mmio : Z -> Z) (polls fuel : nat) (Hpolls : (max_busy < polls)%nat).

Record devs_ok (s : tst D P) : Prop := {
  do_cons : cons_ok (t_con s);
  do_tx : tx_ok (t_con s);
  do_up : con_up (t_con s);
  do_rx : (length (rx (cn_dev (t_con s))) < fuel)%nat;
  do_disk : exists d rs, inv (mkSys (t_disk s) d rs)
}.

(** The state but for the devices, the clock and processes that sleep. *)
Record dq (s s' : tst D P) : Prop := {
  dq_h : exists x, t_h s' = w_sip x (t_h s) \/ t_h s' = t_h s;
  dq_k : kq (fst (t_kb s)) (fst (t_kb s'))
}.

Lemma print_irq_run irq (s : con D) : con_up s -> exists d', printf (consputc polls) msg_irq [AInt irq] s = Ok tt (set_dev d' s) /\ rx d' = rx (cn_dev s) /\ con_up (set_dev d' s).
Proof.
  intros Hs. assert (H : exists o, emits (printf (consputc polls) msg_irq [AInt irq]) o).
  { destruct (emits_printint polls Hpolls irq 10 ltac:(lia) ltac:(lia)) as [o2 H2]. eexists. unfold msg_irq. cbn [printf Z.eqb Pos.eqb negb]. repeat (eapply emits_bind; [by apply emits_putc|]). eapply emits_bind; [exact H2|]. eapply emits_bind; [by apply emits_putc|apply emits_ret]. }
  destruct H as [o H]. destruct (H s Hs) as (d' & E & R & _ & U). by exists d'.
Qed.

Lemma devs_plic s p : devs_ok s -> devs_ok (set_plic p s).
Proof. by intros []. Qed.

Lemma dev_con s : devs_ok s -> exists s', in_con (uartintr polls fuel) s = Ok tt s' /\ devs_ok s' /\ dq s s' /\ t_h s' = t_h s /\ t_plic s' = t_plic s.
Proof.
  intros [K X Hp Hr I]. set (c := set_k (fst (t_kb s)) (t_con s)). destruct (uartintr_run polls Hpolls fuel c) as (c' & E & K' & X' & _ & R' & P'); [by apply (ok_ext (t_con s))|by apply (tx_ok_ext (t_con s))|done|done|].
  pose proof (spares_uartintr polls fuel c) as Q. rewrite E in Q. exists (set_con c' s). unfold in_con, zoom. fold c. rewrite E. split; [done|]. split; [split; try done; cbn; rewrite R'; cbn; lia|]. split; [|done]. split; [exists 0; by right|exact Q].
Qed.

Lemma dev_disk s : devs_ok s -> exists s', in_disk (virtio_disk_intr mmio) s = Ok tt s' /\ devs_ok s' /\ dq s s' /\ t_h s' = t_h s /\ t_plic s' = t_plic s.
Proof.
  intros [K X Hp Hr (d & rs & I)]. set (v := set_vk (fst (t_kb s)) (t_disk s)). assert (I' : inv (mkSys v d rs)) by (by apply (inv_quiet (t_disk s))). destruct (intr_all mmio _ _ _ I') as (v' & E & J).
  pose proof (spares_disk_intr mmio v) as Q. rewrite E in Q. exists (set_disk v' s). unfold in_disk, zoom. fold v. rewrite E. split; [done|]. split; [by split; eauto|]. split; [|done]. split; [exists 0; by right|exact Q].
Qed.

Lemma dev_print irq s : devs_ok s -> exists s', print polls msg_irq [AInt irq] s = Ok tt s' /\ devs_ok s' /\ dq s s' /\ t_h s' = t_h s /\ t_plic s' = t_plic s.
Proof.
  intros [K X Hp Hr I]. set (c := set_k (fst (t_kb s)) (t_con s)). destruct (print_irq_run irq c Hp) as (d' & E & R & U). exists (set_con (set_dev d' c) s). unfold print, in_con, zoom. fold c. rewrite E. split; [done|]. split; [|split; [|done]].
  - split; cbn; try done; [by apply (ok_ext (t_con s))|by apply (tx_ok_ext (t_con s))|by rewrite R].
  - split; [exists 0; by right|done].
Qed.

Definition external : Z := 2 ^ 63 + 9.
Definition timer : Z := 2 ^ 63 + 1.

Lemma devintr_external s : devs_ok s -> r_scause (t_h s) = external -> exists s', devintr mmio polls fuel s = Ok 1 s' /\ devs_ok s' /\ dq s s' /\ t_h s' = t_h s.
Proof.
  intros K Hc. unfold devintr. unfold sbind at 1, sget. rewrite Hc. change (negb (Z.land external (2 ^ 63) =? 0) && (Z.land external 255 =? 9)) with true. cbv iota.
  unfold sbind at 1, plic_claim. destruct (pl_read _ _) as [x p]. set (irq := s32 x). set (s1 := set_plic p s). assert (K1 : devs_ok s1) by (by apply devs_plic).
  assert (B : exists s2, (if irq =? UART0_IRQ then in_con (uartintr polls fuel) else if irq =? VIRTIO0_IRQ then in_disk (virtio_disk_intr mmio) else if negb (irq =? 0) then print polls msg_irq [AInt irq] else sret tt) s1 = Ok tt s2 /\
    devs_ok s2 /\ dq s1 s2 /\ t_h s2 = t_h s1).
  { destruct (irq =? UART0_IRQ); [destruct (dev_con s1 K1) as (s2 & H); exists s2; tauto|]. destruct (irq =? VIRTIO0_IRQ); [destruct (dev_disk s1 K1) as (s2 & H); exists s2; tauto|].
    destruct (negb (irq =? 0)); [destruct (dev_print irq s1 K1) as (s2 & H); exists s2; tauto|]. exists s1. split; [done|]. split; [done|]. split; [|done]. split; [exists 0; by right|done]. }
  destruct B as (s2 & E2 & K2 & Q2 & H2). unfold sbind at 1. rewrite E2. destruct (negb (irq =? 0)).
  - eexists. split; [reflexivity|]. split; [by apply devs_plic|]. split; [|done]. destruct Q2. by split.
  - exists s2. split; [done|]. split; [done|]. split; [|done]. destruct Q2. by split.
Qed.

Lemma devintr_timer s : devs_ok s -> r_scause (t_h s) = timer -> exists s' x, devintr mmio polls fuel s = Ok 2 s' /\ devs_ok s' /\ dq s s' /\ t_h s' = w_sip x (t_h s).
Proof.
  intros K Hc. unfold devintr. unfold sbind at 1, sget. rewrite Hc. change (negb (Z.land timer (2 ^ 63) =? 0) && (Z.land timer 255 =? 9)) with false. change (timer =? 2 ^ 63 + 1) with true. cbv iota.
  destruct (cpuid s =? 0).
  - eexists _, _. split; [reflexivity|]. split; [by destruct K|]. split; [|reflexivity]. split; [eexists; left; reflexivity|]. apply (kq_wakeup ch_ticks).
  - eexists _, _. split; [reflexivity|]. split; [by destruct K|]. split; [|reflexivity]. split; [eexists; left; reflexivity|done].
Qed.
End Devices.

(** ** Back to user space *)

Definition is64 (x : Z) : Prop := 0 <= x < 2 ^ 64.

(** The slots of the trap frame that the kernel fills for the next trap. *)
Lemma cell_put4 m tf a b c d off : pages_ok m -> tf mod 8 = 0 -> is64 a -> is64 b -> is64 c -> is64 d -> off mod 8 = 0 ->
  let m' := put_cell (tf + 32) d (put_cell (tf + 16) c (put_cell (tf + 8) b (put_cell tf a m))) in
  pages_ok m' /\ cell m' (tf + off) = if decide (off = 32) then d else if decide (off = 16) then c else if decide (off = 8) then b else if decide (off = 0) then a else cell m (tf + off).
Proof.
  intros P0 Ht Ha Hb Hc Hd Ho m'. unfold m'. pose proof (off8 tf 8 Ht eq_refl) as T1. pose proof (off8 tf 16 Ht eq_refl) as T2. pose proof (off8 tf 32 Ht eq_refl) as T3. pose proof (off8 tf off Ht Ho) as T4.
  assert (P1 := put_cell_pages tf a m P0 Ht). assert (P2 := put_cell_pages (tf + 8) b _ P1 T1). assert (P3 := put_cell_pages (tf + 16) c _ P2 T2). assert (P4 := put_cell_pages (tf + 32) d _ P3 T3). split; [done|].
  rewrite !cell_put by done. repeat case_decide; try lia; done.
Qed.

Section Leave.
  Context {D P : Type} `{UD : Uart D} `{PL : Plic P} (l : link).
  Implicit Types s : tst D P.

(** A process in the kernel, ready to go back. *)
Record in_kernel (s : tst D P) (x tf : Z) : Prop := {
  ik_priv : h_priv (t_h s) = Supervisor;
  ik_tf : p_trapframe (t_proc s) = tf;
  ik_satp : MAKE_SATP (p_pagetable (t_proc s)) = x;
  ik_map : tf_ok x (t_mem s) tf;
  ik_pages : pages_ok (t_mem s);
  ik_regs : is64 (r_satp (t_h s)) /\ is64 (r_tp (t_h s)) /\ is64 (l_usertrap l)
}.

(** A process in user space, ready to be trapped. *)
Record in_user (s : tst D P) (x tf ksatp : Z) : Prop := {
  iu_priv : h_priv (t_h s) = User;
  iu_satp : r_satp (t_h s) = x;
  iu_scratch : h_csrs (t_h s) sscratch = TRAPFRAME;
  iu_stvec : r_stvec (t_h s) = TRAMPOLINE;
  iu_tf : p_trapframe (t_proc s) = tf;
  iu_root : MAKE_SATP (p_pagetable (t_proc s)) = x;
  iu_map : tf_ok x (t_mem s) tf;
  iu_pages : pages_ok (t_mem s);
  iu_head : cell (t_mem s) tf = ksatp /\ cell (t_mem s) (tf + 16) = l_usertrap l /\ is64 (cell (t_mem s) (tf + 32));
  iu_bounds : is64 ksatp /\ is64 (l_usertrap l) /\ is64 (h_pc (t_h s)) /\ regs_ok (t_h s)
}.

(** The exit: usertrapret, then userret. *)
Definition with_mem (m : pmem) (s : tst D P) : tst D P := set_kb (set_mem (fun _ => m) (fst (t_kb s)), snd (t_kb s)) s.
Definition asm (code : list instr) (s : tst D P) : option (tst D P) :=
  match steps code (t_h s, t_mem s) with Some (h, m) => Some (set_h h (with_mem m s)) | None => None end.

Lemma kstack_ok n : is64 (u64 (KSTACK n + PGSIZE)).
Proof. apply Z.mod_pos_bound. lia. Qed.

Lemma lor_pow2_land x n m : 0 <= n -> 0 <= m -> n <> m -> Z.land (Z.lor (Z.land x (Z.lnot (Z.shiftl 1 n))) (Z.shiftl 1 m)) (Z.shiftl 1 n) = 0.
Proof.
  intros Hn Hm Hd. apply Z.bits_inj'. intros i Hi. rewrite Z.land_spec, Z.lor_spec, Z.land_spec, Z.lnot_spec, !Z.shiftl_1_l, !Z.pow2_bits_eqb, Z.bits_0 by done.
  destruct (Z.eqb_spec n i), (Z.eqb_spec m i); try lia; cbn; rewrite ?andb_false_r; done.
Qed.

(** What userret finds. *)
Record left_kernel (s s' : tst D P) (x tf : Z) : Prop := {
  lk_priv : h_priv (t_h s') = Supervisor;
  lk_a0 : rget a0 (t_h s') = TRAPFRAME;
  lk_a1 : rget a1 (t_h s') = x;
  lk_spp : Z.land (r_sstatus (t_h s')) SSTATUS_SPP = 0;
  lk_sepc : r_sepc (t_h s') = cell (t_mem s) (tf + 24);
  lk_stvec : r_stvec (t_h s') = TRAMPOLINE;
  lk_pages : pages_ok (t_mem s');
  lk_same : same_pages (t_mem s) (t_mem s') [tf];
  lk_cells : forall off, off mod 8 = 0 -> off ∉ [0; 8; 16; 32] -> cell (t_mem s') (tf + off) = cell (t_mem s) (tf + off);
  lk_head : cell (t_mem s') tf = r_satp (t_h s) /\ cell (t_mem s') (tf + 16) = l_usertrap l /\ cell (t_mem s') (tf + 32) = r_tp (t_h s);
  lk_proc : t_proc s' = t_proc s;
  lk_rest : k_procs (fst (t_kb s')) = k_procs (fst (t_kb s)) /\ t_con s' = t_con s /\ t_disk s' = t_disk s /\ t_plic s' = t_plic s /\ snd (t_kb s') = snd (t_kb s) /\ t_ticks s' = t_ticks s
}.

Lemma usertrapret_run s x tf : in_kernel s x tf -> exists s', usertrapret l s = Ok Back s' /\ left_kernel s s' x tf.
Proof.
  intros [K1 K2 K3 K4 K5 (B1 & B2 & B3)]. exists (match usertrapret l s with Ok _ z => z | _ => s end). split; [reflexivity|].
  set (m' := put_cell (tf + 32) (r_tp (t_h s)) (put_cell (tf + 16) (l_usertrap l) (put_cell (tf + 8) (u64 (KSTACK (k_cur (fst (t_kb s))) + PGSIZE)) (put_cell tf (r_satp (t_h s)) (t_mem s))))).
  pose proof (tf_mod8 x _ _ 0 K4 eq_refl) as T8. rewrite Z.add_0_r in T8. assert (C := fun off Ho => cell_put4 (t_mem s) tf _ _ _ _ off K5 T8 B1 (kstack_ok (k_cur (fst (t_kb s)))) B3 B2 Ho). cbv zeta in C. fold m' in C.
  match goal with |- left_kernel _ ?z _ _ => set (s' := z) end. assert (Em : t_mem s' = m') by (unfold s', m'; rewrite <- K2; reflexivity).
  assert (Eh : t_h s' = pcset (TRAMPOLINE + l_userret l) (rset a1 x (rset a0 TRAPFRAME (w_sepc (cell m' (tf + 24)) (w_sstatus (Z.lor (Z.land (r_sstatus (w_stvec TRAMPOLINE (intr_off (t_h s)))) (Z.lnot SSTATUS_SPP)) SSTATUS_SPIE) (w_stvec TRAMPOLINE (intr_off (t_h s))))))))
    by (rewrite <- Em, <- K3; unfold s'; rewrite <- K2; reflexivity).
  split; rewrite ?Em, ?Eh; try done.
  - apply lor_pow2_land; lia.
  - change (cell m' (tf + 24) = cell (t_mem s) (tf + 24)). by rewrite (proj2 (C 24 eq_refl)).
  - by apply (C 0).
  - intros a Ha. unfold m'. rewrite list_elem_of_singleton in Ha. assert (PG : forall off, 0 <= off < PGSIZE -> pg_of (tf + off) = tf).
    { intros off Hoff. pose proof (to_aligned _ _ _ K4). unfold pg_of. rewrite Z.add_mod, H, Z.add_0_l, Z.mod_mod, Z.mod_small by (done || lia). lia. }
    rewrite !(fun b v mm => put_cell_same b v mm [pg_of b] ltac:(by apply list_elem_of_singleton)); [done|..]; rewrite list_elem_of_singleton, ?PG by lia; [|done..]. rewrite <- (Z.add_0_r tf), PG; lia.
  - intros off Ho Hn. rewrite !not_elem_of_cons in Hn. destruct Hn as (N1 & N2 & N3 & N4 & _). rewrite (proj2 (C off Ho)), !decide_False by done. done.
  - split; [|split]; [rewrite <- (Z.add_0_r tf), (proj2 (C 0 eq_refl))|rewrite (proj2 (C 16 eq_refl))|rewrite (proj2 (C 32 eq_refl))]; done.
Qed.

(** The whole way back. *)
Lemma leave_run s x tf : in_kernel s x tf -> is64 (cell (t_mem s) (tf + 24)) -> (forall r off, (r, off) ∈ (a0, 112) :: tf_slots -> is64 (cell (t_mem s) (tf + off))) -> exists s1 s2, usertrapret l s = Ok Back s1 /\ asm userret s1 = Some s2 /\ in_user s2 x tf (r_satp (t_h s)) /\
  (forall r off, (r, off) ∈ (a0, 112) :: tf_slots -> rget r (t_h s2) = cell (t_mem s) (tf + off)) /\ h_pc (t_h s2) = cell (t_mem s) (tf + 24) /\ same_pages (t_mem s) (t_mem s2) [tf] /\ t_proc s2 = t_proc s /\
  t_con s2 = t_con s /\ t_disk s2 = t_disk s.
Proof.
  intros K H24 HB. destruct (usertrapret_run s x tf K) as (s1 & E1 & [L1 L2 L3 L4 L5 L6 L7 L8 L9 L10 L11 (R1 & R2 & R3 & R4 & R5 & R6)]). destruct K as [K1 K2 K3 K4 K5 (B1 & B2 & B3)].
  pose proof (tf_ok_same _ _ _ _ K4 L8) as T. destruct (userret_run (t_h s1) (t_mem s1) x tf L1 L2 L3 T) as (h & E2 & [U1 U2 U3 U4 U5 U6 U7]).
  exists s1, (set_h h (with_mem (t_mem s1) s1)). split; [done|]. split; [unfold asm; by rewrite E2|].
  assert (V : forall r off, (r, off) ∈ (a0, 112) :: tf_slots -> rget r h = cell (t_mem s) (tf + off)).
  { intros r off Hin. rewrite (U1 r off Hin). assert (F : Forall (fun z => snd z mod 8 = 0 /\ snd z ∉ [0; 8; 16; 32]) ((a0, 112) :: tf_slots)) by decided. rewrite Forall_forall in F. destruct (F (r, off) Hin) as [F1 F2]. by apply L9. }
  change (t_mem (set_h h (with_mem (t_mem s1) s1))) with (t_mem s1). change (t_proc (set_h h (with_mem (t_mem s1) s1))) with (t_proc s1). change (t_h (set_h h (with_mem (t_mem s1) s1))) with h.
  split; [|split; [exact V|split; [by rewrite U4, L5|split; [done|split; [done|done]]]]]. destruct L10 as (H1 & H2 & H3). split; try done.
  - change (h_priv h = User). by rewrite U5, L4.
  - change (h_csrs h stvec = TRAMPOLINE). by rewrite U7.
  - change (p_trapframe (t_proc s1) = tf). by rewrite L11.
  - change (MAKE_SATP (p_pagetable (t_proc s1)) = x). by rewrite L11.
  - change (cell (t_mem s1) tf = r_satp (t_h s) /\ cell (t_mem s1) (tf + 16) = l_usertrap l /\ is64 (cell (t_mem s1) (tf + 32))). rewrite H1, H2, H3. done.
  - change (is64 (r_satp (t_h s)) /\ is64 (l_usertrap l) /\ is64 (h_pc h) /\ regs_ok h). split; [done|]. split; [done|]. split; [by rewrite U4, L5|]. intros r. destruct (decide (r = zero)) as [->|Nz]; [cbn; lia|].
    pose proof (proj2 tf_slots_regs r Nz) as Hin. apply list_elem_of_In, in_map_iff in Hin as ((r' & off) & <- & Hin). apply list_elem_of_In in Hin. cbn [fst]. rewrite (V r' off Hin). by apply (HB r').
Qed.
End Leave.

Lemma cell_page m m' tf off : tf mod PGSIZE = 0 -> 0 <= off < PGSIZE -> page m' tf = page m tf -> cell m' (tf + off) = cell m (tf + off).
Proof.
  intros Ha Ho E. assert (PG : pg_of (tf + off) = tf). { unfold pg_of. rewrite Z.add_mod, Ha, Z.add_0_l, Z.mod_mod, Z.mod_small by (done || lia). lia. }
  unfold cell, pm_read. by rewrite PG, E.
Qed.

(** ** Through the kernel and back *)

Section Round.
  Context {D P : Type} `{UD : Uart D} `{PL : Plic P}.
  Context (l : link) (mmio : Z -> Z) (polls fuel : nat) (e : Z -> env) (others : tst D P -> tst D P).
  Implicit Types s : tst D P.

Definition user_trap (cause val : Z) : stM (tst D P) tres := fun s =>
  match asm uservec (set_h (take_trap cause val (t_h s)) s) with
  | None => Wrong "uservec"
  | Some z =>
      match usertrap l mmio polls fuel e others z with
      | Ok Back z => match asm userret z with Some z => Ok Back z | None => Wrong "userret" end
      | o => o
      end
  end.

(** In usertrap, with the user's program counter saved. *)
Record trapped (s s2 : tst D P) (x tf ksatp cause epc : Z) : Prop := {
  tr_kernel : in_kernel l s2 x tf;
  tr_satp : r_satp (t_h s2) = ksatp;
  tr_holds : tf_holds (t_mem s2) tf (t_h s);
  tr_epc : cell (t_mem s2) (tf + 24) = epc;
  tr_same : same_pages (t_mem s) (t_mem s2) [tf];
  tr_proc : t_proc s2 = t_proc s;
  tr_cause : r_scause (t_h s2) = cause;
  tr_rest : k_procs (fst (t_kb s2)) = k_procs (fst (t_kb s)) /\ k_cur (fst (t_kb s2)) = k_cur (fst (t_kb s)) /\ t_con s2 = t_con s /\ t_disk s2 = t_disk s /\ t_plic s2 = t_plic s /\ snd (t_kb s2) = snd (t_kb s) /\ t_ticks s2 = t_ticks s
}.

Lemma user_status h : h_priv h = User -> Z.land (trap_status (r_sstatus h) (h_priv h)) SSTATUS_SPP = 0.
Proof.
  intros ->. unfold trap_status. cbn [bool_decide decide priv_eq]. rewrite Z.lor_0_r. apply Z.bits_inj'. intros i Hi. rewrite Z.bits_0, Z.land_spec, Z.lor_spec, Z.land_spec, Z.lnot_spec, !Z.lor_spec by done.
  unfold SSTATUS_SPP, SSTATUS_SPIE, SSTATUS_SIE. rewrite !Z.shiftl_1_l, !Z.pow2_bits_eqb by lia. destruct (Z.eqb_spec 8 i) as [<-|]; [|by rewrite andb_false_r]. cbn. rewrite andb_false_r. by destruct (Z.land _ _ =? 0).
Qed.

Definition saved_pc (s1 : tst D P) (tf : Z) : tst D P := with_mem (put_cell (tf + 24) (r_sepc (t_h s1)) (t_mem s1)) (set_h (w_stvec (l_kernelvec l) (t_h s1)) s1).

Lemma enter_run s x tf ksatp cause val : in_user l s x tf ksatp ->
  exists s1, asm uservec (set_h (take_trap cause val (t_h s)) s) = Some s1 /\ Z.land (r_sstatus (t_h s1)) SSTATUS_SPP = 0 /\ p_trapframe (t_proc s1) = tf /\ t_proc s1 = t_proc s /\ r_scause (t_h s1) = cause /\ trapped s (saved_pc s1 tf) x tf ksatp cause (h_pc (t_h s)).
Proof.
  intros [U1 U2 U3 U4 U5 U6 U7 U8 (U9 & U10 & U11) (B1 & B2 & B3 & B4)]. set (h0 := take_trap cause val (t_h s)).
  destruct (uservec_run h0 (t_mem s) tf U8 B4 eq_refl U3) as (h1 & m1 & E & [N1 N2 N3 N4 N5 N6 N7 N8 N9 N10]); [by rewrite <- U2 in U7|].
  exists (set_h h1 (with_mem m1 (set_h h0 s))). split; [unfold asm; change (t_h (set_h h0 s)) with h0; change (t_mem (set_h h0 s)) with (t_mem s); by rewrite E|].
  assert (Es : r_sstatus h1 = trap_status (r_sstatus (t_h s)) (h_priv (t_h s))) by (unfold r_sstatus; by rewrite N10).
  assert (Ep : r_sepc h1 = h_pc (t_h s)) by (unfold r_sepc; by rewrite N10). assert (Ec : r_scause h1 = cause) by (unfold r_scause; by rewrite N10).
  split; [change (Z.land (r_sstatus h1) SSTATUS_SPP = 0); rewrite Es; by apply user_status|]. split; [exact U5|]. split; [done|]. split; [exact Ec|].
  pose proof (tf_ok_same _ _ _ _ U7 N3) as T1. assert (T24 : (tf + 24) mod 8 = 0) by (by eapply tf_mod8).
  assert (PG : pg_of (tf + 24) = tf). { pose proof (to_aligned _ _ _ U7) as Ha. unfold pg_of. rewrite Z.add_mod, Ha, Z.add_0_l, Z.mod_mod, Z.mod_small by (done || lia). lia. }
  set (m2 := put_cell (tf + 24) (r_sepc h1) m1). assert (S2 : same_pages m1 m2 [tf]) by (apply put_cell_same; rewrite PG; by apply list_elem_of_singleton).
  assert (C2 : forall off, off mod 8 = 0 -> cell m2 (tf + off) = if decide (off = 24) then h_pc (t_h s) else cell m1 (tf + off)).
  { intros off Ho. unfold m2. rewrite Ep, cell_put by (done || by eapply tf_mod8). repeat case_decide; try lia; done. }
  split; try done.
  - split; try done; [by apply (tf_ok_same _ m1)|by apply put_cell_pages|]. change (is64 (r_satp h1) /\ is64 (r_tp h1) /\ is64 (l_usertrap l)). rewrite N7, U9. split; [done|]. unfold r_tp. rewrite N6. done.
  - change (r_satp h1 = ksatp). by rewrite N7.
  - intros r off Hin. assert (F : Forall (fun z => snd z mod 8 = 0 /\ snd z <> 24) ((a0, 112) :: tf_slots)) by decided. rewrite Forall_forall in F. destruct (F (r, off) Hin) as [F1 F2]. cbn [snd] in F1, F2.
    change (cell m2 (tf + off) = rget r (t_h s)). rewrite C2, decide_False by done. by apply N1.
  - change (cell m2 (tf + 24) = h_pc (t_h s)). by rewrite C2.
  - change (same_pages (t_mem s) m2 [tf]). by eapply same_pages_trans.
Qed.

Lemma usertrap_dev s1 tf : Z.land (r_sstatus (t_h s1)) SSTATUS_SPP = 0 -> p_trapframe (t_proc s1) = tf -> r_scause (t_h s1) <> 8 ->
  forall n s2, devintr mmio polls fuel (saved_pc s1 tf) = Ok n s2 -> n <> 0 -> usertrap l mmio polls fuel e others s1 = usertrap_end l others n s2.
Proof.
  intros Hs Htf Hc n s2 E Hn. unfold usertrap. unfold sbind at 1, sget. rewrite Hs, Htf. change (negb (0 =? 0)) with false. cbv iota. apply Z.eqb_neq in Hc, Hn. rewrite Hc.
  change (sbind (devintr mmio polls fuel) (fun which_dev => if negb (which_dev =? 0) then usertrap_end l others which_dev else sbind sget (fun s => sbind (print polls msg_scause [ALong (r_scause (t_h s)); AInt (p_pid (t_proc s1))]) (fun _ =>
    sbind (print polls msg_sepc [ALong (r_sepc (t_h s)); ALong (r_stval (t_h s))]) (fun _ => sbind (in_k (modp (k_cur (fst (t_kb s))) (p_set_killed true))) (fun _ => usertrap_end l others 0))))) (saved_pc s1 tf) = usertrap_end l others n s2).
  unfold sbind at 1. rewrite E. by rewrite Hn.
Qed.

(** The process runs again, with its page table, its trap frame and the
    kernel's page table as they were. *)
Record resumes (x tf : Z) (z z' : tst D P) : Prop := {
  rs_kernel : in_kernel l z' x tf;
  rs_satp : r_satp (t_h z') = r_satp (t_h z);
  rs_frame : page (t_mem z') tf = page (t_mem z) tf
}.

(** From usertrap to user space, when the trap frame holds the registers. *)
Lemma resume_run (s z : tst D P) x tf ksatp epc : in_kernel l z x tf -> r_satp (t_h z) = ksatp -> tf_holds (t_mem z) tf (t_h s) -> regs_ok (t_h s) -> cell (t_mem z) (tf + 24) = epc -> is64 epc ->
  exists z1 z2 : tst D P, usertrapret l z = Ok Back z1 /\ asm userret z1 = Some z2 /\ in_user l z2 x tf ksatp /\ (forall r, rget r (t_h z2) = rget r (t_h s)) /\ h_pc (t_h z2) = epc /\
    same_pages (t_mem z) (t_mem z2) [tf] /\ t_proc z2 = t_proc z /\ t_con z2 = t_con z /\ t_disk z2 = t_disk z.
Proof.
  intros K Hs Hh R He Hb. destruct (leave_run l z x tf K) as (z1 & z2 & E1 & E2 & U & V & W & X & Y & C & Dk); [by rewrite He|intros r off Hin; rewrite (Hh r off Hin); apply R|].
  exists z1, z2. split; [done|]. split; [done|]. split; [by rewrite <- Hs|]. split; [|split; [by rewrite W|done]]. intros r. destruct (decide (r = zero)) as [->|Nz]; [done|].
  pose proof (proj2 tf_slots_regs r Nz) as Hin. apply list_elem_of_In, in_map_iff in Hin as ((r' & off) & <- & Hin). apply list_elem_of_In in Hin. cbn [fst]. by rewrite (V r' off Hin), (Hh r' off Hin).
Qed.

Lemma in_kernel_dq s s' x tf : in_kernel l s x tf -> dq s s' -> in_kernel l s' x tf /\ t_mem s' = t_mem s /\ t_proc s' = t_proc s /\ r_satp (t_h s') = r_satp (t_h s).
Proof.
  intros [K1 K2 K3 K4 K5 K6] [(y & Hh) [Q1 Q2 Q3]]. assert (Ep : t_proc s' = t_proc s) by (unfold t_proc; by rewrite Q2, Q3). assert (Em : t_mem s' = t_mem s) by done.
  assert (Eh : h_priv (t_h s') = h_priv (t_h s) /\ r_satp (t_h s') = r_satp (t_h s) /\ r_tp (t_h s') = r_tp (t_h s)) by (by destruct Hh as [-> | ->]). destruct Eh as (E1 & E2 & E3).
  split; [|done]. split; rewrite ?Ep, ?Em, ?E1, ?E2, ?E3; done.
Qed.

Definition set_pstate (st : procstate) (z : tst D P) : tst D P := set_kb (set_procs (alter (p_set_state st) (k_cur (fst (t_kb z)))) (fst (t_kb z)), snd (t_kb z)) z.

Lemma in_kernel_state st z x tf : in_kernel l z x tf -> in_kernel l (set_pstate st z) x tf.
Proof.
  intros [K1 K2 K3 K4 K5 K6]. assert (Ep : t_proc (set_pstate st z) = p_set_state st (t_proc z) \/ t_proc (set_pstate st z) = t_proc z).
  { unfold t_proc, set_pstate. cbn [set_kb t_kb fst set_procs k_cur k_procs]. rewrite !nth_lookup, list_lookup_alter_eq. destruct (k_procs (fst (t_kb z)) !! k_cur (fst (t_kb z))); [by left|by right]. }
  assert (E : p_trapframe (t_proc (set_pstate st z)) = p_trapframe (t_proc z) /\ p_pagetable (t_proc (set_pstate st z)) = p_pagetable (t_proc z)) by (by destruct Ep as [-> | ->]). destruct E as [E1 E2]. split; rewrite ?E1, ?E2; done.
Qed.

Lemma yield_run (z : tst D P) x tf : in_kernel l z x tf -> exists z' : tst D P, in_k yield z = Ok tt z' /\ in_kernel l z' x tf /\ t_mem z' = t_mem z /\ t_h z' = t_h z.
Proof. intros K. exists (set_pstate RUNNABLE z). split; [reflexivity|]. split; [by apply in_kernel_state|done]. Qed.
End Round.

(** C14. Interrupts are transparent to user code: for a process in user space
    with its trap frame mapped, an external interrupt of any device or a timer
    interrupt goes through uservec, usertrap, usertrapret and userret and ends
    in user space at the same instruction with the same value in every
    register, the same page table and the trap entry set up as before; an
    external interrupt changes no page of memory but the trap frame, and after
    a timer interrupt this holds when the process is scheduled again. *)
Theorem interrupt_transparent {D P : Type} `{UD : Uart D} `{!UartLaws D} `{PL : Plic P} (l : link) (mmio : Z -> Z) (polls fuel : nat) (Hpolls : (max_busy < polls)%nat)
  (e : Z -> env) (others : tst D P -> tst D P) (s : tst D P) (x tf ksatp cause val : Z) :
  in_user l s x tf ksatp -> devs_ok fuel s -> p_killed (t_proc s) = false -> cause = external \/ cause = timer ->
  (forall z z' : tst D P, in_k yield z = Ok tt z' -> in_kernel l z' x tf -> resumes l x tf z' (others z')) ->
  exists s', user_trap l mmio polls fuel e others cause val s = Ok Back s' /\ in_user l s' x tf ksatp /\
    (forall r, rget r (t_h s') = rget r (t_h s)) /\ h_pc (t_h s') = h_pc (t_h s) /\
    (cause = external -> devs_ok fuel s' /\ same_pages (t_mem s) (t_mem s') [tf] /\ t_proc s' = t_proc s).
Proof.
  intros U K Hk Hc Ho. destruct (enter_run l s x tf ksatp cause val U) as (z1 & E1 & Hs & Htf & Hpr & Hcs & [R1 R2 R3 R4 R5 R6 R7 (R8 & R9 & R10 & R11 & R12 & R13 & R14)]). destruct (iu_bounds _ _ _ _ _ U) as (_ & _ & B3 & B4).
  assert (K2 : devs_ok fuel (saved_pc l z1 tf)) by (destruct K; split; rewrite ?R10, ?R11; done). unfold user_trap. rewrite E1. destruct Hc as [-> | ->].
  - destruct (devintr_external mmio polls fuel Hpolls _ K2 R7) as (z2 & E2 & K3 & Q & Hh). destruct (in_kernel_dq l _ _ x tf R1 Q) as (I2 & M2 & P2 & S2).
    rewrite (usertrap_dev l mmio polls fuel e others z1 tf Hs Htf ltac:(rewrite Hcs; done) 1 z2 E2 ltac:(done)). unfold usertrap_end. unfold sbind at 1, sget. rewrite P2, R6, Hk. unfold sbind at 1. cbn [Z.eqb Pos.eqb sret].
    destruct (resume_run l s z2 x tf ksatp (h_pc (t_h s)) I2) as (z3 & z4 & F1 & F2 & F3 & F4 & F5 & F6 & F7 & F8 & F9); [by rewrite S2|by rewrite M2|done|by rewrite M2|done|].
    rewrite F1, F2. exists z4. split; [done|]. split; [done|]. split; [done|]. split; [done|]. intros _. split; [destruct K3; split; rewrite ?F8, ?F9; done|]. split; [|by rewrite F7, P2, R6].
    eapply same_pages_trans; [exact R5|]. by rewrite <- M2.
  - destruct (devintr_timer mmio polls fuel _ K2 R7) as (z2 & y & E2 & K3 & Q & Hh). destruct (in_kernel_dq l _ _ x tf R1 Q) as (I2 & M2 & P2 & S2).
    rewrite (usertrap_dev l mmio polls fuel e others z1 tf Hs Htf ltac:(rewrite Hcs; done) 2 z2 E2 ltac:(done)). unfold usertrap_end. unfold sbind at 1, sget. rewrite P2, R6, Hk. unfold sbind at 1. cbn [Z.eqb Pos.eqb].
    destruct (yield_run l z2 x tf I2) as (z3 & E3 & I3 & M3 & H3). pose proof (Ho z2 z3 E3 I3) as [J1 J2 J3]. unfold sbind at 1. rewrite E3. cbn [smodify].
    pose proof (to_aligned _ _ _ (ik_map _ _ _ _ R1)) as Ha. assert (Hc : forall off, 0 <= off < PGSIZE -> cell (t_mem (others z3)) (tf + off) = cell (t_mem (saved_pc l z1 tf)) (tf + off)).
    { intros off Hoff. rewrite <- M2, <- M3. by apply cell_page. }
    destruct (resume_run l s (others z3) x tf ksatp (h_pc (t_h s)) J1) as (z4 & z5 & F1 & F2 & F3 & F4 & F5 & _); [by rewrite J2, H3, S2| |done|by rewrite Hc|done|].
    + intros r off Hin. rewrite Hc; [by apply R3|]. pose proof (proj2 tf_slots_offs) as F. rewrite Forall_forall in F. apply F. change off with (snd (r, off)). apply list_elem_of_In, in_map, list_elem_of_In. exact Hin.
    + rewrite F1, F2. exists z5. done.
Qed.

(** ** System calls *)

(** What the code of a system call does to the calling process: result [r] in
    its frame, and nothing else there; its page table and frame stay. *)
Record sys_ok (kb kb' : kst * bstate) (x tf r : Z) : Prop := {
  so_slots : forall q off, (q, off) ∈ tf_slots -> cell (k_mem (fst kb')) (tf + off) = cell (k_mem (fst kb)) (tf + off);
  so_epc : cell (k_mem (fst kb')) (tf + 24) = cell (k_mem (fst kb)) (tf + 24);
  so_res : cell (k_mem (fst kb')) (tf + 112) = r /\ is64 r;
  so_map : tf_ok x (k_mem (fst kb')) tf;
  so_pages : pages_ok (k_mem (fst kb'));
  so_proc : let p := nth (k_cur (fst kb')) (k_procs (fst kb')) proc0 in p_trapframe p = tf /\ MAKE_SATP (p_pagetable p) = x /\ p_killed p = false
}.

(** The kernel state in which a system call of [h], current process [p], runs. *)
Record calling (kb : kst * bstate) (h : hart) (p : proc) (x tf : Z) : Prop := {
  ca_holds : tf_holds (k_mem (fst kb)) tf h;
  ca_map : tf_ok x (k_mem (fst kb)) tf;
  ca_pages : pages_ok (k_mem (fst kb));
  ca_proc : nth (k_cur (fst kb)) (k_procs (fst kb)) proc0 = p
}.

Section Sys.
  Context {D P : Type} `{UD : Uart D} `{PL : Plic P}.
  Context (l : link) (mmio : Z -> Z) (polls fuel : nat) (e : Z -> env) (others : tst D P -> tst D P).

Definition past_ecall (s2 : tst D P) (tf : Z) : tst D P := set_h (intr_on (t_h s2)) (with_mem (put_cell (tf + 24) (u64 (cell (t_mem s2) (tf + 24) + 4)) (t_mem s2)) s2).

Lemma usertrap_sys z1 tf kb : Z.land (r_sstatus (t_h z1)) SSTATUS_SPP = 0 -> p_trapframe (t_proc z1) = tf -> r_scause (t_h z1) = 8 -> p_killed (t_proc z1) = false ->
  let z2 := past_ecall (saved_pc l z1 tf) tf in run hC (syscall (e (t_ticks z1))) (t_kb z2) = Ok tt kb -> usertrap l mmio polls fuel e others z1 = usertrap_end l others 0 (set_kb kb z2).
Proof.
  intros Hs Htf Hc Hk z2 E. unfold usertrap. unfold sbind at 1, sget. rewrite Hs, Htf, Hc, Hk. change (negb (0 =? 0)) with false. change (8 =? 8) with true. cbv iota.
  change (sbind (in_kb (run hC (syscall (e (t_ticks z1))))) (fun _ => usertrap_end l others 0) z2 = usertrap_end l others 0 (set_kb kb z2)). unfold sbind, in_kb, zoom. by rewrite E.
Qed.
End Sys.


(** ** Traps in the kernel *)

Section KernelTrap.
  Context {D P : Type} `{UD : Uart D} `{PL : Plic P}.
  Context (l : link) (mmio : Z -> Z) (polls fuel : nat) (others : tst D P -> tst D P).

Definition kernel_trap (cause val : Z) : stM (tst D P) unit := fun s =>
  match asm kernelvec_entry (set_h (take_trap cause val (t_h s)) s) with
  | None => Wrong "kernelvec"
  | Some z =>
      match kerneltrap mmio polls fuel others z with
      | Ok _ z => match asm kernelvec_exit z with Some z => Ok tt z | None => Wrong "kernelvec" end
      | o => o
      end
  end.

(** Kernel code with interrupts on; the frame that kernelvec pushes is the
    cells at [pa], in the pages [pgs]. *)
Record stack_ok (s : tst D P) (pa : Z) (pgs : list Z) : Prop := {
  sk_priv : h_priv (t_h s) = Supervisor;
  sk_sie : intr_get (t_h s) = true;
  sk_pages : pages_ok (t_mem s);
  sk_regs : regs_ok (t_h s);
  sk_frame : forall perm, perm = PTE_R \/ perm = PTE_W -> framed perm (rset sp (u64 (rget sp (t_h s) - 256)) (t_h s)) (t_mem s) sp pa pgs (map snd kslots_tp)
}.

(** The kernel thread runs again: stack, frame and page table as they were. *)
Record kresumes (pa : Z) (pgs : list Z) (z z' : tst D P) : Prop := {
  kr_sp : rget sp (t_h z') = rget sp (t_h z);
  kr_frame : framed PTE_R (t_h z') (t_mem z') sp pa pgs (map snd kslots);
  kr_cells : forall off, off ∈ map snd kslots -> cell (t_mem z') (pa + off) = cell (t_mem z) (pa + off)
}.

Lemma kernel_status x : Z.land x SSTATUS_SIE <> 0 -> let y := trap_status x Supervisor in
  Z.land y SSTATUS_SPP <> 0 /\ Z.land y SSTATUS_SIE = 0 /\ Z.land (sret_status y) SSTATUS_SIE <> 0.
Proof.
  intros Hx y. apply Z.eqb_neq in Hx. unfold y, trap_status, sret_status. rewrite Hx, !bool_decide_true by done. unfold SSTATUS_SPP, SSTATUS_SPIE, SSTATUS_SIE in *.
  assert (B : forall z n, 0 <= n -> Z.land z (Z.shiftl 1 n) <> 0 <-> Z.testbit z n = true).
  { intros z n Hn. rewrite Z.shiftl_1_l. split.
    - intros H. destruct (Z.testbit z n) eqn:E; [done|]. destruct H. apply Z.bits_inj'. intros i Hi. rewrite Z.land_spec, Z.pow2_bits_eqb, Z.bits_0 by done. destruct (Z.eqb_spec n i) as [<-|]; [by rewrite E|apply andb_false_r].
    - intros H E. assert (F : Z.testbit (Z.land z (2 ^ n)) n = true) by (rewrite Z.land_spec, H, Z.pow2_bits_true by done; done). by rewrite E, Z.bits_0 in F. }
  split; [|split].
  - apply B; [lia|]. rewrite !Z.lor_spec. by rewrite orb_true_r.
  - destruct (decide (Z.land (Z.lor (Z.lor (Z.land x (Z.lnot (Z.lor (Z.lor (Z.shiftl 1 8) (Z.shiftl 1 5)) (Z.shiftl 1 1)))) (Z.shiftl 1 5)) (Z.shiftl 1 8)) (Z.shiftl 1 1) = 0)) as [|N]; [done|].
    apply B in N; [|lia]. rewrite !Z.lor_spec, Z.land_spec, Z.lnot_spec, !Z.lor_spec in N by lia. cbn in N. by rewrite andb_false_r in N.
  - assert (E : (Z.land (Z.lor (Z.lor (Z.land x (Z.lnot (Z.lor (Z.lor (Z.shiftl 1 8) (Z.shiftl 1 5)) (Z.shiftl 1 1)))) (Z.shiftl 1 5)) (Z.shiftl 1 8)) (Z.shiftl 1 5) =? 0) = false).
    { apply Z.eqb_neq. apply B; [lia|]. rewrite !Z.lor_spec. cbn. by rewrite orb_true_r. }
    rewrite E. apply B; [lia|]. rewrite !Z.lor_spec. cbn. by rewrite orb_true_r.
Qed.

(** The end of kerneltrap. *)
Definition restored (h : hart) (z : tst D P) : tst D P := set_h (w_sstatus (r_sstatus h) (w_sepc (r_sepc h) (t_h z))) z.

Lemma kerneltrap_dev (z1 : tst D P) n (z2 : tst D P) : Z.land (r_sstatus (t_h z1)) SSTATUS_SPP <> 0 -> Z.land (r_sstatus (t_h z1)) SSTATUS_SIE = 0 -> devintr mmio polls fuel z1 = Ok n z2 -> n <> 0 ->
  exists z3, kerneltrap mmio polls fuel others z1 = Ok tt (restored (t_h z1) z3) /\ (z3 = z2 \/ n = 2 /\ exists y, in_k yield z2 = Ok tt y /\ z3 = others y).
Proof.
  intros H1 H2 E Hn. unfold kerneltrap. unfold sbind at 1, sget. apply Z.eqb_neq in H1, Hn. rewrite H1. unfold intr_get. rewrite H2. change (negb (0 =? 0)) with false. cbv iota. unfold sbind at 1. rewrite E, Hn. unfold sbind at 1.
  destruct ((n =? 2) && _ && _) eqn:Ec.
  - apply andb_true_iff in Ec as [Ec _]. apply andb_true_iff in Ec as [Ec _]. apply Z.eqb_eq in Ec. eexists (others _). split; [reflexivity|]. right. split; [done|]. eexists. split; reflexivity.
  - exists z2. split; [reflexivity|by left].
Qed.

Lemma kexit_run (s : tst D P) h0 pa pgs m1 (z : tst D P) : pages_ok (t_mem s) -> regs_ok h0 -> framed PTE_W (rset sp (u64 (rget sp h0 - 256)) h0) (t_mem s) sp pa pgs (map snd kslots_tp) -> steps kernelvec_entry (h0, t_mem s) = Some (rset sp (u64 (rget sp h0 - 256)) h0, m1) ->
  rget sp (t_h z) = u64 (rget sp h0 - 256) -> framed PTE_R (t_h z) (t_mem z) sp pa pgs (map snd kslots) -> (forall off, off ∈ map snd kslots -> cell (t_mem z) (pa + off) = cell m1 (pa + off)) ->
  exists h', asm kernelvec_exit z = Some (set_h h' (with_mem (t_mem z) z)) /\ (forall r, r <> tp -> rget r h' = rget r h0) /\ rget tp h' = rget tp (t_h z) /\ h_pc h' = r_sepc (t_h z) /\
    h_priv h' = (if Z.land (r_sstatus (t_h z)) SSTATUS_SPP =? 0 then User else Supervisor) /\ r_sstatus h' = sret_status (r_sstatus (t_h z)).
Proof.
  intros P0 R F E Hsp F2 Hc. destruct (kernelvec_run h0 (t_mem s) pa pgs (t_h z) (t_mem z) P0 R F) as (m1' & E' & H). rewrite E in E'. injection E' as <-.
  destruct H as (h' & X & H); [|done|done|exists h'; split; [unfold asm; by rewrite X|done]]. rewrite rget_rset, decide_True by done. exact Hsp.
Qed.
End KernelTrap.

(** C24. Interrupts are transparent to kernel code that runs with interrupts
    on: kernelvec, kerneltrap and the return from it end at the same
    instruction in supervisor mode, with interrupts on and the same value in
    every register but tp, which is the id of the hart; an external interrupt
    spares tp too and changes no page but the stack's, and a timer interrupt
    may let other processes run in between. *)
Theorem kerneltrap_transparent {D P : Type} `{UD : Uart D} `{!UartLaws D} `{PL : Plic P} (mmio : Z -> Z) (polls fuel : nat) (Hpolls : (max_busy < polls)%nat)
  (others : tst D P -> tst D P) (s : tst D P) (pa : Z) (pgs : list Z) (cause val : Z) :
  stack_ok s pa pgs -> devs_ok fuel s -> cause = external \/ cause = timer ->
  (forall z z' : tst D P, in_k yield z = Ok tt z' -> framed PTE_R (t_h z') (t_mem z') sp pa pgs (map snd kslots) -> kresumes pa pgs z' (others z')) ->
  exists s', kernel_trap mmio polls fuel others cause val s = Ok tt s' /\ h_priv (t_h s') = Supervisor /\ intr_get (t_h s') = true /\
    (forall r, r <> tp -> rget r (t_h s') = rget r (t_h s)) /\ h_pc (t_h s') = h_pc (t_h s) /\
    (cause = external -> rget tp (t_h s') = rget tp (t_h s) /\ same_pages (t_mem s) (t_mem s') pgs /\ devs_ok fuel s').
Proof.
  intros [K1 K2 K3 K4 K5] Dv Hc Ho. set (h0 := take_trap cause val (t_h s)). set (h1 := rset sp (u64 (rget sp h0 - 256)) h0).
  assert (FW : framed PTE_W h1 (t_mem s) sp pa pgs (map snd kslots_tp)) by (eapply framed_ext; [apply (K5 PTE_W); by right|by intros a _|reflexivity|symmetry; exact K1|reflexivity]).
  assert (FR : framed PTE_R h1 (t_mem s) sp pa pgs (map snd kslots_tp)) by (eapply framed_ext; [apply (K5 PTE_R); by left|by intros a _|reflexivity|symmetry; exact K1|reflexivity]).
  destruct (kernelvec_entry_run h0 (t_mem s) pa pgs K3 K4 FW) as (m1 & E1 & [V1 V2 V3 V4]). set (z1 := set_h h1 (with_mem m1 (set_h h0 s))).
  assert (EA : asm kernelvec_entry (set_h h0 s) = Some z1) by (unfold asm; change (t_h (set_h h0 s)) with h0; change (t_mem (set_h h0 s)) with (t_mem s); by rewrite E1).
  assert (Hsie : Z.land (r_sstatus (t_h s)) SSTATUS_SIE <> 0) by (unfold intr_get in K2; apply negb_true_iff in K2; by apply Z.eqb_neq). destruct (kernel_status _ Hsie) as (S1 & S2 & S3).
  assert (Es : r_sstatus h1 = trap_status (r_sstatus (t_h s)) Supervisor) by (change (r_sstatus h1) with (trap_status (r_sstatus (t_h s)) (h_priv (t_h s))); by rewrite K1). rewrite <- Es in S1, S2, S3.
  assert (FS : framed PTE_R h1 m1 sp pa pgs (map snd kslots)). { eapply framed_ext; [|exact V2|reflexivity..]. unfold framed in FR |- *. rewrite Forall_forall in FR |- *. intros off Hoff. apply FR. assert (F : Forall (fun o => o ∈ map snd kslots_tp) (map snd kslots)) by decided. rewrite Forall_forall in F. by apply F. }
  assert (Dv1 : devs_ok fuel z1) by (by destruct Dv).
  assert (HD : exists n z2, devintr mmio polls fuel z1 = Ok n z2 /\ n <> 0 /\ devs_ok fuel z2 /\ t_mem z2 = m1 /\ (exists y, t_h z2 = w_sip y h1 \/ t_h z2 = h1) /\ (cause = external -> n = 1)).
  { destruct Hc as [-> | ->]; [destruct (devintr_external mmio polls fuel Hpolls z1 Dv1 eq_refl) as (z2 & E & X & [Y Q] & W); exists 1, z2|destruct (devintr_timer mmio polls fuel z1 Dv1 eq_refl) as (z2 & y & E & X & [Y Q] & W); exists 2, z2].
    all: split; [done|]; split; [done|]; split; [done|]; split; [exact (kq_mem _ _ Q)|]; split; [exact Y|done]. }
  destruct HD as (n & z2 & E2 & Hn & Dv2 & M2 & (y & H2) & Hext). assert (G2 : rget sp (t_h z2) = u64 (rget sp h0 - 256) /\ r_satp (t_h z2) = r_satp h1 /\ h_priv (t_h z2) = h_priv h1 /\ rget tp (t_h z2) = rget tp h1) by (by destruct H2 as [-> | ->]). destruct G2 as (G1 & G2 & G3 & G4).
  assert (Esp : rget sp h1 = u64 (rget sp h0 - 256)) by (unfold h1; by rewrite rget_rset, decide_True).
  destruct (kerneltrap_dev mmio polls fuel others z1 n z2 S1 S2 E2 Hn) as (z3 & E3 & H3). set (z4 := restored (t_h z1) z3) in *.
  assert (F2 : framed PTE_R (t_h z2) m1 sp pa pgs (map snd kslots)) by (eapply framed_ext; [exact FS|by intros a _|done|done|by rewrite Esp]).
  assert (X : rget sp (t_h z3) = u64 (rget sp h0 - 256) /\ framed PTE_R (t_h z3) (t_mem z3) sp pa pgs (map snd kslots) /\ (forall off, off ∈ map snd kslots -> cell (t_mem z3) (pa + off) = cell m1 (pa + off))).
  { destruct H3 as [-> | (_ & y' & Ey & ->)].
    - split; [done|]. rewrite M2. done.
    - pose proof Ey as Ey'. injection Ey' as Ey'. assert (Eh : t_h y' = t_h z2 /\ t_mem y' = t_mem z2) by (by rewrite <- Ey'). destruct Eh as [Eh Em]. destruct (Ho _ _ Ey) as [J1 J2 J3]; [by rewrite Eh, Em, M2|]. split; [by rewrite J1, Eh|]. split; [done|]. intros off Hoff. by rewrite J3, Em, M2. }
  destruct X as (X1 & X2 & X3). destruct (kexit_run s h0 pa pgs m1 z4 K3 K4 FW E1 X1) as (h' & E4 & W1 & W2 & W3 & W4 & W5); [eapply framed_ext; [exact X2|by intros a _|done|done|done]|exact X3|].
  exists (set_h h' (with_mem (t_mem z4) z4)). unfold kernel_trap. fold h0. rewrite EA, E3, E4. split; [done|]. change (t_h (set_h h' (with_mem (t_mem z4) z4))) with h'.
  change (r_sstatus (t_h z4)) with (r_sstatus h1) in W4, W5. change (r_sepc (t_h z4)) with (h_pc (t_h s)) in W3. apply Z.eqb_neq in S1. rewrite S1 in W4. split; [done|]. split; [unfold intr_get; rewrite W5; apply negb_true_iff; by apply Z.eqb_neq|]. split; [exact W1|]. split; [done|].
  intros He. destruct H3 as [-> | (Hn2 & _)]; [|rewrite (Hext He) in Hn2; done]. split; [by rewrite W2|]. split; [change (same_pages (t_mem s) (t_mem z2) pgs); by rewrite M2|]. by destruct Dv2.
Qed.
