(* ===== verification/TrapBoot.v ===== *)
(** * The start of a hart, and the trap theorems on a concrete machine

    entry.S and start() leave a hart in main() with its timer armed; then a
    process whose trap frame is mapped by a page table in memory, with a
    console, a disk and an interrupt controller, on which the theorems on traps
    apply. *)
From S2P Require Import Prelude Str Ulib Bio Log Crash Machine Types Vm Kmem Pgtbl Uvm Kvm VmDemo Balloc Pipe Proc Syscall Ring Printf Console ConsoleSpec Virtio VirtioSpec Hart Asm Trap TrapSpec.

Section Boot.
  Context (l : link).

Definition scratch_of (id : Z) : Z := l_timer_scratch l + 40 * id.

Lemma mpp_set x : Z.land (Z.lor (Z.lor (Z.land x (Z.lnot MSTATUS_MPP_MASK)) MSTATUS_MPP_S) MSTATUS_MIE) MSTATUS_MPP_MASK = MSTATUS_MPP_S.
Proof.
  rewrite !Z.land_lor_distr_l, <- Z.land_assoc, (Z.land_comm (Z.lnot _)), Z.land_lnot_diag, Z.land_0_r. reflexivity.
Qed.

Record booted_hart (h : hart) (m : pmem) (h' : hart) (m' : pmem) : Prop := {
  bh_priv : h_priv h' = Supervisor;
  bh_pc : h_pc h' = l_main l;
  bh_satp : r_satp h' = 0;
  bh_tp : r_tp h' = r_mhartid h;
  bh_sp : r_sp h' = r_sp h;
  bh_deleg : r_medeleg h' = 0xffff /\ r_mideleg h' = 0xffff;
  bh_timer : h_csrs h' mtvec = l_timervec l /\ Z.land (r_mie h') MIE_MTIE <> 0 /\ Z.land (r_mstatus h') MSTATUS_MIE <> 0;
  bh_scratch : h_csrs h' mscratch = scratch_of (r_mhartid h) /\ cell m' (scratch_of (r_mhartid h) + 24) = CLINT_MTIMECMP (r_mhartid h) /\ cell m' (scratch_of (r_mhartid h) + 32) = 1000000;
  bh_cmp : cell m' (CLINT_MTIMECMP (r_mhartid h)) = u64 (cell m CLINT_MTIME + 1000000);
  bh_pages : pages_ok m'
}.

Lemma start_run h m : pages_ok m -> 0 <= r_mhartid h < 8 -> 0x80000000 <= l_timer_scratch l < 2 ^ 63 -> l_timer_scratch l mod 8 = 0 ->
  let (h', m') := start l (h, m) in booted_hart h m h' m'.
Proof.
  intros P0 Hid Hr Hm. set (id := r_mhartid h) in *.
  assert (Ei : id = 0 \/ id = 1 \/ id = 2 \/ id = 3 \/ id = 4 \/ id = 5 \/ id = 6 \/ id = 7) by lia. assert (Es : s32 id = id) by (destruct Ei as [-> |[-> |[-> |[-> |[-> |[-> |[-> | ->]]]]]]]; reflexivity). set (cmp := CLINT_MTIMECMP id). set (sc := scratch_of id).
  assert (Ac : cmp mod 8 = 0) by (unfold cmp, CLINT_MTIMECMP; destruct Ei as [-> |[-> |[-> |[-> |[-> |[-> |[-> | ->]]]]]]]; reflexivity).
  assert (As : sc mod 8 = 0) by (unfold sc, scratch_of; apply off8; [done|destruct Ei as [-> |[-> |[-> |[-> |[-> |[-> |[-> | ->]]]]]]]; reflexivity]).
  set (v := u64 (cell m CLINT_MTIME + 1000000)). assert (Hv : 0 <= v < 2 ^ 64) by (apply Z.mod_pos_bound; lia). assert (Hcmp : 0 <= cmp < 0x2005000) by (unfold cmp, CLINT_MTIMECMP; lia).
  set (m1 := put_cell cmp v m). set (m2 := put_cell (sc + 24) cmp m1). set (m3 := put_cell (sc + 32) 1000000 m2).
  assert (P1 : pages_ok m1) by (by apply put_cell_pages). assert (P2 : pages_ok m2) by (apply put_cell_pages; [done|by apply off8]). assert (P3 : pages_ok m3) by (apply put_cell_pages; [done|by apply off8]).
  assert (S24 : (sc + 24) mod 8 = 0) by (by apply off8). assert (S32 : (sc + 32) mod 8 = 0) by (by apply off8). assert (Hsc : 0x80000000 <= sc) by (unfold sc, scratch_of; lia).
  unfold start, timerinit. change (r_mhartid _) with id. rewrite Es. fold cmp. change (l_timer_scratch l + 40 * id) with sc. fold v m1 m2 m3. cbn zeta.
  set (hh := w_tp _ _). split; try done.
  - unfold mret_step, hh. cbn [pset h_priv]. change (r_mstatus _) with (Z.lor (Z.lor (Z.land (r_mstatus h) (Z.lnot MSTATUS_MPP_MASK)) MSTATUS_MPP_S) MSTATUS_MIE). rewrite mpp_set. reflexivity.
  - split; [done|]. change (r_mie (mret_step hh)) with (Z.lor (r_mie h) MIE_MTIE). change (r_mstatus (mret_step hh)) with (Z.lor (Z.lor (Z.land (r_mstatus h) (Z.lnot MSTATUS_MPP_MASK)) MSTATUS_MPP_S) MSTATUS_MIE).
    rewrite !Z.land_lor_distr_l. split; intros E; apply Z.lor_eq_0_iff in E as [_ E]; vm_compute in E; done.
  - split; [done|]. change (cell m3 (sc + 24) = cmp /\ cell m3 (sc + 32) = 1000000). unfold m3, m2. rewrite !cell_put by (done || lia). repeat case_decide; try lia; done.
  - change (cell m3 cmp = v). unfold m3, m2, m1. rewrite !cell_put by (done || lia). repeat case_decide; try lia; done.
Qed.
End Boot.

(** C25. A hart starts: entry.S and start() bring hart [id] to main() in
    supervisor mode, with paging off, its id in tp, a stack page of its own and
    all traps delegated; its timer is armed, and from then on every machine
    timer interrupt runs timervec through, which moves the comparator one
    interval on, raises a supervisor software interrupt and gives every
    register back. *)
Theorem hart_starts (l : link) (stack0 : Z) (h : hart) (m : pmem) :
  pages_ok m -> 0 <= r_mhartid h < 8 -> 0 <= stack0 < 2 ^ 63 -> 0x80000000 <= l_timer_scratch l < 2 ^ 63 -> l_timer_scratch l mod 8 = 0 ->
  exists h1, steps (entry stack0) (h, m) = Some (h1, m) /\ let (h', m') := start l (h1, m) in
    booted_hart l h1 m h' m' /\ r_mhartid h1 = r_mhartid h /\ r_sp h' = stack0 + 4096 * (r_mhartid h + 1) /\
    forall hi mi, h_priv hi = Machine -> h_csrs hi mscratch = h_csrs h' mscratch -> regs_ok hi -> pages_ok mi -> (forall off, off ∈ [24; 32] -> cell mi (h_csrs h' mscratch + off) = cell m' (h_csrs h' mscratch + off)) ->
      exists h2 m2, steps timervec (hi, mi) = Some (h2, m2) /\ (forall r, rget r h2 = rget r hi) /\ r_sip h2 = 2 /\ h_pc h2 = h_csrs hi mepc /\
        cell m2 (CLINT_MTIMECMP (r_mhartid h)) = u64 (cell mi (CLINT_MTIMECMP (r_mhartid h)) + 1000000).
Proof.
  intros P0 Hid Hs Hl Hm. destruct (entry_run stack0 h m ltac:(lia) Hid ltac:(lia)) as (h1 & E & Hsp). exists h1. split; [done|]. assert (Eid : r_mhartid h1 = r_mhartid h) by (injection E as <-; reflexivity).
  pose proof (start_run l h1 m P0 ltac:(by rewrite Eid) Hl Hm) as B. destruct (start l (h1, m)) as [h' m']. split; [done|]. split; [done|]. destruct B as [_ _ _ _ B5 _ _ (C1 & C2 & C3) _ _]. rewrite Eid in *. split; [by rewrite B5|].
  intros hi mi Hp Hsc R Pi Hc. rewrite C1 in *. set (sc := scratch_of l (r_mhartid h)) in *. set (cmp := CLINT_MTIMECMP (r_mhartid h)) in *.
  destruct (timervec_run hi mi sc cmp 1000000 Pi R) as (h2 & m2 & F1 & F2 & _ & F3 & F4 & F5 & _); [|exists h2, m2; done].
  assert (Ei : exists k, sc = 8 * k) by (exists (l_timer_scratch l / 8 + 5 * r_mhartid h); unfold sc, scratch_of; pose proof (Z.div_mod (l_timer_scratch l) 8 ltac:(lia)); lia). destruct Ei as [k Ek].
  split; try done.
  - split; [rewrite Ek, Z.mul_comm; by apply Z.mod_mul|unfold sc, scratch_of; lia].
  - split; [|split; [unfold cmp, CLINT_MTIMECMP; lia|rewrite !elem_of_cons, elem_of_nil; unfold sc, cmp, scratch_of, CLINT_MTIMECMP; lia]]. unfold cmp, CLINT_MTIMECMP. replace (33554432 + 16384 + 8 * r_mhartid h) with ((4196352 + r_mhartid h) * 8) by lia. by apply Z.mod_mul.
  - rewrite Hc by (by left). done.
  - rewrite Hc by (right; by left). done.
Qed.

(** ** A machine *)

Definition dl : link := mkLink 0x80005000 0x80001000 144 0x80000400 0x80005200 0x80009000.
Definition R0 : Z := 0x87000000.
Definition TF : Z := 0x87003000.

(** A page table of three levels that maps TRAPFRAME to the page TF. *)
Definition d_mem : pmem :=
  put_cell (TF + 32) 0 (put_cell (TF + 16) (l_usertrap dl) (put_cell TF 0x8000000000087fff
    (put_word (R0 + 0x2000) 510 (Z.lor (Z.lor (Z.lor (PA2PTE TF) PTE_R) PTE_W) PTE_V) (put_word (R0 + 0x1000) 511 (Z.lor (PA2PTE (R0 + 0x2000)) PTE_V) (put_word R0 255 (Z.lor (PA2PTE (R0 + 0x1000)) PTE_V) ∅))))).
Definition d_hart : hart :=
  mkHart (fun r => match r with a7 => 11 | sp => 0x3000 | _ => 77 end) (fun c => match c with satp => MAKE_SATP R0 | sscratch => TRAPFRAME | stvec => TRAMPOLINE | _ => 0 end) 0x1234 User.
Definition d_proc : proc := mkP RUNNING 0 false 0 7 None 4096 R0 TF [] None [].
Definition d_k : kst := mkK (mkSb 0 0 0 0 0 0 0 0 0 0 0) [] [] ∅ d_mem 0 0x80021000 [d_proc] 0 None 8 [].

#[export] Instance d_plic : Plic Z := { pl_read _ p := (p, 0); pl_write _ _ p := p }.

Definition d_con : con duart := mkCon (cn_buf demo_con) (cn_r demo_con) (cn_w demo_con) (cn_e demo_con) (tx_buf demo_con) (tx_w demo_con) (tx_r demo_con) false true ([97; 13], [], 3) d_k.

(** An interrupt of the UART is pending. *)
Definition d_t : tst duart Z := mkT d_hart (d_k, boot ∅ 7) d_con (y_disk demo_boot) 0 10.

Lemma d_pages : pages_ok d_mem.
Proof.
  assert (P0 : pages_ok ∅) by (intros a; reflexivity). unfold d_mem. repeat (apply put_cell_pages; [|vm_compute; reflexivity]). repeat (apply pages_ok_put_word; [|lia]). exact P0.
Qed.

Lemma d_tf : tf_ok (MAKE_SATP R0) d_mem TF.
Proof.
  split; [vm_compute; discriminate|reflexivity|apply (bool_decide_unpack _); vm_compute; exact Logic.I|].
  exists (Z.lor (Z.lor (Z.lor (PA2PTE TF) PTE_R) PTE_W) PTE_V). split; [vm_compute; reflexivity|]. split; vm_compute; reflexivity.
Qed.

Lemma d_user : in_user dl d_t (MAKE_SATP R0) TF 0x8000000000087fff.
Proof.
  split; try reflexivity; [exact d_tf|exact d_pages|split; [vm_compute; reflexivity|split; [vm_compute; reflexivity|]]|].
  - change (0 <= cell d_mem (TF + 32) < 2 ^ 64). vm_compute. split; [discriminate|reflexivity].
  - unfold is64. split; [lia|]. split; [vm_compute; split; [discriminate|reflexivity]|]. split; [vm_compute; split; [discriminate|reflexivity]|]. intros r. destruct r; vm_compute; (split; [discriminate|reflexivity]).
Qed.

Lemma d_devs : devs_ok 5 d_t.
Proof.
  destruct demo_cons_ok as [K X]. split; [by apply (ok_ext demo_con)|by apply (tx_ok_ext demo_con)|split; reflexivity|cbn; lia|]. exists (y_dev demo_boot), []. exact (disk_boot_inv _ _ demo_booted).
Qed.

(** The process is scheduled again at once. *)
Definition d_others : tst duart Z -> tst duart Z := set_pstate RUNNING.

Lemma d_resumes x tf (z z' : tst duart Z) : in_k yield z = Ok tt z' -> in_kernel dl z' x tf -> resumes dl x tf z' (d_others z').
Proof. intros _ K. split; [by apply in_kernel_state|done|done]. Qed.

Definition d_env (ticks : Z) : env := mkEnv 0x80007000 0 ticks [] [].

Lemma interrupt_transparent_witness : exists s', user_trap dl demo_mmio 1 5 d_env d_others external 0 d_t = Ok Back s' /\ h_pc (t_h s') = 0x1234 /\ rget sp (t_h s') = 0x3000 /\ rget a7 (t_h s') = 11.
Proof.
  destruct (@interrupt_transparent _ _ demo_uart demo_laws d_plic dl demo_mmio 1 5 (le_n 1) d_env d_others d_t (MAKE_SATP R0) TF 0x8000000000087fff external 0 d_user d_devs eq_refl (or_introl eq_refl) (d_resumes (MAKE_SATP R0) TF)) as (s' & E & _ & Hr & Hpc & _).
  exists s'. split; [exact E|]. rewrite Hpc, !Hr. split; [reflexivity|split; reflexivity].
Defined.

(** getpid, from any kernel state in which it can be called. *)
Lemma getpid_ok e h p x tf kb : rget a7 h = 11 -> p_trapframe p = tf -> MAKE_SATP (p_pagetable p) = x -> p_killed p = false -> calling kb h p x tf ->
  exists kb', run hC (syscall e) kb = Ok tt kb' /\ sys_ok kb kb' x tf (u64 (p_pid p)).
Proof.
  intros Ha Htf Hx Hk [C1 C2 C3 C4]. destruct kb as [k b]. cbn [fst] in *. exists (set_mem (put_cell (tf + 112) (u64 (p_pid p))) k, b). split.
  - assert (E : le_dec (pm_read (k_mem k) (p_trapframe (nth (k_cur k) (k_procs k) proc0) + 168) 8) = 11) by (rewrite C4, Htf, <- Ha; apply (C1 a7 168); decided).
    change (run hC (match syscalls e (s32 (le_dec (pm_read (k_mem k) (p_trapframe (nth (k_cur k) (k_procs k) proc0) + 168) 8))) with Some f => pbind f (fun r => liftK (stm64 (p_trapframe (nth (k_cur k) (k_procs k) proc0) + 112) (u64 r))) | None => liftK (stm64 (p_trapframe (nth (k_cur k) (k_procs k) proc0) + 112) (u64 (-1))) end) (k, b) = Ok tt (set_mem (put_cell (tf + 112) (u64 (p_pid p))) k, b)).
    rewrite E. rewrite <- C4 in Htf |- *. rewrite Htf. reflexivity.
  - pose proof (tf_mod8 _ _ _ 112 C2 eq_refl) as T. assert (Hr : 0 <= u64 (p_pid p) < 2 ^ 64) by (apply Z.mod_pos_bound; lia). assert (PG : pg_of (tf + 112) = tf).
    { pose proof (to_aligned _ _ _ C2) as Ht. unfold pg_of. rewrite Z.add_mod, Ht, Z.add_0_l, Z.mod_mod, Z.mod_small by (done || lia). lia. }
    split; cbn [fst set_mem k_mem].
    + intros q off Hin. destruct (slot_facts q off Hin) as (_ & F1 & F2). rewrite cell_put, decide_False by (done || lia || by eapply tf_mod8). done.
    + rewrite cell_put, decide_False by (done || lia || by eapply tf_mod8). done.
    + rewrite cell_put, decide_True by done. done.
    + apply (tf_ok_same _ (k_mem k)); [done|]. apply put_cell_same. rewrite PG. by apply list_elem_of_singleton.
    + by apply put_cell_pages.
    + change (let p0 := nth (k_cur k) (k_procs k) proc0 in p_trapframe p0 = tf /\ MAKE_SATP (p_pagetable p0) = x /\ p_killed p0 = false). by rewrite C4.
Qed.


(** The scheduler's loop on hart 0, with paging off, interrupted by the UART. *)
Definition d_khart : hart := mkHart (fun r => match r with sp => R0 + 0x4800 | _ => 5 end) (fun c => match c with sstatus => 2 | stvec => l_kernelvec dl | _ => 0 end) 0x80001500 Supervisor.
Definition d_kt : tst duart Z := set_h d_khart d_t.

Lemma d_stack : stack_ok d_kt (R0 + 0x4700) [R0 + 0x4000].
Proof.
  split; [reflexivity|reflexivity|exact d_pages|intros r; destruct r; vm_compute; (split; [discriminate|reflexivity])|]. intros perm _. unfold framed.
  assert (F : Forall (fun off => (R0 + 0x4700 + off) mod 8 = 0 /\ pg_of (R0 + 0x4700 + off) ∈ [R0 + 0x4000] /\ u64 (R0 + 0x4700 + off) = R0 + 0x4700 + off) (map snd kslots_tp)) by decided.
  eapply Forall_impl; [exact F|]. intros off (F1 & F2 & F3). split; [done|]. split; [done|]. intros m' _. change (Some (u64 (R0 + 0x4700 + off)) = Some (R0 + 0x4700 + off)). by rewrite F3.
Qed.

Lemma hart_starts_witness : exists h1, steps (entry 0x80008000) (mkHart (fun _ => 0) (fun c => match c with mhartid => 2 | _ => 0 end) 0x80000000 Machine, ∅) = Some (h1, ∅) /\ h_pc (fst (start dl (h1, ∅))) = 0x80000400 /\ r_sp (fst (start dl (h1, ∅))) = 0x8000b000.
Proof.
  destruct (hart_starts dl 0x80008000 (mkHart (fun _ => 0) (fun c => match c with mhartid => 2 | _ => 0 end) 0x80000000 Machine) ∅) as (h1 & E & H); [intros a; reflexivity|cbn; lia|lia|cbn; lia|reflexivity|].
  exists h1. split; [exact E|]. destruct (start dl (h1, ∅)) as [h' m']. destruct H as (B & _ & Hs & _). split; [exact (bh_pc _ _ _ _ _ B)|exact Hs].
Defined.

Lemma devs_h fuel h (s : tst duart Z) : devs_ok fuel s -> devs_ok fuel (set_h h s).
Proof. intros []. by split. Qed.

Lemma d_kresumes pa pgs (z z' : tst duart Z) : in_k yield z = Ok tt z' -> framed PTE_R (t_h z') (t_mem z') sp pa pgs (map snd kslots) -> kresumes pa pgs z' (d_others z').
Proof. intros _ F. by split. Qed.

Lemma kerneltrap_transparent_witness : exists s', kernel_trap demo_mmio 1 5 d_others external 0 d_kt = Ok tt s' /\ h_pc (t_h s') = 0x80001500 /\ rget sp (t_h s') = 0x87004800 /\ intr_get (t_h s') = true.
Proof.
  destruct (@kerneltrap_transparent _ _ demo_uart demo_laws d_plic demo_mmio 1 5 (le_n 1) d_others d_kt (R0 + 0x4700) [R0 + 0x4000] external 0 d_stack (devs_h _ _ _ d_devs) (or_introl eq_refl) (d_kresumes _ _)) as (s' & E & _ & Hi & Hr & Hpc & _).
  exists s'. split; [exact E|]. rewrite Hpc, (Hr sp) by discriminate. split; [reflexivity|]. split; [reflexivity|exact Hi].
Defined.
