(* ===== verification/Sched.v ===== *)
(** * The scheduler (kernel/proc.c: scheduler, sched)

    Every CPU goes round the process table and runs what is RUNNABLE.  The
    CPUs are interleaved at the steps that hold a process lock.  What a running
    process does to the table is a parameter, restricted to what the kernel's
    operations do, which is proved of them here. *)
From S2P Require Import Prelude Str Bio Log Crash Machine Types Vm Codec Ld Balloc Inode Dir Pipe File Sysfile Proc Exec Syscall Frame ProcSpec Spin.

(** ** sched *)

(** The checks before the switch to the scheduler: the lock of the process is
    held and is the only one, the process is not RUNNING, interrupts are off.
    The result is the CPU when the process runs again, on a CPU [u']. *)
Definition sched (holds : bool) (st : procstate) (u : cpu) (u' : cpu) : outcome unit cpu :=
  if negb holds then Panic "sched p->lock"
  else if negb (c_noff u =? 1) then Panic "sched locks"
  else if bool_decide (st = RUNNING) then Panic "sched running"
  else if c_sie u then Panic "sched interruptible"
  else Ok (mkCpu (c_noff u') (c_intena u) (c_sie u') (c_pc u') (c_held u') (c_base u')) tt.

(** ** The CPUs *)

(** In the loop, about to look at process [i], or switched to it. *)
Inductive at_cpu := Scan (i : nat) | Run (i : nat).
Record msys := mkM { m_procs : list proc; m_cpus : nat -> at_cpu }.

Definition pstate (l : list proc) (i : nat) : option procstate := p_state <$> l !! i.

(** What process [i] may do to the table while it runs. *)
Record polite (i : nat) (l l' : list proc) : Prop := {
  po_len : length l' = length l;
  po_runnable : forall j, j <> i -> pstate l j = Some RUNNABLE -> pstate l' j = Some RUNNABLE;
  po_running : forall j, j <> i -> pstate l j = Some RUNNING <-> pstate l' j = Some RUNNING
}.

(** The body of the loop of scheduler, up to the switch. *)
Definition look (c i : nat) (s : msys) : msys :=
  if bool_decide (pstate (m_procs s) i = Some RUNNABLE)
  then mkM (alter (p_set_state RUNNING) i (m_procs s)) (Hart.upd c (Run i) (m_cpus s))
  else mkM (m_procs s) (Hart.upd c (Scan ((i + 1) mod NPROC)) (m_cpus s)).

Inductive label := Look (c : nat) | Ran (c i : nat) | Act (c i : nat).

Section Sched.
  Context (acts : nat -> list proc -> list proc -> Prop).

Inductive mstep : label -> msys -> msys -> Prop :=
| ms_look c i s : m_cpus s c = Scan i -> pstate (m_procs s) i <> Some RUNNABLE -> mstep (Look c) s (look c i s)
| ms_run c i s : m_cpus s c = Scan i -> pstate (m_procs s) i = Some RUNNABLE -> mstep (Ran c i) s (look c i s)
| ms_act c i s l : m_cpus s c = Run i -> acts i (m_procs s) l -> pstate l i = Some RUNNING -> mstep (Act c i) s (mkM l (m_cpus s))
| ms_back c i s l : m_cpus s c = Run i -> acts i (m_procs s) l -> pstate l i <> Some RUNNING -> mstep (Act c i) s (mkM l (Hart.upd c (Scan ((i + 1) mod NPROC)) (m_cpus s))).

Inductive msteps : list label -> msys -> msys -> Prop :=
| mss_nil s : msteps [] s s
| mss_cons a t s s1 s2 : mstep a s s1 -> msteps t s1 s2 -> msteps (a :: t) s s2.
End Sched.

(** A process is RUNNING exactly when one CPU has switched to it. *)
Record sched_ok (s : msys) : Prop := {
  sm_len : length (m_procs s) = NPROC;
  sm_scan : forall c i, m_cpus s c = Scan i -> (i < NPROC)%nat;
  sm_run : forall c i, m_cpus s c = Run i -> pstate (m_procs s) i = Some RUNNING;
  sm_one : forall c d i, m_cpus s c = Run i -> m_cpus s d = Run i -> c = d
}.

(** Iterations of the loop of CPU [c]. *)
Fixpoint looks (c : nat) (t : list label) : nat :=
  match t with
  | [] => 0
  | Look d :: t | Ran d _ :: t => (if Nat.eqb d c then 1 else 0) + looks c t
  | Act _ _ :: t => looks c t
  end.

(** ** The invariant *)

Lemma pstate_alter f i j l : pstate (alter f i l) j = if decide (j = i) then (fun p => p_state (f p)) <$> l !! j else pstate l j.
Proof.
  unfold pstate. destruct (decide (j = i)) as [->|Hn]; [rewrite list_lookup_alter_eq|by rewrite list_lookup_alter_ne]. by destruct (l !! i).
Qed.

Lemma next_lt i : ((i + 1) mod NPROC < NPROC)%nat.
Proof. apply Nat.mod_upper_bound. done. Qed.

Lemma upd_cases {V} (c : nat) (v : V) f x : Hart.upd c v f x = if decide (x = c) then v else f x.
Proof. done. Qed.

Section Spec.
  Context (acts : nat -> list proc -> list proc -> Prop) (acts_polite : forall i l l', acts i l l' -> polite i l l').

Lemma look_run c i s : pstate (m_procs s) i = Some RUNNABLE -> look c i s = mkM (alter (p_set_state RUNNING) i (m_procs s)) (Hart.upd c (Run i) (m_cpus s)).
Proof. intros H. unfold look. by rewrite bool_decide_true. Qed.

Lemma look_skip c i s : pstate (m_procs s) i <> Some RUNNABLE -> look c i s = mkM (m_procs s) (Hart.upd c (Scan ((i + 1) mod NPROC)) (m_cpus s)).
Proof. intros H. unfold look. by rewrite bool_decide_false. Qed.

Lemma mstep_ok a s s' : sched_ok s -> mstep acts a s s' -> sched_ok s'.
Proof.
  intros [K1 K2 K3 K4] H. destruct H as [c i s Hc Hi|c i s Hc Hi|c i s l Hc Ha Hr|c i s l Hc Ha Hr].
  - rewrite (look_skip c i s Hi). split; cbn; [done|..]; intros d.
    + intros j. rewrite upd_cases. case_decide; [intros [= <-]; apply next_lt|apply K2].
    + intros j. rewrite upd_cases. case_decide; [done|apply K3].
    + intros e j. rewrite !upd_cases. repeat case_decide; try done. apply K4.
  - rewrite (look_run c i s Hi). assert (Hn : forall d, m_cpus s d = Run i -> False) by (intros d Hd; apply K3 in Hd; congruence). split; cbn.
    + by rewrite length_alter.
    + intros d j. rewrite upd_cases. case_decide; [done|apply K2].
    + intros d j. rewrite upd_cases, pstate_alter. destruct (decide (d = c)) as [->|].
      * intros [= <-]. rewrite decide_True by done. unfold pstate in Hi. destruct (m_procs s !! i); [done|]. done.
      * intros Hd. destruct (decide (j = i)) as [->|]; [by destruct (Hn d)|by apply (K3 d)].
    + intros d e j. rewrite !upd_cases. repeat case_decide; [congruence| | |apply K4]; intros H1 H2; simplify_eq; exfalso; eauto.
  - destruct (acts_polite _ _ _ Ha) as [P1 P2 P3]. split; cbn; [congruence|done| |done]. intros d j Hd. destruct (decide (j = i)) as [->|Hn]; [done|]. apply P3; [done|]. by apply (K3 d).
  - destruct (acts_polite _ _ _ Ha) as [P1 P2 P3]. split; cbn; [congruence|..]; intros d.
    + intros j. rewrite upd_cases. case_decide; [intros [= <-]; apply next_lt|apply K2].
    + intros j. rewrite upd_cases. case_decide as E; [done|]. intros Hd. assert (Hn : j <> i) by (intros ->; by destruct E; apply (K4 d c i)). apply P3; [done|]. by apply (K3 d).
    + intros e j. rewrite !upd_cases. repeat case_decide; try done. apply K4.
Qed.

Lemma msteps_ok t s s' : sched_ok s -> msteps acts t s s' -> sched_ok s'.
Proof. intros K H. induction H as [s|a t s s1 s2 H _ IH]; [done|]. apply IH. by eapply mstep_ok. Qed.

(** ** Waiting is bounded *)

(** How many iterations CPU [c] needs to come to process [p]. *)
Definition ahead (p : nat) (a : at_cpu) : nat := match a with Scan i => ((p + NPROC - i) mod NPROC)%nat | Run i => ((p + NPROC - (i + 1)) mod NPROC)%nat end.

Lemma ahead_next p i : (i < NPROC)%nat -> (p < NPROC)%nat -> i <> p -> S (ahead p (Scan ((i + 1) mod NPROC))) = ahead p (Scan i) /\ S (ahead p (Run i)) = ahead p (Scan i) /\ ahead p (Scan ((i + 1) mod NPROC)) = ahead p (Run i).
Proof.
  intros Hi Hp Hn. unfold ahead. assert (E : ((p + NPROC - (i + 1) mod NPROC) mod NPROC = (p + NPROC - (i + 1)) mod NPROC)%nat).
  { destruct (decide (i + 1 = NPROC)%nat) as [->|]; [rewrite Nat.Div0.mod_same; replace (p + NPROC - NPROC)%nat with p by lia; rewrite Nat.sub_0_r; replace (p + NPROC)%nat with (p + 1 * NPROC)%nat by lia; by rewrite Nat.Div0.mod_add|]. rewrite (Nat.mod_small (i + 1)) by lia. done. }
  rewrite E. destruct (decide (i < p)%nat).
  - replace (p + NPROC - (i + 1))%nat with ((p - i - 1) + 1 * NPROC)%nat by lia. replace (p + NPROC - i)%nat with ((p - i) + 1 * NPROC)%nat by lia. rewrite !Nat.Div0.mod_add, !Nat.mod_small by lia. lia.
  - rewrite !Nat.mod_small by lia. lia.
Qed.

Lemma wait_step p c a s s' : sched_ok s -> (p < NPROC)%nat -> pstate (m_procs s) p = Some RUNNABLE -> (forall d, a <> Ran d p) -> mstep acts a s s' ->
  pstate (m_procs s') p = Some RUNNABLE /\ (looks c [a] + ahead p (m_cpus s' c) <= ahead p (m_cpus s c))%nat.
Proof.
  intros [K1 K2 K3 K4] Hp Hr Hn H. destruct H as [d i s Hd Hi|d i s Hd Hi|d i s l Hd Ha Hl|d i s l Hd Ha Hl]; cbn [looks].
  - rewrite (look_skip d i s Hi). cbn [m_procs m_cpus]. split; [done|]. assert (Hne : i <> p) by congruence. pose proof (ahead_next p i (K2 d i Hd) Hp Hne) as (A & _). rewrite upd_cases. destruct (Nat.eqb_spec d c) as [->|]; [rewrite decide_True, Hd by done|rewrite decide_False by congruence]; lia.
  - rewrite (look_run d i s Hi). cbn [m_procs m_cpus]. assert (Hne : i <> p) by (intros ->; by apply (Hn d)). split; [by rewrite pstate_alter, decide_False by congruence|]. pose proof (ahead_next p i (K2 d i Hd) Hp Hne) as (_ & A & _).
    rewrite upd_cases. destruct (Nat.eqb_spec d c) as [->|]; [rewrite decide_True, Hd by done|rewrite decide_False by congruence]; lia.
  - destruct (acts_polite _ _ _ Ha) as [P1 P2 P3]. cbn [m_procs m_cpus]. split; [|lia]. apply P2; [|done]. intros ->. apply K3 in Hd. congruence.
  - destruct (acts_polite _ _ _ Ha) as [P1 P2 P3]. cbn [m_procs m_cpus]. assert (Hne : i <> p) by (intros ->; apply K3 in Hd; congruence). split; [by apply P2|]. rewrite upd_cases. destruct (decide (c = d)) as [->|]; [|lia]. rewrite Hd.
    assert (Hi : (i < NPROC)%nat). { apply K3 in Hd. unfold pstate in Hd. destruct (m_procs s !! i) eqn:E; [|done]. apply lookup_lt_Some in E. lia. } destruct (ahead_next p i Hi Hp Hne) as (_ & _ & ->). lia.
Qed.

Lemma wait_run p c t s s' : sched_ok s -> (p < NPROC)%nat -> pstate (m_procs s) p = Some RUNNABLE -> (forall d, Ran d p ∉ t) -> msteps acts t s s' ->
  (looks c t + ahead p (m_cpus s' c) <= ahead p (m_cpus s c))%nat.
Proof.
  intros K Hp Hr Hn H. induction H as [s|a t s s1 s2 H _ IH]; [cbn; lia|]. destruct (wait_step p c a s s1 K Hp Hr) as [Hr1 H1]; [intros d ->; apply (Hn d); by left|done|].
  specialize (IH (mstep_ok _ _ _ K H) Hr1 ltac:(intros d Hd; apply (Hn d); by right)). destruct a; cbn [looks] in *; lia.
Qed.

Lemma ahead_bound p a : (ahead p a < NPROC)%nat.
Proof. destruct a; apply Nat.mod_upper_bound; done. Qed.
End Spec.

(** ** System calls are polite *)

Lemma pstate_at l i p : l !! i = Some p -> pstate l i = Some (p_state p).
Proof. unfold pstate. by intros ->. Qed.

Lemma polite_refl i l : polite i l l.
Proof. by split. Qed.

Lemma polite_trans i l1 l2 l3 : polite i l1 l2 -> polite i l2 l3 -> polite i l1 l3.
Proof. intros [A1 A2 A3] [B1 B2 B3]. split; [congruence|by eauto|]. intros j Hj. by rewrite A3, B3. Qed.

(** Between the states [k0] and [k] of a call of the process that is current. *)
Definition pol (k0 k : kst) : Prop := k_cur k = k_cur k0 /\ polite (k_cur k0) (k_procs k0) (k_procs k).

Lemma pol_refl k : pol k k.
Proof. split; [done|apply polite_refl]. Qed.

Lemma pol_trans k1 k2 k3 : pol k1 k2 -> pol k2 k3 -> pol k1 k3.
Proof. intros [A1 A2] [B1 B2]. split; [congruence|]. rewrite A1 in B2. by eapply polite_trans. Qed.

Lemma pkeep_pol k k' : pkeep k k' -> pol k k'.
Proof.
  intros (K1 & _ & _ & F). split; [done|]. pose proof (Forall2_length _ _ _ F) as L. rewrite Forall2_lookup in F.
  assert (E : forall j, pstate (k_procs k') j = pstate (k_procs k) j \/ pstate (k_procs k) j = Some SLEEPING /\ pstate (k_procs k') j = Some RUNNABLE).
  { intros j. specialize (F j). unfold pstate. destruct F as [p p' [_ _ [W|[W W']] _]|]; cbn; [left|right|by left]; by rewrite ?W, ?W'. }
  split; [done|..]; intros j _; destruct (E j) as [->|[-> ->]]; done.
Qed.

Lemma pol_stable k0 : stable (pol k0).
Proof. intros k k' H K. eapply pol_trans; [exact H|by apply pkeep_pol]. Qed.

(** Slot [j] holds no process that could run. *)
Definition dead (s : procstate) : Prop := s = UNUSED \/ s = USED \/ s = ZOMBIE.
Definition pslot (k0 : kst) (s : procstate) (j : nat) (k : kst) : Prop := pol k0 k /\ exists p, k_procs k !! j = Some p /\ p_state p = s.

Lemma pslot_stable k0 s j : dead s -> stable (pslot k0 s j).
Proof.
  intros Hs k k' [G (p & Hp & E)] K. split; [by apply (pol_stable k0 k)|]. destruct (proj1 (pkeep_at k k' j K) p Hp) as (p' & Hp' & [_ _ W _]).
  exists p'. split; [done|]. destruct W as [W|[W _]]; [congruence|]. destruct Hs as [->|[->| ->]]; congruence.
Qed.

Lemma pol_slot k0 k k' s j g p : pol k0 k -> k_procs k !! j = Some p -> p_state p = s -> dead s \/ j = k_cur k0 -> p_state (g p) <> RUNNING \/ j = k_cur k0 ->
  k_procs k' = alter g j (k_procs k) -> k_cur k' = k_cur k -> pol k0 k'.
Proof.
  intros [C [A1 A2 A3]] Hp Hs Hd Hg E Ec. split; [congruence|]. rewrite E. assert (Hj : j <> k_cur k0 -> forall st, st = RUNNABLE \/ st = RUNNING -> pstate (k_procs k) j <> Some st).
  { intros Hn st Hst. rewrite (pstate_at _ _ _ Hp), Hs. destruct Hd as [[->|[->| ->]]|]; [..|done]; destruct Hst as [-> | ->]; done. }
  split; [by rewrite length_alter|..]; intros i Hi; rewrite pstate_alter; destruct (decide (i = j)) as [->|]; eauto.
  - intros H. apply A2 in H; [|done]. exfalso. by apply (Hj Hi RUNNABLE); [left|].
  - rewrite A3 by done. split; intros H; exfalso; [by apply (Hj Hi RUNNING); [right|]|]. rewrite Hp in H. cbn in H. injection H as H. by destruct Hg.
Qed.

Lemma pol_freeproc k0 s j k : s = USED \/ s = ZOMBIE -> pslot k0 s j k -> swp (fun _ => pol k0) (freeproc j) k.
Proof.
  intros Hs Hk. assert (S : stable (pslot k0 s j)) by (apply pslot_stable; right; destruct Hs; auto).
  unfold freeproc. apply (swp_seq (pslot k0 s j)); [done|kept|done|by intros ? []|]. intros p k1 H1.
  apply (swp_seq (pslot k0 s j)); [done|kept|done|by intros ? []|]. intros _ k2 H2.
  apply (swp_seq (pslot k0 s j)); [done|kept|done|by intros ? []|]. intros _ k3 H3.
  apply (swp_seq (pslot k0 s j)); [done|kept|done|by intros ? []|]. intros _ k4 [G (q & Hq & Eq)].
  rewrite !swp_modp2. rewrite swp_modp2'. apply (pol_slot k0 k4 _ s j freed_slot q); try done; [|by left]. left. right. destruct Hs; auto.
Qed.

Definition pafter_alloc (k0 : kst) (o : option (option nat)) (k : kst) : Prop := pol k0 k /\ forall np, o = Some (Some np) -> pslot k0 USED np k.

Lemma pol_allocproc k0 t k : pol k0 k -> swp (pafter_alloc k0) (allocproc t) k.
Proof.
  intros G. unfold allocproc. destruct (find_unused (k_procs k) 0) as [i|] eqn:F.
  2: { unfold swp, sbind, sget. rewrite F. by split. }
  destruct (find_unused_spec _ _ _ F) as (p & _ & Hp & Hs). rewrite Nat.sub_0_r in Hp.
  set (k1 := set_procs (alter (p_set_state USED ∘ p_set_pid (k_nextpid k)) i) (set_nextpid (s32 (k_nextpid k + 1)) k)).
  assert (T : pslot k0 USED i k1).
  { split; [apply (pol_slot k0 k k1 UNUSED i (p_set_state USED ∘ p_set_pid (k_nextpid k)) p G Hp Hs); try done; left; [by left|done]|]. eexists. split; [unfold k1; cbn; by rewrite list_lookup_alter_eq, Hp|done]. }
  assert (S : stable (pslot k0 USED i)) by (apply pslot_stable; right; by left).
  assert (W : forall k, pslot k0 USED i k -> pafter_alloc k0 None k) by (intros ? []; by split).
  assert (Fr : forall k, pslot k0 USED i k -> swp (pafter_alloc k0) (sbind (freeproc i) (fun _ => sret None)) k).
  { intros k' H'. apply swp_bind. apply (swp_mono (fun _ => pol k0)); [|by apply (pol_freeproc k0 USED); [left|]]. intros [a|] k'' G''; by split. }
  rewrite swp_get, F. unfold allocpid. rewrite swp_assoc, swp_get, swp_assoc, swp_modify, swp_ret, swp_modp2. unfold modp at 1. rewrite swp_modify. fold k1.
  apply (swp_seq (pslot k0 USED i)); [done|kept|done|done|]. intros tf k2 H2.
  apply (swp_seq (pslot k0 USED i)); [done|kept|done|done|]. intros _ k3 H3.
  destruct (tf =? 0); [by apply Fr|].
  apply (swp_seq (pslot k0 USED i)); [done|kept|done|done|]. intros pt k4 H4.
  apply (swp_seq (pslot k0 USED i)); [done|kept|done|done|]. intros _ k5 H5.
  destruct (pt =? 0); [by apply Fr|]. split; [apply H5|]. intros np [= <-]. done.
Qed.

Lemma pol_fork t k0 : kwp (fun _ => pol k0) (fork t) k0.
Proof.
  unfold fork. apply (kwp_seq (pol k0)); [apply pol_stable|kept|apply pol_refl|done|].
  intros p k1 G1. apply kwp_bind, kwp_liftK. apply (swp_mono (pafter_alloc k0)); [|by apply pol_allocproc].
  intros [[np|]|] k2 [G2 H2]; try exact G2. specialize (H2 np eq_refl). cbn [kthen].
  assert (S : stable (pslot k0 USED np)) by (apply pslot_stable; right; by left). assert (W : forall k, pslot k0 USED np k -> pol k0 k) by (by intros ? []).
  apply (kwp_seq (pslot k0 USED np)); [done|kept|done|done|]. intros q k3 H3.
  apply (kwp_seq (pslot k0 USED np)); [done|kept|done|done|]. intros r k4 H4.
  destruct (r <? 0); [apply kwp_bind, kwp_liftK; apply (swp_mono (fun _ => pol k0)); [by intros [a|]|by apply (pol_freeproc k0 USED); [left|]]|].
  do 3 (apply (kwp_seq (pslot k0 USED np)); [done|kept|done|done|]; intros ? ? ?).
  do 4 (apply (kwp_seq (pslot k0 USED np)); [done|kept|done|done|]; intros ? ? ?).
  apply kwp_bind. cbn [kwp P.get trigger kthen]. apply kwp_bind, kwp_liftK.
  unfold swp, modp at 1, smodify. cbn [kthen]. apply kwp_bind, kwp_liftK. unfold swp, modp, smodify. cbn [kthen kwp]. rewrite modp_modp.
  match goal with H : pslot k0 USED np ?k |- _ => match goal with |- pol k0 (set_procs _ k) => destruct H as [G (c & Hc & Ec)] end end.
  eapply (pol_slot k0 _ _ USED np _ c G Hc Ec); try done; left; [right; by left|done].
Qed.

(** The process itself: any change. *)
Lemma pol_self k0 k g : pol k0 k -> pol k0 (set_procs (alter g (k_cur k0)) k).
Proof.
  intros [C [A1 A2 A3]]. split; [done|]. change (k_procs (set_procs ?f k)) with (f (k_procs k)). split; [by rewrite length_alter|..]; intros j Hj; rewrite pstate_alter, decide_False by done; auto.
Qed.

(** Changes that leave states alone. *)
Lemma pol_alter k0 k j g : pol k0 k -> (forall p, p_state (g p) = p_state p) -> pol k0 (set_procs (alter g j) k).
Proof.
  intros H Hg. eapply pol_trans; [exact H|]. split; [done|]. change (k_procs (set_procs ?f k)) with (f (k_procs k)).
  assert (E : forall i, pstate (alter g j (k_procs k)) i = pstate (k_procs k) i). { intros i. rewrite pstate_alter. destruct (decide (i = j)) as [->|]; [|done]. unfold pstate. destruct (k_procs k !! j); [cbn; by rewrite Hg|done]. }
  split; [by rewrite length_alter|..]; intros i _; by rewrite E.
Qed.

Lemma pol_wakeup k0 k c : pol k0 k -> swp (fun _ => pol k0) (wakeup c) k.
Proof. intros H. apply (swp_stable (pol k0)); [apply pol_stable|apply pkeep_wakeup|done]. Qed.

Lemma pol_reparent k0 k i : pol k0 k -> swp (fun _ => pol k0) (reparent i) k.
Proof.
  unfold reparent. generalize (seq 0 NPROC) as js. intros js. revert k. induction js as [|j js IH]; intros k H; cbn [sfor]; [done|].
  apply swp_bind. apply (swp_mono (fun _ => pol k0)); [intros [u|] k' H'; [by apply IH|done]|]. unfold swp, sbind at 1, getp. destruct (bool_decide _); [|done].
  change (swp (fun _ => pol k0) (wakeup (ch_proc (k_initproc k))) (set_procs (alter (p_set_parent (k_initproc k)) j) k)). apply pol_wakeup. by apply pol_alter.
Qed.

Lemma pol_exit_finish k0 k status : pol k0 k -> swp (fun _ => pol k0) (exit_finish status) k.
Proof.
  intros H. unfold exit_finish. rewrite swp_get. cbv zeta. rewrite (proj1 H). apply swp_bind. apply (swp_mono (fun _ => pol k0)); [|by apply pol_reparent]. intros [u|] k1 H1; [|done]. cbn [sthen].
  unfold swp, sbind at 1, getp. set (ch := ch_proc _). pose proof (pol_wakeup k0 k1 ch H1) as H2. unfold sbind at 1. unfold swp in H2. destruct (wakeup ch k1) as [v k2| | |]; try done.
  unfold sbind, modp, smodify. apply pol_self. by apply pol_self.
Qed.

Lemma pol_exit k0 k status : pol k0 k -> kwp (fun _ => pol k0) (exit status) k.
Proof.
  intros H. unfold exit. apply kwp_bind. cbn [kwp P.get trigger kthen]. destruct (bool_decide _); [done|].
  do 6 (apply (kwp_seq (pol k0)); [apply pol_stable|kept|done|done|]; clear H; intros ? ? H). apply kwp_liftK. by apply pol_exit_finish.
Qed.

Lemma pol_wait_scan k0 js i addr : forall h k, pol k0 k -> swp (fun _ => pol k0) (wait_scan js i addr h) k.
Proof.
  induction js as [|j js IH]; intros h k H; cbn [wait_scan]; [done|]. set (np := nth j (k_procs k) proc0). unfold swp, sbind at 1, getp at 1. fold np.
  case_bool_decide as B1; [|by apply IH]. case_bool_decide as B2; [|by apply IH].
  assert (Hj : k_procs k !! j = Some np). { destruct (k_procs k !! j) as [q|] eqn:Hq; [f_equal; symmetry; apply (nth_lookup_Some _ _ _ _ Hq)|]. unfold np in B2. by rewrite nth_overflow in B2 by (by apply lookup_ge_None). }
  change (swp (fun _ => pol k0) (sbind (getp i) (fun p => sbind (if addr =? 0 then sret 0 else copyout (p_pagetable p) addr (le_enc 4 (p_xstate np))) (fun r => if r <? 0 then sret (WDone (-1)) else sbind (freeproc j) (fun _ => sret (WDone (p_pid np)))))) k).
  apply (swp_seq (pslot k0 ZOMBIE j)); [apply pslot_stable; right; by right|kept|split; [done|by exists np]|by intros ? []|]. intros r k1 H1.
  apply (swp_seq (pslot k0 ZOMBIE j)); [apply pslot_stable; right; by right|kept|done|by intros ? []|]. intros x k2 H2. destruct (x <? 0); [apply H2|]. apply swp_bind.
  apply (swp_mono (fun _ => pol k0)); [by intros [a|]|]. apply (pol_freeproc k0 ZOMBIE); [by right|done].
Qed.

Lemma pol_wait k0 k addr : pol k0 k -> swp (fun _ => pol k0) (wait addr) k.
Proof.
  intros H. unfold wait. rewrite swp_get. cbv zeta. apply swp_bind. apply (swp_mono (fun _ => pol k0)); [|by apply pol_wait_scan]. intros [[r|h]|] k1 H1; [done| |done]. cbn [sthen].
  unfold swp, sbind at 1, getp. destruct (_ || _); [done|]. rewrite (proj1 H). unfold sbind, sleep, sget, modp, smodify. cbn. rewrite (proj1 H1). apply pol_self. by apply pol_self.
Qed.

(** Every system call of the current process is polite, whether it returns
    or goes to sleep on the way. *)
Lemma syscalls_polite e num f k : syscalls e num = Some f -> kwp (fun _ => pol k) f k.
Proof.
  intros E. assert (K : forall A (p : prog kst A), kept pkeep p -> kwp (fun _ => pol k) p k) by (intros A p Hp; apply (kwp_stable (pol k)); [apply pol_stable|done|apply pol_refl]).
  destruct (is_proc_call num) eqn:B; [|apply K; by apply (kept_syscalls pkeep e num)]. unfold is_proc_call in B. cbn [existsb] in B. rewrite !orb_true_iff, !Z.eqb_eq in B.
  destruct B as [->|[->|[->|[->|[->|[->|]]]]]]; [..|done]; injection E as <-.
  - apply pol_fork.
  - unfold sys_exit. apply (kwp_seq (pol k)); [apply pol_stable|kept|apply pol_refl|done|]. intros n k1 H1. apply kwp_bind. apply (kwp_mono (fun _ => pol k)); [by intros [u|]|by apply pol_exit].
  - unfold sys_wait. apply (kwp_seq (pol k)); [apply pol_stable|kept|apply pol_refl|done|]. intros a k1 H1. apply kwp_bind, kwp_liftK. apply (swp_mono (fun _ => pol k)); [by intros [[r|]|]|by apply pol_wait].
  - apply K. kept.
  - apply K. kept.
  - apply K. kept.
Qed.

(** ** The theorem *)

(** What the current process does: system calls that return or block, yield,
    sleep, the wakeups of interrupt handlers, and user code. *)
Inductive kacts (i : nat) : list proc -> list proc -> Prop :=
| ka_call e num f k s r k' s' : syscalls e num = Some f -> k_cur k = i -> run hC f (k, s) = Ok r (k', s') -> kacts i (k_procs k) (k_procs k')
| ka_block e num f k s c k' s' : syscalls e num = Some f -> k_cur k = i -> run hC f (k, s) = Sleep c (k', s') -> kacts i (k_procs k) (k_procs k')
| ka_yield k k' : k_cur k = i -> yield k = Ok tt k' -> kacts i (k_procs k) (k_procs k')
| ka_sleep chan k k' : k_cur k = i -> sleep chan k = Ok tt k' -> kacts i (k_procs k) (k_procs k')
| ka_wakeup chan k k' : k_cur k = i -> wakeup chan k = Ok tt k' -> kacts i (k_procs k) (k_procs k')
| ka_user l : kacts i l l.

Lemma kacts_polite i l l' : kacts i l l' -> polite i l l'.
Proof.
  intros H. assert (P : forall k k' : kst, k_cur k = i -> pol k k' -> polite i (k_procs k) (k_procs k')) by (by intros k k' <- [_ H']).
  destruct H as [e num f k s r k' s' E Hc R|e num f k s c k' s' E Hc R|k k' Hc R|ch k k' Hc R|ch k k' Hc R|l]; [..|apply polite_refl]; apply P; try done.
  - pose proof (kwp_run hC _ f k s khandler_C (syscalls_polite e num f k E)) as H. by rewrite R in H.
  - pose proof (kwp_run hC _ f k s khandler_C (syscalls_polite e num f k E)) as H. by rewrite R in H.
  - injection R as <-. apply pol_self, pol_refl.
  - injection R as <-. apply pol_self, pol_self, pol_refl.
  - pose proof (pol_wakeup k k ch (pol_refl k)) as H. unfold swp in H. by rewrite R in H.
Qed.

Definition is_ran (p : nat) (a : label) : bool := match a with Ran _ i => Nat.eqb i p | _ => false end.

(** C13. Scheduling is safe and fair on any number of CPUs: in every
    interleaving of their scheduler loops with what the kernel lets the running
    processes do, a process is on at most one CPU and is RUNNING while it is;
    and when a process is RUNNABLE and some CPU then makes 64 iterations of its
    loop, the process has been given a CPU. *)
Theorem scheduler_fair (t : list label) (s s' : msys) :
  sched_ok s -> msteps kacts t s s' ->
  sched_ok s' /\ forall c p, (p < NPROC)%nat -> pstate (m_procs s) p = Some RUNNABLE -> (NPROC <= looks c t)%nat -> exists d, Ran d p ∈ t.
Proof.
  intros K H. split; [by apply (msteps_ok kacts kacts_polite t s)|]. intros c p Hp Hr Hl. destruct (existsb (is_ran p) t) eqn:E.
  - apply existsb_exists in E as (a & Ha & Hb). destruct a as [d|d i|d i]; try done. apply Nat.eqb_eq in Hb as ->. exists d. by apply list_elem_of_In.
  - exfalso. assert (Hn : forall d, Ran d p ∉ t). { intros d Hd. apply not_true_iff_false in E. apply E, existsb_exists. exists (Ran d p). split; [by apply list_elem_of_In|cbn; apply Nat.eqb_refl]. }
    pose proof (wait_run kacts kacts_polite p c t s s' K Hp Hr Hn H). pose proof (ahead_bound p (m_cpus s c)). lia.
Qed.

(** Processes 3 and 5 can run, and yield when they do; CPU 0 makes 70 steps. *)
Definition demo_table : list proc := alter (p_set_state RUNNABLE) 3%nat (alter (p_set_state RUNNABLE) 5%nat (replicate NPROC proc0)).
Definition demo_msys : msys := mkM demo_table (fun _ => Scan 0).

Lemma demo_sched : sched_ok demo_msys.
Proof. split; [reflexivity| |done|done]. intros c i [= <-]. lia. Qed.

Definition demo_step (s : msys) : label * msys :=
  match m_cpus s 0%nat with
  | Scan i => (if bool_decide (pstate (m_procs s) i = Some RUNNABLE) then Ran 0 i else Look 0, look 0 i s)
  | Run i => (Act 0 i, mkM (alter (p_set_state RUNNABLE) i (m_procs s)) (Hart.upd 0%nat (Scan ((i + 1) mod NPROC)) (m_cpus s)))
  end.
Fixpoint demo_go (n : nat) (s : msys) : list label * msys :=
  match n with
  | O => ([], s)
  | S n => let '(a, s1) := demo_step s in let '(t, s2) := demo_go n s1 in (a :: t, s2)
  end.

Lemma yields i l : kacts i l (alter (p_set_state RUNNABLE) i l).
Proof. exact (ka_yield i (mkK (mkSb 0 0 0 0 0 0 0 0 0 0 0) [] [] ∅ ∅ 0 0 l i None 1 []) _ eq_refl eq_refl). Qed.

Lemma demo_runs n : forall s, msteps kacts (fst (demo_go n s)) s (snd (demo_go n s)).
Proof.
  induction n as [|n IH]; intros s; [constructor|]. cbn [demo_go]. destruct (demo_step s) as [a s1] eqn:E. specialize (IH s1). destruct (demo_go n s1) as [t s2]. cbn [fst snd] in *. apply (mss_cons _ a t s s1 s2); [|done].
  unfold demo_step in E. destruct (m_cpus s 0%nat) as [i|i] eqn:Ec.
  - case_bool_decide as B; injection E as <- <-; [by apply ms_run|by apply ms_look].
  - injection E as <- <-. apply ms_back; [done|apply yields|]. rewrite pstate_alter, decide_True by done. by destruct (m_procs s !! i).
Qed.

Lemma scheduler_fair_witness : sched_ok (snd (demo_go 70 demo_msys)) /\ exists d, Ran d 5 ∈ fst (demo_go 70 demo_msys).
Proof.
  destruct (scheduler_fair _ _ _ demo_sched (demo_runs 70 demo_msys)) as [H1 H2]. split; [exact H1|]. apply (H2 0%nat 5%nat); [lia|reflexivity|vm_compute; lia].
Defined.
