(* ===== verification/Main.v ===== *)
(** * Boot (kernel/main.c, and kvminit and kvminithart of vm.c)

    What main does on the first hart and on the others, composed from the
    initialisation routines of all components.  The global kernel_pagetable is
    passed as a value: the first hart returns it when it sets [started].  The
    theorem says what is up when the scheduler starts: the kernel's page
    table, the devices, the caches, and one process that will run initcode. *)
From S2P Require Import Prelude Str Ulib Bio Log Crash Machine Types Vm Kmem Pgtbl Uvm Kvm UvmSpec Ld Balloc Inode Dir Pipe File Sysfile Proc Userinit Exec Syscall Frame ProcSpec Ring Printf Console ConsoleSpec Virtio VirtioSpec Hart Asm Trap TrapSpec TrapBoot.
Local Open Scope st_scope.

(** "xv6 kernel is booting\n" and "hart %d starting\n" *)
Definition msg_nl : bytes := [10; 0].
Definition msg_boot : bytes := [120; 118; 54; 32; 107; 101; 114; 110; 101; 108; 32; 105; 115; 32; 98; 111; 111; 116; 105; 110; 103; 10; 0].
Definition msg_hart : bytes := [104; 97; 114; 116; 32; 37; 100; 32; 115; 116; 97; 114; 116; 105; 110; 103; 10; 0].

Section Main.
  Context {D P : Type} `{Uart D} `{Plic P}.
  Context (l : link) (mmio : Z -> Z) (polls : nat) (etext trampoline pages : Z).
  Implicit Types s : tst D P.

Definition kvminit : stM (tst D P) Z := in_k (kvmmake etext trampoline).
Definition kvminithart (kernel_pagetable : Z) : stM (tst D P) unit := on_h (w_satp (MAKE_SATP kernel_pagetable)).

Definition in_b (f : bstate -> bstate) : stM (tst D P) unit := in_kb (smodify (fun kb => (fst kb, f (snd kb)))).

(** The first hart; trapinit and fileinit only name a lock. *)
Definition main_first : stM (tst D P) Z :=
  in_con consoleinit;;
  in_con printfinit;;
  print polls msg_nl [];;
  print polls msg_boot [];;
  print polls msg_nl [];;
  in_k kinit;;
  kernel_pagetable <- kvminit;
  kvminithart kernel_pagetable;;
  in_k procinit;;
  trapinithart l;;
  plicinit;;
  plicinithart;;
  in_b binit;;
  in_kb (run hC iinit);;
  in_disk (virtio_disk_init mmio pages);;
  in_kb (run hC (userinit trampoline));;
  sret kernel_pagetable.

(** Another hart waits until the first one is done. *)
Definition main_other (started : option Z) : stM (tst D P) Z :=
  match started with
  | None => fun s => Sleep "started" s
  | Some kernel_pagetable =>
      s <- sget;
      print polls msg_hart [AInt (cpuid s)];;
      kvminithart kernel_pagetable;;
      trapinithart l;;
      plicinithart;;
      sret kernel_pagetable
  end.

(** main, up to the scheduler; [started] holds the kernel's page table when
    the variable of that name is set. *)
Definition main (started : option Z) : stM (tst D P) Z :=
  s <- sget;
  if cpuid s =? 0 then main_first else main_other started.
End Main.

(** ** Lemmas: output during boot *)

Section Boot.
  Context {D P : Type} `{UD : Uart D} `{!UartLaws D} `{PL : Plic P}.
  Context (l : link) (mmio : Z -> Z) (polls : nat) (Hpolls : (max_busy < polls)%nat) (etext trampoline pages : Z).
  Implicit Types s : tst D P.

Lemma emits_str (t : bytes) : Forall (fun c => 0 < c < 256 /\ c <> 37) t -> emits (printf (consputc polls) (t ++ [0]) []) t.
Proof.
  induction 1 as [|c t [Hc Hp] _ IH]; [apply emits_ret|]. cbn [app printf].
  rewrite (proj2 (Z.eqb_neq c 0)), (proj2 (Z.eqb_neq c 37)) by lia. cbn [negb]. apply (emits_bind _ _ [c] t); [|exact IH].
  pose proof (emits_putc polls Hpolls c) as E. rewrite (proj2 (Z.eqb_neq c BACKSPACE)) in E by lia. unfold u8 in E. by rewrite Z.mod_small in E by lia.
Qed.

(** Only the console differs. *)
Record con_step (s s' : tst D P) (out : bytes) : Prop := {
  cs_h : t_h s' = t_h s;
  cs_kb : t_kb s' = t_kb s;
  cs_disk : t_disk s' = t_disk s;
  cs_plic : t_plic s' = t_plic s;
  cs_ok : cons_ok (t_con s) -> cons_ok (t_con s');
  cs_tx : tx_ok (t_con s) -> tx_ok (t_con s');
  cs_up : con_up (t_con s');
  cs_out : tx (cn_dev (t_con s')) = tx (cn_dev (t_con s)) ++ out
}.

Lemma con_emits m out s : emits m out -> con_up (t_con s) -> exists s', in_con m s = Ok tt s' /\ con_step s s' out.
Proof.
  intros Hm U. destruct (Hm (set_k (fst (t_kb s)) (t_con s)) U) as (d & E & R & T & U').
  exists (set_con (set_dev d (set_k (fst (t_kb s)) (t_con s))) s). unfold in_con, zoom. rewrite E. split; [done|]. split; try done.
  - cbn. by destruct (t_kb s).
  - apply ok_ext; done.
  - intros K. by apply (tx_ok_ext (t_con s)).
Qed.

Lemma con_step_trans s1 s2 s3 o1 o2 : con_step s1 s2 o1 -> con_step s2 s3 o2 -> con_step s1 s3 (o1 ++ o2).
Proof.
  intros A B. split; [by rewrite (cs_h _ _ _ B), (cs_h _ _ _ A)|by rewrite (cs_kb _ _ _ B), (cs_kb _ _ _ A)|by rewrite (cs_disk _ _ _ B), (cs_disk _ _ _ A)|
    by rewrite (cs_plic _ _ _ B), (cs_plic _ _ _ A)|intros K; by apply (cs_ok _ _ _ B), (cs_ok _ _ _ A)|intros K; by apply (cs_tx _ _ _ B), (cs_tx _ _ _ A)|apply B|].
  by rewrite (cs_out _ _ _ B), (cs_out _ _ _ A), app_assoc.
Qed.

(** The device after uartinit. *)
Definition uart_up (d : D) : D :=
  u_write IER 3 (u_write FCR 7 (u_write LCR 3 (u_write 1 0 (u_write 0 3 (u_write LCR 128 (u_write IER 0 d)))))).

Lemma uart_latch d : latch (uart_up d) = false.
Proof. unfold uart_up. rewrite ul_ctl by (by left). rewrite ul_ctl by (by right). by rewrite ul_lcr. Qed.

Lemma con_init s : cn_panicked (t_con s) = false -> exists s',
  (in_con consoleinit;; in_con printfinit) s = Ok tt s' /\ t_h s' = t_h s /\ t_kb s' = t_kb s /\ t_disk s' = t_disk s /\ t_plic s' = t_plic s /\
  (cons_ok (t_con s) -> cons_ok (t_con s')) /\ (tx_ok (t_con s) -> tx_ok (t_con s')) /\ con_up (t_con s') /\ cn_dev (t_con s') = uart_up (cn_dev (t_con s)).
Proof.
  intros Hp. eexists. split; [reflexivity|]. split; [done|]. split; [cbn; by destruct (t_kb s)|]. split; [done|]. split; [done|].
  split; [apply ok_ext; done|]. split; [intros K; by apply (tx_ok_ext (t_con s))|]. split; [|done]. split; [exact Hp|]. apply uart_latch.
Qed.

(** ** The state at power-on, and after boot *)

(** Static data is as the image has it, the devices answer. *)
Record powered (s : tst D P) : Prop := {
  pw_hart : cpuid s = 0;
  pw_image : image_ok etext trampoline;
  pw_mem : mem_ok (fst (t_kb s)) [];
  pw_end : etext <= k_end (fst (t_kb s)) <= PHYSTOP - 360 * PGSIZE;
  pw_procs : k_nextpid (fst (t_kb s)) = 1 /\ k_initproc (fst (t_kb s)) = None;
  pw_itable : k_itable (fst (t_kb s)) = replicate NINODE inode0;
  pw_con : cons_ok (t_con s) /\ tx_ok (t_con s) /\ cn_panicked (t_con s) = false;
  pw_disk : v_seen (t_disk s) = 0 /\ length (v_info_b (t_disk s)) = NUM /\ length (v_status (t_disk s)) = NUM /\ length (v_ops (t_disk s)) = NUM;
  pw_mmio : mmio 0 = 0x74726976 /\ mmio 4 = 1 /\ mmio 8 = 2 /\ mmio 12 = 0x554d4551 /\ 8 <= mmio 0x34
}.

Definition boot_text : bytes := [10] ++ removelast msg_boot ++ [10].

(** The interrupt controller after plicinit and plicinithart on hart 0. *)
Definition plic_up (hart : Z) (p : P) : P :=
  pl_write (PLIC_SPRIORITY hart) 0 (pl_write (PLIC_SENABLE hart) (Z.lor (Z.shiftl 1 UART0_IRQ) (Z.shiftl 1 VIRTIO0_IRQ)) p).
Definition plic_on (p : P) : P := plic_up 0 (pl_write (PLIC + VIRTIO0_IRQ * 4) 1 (pl_write (PLIC + UART0_IRQ * 4) 1 p)).

(** The first process, in a kernel whose memory it is. *)
Record first_process (k : kst) (p : proc) : Prop := {
  fp_procs : k_procs k = <[0%nat := p]> (replicate NPROC proc0);
  fp_init : k_initproc k = Some 0%nat;
  fp_state : p_state p = RUNNABLE /\ p_pid p = 1 /\ p_parent p = None /\ p_sz p = PGSIZE /\ p_killed p = false /\ p_ofile p = replicate NOFILE None;
  fp_cwd : p_cwd p = Some 0%nat /\ i_inum (nth 0 (k_itable k) inode0) = ROOTINO /\ i_ref (nth 0 (k_itable k) inode0) = 1;
  fp_image : forall va, 0 <= va -> ubyte (k_mem k) (p_pagetable p) va = init_image va;
  fp_tramp : trans (k_mem k) (p_pagetable p) TRAMPOLINE = Some (mapent trampoline (Z.lor PTE_R PTE_X));
  fp_tf : trans (k_mem k) (p_pagetable p) TRAPFRAME = Some (mapent (p_trapframe p) (Z.lor PTE_R PTE_W));
  fp_regs : word (k_mem k) (p_trapframe p) 3 = 0 /\ word (k_mem k) (p_trapframe p) 6 = PGSIZE
}.

Record is_up (s s' : tst D P) (kpt : Z) : Prop := {
  up_hart : t_h s' = w_stvec (l_kernelvec l) (w_satp (MAKE_SATP kpt) (t_h s));
  up_kernel : exists stk, length stk = 64%nat /\ NoDup stk /\
    forall va, 0 <= va < MAXVA -> trans (k_mem (fst (t_kb s'))) kpt va = kernel_map etext trampoline stk va;
  up_init : exists p fl, first_process (fst (t_kb s')) p /\ space_ok (fst (t_kb s')) (p_pagetable p) fl /\ ktab_ok (fst (t_kb s')) kpt fl;
  up_procs : good false (fst (t_kb s'));
  up_cache : snd (t_kb s') = binit (snd (t_kb s));
  up_cons : cons_ok (t_con s') /\ tx_ok (t_con s') /\ con_up (t_con s');
  up_text : tx (cn_dev (t_con s')) = tx (uart_up (cn_dev (t_con s))) ++ boot_text;
  up_disk : forall dv, d_seen dv = 0 -> d_work dv = [] -> Forall (buf_ok (d_image dv)) (v_bufs (t_disk s')) -> VirtioSpec.inv (mkSys (t_disk s') dv []);
  up_plic : t_plic s' = plic_on (t_plic s)
}.

(** ** Lemmas: the kernel's part *)

Lemma sbind_run {S A B} (m : stM S A) (f : A -> stM S B) x a y : m x = Ok a y -> sbind m f x = f a y.
Proof. intros E. unfold sbind. by rewrite E. Qed.

(** The kernel state through kinit, kvmmake, procinit, iinit and userinit. *)
Record kernel_up (k : kst) (b : bstate) (k1 k2 k3 : kst) (kpt : Z) : Prop := {
  ku_kinit : kinit k = Ok tt k1;
  ku_kvm : kvmmake etext trampoline k1 = Ok kpt k2;
  ku_init : run hC (userinit trampoline) (set_itable (fmap (i_set_lock false 0)) (set_procs (fun _ => replicate NPROC proc0) k2), b) = Ok tt (k3, b);
  ku_map : exists stk, length stk = 64%nat /\ NoDup stk /\ forall va, 0 <= va < MAXVA -> trans (k_mem k3) kpt va = kernel_map etext trampoline stk va;
  ku_first : exists p fl, first_process k3 p /\ space_ok k3 (p_pagetable p) fl /\ ktab_ok k3 kpt fl;
  ku_good : good false k3
}.

(** Pages that are not free stay as they are. *)
Lemma ktab_keep k k' pt fl fl' : ktab_ok k pt fl -> same_pages (k_mem k) (k_mem k') fl -> mem_ok k' fl' -> (forall x, x ∈ fl' -> x ∈ fl) ->
  ktab_ok k' pt fl' /\ forall va, trans (k_mem k') pt va = trans (k_mem k) pt va.
Proof.
  intros [Mk R N F Q] Hs M1 Hf.
  assert (Ht : forall va, ptree 2 (k_mem k') pt = ptree 2 (k_mem k) pt /\ plook 2 (k_mem k') pt va = plook 2 (k_mem k) pt va /\ tr 2 (k_mem k') pt va = tr 2 (k_mem k) pt va)
    by (intros va; apply tables_frame; intros c Hc; by apply Hs, F).
  destruct (Ht 0) as (E & _). split; [|intros va; apply (Ht va)]. split; rewrite ?E; [exact M1|exact R|exact N| |exact Q].
  intros x Hx Hx'. by apply (F x Hx), Hf.
Qed.

Lemma find_unused_fresh : find_unused (replicate NPROC proc0) 0 = Some 0%nat.
Proof. reflexivity. Qed.
Lemma iget_fresh_table : iget_scan (replicate NINODE inode0) 0 ROOTDEV ROOTINO None = inr (Some 0%nat).
Proof. reflexivity. Qed.
Lemma alter_fresh f : alter f 0%nat (replicate NPROC proc0) = <[0%nat := f proc0]> (replicate NPROC proc0).
Proof. reflexivity. Qed.

Lemma first_process_made k tf pt k' fl fl' : k_procs k = replicate NPROC proc0 -> k_itable k = replicate NINODE inode0 -> k_nextpid k = 1 ->
  init_made trampoline 0 0 k fl tf pt k' fl' -> first_process k' (init_entry 1 tf pt 0 proc0).
Proof.
  intros E1 E2 E3 [A B C Dd E F G H I J]. destruct (only_mem_fields _ _ B) as (P1 & _ & P2 & _ & _ & P3).
  unfold init_started, set_procs, set_itable, set_initproc, set_nextpid in P1, P2, P3. cbn [k_procs k_itable k_initproc k_nextpid] in P1, P2, P3. rewrite E1, E3 in P1. rewrite E2 in P2.
  split; [by rewrite P1, alter_fresh|exact P3|done|by rewrite P2|done|done|done|done].
Qed.

Lemma kernel_boots k b : image_ok etext trampoline -> mem_ok k [] -> etext <= k_end k <= PHYSTOP - 360 * PGSIZE ->
  k_nextpid k = 1 -> k_initproc k = None -> k_itable k = replicate NINODE inode0 -> exists k1 k2 k3 kpt, kernel_up k b k1 k2 k3 kpt.
Proof.
  intros Im Mk He Hn Hi Ht. pose proof Im as [I1 I2 I3 I4].
  destruct (kinit_run k Mk ltac:(lia)) as (k1 & n & E1 & M1 & N1 & O1). destruct (PGROUNDUP_spec (k_end k) ltac:(lia)) as [U1 U2].
  set (fl := rev (page_list (PGROUNDUP (k_end k)) n)) in *. assert (L : zlen fl = Z.of_nat n) by (unfold zlen, fl, page_list; by rewrite length_rev, length_map, length_seq).
  destruct (kvmmake_run etext trampoline k1 fl M1 Im ltac:(lia)) as (kpt & k2 & fl2 & stk & E2 & K2 & O2 & F2 & L2 & _ & _ & S1 & S2 & _ & T2 & _).
  destruct (only_mem_fields k k1 O1) as (_ & Q1 & Q2 & _ & Q3 & Q4). destruct (only_mem_fields k1 k2 O2) as (_ & R1 & R2 & _ & R3 & R4).
  set (k2' := set_itable (fmap (i_set_lock false 0)) (set_procs (fun _ => replicate NPROC proc0) k2)).
  assert (Mk2 : mem_ok k2' fl2) by (apply (mem_ok_same k2); [done|done|done|apply K2]).
  assert (Etab : k_itable k2' = replicate NINODE inode0) by (unfold k2', set_itable; cbn [k_itable set_procs]; by rewrite R2, Q2, Ht).
  assert (Tf : trampoline ∉ fl2).
  { intros H. apply F2 in H. pose proof (mo_in M1) as In. rewrite Forall_forall in In.
    destruct (In trampoline H) as [_ B]. rewrite Q1 in B. lia. }
  destruct (userinit_run trampoline 0 0 k2' fl2 I3 ltac:(lia) Tf Mk2 ltac:(lia) b) as (tf & pt & k3 & fl3 & E3 & D3); [apply find_unused_fresh|cbn; lia|by rewrite Etab|].
  destruct (ktab_keep k2 k3 kpt fl2 fl3 K2 (in_frame D3) (so_mem (in_ok D3)) (in_fl D3)) as [K3 T3].
  assert (Hn2 : k_nextpid k2' = 1) by (change (k_nextpid k2') with (k_nextpid k2); by rewrite R3, Q3).
  assert (Hi2 : k_initproc k2' = None) by (change (k_initproc k2') with (k_initproc k2); by rewrite R4, Q4).
  pose proof (first_process_made k2' tf pt k3 fl2 fl3 eq_refl Etab Hn2 D3) as FP.
  assert (G2 : ProcSpec.inv k2') by (by apply pboot_inv).
  assert (Id : forall k, (forall i p, k_procs k !! i = Some p -> p_state p <> RUNNING) -> ProcSpec.inv k -> good false k) by (intros k0 H H'; by apply inv_idle).
  exists k1, k2, k3, kpt. split; [exact E1|exact E2|exact E3| | |].
  - exists stk. split; [exact S1|]. split; [exact S2|]. intros va Hva. rewrite T3. by apply T2.
  - exists (init_entry 1 tf pt 0 proc0), fl3. split; [exact FP|]. split; [exact (in_ok D3)|exact K3].
  - apply Id.
    + intros i p. rewrite (fp_procs _ _ FP). destruct (decide (i = 0%nat)) as [->|Ne].
      * rewrite list_lookup_insert by (cbn; lia). intros [= <-]. discriminate.
      * rewrite list_lookup_insert_ne by done. by intros [-> _]%lookup_replicate.
    + apply (kstep_inv (k2', b) (k3, b)); [|exact G2]. apply (step_boot trampoline); [exact Hi2|unfold pids_left; rewrite Hn2; lia| |exact E3].
      intros i p Hp. change (k_procs k2') with (replicate NPROC proc0) in Hp. apply lookup_replicate in Hp as [-> _]. discriminate.
Qed.

(** A step of the driver that leaves the kernel alone. *)
Definition vsteps (m : stM disk unit) : Prop := forall d, exists d', m d = Ok tt d' /\ v_k d' = v_k d.

Lemma vsteps_bind m n : vsteps m -> vsteps n -> vsteps (m;; n).
Proof.
  intros Hm Hn d. destruct (Hm d) as (d1 & E1 & K1). destruct (Hn d1) as (d2 & E2 & K2). exists d2. rewrite (sbind_run _ _ _ _ _ E1). by rewrite K2.
Qed.
Lemma vsteps_modify f : (forall d, v_k (f d) = v_k d) -> vsteps (smodify f).
Proof. intros H d. by exists (f d). Qed.
Lemma vsteps_wreg a x : vsteps (wreg a x).
Proof. by apply vsteps_modify. Qed.

Lemma disk_up : mmio 0 = 0x74726976 /\ mmio 4 = 1 /\ mmio 8 = 2 /\ mmio 12 = 0x554d4551 /\ 8 <= mmio 0x34 -> vsteps (virtio_disk_init mmio pages).
Proof.
  intros (M0 & M4 & M8 & M12 & Mq). unfold virtio_disk_init. rewrite M0, M4, M8, M12. cbn [Z.eqb Pos.eqb negb orb].
  destruct (Z.eqb_spec (mmio 0x34) 0); [lia|]. destruct (Z.ltb_spec (mmio 0x34) 8); [lia|].
  repeat (apply vsteps_bind; [first [apply vsteps_wreg|by apply vsteps_modify]|]). by apply vsteps_modify.
Qed.

(** The banner. *)
Lemma banner s : con_up (t_con s) -> exists s', (forall A (f : unit -> stM (tst D P) A),
    (print polls msg_nl [];; print polls msg_boot [];; r <- print polls msg_nl []; f r) s = f tt s') /\ con_step s s' boot_text.
Proof.
  intros U. assert (Es : forall t, Forall (fun c => 0 < c < 256 /\ c <> 37) t -> emits (printf (consputc polls) (t ++ [0]) []) t) by (intros t; apply emits_str).
  assert (N : Forall (fun c => 0 < c < 256 /\ c <> 37) [10]) by (repeat constructor; lia).
  assert (B : Forall (fun c => 0 < c < 256 /\ c <> 37) (removelast msg_boot)) by (vm_compute removelast; repeat constructor; lia).
  destruct (con_emits _ _ s (Es _ N) U) as (s1 & E1 & C1). destruct (con_emits _ _ s1 (Es _ B) (cs_up _ _ _ C1)) as (s2 & E2 & C2).
  destruct (con_emits _ _ s2 (Es _ N) (cs_up _ _ _ C2)) as (s3 & E3 & C3). exists s3. split.
  - intros A f. unfold sbind. unfold print. change msg_nl with ([10] ++ [0]). change msg_boot with (removelast msg_boot ++ [0]). by rewrite E1, E2, E3.
  - exact (con_step_trans _ _ _ _ _ C1 (con_step_trans _ _ _ _ _ C2 C3)).
Qed.

(** The steps from the banner on. *)
Lemma main_kernel s b k k1 k2 k3 kpt d' : t_kb s = (k, b) -> kernel_up k (binit b) k1 k2 k3 kpt ->
  virtio_disk_init mmio pages (set_vk (set_itable (fmap (i_set_lock false 0)) (set_procs (fun _ => replicate NPROC proc0) k2)) (t_disk s)) = Ok tt d' ->
  v_k d' = set_itable (fmap (i_set_lock false 0)) (set_procs (fun _ => replicate NPROC proc0) k2) -> cpuid s = 0 ->
  (in_k kinit;;
   kernel_pagetable <- kvminit etext trampoline;
   kvminithart kernel_pagetable;;
   in_k procinit;;
   trapinithart l;;
   plicinit;;
   plicinithart;;
   in_b binit;;
   in_kb (run hC iinit);;
   in_disk (virtio_disk_init mmio pages);;
   in_kb (run hC (userinit trampoline));;
   sret kernel_pagetable) s = Ok kpt (mkT (w_stvec (l_kernelvec l) (w_satp (MAKE_SATP kpt) (t_h s))) (k3, binit b) (t_con s) d' (t_ticks s) (plic_on (t_plic s))).
Proof.
  intros Ekb [E1 E2 E3 _ _ _] Ed Hk Hc. destruct s as [h kb c d t p]. cbn [t_kb t_disk] in Ekb, Ed. subst kb.
  rewrite (sbind_run _ _ _ tt (mkT h (k1, b) c d t p)) by (unfold in_k, zoom; cbn [t_kb fst snd]; by rewrite E1).
  rewrite (sbind_run _ _ _ kpt (mkT h (k2, b) c d t p)) by (unfold kvminit, in_k, zoom; cbn [t_kb fst snd]; by rewrite E2).
  rewrite (sbind_run _ _ _ tt (mkT (w_satp (MAKE_SATP kpt) h) (k2, b) c d t p)) by reflexivity.
  rewrite (sbind_run _ _ _ tt (mkT (w_satp (MAKE_SATP kpt) h) (set_procs (fun _ => replicate NPROC proc0) k2, b) c d t p)) by reflexivity.
  set (h' := w_stvec (l_kernelvec l) (w_satp (MAKE_SATP kpt) h)). assert (Hc' : forall kb c d t p, @cpuid D P (mkT h' kb c d t p) = 0) by (intros; exact Hc).
  rewrite (sbind_run _ _ _ tt (mkT h' (set_procs (fun _ => replicate NPROC proc0) k2, b) c d t p)) by reflexivity.
  rewrite (sbind_run plicinit _ _ tt (mkT h' (set_procs (fun _ => replicate NPROC proc0) k2, b) c d t (pl_write (PLIC + VIRTIO0_IRQ * 4) 1 (pl_write (PLIC + UART0_IRQ * 4) 1 p)))) by reflexivity.
  rewrite (sbind_run plicinithart _ _ tt (mkT h' (set_procs (fun _ => replicate NPROC proc0) k2, b) c d t (plic_on p)))
    by (unfold plicinithart, sbind, sget; rewrite Hc'; reflexivity).
  rewrite (sbind_run _ _ _ tt (mkT h' (set_procs (fun _ => replicate NPROC proc0) k2, binit b) c d t (plic_on p))) by reflexivity.
  rewrite (sbind_run _ _ _ tt (mkT h' (set_itable (fmap (i_set_lock false 0)) (set_procs (fun _ => replicate NPROC proc0) k2), binit b) c d t (plic_on p))) by reflexivity.
  rewrite (sbind_run _ _ _ tt (mkT h' (v_k d', binit b) c d' t (plic_on p))) by (unfold in_disk, zoom; cbn [t_kb t_disk fst snd]; by rewrite Ed).
  rewrite (sbind_run _ _ _ tt (mkT h' (k3, binit b) c d' t (plic_on p))) by (unfold in_kb, zoom; cbn [t_kb fst snd]; by rewrite Hk, E3).
  reflexivity.
Qed.

(** Another hart, when the first one is done. *)
Lemma main_late s kpt : cpuid s <> 0 -> con_up (t_con s) -> exists s', main l mmio polls etext trampoline pages (Some kpt) s = Ok kpt s' /\
  t_h s' = w_stvec (l_kernelvec l) (w_satp (MAKE_SATP kpt) (t_h s)) /\ t_kb s' = t_kb s /\ t_disk s' = t_disk s /\ t_plic s' = plic_up (cpuid s) (t_plic s).
Proof.
  intros Hc U. assert (H : exists o, emits (printf (consputc polls) msg_hart [AInt (cpuid s)]) o).
  { destruct (emits_printint polls Hpolls (cpuid s) 10 ltac:(lia) ltac:(lia)) as [o2 H2]. eexists. unfold msg_hart. cbn [printf Z.eqb Pos.eqb negb].
    repeat (eapply emits_bind; [first [exact H2|by apply emits_putc]|]). apply emits_ret. }
  destruct H as [o H]. destruct (con_emits _ _ s H U) as (s1 & E1 & C1). unfold main, sbind at 1, sget. rewrite (proj2 (Z.eqb_neq _ _) Hc).
  unfold main_other, sbind at 1, sget. unfold print. rewrite (sbind_run _ _ _ _ _ E1). destruct s1 as [h kb c d t p]. destruct C1 as [C1 C2 C3 C4 _ _ _ _].
  cbn [t_h t_kb t_disk t_plic] in *. eexists. split; [reflexivity|]. cbn [t_h t_kb t_disk t_plic set_h set_plic kvminithart trapinithart on_h smodify].
  rewrite <- C1, <- C2, <- C3, <- C4. split; [done|]. split; [done|]. split; [done|]. unfold plic_up. replace (cpuid s) with (s32 (r_tp h)) by (unfold cpuid; by rewrite <- C1). done.
Qed.

(** C12. The machine boots.  From power-on, with the image, static data and
    devices as they should be and 360 free pages, main on hart 0 neither
    panics nor stops before the scheduler, and then: the hart uses the kernel
    page table, which is exactly [kernel_map], and traps to kernelvec; the
    only process is init, runnable, with process id 1 and the root directory,
    its memory is one page with initcode, its trampoline and trapframe are
    mapped, and it will start at address 0 with its stack at 4096; its address
    space, the kernel's tables and the free list are apart; the process table
    has its invariant; the buffer cache is empty and unlocked; the banner is
    on the console and the console's buffers have their invariants; the disk
    driver has its invariant for a disk that is idle; and interrupts of UART
    and disk are enabled.  Every other hart waits for that and then uses the
    same page table. *)
Theorem main_boots s : powered s ->
  (exists kpt s', main l mmio polls etext trampoline pages None s = Ok kpt s' /\ is_up s s' kpt) /\
  forall z, cpuid z <> 0 -> con_up (t_con z) ->
    main l mmio polls etext trampoline pages None z = Sleep "started" z /\
    forall kpt, exists z', main l mmio polls etext trampoline pages (Some kpt) z = Ok kpt z' /\
      t_h z' = w_stvec (l_kernelvec l) (w_satp (MAKE_SATP kpt) (t_h z)) /\ t_kb z' = t_kb z /\ t_plic z' = plic_up (cpuid z) (t_plic z).
Proof.
  intros [Hc Im Mk He [Hn Hi] Ht (K1 & K2 & K3) (V1 & V2 & V3 & V4) Hm]. split.
  2:{ intros z Hz U. split; [unfold main, sbind, sget; by rewrite (proj2 (Z.eqb_neq _ _) Hz)|]. intros kpt.
      destruct (main_late z kpt Hz U) as (z' & E & H1 & H2 & _ & H3). by exists z'. }
  destruct (con_init s K3) as (s1 & E1 & A1 & A2 & A3 & A4 & A5 & A6 & A7 & A8). destruct (banner s1 A7) as (s2 & E2 & B).
  destruct (kernel_boots (fst (t_kb s)) (binit (snd (t_kb s))) Im Mk He Hn Hi Ht) as (k1 & k2 & k3 & kpt & Ku).
  destruct (disk_up Hm (set_vk (set_itable (fmap (i_set_lock false 0)) (set_procs (fun _ => replicate NPROC proc0) k2)) (t_disk s2))) as (d' & Ed & Hk).
  assert (Ekb : t_kb s2 = (fst (t_kb s), snd (t_kb s))) by (rewrite (cs_kb _ _ _ B), A2; by destruct (t_kb s)).
  assert (Hc2 : cpuid s2 = 0) by (unfold cpuid; by rewrite (cs_h _ _ _ B), A1).
  pose proof (main_kernel s2 _ _ k1 k2 k3 kpt d' Ekb Ku Ed Hk Hc2) as E3. eexists kpt, _. split.
  { unfold main, sbind at 1, sget. rewrite Hc. cbn [Z.eqb]. unfold main_first. unfold sbind in E1 at 1.
    destruct (in_con consoleinit s) as [[] s0| | |] eqn:E0; try discriminate E1. rewrite (sbind_run _ _ _ _ _ E0), (sbind_run _ _ _ _ _ E1), E2. exact E3. }
  destruct Ku as [_ _ _ M3 F3 G3]. split; cbn [t_h t_kb t_con t_disk t_plic fst snd]; try done.
  - by rewrite (cs_h _ _ _ B), A1.
  - split; [by apply (cs_ok _ _ _ B), A5|]. split; [by apply (cs_tx _ _ _ B), A6|]. apply (cs_up _ _ _ B).
  - by rewrite (cs_out _ _ _ B), A8.
  - intros dv H1 H2 H3. apply (disk_boot_inv mmio). eexists _, pages. cbn [y_disk y_dev y_reqs]. split; [|split; [|split; [|split; [|split; [exact Ed|done]]]]];
      cbn; rewrite (cs_disk _ _ _ B), A3; done.
  - by rewrite (cs_plic _ _ _ B), A4.
Qed.
End Boot.

(** ** A machine *)

Definition on_kernel : kst := mkK (mkSb 0 0 0 0 0 0 0 0 0 0 0) (replicate NINODE inode0) [] ∅ ∅ 0 0x80021000 [] NPROC None 1 [].
Definition on_hart : hart := mkHart (fun _ => 0) (fun _ => 0) 0x80000400 Supervisor.
Definition on_con : con duart := mkCon (zeros 128) 0 0 0 (zeros 32) 0 0 false false ([], [], 0) on_kernel.
Definition on_machine : tst duart Z := mkT on_hart (on_kernel, boot ∅ 0) on_con demo_disk 0 0.

Lemma on_mem : mem_ok on_kernel [].
Proof. split; [intros a; vm_compute; reflexivity|reflexivity|reflexivity|constructor|constructor]. Qed.

Lemma on_powered : powered demo_mmio 0x80008000 0x80007000 on_machine.
Proof.
  split; [reflexivity|split; [reflexivity|lia|reflexivity|lia]|exact on_mem|cbn; lia|split; reflexivity|reflexivity| | |].
  - split; [|split; [|reflexivity]].
    + split; [|apply not_elem_of_nil]. split; [reflexivity|cbn; lia|cbn; lia|cbn; lia|vm_compute; discriminate].
    + split; [reflexivity|apply (bool_decide_unpack _); vm_compute; exact Logic.I|cbn; lia|cbn; lia|vm_compute; discriminate].
  - repeat split; reflexivity.
  - repeat split; (reflexivity || (vm_compute; discriminate)).
Qed.

Lemma main_boots_witness : exists kpt s', main dl demo_mmio 1 0x80008000 0x80007000 0x80010000 None on_machine = Ok kpt s' /\
  r_satp (t_h s') = MAKE_SATP kpt /\ tx (cn_dev (t_con s')) = boot_text.
Proof.
  destruct (@main_boots duart Z demo_uart demo_laws d_plic dl demo_mmio 1 (le_n 1) 0x80008000 0x80007000 0x80010000 on_machine on_powered) as [(kpt & s' & E & U) _].
  exists kpt, s'. split; [exact E|]. split; [by rewrite (up_hart _ _ _ _ _ _ U)|]. rewrite (up_text _ _ _ _ _ _ U). reflexivity.
Defined.
