(* ===== verification/Utils.v ===== *)
(** * The utilities (user/cat.c, wc.c, echo.c, ls.c, recyclelist.c, refresh.c)

    The programs run over the class [Sys] of system calls; [SysLaws] says what
    they get from the kernel for files that exist while descriptors last.
    Theorems: cat copies its input, wc counts it, ls lists a hashed directory
    leaf block by leaf block; an entry behind a hole of its leaf is not listed. *)
From Stdlib Require Import String Ascii.
From stdpp Require Import gmap.
From S2P Require Import Prelude Str Ulib Printf Machine Types Codec Inode.
Local Open Scope st_scope.

(** ** Definitions *)

(** A C string literal, and one with a newline at its end. *)
Definition txt (s : string) : bytes := map (fun a => Z.of_N (N_of_ascii a)) (list_ascii_of_string s).
Definition txtn (s : string) : bytes := txt s ++ [10].

(** open and fstat return a negative number or [None] when they fail; read
    returns the bytes it stores. *)
Class Sys (W : Type) := {
  u_open : bytes -> Z -> W -> Z * W;
  u_read : Z -> Z -> W -> option bytes * W;
  u_write : Z -> bytes -> W -> Z * W;
  u_close : Z -> W -> W;
  u_fstat : Z -> W -> option stat * W;
  u_show : bytes -> W -> W
}.

Section Programs.
  Context {W : Type} `{Sys W}.

Definition sys {A} (f : W -> A * W) : stM W A := fun w => let '(a, w') := f w in Ok a w'.

(** putc, fprintf and printf (user/printf.c) *)
Definition putc (fd c : Z) : stM W unit := sys (u_write fd [c]);; sret tt.
Definition fprintf (fd : Z) (fmt : bytes) (ap : list arg) : stM W unit := vprintf (putc fd) fmt false ap.
Definition uprintf (fmt : bytes) (ap : list arg) : stM W unit := fprintf 1 fmt ap.

(** stat (user/ulib.c) *)
Definition ustat (n : bytes) : stM W (option stat) :=
  fd <- sys (u_open n 0);
  if fd <? 0 then sret None
  else r <- sys (u_fstat fd); smodify (u_close fd);; sret r.

(** cat.c; the result is the status when cat calls exit. *)
Fixpoint cat (fuel : nat) (fd : Z) : stM W (option Z) :=
  match fuel with
  | O => fun _ => Wrong "cat: fuel"
  | S fuel =>
      r <- sys (u_read fd 512);
      match r with
      | None => fprintf 2 (txtn "cat: read error") [];; sret (Some 1)
      | Some [] => sret None
      | Some buf =>
          n <- sys (u_write 1 buf);
          if negb (n =? zlen buf) then fprintf 2 (txtn "cat: write error") [];; sret (Some 1)
          else cat fuel fd
      end
  end.

Fixpoint cat_args (fuel : nat) (argv : list bytes) : stM W Z :=
  match argv with
  | [] => sret 0
  | a :: argv =>
      fd <- sys (u_open a 0);
      if fd <? 0 then fprintf 2 (txtn "cat: cannot open %s") [AStr (Some a)];; sret 1
      else
        r <- cat fuel fd;
        match r with
        | Some n => sret n
        | None => smodify (u_close fd);; cat_args fuel argv
        end
  end.
Definition cat_main (fuel : nat) (argv : list bytes) : stM W Z :=
  match argv with
  | [] => r <- cat fuel 0; sret (default 0 r)
  | _ => cat_args fuel argv
  end.

(** wc.c: the loop over a buffer; l, w, c and inword *)
Record wcst := mkWc { wc_l : Z; wc_w : Z; wc_c : Z; wc_in : bool }.
Definition wc_white : bytes := [32; 13; 9; 10; 11].
Definition wc_char (s : wcst) (b : Z) : wcst :=
  let c := s32 (wc_c s + 1) in
  let l := if b =? 10 then s32 (wc_l s + 1) else wc_l s in
  match strchr wc_white b with
  | Some _ => mkWc l (wc_w s) c false
  | None => if wc_in s then mkWc l (wc_w s) c true else mkWc l (s32 (wc_w s + 1)) c true
  end.

Fixpoint wc_loop (fuel : nat) (fd : Z) (s : wcst) : stM W (option wcst) :=
  match fuel with
  | O => fun _ => Wrong "wc: fuel"
  | S fuel =>
      r <- sys (u_read fd 512);
      match r with
      | None => sret None
      | Some [] => sret (Some s)
      | Some buf => wc_loop fuel fd (foldl wc_char s buf)
      end
  end.
Definition wc (fuel : nat) (fd : Z) (name : bytes) : stM W (option Z) :=
  s <- wc_loop fuel fd (mkWc 0 0 0 false);
  match s with
  | None => uprintf (txtn "wc: read error") [];; sret (Some 1)
  | Some s => uprintf (txtn "%d %d %d %s") [AInt (wc_l s); AInt (wc_w s); AInt (wc_c s); AStr (Some name)];; sret None
  end.

Fixpoint wc_args (fuel : nat) (argv : list bytes) : stM W Z :=
  match argv with
  | [] => sret 0
  | a :: argv =>
      fd <- sys (u_open a 0);
      if fd <? 0 then uprintf (txtn "wc: cannot open %s") [AStr (Some a)];; sret 1
      else
        r <- wc fuel fd a;
        match r with
        | Some n => sret n
        | None => smodify (u_close fd);; wc_args fuel argv
        end
  end.
Definition wc_main (fuel : nat) (argv : list bytes) : stM W Z :=
  match argv with
  | [] => r <- wc fuel 0 []; sret (default 0 r)
  | _ => wc_args fuel argv
  end.

(** echo.c *)
Fixpoint echo (argv : list bytes) : stM W unit :=
  match argv with
  | [] => sret tt
  | a :: argv =>
      sys (u_write 1 (cstr a));;
      sys (u_write 1 (match argv with [] => [10] | _ => [32] end));;
      echo argv
  end.

(** ** Listing programs *)

(** The pointer loop of fmtname, from position [n] down: the position behind
    the last slash. *)
Fixpoint behind_slash (n : nat) (path : bytes) : nat :=
  if getb (Z.of_nat n) path =? 47 then S n else match n with O => O | S m => behind_slash m path end.
Definition fmtname (path : bytes) : bytes :=
  let path := cstr path in
  let p := drop (behind_slash (length path) path) path in
  if DIRSIZ <=? strlen p then p else p ++ replicate (Z.to_nat (DIRSIZ - strlen p)) 32.

(** The loop over the 16 entries of a leaf; [each] is what a program does with
    an entry and says whether it leaves the loop. *)
Fixpoint leaf_loop (msg : bytes) (each : bytes -> stat -> stM W bool) (dir : bytes) (es : list nat) (leaf : bytes) : stM W unit :=
  match es with
  | [] => sret tt
  | i :: es =>
      let de := dec_dirent (sub (16 * Z.of_nat i) 16 leaf) in
      if de_inum de =? 0 then sret tt
      else
        let buf := dir ++ [47] ++ de_name de ++ [0] in
        st <- ustat buf;
        match st with
        | None => uprintf msg [AStr (Some buf)];; leaf_loop msg each dir es leaf
        | Some st => b <- each buf st; if (b : bool) then sret tt else leaf_loop msg each dir es leaf
        end
  end.

Fixpoint dir_loop (fuel : nat) (msg : bytes) (each : bytes -> stat -> stM W bool) (dir : bytes) (fd : Z) : stM W unit :=
  match fuel with
  | O => fun _ => Wrong "ls: fuel"
  | S fuel =>
      r <- sys (u_read fd 256);
      match r with
      | Some leaf => if zlen leaf =? 256 then leaf_loop msg each dir (seq 0 16) leaf;; dir_loop fuel msg each dir fd else sret tt
      | None => sret tt
      end
  end.

(** The case T_DIR. *)
Definition list_dir (fuel : nat) (name : string) (each : bytes -> stat -> stM W bool) (path : bytes) (fd : Z) : stM W unit :=
  if 512 <? strlen path + 1 + DIRSIZ + 1 then uprintf (txtn (String.append name ": path too long")) []
  else dir_loop fuel (txtn (String.append name ": cannot stat %s")) each (cstr path) fd.

(** open, fstat and close around what a program does with a path. *)
Definition with_file (name : string) (path : bytes) (f : Z -> stat -> stM W unit) : stM W unit :=
  fd <- sys (u_open path 0);
  if fd <? 0 then fprintf 2 (txtn (String.append name ": cannot open %s")) [AStr (Some path)]
  else
    st <- sys (u_fstat fd);
    match st with
    | None => fprintf 2 (txtn (String.append name ": cannot stat %s")) [AStr (Some path)];; smodify (u_close fd)
    | Some st => f fd st;; smodify (u_close fd)
    end.

Definition file_line (path : bytes) (st : stat) : stM W unit :=
  uprintf (txtn "%s %d %d %d %d %l")
    [AStr (Some (fmtname path)); AInt (s32 (st_rwmode st)); AInt (s32 (st_supermode st)); AInt (st_type st); AInt (s32 (st_ino st)); ALong (st_size st)].
Definition entry_args (buf : bytes) (st : stat) : list arg :=
  [AStr (Some (fmtname buf)); AInt (s32 (st_rwmode st)); AInt (s32 (st_supermode st)); AInt (st_type st); AInt (s32 (st_ino st)); AInt (s32 (st_size st))].
Definition entry_line (buf : bytes) (st : stat) : stM W unit := uprintf (txtn "%s %d %d %d %d %d") (entry_args buf st).

(** ls.c *)
Definition ls_each (buf : bytes) (st : stat) : stM W bool :=
  (if st_showmode st =? 1 then entry_line buf st else sret tt);; sret false.
Definition ls (fuel : nat) (path : bytes) : stM W unit :=
  with_file "ls" path (fun fd st =>
    let dir := list_dir fuel "ls" ls_each path fd in
    if (st_type st =? T_FILE) || (st_type st =? T_EXTENT) then if st_showmode st =? 1 then file_line path st else dir
    else if st_type st =? T_DIR then dir
    else sret tt).
Definition ls_main (fuel : nat) (argv : list bytes) : stM W unit :=
  match argv with [] => ls fuel (txt ".") | _ => sfor argv (ls fuel) end.

(** recyclelist.c *)
Definition recycle_each (buf : bytes) (st : stat) : stM W bool :=
  (if st_showmode st =? 0 then entry_line buf st else sret tt);; sret false.
Definition recyclelist (fuel : nat) (path : bytes) : stM W unit :=
  with_file "recyclelist" path (fun fd st =>
    let dir := list_dir fuel "recyclelist" recycle_each path fd in
    if st_type st =? T_FILE then if st_showmode st =? 0 then file_line path st else dir
    else if st_type st =? T_DIR then dir
    else sret tt).
Definition recyclelist_main (fuel : nat) (argv : list bytes) : stM W unit :=
  match argv with [] => recyclelist fuel (txt ".") | _ => sfor argv (recyclelist fuel) end.

(** refresh.c, whose loop reports a failing stat under another name *)
Definition unhide (path : bytes) (st : stat) : stM W unit :=
  if st_showmode st =? 0 then smodify (u_show path);; uprintf (txtn "successfully refreshed") []
  else uprintf (txtn "already fresh") [].
Definition refresh (fuel : nat) (path : bytes) : stM W unit :=
  with_file "refresh" path (fun fd st =>
    if st_type st =? T_FILE then unhide path st
    else if st_type st =? T_DIR then
      if 512 <? strlen path + 1 + DIRSIZ + 1 then uprintf (txtn "refresh: path too long") []
      else dir_loop fuel (txtn "recyclelist: cannot stat %s") (fun _ st => unhide path st;; sret true) (cstr path) fd
    else sret tt).
Definition refresh_main (fuel : nat) (argv : list bytes) : stM W unit :=
  match argv with [] => uprintf (txtn "error: invalid input") [] | _ => sfor argv (refresh fuel) end.
End Programs.

(** ** What the kernel promises *)

(** [tree] are the files by name, with their status and contents.  Of a state
    of the world we see the open files, with the contents that are left to be
    read, and what was written to each descriptor.  A regular file gives all
    that is asked for, a terminal may give less. *)
Class SysLaws (W : Type) `{Sys W} (tree : bytes -> option (stat * bytes)) := {
  w_open : W -> gmap Z (stat * bytes);
  w_out : W -> Z -> bytes;
  ul_open : forall w p, exists fd w', u_open p 0 w = (fd, w') /\ w_out w' = w_out w /\
    match tree (cstr p) with
    | Some f => 0 <= fd /\ w_open w !! fd = None /\ w_open w' = <[fd := f]> (w_open w)
    | None => fd < 0 /\ w_open w' = w_open w
    end;
  ul_read : forall w fd n st d, w_open w !! fd = Some (st, d) -> 0 < n -> exists b w', u_read fd n w = (Some b, w') /\
    b = take (length b) d /\ (length b <= Z.to_nat n)%nat /\ (b = [] -> d = []) /\
    (st_type st <> 3 -> length b = Nat.min (Z.to_nat n) (length d)) /\
    w_open w' = <[fd := (st, drop (length b) d)]> (w_open w) /\ w_out w' = w_out w;
  ul_write : forall w fd b, fd = 1 \/ fd = 2 -> exists w', u_write fd b w = (zlen b, w') /\
    w_open w' = w_open w /\ w_out w' fd = w_out w fd ++ b /\ (forall x, x <> fd -> w_out w' x = w_out w x);
  ul_close : forall w fd, w_open (u_close fd w) = delete fd (w_open w) /\ w_out (u_close fd w) = w_out w;
  ul_fstat : forall w fd st d, w_open w !! fd = Some (st, d) -> exists w', u_fstat fd w = (Some st, w') /\ w_open w' = w_open w /\ w_out w' = w_out w
}.

(** What a call of printf writes. *)
Definition lput (c : Z) : stM bytes unit := smodify (fun l => l ++ [c]).
Definition text (fmt : bytes) (ap : list arg) : bytes := match vprintf lput fmt false ap [] with Ok _ l => l | _ => [] end.

(** The 16 entries of a leaf, and those in front of the first free one. *)
Definition entries (leaf : bytes) : list dirent := map (fun i => dec_dirent (sub (16 * Z.of_nat i) 16 leaf)) (seq 0 16).
Fixpoint listed (l : list dirent) : list dirent :=
  match l with
  | [] => []
  | de :: l => if de_inum de =? 0 then [] else de :: listed l
  end.
Fixpoint leaves (n : nat) (d : bytes) : list bytes :=
  match n with
  | O => []
  | S n => if bool_decide (256 <= length d)%nat then take 256 d :: leaves n (drop 256 d) else []
  end.

(** What a program that prints [et] for the status of an entry prints for an
    entry, and for a directory with the contents [d]. *)
Section Text.
  Context (tree : bytes -> option (stat * bytes)) (name : string) (et : bytes -> stat -> bytes).
Definition entry_text (dir : bytes) (de : dirent) : bytes :=
  let buf := dir ++ [47] ++ de_name de ++ [0] in
  match tree (cstr buf) with
  | None => text (txtn (String.append name ": cannot stat %s")) [AStr (Some buf)]
  | Some (st, _) => et buf st
  end.
Definition dir_text (dir d : bytes) : bytes :=
  concat (map (fun leaf => concat (map (entry_text dir) (listed (entries leaf)))) (leaves (length d) d)).
End Text.

(** What is printed for an entry whose file has the given showmode. *)
Definition shown (mode : Z) (buf : bytes) (st : stat) : bytes :=
  if st_showmode st =? mode then text (txtn "%s %d %d %d %d %d") (entry_args buf st) else [].

(** A leaf without holes. *)
Definition dense (leaf : bytes) : Prop := forall i j de, (i <= j)%nat -> entries leaf !! j = Some de -> de_inum de <> 0 ->
  exists de', entries leaf !! i = Some de' /\ de_inum de' <> 0.

(** The arguments are those the format fetches. *)
Fixpoint fits (fmt : bytes) (state : bool) (ap : list arg) : bool :=
  match fmt with
  | [] => true
  | c :: fmt =>
      if c =? 0 then true
      else if negb state then fits fmt (c =? 37) ap
      else if (c =? 100) || (c =? 120) || (c =? 99) then match ap with AInt _ :: ap => fits fmt false ap | _ => false end
      else if (c =? 108) || (c =? 112) then match ap with ALong _ :: ap => fits fmt false ap | _ => false end
      else if c =? 115 then match ap with AStr _ :: ap => fits fmt false ap | _ => false end
      else fits fmt false ap
  end.

(** ** Lemmas: printing *)

Definition adds (m : stM bytes unit) : Prop := forall l, exists t, m l = Ok tt (l ++ t).

Lemma adds_ret : adds (sret tt).
Proof. intros l. exists []. by rewrite app_nil_r. Qed.
Lemma adds_put c : adds (lput c).
Proof. intros l. by exists [c]. Qed.
Lemma adds_bind m1 m2 : adds m1 -> adds m2 -> adds (m1;; m2).
Proof. intros H1 H2 l. destruct (H1 l) as [t E]. destruct (H2 (l ++ t)) as [u F]. exists (t ++ u). unfold sbind. by rewrite E, F, app_assoc. Qed.
Lemma adds_for {I} (is' : list I) f : (forall i, adds (f i)) -> adds (sfor is' f).
Proof. intros F. induction is' as [|i is' IH]; [apply adds_ret|]. cbn [sfor]. by apply adds_bind. Qed.
Lemma adds_printint digits x base sgn : 10 <= base -> adds (printint lput digits x base sgn).
Proof.
  intros Hb. unfold printint. set (y := if sgn && (x <? 0) then u32 (- x) else u32 x). assert (Hy : 0 <= y < base ^ Z.of_nat 10).
  { assert (B : 0 <= y < 2 ^ 32) by (unfold y; case_match; apply Z.mod_pos_bound; lia). split; [lia|].
    apply (Z.lt_le_trans _ (10 ^ Z.of_nat 10)); [lia|apply Z.pow_le_mono_l; lia]. }
  destruct (printint_loop_run bytes digits base 10 15 y [] ltac:(lia) Hy ltac:(lia)) as (ds & E & _).
  intros l. unfold sbind. rewrite E. apply adds_for, adds_put.
Qed.
Create HintDb adds.
#[local] Hint Resolve adds_ret adds_put adds_bind adds_for adds_printint : adds.

Lemma fits_adds fmt state ap : fits fmt state ap = true -> adds (vprintf lput fmt state ap).
Proof.
  revert state ap. induction fmt as [|c fmt IH]; intros state ap; cbn [fits vprintf]; [auto with adds|].
  destruct (c =? 0); [auto with adds|]. destruct state; cbn [negb]; [|destruct (c =? 37); auto with adds].
  unfold printptr, prints.
  repeat match goal with |- context [c =? ?n] => destruct (Z.eqb_spec c n) as [->|?] end; cbn [orb Z.eqb Pos.eqb];
    try (destruct ap as [|[] ap]; try discriminate); intros F;
    repeat first [apply adds_bind|apply IH; assumption|apply adds_printint; lia|apply adds_for; intro|apply adds_put|apply adds_ret].
Qed.

(** Two routines for one character that agree make two printfs that agree. *)
Section Sim.
  Context {T1 T2 : Type} (R : T1 -> T2 -> Prop).

Definition sim {A} (m1 : stM T1 A) (m2 : stM T2 A) : Prop := forall x y a x', R x y -> m1 x = Ok a x' -> exists y', m2 y = Ok a y' /\ R x' y'.

Lemma sim_ret {A} (a : A) : sim (sret a) (sret a).
Proof. intros x y b x' HR [= <- <-]. by exists y. Qed.
Lemma sim_bind {A B} (m1 : stM T1 A) (m2 : stM T2 A) (f1 : A -> stM T1 B) f2 : sim m1 m2 -> (forall a, sim (f1 a) (f2 a)) -> sim (sbind m1 f1) (sbind m2 f2).
Proof.
  intros Hm Hf x y b x' HR. unfold sbind. destruct (m1 x) as [a x1| | |] eqn:E; try done. intros F.
  destruct (Hm x y a x1 HR E) as (y1 & -> & R1). exact (Hf a x1 y1 b x' R1 F).
Qed.
Lemma sim_bad {A} (m2 : stM T2 A) : sim bad_arg m2.
Proof. intros x y a x' _ [=]. Qed.
Lemma sim_for {I} (is' : list I) f1 f2 : (forall i, sim (f1 i) (f2 i)) -> sim (sfor is' f1) (sfor is' f2).
Proof. intros F. induction is' as [|i is' IH]; [apply sim_ret|]. cbn [sfor]. apply sim_bind; auto. Qed.

  Context (p1 : Z -> stM T1 unit) (p2 : Z -> stM T2 unit) (Hp : forall c, sim (p1 c) (p2 c)).

Lemma sim_printint digits x base sgn : sim (printint p1 digits x base sgn) (printint p2 digits x base sgn).
Proof.
  unfold printint. apply sim_bind; [|intros; by apply sim_for]. generalize (if sgn && (x <? 0) then u32 (- x) else u32 x). generalize (@nil Z). generalize 15%nat as n.
  induction n as [|n IH]; intros buf y; cbn [printint_loop]; [intros ? ? ? ? _ [=]|]. destruct (_ =? 0); [apply sim_ret|apply IH].
Qed.

Lemma sim_vprintf fmt state ap : sim (vprintf p1 fmt state ap) (vprintf p2 fmt state ap).
Proof.
  revert state ap. induction fmt as [|c fmt IH]; intros state ap; cbn [vprintf]; [apply sim_ret|]. unfold printptr, prints.
  repeat case_match; repeat first [apply sim_ret|apply IH|apply Hp|apply sim_printint|apply sim_bad|apply sim_for; intro|apply sim_bind; [|intro]].
Qed.
End Sim.

(** ** Lemmas: the programs' steps *)

Section Laws.
  Context {W : Type} {SY : Sys W} {tree : bytes -> option (stat * bytes)} {SL : SysLaws W tree}.

(** Nothing changed but that [o] was written to descriptor [fd]. *)
Record says (fd : Z) (w w' : W) (o : bytes) : Prop := {
  sa_open : w_open w' = w_open w;
  sa_out : w_out w' fd = w_out w fd ++ o;
  sa_rest : forall x, x <> fd -> w_out w' x = w_out w x
}.

Lemma says_nil fd w w' : w_open w' = w_open w -> w_out w' = w_out w -> says fd w w' [].
Proof. intros E1 E2. split; [done| |]; rewrite E2; [by rewrite app_nil_r|done]. Qed.
Lemma says_trans fd w1 w2 w3 o1 o2 : says fd w1 w2 o1 -> says fd w2 w3 o2 -> says fd w1 w3 (o1 ++ o2).
Proof.
  intros [A1 A2 A3] [B1 B2 B3]. split; [congruence| |].
  - by rewrite B2, A2, app_assoc.
  - intros x Hx. by rewrite B3, A3.
Qed.

Lemma write_says fd b w : fd = 1 \/ fd = 2 -> exists w', u_write fd b w = (zlen b, w') /\ says fd w w' b.
Proof. intros F. destruct (ul_write w fd b F) as (w' & E & H1 & H2 & H3). by exists w'. Qed.

Lemma fprintf_says fd fmt ap w : fd = 1 \/ fd = 2 -> fits fmt false ap = true -> exists w', fprintf fd fmt ap w = Ok tt w' /\ says fd w w' (text fmt ap).
Proof.
  intros F Ft. destruct (fits_adds fmt false ap Ft []) as [t E]. unfold text. rewrite E. cbn [app] in *.
  refine (sim_vprintf (fun l w' => says fd w w' l) lput (putc fd) _ fmt false ap [] w tt t _ E); [|by apply says_nil].
  intros c l w1 [] l' HS [= <-]. unfold putc, sys, sbind. destruct (write_says fd [c] w1 F) as (w2 & -> & H2). exists w2. split; [done|]. by apply (says_trans fd w w1).
Qed.

Lemma ustat_run n w : exists w', ustat n w = Ok (fst <$> tree (cstr n)) w' /\ w_open w' = w_open w /\ w_out w' = w_out w.
Proof.
  unfold ustat, sbind, sys, smodify, sret. destruct (ul_open w n) as (fd & w1 & -> & O1 & H1). destruct (tree (cstr n)) as [[st d]|].
  - destruct H1 as (Hfd & Hn & Ho). rewrite (proj2 (Z.ltb_ge fd 0)) by lia.
    destruct (ul_fstat w1 fd st d) as (w2 & -> & Ho2 & O2); [by rewrite Ho, lookup_insert_eq|]. destruct (ul_close w2 fd) as [C1 C2].
    exists (u_close fd w2). split; [done|]. rewrite C1, C2, Ho2, Ho, O2, O1. split; [by apply delete_insert_id|done].
  - destruct H1 as [Hfd Ho]. rewrite (proj2 (Z.ltb_lt fd 0)) by lia. by exists w1.
Qed.

(** ** cat and wc *)

(** cat copies all of its input. *)
Lemma cat_copies fuel fd st d w : w_open w !! fd = Some (st, d) -> (length d < fuel)%nat -> exists w',
  cat fuel fd w = Ok None w' /\ w_open w' = <[fd := (st, [])]> (w_open w) /\ w_out w' 1 = w_out w 1 ++ d.
Proof.
  revert d w. induction fuel as [|fuel IH]; intros d w Hd Hf; [lia|]. cbn [cat]. unfold sys, sbind, sret.
  destruct (ul_read w fd 512 st d Hd ltac:(lia)) as (b & w1 & -> & Hb & _ & Hn & _ & Ho & O1). destruct b as [|c b].
  - rewrite (Hn eq_refl) in *. exists w1. split; [done|]. rewrite Ho, O1, app_nil_r. by rewrite drop_nil.
  - destruct (write_says 1 (c :: b) w1) as (w2 & -> & S2); [by left|]. rewrite Z.eqb_refl. cbn [negb].
    destruct (IH (drop (length (c :: b)) d) w2) as (w' & -> & Ho' & O').
    { by rewrite (sa_open _ _ _ _ S2), Ho, lookup_insert_eq. }
    { rewrite length_drop. apply (f_equal length) in Hb. rewrite length_take in Hb. cbn [length] in *. lia. }
    exists w'. split; [done|]. rewrite Ho', O', (sa_open _ _ _ _ S2), Ho, (sa_out _ _ _ _ S2), O1. split; [by rewrite insert_insert_eq|].
    rewrite <- app_assoc, Hb at 1. by rewrite take_drop.
Qed.

Lemma wc_loop_run fuel fd st d s w : w_open w !! fd = Some (st, d) -> (length d < fuel)%nat -> exists w',
  wc_loop fuel fd s w = Ok (Some (foldl wc_char s d)) w' /\ w_open w' = <[fd := (st, [])]> (w_open w) /\ w_out w' = w_out w.
Proof.
  revert d s w. induction fuel as [|fuel IH]; intros d s w Hd Hf; [lia|]. cbn [wc_loop]. unfold sys, sbind, sret.
  destruct (ul_read w fd 512 st d Hd ltac:(lia)) as (b & w1 & -> & Hb & _ & Hn & _ & Ho & O1). destruct b as [|c b].
  - rewrite (Hn eq_refl) in *. exists w1. split; [done|]. by rewrite Ho, drop_nil.
  - destruct (IH (drop (length (c :: b)) d) (foldl wc_char s (c :: b)) w1) as (w' & -> & Ho' & O').
    { by rewrite Ho, lookup_insert_eq. }
    { rewrite length_drop. apply (f_equal length) in Hb. rewrite length_take in Hb. cbn [length] in *. lia. }
    exists w'. rewrite Ho', O', Ho, O1. split; [|by rewrite insert_insert_eq].
    rewrite <- foldl_app. do 3 f_equal. rewrite Hb at 1. apply take_drop.
Qed.

(** ** Listings *)

Section List.
  Context (name : string) (each : bytes -> stat -> stM W bool) (et : bytes -> stat -> bytes).
  Context (Heach : forall buf st w, exists w', each buf st w = Ok false w' /\ says 1 w w' (et buf st)).
  Context (Hname : forall s, fits (txtn (String.append name ": cannot stat %s")) false [AStr s] = true).

Let msg : bytes := txtn (String.append name ": cannot stat %s").

Lemma leaf_run dir es leaf w : exists w', leaf_loop msg each dir es leaf w = Ok tt w' /\
  says 1 w w' (concat (map (entry_text tree name et dir) (listed (map (fun i => dec_dirent (sub (16 * Z.of_nat i) 16 leaf)) es)))).
Proof.
  revert w. induction es as [|i es IH]; intros w; cbn [leaf_loop map listed]; [exists w; by split; [|apply says_nil]|].
  set (de := dec_dirent _). destruct (de_inum de =? 0); [exists w; by split; [|apply says_nil]|].
  cbn [map concat]. unfold entry_text at 1. set (buf := dir ++ [47] ++ de_name de ++ [0]). unfold sbind.
  destruct (ustat_run buf w) as (w1 & -> & E1 & E2). pose proof (says_nil 1 w w1 E1 E2) as S1. destruct (tree (cstr buf)) as [[st d]|]; cbn [fmap option_fmap option_map fst].
  - destruct (Heach buf st w1) as (w2 & -> & S2). destruct (IH w2) as (w3 & -> & S3). exists w3. split; [done|].
    apply (says_trans 1 w w1 w3 [] _ S1). by apply (says_trans 1 w1 w2).
  - destruct (fprintf_says 1 msg [AStr (Some buf)] w1) as (w2 & E & S2); [by left|apply Hname|].
    unfold uprintf. rewrite E. destruct (IH w2) as (w3 & -> & S3). exists w3. split; [done|].
    apply (says_trans 1 w w1 w3 [] _ S1). by apply (says_trans 1 w1 w2).
Qed.

Lemma dir_run fuel n dir fd st d w : w_open w !! fd = Some (st, d) -> st_type st <> 3 -> (length d < fuel)%nat -> (length d <= n)%nat -> exists w' d',
  dir_loop fuel msg each dir fd w = Ok tt w' /\ w_open w' = <[fd := (st, d')]> (w_open w) /\
  w_out w' 1 = w_out w 1 ++ concat (map (fun leaf => concat (map (entry_text tree name et dir) (listed (entries leaf)))) (leaves n d)) /\
  (forall x, x <> 1 -> w_out w' x = w_out w x).
Proof.
  intros Hd Ht. revert n d w Hd. induction fuel as [|fuel IH]; intros n d w Hd Hf Hn; [lia|]. cbn [dir_loop]. unfold sys, sbind, sret.
  destruct (ul_read w fd 256 st d Hd ltac:(lia)) as (b & w1 & -> & Hb & _ & _ & Hl & Ho & O1). specialize (Hl Ht). change (Z.to_nat 256) with 256%nat in Hl.
  destruct (Z.eqb_spec (zlen b) 256) as [E|E]; unfold zlen in E.
  - assert (E' : length b = 256%nat) by lia. destruct n as [|n]; [lia|]. cbn [leaves]. rewrite bool_decide_eq_true_2 by lia. rewrite E' in *.
    destruct (leaf_run dir (seq 0 16) b w1) as (w2 & -> & S2). destruct (IH n (drop 256 d) w2) as (w' & d' & -> & Ho' & O' & R'); try (rewrite length_drop; lia).
    { by rewrite (sa_open _ _ _ _ S2), Ho, lookup_insert_eq. }
    exists w', d'. split; [done|]. rewrite Ho', O', (sa_open _ _ _ _ S2), Ho, (sa_out _ _ _ _ S2), O1, insert_insert_eq. cbn [map concat]. rewrite <- Hb.
    split; [done|]. split; [by rewrite app_assoc|]. intros x Hx. by rewrite (R' x Hx), (sa_rest _ _ _ _ S2 x Hx), O1.
  - exists w1, (drop (length b) d). rewrite O1. split; [done|]. split; [done|]. split; [|done].
    replace (leaves n d) with (@nil bytes); [by rewrite app_nil_r|]. destruct n; [done|]. cbn [leaves]. by rewrite bool_decide_eq_false_2 by lia.
Qed.

(** A program around the loop, on a directory. *)
Lemma list_run fuel path st d w (f : Z -> stat -> stM W unit) : tree (cstr path) = Some (st, d) -> st_type st = T_DIR -> strlen path <= 496 -> (length d < fuel)%nat ->
  (forall fd, f fd st = list_dir fuel name each path fd) ->
  exists w', with_file name path f w = Ok tt w' /\ says 1 w w' (dir_text tree name et (cstr path) d).
Proof.
  intros Hp Ht Hs Hf Ef. unfold with_file, sys, sbind. destruct (ul_open w path) as (fd & w1 & -> & O1 & H1). rewrite Hp in H1. destruct H1 as (Hfd & Hn & Ho).
  rewrite (proj2 (Z.ltb_ge fd 0)) by lia. assert (H1 : w_open w1 !! fd = Some (st, d)) by (by rewrite Ho, lookup_insert_eq).
  destruct (ul_fstat w1 fd st d H1) as (w2 & -> & Ho2 & O2). rewrite Ef. unfold list_dir. fold msg. rewrite (proj2 (Z.ltb_ge _ _)) by lia.
  destruct (dir_run fuel (length d) (cstr path) fd st d w2) as (w3 & d' & -> & Ho3 & O3 & R3); [by rewrite Ho2|by rewrite Ht|done|done|].
  destruct (ul_close w3 fd) as [C1 C2]. exists (u_close fd w3). split; [done|]. split.
  - rewrite C1, Ho3, Ho2, Ho, insert_insert_eq. by apply delete_insert_id.
  - by rewrite C2, O3, O2, O1.
  - intros x Hx. by rewrite C2, R3, O2, O1.
Qed.
End List.
End Laws.

(** ** Lemmas: what is listed *)

Lemma listed_dense l de : (forall i j de, (i <= j)%nat -> l !! j = Some de -> de_inum de <> 0 -> exists de', l !! i = Some de' /\ de_inum de' <> 0) ->
  de ∈ l -> de_inum de <> 0 -> de ∈ listed l.
Proof.
  induction l as [|x l IH]; intros D Hin Hn; [done|]. apply list_elem_of_lookup in Hin as [j Hj]. cbn [listed].
  destruct (D 0%nat j de ltac:(lia) Hj Hn) as (x' & [= <-] & Hx). rewrite (proj2 (Z.eqb_neq _ _)) by done.
  destruct j as [|j]; [injection Hj as <-; by left|]. right. apply IH; [|by apply list_elem_of_lookup; exists j|done].
  intros i k de' Hik Hk Hz. exact (D (S i) (S k) de' ltac:(lia) Hk Hz).
Qed.

Lemma concat_part {A B} (f : A -> list B) x l : x ∈ l -> exists a b, concat (map f l) = a ++ f x ++ b.
Proof.
  intros (l1 & l2 & ->)%list_elem_of_split. exists (concat (map f l1)), (concat (map f l2)). by rewrite map_app, concat_app.
Qed.

Lemma dir_text_part tree name et dir d leaf de : leaf ∈ leaves (length d) d -> dense leaf -> de ∈ entries leaf -> de_inum de <> 0 ->
  exists a b, dir_text tree name et dir d = a ++ entry_text tree name et dir de ++ b.
Proof.
  intros Hl D Hin Hn. destruct (concat_part (fun leaf => concat (map (entry_text tree name et dir) (listed (entries leaf)))) leaf _ Hl) as (a1 & b1 & E1).
  destruct (concat_part (entry_text tree name et dir) de _ (listed_dense _ de D Hin Hn)) as (a2 & b2 & E2).
  exists (a1 ++ a2), (b2 ++ b1). unfold dir_text. rewrite E1, E2. by rewrite <- !app_assoc.
Qed.

Section Each.
  Context {W : Type} {SY : Sys W} {tree : bytes -> option (stat * bytes)} {SL : SysLaws W tree}.

Lemma shown_says mode buf st (w : W) : exists w', ((if st_showmode st =? mode then entry_line buf st else sret tt);; sret false) w = Ok false w' /\ says 1 w w' (shown mode buf st).
Proof.
  unfold shown, sbind. destruct (_ =? _); [|exists w; by split; [|apply says_nil]].
  destruct (fprintf_says 1 (txtn "%s %d %d %d %d %d") (entry_args buf st) w) as (w' & E & S); [by left|done|].
  unfold entry_line, uprintf. rewrite E. by exists w'.
Qed.
End Each.

Lemma behind_slash_at k n s : (k <= n)%nat -> getb (Z.of_nat k) s = 47 -> (forall i, (k < i <= n)%nat -> getb (Z.of_nat i) s <> 47) -> behind_slash n s = S k.
Proof.
  intros Hk E. induction n as [|n IH]; intros N; cbn [behind_slash].
  - replace k with 0%nat in * by lia. change (Z.of_nat 0) with 0 in *. by rewrite E.
  - destruct (decide (k = S n)) as [->|]; [by rewrite E|]. rewrite (proj2 (Z.eqb_neq _ _)) by (apply N; lia).
    apply IH; [lia|]. intros i Hi. apply N. lia.
Qed.

Lemma cstr_app a b : 0 ∉ a -> cstr (a ++ b) = a ++ cstr b.
Proof.
  induction a as [|c a IH]; intros N; [done|]. apply not_elem_of_cons in N as [N1 N2]. cbn [app cstr].
  by rewrite (proj2 (Z.eqb_neq c 0)), IH by done.
Qed.
Lemma cstr_id a : 0 ∉ a -> cstr a = a.
Proof. intros N. rewrite <- (app_nil_r a) at 1. rewrite cstr_app by done. cbn. apply app_nil_r. Qed.
Lemma strlen_cstr s : strlen s = zlen (cstr s).
Proof. induction s as [|c s IH]; [done|]. cbn [strlen cstr]. destruct (c =? 0); [done|]. rewrite IH. unfold zlen. cbn [length]. lia. Qed.

(** Names are printed without their directory, padded to 14 characters. *)
Lemma fmtname_entry dir name : 0 ∉ dir -> 0 ∉ name -> 47 ∉ name ->
  fmtname (dir ++ [47] ++ name ++ [0]) = name ++ replicate (14 - length name) 32.
Proof.
  intros Hd Hn Hs. unfold fmtname. assert (E : cstr (dir ++ [47] ++ name ++ [0]) = dir ++ [47] ++ name).
  { rewrite cstr_app by done. cbn [app cstr]. rewrite (proj2 (Z.eqb_neq 47 0)) by lia. rewrite cstr_app by done. cbn. by rewrite app_nil_r. }
  rewrite E. rewrite (behind_slash_at (length dir)).
  - replace (S (length dir)) with (length (dir ++ [47])) by (rewrite length_app; cbn; lia). rewrite app_assoc, drop_app_length.
    rewrite strlen_cstr, cstr_id by done. unfold zlen. destruct (Z.leb_spec 14 (Z.of_nat (length name))).
    + replace (14 - length name)%nat with 0%nat by lia. by rewrite app_nil_r.
    + do 2 f_equal. lia.
  - rewrite length_app. lia.
  - unfold getb. rewrite Nat2Z.id, app_nth2 by lia. by rewrite Nat.sub_diag.
  - intros i [Hi Hl] E'. unfold getb in E'. rewrite Nat2Z.id, app_nth2 in E' by lia. destruct (i - length dir)%nat as [|j] eqn:J; [lia|].
    cbn [app nth] in E'. destruct (decide (j < length name)%nat); [|by rewrite nth_overflow in E' by lia].
    apply Hs. rewrite <- E'. apply list_elem_of_In, nth_In. lia.
Qed.

(** ** Lemmas: words *)

(** The pieces of a text between white space. *)
Definition is_white (b : Z) : bool := existsb (Z.eqb b) wc_white.
Fixpoint pieces (l : bytes) : list bytes :=
  match l with
  | [] => [[]]
  | c :: l => if is_white c then [] :: pieces l else match pieces l with [] => [[c]] | x :: xs => (c :: x) :: xs end
  end.
Definition words (l : bytes) : list bytes := filter (fun p => p <> []) (pieces l).

Lemma pieces_cons l : exists p ps, pieces l = p :: ps.
Proof. destruct l as [|c l]; cbn [pieces]; [by exists [], []|]. destruct (is_white c); [eauto|]. destruct (pieces l); eauto. Qed.

Lemma white_test b : (exists x, strchr wc_white b = Some x) <-> is_white b = true.
Proof.
  unfold is_white, wc_white. cbn [strchr existsb]. rewrite !(Z.eqb_sym b).
  destruct (32 =? b), (13 =? b), (9 =? b), (10 =? b), (11 =? b); cbn; split; first [done|by eauto|intros [? E]; discriminate E].
Qed.

Lemma s32_s32_add a b : s32 (s32 a + b) = s32 (a + b).
Proof. apply s32_ext. rewrite Zplus_mod, s32_mod, <- Zplus_mod. done. Qed.

(** The counters after a text, when a first piece that goes on a word is not a
    new one. *)
Lemma wc_fold d L N C (b : bool) : exists b',
  foldl wc_char (mkWc (s32 L) (s32 N) (s32 C) b) d =
  mkWc (s32 (L + zlen (filter (fun c => c = 10) d))) (s32 (N + zlen (words d) - (if b && bool_decide (head (pieces d) <> Some []) then 1 else 0))) (s32 (C + zlen d)) b'.
Proof.
  revert L N C b. induction d as [|c d IH]; intros L N C b.
  - exists b. cbn. rewrite !Z.add_0_r, andb_false_r, Z.sub_0_r. done.
  - cbn [foldl]. unfold wc_char at 2. cbn [wc_l wc_w wc_c wc_in]. rewrite !s32_s32_add.
    replace (if c =? 10 then s32 (L + 1) else s32 L) with (s32 (L + (if c =? 10 then 1 else 0))) by (destruct (c =? 10); [done|by rewrite Z.add_0_r]).
    assert (Ec : C + 1 + zlen d = C + zlen (c :: d)) by (unfold zlen; cbn [length]; lia).
    assert (El : L + (if c =? 10 then 1 else 0) + zlen (filter (fun c => c = 10) d) = L + zlen (filter (fun c => c = 10) (c :: d))).
    { destruct (Z.eqb_spec c 10); [rewrite filter_cons_True by done|rewrite filter_cons_False by done]; unfold zlen; cbn [length]; lia. }
    unfold words. cbn [pieces]. destruct (pieces_cons d) as (p & ps & E). destruct (strchr wc_white c) as [x|] eqn:Ex.
    + rewrite (proj1 (white_test c)) by eauto. destruct (IH (L + (if c =? 10 then 1 else 0)) N (C + 1) false) as [b' ->].
      exists b'. rewrite El, Ec. cbn [andb]. rewrite (filter_cons_False (fun p : bytes => p <> []) [] (pieces d)) by (intros F; by apply F). cbn [head]. rewrite (bool_decide_eq_false_2 (Some [] <> Some [])) by (intros F; by apply F). by rewrite andb_false_r.
    + assert (Ew : is_white c = false) by (apply not_true_is_false; intros Hw; apply white_test in Hw as [? Hw]; congruence). rewrite Ew, E.
      destruct (IH (L + (if c =? 10 then 1 else 0)) (N + (if b then 0 else 1)) (C + 1) true) as [b' F].
      exists b'. rewrite El, Ec in F. unfold words in F. rewrite E in F.
      assert (Z1 : zlen (filter (fun q => q <> []) ((c :: p) :: ps)) = 1 + zlen (filter (fun q => q <> []) ps)) by (rewrite filter_cons_True by done; unfold zlen; cbn [length]; lia).
      assert (Z2 : zlen (filter (fun q => q <> []) (p :: ps)) - (if true && bool_decide (head (p :: ps) <> Some []) then 1 else 0) = zlen (filter (fun q => q <> []) ps)).
      { cbn [head andb]. destruct p as [|x p].
        - rewrite filter_cons_False, bool_decide_eq_false_2 by (intros G; by apply G). lia.
        - rewrite filter_cons_True, bool_decide_eq_true_2 by done. unfold zlen. cbn [length]. lia. }
      cbn [head]. rewrite (bool_decide_eq_true_2 (Some (c :: p) <> Some [])) by done. rewrite andb_true_r, Z1.
      replace (N + (1 + zlen (filter (fun q => q <> []) ps)) - (if b then 1 else 0)) with (N + (if b then 0 else 1) + zlen (filter (fun q => q <> []) ps)) by (destruct b; lia).
      rewrite <- Z2, Z.add_sub_assoc, <- F. destruct b; [|done]. by rewrite Z.add_0_r.
Qed.

(** ** Theorems *)

Section Theorems.
  Context {W : Type} {SY : Sys W} {tree : bytes -> option (stat * bytes)} {SL : SysLaws W tree}.

(** wc prints the numbers of newlines, of words and of bytes of its input, as
    ints. *)
Theorem wc_counts fuel fd st d name (w : W) : w_open w !! fd = Some (st, d) -> (length d < fuel)%nat -> exists w',
  wc fuel fd name w = Ok None w' /\
  w_out w' 1 = w_out w 1 ++ text (txtn "%d %d %d %s") [AInt (s32 (zlen (filter (fun c => c = 10) d))); AInt (s32 (zlen (words d))); AInt (s32 (zlen d)); AStr (Some name)].
Proof.
  intros Hd Hf. unfold wc, sbind. destruct (wc_loop_run fuel fd st d (mkWc 0 0 0 false) w Hd Hf) as (w1 & -> & _ & O1).
  destruct (wc_fold d 0 0 0 false) as [b E]. change (s32 0) with 0 in E. rewrite E. cbn [wc_l wc_w wc_c andb]. rewrite Z.sub_0_r, !Z.add_0_l.
  unfold uprintf. edestruct (fprintf_says 1) as (w2 & E2 & S2); [by left| |rewrite E2]; [done|]. exists w2. split; [done|].
  by rewrite (sa_out _ _ _ _ S2), O1.
Qed.

End Theorems.

(** ** A concrete world *)

Record demo_world := mkWorld { dw_open : gmap nat (stat * bytes); dw_out : Z -> bytes }.

Definition demo_stat (type ino showmode : Z) : stat := mkStat 1 ino type 1 0 3 0 showmode [].
(** A directory "d" with one leaf whose first entry was removed, a directory
    "e" with a leaf without holes, and the file "a" in both. *)
Definition demo_entry (inum : Z) (name : bytes) : bytes := enc_dirent (mkDe inum (name ++ zeros (14 - zlen name))).
Definition demo_tree (p : bytes) : option (stat * bytes) :=
  if bool_decide (p = txt "d") then Some (demo_stat T_DIR 2 1, demo_entry 0 [] ++ demo_entry 7 (txt "a") ++ zeros 224)
  else if bool_decide (p = txt "e") then Some (demo_stat T_DIR 3 1, demo_entry 7 (txt "a") ++ zeros 240)
  else if bool_decide (p = txt "d/a") || bool_decide (p = txt "e/a") then Some (demo_stat T_FILE 7 1, txt "a b")
  else None.

Definition demo_fd (w : demo_world) : nat := fresh (dom (dw_open w) : gset nat).
#[export] Instance demo_sys : Sys demo_world := {
  u_open p _ w := match demo_tree (cstr p) with
    | Some f => (Z.of_nat (demo_fd w), mkWorld (<[demo_fd w := f]> (dw_open w)) (dw_out w))
    | None => (-1, w) end;
  u_read fd n w := match (if fd <? 0 then None else dw_open w !! Z.to_nat fd) with
    | Some (st, d) => (Some (take (Z.to_nat n) d), mkWorld (<[Z.to_nat fd := (st, drop (Z.to_nat n) d)]> (dw_open w)) (dw_out w))
    | None => (None, w) end;
  u_write fd b w := (zlen b, mkWorld (dw_open w) (fun x => if x =? fd then dw_out w x ++ b else dw_out w x));
  u_close fd w := mkWorld (if fd <? 0 then dw_open w else delete (Z.to_nat fd) (dw_open w)) (dw_out w);
  u_fstat fd w := (fst <$> (if fd <? 0 then None else dw_open w !! Z.to_nat fd), w);
  u_show _ w := w
}.

Lemma demo_fd_free w : dw_open w !! demo_fd w = None.
Proof. apply (not_elem_of_dom (D := gset nat)). unfold demo_fd. exact (is_fresh (dom (dw_open w) : gset nat)). Qed.

Lemma demo_at (m : gmap nat (stat * bytes)) fd x : (kmap Z.of_nat m : gmap Z (stat * bytes)) !! fd = Some x -> fd = Z.of_nat (Z.to_nat fd) /\ m !! Z.to_nat fd = Some x.
Proof. intros (i & -> & H)%lookup_kmap_Some; [|apply _]. by rewrite Nat2Z.id. Qed.

Lemma take_min {A} n (d : list A) : take n d = take (n `min` length d) d /\ drop n d = drop (n `min` length d) d.
Proof.
  destruct (Nat.le_gt_cases n (length d)); [by rewrite Nat.min_l|]. rewrite Nat.min_r by lia. by rewrite firstn_all, skipn_all, take_ge, drop_ge by lia.
Qed.

#[export] Program Instance demo_sys_laws : SysLaws demo_world demo_tree := {
  w_open w := kmap Z.of_nat (dw_open w);
  w_out w := dw_out w
}.
Next Obligation.
  intros w p. cbn -[demo_fd]. destruct (demo_tree (cstr p)) as [f|]; do 2 eexists; (split; [done|]); (split; [done|]); cbn -[demo_fd]; [|by split].
  split; [lia|]. rewrite lookup_kmap by apply _. split; [apply demo_fd_free|]. by rewrite kmap_insert by apply _.
Qed.
Next Obligation.
  intros w fd n st d H Hn. apply demo_at in H as [E H]. cbn. rewrite (proj2 (Z.ltb_ge fd 0)), H by lia. do 2 eexists. split; [done|].
  destruct (take_min (Z.to_nat n) d) as [T D]. rewrite length_take. split; [exact T|]. split; [lia|]. split.
  - intros Hz. apply (f_equal length) in Hz. rewrite length_take in Hz. destruct d; [done|]. cbn in Hz. lia.
  - split; [done|]. split; [|done]. cbn. rewrite kmap_insert by apply _. by rewrite D, <- E.
Qed.
Next Obligation.
  intros w fd b _. eexists. split; [done|]. cbn. split; [done|]. rewrite Z.eqb_refl. split; [done|]. intros x Hx. by rewrite (proj2 (Z.eqb_neq x fd)).
Qed.
Next Obligation.
  intros w fd. cbn. split; [|done]. destruct (Z.ltb_spec fd 0).
  - symmetry. apply delete_id. apply eq_None_not_Some. intros [x Hx]. apply demo_at in Hx as [E _]. lia.
  - rewrite kmap_delete by apply _. by rewrite Z2Nat.id.
Qed.
Next Obligation.
  intros w fd st d H. apply demo_at in H as [E H]. exists w. cbn. by rewrite (proj2 (Z.ltb_ge fd 0)), H by lia.
Qed.

Definition demo0 : demo_world := mkWorld ∅ (fun _ => []).
Definition demo_out (o : outcome demo_world unit) : bytes := match o with Ok _ w => dw_out w 1 | _ => [] end.


(** An entry behind a free one of its leaf, as unlink leaves it, is a visible
    file that opens under its name, but ls does not print it. *)
Theorem ls_hole_hides :
  (exists st d, demo_tree (txt "d/a") = Some (st, d) /\ st_showmode st = 1) /\
  (exists st leaf, demo_tree (txt "d") = Some (st, leaf) /\ mkDe 7 (txt "a" ++ zeros 13) ∈ entries leaf) /\
  demo_out (ls 300 (txt "d") demo0) = [].
Proof.
  split; [|split]; [do 2 eexists; split; vm_compute; reflexivity| |vm_compute; reflexivity].
  do 2 eexists. split; [reflexivity|]. apply list_elem_of_lookup. exists 1%nat. vm_compute. reflexivity.
Qed.
